(* ===== verification/_CoqProject ===== *)
-Q . S2P
Prelude.v
Fcntl.v
Riscv.v
Memory.v
Umalloc.v
UmallocProof.v
UmallocTheorems.v
Ulib.v
Usys.v
Ring.v
Spinlock.v
Sleeplock.v
Kalloc.v
Vm.v
PageTable.v
VmMap.v
UserVm.v
UvmCopy.v
VmFree.v
VmCopy.v
VmExample.v
VmTheorems.v
Block.v
BlockCache.v
Bio.v
BioList.v
BioProof.v
Log.v
LogProof.v
LogCrash.v
LogTheorems.v
Tx.v
LogTx.v
CopyIO.v
Fs.v
FsBlock.v
FsFile.v
FsRead.v
FsInode.v
FsWrite.v
FsTrunc.v
FsExample.v
FsTheorems.v
FsDir.v
FsPath.v
Mkfs.v
MkfsProof.v
MkfsTheorems.v
MkfsPath.v
Hart.v
HartProof.v
Boot.v
Proc.v
ProcProof.v
UserCall.v
Console.v
ConsoleProof.v
Uprintf.v
Virtio.v
File.v
PipeProof.v
Kernel.v
ProcLife.v
ProcBirth.v
Fork.v
VirtioProof.v
Syscall.v
Initcode.v
Exec.v
Sysfile.v
Trap.v
Main.v
Grep.v
Uprogs.v
UprogsProof.v
Grind.v
Usertests.v
Sh.v
ShProof.v
ShRun.v
