(* ===== verification/Prelude.v ===== *)
(** * A verification development for the xv6 kernel and its user programs

    The program is xv6 for RISC-V: a small Unix-like kernel (src/kernel), user
    programs with their library (src/user), and the program that builds the first
    disk image (src/mkfs).  This development translates the C and assembly of
    the kernel, the C of the user programs and mkfs into executable definitions,
    and proves what the parts promise to each other.

    ** How the code is translated

    C integers are [Z], with every conversion to a fixed width written out
    ([wrap32], [s32], ...).  A routine is a function in the monad [M S A] below:
    from a state [S] it returns a value and a state ([Ok]), calls [panic]
    ([Panic]), waits for somebody else ([Blocked]), or exhausts the fuel of a
    loop ([NoFuel]).  [wp c Q s] says that the call [c] returns, in a state that
    satisfies [Q]: a theorem stated with it excludes the other three outcomes,
    so that it also says that the fuel is enough and that nothing panics.
    Memory is a map from addresses to bytes; page tables, free pages and user
    memory are read and written in it, as the code does.  A routine that
    gives up the CPU is cut at [swtch]: its value says where it sleeps, and the
    definition named [..._again] or [..._return] continues it.  The state of
    a lower layer is used in a higher one through [zoom].

    A user program is an interaction tree whose events are its system calls
    (Usys.v): a loop is an iteration that need not end, and [exec] and [exit] do
    not return.  [run] (Usys.v) carries the calls out on files and descriptors,
    [exec_fds] (ShRun.v) on a table of descriptors alone; the theorems relate the
    tree that results to the one that is meant, up to silent steps ([eutt]).

    Layers meet at classes: [BlockCache] (what the log relies on; Bio.v has the
    instance), [TxOps] and [Tx] (what the file system relies on; the log in
    LogTx.v and a disk in memory in FsExample.v are instances) and [CopyOps] and
    [CopyIO] (the copies from and to user memory).

    ** The parts of the program and the files that model them

    - kernel/riscv.h, memlayout.h, param.h: Riscv.v, Hart.v (control
      registers), Boot.v (PLIC and CLINT), Fcntl.v (fcntl.h).
    - kernel/string.c: Memory.v.
    - kernel/spinlock.c: Spinlock.v.  The pieces between two atomic accesses
      are steps of a system of harts; [spinlock_mutual_exclusion] holds for
      every interleaving.  The other files use the view that one hart has of
      a lock ([spin]), which is proved faithful there.
    - kernel/sleeplock.c: Sleeplock.v, with competing processes as a step
      relation.
    - kernel/kalloc.c: Kalloc.v.  Pages are never handed out twice.
    - kernel/vm.c: Vm.v (and [kvminit] in Main.v); PageTable.v, VmMap.v,
      UserVm.v, UvmCopy.v, VmFree.v, VmCopy.v have the invariant of an address
      space and its proofs; VmTheorems.v the theorems: mapping, growing,
      copying and freeing an address space, and the isolation of [copyin],
      [copyout] and [copyinstr]; VmExample.v a concrete one.
    - kernel/bio.c: Bio.v; BioList.v and BioProof.v show that its linked list
      and its reference counts implement [BlockCache].
    - kernel/log.c: Log.v; LogProof.v, LogCrash.v and LogTheorems.v show that a
      transaction is installed as a whole or not at all, whatever prefix of the
      disk writes is done when the machine stops, and that recovery may be
      interrupted in turn.
    - kernel/fs.c, fs.h, stat.h: Fs.v; FsBlock.v, FsFile.v, FsRead.v,
      FsInode.v, FsWrite.v and FsTrunc.v have the invariant of the disk image
      and of inodes, FsTheorems.v the theorems: [writei], [readi], [itrunc],
      [balloc].  FsDir.v: a directory is a list of names, [dirlink] adds one.
      FsPath.v: the inode cache is consistent, and [namex] arrives where the
      directories on disk lead and gives its references back.
    - mkfs/mkfs.c: Mkfs.v; MkfsProof.v and MkfsTheorems.v: the image meets the
      invariant of the kernel and has the files; MkfsPath.v: the kernel finds
      each of them by its name and reads its bytes.
    - kernel/swtch.S, trampoline.S, kernelvec.S, entry.S: Hart.v, as lists of
      instructions; HartProof.v: a trap and a switch lose no register.
    - kernel/start.c, plic.c: Boot.v; kernel/main.c: Main.v.
    - kernel/proc.c, proc.h: Proc.v, and Kernel.v for [userinit], [fork] and
      [exit]; ProcProof.v: [sleep] loses no wakeup, the scheduler runs every
      runnable process, [kill]; ProcLife.v: [wait] gives back all the memory of
      a zombie, and the status of [exit] reaches a parent that sleeps in [wait];
      ProcBirth.v: [allocproc] and [proc_pagetable] make an empty process or give
      everything back; Fork.v: [fork] makes a copy of its caller.
    - kernel/uart.c, printf.c, console.c: Console.v; ConsoleProof.v: the line
      discipline.
    - kernel/virtio_disk.c, virtio.h: Virtio.v; VirtioProof.v: processes,
      interrupts and the device in any order lose no descriptor and no request.
    - kernel/file.c, pipe.c: File.v; UserCall.v and PipeProof.v: a pipe is a
      queue, on the ring buffers of Ring.v.
    - kernel/syscall.c, sysproc.c: Syscall.v; kernel/exec.c, elf.h: Exec.v;
      kernel/sysfile.c: Sysfile.v; kernel/trap.c: Trap.v.
    - user/ulib.c: Ulib.v (string routines, on the memory of Memory.v) and
      Uprintf.v ([gets], [stat]); user/printf.c: Uprintf.v, with the text that a
      format stands for.
    - user/umalloc.c: Umalloc.v, on the bytes of a process and [sbrk];
      UmallocProof.v and UmallocTheorems.v: the blocks in use and the free blocks
      share the heap without overlap, [malloc] and [free] move blocks between
      them.
    - user/usys.pl, user.h: Usys.v.
    - user/initcode.S: Initcode.v: the array of kernel/proc.c is this assembly,
      and executed from the memory that [userinit] makes it execs "/init".
    - user/grep.c: Grep.v: the matcher decides the language of its pattern;
      Uprogs.v has its main.
    - user/cat.c, echo.c, wc.c, ls.c, kill.c, ln.c, mkdir.c, rm.c, sleep.c,
      zombie.c, init.c, forktest.c, stressfs.c: Uprogs.v; UprogsProof.v: what
      [cat], [wc] and [grep] write, and that [init] keeps a shell running.
    - user/usertests.c: Usertests.v: every test, and that the runner tells the
      truth about them; user/grind.c: Grind.v: every random call, and that its
      random numbers are those of its comment.
    - user/sh.c: Sh.v (the parser) and ShRun.v ([runcmd] and [main]); ShProof.v:
      the parser terminates, returns well-formed commands and reads every
      command back from its text; [sh_correct] in ShRun.v: what is typed is
      carried out with the right descriptors in every process.

    ** Bounds and fuel

    A loop whose bound is known has that bound as its fuel: the number of
    pages of a range, of blocks of a transfer, of entries of a directory, of
    bytes left to copy, of cells of a ring buffer.  The parser of the shell has
    four calls for each character, enough because only an opening
    parenthesis makes it nest; [parsecmd_terminates] proves that.  The walks
    along the list of the allocator have a number of steps as a parameter, and
    the theorems ask for two for each free block and three; a path has as many
    elements as characters at most.  [spins], the
    number of times a device is polled, is a parameter, and the theorems that
    depend on it say what they need.

    ** What is a parameter

    Symbols of the linker ([kend], [trampoline], [etext], ...), the addresses of
    objects on a kernel stack, the page-table walk of the hardware, the UART
    and the virtio disk, and the device switch; for a user program, the answers
    of the system calls; for mkfs, the files of the host.  What a theorem relies on
    is among its hypotheses, and its witness has an instance.

    ** What is not modelled

    The other harts, except through locks and in the step relations of the
    lock files; the contents of kernel stacks; time.  kernel/ramdisk.c is not
    part of the kernel and does not compile: it uses flags of a buffer that no
    longer exist.  No machine code but that of initcode.S is executed. *)

From stdpp Require Export base numbers strings functions fin_maps gmap list.
Export stdpp.list_relations.list.
#[export] Set Default Proof Using "Type".
Global Open Scope Z_scope.

(** ** Machine integers

    C integers are modelled by [Z]; every place where the source computes
    at a fixed width goes through one of these conversions. *)

Definition wrap8 (x : Z) : Z := x mod 2^8.
Definition wrap16 (x : Z) : Z := x mod 2^16.
Definition wrap32 (x : Z) : Z := x mod 2^32.
Definition wrap64 (x : Z) : Z := x mod 2^64.

Arguments wrap8 : simpl never.
Arguments wrap16 : simpl never.
Arguments wrap32 : simpl never.
Arguments wrap64 : simpl never.

(** Conversion to a signed type: two's complement. *)
Definition signed (w x : Z) : Z := (x + 2^(w-1)) mod 2^w - 2^(w-1).
Definition s8 (x : Z) : Z := signed 8 x.
Definition s16 (x : Z) : Z := signed 16 x.
Definition s32 (x : Z) : Z := signed 32 x.
Definition s64 (x : Z) : Z := signed 64 x.

(** A C condition is an integer compared with zero. *)
Definition truth (x : Z) : bool := negb (x =? 0).

(** ** Outcomes and the kernel monad

    A kernel routine either returns a value and a state, calls [panic]
    (kernel/printf.c: it never returns), goes to sleep (or spins) on a
    condition that only somebody else can make true, or exhausts the fuel of
    a loop that has no syntactic bound.  Theorems that promise a result show
    the first case; in particular they show that the fuel given is enough. *)

Inductive outcome (S A : Type) : Type :=
| Ok (a : A) (s : S)
| Panic (msg : string)
| Blocked (s : S)
| NoFuel.
Arguments Ok {S A} a s.
Arguments Panic {S A} msg.
Arguments Blocked {S A} s.
Arguments NoFuel {S A}.

Definition M (S A : Type) : Type := S -> outcome S A.

Section monad.
Context {S : Type}.

Definition ret {A} (a : A) : M S A := fun s => Ok a s.

Definition bind {A B} (c : M S A) (k : A -> M S B) : M S B := fun s =>
  match c s with
  | Ok a s' => k a s'
  | Panic m => Panic m
  | Blocked s' => Blocked s'
  | NoFuel => NoFuel
  end.

Definition panic {A} (msg : string) : M S A := fun _ => Panic msg.
Definition block {A} : M S A := fun s => Blocked s.
Definition nofuel {A} : M S A := fun _ => NoFuel.
Definition get : M S S := fun s => Ok s s.
Definition put (s : S) : M S unit := fun _ => Ok tt s.
Definition gets {A} (f : S -> A) : M S A := fun s => Ok (f s) s.
Definition modify (f : S -> S) : M S unit := fun s => Ok tt (f s).
End monad.

Declare Scope kmonad_scope.
Delimit Scope kmonad_scope with kmonad.
Notation "'let!' x ':=' c 'in' k" := (bind c (fun x => k))
  (at level 10, x pattern, c at level 100, k at level 200) : kmonad_scope.
Notation "c ;; k" := (bind c (fun _ => k))
  (at level 100, k at level 200, right associativity) : kmonad_scope.
Global Open Scope kmonad_scope.

(** A [for] loop over a list of indices. *)
Fixpoint for_each {S A} (l : list A) (body : A -> M S unit) : M S unit :=
  match l with
  | [] => ret tt
  | x :: l' => body x ;; for_each l' body
  end.

(** Running a routine on a part of a larger state. *)
Definition zoom {S T A} (g : S -> T) (p : T -> S -> S) (c : M T A) : M S A := fun s =>
  match c (g s) with
  | Ok a t => Ok a (p t s)
  | Panic m => Panic m
  | Blocked t => Blocked (p t s)
  | NoFuel => NoFuel
  end.

(** ** Weakest preconditions

    [wp c Q s] says that [c] started in [s] returns normally (no panic, no
    blocking, fuel enough) with a value and a state satisfying [Q]. *)

Definition wp {S A} (c : M S A) (Q : A -> S -> Prop) (s : S) : Prop :=
  match c s with Ok a s' => Q a s' | _ => False end.

Section wp.
Context {S : Type}.
Implicit Types s : S.

Lemma wp_iff {A} (c : M S A) Q s :
  wp c Q s <-> exists a s', c s = Ok a s' /\ Q a s'.
Proof.
  unfold wp. destruct (c s) as [a s'| | |]; split; try done.
  all: try (by intros (? & ? & ? & ?)).
  - by exists a, s'.
  - by intros (? & ? & [= -> ->] & ?).
Qed.

Lemma wp_run {A} (c : M S A) (Q : A -> S -> Prop) s a s' :
  c s = Ok a s' -> Q a s' -> wp c Q s.
Proof. unfold wp. by intros ->. Qed.

Lemma wp_eq {A} (c c' : M S A) Q s : c s = c' s -> wp c' Q s -> wp c Q s.
Proof. unfold wp. by intros ->. Qed.

Lemma wp_ret {A} (a : A) (Q : A -> S -> Prop) s : Q a s -> wp (ret a) Q s.
Proof. done. Qed.

Lemma wp_bind {A B} (c : M S A) (k : A -> M S B) Q s :
  wp c (fun a s' => wp (k a) Q s') s -> wp (bind c k) Q s.
Proof. unfold wp, bind. by destruct (c s). Qed.

Lemma wp_bind_assoc {A B C} (c : M S A) (k : A -> M S B) (k' : B -> M S C) Q s :
  wp (bind (bind c k) k') Q s -> wp (bind c (fun a => bind (k a) k')) Q s.
Proof. unfold wp, bind. by destruct (c s). Qed.

Lemma wp_conseq {A} (c : M S A) (Q Q' : A -> S -> Prop) s :
  wp c Q s -> (forall a s', Q a s' -> Q' a s') -> wp c Q' s.
Proof. unfold wp. destruct (c s); auto. Qed.

Lemma wp_gets {A} (f : S -> A) (Q : A -> S -> Prop) s : Q (f s) s -> wp (gets f) Q s.
Proof. done. Qed.

Lemma wp_modify f (Q : unit -> S -> Prop) s : Q tt (f s) -> wp (modify f) Q s.
Proof. done. Qed.

Lemma wp_get (Q : S -> S -> Prop) s : Q s s -> wp get Q s.
Proof. done. Qed.

Lemma wp_zoom {T A} (g : S -> T) (p : T -> S -> S) (c : M T A) Q s :
  wp c (fun a t => Q a (p t s)) (g s) -> wp (zoom g p c) Q s.
Proof. unfold wp, zoom. by destruct (c (g s)). Qed.

(** A routine that ends in [panic]. *)
Definition panics {A} (c : M S A) (msg : string) s : Prop := c s = Panic msg.

Lemma panics_bind {A B} (c : M S A) (k : A -> M S B) msg s :
  wp c (fun a s' => panics (k a) msg s') s -> panics (bind c k) msg s.
Proof. unfold wp, panics, bind. by destruct (c s). Qed.

(** Two routines in sequence where the first one's result is known. *)
Lemma bind_ok {A B} (c : M S A) (k : A -> M S B) s a s' :
  c s = Ok a s' -> bind c k s = k a s'.
Proof. unfold bind. by intros ->. Qed.

Lemma bind_inv {A B} (c : M S A) (k : A -> M S B) s b s'' :
  bind c k s = Ok b s'' -> exists a s', c s = Ok a s' /\ k a s' = Ok b s''.
Proof. unfold bind. destruct (c s); intros; try done. eauto. Qed.

Lemma bind_assoc {A B C} (c : M S A) (f : A -> M S B) (g : B -> M S C) s :
  bind (bind c f) g s = bind c (fun a => bind (f a) g) s.
Proof. unfold bind. by destruct (c s). Qed.

Lemma bind_ext {A B} (c : M S A) (f g : A -> M S B) s :
  (forall a s', f a s' = g a s') -> bind c f s = bind c g s.
Proof. intros H. unfold bind. by destruct (c s). Qed.

(** An invariant kept by the body of a [for] loop is kept by the loop. *)
Lemma wp_for_each {A} (body : A -> M S unit) (I : list A -> S -> Prop) l :
  (forall x l' s, I (x :: l') s -> wp (body x) (fun _ s' => I l' s') s) ->
  forall s, I l s -> wp (for_each l body) (fun _ s' => I [] s') s.
Proof.
  intros Hb. induction l as [|x l IH]; intros s HI; [done|].
  simpl. apply wp_bind. eapply wp_conseq; [by apply Hb|].
  intros [] s' Hs'. by apply IH.
Qed.
End wp.

Create HintDb xv6.
Create Rewrite HintDb wrap.
#[export] Hint Resolve wp_ret wp_gets wp_modify wp_get : xv6.

(** One symbolic execution step of a routine under [wp]. *)
Ltac wp_step :=
  lazymatch goal with
  | |- wp (bind _ _) _ _ => apply wp_bind
  | |- wp (ret _) _ _ => apply wp_ret
  | |- wp (gets _) _ _ => apply wp_gets
  | |- wp get _ _ => apply wp_get
  | |- wp (modify _) _ _ => apply wp_modify
  | |- wp (if ?b then _ else _) _ _ => destruct b eqn:?
  | |- wp (zoom _ _ _) _ _ => apply wp_zoom
  end.
Ltac wp_steps := repeat (wp_step; simpl).

(** Splits the visible conjunctions of the goal, without unfolding. *)
Ltac splits := repeat lazymatch goal with |- _ /\ _ => split end.

(** Linear arithmetic with division and remainder by constants. *)
Ltac dlia := Z.to_euclidean_division_equations; lia.

(** Proves [b = e] or [e = b] for a boolean comparison [e] and a constant
    [b], leaving the arithmetic fact. *)
Ltac bool_goal :=
  try symmetry;
  first [ apply Z.eqb_eq | apply Z.eqb_neq | apply Z.ltb_lt | apply Z.ltb_ge
        | apply Z.leb_le | apply Z.leb_gt ].

(** Boolean comparisons in the context become propositions. *)
Ltac b2p :=
  repeat match goal with
  | H : context [(_ && _)%bool = true] |- _ => rewrite andb_true_iff in H
  | H : context [(_ && _)%bool = false] |- _ => rewrite andb_false_iff in H
  | H : context [(_ || _)%bool = true] |- _ => rewrite orb_true_iff in H
  | H : context [(_ || _)%bool = false] |- _ => rewrite orb_false_iff in H
  | H : context [negb _ = true] |- _ => rewrite negb_true_iff in H
  | H : context [negb _ = false] |- _ => rewrite negb_false_iff in H
  | H : context [(_ <? _) = true] |- _ => rewrite Z.ltb_lt in H
  | H : context [(_ <? _) = false] |- _ => rewrite Z.ltb_ge in H
  | H : context [(_ <=? _) = true] |- _ => rewrite Z.leb_le in H
  | H : context [(_ <=? _) = false] |- _ => rewrite Z.leb_gt in H
  | H : context [(_ =? _) = true] |- _ => rewrite Z.eqb_eq in H
  | H : context [(_ =? _) = false] |- _ => rewrite Z.eqb_neq in H
  | H : _ /\ _ |- _ => destruct H
  end.

(** ** Facts about machine integers *)

Lemma wrap32_small x : 0 <= x < 2^32 -> wrap32 x = x.
Proof. intros. unfold wrap32. by apply Z.mod_small. Qed.

Lemma wrap64_small x : 0 <= x < 2^64 -> wrap64 x = x.
Proof. intros. unfold wrap64. by apply Z.mod_small. Qed.

Lemma wrap8_small x : 0 <= x < 2^8 -> wrap8 x = x.
Proof. intros. unfold wrap8. by apply Z.mod_small. Qed.

Lemma wrap16_small x : 0 <= x < 2^16 -> wrap16 x = x.
Proof. intros. unfold wrap16. by apply Z.mod_small. Qed.

Lemma wrap64_range x : 0 <= wrap64 x < 2^64.
Proof. unfold wrap64. apply Z.mod_pos_bound. lia. Qed.

Lemma wrap32_range x : 0 <= wrap32 x < 2^32.
Proof. unfold wrap32. apply Z.mod_pos_bound. lia. Qed.

Lemma wrap16_range x : 0 <= wrap16 x < 2^16.
Proof. unfold wrap16. apply Z.mod_pos_bound. lia. Qed.

Lemma wrap8_range x : 0 <= wrap8 x < 2^8.
Proof. unfold wrap8. apply Z.mod_pos_bound. lia. Qed.

Lemma s32_small x : - 2^31 <= x < 2^31 -> s32 x = x.
Proof. intros. unfold s32, signed. rewrite Z.mod_small; lia. Qed.

Lemma truth_true x : truth x = true <-> x <> 0.
Proof. unfold truth. rewrite negb_true_iff, Z.eqb_neq. done. Qed.

Lemma truth_false x : truth x = false <-> x = 0.
Proof. unfold truth. rewrite negb_false_iff, Z.eqb_eq. done. Qed.

#[export] Hint Rewrite wrap8_small wrap16_small wrap32_small wrap64_small s32_small
  using lia : wrap.
#[export] Hint Resolve wrap64_range wrap32_range wrap8_range : xv6.

Lemma testbit_above b i k : 0 <= b < 2^k -> 0 <= k <= i -> Z.testbit b i = false.
Proof.
  intros Hb Hi. destruct (decide (b = 0)) as [->|]; [apply Z.bits_0|].
  apply Z.bits_above_log2; [lia|]. apply Z.log2_lt_pow2; [lia|].
  eapply Z.lt_le_trans; [apply Hb|]. apply Z.pow_le_mono_r; lia.
Qed.

(** Masking with a low-bits-clear constant rounds down. *)
Lemma land_high_mask a k w :
  0 <= k <= w -> 0 <= a < 2^w -> Z.land a (2^w - 2^k) = a - a mod 2^k.
Proof.
  intros Hk Ha.
  replace (2^w - 2^k) with (Z.shiftl (Z.ones (w - k)) k).
  2:{ rewrite Z.shiftl_mul_pow2, Z.ones_equiv by lia.
      replace w with ((w - k) + k) at 2 by lia. rewrite Z.pow_add_r by lia. lia. }
  replace (a - a mod 2^k) with (Z.shiftl (Z.shiftr a k) k).
  2:{ rewrite Z.shiftl_mul_pow2, Z.shiftr_div_pow2 by lia.
      assert (2^k <> 0) by (apply Z.pow_nonzero; lia).
      pose proof (Z.div_mod a (2^k)). lia. }
  apply Z.bits_inj'. intros i Hi.
  rewrite Z.land_spec, !Z.shiftl_spec by lia.
  destruct (decide (i < k)).
  - rewrite !(Z.testbit_neg_r _ (i - k)) by lia. apply andb_false_r.
  - rewrite Z.shiftr_spec by lia. replace (i - k + k) with i by lia.
    destruct (decide (i < w)).
    + rewrite Z.ones_spec_low by lia. apply andb_true_r.
    + by rewrite (testbit_above a i w) by lia.
Qed.

(** Or-ing a shifted value with small low bits is an addition. *)
Lemma lor_shiftl_add a b k :
  0 <= k -> 0 <= b < 2^k -> Z.lor (Z.shiftl a k) b = a * 2^k + b.
Proof.
  intros Hk Hb. rewrite <- Z.shiftl_mul_pow2 by lia.
  assert (Z.land (Z.shiftl a k) b = 0) as Hl.
  { apply Z.bits_inj'. intros i Hi. rewrite Z.land_spec, Z.bits_0, Z.shiftl_spec by lia.
    destruct (decide (i < k)); [by rewrite (Z.testbit_neg_r _ (i - k)) by lia|].
    rewrite (testbit_above b i k) by lia. apply andb_false_r. }
  rewrite <- Z.lxor_lor, Z.add_nocarry_lxor; done.
Qed.

(** Testing one bit with a mask. *)
Lemma truth_land_pow2 x k : 0 <= k -> truth (Z.land x (2^k)) = Z.testbit x k.
Proof.
  intros Hk. unfold truth.
  destruct (Z.testbit x k) eqn:Hb.
  - rewrite negb_true_iff, Z.eqb_neq. intros H0.
    apply (f_equal (fun z => Z.testbit z k)) in H0.
    by rewrite Z.land_spec, Hb, Z.pow2_bits_true, Z.bits_0 in H0 by lia.
  - rewrite negb_false_iff, Z.eqb_eq. apply Z.bits_inj'. intros i Hi.
    rewrite Z.land_spec, Z.bits_0. destruct (decide (i = k)) as [->|].
    + by rewrite Hb.
    + rewrite Z.pow2_bits_false by lia. apply andb_false_r.
Qed.

Lemma bits_bound x k : 0 <= k -> 0 <= x -> (forall i, k <= i -> Z.testbit x i = false) -> x < 2^k.
Proof.
  intros Hk Hx Hb. destruct (decide (x < 2^k)) as [|Hge]; [done|].
  assert (0 < 2^k) by (apply Z.pow_pos_nonneg; lia).
  assert (Z.testbit x (Z.log2 x) = true) as Ht by (apply Z.bit_log2; lia).
  rewrite Hb in Ht; [done|]. apply Z.log2_le_pow2; lia.
Qed.

Lemma land_range a b w : 0 <= w -> 0 <= a < 2^w -> 0 <= Z.land a b < 2^w.
Proof.
  intros Hw Ha. assert (0 <= Z.land a b) by (apply Z.land_nonneg; lia).
  split; [done|]. apply bits_bound; [done..|]. intros i Hi.
  by rewrite Z.land_spec, (testbit_above a i w) by lia.
Qed.
