(* ===== verification/Riscv.v ===== *)
(** * The Sv39 page-table macros and the memory layout

    kernel/riscv.h (page sizes, page-table entries, the three 9-bit indices)
    and kernel/memlayout.h.  The macros are translated bit by bit; the lemmas
    give their arithmetic meaning. *)

From S2P Require Import Prelude.

(** ** kernel/riscv.h *)

Definition PGSIZE : Z := 4096.
Definition PGSHIFT : Z := 12.

(** The masks are [int] expressions converted to [uint64]. *)
Definition PGROUNDUP (sz : Z) : Z :=
  Z.land (wrap64 (sz + PGSIZE - 1)) (wrap64 (Z.lnot (PGSIZE - 1))).
Definition PGROUNDDOWN (a : Z) : Z := Z.land a (wrap64 (Z.lnot (PGSIZE - 1))).

Definition PTE_V : Z := Z.shiftl 1 0.
Definition PTE_R : Z := Z.shiftl 1 1.
Definition PTE_W : Z := Z.shiftl 1 2.
Definition PTE_X : Z := Z.shiftl 1 3.
Definition PTE_U : Z := Z.shiftl 1 4.

Definition PA2PTE (pa : Z) : Z := wrap64 (Z.shiftl (Z.shiftr pa 12) 10).
Definition PTE2PA (pte : Z) : Z := wrap64 (Z.shiftl (Z.shiftr pte 10) 12).
Definition PTE_FLAGS (pte : Z) : Z := Z.land pte 0x3FF.

Definition PXMASK : Z := 0x1FF.
Definition PXSHIFT (level : Z) : Z := PGSHIFT + 9 * level.
Definition PX (level va : Z) : Z := Z.land (Z.shiftr va (PXSHIFT level)) PXMASK.

Definition MAXVA : Z := Z.shiftl 1 (9 + 9 + 9 + 12 - 1).

Definition SATP_SV39 : Z := Z.shiftl 8 60.
Definition MAKE_SATP (pagetable : Z) : Z := Z.lor SATP_SV39 (Z.shiftr pagetable 12).

(** ** kernel/memlayout.h *)

Definition UART0 : Z := 0x10000000.
Definition UART0_IRQ : Z := 10.
Definition VIRTIO0 : Z := 0x10001000.
Definition VIRTIO0_IRQ : Z := 1.
Definition CLINT : Z := 0x2000000.
Definition PLIC : Z := 0x0c000000.
Definition KERNBASE : Z := 0x80000000.
Definition PHYSTOP : Z := KERNBASE + 128 * 1024 * 1024.
Definition TRAMPOLINE : Z := MAXVA - PGSIZE.
Definition KSTACK (p : Z) : Z := TRAMPOLINE - (p + 1) * 2 * PGSIZE.
Definition TRAPFRAME : Z := TRAMPOLINE - PGSIZE.

(** ** The meaning of the macros *)

Definition page_aligned (a : Z) : Prop := a mod PGSIZE = 0.

Lemma PGROUNDDOWN_spec a : 0 <= a < 2^64 -> PGROUNDDOWN a = a - a mod PGSIZE.
Proof.
  intros Ha. unfold PGROUNDDOWN.
  change (wrap64 (Z.lnot (PGSIZE - 1))) with (2^64 - 2^12).
  by apply (land_high_mask a 12 64).
Qed.

Lemma PGROUNDUP_spec a :
  0 <= a <= 2^64 - PGSIZE -> PGROUNDUP a = PGSIZE * ((a + PGSIZE - 1) / PGSIZE).
Proof.
  intros Ha. unfold PGROUNDUP.
  change (wrap64 (Z.lnot (PGSIZE - 1))) with (2^64 - 2^12).
  unfold PGSIZE in *. rewrite wrap64_small by lia.
  rewrite (land_high_mask _ 12 64) by lia. change (2^12) with 4096.
  pose proof (Z.div_mod (a + 4096 - 1) 4096). lia.
Qed.

Lemma PX_spec level va : 0 <= level -> PX level va = va / 2 ^ (12 + 9 * level) mod 512.
Proof.
  intros Hl. unfold PX, PXMASK, PXSHIFT, PGSHIFT.
  change 0x1FF with (Z.ones 9). rewrite Z.land_ones by lia.
  by rewrite Z.shiftr_div_pow2 by lia.
Qed.

Lemma PX_range level va : 0 <= level -> 0 <= PX level va < 512.
Proof. intros. rewrite PX_spec by done. by apply Z.mod_pos_bound. Qed.

(** Only the lower half of the root table is used: [MAXVA] is one bit less
    than Sv39 allows. *)
Lemma PX_2_range va : 0 <= va < MAXVA -> 0 <= PX 2 va < 256.
Proof.
  change MAXVA with (2^38). intros Hva. rewrite PX_spec by lia.
  change (2 ^ (12 + 9 * 2)) with (2^30). dlia.
Qed.

(** A virtual page number is determined by its three indices. *)
Lemma PX_decompose va :
  0 <= va < 2^39 ->
  va / PGSIZE = PX 2 va * 2^18 + PX 1 va * 2^9 + PX 0 va.
Proof.
  intros Hva. rewrite !PX_spec by lia. unfold PGSIZE.
  change (2 ^ (12 + 9 * 2)) with (4096 * 512 * 512).
  change (2 ^ (12 + 9 * 1)) with (4096 * 512). change (2 ^ (12 + 9 * 0)) with 4096.
  rewrite <- !Z.div_div by lia. set (q := va / 4096).
  assert (0 <= q < 2^27) by (unfold q; dlia). clearbody q.
  rewrite (Z.mod_small (q / 512 / 512)) by dlia. dlia.
Qed.

Lemma PX_inj va va' :
  0 <= va < 2^39 -> 0 <= va' < 2^39 ->
  PX 2 va = PX 2 va' -> PX 1 va = PX 1 va' -> PX 0 va = PX 0 va' ->
  va / PGSIZE = va' / PGSIZE.
Proof.
  intros H H' H2 H1 H0. rewrite (PX_decompose va), (PX_decompose va') by done. lia.
Qed.

Lemma PX_page level va : 0 <= level -> PX level va = PX level (va - va mod PGSIZE).
Proof.
  intros Hl. rewrite !PX_spec by done. f_equal. unfold PGSIZE.
  rewrite Z.pow_add_r by lia. change (2^12) with 4096.
  assert (0 < 2 ^ (9 * level)) by (apply Z.pow_pos_nonneg; lia).
  rewrite <- !Z.div_div by lia. f_equal. dlia.
Qed.

(** A page-table entry built from an aligned physical address and flags. *)
Lemma PA2PTE_spec pa : page_aligned pa -> 0 <= pa < 2^56 -> PA2PTE pa = pa / PGSIZE * 1024.
Proof.
  intros Hal Hpa. unfold PA2PTE, PGSIZE.
  rewrite Z.shiftr_div_pow2, Z.shiftl_mul_pow2 by lia.
  change (2^12) with 4096. change (2^10) with 1024.
  apply wrap64_small. dlia.
Qed.

Lemma lor_flags a b n : 0 <= n -> 0 <= a < 2^n -> 0 <= b < 2^n -> 0 <= Z.lor a b < 2^n.
Proof.
  intros Hn Ha Hb. split; [apply Z.lor_nonneg; lia|].
  destruct (decide (Z.lor a b = 0)) as [->|]; [apply Z.pow_pos_nonneg; lia|].
  assert (0 <= Z.lor a b) by (apply Z.lor_nonneg; lia).
  apply Z.log2_lt_pow2; [lia|]. rewrite Z.log2_lor by lia.
  assert (0 < n).
  { destruct (decide (n = 0)) as [->|]; [|lia].
    assert (a = 0) as -> by lia. assert (b = 0) as -> by lia. done. }
  apply Z.max_lub_lt.
  - destruct (decide (a = 0)) as [->|]; [done|]. apply Z.log2_lt_pow2; lia.
  - destruct (decide (b = 0)) as [->|]; [done|]. apply Z.log2_lt_pow2; lia.
Qed.

Lemma pte_spec pa perm :
  page_aligned pa -> 0 <= pa < 2^56 -> 0 <= perm < 1024 ->
  Z.lor (PA2PTE pa) perm = pa / PGSIZE * 1024 + perm.
Proof.
  intros Hal Hpa Hp. rewrite PA2PTE_spec by done.
  change 1024 with (2^10). rewrite <- Z.shiftl_mul_pow2 by lia.
  rewrite lor_shiftl_add by (change (2^10) with 1024; lia).
  by rewrite Z.shiftl_mul_pow2 by lia.
Qed.

Lemma PTE2PA_spec n fl : 0 <= n < 2^44 -> 0 <= fl < 1024 -> PTE2PA (n * 1024 + fl) = n * PGSIZE.
Proof.
  intros Hn Hf. unfold PTE2PA, PGSIZE.
  rewrite Z.shiftr_div_pow2, Z.shiftl_mul_pow2 by lia.
  change (2^12) with 4096. change (2^10) with 1024.
  replace ((n * 1024 + fl) / 1024) with n by dlia.
  apply wrap64_small. lia.
Qed.

(** Round trip: the address and the flags can be read back from an entry. *)
Lemma PTE2PA_PA2PTE pa perm :
  page_aligned pa -> 0 <= pa < 2^56 -> 0 <= perm < 1024 ->
  PTE2PA (Z.lor (PA2PTE pa) perm) = pa.
Proof.
  intros Hal Hpa Hp. rewrite pte_spec by done.
  unfold page_aligned, PGSIZE in *. rewrite PTE2PA_spec; unfold PGSIZE; dlia.
Qed.

Lemma PTE_FLAGS_PA2PTE pa perm :
  page_aligned pa -> 0 <= pa < 2^56 -> 0 <= perm < 1024 ->
  PTE_FLAGS (Z.lor (PA2PTE pa) perm) = perm.
Proof.
  intros Hal Hpa Hp. rewrite pte_spec by done. unfold PTE_FLAGS.
  change 0x3FF with (Z.ones 10). rewrite Z.land_ones by lia.
  change (2^10) with 1024. dlia.
Qed.

(** Testing a flag of an entry. *)
Definition pte_has (pte f : Z) : bool := truth (Z.land pte f).

Lemma pte_has_V pte : pte_has pte PTE_V = Z.testbit pte 0.
Proof. apply (truth_land_pow2 pte 0). lia. Qed.

Lemma pte_has_U pte : pte_has pte PTE_U = Z.testbit pte 4.
Proof. apply (truth_land_pow2 pte 4). lia. Qed.

Lemma pte_has_V_lor x : pte_has (Z.lor x PTE_V) PTE_V = true.
Proof. rewrite pte_has_V, Z.lor_spec. change (Z.testbit PTE_V 0) with true. apply orb_true_r. Qed.
