(* ===== verification/Memory.v ===== *)
(** * Byte-addressed memory and kernel/string.c

    Physical memory is a finite map from addresses to bytes (an absent byte
    reads as zero).  Multi-byte accesses are little-endian, as on RISC-V.  The
    routines of kernel/string.c are translated loop by loop on that memory;
    [char] is unsigned on RISC-V. *)

From S2P Require Import Prelude.

(** ** Loads and stores *)

Definition load8 (m : gmap Z Z) (a : Z) : Z := default 0 (m !! a).
Definition store8 (m : gmap Z Z) (a v : Z) : gmap Z Z := <[a := wrap8 v]> m.

Fixpoint loadn (n : nat) (m : gmap Z Z) (a : Z) : Z :=
  match n with
  | O => 0
  | S n' => load8 m a + 256 * loadn n' m (a + 1)
  end.

Fixpoint storen (n : nat) (m : gmap Z Z) (a v : Z) : gmap Z Z :=
  match n with
  | O => m
  | S n' => storen n' (store8 m a v) (a + 1) (v / 256)
  end.

Definition load64 (m : gmap Z Z) (a : Z) : Z := loadn 8 m a.
Definition store64 (m : gmap Z Z) (a v : Z) : gmap Z Z := storen 8 m a v.

(** The [n] bytes at [a]. *)
Fixpoint loadbytes (m : gmap Z Z) (a : Z) (n : nat) : list Z :=
  match n with
  | O => []
  | S n' => load8 m a :: loadbytes m (a + 1) n'
  end.

Fixpoint storebytes (m : gmap Z Z) (a : Z) (l : list Z) : gmap Z Z :=
  match l with
  | [] => m
  | b :: l' => storebytes (store8 m a b) (a + 1) l'
  end.

(** Memories are used only through bytes in range. *)
Definition mem_wf (m : gmap Z Z) : Prop := forall a, 0 <= load8 m a < 256.

(** ** kernel/string.c *)

Fixpoint memset_loop (k : nat) (i : Z) (cdst c : Z) (m : gmap Z Z) : gmap Z Z :=
  match k with
  | O => m
  | S k' => memset_loop k' (i + 1) cdst c (store8 m (cdst + i) c)
  end.
Definition memset (m : gmap Z Z) (dst c n : Z) : gmap Z Z :=
  memset_loop (Z.to_nat n) 0 dst c m.

Fixpoint memcmp_loop (k : nat) (m : gmap Z Z) (s1 s2 : Z) : Z :=
  match k with
  | O => 0
  | S k' =>
      if negb (load8 m s1 =? load8 m s2) then load8 m s1 - load8 m s2
      else memcmp_loop k' m (s1 + 1) (s2 + 1)
  end.
Definition memcmp (m : gmap Z Z) (v1 v2 n : Z) : Z := memcmp_loop (Z.to_nat n) m v1 v2.

Fixpoint memmove_bwd (k : nat) (d s : Z) (m : gmap Z Z) : gmap Z Z :=
  match k with
  | O => m
  | S k' => memmove_bwd k' (d - 1) (s - 1) (store8 m (d - 1) (load8 m (s - 1)))
  end.
Fixpoint memmove_fwd (k : nat) (d s : Z) (m : gmap Z Z) : gmap Z Z :=
  match k with
  | O => m
  | S k' => memmove_fwd k' (d + 1) (s + 1) (store8 m d (load8 m s))
  end.
Definition memmove (m : gmap Z Z) (dst src n : Z) : gmap Z Z :=
  if (src <? dst) && (dst <? src + n) then
    memmove_bwd (Z.to_nat n) (dst + n) (src + n) m
  else memmove_fwd (Z.to_nat n) dst src m.

Definition memcpy (m : gmap Z Z) (dst src n : Z) : gmap Z Z := memmove m dst src n.

Fixpoint strncmp_loop (k : nat) (m : gmap Z Z) (p q : Z) : Z :=
  match k with
  | O => 0
  | S k' =>
      if truth (load8 m p) && (load8 m p =? load8 m q) then strncmp_loop k' m (p + 1) (q + 1)
      else load8 m p - load8 m q
  end.
Definition strncmp (m : gmap Z Z) (p q n : Z) : Z := strncmp_loop (Z.to_nat n) m p q.

(** [while(n-- > 0 && ( *s++ = *t++ ) != 0)], then [while(n-- > 0) *s++ = 0]. *)
Fixpoint strncpy_zero (k : nat) (s : Z) (m : gmap Z Z) : gmap Z Z :=
  match k with
  | O => m
  | S k' => strncpy_zero k' (s + 1) (store8 m s 0)
  end.
Fixpoint strncpy_loop (k : nat) (s t : Z) (m : gmap Z Z) : gmap Z Z :=
  match k with
  | O => m
  | S k' =>
      let c := load8 m t in
      let m' := store8 m s c in
      if truth c then strncpy_loop k' (s + 1) (t + 1) m' else strncpy_zero k' (s + 1) m'
  end.
Definition strncpy (m : gmap Z Z) (s t n : Z) : gmap Z Z := strncpy_loop (Z.to_nat n) s t m.

(** [while(--n > 0 && ( *s++ = *t++ ) != 0)], then [*s = 0]. *)
Fixpoint safestrcpy_loop (k : nat) (s t : Z) (m : gmap Z Z) : gmap Z Z :=
  match k with
  | O => store8 m s 0
  | S k' =>
      let c := load8 m t in
      let m' := store8 m s c in
      if truth c then safestrcpy_loop k' (s + 1) (t + 1) m' else store8 m' (s + 1) 0
  end.
Definition safestrcpy (m : gmap Z Z) (s t n : Z) : gmap Z Z :=
  if n <=? 0 then m else safestrcpy_loop (Z.to_nat (n - 1)) s t m.

Fixpoint strlen_loop (fuel : nat) (m : gmap Z Z) (s n : Z) : option Z :=
  match fuel with
  | O => None
  | S fuel' => if truth (load8 m (s + n)) then strlen_loop fuel' m s (n + 1) else Some n
  end.
Definition strlen (fuel : nat) (m : gmap Z Z) (s : Z) : option Z := strlen_loop fuel m s 0.

(** ** Loads after stores *)

Lemma load8_store8 m a v b : load8 (store8 m a v) b = if decide (a = b) then wrap8 v else load8 m b.
Proof. unfold load8, store8. rewrite lookup_insert. by case_decide. Qed.

Lemma load8_store8_eq m a v : load8 (store8 m a v) a = wrap8 v.
Proof. rewrite load8_store8. by case_decide. Qed.

Lemma load8_store8_ne m a v b : a <> b -> load8 (store8 m a v) b = load8 m b.
Proof. intros. rewrite load8_store8. by case_decide. Qed.

Lemma store8_wf m a v : mem_wf m -> mem_wf (store8 m a v).
Proof.
  intros Hm b. rewrite load8_store8. case_decide; [|apply Hm].
  pose proof (wrap8_range v). lia.
Qed.

Lemma loadn_range n m a : mem_wf m -> 0 <= loadn n m a < 256 ^ Z.of_nat n.
Proof.
  intros Hm. revert a. induction n as [|n IH]; intros a; [done|].
  rewrite Nat2Z.inj_succ, Z.pow_succ_r by lia. cbn [loadn].
  specialize (IH (a + 1)). specialize (Hm a). lia.
Qed.

Lemma load64_range m a : mem_wf m -> 0 <= load64 m a < 2^64.
Proof. intros Hm. pose proof (loadn_range 8 m a Hm) as H. exact H. Qed.

(** A load depends only on the bytes it covers. *)
Lemma loadn_ext n m m' a :
  (forall b, a <= b < a + Z.of_nat n -> load8 m' b = load8 m b) -> loadn n m' a = loadn n m a.
Proof.
  revert a. induction n as [|n IH]; intros a H; [done|]. cbn [loadn].
  rewrite (H a), IH by (intros; try apply H; lia). done.
Qed.

Lemma load64_ext m m' a :
  (forall b, a <= b < a + 8 -> load8 m' b = load8 m b) -> load64 m' a = load64 m a.
Proof. intros H. apply loadn_ext. exact H. Qed.

Lemma load8_storen_ne n m a v b :
  ~ (a <= b < a + Z.of_nat n) -> load8 (storen n m a v) b = load8 m b.
Proof.
  revert m a v. induction n as [|n IH]; intros m a v H; [done|]. cbn [storen].
  rewrite IH by lia. apply load8_store8_ne. lia.
Qed.

Lemma loadn_storen n m a v : loadn n (storen n m a v) a = v mod 256 ^ Z.of_nat n.
Proof.
  revert m a v. induction n as [|n IH]; intros m a v; [by rewrite Z.mod_1_r|].
  cbn [storen loadn]. rewrite IH, load8_storen_ne, load8_store8_eq by lia.
  rewrite Nat2Z.inj_succ, Z.pow_succ_r by lia.
  rewrite Z.rem_mul_r by (try apply Z.pow_nonzero; lia). unfold wrap8. done.
Qed.

Lemma storen_wf n m a v : mem_wf m -> mem_wf (storen n m a v).
Proof. revert m a v. induction n; intros m a v H; [done|]. simpl. auto using store8_wf. Qed.

Lemma load64_store64_eq m a v : load64 (store64 m a v) a = wrap64 v.
Proof. exact (loadn_storen 8 m a v). Qed.

Lemma load8_store64_ne m a v b : ~ (a <= b < a + 8) -> load8 (store64 m a v) b = load8 m b.
Proof. intros. by apply load8_storen_ne. Qed.

Lemma load64_store64_ne m a v b :
  a + 8 <= b \/ b + 8 <= a -> load64 (store64 m a v) b = load64 m b.
Proof. intros. apply load64_ext. intros c Hc. apply load8_store64_ne. lia. Qed.

Lemma store64_wf m a v : mem_wf m -> mem_wf (store64 m a v).
Proof. apply storen_wf. Qed.
#[export] Hint Resolve store8_wf store64_wf : xv6.

(** ** Specifications of the string routines *)

Lemma memset_loop_spec k i dst c m a :
  load8 (memset_loop k i dst c m) a =
  if decide (dst + i <= a < dst + i + Z.of_nat k) then wrap8 c else load8 m a.
Proof.
  revert i m. induction k as [|k IH]; intros i m; cbn [memset_loop].
  - case_decide; [lia|done].
  - rewrite IH, load8_store8. repeat case_decide; try done; lia.
Qed.

Lemma load8_memset m dst c n a :
  load8 (memset m dst c n) a = if decide (dst <= a < dst + n) then wrap8 c else load8 m a.
Proof. unfold memset. rewrite memset_loop_spec. repeat case_decide; try done; lia. Qed.

Lemma memset_wf m dst c n : mem_wf m -> mem_wf (memset m dst c n).
Proof.
  intros Hm a. rewrite load8_memset. case_decide; [|apply Hm].
  pose proof (wrap8_range c). lia.
Qed.

Lemma load64_memset_out m dst c n a :
  a + 8 <= dst \/ dst + n <= a -> load64 (memset m dst c n) a = load64 m a.
Proof. intros. apply load64_ext. intros b Hb. rewrite load8_memset. case_decide; [lia|done]. Qed.

Lemma loadn_zero n m a : (forall b, a <= b < a + Z.of_nat n -> load8 m b = 0) -> loadn n m a = 0.
Proof.
  revert a. induction n as [|n IH]; intros a H; [done|]. cbn [loadn].
  rewrite H, IH by (intros; try apply H; lia). done.
Qed.

Lemma load64_memset_zero m dst n a :
  dst <= a -> a + 8 <= dst + n -> load64 (memset m dst 0 n) a = 0.
Proof.
  intros. apply loadn_zero. intros b Hb. rewrite load8_memset. case_decide; [done|lia].
Qed.

Lemma memmove_bwd_spec k d s m a :
  mem_wf m -> s < d ->
  load8 (memmove_bwd k d s m) a =
  if decide (d - Z.of_nat k <= a < d) then load8 m (a - d + s) else load8 m a.
Proof.
  revert d s m. induction k as [|k IH]; intros d s m Hm Hsd; cbn [memmove_bwd].
  - case_decide; [lia|done].
  - rewrite IH by (auto using store8_wf; lia). rewrite !load8_store8.
    assert (wrap8 (load8 m (s - 1)) = load8 m (s - 1)) as -> by (apply wrap8_small, Hm).
    repeat case_decide; try lia; try done; f_equal; lia.
Qed.

Lemma memmove_fwd_spec k d s m a :
  mem_wf m -> d <= s \/ s + Z.of_nat k <= d ->
  load8 (memmove_fwd k d s m) a =
  if decide (d <= a < d + Z.of_nat k) then load8 m (a - d + s) else load8 m a.
Proof.
  revert d s m. induction k as [|k IH]; intros d s m Hm Hsd; cbn [memmove_fwd].
  - case_decide; [lia|done].
  - rewrite IH by (auto using store8_wf; lia). rewrite !load8_store8.
    assert (wrap8 (load8 m s) = load8 m s) as -> by (apply wrap8_small, Hm).
    repeat case_decide; try lia; try done; f_equal; lia.
Qed.

(** [memmove] copies the old contents of the source even when the two
    regions overlap, and touches nothing else. *)
Lemma load8_memmove m dst src n a :
  mem_wf m -> 0 <= n ->
  load8 (memmove m dst src n) a =
  if decide (dst <= a < dst + n) then load8 m (src + (a - dst)) else load8 m a.
Proof.
  intros Hm Hn. unfold memmove.
  destruct ((src <? dst) && (dst <? src + n)) eqn:Hov; b2p.
  - rewrite memmove_bwd_spec by (done || lia).
    repeat case_decide; try lia; try done; f_equal; lia.
  - rewrite memmove_fwd_spec by (done || lia).
    repeat case_decide; try lia; try done; f_equal; lia.
Qed.

Lemma memmove_wf m dst src n : mem_wf m -> 0 <= n -> mem_wf (memmove m dst src n).
Proof. intros Hm Hn a. rewrite load8_memmove by done. case_decide; apply Hm. Qed.
#[export] Hint Resolve memset_wf memmove_wf : xv6.

(** [memcmp] is zero exactly on equal regions, and otherwise the difference
    at the first differing byte. *)
Lemma memcmp_loop_zero k m s1 s2 :
  memcmp_loop k m s1 s2 = 0 <->
  forall i, 0 <= i < Z.of_nat k -> load8 m (s1 + i) = load8 m (s2 + i).
Proof.
  revert s1 s2. induction k as [|k IH]; intros s1 s2; cbn [memcmp_loop].
  - split; [lia|done].
  - destruct (negb _) eqn:He; b2p.
    + split; [lia|]. intros H. specialize (H 0). rewrite !Z.add_0_r in H. lia.
    + rewrite IH. split; intros H i Hi.
      * destruct (decide (i = 0)) as [->|]; [by rewrite !Z.add_0_r|].
        specialize (H (i - 1)). rewrite <- !Z.add_assoc in H.
        replace (1 + (i - 1)) with i in H by lia. apply H. lia.
      * rewrite <- !Z.add_assoc. apply H. lia.
Qed.

Lemma memcmp_zero m v1 v2 n :
  0 <= n ->
  memcmp m v1 v2 n = 0 <-> forall i, 0 <= i < n -> load8 m (v1 + i) = load8 m (v2 + i).
Proof. intros. unfold memcmp. rewrite memcmp_loop_zero. by rewrite Z2Nat.id by lia. Qed.

(** The C string at [s]: its bytes before the terminating NUL. *)
Definition is_cstr (m : gmap Z Z) (s : Z) (l : list Z) : Prop :=
  (forall i c, l !! i = Some c -> load8 m (s + Z.of_nat i) = c /\ c <> 0) /\
  load8 m (s + Z.of_nat (length l)) = 0.

Lemma is_cstr_nil m s : is_cstr m s [] <-> load8 m s = 0.
Proof.
  unfold is_cstr. simpl. rewrite Z.add_0_r. split; [by intros [_ ?]|].
  intros H. split; [|done]. intros i c. by rewrite lookup_nil.
Qed.

Lemma is_cstr_cons m s c l :
  is_cstr m s (c :: l) <-> load8 m s = c /\ c <> 0 /\ is_cstr m (s + 1) l.
Proof.
  unfold is_cstr. cbn [length]. rewrite Nat2Z.inj_succ. split.
  - intros [H H0]. split_and!.
    + destruct (H 0%nat c) as [Hc _]; [done|]. by rewrite Z.add_0_r in Hc.
    + by destruct (H 0%nat c).
    + intros i d Hi. destruct (H (S i) d Hi) as [Hd ?]. split; [|done].
      rewrite <- Hd. f_equal. lia.
    + rewrite <- H0. f_equal. lia.
  - intros (Hc & Hn & H & H0). split.
    + intros [|i] d Hd; simplify_eq/=; [by rewrite Z.add_0_r|].
      destruct (H i d Hd) as [<- ?]. split; [f_equal; lia|done].
    + rewrite <- H0. f_equal. lia.
Qed.

Lemma strlen_loop_spec l : forall m s n fuel,
  is_cstr m (s + n) l -> (length l < fuel)%nat ->
  strlen_loop fuel m s n = Some (n + Z.of_nat (length l)).
Proof.
  induction l as [|c l IH]; intros m s n [|fuel] Hs Hf; simpl in *; try lia.
  - apply is_cstr_nil in Hs. rewrite Hs. simpl. f_equal. lia.
  - apply is_cstr_cons in Hs as (Hc & Hn & Hs). rewrite Hc.
    rewrite (proj2 (truth_true c) Hn). rewrite <- Z.add_assoc in Hs.
    rewrite IH by (done || lia). f_equal. lia.
Qed.

(** [strlen] returns the length of the C string. *)
Lemma strlen_spec m s l fuel :
  is_cstr m s l -> (length l < fuel)%nat -> strlen fuel m s = Some (Z.of_nat (length l)).
Proof. intros. apply (strlen_loop_spec l m s 0); [by rewrite Z.add_0_r|done]. Qed.

(** [strncmp] decides equality of the first [n] bytes of two C strings. *)
Lemma strncmp_loop_spec l1 : forall l2 m p q k,
  mem_wf m -> is_cstr m p l1 -> is_cstr m q l2 ->
  strncmp_loop k m p q = 0 <-> take k l1 = take k l2.
Proof.
  induction l1 as [|c l1 IH]; intros l2 m p q k Hm H1 H2.
  - apply is_cstr_nil in H1. destruct k as [|k]; [done|]. cbn [strncmp_loop].
    rewrite H1. change (truth 0) with false. cbn [andb]. destruct l2 as [|d l2].
    + apply is_cstr_nil in H2. rewrite H2. done.
    + apply is_cstr_cons in H2 as (Hd & Hn & _). rewrite Hd. split; [lia|done].
  - apply is_cstr_cons in H1 as (Hc & Hn & H1). destruct k as [|k]; [done|].
    cbn [strncmp_loop]. rewrite Hc, (proj2 (truth_true c) Hn). cbn [andb].
    destruct l2 as [|d l2].
    + apply is_cstr_nil in H2. rewrite H2. destruct (c =? 0) eqn:E; b2p; [lia|].
      split; [lia|done].
    + apply is_cstr_cons in H2 as (Hd & Hn' & H2). rewrite Hd.
      destruct (c =? d) eqn:E; b2p.
      * subst. rewrite (IH l2) by done. simpl. split; congruence.
      * split; [lia|]. intros [= ? _]. done.
Qed.

(** Copies into a region that does not overlap the source string. *)
Lemma is_cstr_ext m m' s l :
  (forall a, s <= a <= s + Z.of_nat (length l) -> load8 m' a = load8 m a) ->
  is_cstr m s l -> is_cstr m' s l.
Proof.
  intros He [H H0]. split.
  - intros i c Hi. pose proof (lookup_lt_Some _ _ _ Hi). rewrite He by lia. by apply H.
  - by rewrite He by lia.
Qed.

Lemma safestrcpy_loop_frame k : forall s t m a,
  ~ (s <= a <= s + Z.of_nat k) -> load8 (safestrcpy_loop k s t m) a = load8 m a.
Proof.
  induction k as [|k IH]; intros s t m a Ha; cbn [safestrcpy_loop].
  - apply load8_store8_ne. lia.
  - destruct (truth _).
    + rewrite IH, load8_store8_ne by lia. done.
    + rewrite !load8_store8_ne by lia. done.
Qed.

Lemma safestrcpy_loop_spec l : forall k s t m,
  mem_wf m -> is_cstr m t l ->
  (s + Z.of_nat k < t \/ t + Z.of_nat (length l) < s) ->
  is_cstr (safestrcpy_loop k s t m) s (take k l).
Proof.
  induction l as [|c l IH]; intros k s t m Hm Hl Hd.
  - rewrite take_nil. apply is_cstr_nil. apply is_cstr_nil in Hl.
    destruct k as [|k]; cbn [safestrcpy_loop]; [by rewrite load8_store8_eq|].
    rewrite Hl. change (truth 0) with false. cbv iota.
    rewrite load8_store8_ne, load8_store8_eq by lia. done.
  - pose proof (proj1 (is_cstr_cons _ _ _ _) Hl) as (Hc & Hn & Hl'). simpl in Hd.
    destruct k as [|k]; cbn [safestrcpy_loop take].
    { apply is_cstr_nil. by rewrite load8_store8_eq. }
    rewrite Hc, (proj2 (truth_true c) Hn). cbv iota.
    assert (wrap8 c = c) as Hw by (rewrite <- Hc; apply wrap8_small, Hm).
    apply is_cstr_cons. split_and!; [|done|].
    + rewrite safestrcpy_loop_frame by lia. by rewrite load8_store8_eq.
    + apply IH; [by apply store8_wf| |lia].
      eapply is_cstr_ext; [|done]. intros a Ha. apply load8_store8_ne. lia.
Qed.

Lemma strncpy_zero_spec k : forall s m a,
  load8 (strncpy_zero k s m) a = if decide (s <= a < s + Z.of_nat k) then 0 else load8 m a.
Proof.
  induction k as [|k IH]; intros s m a; cbn [strncpy_zero].
  - case_decide; [lia|done].
  - rewrite IH, load8_store8. repeat case_decide; try done; lia.
Qed.

Lemma strncpy_loop_frame k : forall s t m a,
  ~ (s <= a < s + Z.of_nat k) -> load8 (strncpy_loop k s t m) a = load8 m a.
Proof.
  induction k as [|k IH]; intros s t m a Ha; cbn [strncpy_loop]; [done|].
  destruct (truth _).
  - rewrite IH, load8_store8_ne by lia. done.
  - rewrite strncpy_zero_spec. case_decide; [lia|]. apply load8_store8_ne. lia.
Qed.

Lemma strncpy_loop_spec l : forall k s t m i,
  mem_wf m -> is_cstr m t l ->
  (s + Z.of_nat k <= t \/ t + Z.of_nat (length l) < s) -> (i < k)%nat ->
  load8 (strncpy_loop k s t m) (s + Z.of_nat i) = default 0 (l !! i).
Proof.
  induction l as [|c l IH]; intros [|k] s t m i Hm Hl Hd Hi; try lia; cbn [strncpy_loop].
  - apply is_cstr_nil in Hl. rewrite Hl. change (truth 0) with false. cbv iota.
    rewrite strncpy_zero_spec, load8_store8. rewrite lookup_nil.
    repeat case_decide; try done; lia.
  - apply is_cstr_cons in Hl as (Hc & Hn & Hl). simpl in Hd.
    rewrite Hc, (proj2 (truth_true c) Hn). cbv iota.
    assert (wrap8 c = c) as Hw by (rewrite <- Hc; apply wrap8_small, Hm).
    destruct i as [|i]; simpl.
    + rewrite Z.add_0_r, strncpy_loop_frame by lia. by rewrite load8_store8_eq.
    + replace (s + Z.of_nat (S i)) with (s + 1 + Z.of_nat i) by lia.
      apply IH; [by apply store8_wf| |lia|lia].
      eapply is_cstr_ext; [|done]. intros a Ha. apply load8_store8_ne. lia.
Qed.
