(* ===== verification/Umalloc.v ===== *)
(** * The heap of a user process (user/umalloc.c)

    The allocator of Kernighan and Ritchie on the memory of a process: a
    circular list of free blocks through their headers.  An access to a page
    that the process does not have is a page fault, which kills it: it is the
    outcome [Panic "page fault"]. *)

From S2P Require Import Prelude Riscv Memory.

(** ** The process *)

(** The memory of the process, its size ([p->sz] of the kernel) and the
    variable [freep]. *)
Record ust := Ust { umem : gmap Z Z; brk : Z; freep : Z }.
Definition set_umem (m : gmap Z Z) (s : ust) : ust := Ust m (brk s) (freep s).
Definition set_freep (p : Z) (s : ust) : ust := Ust (umem s) (brk s) p.

(** The pages of the process end at the page boundary above its size. *)
Definition mapped (s : ust) (a n : Z) : bool := (0 <=? a) && (a + n <=? PGROUNDUP (brk s)).

Definition ld (n : nat) (a : Z) : M ust Z :=
  let! s := get in
  if mapped s a (Z.of_nat n) then ret (loadn n (umem s) a) else panic "page fault".
Definition st (n : nat) (a v : Z) : M ust unit :=
  let! s := get in
  if mapped s a (Z.of_nat n) then put (set_umem (storen n (umem s) a v) s) else panic "page fault".

(** ** sbrk, as the process sees it

    [sys_sbrk] and [growproc] of the kernel: [enough sz] says whether the kernel
    finds the pages for a process of size [sz].  New pages are zero. *)
Definition sbrk (enough : Z -> bool) (n : Z) : M ust Z := fun s =>
  let sz := wrap32 (brk s) in
  let sz' := wrap32 (sz + n) in
  let addr := wrap64 (s32 (brk s)) in
  if 0 <? n then
    if sz' <? sz then Ok addr (Ust (umem s) sz (freep s))
    else if enough sz' then
      Ok addr (Ust (memset (umem s) (PGROUNDUP sz) 0 (PGROUNDUP sz' - PGROUNDUP sz)) sz' (freep s))
    else Ok (wrap64 (-1)) s
  else if n <? 0 then Ok addr (Ust (umem s) (Z.min sz sz') (freep s))
  else Ok addr (Ust (umem s) sz (freep s)).

(** ** union header *)

(** [ptr] is at offset 0 and [size], a [uint], at offset 8. *)
Definition HDR : Z := 16.
Definition hptr (a : Z) : M ust Z := ld 8 a.
Definition hsize (a : Z) : M ust Z := ld 4 (a + 8).
Definition set_hptr (a v : Z) : M ust unit := st 8 a v.
Definition set_hsize (a v : Z) : M ust unit := st 4 (a + 8) v.

(** [p + n] for a pointer to a header. *)
Definition hadd (p n : Z) : Z := wrap64 (p + HDR * n).

Section umalloc.
(** [base] is the address of the variable of that name, and [fuel] bounds the
    walks along the list. *)
Context (base : Z) (fuel : nat) (enough : Z -> bool).

(** ** free *)

(** The loop of [free]. *)
Fixpoint free_find (fuel : nat) (bp p : Z) : M ust Z :=
  match fuel with
  | O => nofuel
  | S fuel' =>
      let! n := hptr p in
      if (p <? bp) && (bp <? n) then ret p
      else if (n <=? p) && ((p <? bp) || (bp <? n)) then ret p
      else free_find fuel' bp n
  end.

(** [if(bp + bp->s.size == p->s.ptr)]: join the block with the next one. *)
Definition join_next (bp p : Z) : M ust unit :=
  let! n := hptr p in
  let! bsz := hsize bp in
  if hadd bp bsz =? n then
    let! nsz := hsize n in
    set_hsize bp (bsz + nsz) ;;
    let! nn := hptr n in
    set_hptr bp nn
  else set_hptr bp n.
(** [if(p + p->s.size == bp)]: join it with the previous one. *)
Definition join_prev (bp p : Z) : M ust unit :=
  let! psz := hsize p in
  if hadd p psz =? bp then
    let! bsz := hsize bp in
    set_hsize p (psz + bsz) ;;
    let! bn := hptr bp in
    set_hptr p bn
  else set_hptr p bp.

Definition free (ap : Z) : M ust unit :=
  let bp := wrap64 (ap - HDR) in
  let! p0 := gets freep in
  let! p := free_find fuel bp p0 in
  join_next bp p ;;
  join_prev bp p ;;
  modify (set_freep p).

(** ** malloc *)

(** The argument of [sbrk] is an [int]. *)
Definition morecore (nu : Z) : M ust Z :=
  let nu := if nu <? 4096 then 4096 else nu in
  let! p := sbrk enough (s32 (nu * HDR)) in
  if p =? wrap64 (-1) then ret 0 else
  set_hsize p nu ;;
  free (hadd p 1) ;;
  gets freep.

(** A block [p] of [psz] units is big enough: take it, or its end. *)
Definition take_block (nunits prevp p psz : Z) : M ust Z :=
  let! p :=
    (if psz =? nunits then
       let! n := hptr p in set_hptr prevp n ;; ret p
     else
       set_hsize p (psz - nunits) ;;
       let! sz := hsize p in
       let p := hadd p sz in
       set_hsize p nunits ;;
       ret p) in
  modify (set_freep prevp) ;;
  ret (hadd p 1).

Fixpoint malloc_loop (fuel : nat) (nunits prevp p : Z) : M ust Z :=
  match fuel with
  | O => nofuel
  | S fuel' =>
      let! psz := hsize p in
      if nunits <=? psz then take_block nunits prevp p psz else
      let! f := gets freep in
      if p =? f then
        let! p := morecore nunits in
        if p =? 0 then ret 0 else
        let! n := hptr p in malloc_loop fuel' nunits p n
      else
        let! n := hptr p in malloc_loop fuel' nunits p n
  end.

(** [nbytes] is a [uint]; [sizeof] makes the sum 64 bits wide. *)
Definition nunits_of (nbytes : Z) : Z := wrap32 ((nbytes + HDR - 1) / HDR + 1).

Definition malloc (nbytes : Z) : M ust Z :=
  let nunits := nunits_of nbytes in
  let! f := gets freep in
  (if f =? 0 then
     modify (set_freep base) ;; set_hptr base base ;; set_hsize base 0
   else ret tt) ;;
  let! prevp := gets freep in
  let! p := hptr prevp in
  malloc_loop fuel nunits prevp p.
End umalloc.
