(* ===== verification/UmallocProof.v ===== *)
(** * Proofs about the heap of a user process

    The free blocks are a circular list in the order of their addresses, no
    two of them adjacent; [malloc] and [free] keep them apart from the blocks
    that are in use, lose no byte of the heap, and touch nothing else. *)

From stdpp Require Import sorting.
From S2P Require Import Prelude Riscv Memory Umalloc.

(** A block: the address of its header and its size in units. *)
#[local] Abbreviation blk := (Z * Z)%type.
Definition bend (b : blk) : Z := b.1 + HDR * b.2.
Definition in_blk (b : blk) (x : Z) : Prop := b.1 <= x < bend b.
Definition in_blks (l : list blk) (x : Z) : Prop := exists b, b ∈ l /\ in_blk b x.

(** Between two consecutive blocks there is something else, and their headers
    do not overlap (the size of [base] is zero). *)
Definition before (b c : blk) : Prop := b.1 + HDR <= c.1 /\ bend b < c.1.

Definition hd_addr (l : list blk) (e : Z) : Z := match l with b :: _ => b.1 | [] => e end.

(** The headers of a segment of the list, which goes on at [e]. *)
Fixpoint lseg (m : gmap Z Z) (l : list blk) (e : Z) : Prop :=
  match l with
  | [] => True
  | b :: l' => loadn 8 m b.1 = hd_addr l' e /\ loadn 4 m (b.1 + 8) = b.2 /\ lseg m l' e
  end.

(** ** Headers in memory *)

Lemma loadn_storen_ne k n m a b v :
  b + Z.of_nat k <= a \/ a + Z.of_nat n <= b -> loadn k (storen n m a v) b = loadn k m b.
Proof. intros H. apply loadn_ext. intros c Hc. apply load8_storen_ne. lia. Qed.

Lemma PGROUNDUP_ge x : 0 <= x < 2^31 -> x <= PGROUNDUP x.
Proof. intros H. rewrite PGROUNDUP_spec by (unfold PGSIZE; lia). unfold PGSIZE. dlia. Qed.

Section run.
Context (s : ust) (Hb : 0 <= brk s < 2^31).
#[local] Set Default Proof Using "All".

Lemma mapped_ok a n : 0 <= a -> a + n <= brk s -> mapped s a n = true.
Proof. intros. unfold mapped. pose proof (PGROUNDUP_ge (brk s) Hb). rewrite andb_true_iff, !Z.leb_le. lia. Qed.

Lemma hptr_run a : 0 <= a -> a + 16 <= brk s -> hptr a s = Ok (loadn 8 (umem s) a) s.
Proof. intros. unfold hptr, ld, bind, get. rewrite mapped_ok by lia. done. Qed.
Lemma hsize_run a : 0 <= a -> a + 16 <= brk s -> hsize a s = Ok (loadn 4 (umem s) (a + 8)) s.
Proof. intros. unfold hsize, ld, bind, get. rewrite mapped_ok by lia. done. Qed.
Lemma set_hptr_run a v : 0 <= a -> a + 16 <= brk s ->
  set_hptr a v s = Ok tt (set_umem (storen 8 (umem s) a v) s).
Proof. intros. unfold set_hptr, st, bind, get. rewrite mapped_ok by lia. done. Qed.
Lemma set_hsize_run a v : 0 <= a -> a + 16 <= brk s ->
  set_hsize a v s = Ok tt (set_umem (storen 4 (umem s) (a + 8) v) s).
Proof. intros. unfold set_hsize, st, bind, get. rewrite mapped_ok by lia. done. Qed.
End run.

Lemma hadd_small p n : 0 <= p + 16 * n < 2^64 -> hadd p n = p + 16 * n.
Proof. intros. unfold hadd, HDR. by rewrite wrap64_small. Qed.

(** ** Segments *)

Lemma lseg_app m l1 l2 e : lseg m (l1 ++ l2) e <-> lseg m l1 (hd_addr l2 e) /\ lseg m l2 e.
Proof.
  induction l1 as [|b l1 IH]; cbn [app lseg]; [tauto|]. rewrite IH.
  replace (hd_addr (l1 ++ l2) e) with (hd_addr l1 (hd_addr l2 e)) by (by destruct l1). tauto.
Qed.

Lemma lseg_ext m m' l e :
  (forall b x, b ∈ l -> b.1 <= x < b.1 + 16 -> load8 m' x = load8 m x) -> lseg m l e -> lseg m' l e.
Proof.
  induction l as [|b l IH]; intros Hx; [done|]. cbn [lseg]. intros (H1 & H2 & H3). splits.
  - rewrite <- H1. apply loadn_ext. intros x Hr. apply (Hx b); [apply list_elem_of_here|lia].
  - rewrite <- H2. apply loadn_ext. intros x Hr. apply (Hx b); [apply list_elem_of_here|lia].
  - apply IH; [|done]. intros c x Hc. apply Hx. by apply list_elem_of_further.
Qed.

(** ** Sorted lists of blocks *)

Lemma sorted_mid l1 p l2 : StronglySorted before (l1 ++ p :: l2) ->
  (forall b, b ∈ l1 -> before b p) /\ (forall c, c ∈ l2 -> before p c) /\
  (forall b c, b ∈ l1 -> c ∈ l2 -> before b c) /\ StronglySorted before l1 /\ StronglySorted before l2.
Proof.
  rewrite StronglySorted_app. intros (H1 & H2 & H3). apply StronglySorted_cons in H3 as [H3 H4].
  rewrite Forall_forall in H3. splits; auto.
  - intros b Hb. apply H1; [done|apply list_elem_of_here].
  - intros b c Hb Hc. apply H1; [done|by apply list_elem_of_further].
Qed.

Lemma in_blks_app l1 l2 x : in_blks (l1 ++ l2) x <-> in_blks l1 x \/ in_blks l2 x.
Proof. unfold in_blks. setoid_rewrite elem_of_app. naive_solver. Qed.
Lemma in_blks_cons b l x : in_blks (b :: l) x <-> in_blk b x \/ in_blks l x.
Proof. unfold in_blks. setoid_rewrite elem_of_cons. naive_solver. Qed.

Lemma in_blk_join a n k x : 0 <= n -> 0 <= k -> in_blk (a, n + k) x <-> in_blk (a, n) x \/ in_blk (a + 16 * n, k) x.
Proof. unfold in_blk, bend, HDR; cbn. lia. Qed.

(** ** The free list *)

Section umalloc.
Context (base : Z).

Record free_ok (s : ust) (F : list blk) : Prop := FreeOk {
  fo_wf : mem_wf (umem s);
  fo_brk : 0 < base /\ base + 16 <= brk s < 2^31;
  fo_list : lseg (umem s) ((base, 0) :: F) base;
  fo_freep : exists n, (freep s, n) ∈ (base, 0) :: F;
  fo_sorted : StronglySorted before ((base, 0) :: F);
  fo_pos : Forall (fun b => 0 < b.2 /\ bend b <= brk s) F }.

Lemma fo_hdr s F b : free_ok s F -> b ∈ (base, 0) :: F -> base <= b.1 /\ b.1 + 16 <= brk s.
Proof.
  intros [_ Hb _ _ Hs Hp] [->|Hin]%elem_of_cons; cbn; [lia|].
  apply StronglySorted_cons in Hs as [Hs _]. rewrite Forall_forall in Hs, Hp.
  destruct (Hs _ Hin) as [H1 _]. destruct (Hp _ Hin) as [H2 H3]. unfold bend, HDR in *. cbn in H1. lia.
Qed.

(** The header of a block in the middle of the list. *)
Lemma fo_at s F l1 p l2 : free_ok s F -> (base, 0) :: F = l1 ++ p :: l2 ->
  hptr p.1 s = Ok (hd_addr l2 base) s /\ hsize p.1 s = Ok p.2 s.
Proof.
  intros HF E. pose proof (fo_list _ _ HF) as Hl. rewrite E, lseg_app in Hl. destruct Hl as (_ & H1 & H2 & _).
  destruct (fo_hdr s F p HF) as [Ha Hb]; [rewrite E; apply elem_of_app; right; apply list_elem_of_here|].
  pose proof (fo_brk _ _ HF). rewrite hptr_run, hsize_run, H1, H2 by lia. done.
Qed.

(** The walk up to the block [p] below [bp], from a block before it. *)
Lemma free_find_up s F bp p l2 : free_ok s F -> p.1 < bp -> (forall c, c ∈ l2 -> bp < c.1) ->
  forall k l1 fuel, (base, 0) :: F = l1 ++ k ++ p :: l2 -> (length k < fuel)%nat ->
  free_find fuel bp (hd_addr (k ++ [p]) 0) s = Ok p.1 s.
Proof.
  intros HF Hp Hl2. induction k as [|b k IH]; intros l1 fuel E Hf; (destruct fuel as [|fuel]; [cbn in Hf; lia|]); cbn [app hd_addr free_find].
  - destruct (fo_at s F l1 p l2 HF E) as [Hn _]. rewrite (bind_ok _ _ _ _ _ Hn).
    rewrite (proj2 (Z.ltb_lt _ _) Hp). cbn [andb orb]. destruct l2 as [|c l2]; cbn [hd_addr].
    + destruct (fo_hdr s F p HF) as [Ha _]; [rewrite E; apply elem_of_app; right; apply list_elem_of_here|].
      rewrite (proj2 (Z.ltb_ge _ _)) by lia. rewrite (proj2 (Z.leb_le _ _)) by lia. done.
    + rewrite (proj2 (Z.ltb_lt _ _)); [done|]. apply Hl2, list_elem_of_here.
  - cbn in Hf. destruct (fo_at s F l1 b (k ++ p :: l2) HF E) as [Hn _]. rewrite (bind_ok _ _ _ _ _ Hn).
    pose proof (fo_sorted _ _ HF) as Hs. rewrite E in Hs. destruct (sorted_mid _ _ _ Hs) as (_ & Hbc & _ & _ & Hs').
    assert (hd_addr (k ++ p :: l2) base = hd_addr (k ++ [p]) 0) as -> by (by destruct k).
    assert (b.1 < hd_addr (k ++ [p]) 0 <= p.1) as Hlt.
    { destruct k as [|c k]; cbn [app hd_addr].
      - destruct (Hbc p) as [? _]; [apply list_elem_of_here|]. unfold HDR in *. lia.
      - destruct (Hbc c) as [? _]; [apply list_elem_of_here|]. destruct (sorted_mid [] c _ Hs') as (_ & Hcp & _).
        destruct (Hcp p) as [? _]; [apply elem_of_app; right; apply list_elem_of_here|]. unfold HDR in *. lia. }
    rewrite (proj2 (Z.ltb_ge bp _)), andb_false_r by lia. rewrite (proj2 (Z.leb_gt _ b.1)) by lia. cbn [andb].
    apply (IH (l1 ++ [b])); [by rewrite <- app_assoc|lia].
Qed.

(** The walk from a block above [bp] goes on from [base]. *)
Lemma free_find_wrap s F bp : free_ok s F -> base < bp -> forall k l1 fuel, k <> [] ->
  (base, 0) :: F = l1 ++ k -> (forall c, c ∈ k -> bp < c.1) ->
  free_find (length k + fuel) bp (hd_addr k 0) s = free_find fuel bp base s.
Proof.
  intros HF Hbp. induction k as [|b k IH]; intros l1 fuel Hne E Hk; [done|]. cbn [length Nat.add free_find hd_addr].
  destruct (fo_at s F l1 b k HF E) as [Hn _]. rewrite (bind_ok _ _ _ _ _ Hn).
  assert (bp < b.1) by (apply Hk, list_elem_of_here). rewrite (proj2 (Z.ltb_ge b.1 _)) by lia. cbn [andb orb].
  destruct k as [|c k]; cbn [hd_addr length Nat.add].
  - rewrite (proj2 (Z.ltb_ge bp _)), andb_false_r by lia. done.
  - pose proof (fo_sorted _ _ HF) as Hs. rewrite E in Hs. destruct (sorted_mid _ _ _ Hs) as (_ & Hbc & _).
    destruct (Hbc c) as [? _]; [apply list_elem_of_here|]. unfold HDR in *. rewrite (proj2 (Z.leb_gt _ b.1)) by lia. cbn [andb].
    apply (IH (l1 ++ [b])); [done|by rewrite <- app_assoc|]. intros d Hd. apply Hk. by apply list_elem_of_further.
Qed.

(** Every address above [base] that no block has is between two blocks, or
    after the last. *)
Lemma find_gap s F bp : free_ok s F -> base < bp -> (forall b, b ∈ F -> b.1 <> bp) ->
  exists l1 p l2, (base, 0) :: F = l1 ++ p :: l2 /\ p.1 < bp /\ forall c, c ∈ l2 -> bp < c.1.
Proof.
  intros HF Hbp Hne. pose proof (fo_sorted _ _ HF) as Hs. assert (forall b, b ∈ (base, 0) :: F -> b.1 <> bp) as Hne'.
  { intros b [->|Hb]%elem_of_cons; [cbn; lia|by apply Hne]. }
  assert (exists b, b ∈ (base, 0) :: F /\ b.1 < bp) as Hex by (exists (base, 0); split; [apply list_elem_of_here|cbn; lia]).
  clear HF Hne. induction ((base, 0) :: F) as [|b l IH] using rev_ind; [by destruct Hex as (? & ?%elem_of_nil & _)|].
  destruct (decide (b.1 < bp)) as [Hlt|Hge]; [exists l, b, []; splits; [done..|]; by intros c ?%elem_of_nil|].
  destruct IH as (l1 & p & l2 & -> & Hp & Hl2).
  - by apply StronglySorted_app_1_l in Hs.
  - intros c Hc. apply Hne', elem_of_app. by left.
  - destruct Hex as (c & [Hc|Hc]%elem_of_app & Hlt); [by exists c|]. apply list_elem_of_singleton in Hc as ->. lia.
  - exists l1, p, (l2 ++ [b]). splits; [by rewrite <- app_assoc|done|]. intros c [Hc|Hc]%elem_of_app; [by apply Hl2|].
    apply list_elem_of_singleton in Hc as ->. assert (b.1 <> bp); [|lia]. apply Hne', elem_of_app. right. apply list_elem_of_here.
Qed.

Lemma free_find_run s F bp fuel : free_ok s F -> base < bp -> (forall b, b ∈ F -> b.1 <> bp) -> (length F < fuel)%nat ->
  exists l1 p l2, (base, 0) :: F = l1 ++ p :: l2 /\ p.1 < bp /\ (forall c, c ∈ l2 -> bp < c.1) /\
    free_find fuel bp (freep s) s = Ok p.1 s.
Proof.
  intros HF Hbp Hne Hf. destruct (find_gap s F bp HF Hbp Hne) as (l1 & p & l2 & E & Hp & Hl2). exists l1, p, l2. splits; [done..|].
  pose proof (f_equal length E) as Hlen. cbn [length] in Hlen. rewrite length_app in Hlen. cbn [length] in Hlen.
  assert (forall k l0 fuel, (base, 0) :: F = l0 ++ k ++ p :: l2 -> (length k < fuel)%nat -> free_find fuel bp (hd_addr (k ++ [p]) 0) s = Ok p.1 s)
    as Hup by (by eapply free_find_up).
  destruct (fo_freep _ _ HF) as [n Hin]. rewrite E in Hin. apply elem_of_app in Hin as [Hin|[Hin|Hin]%elem_of_cons].
  - apply list_elem_of_split in Hin as (k1 & k2 & ->). rewrite <- app_assoc in E.
    apply (Hup ((freep s, n) :: k2) k1); [done|]. rewrite length_app in Hlen. cbn in *. lia.
  - rewrite <- Hin in *. apply (Hup [] l1); [done|]. cbn. lia.
  - apply list_elem_of_split in Hin as (k1 & k2 & ->). rewrite length_app in Hlen. cbn [length] in Hlen.
    replace fuel with (length ((freep s, n) :: k2) + (fuel - length ((freep s, n) :: k2)))%nat by (cbn; lia).
    change (freep s) with (hd_addr ((freep s, n) :: k2) 0) at 3.
    rewrite (free_find_wrap s F bp HF Hbp _ (l1 ++ p :: k1)); [|done|by rewrite <- app_assoc|].
    + replace base with (hd_addr (l1 ++ [p]) 0); [apply (Hup l1 []); [done|cbn; lia]|].
      destruct l1; injection E as <- _; done.
    + intros c Hc. apply Hl2, elem_of_app. by right.
Qed.

(** ** free *)

(** A block that can be freed. *)
Record loose (s : ust) (F : list blk) (b : blk) : Prop := Loose {
  lo_pos : 0 < b.2;
  lo_base : base + 16 <= b.1;
  lo_end : bend b <= brk s;
  lo_size : loadn 4 (umem s) (b.1 + 8) = b.2;
  lo_apart : forall c, c ∈ F -> bend c <= b.1 \/ bend b <= c.1 }.

Lemma loose_gap s F b l1 p l2 : free_ok s F -> loose s F b -> (base, 0) :: F = l1 ++ p :: l2 ->
  p.1 < b.1 -> (forall c, c ∈ l2 -> b.1 < c.1) ->
  p.1 + 16 <= b.1 /\ bend p <= b.1 /\ forall c, c ∈ l2 -> bend b <= c.1.
Proof.
  intros HF [Hn Hb _ _ Hap] E Hp Hl2. assert (forall c, c ∈ (base, 0) :: F -> (c = (base, 0) \/ 0 < c.2) /\ (bend c <= b.1 \/ bend b <= c.1)) as Hc.
  { intros c [->|Hc]%elem_of_cons; [split; [by left|left; unfold bend, HDR; cbn; lia]|].
    split; [right; pose proof (fo_pos _ _ HF) as H; rewrite Forall_forall in H; by apply H|by apply Hap]. }
  rewrite E in Hc. unfold bend, HDR in *.
  destruct (Hc p) as [H1 H2]; [apply elem_of_app; right; apply list_elem_of_here|]. splits.
  - destruct H1 as [->|H1]; cbn in *; lia.
  - lia.
  - intros c Hin. destruct (Hc c) as [_ H4]; [apply elem_of_app; right; by apply list_elem_of_further|].
    specialize (Hl2 c Hin). destruct (Hc c) as [[->|H5] _]; [apply elem_of_app; right; by apply list_elem_of_further|cbn in *; lia..].
Qed.

(** The bytes of a header are all that changes. *)
Definition only_hdr (a : Z) (m m' : gmap Z Z) : Prop := forall x, ~ (a <= x < a + 16) -> load8 m' x = load8 m x.

Lemma only_hdr_lseg a m m' l e : only_hdr a m m' -> (forall b, b ∈ l -> b.1 + 16 <= a \/ a + 16 <= b.1) ->
  lseg m l e -> lseg m' l e.
Proof. intros Hm Hl. apply lseg_ext. intros b x Hb Hx. apply Hm. specialize (Hl b Hb). lia. Qed.

Lemma only_hdr_set a n m v : only_hdr a m (storen 8 (storen 4 m (a + 8) n) a v).
Proof. intros x Hx. rewrite !load8_storen_ne by lia. done. Qed.
Lemma only_hdr_ptr a m v : only_hdr a m (storen 8 m a v).
Proof. intros x Hx. rewrite load8_storen_ne by lia. done. Qed.
Lemma hdr_set a n m v : 0 <= v < 2^64 -> 0 <= n < 2^32 ->
  let m' := storen 8 (storen 4 m (a + 8) n) a v in loadn 8 m' a = v /\ loadn 4 m' (a + 8) = n.
Proof.
  intros Hv Hn m'. subst m'. rewrite loadn_storen, loadn_storen_ne by lia. rewrite loadn_storen.
  rewrite !Z.mod_small by (cbn; lia). done.
Qed.
Lemma hdr_ptr a m v : 0 <= v < 2^64 ->
  let m' := storen 8 m a v in loadn 8 m' a = v /\ loadn 4 m' (a + 8) = loadn 4 m (a + 8).
Proof. intros Hv m'. subst m'. rewrite loadn_storen, loadn_storen_ne by lia. by rewrite Z.mod_small by (cbn; lia). Qed.

Lemma hd_addr_range s F l1 p l2 : free_ok s F -> (base, 0) :: F = l1 ++ p :: l2 -> 0 <= hd_addr l2 base < 2^64.
Proof.
  intros HF E. pose proof (fo_brk _ _ HF). destruct l2 as [|c l2]; cbn [hd_addr]; [lia|].
  destruct (fo_hdr s F c HF); [|lia]. rewrite E. apply elem_of_app. right. apply list_elem_of_further, list_elem_of_here.
Qed.

Lemma join_next_run s F b l1 p l2 : free_ok s F -> loose s F b -> (base, 0) :: F = l1 ++ p :: l2 ->
  p.1 < b.1 -> (forall c, c ∈ l2 -> b.1 < c.1) ->
  exists m' n r, join_next b.1 p.1 s = Ok tt (set_umem m' s) /\ mem_wf m' /\ only_hdr b.1 (umem s) m' /\
    lseg m' ((b.1, n) :: r) base /\ StronglySorted before ((b.1, n) :: r) /\ (forall c, c ∈ r -> c ∈ l2) /\ (length r <= length l2)%nat /\
    0 < n /\ bend (b.1, n) <= brk s /\ forall x, in_blks ((b.1, n) :: r) x <-> in_blk b x \/ in_blks l2 x.
Proof.
  intros HF HL E Hp Hl2. destruct (loose_gap _ _ _ _ _ _ HF HL E Hp Hl2) as (_ & _ & Hup).
  destruct (fo_at _ _ _ _ _ HF E) as [Hn _]. pose proof (fo_brk _ _ HF) as Hbrk. destruct HL as [Hpos Hba Hend Hsz _].
  pose proof (fo_sorted _ _ HF) as Hs. rewrite E in Hs. destruct (sorted_mid _ _ _ Hs) as (_ & _ & _ & _ & Hs2).
  pose proof (fo_list _ _ HF) as Hseg. rewrite E, lseg_app in Hseg. destruct Hseg as (_ & _ & _ & Hseg2).
  pose proof (hd_addr_range _ _ _ _ _ HF E) as Hr. unfold bend, HDR in Hend, Hup.
  unfold join_next. rewrite (bind_ok _ _ _ _ _ Hn), (bind_ok _ _ _ _ _ (hsize_run s ltac:(lia) b.1 ltac:(lia) ltac:(lia))), Hsz.
  rewrite hadd_small by lia. destruct (_ =? _) eqn:Hq; b2p.
  - destruct l2 as [|q l3]; cbn [hd_addr] in *; [lia|]. assert ((base, 0) :: F = (l1 ++ [p]) ++ q :: l3) as Eq by (by rewrite <- app_assoc).
    destruct (fo_at _ _ _ _ _ HF Eq) as [Hqn Hqs]. pose proof (hd_addr_range _ _ _ _ _ HF Eq) as Hr3.
    assert (q ∈ F) as HqF.
    { assert (q ∈ (base, 0) :: F) as [->|?]%elem_of_cons; [rewrite Eq; apply elem_of_app; right; apply list_elem_of_here|cbn in *; lia|done]. }
    pose proof (fo_pos _ _ HF) as Hfp. rewrite Forall_forall in Hfp. destruct (Hfp q HqF) as [Hq1 Hq2]. unfold bend, HDR in Hq2.
    rewrite (bind_ok _ _ _ _ _ Hqs). rewrite (bind_ok _ _ _ _ _ (set_hsize_run s ltac:(lia) b.1 _ ltac:(lia) ltac:(lia))).
    set (m1 := storen 4 (umem s) (b.1 + 8) (b.2 + q.2)).
    rewrite (bind_ok _ _ _ _ _ (hptr_run (set_umem m1 s) ltac:(cbn; lia) q.1 ltac:(lia) ltac:(cbn; lia))).
    rewrite set_hptr_run by (cbn; lia). cbn [umem set_umem].
    assert (loadn 8 m1 q.1 = hd_addr l3 base) as ->.
    { unfold m1. rewrite loadn_storen_ne by lia. by destruct Hseg2 as [G0 _]. }
    exists (storen 8 m1 b.1 (hd_addr l3 base)), (b.2 + q.2), l3. destruct (hdr_set b.1 (b.2 + q.2) (umem s) (hd_addr l3 base)) as [G1 G2]; [lia..|].
    apply StronglySorted_cons in Hs2 as [Hs2 Hs3]. rewrite Forall_forall in Hs2. splits.
    + done.
    + apply storen_wf, storen_wf, HF.
    + apply only_hdr_set.
    + cbn [lseg fst snd]. splits; [done..|]. eapply only_hdr_lseg; [apply only_hdr_set| |apply Hseg2].
      intros c Hc. right. destruct (Hs2 c Hc). unfold HDR in *. lia.
    + apply StronglySorted_cons. split; [|done]. apply Forall_forall. intros c Hc. destruct (Hs2 c Hc) as [G3 G4].
      unfold before, bend, HDR in *. cbn [fst snd]. lia.
    + intros c Hc. by apply list_elem_of_further.
    + cbn. lia.
    + lia.
    + unfold bend, HDR. cbn [fst snd]. lia.
    + intros x. rewrite !in_blks_cons, in_blk_join by lia. rewrite Hq. destruct b, q; cbn [fst snd] in *. tauto.
  - rewrite set_hptr_run by lia. exists (storen 8 (umem s) b.1 (hd_addr l2 base)), b.2, l2.
    destruct (hdr_ptr b.1 (umem s) (hd_addr l2 base)) as [G1 G2]; [lia|]. splits; try done.
    + apply storen_wf, HF.
    + apply only_hdr_ptr.
    + cbn [lseg fst snd]. rewrite G2. splits; [done..|]. eapply only_hdr_lseg; [apply only_hdr_ptr| |apply Hseg2].
      intros c Hc. right. specialize (Hup c Hc). lia.
    + apply StronglySorted_cons. split; [|done]. apply Forall_forall. intros c Hc. unfold before, bend, HDR; cbn [fst snd].
      enough (b.1 + 16 * b.2 < c.1) by lia. destruct l2 as [|q l3]; [by apply elem_of_nil in Hc|]. cbn [hd_addr] in Hq.
      assert (b.1 + 16 * b.2 <= q.1) by (apply Hup, list_elem_of_here). apply elem_of_cons in Hc as [->|Hc]; [lia|].
      apply StronglySorted_cons in Hs2 as [Hs2 _]. rewrite Forall_forall in Hs2. destruct (Hs2 c Hc). unfold HDR in *. lia.
    + intros x. rewrite in_blks_cons. by destruct b.
Qed.

(** A list of blocks that starts with [base] is a free list. *)
Record list_ok (m : gmap Z Z) (top : Z) (l : list blk) : Prop := ListOk {
  l_head : head l = Some (base, 0);
  l_seg : lseg m l base;
  l_sorted : StronglySorted before l;
  l_pos : forall c, c ∈ l -> c = (base, 0) \/ 0 < c.2 /\ bend c <= top }.

Lemma list_ok_free s l p : mem_wf (umem s) -> 0 < base -> base + 16 <= brk s < 2^31 -> list_ok (umem s) (brk s) l ->
  p ∈ l -> freep s = p.1 -> exists F, l = (base, 0) :: F /\ free_ok s F.
Proof.
  intros Hm Hb1 Hb2 [Hh Hseg Hs Hpos] Hp Hf. destruct l as [|b F]; [done|]. injection Hh as ->. exists F. split; [done|]. split; try done.
  - exists p.2. rewrite Hf. by destruct p.
  - apply Forall_forall. intros c Hc. destruct (Hpos c) as [->|?]; [by apply list_elem_of_further| |done].
    apply StronglySorted_cons in Hs as [Hs _]. rewrite Forall_forall in Hs. destruct (Hs _ Hc). unfold HDR in *. cbn in *. lia.
Qed.

Lemma free_list_ok s F : free_ok s F -> list_ok (umem s) (brk s) ((base, 0) :: F).
Proof.
  intros HF. split; [done|apply HF|apply HF|]. intros c [->|Hc]%elem_of_cons; [by left|right].
  pose proof (fo_pos _ _ HF) as H. rewrite Forall_forall in H. by apply H.
Qed.

(** Replacing the blocks from [p] on, where the address of [p] stays. *)
Lemma list_ok_tail m m' top l1 p l2 p' r : list_ok m top (l1 ++ p :: l2) ->
  (l1 = [] -> p' = p) -> p'.1 = p.1 -> (forall x, x < p.1 -> load8 m' x = load8 m x) ->
  lseg m' (p' :: r) base -> StronglySorted before (p' :: r) -> (forall c, c ∈ r -> p.1 <= c.1) ->
  (forall c, c ∈ p' :: r -> c = (base, 0) \/ 0 < c.2 /\ bend c <= top) -> list_ok m' top (l1 ++ p' :: r).
Proof.
  intros [Hh Hseg Hs Hpos] Hnil Hp' Hm Hseg' Hs' Hr Hpos'. rewrite lseg_app in Hseg. destruct Hseg as [Hseg1 _].
  destruct (sorted_mid _ _ _ Hs) as (H1 & _ & _ & Hs1 & _). split.
  - destruct l1; [cbn in *; by rewrite Hnil|done].
  - apply lseg_app. cbn [hd_addr] in *. rewrite Hp'. split; [|done]. revert Hseg1. apply lseg_ext. intros b x Hb Hx.
    apply Hm. destruct (H1 b Hb). unfold HDR in *. lia.
  - apply StronglySorted_app. splits; [|done..]. intros b c Hb [->|Hc]%elem_of_cons; destruct (H1 b Hb) as [G1 G2]; split; rewrite ?Hp'; try done.
    all: specialize (Hr c Hc); lia.
  - intros c [Hc|Hc]%elem_of_app; [apply Hpos, elem_of_app; by left|by apply Hpos'].
Qed.

Lemma join_prev_run s l1 p l2 bp n r : mem_wf (umem s) -> 0 < base -> base + 16 <= brk s < 2^31 ->
  forall m0, list_ok m0 (brk s) (l1 ++ p :: l2) -> only_hdr bp m0 (umem s) ->
  p.1 + 16 <= bp -> bend p <= bp -> 0 < n -> bend (bp, n) <= brk s ->
  lseg (umem s) ((bp, n) :: r) base -> StronglySorted before ((bp, n) :: r) -> (forall c, c ∈ r -> c ∈ l2) ->
  exists m' l', join_prev bp p.1 s = Ok tt (set_umem m' s) /\ mem_wf m' /\ only_hdr p.1 (umem s) m' /\
    list_ok m' (brk s) l' /\ (exists k, (p.1, k) ∈ l') /\ (length l' <= length l1 + 2 + length r)%nat /\
    forall x, in_blks l' x <-> in_blks (l1 ++ [p]) x \/ in_blks ((bp, n) :: r) x.
Proof.
  intros Hm Hb1 Hb2 m0 HL Hm0 Hp Hpe Hn Hbe Hseg Hs Hr. pose proof HL as [Hh Hseg0 Hs0 Hpos].
  assert (Hpin : p ∈ l1 ++ p :: l2) by (apply elem_of_app; right; apply list_elem_of_here).
  assert (base <= p.1 /\ (p <> (base, 0) -> 0 < p.2) /\ 0 <= p.2) as (Hpb & Hp2 & Hp0).
  { destruct (Hpos p Hpin) as [->|?]; [cbn; splits; [lia|congruence|lia]|splits; [|lia|lia]].
    destruct l1 as [|c l1]; injection Hh as ->; [cbn; lia|]. apply StronglySorted_cons in Hs0 as [Hs0 _]. rewrite Forall_forall in Hs0.
    destruct (Hs0 p) as [G _]; [apply elem_of_app; right; apply list_elem_of_here|]. unfold HDR in G; cbn in G. lia. }
  assert (loadn 4 (umem s) (p.1 + 8) = p.2) as Hsz.
  { rewrite lseg_app in Hseg0. destruct Hseg0 as (_ & _ & <- & _). apply loadn_ext. intros x Hx. apply Hm0. lia. }
  assert (forall c, c ∈ r -> p.1 + 16 <= c.1) as Hrc.
  { intros c Hc. destruct (sorted_mid _ _ _ Hs0) as (_ & G & _). destruct (G c (Hr c Hc)) as [G1 _]. unfold HDR in G1. lia. }
  assert (forall c, c ∈ r -> c = (base, 0) \/ 0 < c.2 /\ bend c <= brk s) as Hrp.
  { intros c Hc. apply Hpos, elem_of_app. right. by apply list_elem_of_further, Hr. }
  apply StronglySorted_cons in Hs as Hs'. destruct Hs' as [Hs1 Hs2]. rewrite Forall_forall in Hs1.
  destruct Hseg as (Hg1 & Hg2 & Hg3). unfold bend, HDR in *. cbn [fst snd] in *.
  unfold join_prev. rewrite (bind_ok _ _ _ _ _ (hsize_run s ltac:(lia) p.1 ltac:(lia) ltac:(lia))), Hsz.
  rewrite hadd_small by lia. destruct (_ =? _) eqn:Hq; b2p.
  - rewrite (bind_ok _ _ _ _ _ (hsize_run s ltac:(lia) bp ltac:(lia) ltac:(lia))), Hg2.
    rewrite (bind_ok _ _ _ _ _ (set_hsize_run s ltac:(lia) p.1 _ ltac:(lia) ltac:(lia))). set (m1 := storen 4 (umem s) (p.1 + 8) (p.2 + n)).
    rewrite (bind_ok _ _ _ _ _ (hptr_run (set_umem m1 s) ltac:(cbn; lia) bp ltac:(lia) ltac:(cbn; lia))).
    rewrite set_hptr_run by (cbn; lia). cbn [umem set_umem].
    assert (loadn 8 m1 bp = hd_addr r base) as -> by (unfold m1; by rewrite loadn_storen_ne by lia).
    exists (storen 8 m1 p.1 (hd_addr r base)), (l1 ++ (p.1, p.2 + n) :: r).
    assert (0 <= hd_addr r base < 2^64) as Hhr.
    { destruct r as [|c r]; cbn [hd_addr]; [lia|]. destruct (Hrp c) as [->|[G1 G2]]; [apply list_elem_of_here|cbn; lia|].
      pose proof (Hrc c (list_elem_of_here _ _)). lia. }
    destruct (hdr_set p.1 (p.2 + n) (umem s) (hd_addr r base)) as [G1 G2]; [lia..|]. splits; [done|by apply storen_wf, storen_wf|apply only_hdr_set| | |rewrite length_app; cbn; lia|].
    + eapply list_ok_tail; [exact HL|..]; cbn [fst snd].
      * intros ->. injection Hh as ->. cbn in *. lia.
      * done.
      * intros x Hx. unfold m1. rewrite !load8_storen_ne by lia. apply Hm0. lia.
      * cbn [lseg fst snd]. splits; [done..|]. eapply only_hdr_lseg; [apply only_hdr_set| |apply Hg3]. intros c Hc. right. by apply Hrc.
      * apply StronglySorted_cons. split; [|done]. apply Forall_forall. intros c Hc. destruct (Hs1 c Hc). unfold before, bend, HDR in *. cbn [fst snd] in *. lia.
      * intros c Hc. specialize (Hrc c Hc). lia.
      * intros c [->|Hc]%elem_of_cons; [right|by apply Hrp]. unfold bend, HDR; cbn. lia.
    + exists (p.2 + n). apply elem_of_app. right. apply list_elem_of_here.
    + intros x. rewrite !in_blks_app, !in_blks_cons, in_blk_join by lia. rewrite Hq. destruct p; cbn [fst snd].
      assert (~ in_blks [] x) by (intros (? & ?%elem_of_nil & _); done). tauto.
  - rewrite set_hptr_run by lia. exists (storen 8 (umem s) p.1 bp), (l1 ++ p :: (bp, n) :: r).
    destruct (hdr_ptr p.1 (umem s) bp) as [G1 G2]; [lia|]. splits; [done|by apply storen_wf|apply only_hdr_ptr| | |rewrite length_app; cbn; lia|].
    + eapply list_ok_tail; [exact HL|done|done|..].
      * intros x Hx. rewrite !load8_storen_ne by lia. apply Hm0. lia.
      * cbn [lseg fst snd hd_addr]. rewrite G2. splits; [done..| | |].
        all: try (rewrite loadn_storen_ne by lia; done).
        eapply only_hdr_lseg; [apply only_hdr_ptr| |apply Hg3]. intros c Hc. right. by apply Hrc.
      * apply StronglySorted_cons. split; [|done]. apply Forall_forall. intros c [->|Hc]%elem_of_cons; unfold before, bend, HDR; cbn [fst snd]; [lia|].
        destruct (Hs1 c Hc). unfold bend, HDR in *. cbn [fst snd] in *. lia.
      * intros c [->|Hc]%elem_of_cons; cbn [fst snd]; [lia|]. specialize (Hrc c Hc). lia.
      * intros c [->|[->|Hc]%elem_of_cons]%elem_of_cons; [by apply Hpos|right; unfold bend, HDR; cbn; lia|by apply Hrp].
    + exists p.2. apply elem_of_app. right. destruct p; apply list_elem_of_here.
    + intros x. rewrite !in_blks_app, !in_blks_cons. assert (~ in_blks [] x) by (intros (? & ?%elem_of_nil & _); done). tauto.
Qed.

(** What [free] leaves alone: everything but the free blocks, the block, and
    the header [base]. *)
Definition heap_frame (F : list blk) (b : blk) (m m' : gmap Z Z) : Prop := forall x,
  ~ in_blks F x -> ~ in_blk b x -> ~ (base <= x < base + 16) -> load8 m' x = load8 m x.

Lemma in_blks_base l x : in_blks ((base, 0) :: l) x <-> in_blks l x.
Proof. rewrite in_blks_cons. split; [intros [G|G]; [|done]|by right]. unfold in_blk, bend, HDR in G; cbn in G. lia. Qed.

Lemma hdr_in_blk b x : 0 < b.2 -> b.1 <= x < b.1 + 16 -> in_blk b x.
Proof. unfold in_blk, bend, HDR. lia. Qed.

Lemma hdr_in_heap s F q x : free_ok s F -> q ∈ (base, 0) :: F -> ~ in_blks F x -> ~ (base <= x < base + 16) -> ~ (q.1 <= x < q.1 + 16).
Proof.
  intros HF [->|Hq]%elem_of_cons Hx Hb G; [done|]. apply Hx. exists q. split; [done|]. apply hdr_in_blk; [|done].
  pose proof (fo_pos _ _ HF) as G2. rewrite Forall_forall in G2. by apply G2.
Qed.

Lemma wp_free_block fuel s F b : free_ok s F -> loose s F b -> (length F < fuel)%nat ->
  wp (free fuel (b.1 + 16)) (fun _ s' => exists F', free_ok s' F' /\ brk s' = brk s /\ (length F' <= S (length F))%nat /\
    (forall x, in_blks F' x <-> in_blks F x \/ in_blk b x) /\ heap_frame F b (umem s) (umem s')) s.
Proof.
  intros HF HL Hfuel. pose proof (fo_brk _ _ HF) as [Hb1 Hb2]. pose proof HL as [Hn Hbb Hbe _ Hap]. unfold bend, HDR in Hbe.
  unfold free. replace (wrap64 (b.1 + 16 - HDR)) with b.1 by (rewrite wrap64_small; unfold HDR; lia).
  destruct (free_find_run s F b.1 fuel HF) as (l1 & p & l2 & E & Hp & Hl2 & Hrun); [lia| |done|].
  { intros c Hc He. pose proof (fo_pos _ _ HF) as G. rewrite Forall_forall in G. destruct (G c Hc). specialize (Hap c Hc). unfold bend, HDR in *. lia. }
  destruct (loose_gap _ _ _ _ _ _ HF HL E Hp Hl2) as (Hp16 & Hpe & _).
  destruct (join_next_run _ _ _ _ _ _ HF HL E Hp Hl2) as (m1 & n & r & R1 & Hm1 & Ho1 & Hseg & Hs & Hr & Hlr & Hn1 & He1 & Hin1).
  pose proof (free_list_ok _ _ HF) as HL0. rewrite E in HL0.
  destruct (join_prev_run (set_umem m1 s) l1 p l2 b.1 n r Hm1 Hb1 Hb2 _ HL0 Ho1 Hp16 Hpe Hn1 He1 Hseg Hs Hr) as (m2 & l' & R2 & Hm2 & Ho2 & HL' & [k Hk] & Hlen & Hin2).
  apply wp_bind, wp_gets, wp_bind. eapply wp_run; [exact Hrun|]. apply wp_bind. eapply wp_run; [exact R1|].
  apply wp_bind. eapply wp_run; [exact R2|]. apply wp_modify. cbn [set_umem set_freep umem brk].
  destruct (list_ok_free (Ust m2 (brk s) p.1) l' (p.1, k) Hm2 Hb1 Hb2 HL' Hk eq_refl) as (F' & -> & HF').
  exists F'. splits; [done..| | |].
  - apply (f_equal length) in E. rewrite length_app in E. cbn in *. lia.
  - intros x. rewrite <- (in_blks_base F'), Hin2, Hin1, <- (in_blks_base F), E. change (l1 ++ p :: l2) with (l1 ++ [p] ++ l2). rewrite app_assoc, (in_blks_app (l1 ++ [p])). clear. tauto.
  - intros x Hx1 Hx2 Hx3. cbn [umem set_umem] in *. rewrite Ho2, Ho1; [done| |].
    + intros G. by apply Hx2, hdr_in_blk.
    + eapply hdr_in_heap; [exact HF| |done..]. rewrite E. apply elem_of_app. right. apply list_elem_of_here.
Qed.

(** ** malloc *)

Lemma second_block s F l1 q p l2 : free_ok s F -> (base, 0) :: F = l1 ++ q :: p :: l2 -> p ∈ F.
Proof.
  intros HF E. destruct l1 as [|c l1]; injection E as _ E; rewrite E; [apply list_elem_of_here|].
  apply elem_of_app. right. apply list_elem_of_further, list_elem_of_here.
Qed.

(** The outcome of [take_block]: the block is out of the list, with its size in
    its header. *)
Definition taken (s : ust) (F : list blk) (nu r : Z) (s' : ust) : Prop := exists a F',
  r = a + 16 /\ free_ok s' F' /\ loose s' F' (a, nu) /\ brk s' = brk s /\
  (forall x, in_blks F x <-> in_blks F' x \/ in_blk (a, nu) x) /\ heap_frame F (0, 0) (umem s) (umem s').

(** Taking the block [p], or its end, leaves the blocks [r] after [q]. *)
Definition cut (p : blk) (l2 : list blk) (nu a : Z) (r : list blk) : Prop :=
  nu = p.2 /\ a = p.1 /\ r = l2 \/ nu < p.2 /\ a = p.1 + 16 * (p.2 - nu) /\ r = (p.1, p.2 - nu) :: l2.

Lemma cut_sorted s F l1 q p l2 nu a r : free_ok s F -> (base, 0) :: F = l1 ++ q :: p :: l2 -> 0 < nu -> cut p l2 nu a r ->
  StronglySorted before (q :: r) /\ (forall c, c ∈ r -> 0 < c.2 /\ bend c <= brk s) /\
  (forall c, c ∈ r -> bend c <= a \/ bend (a, nu) <= c.1).
Proof.
  intros HF E Hnu Hcut. pose proof (fo_sorted _ _ HF) as Hs. rewrite E in Hs. destruct (sorted_mid _ _ _ Hs) as (_ & Hq2 & _ & _ & Hs2).
  apply StronglySorted_cons in Hs2 as [Hp2 Hs2]. rewrite Forall_forall in Hp2. pose proof (fo_pos _ _ HF) as Hfp. rewrite Forall_forall in Hfp.
  assert (forall c, c ∈ p :: l2 -> 0 < c.2 /\ bend c <= brk s) as Hpos.
  { intros c Hc. apply Hfp. destruct l1 as [|d l1]; injection E as _ E; rewrite E; [done|]. apply elem_of_app. right. by apply list_elem_of_further. }
  destruct (Hpos p (list_elem_of_here _ _)) as [Hpp Hpe]. destruct (Hq2 p (list_elem_of_here _ _)) as [Hqp1 Hqp2].
  assert (forall c, c ∈ l2 -> bend p < c.1) as Hl by (intros c Hc; by destruct (Hp2 c Hc)).
  destruct Hcut as [(-> & -> & ->)|(Hlt & -> & ->)]; splits.
  - apply StronglySorted_cons. split; [|done]. apply Forall_forall. intros c Hc. by apply Hq2, list_elem_of_further.
  - intros c Hc. by apply Hpos, list_elem_of_further.
  - intros c Hc. right. specialize (Hl c Hc). unfold bend in *; cbn. lia.
  - apply StronglySorted_cons. split; [|apply StronglySorted_cons; split; [|done]]; apply Forall_forall.
    + intros c [->|Hc]%elem_of_cons; [by split|]. by apply Hq2, list_elem_of_further.
    + intros c Hc. specialize (Hl c Hc). destruct (Hp2 c Hc). unfold before, bend, HDR in *; cbn [fst snd]. lia.
  - intros c [->|Hc]%elem_of_cons; [unfold bend, HDR in *; cbn; lia|by apply Hpos, list_elem_of_further].
  - intros c [->|Hc]%elem_of_cons; [left; unfold bend, HDR; cbn; lia|right]. specialize (Hl c Hc). unfold bend, HDR in *; cbn. lia.
Qed.

Lemma cut_bytes p l2 nu a r x : 0 < nu -> cut p l2 nu a r -> in_blk p x \/ in_blks l2 x <-> in_blks r x \/ in_blk (a, nu) x.
Proof.
  intros Hnu [(-> & -> & ->)|(Hlt & -> & ->)]; [destruct p; cbn; tauto|]. rewrite in_blks_cons.
  assert (in_blk p x <-> in_blk (p.1, p.2 - nu) x \/ in_blk (p.1 + 16 * (p.2 - nu), nu) x); [|tauto].
  unfold in_blk, bend, HDR; cbn. lia.
Qed.

Lemma taken_intro s F l1 q p l2 m' nu a r : free_ok s F -> (base, 0) :: F = l1 ++ q :: p :: l2 -> 0 < nu -> cut p l2 nu a r ->
  mem_wf m' -> (forall x, ~ (q.1 <= x < q.1 + 16) -> ~ in_blk p x -> load8 m' x = load8 (umem s) x) ->
  loadn 4 m' (a + 8) = nu -> lseg m' (q :: r) base -> taken s F nu (a + 16) (Ust m' (brk s) q.1).
Proof.
  intros HF E Hnu Hcut Hm' Ho Hsz Hseg. pose proof (fo_brk _ _ HF) as [Hb1 Hb2]. pose proof (second_block _ _ _ _ _ _ HF E) as HpF.
  destruct (cut_sorted _ _ _ _ _ _ _ _ _ HF E Hnu Hcut) as (Hs & Hrp & Hra). pose proof (free_list_ok _ _ HF) as HL. rewrite E in HL.
  destruct (fo_hdr s F p HF) as [_ Hph]; [by apply list_elem_of_further|]. pose proof (fo_pos _ _ HF) as Hfp. rewrite Forall_forall in Hfp.
  destruct (Hfp p HpF) as [Hpp Hpe]. pose proof (fo_sorted _ _ HF) as Hs0. rewrite E in Hs0. destruct (sorted_mid _ _ _ Hs0) as (Hl1 & Hq2 & _).
  destruct (Hq2 p (list_elem_of_here _ _)) as [Hqp1 Hqp2]. pose proof Hs as Hs'. apply StronglySorted_cons in Hs' as [Hqr _]. rewrite Forall_forall in Hqr.
  assert (p.1 <= a /\ bend (a, nu) <= bend p) as [Ha1 Ha2] by (unfold bend, HDR; destruct Hcut as [(-> & -> & _)|(? & -> & _)]; cbn; lia).
  assert (q ∈ l1 ++ q :: p :: l2) as Hqin by (apply elem_of_app; right; apply list_elem_of_here).
  destruct (fo_hdr s F q HF) as [Hqb _]; [by rewrite E|].
  assert (list_ok m' (brk s) (l1 ++ q :: r)) as HL'.
  { eapply list_ok_tail; [exact HL|done|done| |done|done| |].
    - intros x Hx. apply Ho; unfold in_blk, HDR in *; lia.
    - intros c Hc. destruct (Hqr c Hc). unfold HDR in *. lia.
    - intros c [->|Hc]%elem_of_cons; [by apply HL|right; by apply Hrp]. }
  destruct (list_ok_free (Ust m' (brk s) q.1) _ q Hm' Hb1 Hb2 HL') as (F' & E2 & HF'); [apply elem_of_app; right; apply list_elem_of_here|done|].
  exists a, F'. splits; [done..| |done| |].
  - unfold HDR in *. split; cbn [fst snd umem brk]; [done|lia|lia|done|]. intros c Hc.
    assert (c ∈ l1 ++ q :: r) as [Hc'|[->|Hc']%elem_of_cons]%elem_of_app by (rewrite E2; by apply list_elem_of_further).
    + left. destruct (Hl1 c Hc'). lia.
    + left. lia.
    + by apply Hra.
  - intros x. rewrite <- (in_blks_base F), <- (in_blks_base F'), E, <- E2. rewrite !in_blks_app, !in_blks_cons.
    pose proof (cut_bytes p l2 nu a r x Hnu Hcut). tauto.
  - intros x Hx1 _ Hx3. cbn [umem]. apply Ho; [eapply hdr_in_heap; [exact HF| |done..]; by rewrite E|].
    intros G. apply Hx1. by exists p.
Qed.

Lemma wp_take_block s F l1 q p l2 nu : free_ok s F -> (base, 0) :: F = l1 ++ q :: p :: l2 -> 0 < nu <= p.2 ->
  wp (take_block nu q.1 p.1 p.2) (taken s F nu) s.
Proof.
  intros HF E Hnu. pose proof (fo_brk _ _ HF) as [Hb1 Hb2]. pose proof (second_block _ _ _ _ _ _ HF E) as HpF.
  assert ((base, 0) :: F = (l1 ++ [q]) ++ p :: l2) as E' by (by rewrite <- app_assoc).
  destruct (fo_at _ _ _ _ _ HF E') as [Hpn _]. pose proof (hd_addr_range _ _ _ _ _ HF E') as Hr.
  destruct (fo_hdr s F q HF) as [Hq1 Hq3]; [rewrite E; apply elem_of_app; right; apply list_elem_of_here|].
  pose proof (fo_pos _ _ HF) as Hfp. rewrite Forall_forall in Hfp. destruct (Hfp p HpF) as [_ Hpe].
  pose proof (fo_sorted _ _ HF) as Hs. rewrite E in Hs. destruct (sorted_mid _ _ _ Hs) as (_ & Hq2 & _ & _ & Hs2).
  apply StronglySorted_cons in Hs2 as [Hp2 _]. rewrite Forall_forall in Hp2. destruct (Hq2 p (list_elem_of_here _ _)) as [Hqp _].
  pose proof (fo_list _ _ HF) as Hseg. rewrite E, lseg_app in Hseg. destruct Hseg as (_ & Hqn & Hqs & Hps1 & Hps2 & Hseg). cbn [hd_addr] in Hqn.
  unfold take_block, bend, HDR in *. destruct (Z.eqb_spec p.2 nu) as [Heq|Heq].
  - do 2 apply wp_bind. eapply wp_run; [exact Hpn|]. apply wp_bind. eapply wp_run; [apply set_hptr_run; lia|]. apply wp_ret, wp_bind, wp_modify, wp_ret.
    rewrite hadd_small by lia. replace (p.1 + 16 * 1) with (p.1 + 16) by lia. destruct (hdr_ptr q.1 (umem s) (hd_addr l2 base) Hr) as [G1 G2].
    apply (taken_intro s F l1 q p l2 _ nu p.1 l2); [done|done|lia|by left|apply storen_wf, HF| | |].
    + intros x Hx _. by apply only_hdr_ptr.
    + cbn [umem set_umem]. rewrite loadn_storen_ne by lia. lia.
    + cbn [lseg umem set_umem]. rewrite G2. splits; [done..|]. eapply only_hdr_lseg; [apply only_hdr_ptr| |exact Hseg]. intros c Hc. destruct (Hp2 c Hc). unfold HDR in *. lia.
  - do 2 apply wp_bind. eapply wp_run; [apply set_hsize_run; lia|]. apply wp_bind. set (m1 := storen 4 (umem s) (p.1 + 8) (p.2 - nu)).
    eapply wp_run; [apply (hsize_run (set_umem m1 s)); cbn; lia|]. cbn [umem set_umem].
    assert (loadn 4 m1 (p.1 + 8) = p.2 - nu) as -> by (unfold m1; rewrite loadn_storen, Z.mod_small; cbn; lia).
    rewrite hadd_small by lia. apply wp_bind. eapply wp_run; [apply set_hsize_run; cbn; lia|]. apply wp_ret, wp_bind, wp_modify, wp_ret.
    rewrite hadd_small by lia. replace (_ + 16 * 1) with (p.1 + 16 * (p.2 - nu) + 16) by lia.
    apply (taken_intro s F l1 q p l2 _ nu _ ((p.1, p.2 - nu) :: l2)); [done|done|lia|right; splits; [lia|done..]|apply storen_wf, storen_wf, HF| | |].
    + intros x _ Hx. unfold in_blk, bend, HDR in Hx. unfold m1; cbn [umem set_umem]. rewrite !load8_storen_ne by lia. done.
    + cbn [umem set_umem]. rewrite loadn_storen, Z.mod_small; cbn; lia.
    + unfold m1; cbn [lseg hd_addr fst snd umem set_umem]. rewrite !loadn_storen_ne by lia. rewrite loadn_storen, Z.mod_small by (cbn; lia). splits; [done..|].
      revert Hseg. apply lseg_ext. intros c x Hc Hx. destruct (Hp2 c Hc). unfold bend, HDR in *. rewrite !load8_storen_ne by lia. done.
Qed.
End umalloc.
