(* ===== verification/UmallocTheorems.v ===== *)
(** * malloc and free (user/umalloc.c): theorems

    The search of [malloc] goes once around the list; when no block is big
    enough the heap grows, and the search finds a block the second time. *)

From stdpp Require Import sorting.
From S2P Require Import Prelude Riscv Memory Umalloc UmallocProof.

#[local] Abbreviation blk := (Z * Z)%type.

Section umalloc.
(** The kernel gives a process less than 2 GiB: there are 128 MiB of memory. *)
Context (base : Z) (fuel : nat) (enough : Z -> bool).
Hypothesis enough_bound : forall sz, enough sz = true -> sz < 2^31.

#[local] Abbreviation malloc_loop := (malloc_loop fuel enough).
#[local] Abbreviation morecore := (morecore fuel enough).
#[local] Abbreviation free_ok := (free_ok base).

(** ** The search *)

(** Blocks that are too small, none of which is [freep], are passed over. *)
Lemma malloc_skip s F nu : free_ok s F -> forall k l1 q l2 f, (base, 0) :: F = l1 ++ q :: k ++ l2 ->
  (forall c, c ∈ k -> c.2 < nu /\ c.1 <> freep s) ->
  exists l1' q', (base, 0) :: F = l1' ++ q' :: l2 /\
    malloc_loop (length k + f) nu q.1 (hd_addr (k ++ l2) base) s = malloc_loop f nu q'.1 (hd_addr l2 base) s.
Proof.
  intros HF. induction k as [|p k IH]; intros l1 q l2 f E Hk; [by exists l1, q|].
  assert ((base, 0) :: F = (l1 ++ [q]) ++ p :: k ++ l2) as E' by (by rewrite <- app_assoc).
  destruct (fo_at base s F _ _ _ HF E') as [Hpn Hps]. destruct (Hk p (list_elem_of_here _ _)) as [Hp1 Hp2].
  destruct (IH (l1 ++ [q]) p l2 f) as (l1' & q' & E2 & Hrun); [done|intros c Hc; by apply Hk, list_elem_of_further|].
  exists l1', q'. split; [done|]. rewrite <- Hrun. cbn [length Nat.add app hd_addr Umalloc.malloc_loop].
  rewrite (bind_ok _ _ _ _ _ Hps), (proj2 (Z.leb_gt _ _)) by lia. unfold gets at 1, bind at 1.
  rewrite (proj2 (Z.eqb_neq _ _)) by done. by rewrite (bind_ok _ _ _ _ _ Hpn).
Qed.

(** The first block that is big enough. *)
Lemma first_fit nu (l : list blk) : (forall c, c ∈ l -> c.2 < nu) \/
  exists k p r, l = k ++ p :: r /\ (forall c, c ∈ k -> c.2 < nu) /\ nu <= p.2.
Proof.
  induction l as [|p l IH]; [left; by intros c ?%elem_of_nil|]. destruct (decide (nu <= p.2)) as [Hp|Hp].
  - right. exists [], p, l. splits; [done| |done]. by intros c ?%elem_of_nil.
  - destruct IH as [IH|(k & q & r & -> & Hk & Hq)]; [left|right; exists (p :: k), q, r; splits; [done| |done]];
      intros c [->|Hc]%elem_of_cons; [lia|by apply IH|lia|by apply Hk].
Qed.

(** Looking at a block that is big enough takes it. *)
Lemma malloc_hit s F l1 q p l2 f nu : free_ok s F -> (base, 0) :: F = l1 ++ q :: p :: l2 -> nu <= p.2 ->
  malloc_loop (S f) nu q.1 p.1 s = take_block nu q.1 p.1 p.2 s.
Proof.
  intros HF E Hp. assert ((base, 0) :: F = (l1 ++ [q]) ++ p :: l2) as E' by (by rewrite <- app_assoc).
  destruct (fo_at base s F _ _ _ HF E') as [_ Hps]. cbn [Umalloc.malloc_loop]. rewrite (bind_ok _ _ _ _ _ Hps).
  by rewrite (proj2 (Z.leb_le _ _)) by lia.
Qed.

(** The rest of [malloc_loop] when it is back at [freep]. *)
Definition refill (f : nat) (nu : Z) : M ust Z :=
  let! p := morecore nu in
  if p =? 0 then ret 0 else let! n := hptr p in malloc_loop f nu p n.

(** What one round of the search does. *)
Definition searched (s : ust) (F : list blk) (nu : Z) (f : nat) (o : outcome ust Z) : Prop :=
  (exists l1 q p l2, (base, 0) :: F = l1 ++ q :: p :: l2 /\ nu <= p.2 /\ o = take_block nu q.1 p.1 p.2 s) \/
  (forall c, c ∈ F -> c.2 < nu) /\ exists f', (f <= f' + S (length F))%nat /\ o = refill f' nu s.

Lemma malloc_miss s F l1 p l2 f nu q : free_ok s F -> (base, 0) :: F = l1 ++ p :: l2 -> p.2 < nu -> p.1 = freep s ->
  malloc_loop (S f) nu q p.1 s = refill f nu s.
Proof.
  intros HF E Hp Hf. destruct (fo_at base s F _ _ _ HF E) as [_ Hps]. cbn [Umalloc.malloc_loop]. rewrite (bind_ok _ _ _ _ _ Hps).
  rewrite (proj2 (Z.leb_gt _ _)) by lia. unfold gets at 1, bind at 1. by rewrite (proj2 (Z.eqb_eq _ _)) by done.
Qed.

(** A stretch [k] of the list without [freep], up to its end or to [freep]. *)
Lemma malloc_stretch s F nu l1 q k l2 f : free_ok s F -> (base, 0) :: F = l1 ++ q :: k ++ l2 ->
  (forall c, c ∈ k -> c.1 <> freep s) ->
  let o := malloc_loop (length k + S f) nu q.1 (hd_addr (k ++ l2) base) s in
  (exists l1' q' p l2', (base, 0) :: F = l1' ++ q' :: p :: l2' /\ nu <= p.2 /\ o = take_block nu q'.1 p.1 p.2 s) \/
  (forall c, c ∈ k -> c.2 < nu) /\ exists l1' q', (base, 0) :: F = l1' ++ q' :: l2 /\ o = malloc_loop (S f) nu q'.1 (hd_addr l2 base) s.
Proof.
  intros HF E Hk o. destruct (first_fit nu k) as [Hall|(k1 & p & k2 & -> & Hk1 & Hp)].
  - right. split; [done|]. destruct (malloc_skip s F nu HF k l1 q l2 (S f) E) as (l1' & q' & E' & Hrun); [|by exists l1', q'].
    intros c Hc. split; [by apply Hall|by apply Hk].
  - left. rewrite <- app_assoc in E. destruct (malloc_skip s F nu HF k1 l1 q ((p :: k2) ++ l2) (length (p :: k2) + S f) E) as (l1' & q' & E' & Hrun).
    { intros c Hc. split; [by apply Hk1|apply Hk, elem_of_app; by left]. }
    exists l1', q', p, (k2 ++ l2). splits; [done..|]. subst o. rewrite length_app, <- Nat.add_assoc, <- app_assoc, Hrun.
    by apply (malloc_hit s F l1' q' p (k2 ++ l2)).
Qed.

Lemma malloc_search s F nu f : free_ok s F -> 0 < nu -> (length F < f)%nat ->
  exists n, hptr (freep s) s = Ok n s /\ searched s F nu f (malloc_loop f nu (freep s) n s).
Proof.
  intros HF Hnu Hf. destruct (fo_freep _ _ _ HF) as [fn Hin]. apply list_elem_of_split in Hin as (l1 & l2 & E).
  destruct (fo_at base s F _ _ _ HF E) as [Hn _]. exists (hd_addr l2 base). split; [exact Hn|].
  pose proof (fo_sorted _ _ _ HF) as Hs. rewrite E in Hs. destruct (sorted_mid _ _ _ Hs) as (Hs1 & Hs2 & _).
  assert (forall c, c ∈ l1 -> c.1 <> freep s) as Hne1 by (intros c Hc; destruct (Hs1 c Hc); unfold HDR in *; cbn in *; lia).
  assert (forall c, c ∈ l2 -> c.1 <> freep s) as Hne2 by (intros c Hc; destruct (Hs2 c Hc); unfold HDR in *; cbn in *; lia).
  pose proof (f_equal length E) as Hlen. rewrite length_app in Hlen. cbn [length] in Hlen.
  assert (f = length l2 + S (f - length l2 - 1))%nat as Ef by lia. rewrite Ef at 2.
  assert ((base, 0) :: F = l1 ++ (freep s, fn) :: l2 ++ []) as E0 by (by rewrite app_nil_r).
  pose proof (malloc_stretch s F nu l1 (freep s, fn) l2 [] (f - length l2 - 1) HF E0 Hne2) as HA. cbn [fst] in HA. rewrite app_nil_r in HA.
  destruct HA as [HA|(Hl2 & l1' & q' & _ & ->)]; [by left|]. cbn [hd_addr].
  destruct l1 as [|b l1]; cbn [app] in E.
  { injection E as Eb _ ->. right. split; [done|]. exists (f - length l2 - 1)%nat. split; [cbn in *; lia|].
    by apply (malloc_miss s l2 [] (base, 0) l2). }
  injection E as <- EF. destruct (fo_at base s F [] (base, 0) F HF eq_refl) as [Hbn Hbs]. cbn [fst snd] in Hbn, Hbs.
  assert (base <> freep s) as Hbf by (apply (Hne1 (base, 0)), list_elem_of_here).
  assert (forall g q, malloc_loop (S g) nu q base s = malloc_loop g nu base (hd_addr F base) s) as Hbase.
  { intros g q. cbn [Umalloc.malloc_loop]. rewrite (bind_ok _ _ _ _ _ Hbs), (proj2 (Z.leb_gt _ _)) by lia.
    unfold gets at 1, bind at 1. rewrite (proj2 (Z.eqb_neq _ _)) by done. by rewrite (bind_ok _ _ _ _ _ Hbn). }
  rewrite Hbase. cbn [length] in Hlen. assert (f - length l2 - 1 = length l1 + S (f - length l2 - 2 - length l1))%nat as -> by lia.
  assert ((base, 0) :: F = [] ++ (base, 0) :: l1 ++ (freep s, fn) :: l2) as E1 by (cbn; by rewrite EF).
  pose proof (malloc_stretch s F nu [] (base, 0) l1 ((freep s, fn) :: l2) (f - length l2 - 2 - length l1) HF E1) as HB. cbn [fst] in HB.
  rewrite <- EF in HB. destruct HB as [HB|(Hl1 & l1b & qb & Eb & ->)]; [intros c Hc; by apply Hne1, list_elem_of_further|by left|].
  cbn [hd_addr fst]. destruct (decide (nu <= fn)) as [Hfit|Hfit].
  - left. exists l1b, qb, (freep s, fn), l2. splits; [done..|]. by apply (malloc_hit s F l1b qb (freep s, fn) l2).
  - right. split.
    + rewrite EF. intros c [Hc|[->|Hc]%elem_of_cons]%elem_of_app; [by apply Hl1|cbn; lia|by apply Hl2].
    + exists (f - length l2 - 2 - length l1)%nat. split; [lia|]. apply (malloc_miss s F (l1b ++ [qb]) (freep s, fn) l2); [done|by rewrite <- app_assoc|cbn; lia|done].
Qed.

(** ** Growing the heap *)

(** Changes above the blocks of the list do not matter to it. *)
Lemma free_ok_grow s F m' top : free_ok s F -> brk s <= top < 2^31 -> mem_wf m' ->
  (forall x, x < brk s -> load8 m' x = load8 (umem s) x) -> free_ok (Ust m' top (freep s)) F.
Proof.
  intros HF Htop Hm' Hx. pose proof (fo_brk _ _ _ HF) as [Hb1 Hb2]. split; cbn [umem brk freep]; try apply HF; try done.
  - split; lia.
  - generalize (fo_list _ _ _ HF). apply lseg_ext. intros b x Hb Hr. apply Hx. destruct (fo_hdr _ _ _ _ HF Hb). lia.
  - eapply Forall_impl; [apply (fo_pos _ _ _ HF)|]. cbn. intros b [G1 G2]. split; [done|lia].
Qed.

(** One block of the list contains a run of bytes that are all in the list. *)
Lemma run_in_block s F lo hi : free_ok s F -> lo < hi -> (forall x, lo <= x < hi -> in_blks F x) ->
  exists c, c ∈ F /\ c.1 <= lo /\ hi <= bend c.
Proof.
  intros HF Hlt Hx. destruct (Hx lo) as (c & Hc & Hc1); [lia|]. exists c. unfold in_blk in Hc1. splits; [done|lia|].
  destruct (decide (hi <= bend c)) as [|Hn]; [done|]. destruct (Hx (bend c)) as (d & Hd & Hd1); [lia|]. unfold in_blk in Hd1.
  pose proof (fo_sorted _ _ _ HF) as Hs. apply StronglySorted_cons in Hs as [_ Hs].
  apply list_elem_of_split in Hc as (l1 & l2 & ->). destruct (sorted_mid _ _ _ Hs) as (Hs1 & Hs2 & _).
  apply elem_of_app in Hd as [Hd|[->|Hd]%elem_of_cons]; [destruct (Hs1 d Hd)|lia|destruct (Hs2 d Hd)]; lia.
Qed.

(** [sbrk] with a positive argument fails or moves the break. *)
Lemma sbrk_run s n : 0 <= brk s < 2^31 -> mem_wf (umem s) -> 0 < n < 2^31 ->
  sbrk enough n s = Ok (wrap64 (-1)) s \/
  brk s + n < 2^31 /\ exists m', sbrk enough n s = Ok (brk s) (Ust m' (brk s + n) (freep s)) /\ mem_wf m' /\
    forall x, x < brk s -> load8 m' x = load8 (umem s) x.
Proof using enough_bound.
  intros Hb Hm Hn. unfold sbrk. rewrite (wrap32_small (brk s)), (wrap32_small (brk s + n)), s32_small, wrap64_small by lia.
  rewrite (proj2 (Z.ltb_lt 0 n)), (proj2 (Z.ltb_ge (brk s + n) (brk s))) by lia. destruct (enough (brk s + n)) eqn:He; [right|by left].
  split; [by apply enough_bound|]. eexists. splits; [done|by apply memset_wf|]. intros x Hx. rewrite load8_memset.
  pose proof (PGROUNDUP_ge (brk s) Hb). case_decide; [lia|done].
Qed.

(** The bytes that the heap gains, and what [malloc] leaves alone. *)
Definition fresh (s s' : ust) (x : Z) : Prop := brk s <= x < brk s'.
Definition kept (s : ust) (F : list blk) (s' : ust) : Prop := forall x,
  ~ in_blks F x -> ~ (base <= x < base + 16) -> x < brk s -> load8 (umem s') x = load8 (umem s) x.

Lemma wp_morecore s F nu : free_ok s F -> 0 < nu < 2^27 -> (length F < fuel)%nat ->
  wp (morecore nu) (fun r s' => r = 0 /\ s' = s \/
    r = freep s' /\ r <> 0 /\ exists F', free_ok s' F' /\ (exists c, c ∈ F' /\ nu <= c.2) /\ brk s <= brk s' /\
      (length F' <= S (length F))%nat /\ (forall x, in_blks F' x <-> in_blks F x \/ fresh s s' x) /\ kept s F s') s.
Proof using enough_bound.
  intros HF Hnu Hfuel. pose proof (fo_brk _ _ _ HF) as [Hb1 Hb2]. unfold Umalloc.morecore.
  set (n := if nu <? 4096 then 4096 else nu). assert (nu <= n < 2^27) as Hn by (unfold n; destruct (nu <? 4096) eqn:G; b2p; lia).
  rewrite s32_small by (unfold HDR; lia). apply wp_bind.
  destruct (sbrk_run s (n * HDR)) as [Hrun|(Hlim & m1 & Hrun & Hm1 & Hx1)]; [lia|apply HF|unfold HDR; lia|eapply wp_run; [exact Hrun|]..].
  { rewrite Z.eqb_refl. apply wp_ret. by left. }
  rewrite (proj2 (Z.eqb_neq _ _)) by (change (wrap64 (-1)) with (2^64 - 1); lia). unfold HDR in *.
  set (s1 := Ust m1 (brk s + n * 16) (freep s)). apply wp_bind. eapply wp_run; [apply (set_hsize_run s1); cbn; lia|].
  set (m2 := storen 4 (umem s1) (brk s + 8) n). rewrite hadd_small by lia. replace (brk s + 16 * 1) with (brk s + 16) by lia.
  assert (free_ok (Ust m2 (brk s + n * 16) (freep s)) F) as HF2.
  { apply free_ok_grow; [done|lia|by apply storen_wf|]. intros x Hx. unfold m2. rewrite load8_storen_ne by lia. by apply Hx1. }
  apply wp_bind. eapply wp_conseq; [apply (wp_free_block base fuel _ F (brk s, n)); [exact HF2| |done]|].
  { split; cbn [fst snd umem brk set_umem]; [lia|lia|unfold bend, HDR; cbn; lia| |].
    - unfold m2. rewrite loadn_storen, Z.mod_small; cbn; lia.
    - intros c Hc. left. pose proof (fo_pos _ _ _ HF) as G. rewrite Forall_forall in G. by apply G. }
  cbn [umem brk set_umem]. intros _ s' (F' & HF' & Hbrk & Hlen & Hin & Hfr). change (brk s1) with (brk s + n * 16) in Hbrk. apply wp_gets. right. destruct (fo_freep _ _ _ HF') as [k Hk].
  destruct (fo_hdr _ _ _ _ HF' Hk) as [Hfp _]. cbn [fst] in Hfp. splits; [done|lia|]. exists F'. splits; [done| |lia|done| |].
  - destruct (run_in_block s' F' (brk s) (brk s + 16 * n)) as (c & Hc & Hc1 & Hc2); [done|lia| |].
    { intros x Hx. apply Hin. right. unfold in_blk, bend, HDR; cbn. lia. }
    exists c. split; [done|]. unfold bend, HDR in Hc2. lia.
  - intros x. rewrite Hin. unfold fresh, in_blk, bend, HDR; cbn. rewrite Hbrk. replace (brk s + n * 16) with (brk s + 16 * n) by lia. done.
  - intros x Hx1' Hx2 Hx3. rewrite Hfr; [|done| |done].
    + unfold m2. rewrite load8_storen_ne by lia. by apply Hx1.
    + unfold in_blk, bend, HDR; cbn. lia.
Qed.

(** ** malloc *)

(** [malloc] of [nu] units, as seen from the free list [F]. *)
Definition malloced (s : ust) (F : list blk) (nu r : Z) (s' : ust) : Prop :=
  r = 0 /\ free_ok s' F /\ brk s' = brk s /\ (forall c, c ∈ F -> c.2 < nu) /\ kept s F s' \/
  exists a F', r = a + 16 /\ free_ok s' F' /\ loose base s' F' (a, nu) /\ brk s <= brk s' /\
    ((exists c, c ∈ F /\ nu <= c.2) -> brk s' = brk s) /\
    (forall x, in_blks F x \/ fresh s s' x <-> in_blks F' x \/ in_blk (a, nu) x) /\ kept s F s'.

Lemma wp_malloc_loop s F nu f : free_ok s F -> 0 < nu < 2^27 -> (length F < fuel)%nat -> (2 * length F + 2 < f)%nat ->
  exists n, hptr (freep s) s = Ok n s /\ wp (malloc_loop f nu (freep s) n) (malloced s F nu) s.
Proof using enough_bound.
  intros HF Hnu Hfuel Hf. destruct (malloc_search s F nu f HF) as (n & Hn & Hs); [lia..|]. exists n. split; [exact Hn|].
  destruct Hs as [(l1 & q & p & l2 & E & Hp & Ho)|(Hall & f' & Hf' & Ho)]; eapply wp_eq; [exact Ho| |exact Ho|]; clear Ho n Hn.
  - eapply wp_conseq; [eapply wp_take_block; [exact HF|exact E|lia]|]. intros r s' (a & F' & -> & HF' & HL & Hbrk & Hin & Hfr).
    right. exists a, F'. splits; [done..|lia|done| |].
    + intros x. rewrite <- Hin. unfold fresh. rewrite Hbrk. split; [intros [?|?]; [done|lia]|by left].
    + intros x Hx1 Hx2 _. apply Hfr; [done| |done]. unfold in_blk, bend, HDR; cbn. lia.
  - unfold refill. apply wp_bind. eapply wp_conseq; [apply (wp_morecore s F nu); [done..|lia]|].
    intros r s1 [[-> ->]|(Hr & Hr0 & F1 & HF1 & (c & Hc & Hcn) & Hbrk1 & Hlen & Hin1 & Hk1)]; [apply wp_ret; left; splits; done|].
    rewrite (proj2 (Z.eqb_neq _ _)) by done. subst r. destruct (malloc_search s1 F1 nu f' HF1) as (n & Hn & Hs); [lia..|].
    apply wp_bind. eapply wp_run; [exact Hn|]. destruct Hs as [(l1 & q & p & l2 & E & Hp & Ho)|(Hall1 & _)]; [|specialize (Hall1 c Hc); lia].
    eapply wp_eq; [exact Ho|]. eapply wp_conseq; [eapply wp_take_block; [exact HF1|exact E|lia]|].
    intros r s' (a & F' & -> & HF' & HL & Hbrk & Hin & Hfr). right. exists a, F'. splits; [done..|lia| | |].
    + intros (d & Hd & Hdn). specialize (Hall d Hd). lia.
    + intros x. rewrite <- Hin, Hin1. unfold fresh. by rewrite Hbrk.
    + intros x Hx1 Hx2 Hx3. rewrite <- (Hk1 x) by done. apply Hfr; [| |done].
      * rewrite Hin1. unfold fresh. intros [?|?]; [done|lia].
      * unfold in_blk, bend, HDR; cbn. lia.
Qed.

(** The heap: uninitialised, or with a free list; blocks in use by address. *)
Record heap_ok (s : ust) (F : list blk) (A : gmap Z Z) : Prop := HeapOk {
  h_free : free_ok s F \/ freep s = 0 /\ F = [] /\ A = ∅ /\ mem_wf (umem s) /\ 0 < base /\ base + 16 <= brk s < 2^31;
  h_used : forall a n, A !! a = Some n -> loose base s F (a, n);
  h_apart : forall a b n k, A !! a = Some n -> A !! b = Some k -> a <> b -> bend (a, n) <= b \/ bend (b, k) <= a }.

(** The bytes of the blocks in use. *)
Definition in_used (A : gmap Z Z) (x : Z) : Prop := exists a n, A !! a = Some n /\ in_blk (a, n) x.

Lemma free_ok_freep s F : free_ok s F -> freep s <> 0.
Proof. intros HF. destruct (fo_freep _ _ _ HF) as [k Hk]. destruct (fo_hdr _ _ _ _ HF Hk) as [G _]. pose proof (fo_brk _ _ _ HF). cbn in G. lia. Qed.

Lemma wp_malloc s F A nbytes : heap_ok s F A -> 0 < nunits_of nbytes < 2^27 -> (2 * length F + 2 < fuel)%nat ->
  wp (malloc base fuel enough nbytes) (malloced s F (nunits_of nbytes)) s.
Proof using enough_bound.
  intros [[HF|(Hf0 & -> & _ & Hm & Hb1 & Hb2)] _ _] Hnu Hfuel; unfold malloc; apply wp_bind, wp_gets; apply wp_bind.
  - rewrite (proj2 (Z.eqb_neq _ _)) by (by eapply free_ok_freep). apply wp_ret, wp_bind, wp_gets.
    destruct (wp_malloc_loop s F _ fuel HF Hnu) as (n & Hn & Hw); [lia..|]. apply wp_bind. by eapply wp_run.
  - rewrite Hf0, Z.eqb_refl. apply wp_bind, wp_modify, wp_bind. eapply wp_run; [apply (set_hptr_run (set_freep base s)); cbn; lia|].
    eapply wp_run; [apply set_hsize_run; cbn; lia|]. cbn [set_umem set_freep umem brk freep].
    set (m := storen 4 (storen 8 (umem s) base base) (base + 8) 0). assert (free_ok (Ust m (brk s) base) []) as HF.
    { split; cbn [umem brk freep]; [by apply storen_wf, storen_wf|lia| |exists 0; apply list_elem_of_here|apply StronglySorted_cons; split; constructor|constructor].
      cbn [lseg fst snd hd_addr]. unfold m. rewrite loadn_storen_ne, !loadn_storen by lia. by rewrite !Z.mod_small by (cbn; lia). }
    apply wp_bind, wp_gets, wp_bind. destruct (wp_malloc_loop _ [] _ fuel HF Hnu) as (n & Hn & Hw); [cbn in *; lia..|].
    eapply wp_run; [exact Hn|]. eapply wp_conseq; [exact Hw|].
    assert (forall s', kept (Ust m (brk s) base) [] s' -> kept s [] s') as Hkept.
    { intros s' Hk x Hx1 Hx2 Hx3. rewrite Hk by done. cbn [umem]. unfold m. rewrite !load8_storen_ne by lia. done. }
    intros r s' [(-> & HF' & Hbrk & Hall & Hk)|(a & F' & -> & HF' & HL & Hbrk & Hfit & Hin & Hk)]; [left|right; exists a, F']; splits; auto.
Qed.

(** What [malloc] and [free] leave alone is the blocks in use, and everything
    outside of the heap. *)
Lemma used_not_free s F A x : heap_ok s F A -> in_used A x -> ~ in_blks F x /\ ~ (base <= x < base + 16) /\ x < brk s.
Proof.
  intros [_ Hu _] (a & n & Ha & Hx). destruct (Hu a n Ha) as [H1 H2 H3 _ H5]. unfold in_blk in Hx. cbn [fst snd] in *. splits; [|lia..].
  intros (c & Hc & Hcx). unfold in_blk in Hcx. destruct (H5 c Hc); lia.
Qed.

Lemma loose_ext s F s' F' b : loose base s F b -> brk s <= brk s' ->
  (forall x, b.1 <= x < b.1 + 16 -> load8 (umem s') x = load8 (umem s) x) ->
  (forall c, c ∈ F' -> bend c <= b.1 \/ bend b <= c.1) -> loose base s' F' b.
Proof.
  intros [H1 H2 H3 H4 _] Hb Hx Hap. split; [done|done|lia| |done]. rewrite <- H4. apply loadn_ext. intros x Hr. apply Hx. lia.
Qed.

(** Two blocks with no byte in common. *)
Lemma blk_apart (b c : blk) : 0 < b.2 -> 0 < c.2 -> (forall x, in_blk b x -> in_blk c x -> False) -> bend b <= c.1 \/ bend c <= b.1.
Proof.
  intros Hb Hc Hx. unfold in_blk, bend, HDR in *. destruct (decide (b.1 + 16 * b.2 <= c.1)) as [|H1]; [by left|].
  destruct (decide (c.1 + 16 * c.2 <= b.1)) as [|H2]; [by right|]. destruct (Hx (Z.max b.1 c.1)); lia.
Qed.

Lemma nunits_spec nbytes : 0 <= nbytes <= 2^31 - 32 ->
  0 < nunits_of nbytes < 2^27 /\ nbytes <= 16 * (nunits_of nbytes - 1).
Proof. intros H. unfold nunits_of, HDR. rewrite wrap32_small; dlia. Qed.

(** The blocks in use stay apart from a new free list whose bytes were free
    or are new, or belong to the block [b]. *)
Lemma used_apart s F A s' F' a n : heap_ok s F A -> A !! a = Some n -> free_ok s' F' ->
  (forall x, in_blks F' x -> in_blks F x \/ fresh s s' x \/ exists a' n', a' <> a /\ A !! a' = Some n' /\ in_blk (a', n') x) ->
  forall c, c ∈ F' -> bend c <= a \/ bend (a, n) <= c.1.
Proof.
  intros HH Ha HF' Hsub c Hc. pose proof (h_used _ _ _ HH a n Ha) as [Hn _ _ _ _]. pose proof (fo_pos _ _ _ HF') as G. rewrite Forall_forall in G.
  destruct (blk_apart c (a, n)) as [?|?]; [by apply G|done| |by left|by right]. intros x Hx1 Hx2.
  destruct (used_not_free s F A x HH) as (N1 & _ & N3); [by exists a, n|].
  destruct (Hsub x) as [?|[?|(a' & n' & Hne & Ha' & Hx')]]; [by exists c|done|unfold fresh in *; lia|].
  destruct (h_apart _ _ _ HH a a' n n' Ha Ha'); [done|unfold in_blk in *; cbn [fst snd] in *; lia..].
Qed.


(** C21. [free] of a block in use returns and puts the block back on the free
    list, where it is joined with its neighbours; the contents of the other
    blocks in use and everything outside of the heap are unchanged. *)
Theorem free_correct s F A a n : heap_ok s F A -> A !! a = Some n -> (length F < fuel)%nat ->
  wp (free fuel (a + 16)) (fun _ s' => exists F', heap_ok s' F' (delete a A) /\ brk s' = brk s /\
    (forall x, in_blks F' x <-> in_blks F x \/ in_blk (a, n) x) /\
    forall x, ~ in_blks F x -> ~ in_blk (a, n) x -> ~ (base <= x < base + 16) -> load8 (umem s') x = load8 (umem s) x) s.
Proof.
  intros HH Ha Hfuel. destruct (h_free _ _ _ HH) as [HF|(_ & _ & -> & _)]; [|done].
  eapply wp_conseq; [apply (wp_free_block base fuel s F (a, n)); [done|by apply HH|done]|].
  intros _ s' (F' & HF' & Hbrk & _ & Hin & Hfr). exists F'. splits; [|done..]. split; [by left|intros b k Hb|].
  - apply lookup_delete_Some in Hb as [Hne Hb]. pose proof (h_used _ _ _ HH b k Hb) as Hlo. eapply loose_ext; [exact Hlo|lia| |].
    + intros x Hx. assert (in_blk (b, k) x) as Hx' by (apply hdr_in_blk; [apply Hlo|done]).
      destruct (used_not_free s F A x HH) as (? & ? & ?); [by exists b, k|]. apply Hfr; [done| |done].
      intros Hxa. destruct (h_apart _ _ _ HH a b n k Ha Hb Hne); unfold in_blk in *; cbn [fst snd] in *; lia.
    + apply (used_apart s F A s' F' b k); [done..|]. intros x Hx. destruct (proj1 (Hin x) Hx); [by left|right; right]. by exists a, n.
  - intros b1 b2 n1 n2 [_ H1]%lookup_delete_Some [_ H2]%lookup_delete_Some. by apply (h_apart _ _ _ HH b1 b2 n1 n2).
Qed.

(** C38. A request of 2 GiB or more overflows the [int] that [morecore] passes to
    [sbrk]: the kernel is asked for a negative amount, does not grow the process
    and reports success, and [morecore] writes the header of the new block to a
    page that does not exist, which kills the process.  [malloc] does not
    return null. *)
Theorem malloc_huge_faults s F nbytes : free_ok s F -> brk s mod 4096 = 0 -> 2^31 - 31 <= nbytes <= 2^32 - 32 ->
  (length F < fuel)%nat -> panics (malloc base fuel enough nbytes) "page fault" s.
Proof.
  intros HF Hal Hnb Hfuel. pose proof (fo_brk _ _ _ HF) as [Hb1 Hb2]. assert (2^27 <= nunits_of nbytes < 2^28) as Hnu.
  { unfold nunits_of, HDR. rewrite wrap32_small; dlia. }
  unfold malloc. apply panics_bind, wp_gets. rewrite (proj2 (Z.eqb_neq _ _)) by (by eapply free_ok_freep).
  apply panics_bind, wp_ret, panics_bind, wp_gets. destruct (malloc_search s F (nunits_of nbytes) fuel HF) as (n & Hn & Hs); [lia..|].
  apply panics_bind. eapply wp_run; [exact Hn|]. destruct Hs as [(l1 & q & p & l2 & E & Hp & _)|(_ & f' & _ & Ho)].
  - pose proof (second_block _ _ _ _ _ _ _ HF E) as HpF. pose proof (fo_pos _ _ _ HF) as G. rewrite Forall_forall in G.
    destruct (G p HpF) as [_ G2]. destruct (fo_hdr _ _ _ p HF) as [G3 _]; [by apply list_elem_of_further|]. unfold bend, HDR in G2. lia.
  - unfold panics. rewrite Ho. clear Ho. unfold refill, Umalloc.morecore. rewrite (proj2 (Z.ltb_ge (nunits_of nbytes) 4096)) by lia.
    assert (s32 (nunits_of nbytes * HDR) = nunits_of nbytes * 16 - 2^32) as -> by (unfold s32, signed, HDR; dlia).
    unfold bind at 1 2, sbrk. rewrite (proj2 (Z.ltb_ge 0 _)), (proj2 (Z.ltb_lt _ 0)) by lia.
    rewrite (wrap32_small (brk s)), s32_small, wrap64_small by lia.
    rewrite (proj2 (Z.eqb_neq _ _)) by (change (wrap64 (-1)) with (2^64 - 1); lia). unfold bind at 1, set_hsize, st, bind at 1, get. cbn [brk].
    unfold mapped. cbn [brk]. rewrite (proj2 (Z.leb_gt (brk s + 8 + Z.of_nat 4) _)), andb_false_r; [done|].
    assert (0 <= Z.min (brk s) (wrap32 (brk s + (nunits_of nbytes * 16 - 2^32))) <= brk s) as Hmin by (pose proof (wrap32_range (brk s + (nunits_of nbytes * 16 - 2^32))); lia).
    rewrite PGROUNDUP_spec by (unfold PGSIZE; lia). unfold PGSIZE. revert Hmin Hal. generalize (Z.min (brk s) (wrap32 (brk s + (nunits_of nbytes * 16 - 2^32)))). intros z Hz Hal. dlia.
Qed.
End umalloc.

(** ** A concrete heap *)

Definition ex_enough (sz : Z) : bool := sz <=? 2^27.
Lemma ex_enough_bound sz : ex_enough sz = true -> sz < 2^31.
Proof. unfold ex_enough. intros ?%Z.leb_le. lia. Qed.

(** A process that has not called [malloc] yet. *)
Definition ex_new : ust := Ust ∅ 16384 0.
Lemma ex_new_ok : heap_ok 4096 ex_new [] ∅.
Proof.
  split; [right; splits; [done|done|done| |lia|cbn; lia|cbn; lia]|by intros a n ?%lookup_empty_Some|by intros a b n k ?%lookup_empty_Some].
  intros a. unfold load8. cbn. rewrite lookup_empty. cbn. lia.
Qed.

(** A process with one block of four units in use, and a free one above it. *)
Definition ex_mem : gmap Z Z :=
  let m := storen 8 ∅ 4096 8320 in let m := storen 4 m 4104 0 in let m := storen 4 m 8200 4 in
  let m := storen 8 m 8320 4096 in storen 4 m 8328 32.
Definition ex_heap : ust := Ust ex_mem 16384 4096.
Lemma ex_heap_free : free_ok 4096 ex_heap [(8320, 32)].
Proof.
  split; cbn [ex_heap umem brk freep].
  - unfold ex_mem. repeat apply storen_wf. intros a. unfold load8. rewrite lookup_empty. cbn. lia.
  - lia.
  - repeat split.
  - exists 0. apply list_elem_of_here.
  - repeat (apply StronglySorted_cons; split; [repeat constructor; vm_compute; done|]). constructor.
  - repeat constructor. vm_compute. done.
Qed.
Lemma ex_heap_ok : heap_ok 4096 ex_heap [(8320, 32)] {[8192 := 4]}.
Proof.
  split; [left; apply ex_heap_free| |].
  - intros a n [<- <-]%lookup_singleton_Some. split; [vm_compute; done..|]. intros c ->%list_elem_of_singleton. right. vm_compute. done.
  - intros a b n k [<- <-]%lookup_singleton_Some [<- <-]%lookup_singleton_Some. done.
Qed.


Lemma free_correct_witness : heap_ok 4096 ex_heap [(8320, 32)] {[8192 := 4]} /\
  exists s', free 10 8208 ex_heap = Ok tt s' /\ exists F', heap_ok 4096 s' F' ∅ /\ in_blks F' 8192.
Proof.
  split; [exact ex_heap_ok|].
  destruct (proj1 (wp_iff _ _ _) (free_correct 4096 10 ex_heap [(8320, 32)] {[8192 := 4]} 8192 4 ex_heap_ok (lookup_singleton_eq _ _) ltac:(cbn; lia))) as ([] & s' & Hrun & F' & HH & _ & Hin & _).
  exists s'. split; [exact Hrun|]. exists F'. rewrite delete_singleton_eq in HH. split; [exact HH|]. apply Hin. right. vm_compute. done.
Defined.

Lemma malloc_huge_faults_witness : free_ok 4096 ex_heap [(8320, 32)] /\ malloc 4096 10 ex_enough (2^31) ex_heap = Panic "page fault".
Proof.
  split; [exact ex_heap_free|].
  exact (malloc_huge_faults 4096 10 ex_enough ex_heap [(8320, 32)] (2^31) ex_heap_free ltac:(vm_compute; done) ltac:(lia) ltac:(cbn; lia)).
Defined.
