(* ===== verification/Ulib.v ===== *)
(** * The user library: strings and memory (user/ulib.c)

    The routines of ulib.c on the memory of the process.  A loop that runs to
    the end of a string has fuel; it returns [None] when the fuel is not enough.
    The routines that are the same as in the kernel are the same definitions. *)

From S2P Require Import Prelude Memory.

(** ** Strings *)

Fixpoint strcpy (fuel : nat) (m : gmap Z Z) (s t : Z) : option (gmap Z Z) :=
  match fuel with
  | O => None
  | S fuel' =>
      let c := load8 m t in
      let m := store8 m s c in
      if truth c then strcpy fuel' m (s + 1) (t + 1) else Some m
  end.

Fixpoint strcmp (fuel : nat) (m : gmap Z Z) (p q : Z) : option Z :=
  match fuel with
  | O => None
  | S fuel' =>
      if truth (load8 m p) && (load8 m p =? load8 m q) then strcmp fuel' m (p + 1) (q + 1)
      else Some (load8 m p - load8 m q)
  end.

Definition strlen : nat -> gmap Z Z -> Z -> option Z := Memory.strlen.

Fixpoint strchr (fuel : nat) (m : gmap Z Z) (s c : Z) : option Z :=
  match fuel with
  | O => None
  | S fuel' =>
      if truth (load8 m s) then
        if load8 m s =? wrap8 c then Some s else strchr fuel' m (s + 1) c
      else Some 0
  end.

(** The loop of [atoi]; [n] is an [int]. *)
Fixpoint atoi_loop (fuel : nat) (m : gmap Z Z) (s n : Z) : option Z :=
  match fuel with
  | O => None
  | S fuel' =>
      if (48 <=? load8 m s) && (load8 m s <=? 57) then atoi_loop fuel' m (s + 1) (s32 (n * 10 + load8 m s - 48))
      else Some n
  end.
Definition atoi (fuel : nat) (m : gmap Z Z) (s : Z) : option Z := atoi_loop fuel m s 0.

(** ** Memory *)

Definition memset : gmap Z Z -> Z -> Z -> Z -> gmap Z Z := Memory.memset.
Definition memcmp : gmap Z Z -> Z -> Z -> Z -> Z := Memory.memcmp.

(** The direction depends on the order of the two regions alone. *)
Definition memmove (m : gmap Z Z) (vdst vsrc n : Z) : gmap Z Z :=
  if vdst <? vsrc then memmove_fwd (Z.to_nat n) vdst vsrc m
  else memmove_bwd (Z.to_nat n) (vdst + n) (vsrc + n) m.
Definition memcpy (m : gmap Z Z) (dst src n : Z) : gmap Z Z := memmove m dst src n.

(** ** Specifications *)

(** Copying a region onto itself changes no byte. *)
Lemma memmove_bwd_self k : forall d m a, mem_wf m -> load8 (memmove_bwd k d d m) a = load8 m a.
Proof.
  induction k as [|k IH]; intros d m a Hm; [done|]. cbn [memmove_bwd]. rewrite IH by (by apply store8_wf).
  rewrite load8_store8. case_decide; [|done]. subst. apply wrap8_small, Hm.
Qed.

(** The [memmove] of the user library, which compares only the addresses,
    agrees with that of the kernel, which tests whether the regions overlap:
    both copy the old contents of the source. *)
Theorem memmove_agree m dst src n a : mem_wf m -> 0 <= n ->
  load8 (memmove m dst src n) a = load8 (Memory.memmove m dst src n) a.
Proof.
  intros Hm Hn. rewrite load8_memmove by done. unfold memmove. destruct (dst <? src) eqn:H; b2p.
  - rewrite memmove_fwd_spec by (done || lia). repeat case_decide; try lia; f_equal; lia.
  - destruct (decide (src = dst)) as [->|].
    + rewrite memmove_bwd_self by done. case_decide; [f_equal; lia|done].
    + rewrite memmove_bwd_spec by (done || lia). repeat case_decide; try lia; try done; f_equal; lia.
Qed.

Lemma memmove_agree_witness : mem_wf ∅ /\ load8 (memmove ∅ 5 3 4) 6 = load8 (Memory.memmove ∅ 5 3 4) 6.
Proof.
  assert (mem_wf ∅) as Hm by (intros a; unfold load8; rewrite lookup_empty; cbn; lia).
  split; [exact Hm|]. apply (memmove_agree ∅ 5 3 4 6 Hm). lia.
Defined.

(** The order of two C strings. *)
Fixpoint lex (k l : list Z) : Z :=
  match k, l with
  | [], [] => 0
  | [], d :: _ => - d
  | c :: _, [] => c
  | c :: k', d :: l' => if c =? d then lex k' l' else c - d
  end.

Lemma strcmp_spec k : forall l fuel m p q, is_cstr m p k -> is_cstr m q l -> (length k < fuel)%nat ->
  strcmp fuel m p q = Some (lex k l).
Proof.
  induction k as [|c k IH]; intros l [|fuel] m p q Hp Hq Hf; cbn in Hf; try lia; cbn [strcmp].
  - apply is_cstr_nil in Hp. rewrite Hp. cbn [truth negb Z.eqb andb]. destruct l as [|d l].
    + apply is_cstr_nil in Hq. by rewrite Hq.
    + apply is_cstr_cons in Hq as (-> & _). done.
  - apply is_cstr_cons in Hp as (-> & Hc & Hp). rewrite (proj2 (truth_true c) Hc). cbn [andb]. destruct l as [|d l]; cbn [lex].
    + apply is_cstr_nil in Hq. rewrite Hq, (proj2 (Z.eqb_neq c 0)) by done. f_equal. lia.
    + apply is_cstr_cons in Hq as (-> & Hd & Hq). destruct (c =? d); [|done]. apply IH; [done..|lia].
Qed.

Lemma strcpy_frame fuel : forall m s t m' a, strcpy fuel m s t = Some m' -> a < s -> load8 m' a = load8 m a.
Proof.
  induction fuel as [|fuel IH]; intros m s t m' a Hrun Ha; [done|]. cbn [strcpy] in Hrun. destruct (truth _).
  - rewrite (IH _ _ _ _ _ Hrun) by lia. apply load8_store8_ne. lia.
  - injection Hrun as <-. apply load8_store8_ne. lia.
Qed.

(** [strcpy] copies the string and its null character, and nothing else. *)
Lemma strcpy_spec l : forall fuel m s t, mem_wf m -> is_cstr m t l -> (length l < fuel)%nat ->
  s + Z.of_nat (length l) < t \/ t + Z.of_nat (length l) < s ->
  exists m', strcpy fuel m s t = Some m' /\ is_cstr m' s l /\
    forall a, ~ (s <= a <= s + Z.of_nat (length l)) -> load8 m' a = load8 m a.
Proof.
  induction l as [|c l IH]; intros [|fuel] m s t Hm Ht Hf Hd; cbn in Hf; try lia; cbn [strcpy length] in *.
  - apply is_cstr_nil in Ht. rewrite Ht. cbn [truth negb Z.eqb]. eexists. split; [done|]. split.
    + apply is_cstr_nil. by rewrite load8_store8_eq.
    + intros a Ha. apply load8_store8_ne. lia.
  - apply is_cstr_cons in Ht as (Hc & Hn & Ht). rewrite Hc, (proj2 (truth_true c) Hn).
    destruct (IH fuel (store8 m s c) (s + 1) (t + 1)) as (m' & Hrun & Hs & Hfr); [by apply store8_wf| |lia|lia|].
    + eapply is_cstr_ext; [|exact Ht]. intros i Hi. apply load8_store8_ne. lia.
    + exists m'. split; [exact Hrun|]. split.
      * apply is_cstr_cons. split; [|done]. rewrite (strcpy_frame _ _ _ _ _ _ Hrun) by lia.
        rewrite load8_store8_eq. apply wrap8_small. rewrite <- Hc. apply Hm.
      * intros a Ha. rewrite Hfr by lia. apply load8_store8_ne. lia.
Qed.

(** ** Numbers *)

(** The value of a string of digits. *)
Definition decimal (n : Z) (l : list Z) : Z := foldl (fun n c => n * 10 + (c - 48)) n l.
Definition is_digit (c : Z) : Prop := 48 <= c <= 57.

Lemma decimal_ge l : forall n, 0 <= n -> Forall is_digit l -> n <= decimal n l.
Proof.
  induction l as [|c l IH]; intros n Hn Hl; [done|]. apply Forall_cons in Hl as [Hc Hl]. unfold is_digit in Hc.
  cbn. etrans; [|apply IH; [lia|done]]. lia.
Qed.

(** [atoi] reads a number that fits an [int]. *)
Lemma atoi_spec l : forall fuel m s n, is_cstr m s l -> (length l < fuel)%nat -> Forall is_digit l -> 0 <= n ->
  decimal n l < 2^31 -> atoi_loop fuel m s n = Some (decimal n l).
Proof.
  induction l as [|c l IH]; intros [|fuel] m s n Hs Hf Hl Hn Hlt; cbn in Hf; try lia; cbn [atoi_loop].
  - apply is_cstr_nil in Hs. by rewrite Hs.
  - apply is_cstr_cons in Hs as (-> & _ & Hs). apply Forall_cons in Hl as [Hc Hl]. unfold is_digit in Hc.
    rewrite !(proj2 (Z.leb_le _ _)) by lia. cbn [andb]. cbn in Hlt.
    pose proof (decimal_ge l (n * 10 + (c - 48)) ltac:(lia) Hl) as Hge. unfold decimal in Hge.
    rewrite s32_small by lia. replace (n * 10 + c - 48) with (n * 10 + (c - 48)) by lia. rewrite IH; [done|done|lia|done|lia|done].
Qed.
