(* ===== verification/Usys.v ===== *)
(** * User programs and their system calls (user/user.h, usys.pl)

    A user program is an interaction tree: it makes system calls, whose
    answers it branches on, and it may run forever.  [run] gives the calls on
    files a meaning in an environment; what the remaining calls do is a
    parameter. *)

From ITree Require Import ITree ITreeFacts Events.State Events.StateFacts.
From S2P Require Import Prelude.

(** ** System calls *)

(** [struct stat]. *)
Record ustat := UStat { ust_type : Z; ust_ino : Z; ust_size : Z }.

(** An argument: a register, a string, or an array of pointers that are
    arbitrary or point to strings. *)
Inductive uptr := Num (x : Z) | Str (s : list Z) | Ptrs (l : list Z) | Strs (l : list (list Z)).

(** [read] answers with its result and the bytes that it put at the start of the
    buffer, [fstat] with its result and the structure, [pipe] with its
    result and the two descriptors.  [Swait] is [wait(0)]; [Swaitst] is
    [wait(&status)], and answers with the status if it was written.  [Sraw] is
    a call with its number and arguments that need not be proper pointers.
    Programs that test the memory of a process also access it at addresses of
    their own ([Sload], [Sstore], of [w] bytes: a fault does not return) and
    call the allocator of Umalloc.v ([Smalloc], [Sfree]). *)
Inductive sysE : Type -> Type :=
| Sopen (path : list Z) (mode : Z) : sysE Z
| Sread (fd n : Z) : sysE (Z * list Z)
| Swrite (fd : Z) (bs : list Z) : sysE Z
| Sclose (fd : Z) : sysE Z
| Sfstat (fd : Z) : sysE (Z * ustat)
| Sdup (fd : Z) : sysE Z
| Spipe : sysE (Z * (Z * Z))
| Smknod (path : list Z) (major minor : Z) : sysE Z
| Slink (old new : list Z) : sysE Z
| Sunlink (path : list Z) : sysE Z
| Smkdir (path : list Z) : sysE Z
| Schdir (path : list Z) : sysE Z
| Sfork : sysE Z
| Swait : sysE Z
| Sexec (path : list Z) (argv : list (list Z)) : sysE Z
| Skill (pid : Z) : sysE Z
| Ssleep (ticks : Z) : sysE Z
| Swaitst : sysE (Z * option Z)
| Sgetpid : sysE Z
| Ssbrk (n : Z) : sysE Z
| Sraw (num : Z) (args : list uptr) : sysE Z
| Sload (w a : Z) : sysE Z
| Sstore (w a x : Z) : sysE unit
| Smalloc (n : Z) : sysE Z
| Sfree (a : Z) : sysE unit
| Sexit (status : Z) : sysE void.

Definition uprog (A : Type) : Type := itree sysE A.

Declare Scope uprog_scope.
Delimit Scope uprog_scope with uprog.
Notation "'do' x ':=' c 'in' k" := (ITree.bind c (fun x => k))
  (at level 10, x pattern, c at level 100, k at level 200) : uprog_scope.
Notation "c ,, k" := (ITree.bind c (fun _ => k))
  (at level 100, k at level 200, right associativity) : uprog_scope.

Section calls.
Local Open Scope uprog_scope.
Definition open_ (path : list Z) (mode : Z) : uprog Z := ITree.trigger (Sopen path mode).
Definition read_ (fd n : Z) : uprog (Z * list Z) := ITree.trigger (Sread fd n).
Definition write_ (fd : Z) (bs : list Z) : uprog Z := ITree.trigger (Swrite fd bs).
Definition close_ (fd : Z) : uprog Z := ITree.trigger (Sclose fd).
Definition fstat_ (fd : Z) : uprog (Z * ustat) := ITree.trigger (Sfstat fd).
Definition dup_ (fd : Z) : uprog Z := ITree.trigger (Sdup fd).
Definition pipe_ : uprog (Z * (Z * Z)) := ITree.trigger Spipe.
Definition link_ (old new : list Z) : uprog Z := ITree.trigger (Slink old new).
Definition unlink_ (path : list Z) : uprog Z := ITree.trigger (Sunlink path).
Definition mkdir_ (path : list Z) : uprog Z := ITree.trigger (Smkdir path).
Definition chdir_ (path : list Z) : uprog Z := ITree.trigger (Schdir path).
Definition fork_ : uprog Z := ITree.trigger Sfork.
Definition wait0_ : uprog Z := ITree.trigger Swait.
Definition exec_ (path : list Z) (argv : list (list Z)) : uprog Z := ITree.trigger (Sexec path argv).
Definition kill_ (pid : Z) : uprog Z := ITree.trigger (Skill pid).
Definition sleep_ (ticks : Z) : uprog Z := ITree.trigger (Ssleep ticks).
Definition getpid_ : uprog Z := ITree.trigger Sgetpid.
Definition sbrk_ (n : Z) : uprog Z := ITree.trigger (Ssbrk n).
Definition raw_ (num : Z) (args : list uptr) : uprog Z := ITree.trigger (Sraw num args).
Definition load_ (w a : Z) : uprog Z := ITree.trigger (Sload w a).
Definition store_ (w a x : Z) : uprog unit := ITree.trigger (Sstore w a x).
Definition malloc_ (n : Z) : uprog Z := ITree.trigger (Smalloc n).
Definition free_ (a : Z) : uprog unit := ITree.trigger (Sfree a).
(** [wait(&st)], where [st] was [old]: the result, and what [st] is then. *)
Definition wait_ (old : Z) : uprog (Z * Z) :=
  do (pid, st) := ITree.trigger Swaitst in Ret (pid, default old st).
(** [exit] does not return. *)
Definition exit_ {A} (status : Z) : uprog A :=
  do x := ITree.trigger (Sexit status) in match x : void with end.
End calls.

(** ** An environment *)

(** The contents of the files by name, what each open descriptor still has to
    deliver, the writes in order, and how much the next calls of [read]
    deliver: pipes and the console deliver less than is asked for. *)
Record env := Env {
  files : gmap (list Z) (list Z);
  fds : gmap Z (list Z);
  outs : list (Z * list Z);
  sizes : list nat }.
Definition set_fds f (s : env) := Env (files s) f (outs s) (sizes s).
Definition set_outs o (s : env) := Env (files s) (fds s) o (sizes s).

(** What has been written to a descriptor. *)
Definition written (fd : Z) (s : env) : list Z := (filter (fun w => w.1 = fd) (outs s)) ≫= snd.

(** The lowest descriptor that is not in use. *)
Definition lowest (s : env) : Z :=
  default 16 (head (filter (fun fd => bool_decide (fds s !! fd = None)) (seqZ 0 16))).

(** The program stops, with a status and in an environment. *)
Variant stopE : Type -> Type := Stop (status : Z) (s : env) : stopE void.
Definition stop {A} (status : Z) (s : env) : itree stopE A :=
  ITree.bind (ITree.trigger (Stop status s)) (fun x => match x : void with end).

Definition read_size (s : env) (n : Z) (l : list Z) : nat :=
  Nat.min (Nat.min (Z.to_nat n) (length l)) (match sizes s with k :: _ => S k | [] => Z.to_nat n end).

(** [other] is what the calls that are not on files do. *)
Definition handle (other : sysE ~> Monads.stateT env (itree stopE)) : sysE ~> Monads.stateT env (itree stopE) :=
  fun R e s =>
  match e in sysE R return itree stopE (env * R) with
  | Sopen path mode =>
      match files s !! path with
      | Some c => if mode =? 0 then Ret (set_fds (<[lowest s := c]> (fds s)) s, lowest s) else other _ (Sopen path mode) s
      | None => if mode =? 0 then Ret (s, -1) else other _ (Sopen path mode) s
      end
  | Sread fd n =>
      match fds s !! fd with
      | Some l =>
          let k := read_size s n l in
          Ret (Env (files s) (<[fd := drop k l]> (fds s)) (outs s) (tail (sizes s)), (Z.of_nat k, take k l))
      | None => Ret (s, (-1, []))
      end
  | Swrite fd bs => Ret (set_outs (outs s ++ [(fd, bs)]) s, Z.of_nat (length bs))
  | Sclose fd => Ret (set_fds (delete fd (fds s)) s, match fds s !! fd with Some _ => 0 | None => -1 end)
  | Sexit status => stop status s
  | e => other _ e s
  end.

Definition run (other : sysE ~> Monads.stateT env (itree stopE)) {A} (p : uprog A) (s : env) : itree stopE (env * A) :=
  interp_state (handle other) p s.

(** ** Running a program step by step *)

Section run.
Context (other : sysE ~> Monads.stateT env (itree stopE)).
#[local] Abbreviation run := (run other).

Lemma run_ret {A} (a : A) s : eutt eq (run (Ret a) s) (Ret (s, a)).
Proof. unfold Usys.run. rewrite interp_state_ret. reflexivity. Qed.

Lemma run_bind {A B} (p : uprog A) (k : A -> uprog B) s :
  eutt eq (run (ITree.bind p k) s) (ITree.bind (run p s) (fun '(s', a) => run (k a) s')).
Proof.
  unfold Usys.run. rewrite interp_state_bind. apply eutt_eq_bind. intros [s' a]. reflexivity.
Qed.

Lemma run_trigger {A} (e : sysE A) s : eutt eq (run (ITree.trigger e) s) (handle other A e s).
Proof. unfold Usys.run. rewrite interp_state_trigger. reflexivity. Qed.

(** Equivalent programs run alike. *)
Lemma run_proper {A} (p q : uprog A) s : eutt eq p q -> eutt eq (run p s) (run q s).
Proof. intros H. unfold Usys.run. rewrite H. reflexivity. Qed.

(** A step whose outcome is known. *)
Lemma run_seq {A B} (p : uprog A) (k : A -> uprog B) s s' a t :
  eutt eq (run p s) (Ret (s', a)) -> eutt eq (run (k a) s') t -> eutt eq (run (ITree.bind p k) s) t.
Proof. intros Hp Hk. rewrite run_bind, Hp, bind_ret_l. exact Hk. Qed.

Lemma run_stop {A B} (p : uprog A) (k : A -> uprog B) s st s' :
  eutt eq (run p s) (stop st s') -> eutt eq (run (ITree.bind p k) s) (stop st s').
Proof.
  intros Hp. rewrite run_bind, Hp. unfold stop. rewrite bind_bind. apply eutt_eq_bind. intros [].
Qed.

Lemma run_iter {A B} (body : A -> uprog (A + B)) x s t :
  eutt eq (run (ITree.bind (body x) (fun r => match r with inl x' => ITree.iter body x' | inr r => Ret r end)) s) t ->
  eutt eq (run (ITree.iter body x) s) t.
Proof.
  intros <-. unfold Usys.run. rewrite unfold_iter. rewrite !interp_state_bind. apply eutt_eq_bind. intros [s' [x'|r]]; cbn.
  - rewrite interp_state_tau, tau_eutt. reflexivity.
  - reflexivity.
Qed.

(** The calls. *)
Lemma run_write fd bs s : eutt eq (run (write_ fd bs) s) (Ret (set_outs (outs s ++ [(fd, bs)]) s, Z.of_nat (length bs))).
Proof. unfold write_. by rewrite run_trigger. Qed.

Lemma run_read fd n l s : fds s !! fd = Some l -> eutt eq (run (read_ fd n) s)
  (Ret (Env (files s) (<[fd := drop (read_size s n l) l]> (fds s)) (outs s) (tail (sizes s)), (Z.of_nat (read_size s n l), take (read_size s n l) l))).
Proof. intros H. unfold read_. rewrite run_trigger. cbn [handle]. by rewrite H. Qed.

Lemma run_open path c s : files s !! path = Some c ->
  eutt eq (run (open_ path 0) s) (Ret (set_fds (<[lowest s := c]> (fds s)) s, lowest s)).
Proof. intros H. unfold open_. rewrite run_trigger. cbn [handle]. by rewrite H. Qed.

Lemma run_open_none path s : files s !! path = None -> eutt eq (run (open_ path 0) s) (Ret (s, -1)).
Proof. intros H. unfold open_. rewrite run_trigger. cbn [handle]. by rewrite H. Qed.

Lemma run_close fd l s : fds s !! fd = Some l -> eutt eq (run (close_ fd) s) (Ret (set_fds (delete fd (fds s)) s, 0)).
Proof. intros H. unfold close_. rewrite run_trigger. cbn [handle]. by rewrite H. Qed.

Lemma run_exit {A} st s : eutt eq (run (exit_ (A := A) st) s) (stop st s).
Proof. unfold exit_. apply run_stop. rewrite run_trigger. reflexivity. Qed.
End run.
