(* ===== verification/Ring.v ===== *)
(** * Ring buffers

    An array of [N] cells read and written through indices that run modulo a
    multiple of [N]: the buffers of pipes and of the console.  [ring N buf r n]
    is the sequence of the [n] cells from index [r] on. *)

From S2P Require Import Prelude Riscv.

#[local] Set Default Proof Using "All".

Section ring.
Context (N : Z) (HN : 0 < N).

Definition ring_at (buf : list Z) (i : Z) : Z := default 0 (buf !! Z.to_nat (i mod N)).
Definition ring (buf : list Z) (r n : Z) : list Z := (fun k => ring_at buf (r + k)) <$> seqZ 0 n.

Lemma length_ring buf r n : 0 <= n -> Z.of_nat (length (ring buf r n)) = n.
Proof. intros Hn. unfold ring. rewrite length_fmap, length_seqZ. lia. Qed.

Lemma ring_nil buf r : ring buf r 0 = [].
Proof. done. Qed.

Lemma ring_at_mod W buf i : (N | W) -> 0 < W -> ring_at buf (i mod W) = ring_at buf i.
Proof.
  intros [k ->] HW. unfold ring_at. f_equal. f_equal. f_equal.
  rewrite (Z.mul_comm k N), Z.rem_mul_r, (Z.mul_comm N), Z.mod_add, Z.mod_mod by nia. done.
Qed.

Lemma ring_start_mod W buf r n : (N | W) -> 0 < W -> ring buf (r mod W) n = ring buf r n.
Proof.
  intros HW ?. unfold ring. apply list_fmap_ext. intros _ k _.
  rewrite <- (ring_at_mod W buf (r mod W + k)), <- (ring_at_mod W buf (r + k)) by done. by rewrite Zplus_mod_idemp_l.
Qed.

Lemma ring_pop buf r n : 0 < n -> ring buf r n = ring_at buf r :: ring buf (r + 1) (n - 1).
Proof.
  intros Hn. unfold ring. rewrite seqZ_cons by lia. cbn [fmap list_fmap]. rewrite Z.add_0_r. f_equal.
  replace (Z.pred n) with (n - 1) by lia. rewrite <- (Z.add_0_r (Z.succ 0)), <- (fmap_add_seqZ (Z.succ 0) 0).
  rewrite <- list_fmap_compose. apply list_fmap_ext. intros _ k _. cbn [compose]. f_equal. lia.
Qed.

Lemma ring_snoc buf r n : 0 <= n -> ring buf r (n + 1) = ring buf r n ++ [ring_at buf (r + n)].
Proof.
  intros Hn. unfold ring. rewrite (seqZ_app 0 n 1) by lia. by rewrite fmap_app.
Qed.

Lemma ring_take buf r n m : 0 <= m <= n -> ring buf r m = take (Z.to_nat m) (ring buf r n).
Proof.
  intros Hm. unfold ring. rewrite <- fmap_take. f_equal.
  replace n with (m + (n - m)) by lia. rewrite seqZ_app by lia. rewrite take_app_le; [|rewrite length_seqZ; lia].
  rewrite take_ge; [done|]. rewrite length_seqZ. lia.
Qed.

(** Two indices less than [N] apart are different cells. *)
Lemma ring_cell_ne i j : 0 < Z.abs (i - j) < N -> Z.to_nat (i mod N) <> Z.to_nat (j mod N).
Proof.
  intros Hij E. pose proof (Z.mod_pos_bound i N ltac:(lia)). pose proof (Z.mod_pos_bound j N ltac:(lia)).
  assert ((i - j) mod N = 0) as Hz. { rewrite Zminus_mod, (Z2Nat.inj (i mod N) (j mod N)), Z.sub_diag by lia. done. }
  apply Z.mod_divide in Hz as [k Hk]; [|lia]. assert (k = 0 \/ Z.abs k >= 1) as [->|] by lia; [lia|nia].
Qed.

Lemma ring_at_insert_eq buf i x : Z.of_nat (length buf) = N -> ring_at (<[Z.to_nat (i mod N) := x]> buf) i = x.
Proof. intros Hb. unfold ring_at. pose proof (Z.mod_pos_bound i N HN). rewrite list_lookup_insert_eq by lia. done. Qed.

Lemma ring_at_insert_ne buf i j x : 0 < Z.abs (i - j) < N -> ring_at (<[Z.to_nat (i mod N) := x]> buf) j = ring_at buf j.
Proof. intros Hij. unfold ring_at. rewrite list_lookup_insert_ne; [done|by apply ring_cell_ne]. Qed.

Lemma ring_push buf r n x :
  Z.of_nat (length buf) = N -> 0 <= n < N ->
  ring (<[Z.to_nat ((r + n) mod N) := x]> buf) r (n + 1) = ring buf r n ++ [x].
Proof.
  intros Hb Hn. rewrite ring_snoc by lia. rewrite ring_at_insert_eq by done. f_equal.
  unfold ring. apply list_fmap_ext. intros i k Hk%lookup_seqZ. apply ring_at_insert_ne. lia.
Qed.
End ring.
