(* ===== verification/Spinlock.v ===== *)
(** * Spin locks (kernel/spinlock.c)

    The interrupt-nesting counters of [push_off]/[pop_off], the lock itself,
    and the interleaving of several harts on one lock.  The last section is
    the view of a lock that the rest of the development uses: what one hart
    can tell about it. *)

From S2P Require Import Prelude.

(** ** Interrupts: push_off and pop_off *)

Definition SSTATUS_SIE : Z := Z.shiftl 1 1.

(** The part of [struct cpu] and of the hart's registers that
    kernel/spinlock.c uses. *)
Record cpu := Cpu { noff : Z; intena : bool; sstatus : Z }.

Definition set_noff (n : Z) (c : cpu) : cpu := Cpu n (intena c) (sstatus c).
Definition set_intena (b : bool) (c : cpu) : cpu := Cpu (noff c) b (sstatus c).
Definition set_sstatus (x : Z) (c : cpu) : cpu := Cpu (noff c) (intena c) x.

Definition intr_on : M cpu unit := modify (fun c => set_sstatus (Z.lor (sstatus c) SSTATUS_SIE) c).
Definition intr_off : M cpu unit :=
  modify (fun c => set_sstatus (Z.land (sstatus c) (wrap64 (Z.lnot SSTATUS_SIE))) c).
Definition intr_get : M cpu bool := gets (fun c => truth (Z.land (sstatus c) SSTATUS_SIE)).

Definition push_off : M cpu unit :=
  let! old := intr_get in
  intr_off ;;
  let! c := get in
  (if noff c =? 0 then modify (set_intena old) else ret tt) ;;
  modify (fun c => set_noff (noff c + 1) c).

Definition pop_off : M cpu unit :=
  let! on := intr_get in
  if on then panic "pop_off - interruptible" else
  let! c := get in
  if noff c <? 1 then panic "pop_off" else
  modify (set_noff (noff c - 1)) ;;
  if (noff c - 1 =? 0) && intena c then intr_on else ret tt.

(** ** The lock *)

Record spinlock := SpinLock { locked : Z; lcpu : option nat }.

Definition initlock : spinlock := SpinLock 0 None.

(** One hart's state while it works on a lock. *)
Abbreviation hl := (cpu * spinlock)%type.
Definition on_cpu {A} (c : M cpu A) : M hl A := zoom fst (fun c' s => (c', snd s)) c.

Definition holding (me : nat) (lk : spinlock) : bool :=
  truth (locked lk) && bool_decide (lcpu lk = Some me).

(** [acquire] in its three atomic pieces: entry (interrupts off, check),
    the atomic swap on [lk->locked], and the record of the owner.  A swap that
    finds the lock taken keeps spinning. *)
Definition acquire_enter (me : nat) : M hl unit :=
  on_cpu push_off ;;
  let! s := get in
  if holding me (snd s) then panic "acquire" else ret tt.
Definition acquire_swap : M hl unit :=
  let! s := get in
  if truth (locked (snd s)) then block
  else modify (fun s => (fst s, SpinLock 1 (lcpu (snd s)))).
Definition acquire_record (me : nat) : M hl unit :=
  modify (fun s => (fst s, SpinLock (locked (snd s)) (Some me))).
Definition acquire (me : nat) : M hl unit :=
  acquire_enter me ;; acquire_swap ;; acquire_record me.

(** [release] in its three pieces: check and forget the owner, clear
    [lk->locked], restore interrupts. *)
Definition release_clear (me : nat) : M hl unit :=
  let! s := get in
  if negb (holding me (snd s)) then panic "release"
  else modify (fun s => (fst s, SpinLock (locked (snd s)) None)).
Definition release_store : M hl unit :=
  modify (fun s => (fst s, SpinLock 0 (lcpu (snd s)))).
Definition release (me : nat) : M hl unit :=
  release_clear me ;; release_store ;; on_cpu pop_off.

(** ** Nesting of push_off and pop_off *)

(** Interrupts are off whenever the nesting depth is positive. *)
Definition cpu_inv (c : cpu) : Prop :=
  0 <= noff c /\ 0 <= sstatus c < 2^64 /\ (0 < noff c -> Z.testbit (sstatus c) 1 = false).

Definition intr_enabled (c : cpu) : bool := Z.testbit (sstatus c) 1.

Lemma intr_get_spec c : truth (Z.land (sstatus c) SSTATUS_SIE) = intr_enabled c.
Proof. apply (truth_land_pow2 (sstatus c) 1). lia. Qed.

Lemma testbit_not_SIE i : 0 <= i < 64 -> Z.testbit (wrap64 (Z.lnot SSTATUS_SIE)) i = negb (i =? 1).
Proof.
  intros Hi. unfold wrap64. rewrite Z.mod_pow2_bits_low by lia.
  rewrite Z.lnot_spec by lia. f_equal. change SSTATUS_SIE with (2^1).
  destruct (i =? 1) eqn:E; b2p.
  - subst. done.
  - apply Z.pow2_bits_false. lia.
Qed.

(** Clearing and setting SIE leaves every other bit of [sstatus] alone. *)
Lemma intr_off_bits x i :
  0 <= x < 2^64 -> 0 <= i ->
  Z.testbit (Z.land x (wrap64 (Z.lnot SSTATUS_SIE))) i = Z.testbit x i && negb (i =? 1).
Proof.
  intros Hx Hi. rewrite Z.land_spec. destruct (decide (i < 64)).
  - by rewrite testbit_not_SIE by lia.
  - by rewrite (testbit_above x i 64) by lia.
Qed.

Lemma intr_on_bits x i :
  0 <= i -> Z.testbit (Z.lor x SSTATUS_SIE) i = Z.testbit x i || (i =? 1).
Proof.
  intros Hi. rewrite Z.lor_spec. f_equal. change SSTATUS_SIE with (2^1).
  destruct (i =? 1) eqn:E; b2p; [by subst|]. apply Z.pow2_bits_false. lia.
Qed.

(** The state after [push_off]. *)
Definition pushed (c : cpu) : cpu :=
  Cpu (noff c + 1) (if noff c =? 0 then intr_enabled c else intena c)
      (Z.land (sstatus c) (wrap64 (Z.lnot SSTATUS_SIE))).

Lemma push_off_run c : push_off c = Ok tt (pushed c).
Proof.
  unfold push_off, pushed, intr_get, intr_off, bind, gets, modify, get. simpl.
  rewrite intr_get_spec. destruct (noff c =? 0); done.
Qed.

Lemma pushed_inv c : cpu_inv c -> cpu_inv (pushed c).
Proof.
  intros (Hn & Hs & Hi). unfold cpu_inv, pushed; cbn [noff sstatus intena]. split; [lia|split].
  - apply land_range; lia.
  - intros _. rewrite intr_off_bits by lia. apply andb_false_r.
Qed.

(** The state after [pop_off] when it does not panic. *)
Definition popped (c : cpu) : cpu :=
  Cpu (noff c - 1) (intena c)
      (if (noff c - 1 =? 0) && intena c then Z.lor (sstatus c) SSTATUS_SIE else sstatus c).

Lemma pop_off_run c : cpu_inv c -> 0 < noff c -> pop_off c = Ok tt (popped c).
Proof.
  intros (Hn & Hs & Hi) Hp. unfold pop_off, popped, intr_get, bind, gets, modify, get. simpl.
  rewrite intr_get_spec. unfold intr_enabled. rewrite Hi by done. simpl.
  destruct (noff c <? 1) eqn:E; b2p; [lia|]. simpl. by destruct (_ && _).
Qed.

Lemma popped_inv c : cpu_inv c -> 0 < noff c -> cpu_inv (popped c).
Proof.
  intros (Hn & Hs & Hi) Hp. unfold cpu_inv, popped; simpl. split; [lia|].
  destruct ((noff c - 1 =? 0) && intena c) eqn:E; b2p.
  - split; [|lia]. split; [apply Z.lor_nonneg; split; [lia|done]|].
    apply bits_bound; [lia|apply Z.lor_nonneg; split; [lia|done]|].
    intros i Hl. rewrite intr_on_bits, (testbit_above (sstatus c) i 64) by lia.
    destruct (i =? 1) eqn:?; b2p; [lia|done].
  - split; [done|]. intros _. by apply Hi.
Qed.

(** A [push_off] undone by a [pop_off] restores the depth and every bit of
    [sstatus], hence the interrupt enable. *)
Lemma push_pop c : cpu_inv c -> noff (popped (pushed c)) = noff c /\ sstatus (popped (pushed c)) = sstatus c.
Proof.
  intros (Hn & Hs & Hi). unfold popped, pushed; cbn [noff sstatus intena]. split; [lia|].
  replace (noff c + 1 - 1) with (noff c) by lia.
  apply Z.bits_inj'. intros i Hl. destruct (noff c =? 0) eqn:E; b2p; cbn [andb].
  - destruct (intr_enabled c) eqn:E2; unfold intr_enabled in E2.
    + rewrite intr_on_bits, intr_off_bits by lia. destruct (i =? 1) eqn:?; b2p.
      * subst. by rewrite E2.
      * simpl. by rewrite andb_true_r, orb_false_r.
    + rewrite intr_off_bits by lia. destruct (i =? 1) eqn:?; b2p.
      * subst. by rewrite E2.
      * apply andb_true_r.
  - rewrite intr_off_bits by lia. destruct (i =? 1) eqn:?; b2p.
    + subst. rewrite Hi by lia. done.
    + apply andb_true_r.
Qed.

Fixpoint iterM {S} (n : nat) (c : M S unit) : M S unit :=
  match n with
  | O => ret tt
  | S n' => c ;; iterM n' c
  end.

Lemma iterM_S_r {S} n (c : M S unit) s : iterM (Datatypes.S n) c s = (iterM n c ;; c) s.
Proof.
  revert s. induction n as [|n IH]; intros s.
  - cbn [iterM]. unfold bind, ret. by destruct (c s) as [[] ?| | |].
  - etrans; [|symmetry; apply (bind_assoc c (fun _ => iterM n c) (fun _ => c) s)].
    apply (bind_ext c (fun _ => iterM (Datatypes.S n) c)). intros []. apply IH.
Qed.

(** [n] calls of [push_off] undone by [n] calls of [pop_off]; in between
    interrupts are off.  [intena] may be left changed only at depth zero,
    where it is dead. *)
Lemma pushes_pops n : forall c, cpu_inv c ->
  exists c1 c2,
    iterM n push_off c = Ok tt c1 /\ iterM n pop_off c1 = Ok tt c2 /\
    cpu_inv c1 /\ noff c1 = noff c + Z.of_nat n /\
    noff c2 = noff c /\ sstatus c2 = sstatus c /\ (0 < noff c -> intena c2 = intena c).
Proof.
  induction n as [|n IH]; intros c Hc.
  { exists c, c. split_and!; try done; lia. }
  destruct (IH (pushed c) (pushed_inv _ Hc)) as (c1 & c2 & H1 & H2 & Hi & Hn & Hn2 & Hs2 & He2).
  assert (0 < noff (pushed c)) as Hp by (simpl; destruct Hc; lia).
  assert (c2 = pushed c) as ->.
  { destruct c2. simpl in *. unfold pushed. f_equal; simpl; auto. }
  exists c1, (popped (pushed c)). cbn [iterM].
  rewrite (bind_ok _ _ _ _ _ (push_off_run c)). split_and!; [done| |done| | | |].
  - change (iterM (S n) pop_off c1 = Ok tt (popped (pushed c))). rewrite iterM_S_r.
    rewrite (bind_ok _ _ _ _ _ H2). apply pop_off_run; [by apply pushed_inv|done].
  - simpl in Hn. lia.
  - by apply push_pop.
  - by apply push_pop.
  - intros Hd. simpl. destruct (noff c =? 0) eqn:E; b2p; [lia|done].
Qed.

(** ** Several harts on one lock

    Each hart goes round the cycle below; every transition is one of the
    atomic pieces of [acquire] and [release], executed by that hart on its own
    [cpu] and on the shared lock.  Between [acquire] and [release] the hart is
    in its critical section ([Critical]). *)

Inductive pc := Idle | Spinning | Swapped | Critical | Cleared | Stored.

#[export] Instance pc_eq_dec : EqDecision pc.
Proof. solve_decision. Defined.

Record hart := Hart { hpc : pc; hcpu : cpu }.
Record sys := Sys { lk : spinlock; harts : list hart }.

Definition piece (me : nat) (p : pc) : M hl unit :=
  match p with
  | Idle => acquire_enter me
  | Spinning => acquire_swap
  | Swapped => acquire_record me
  | Critical => release_clear me
  | Cleared => release_store
  | Stored => on_cpu pop_off
  end.

Definition next_pc (p : pc) : pc :=
  match p with
  | Idle => Spinning
  | Spinning => Swapped
  | Swapped => Critical
  | Critical => Cleared
  | Cleared => Stored
  | Stored => Idle
  end.

Inductive lock_step : sys -> sys -> Prop :=
| step_piece s me h c' lk' :
    harts s !! me = Some h ->
    piece me (hpc h) (hcpu h, lk s) = Ok tt (c', lk') ->
    lock_step s (Sys lk' (<[me := Hart (next_pc (hpc h)) c']> (harts s))).

Definition sys_init (cs : list cpu) : sys := Sys initlock (map (Hart Idle) cs).

(** Harts that own the word [lk->locked]. *)
Definition owns (p : pc) : bool :=
  match p with Swapped | Critical | Cleared => true | _ => false end.

Definition lock_inv (s : sys) : Prop :=
  (forall i h, harts s !! i = Some h ->
     cpu_inv (hcpu h) /\ (hpc h <> Idle -> 0 < noff (hcpu h))) /\
  (locked (lk s) = 0 \/ locked (lk s) = 1) /\
  (forall i h, harts s !! i = Some h -> owns (hpc h) = true -> locked (lk s) = 1) /\
  (forall i j h h', harts s !! i = Some h -> harts s !! j = Some h' ->
     owns (hpc h) = true -> owns (hpc h') = true -> i = j) /\
  (forall i, lcpu (lk s) = Some i <->
     exists h, harts s !! i = Some h /\ hpc h = Critical).

(** What one atomic piece does, when it completes. *)
Definition piece_effect (me : nat) (p : pc) (c : cpu) (l : spinlock) (c' : cpu) (l' : spinlock) : Prop :=
  match p with
  | Idle => c' = pushed c /\ l' = l
  | Spinning => locked l = 0 /\ c' = c /\ l' = SpinLock 1 (lcpu l)
  | Swapped => c' = c /\ l' = SpinLock (locked l) (Some me)
  | Critical => c' = c /\ l' = SpinLock (locked l) None
  | Cleared => c' = c /\ l' = SpinLock 0 (lcpu l)
  | Stored => pop_off c = Ok tt c' /\ l' = l
  end.

Lemma piece_inv me p c l c' l' :
  piece me p (c, l) = Ok tt (c', l') -> piece_effect me p c l c' l'.
Proof.
  destruct p; cbn [piece piece_effect]; unfold acquire_enter, acquire_swap, release_clear, on_cpu, zoom, bind,
    get, modify, ret, panic, block; simpl; rewrite ?push_off_run; simpl.
  - destruct (holding me l); [done|]. intros [=]; subst; auto.
  - destruct (truth (locked l)) eqn:E; [done|]. apply truth_false in E. intros [=]; subst; auto.
  - intros [=]; subst; auto.
  - destruct (holding me l); [|done]. intros [=]; subst; auto.
  - intros [=]; subst; auto.
  - destruct (pop_off c) as [[] c1| | |]; [|done..]. intros [=]; subst; auto.
Qed.

Lemma piece_no_panic s me h :
  lock_inv s -> harts s !! me = Some h ->
  forall msg, piece me (hpc h) (hcpu h, lk s) <> Panic msg.
Proof.
  intros (Hc & Hl & Ho & Hu & Hcr) Hh msg. destruct (Hc _ _ Hh) as [Hci Hp].
  destruct (hpc h) eqn:Hpc; cbn [piece piece_effect]; unfold acquire_enter, acquire_swap, release_clear, on_cpu,
    zoom, bind, get, modify, ret, panic, block; simpl; rewrite ?push_off_run; simpl.
  - unfold holding. case_bool_decide as Hb; [|by rewrite andb_false_r].
    apply Hcr in Hb as (h' & Hh' & ?). congruence.
  - by destruct (truth _).
  - done.
  - assert (holding me (lk s) = true) as ->; [|done].
    unfold holding. rewrite (Ho me h) by (done || by rewrite Hpc). simpl.
    apply bool_decide_eq_true, Hcr. eauto.
  - done.
  - rewrite pop_off_run by (done || by apply Hp). done.
Qed.

Lemma insert_lookup_cases {A} (l : list A) me x h i y :
  l !! me = Some h -> <[me := x]> l !! i = Some y ->
  (i = me /\ y = x) \/ (i <> me /\ l !! i = Some y).
Proof.
  intros Hm Hi. apply list_lookup_insert_Some in Hi as [(-> & -> & _)|[? ?]]; auto.
Qed.

Lemma insert_lookup_me {A} (l : list A) me x h :
  l !! me = Some h -> <[me := x]> l !! me = Some x.
Proof. intros H. apply list_lookup_insert_eq. by eapply lookup_lt_Some. Qed.

Lemma lock_step_cpu s me h c' lk' :
  lock_inv s -> harts s !! me = Some h ->
  piece_effect me (hpc h) (hcpu h) (lk s) c' lk' ->
  cpu_inv c' /\ (next_pc (hpc h) <> Idle -> 0 < noff c').
Proof.
  intros (Hc & _) Hh He. destruct (Hc _ _ Hh) as [Hci Hp].
  destruct (hpc h); simpl in He; destruct_and?; subst; simpl next_pc;
    try (split; [done|]; intros _; by apply Hp).
  - split; [by apply pushed_inv|]. intros _. simpl. destruct Hci. lia.
  - rewrite pop_off_run in H by (done || by apply Hp). simplify_eq.
    split; [apply popped_inv; [done|by apply Hp]|done].
Qed.

Section step.
Context (s : sys) (me : nat) (h : hart) (c' : cpu) (lk' : spinlock).
Context (HI : lock_inv s) (Hh : harts s !! me = Some h).
Context (He : piece_effect me (hpc h) (hcpu h) (lk s) c' lk').
Let harts' : list hart := <[me := Hart (next_pc (hpc h)) c']> (harts s).

Lemma step_owner_locked i h' :
  harts' !! i = Some h' -> owns (hpc h') = true -> locked lk' = 1.
Proof using HI Hh He.
  destruct HI as (Hc & Hl & Ho & Hu & Hcr). intros Hi.
  destruct (insert_lookup_cases _ _ _ _ _ _ Hh Hi) as [[-> ->]|[Hne Hi']].
  - simpl. destruct (hpc h) eqn:E; simpl in He |- *; destruct_and?; subst; simpl; try done.
    all: intros _; apply (Ho me h); [done|by rewrite E].
  - intros Hown. pose proof (Ho _ _ Hi' Hown) as H1.
    destruct (hpc h) eqn:E; simpl in He; destruct_and?; subst; simpl; try done.
    exfalso. apply Hne. eapply Hu; eauto. by rewrite E.
Qed.

Lemma step_owner_other j h2 :
  owns (next_pc (hpc h)) = true -> harts s !! j = Some h2 -> owns (hpc h2) = true -> me = j.
Proof using HI Hh He.
  destruct HI as (Hc & Hl & Ho & Hu & Hcr). intros O1 Hj O2.
  destruct (hpc h) eqn:E; simpl in *; destruct_and?; try done.
  1: rewrite (Ho _ _ Hj O2) in *; done.
  all: eapply Hu; eauto; by rewrite E.
Qed.

Lemma step_owner_unique i j h1 h2 :
  harts' !! i = Some h1 -> harts' !! j = Some h2 ->
  owns (hpc h1) = true -> owns (hpc h2) = true -> i = j.
Proof using HI Hh He.
  intros Hi Hj O1 O2.
  destruct (insert_lookup_cases _ _ _ _ _ _ Hh Hi) as [[-> ->]|[Hne Hi']];
  destruct (insert_lookup_cases _ _ _ _ _ _ Hh Hj) as [[-> ->]|[Hne' Hj']]; try done.
  - by apply (step_owner_other _ h2).
  - symmetry. by apply (step_owner_other _ h1).
  - destruct HI as (_ & _ & _ & Hu & _). eauto.
Qed.

Lemma step_recorded i :
  lcpu lk' = Some i <-> exists h0, harts' !! i = Some h0 /\ hpc h0 = Critical.
Proof using HI Hh He.
  destruct HI as (Hc & Hl & Ho & Hu & Hcr).
  assert (Hold : lcpu (lk s) = Some me <-> hpc h = Critical).
  { rewrite Hcr. split; [intros (h0 & ? & ?); congruence|eauto]. }
  unfold harts'. destruct (decide (i = me)) as [->|Hne].
  - rewrite (insert_lookup_me _ _ _ _ Hh).
    assert (forall p, (exists h0, Some (Hart p c') = Some h0 /\ hpc h0 = Critical) <-> p = Critical)
      as -> by (intros p; split; [by intros (? & [= <-] & ?)|eauto]).
    destruct (hpc h) eqn:E; simpl in He; destruct_and?; subst; simpl; try (rewrite Hold); done.
  - rewrite list_lookup_insert_ne, <- Hcr by done.
    destruct (hpc h) eqn:E; simpl in He; destruct_and?; subst; simpl; try done.
    all: rewrite (Hcr i); split; [by intros [=]|]; intros (h0 & Hh0 & Hc0); exfalso; apply Hne.
    all: eapply Hu; eauto; rewrite ?E, ?Hc0; done.
Qed.
End step.

Lemma lock_step_inv s s' : lock_inv s -> lock_step s s' -> lock_inv s'.
Proof.
  intros HI Hst. destruct Hst as [s0 me h c' lk' Hh Hpc]. apply piece_inv in Hpc as He.
  split_and!; cbn [lk harts].
  - intros i h' Hi. destruct (insert_lookup_cases _ _ _ _ _ _ Hh Hi) as [[-> ->]|[_ ?]].
    + by eapply lock_step_cpu.
    + by eapply HI.
  - destruct HI as (_ & Hl & _). destruct (hpc h); simpl in He; destruct_and?; subst; simpl; auto.
  - by eapply step_owner_locked.
  - by eapply step_owner_unique.
  - by eapply step_recorded.
Qed.

Lemma sys_init_inv cs :
  Forall (fun c => cpu_inv c) cs -> lock_inv (sys_init cs).
Proof.
  intros Hcs.
  assert (Hp : forall i h, harts (sys_init cs) !! i = Some h -> hpc h = Idle /\ cpu_inv (hcpu h)).
  { intros i h Hi. simpl in Hi. apply list_lookup_fmap_Some in Hi as (c & -> & Hi).
    split; [done|]. simpl. by eapply Forall_lookup_1 in Hcs. }
  split_and!; simpl; auto.
  - intros i h Hi. destruct (Hp i h Hi) as [-> ?]. split; [done|by intros []].
  - intros i h Hi. destruct (Hp i h Hi) as [-> _]. done.
  - intros i j h h' Hi _. destruct (Hp i h Hi) as [-> _]. done.
  - intros i. split; [done|]. intros (h & Hi & Hc). destruct (Hp i h Hi) as [Hi' _]. congruence.
Qed.

Lemma lock_reachable_inv cs s :
  Forall (fun c => cpu_inv c) cs -> rtc lock_step (sys_init cs) s -> lock_inv s.
Proof.
  intros Hcs Hr. pose proof (sys_init_inv cs Hcs) as HI.
  induction Hr as [|s1 s2 s3 Hst _ IH]; [done|]. eauto using lock_step_inv.
Qed.

(** C10. Mutual exclusion, whatever the interleaving of the atomic
    pieces: at most one hart is in its critical section, and no hart ever
    runs into one of the panics of [acquire], [release] and [pop_off]. *)
Theorem spinlock_mutual_exclusion cs s :
  Forall (fun c => cpu_inv c) cs -> rtc lock_step (sys_init cs) s ->
  (forall i j h h', harts s !! i = Some h -> harts s !! j = Some h' ->
     hpc h = Critical -> hpc h' = Critical -> i = j) /\
  (forall i h msg, harts s !! i = Some h -> piece i (hpc h) (hcpu h, lk s) <> Panic msg).
Proof.
  intros Hcs Hr. pose proof (lock_reachable_inv _ _ Hcs Hr) as HI. split.
  - intros i j h h' Hi Hj Hc Hc'. destruct HI as (_ & _ & _ & Hu & _).
    eapply Hu; eauto; by rewrite ?Hc, ?Hc'.
  - intros i h msg Hi. by apply piece_no_panic.
Qed.

(** Running a schedule: the hart to move at every step. *)
Fixpoint run_schedule (sched : list nat) (s : sys) : option sys :=
  match sched with
  | [] => Some s
  | me :: sched' =>
      match harts s !! me with
      | None => None
      | Some h =>
          match piece me (hpc h) (hcpu h, lk s) with
          | Ok _ (c', lk') => run_schedule sched' (Sys lk' (<[me := Hart (next_pc (hpc h)) c']> (harts s)))
          | _ => None
          end
      end
  end.

Lemma run_schedule_reachable sched : forall s s', run_schedule sched s = Some s' -> rtc lock_step s s'.
Proof.
  induction sched as [|me sched IH]; intros s s' H; cbn [run_schedule] in H; [by injection H as ->|].
  destruct (harts s !! me) as [h|] eqn:Hh; [|done].
  destruct (piece me (hpc h) (hcpu h, lk s)) as [[] [c' lk']| | |] eqn:Hp; [|done..].
  eapply rtc_l; [by econstructor|by apply IH].
Qed.

(** Hart 0 enters its critical section, hart 1 starts to spin. *)
Lemma spinlock_mutual_exclusion_witness :
  exists s, rtc lock_step (sys_init [Cpu 0 false 2; Cpu 0 false 2]) s /\
    (forall i j h h', harts s !! i = Some h -> harts s !! j = Some h' ->
       hpc h = Critical -> hpc h' = Critical -> i = j) /\
    (forall i h msg, harts s !! i = Some h -> piece i (hpc h) (hcpu h, lk s) <> Panic msg).
Proof.
  assert (exists s, run_schedule [0; 0; 1; 0]%nat (sys_init [Cpu 0 false 2; Cpu 0 false 2]) = Some s) as [s Hs]
    by (eexists; vm_compute; reflexivity).
  apply run_schedule_reachable in Hs. exists s. split; [done|].
  apply (spinlock_mutual_exclusion [Cpu 0 false 2; Cpu 0 false 2] s); [|done].
  repeat constructor; vm_compute; intuition discriminate.
Defined.

(** ** The view of one hart

    Elsewhere a lock is what the running hart can observe of it: whether the
    word is set, and whether this hart is the recorded owner (the test
    [holding]).  Waiting for another hart is [Blocked]. *)

Record spin := Spin { sheld : bool; smine : bool }.
Definition spin_free : spin := Spin false false.

Definition view (me : nat) (l : spinlock) : spin :=
  Spin (truth (locked l)) (bool_decide (lcpu l = Some me)).

Definition spin_acquire {S} (g : S -> spin) (p : spin -> S -> S) : M S unit :=
  let! s := get in
  if sheld (g s) && smine (g s) then panic "acquire" else
  if sheld (g s) then block else modify (p (Spin true true)).

Definition spin_release {S} (g : S -> spin) (p : spin -> S -> S) : M S unit :=
  let! s := get in
  if negb (sheld (g s) && smine (g s)) then panic "release"
  else modify (p (Spin false false)).

(** The view is faithful: the lock routines of a hart act on it as
    [spin_acquire] and [spin_release] do. *)
Lemma acquire_view me c l :
  match acquire me (c, l) with
  | Ok _ s => spin_acquire id (fun x _ => x) (view me l) = Ok tt (view me (snd s))
  | Panic m => spin_acquire id (fun x _ => x) (view me l) = Panic m
  | Blocked _ => spin_acquire id (fun x _ => x) (view me l) = Blocked (view me l)
  | NoFuel => False
  end.
Proof.
  unfold acquire, acquire_enter, acquire_swap, acquire_record, on_cpu, zoom, spin_acquire, bind,
    get, modify, ret, block, panic, holding, view. simpl. rewrite push_off_run. simpl.
  destruct (truth (locked l)) eqn:E; simpl.
  - case_bool_decide; simpl; [done|]. by rewrite E.
  - rewrite E. simpl. rewrite bool_decide_eq_true_2 by done. done.
Qed.

Lemma release_view me c l :
  cpu_inv c -> 0 < noff c ->
  match release me (c, l) with
  | Ok _ s => spin_release id (fun x _ => x) (view me l) = Ok tt (view me (snd s))
  | Panic m => spin_release id (fun x _ => x) (view me l) = Panic m
  | _ => False
  end.
Proof.
  intros Hc Hn.
  unfold release, release_clear, release_store, on_cpu, zoom, spin_release, bind,
    get, modify, ret, block, panic, holding, view. simpl.
  destruct (truth (locked l) && _) eqn:E; simpl; [|done].
  rewrite pop_off_run by done. done.
Qed.

(** Using a free lock. *)
Lemma wp_spin_acquire {S} (g : S -> spin) p (Q : unit -> S -> Prop) s :
  g s = spin_free -> Q tt (p (Spin true true) s) -> wp (spin_acquire g p) Q s.
Proof. intros Hg HQ. unfold wp, spin_acquire, bind, get. by rewrite Hg. Qed.

Lemma wp_spin_release {S} (g : S -> spin) p (Q : unit -> S -> Prop) s :
  g s = Spin true true -> Q tt (p (Spin false false) s) -> wp (spin_release g p) Q s.
Proof. intros Hg HQ. unfold wp, spin_release, bind, get. by rewrite Hg. Qed.
