(* ===== verification/Sleeplock.v ===== *)
(** * Sleeping locks (kernel/sleeplock.c)

    The routines run on the lock's record from the point of view of one
    process; [sleep] gives up the inner spinlock and the processor, which the
    model reports as [Blocked].  The second part interleaves processes: since
    the inner spinlock makes each routine atomic and [sleep] releases it
    atomically with going to sleep, a step runs one routine of one process. *)

From S2P Require Import Prelude Riscv Memory Spinlock.

Record sleeplock := SleepLock { sl_lk : spin; sl_locked : Z; sl_pid : Z }.

Definition set_sl_lk (x : spin) (l : sleeplock) : sleeplock := SleepLock x (sl_locked l) (sl_pid l).
Definition set_sl_locked (x : Z) (l : sleeplock) : sleeplock := SleepLock (sl_lk l) x (sl_pid l).
Definition set_sl_pid (x : Z) (l : sleeplock) : sleeplock := SleepLock (sl_lk l) (sl_locked l) x.

Definition initsleeplock : sleeplock := SleepLock spin_free 0 0.

Definition sl_acquire : M sleeplock unit := spin_acquire sl_lk set_sl_lk.
Definition sl_release : M sleeplock unit := spin_release sl_lk set_sl_lk.

(** [pid] is [myproc()->pid]. *)
Definition acquiresleep (pid : Z) : M sleeplock unit :=
  sl_acquire ;;
  let! locked := gets sl_locked in
  (if truth locked then sl_release ;; block else ret tt) ;;
  modify (set_sl_locked 1) ;;
  modify (set_sl_pid pid) ;;
  sl_release.

Definition releasesleep : M sleeplock unit :=
  sl_acquire ;;
  modify (set_sl_locked 0) ;;
  modify (set_sl_pid 0) ;;
  sl_release.

Definition holdingsleep (pid : Z) : M sleeplock bool :=
  sl_acquire ;;
  let! l := get in
  let r := truth (sl_locked l) && (sl_pid l =? pid) in
  sl_release ;;
  ret r.

(** ** What the routines do when the inner lock is free *)

Definition sl_free : sleeplock := initsleeplock.
Definition sl_held (pid : Z) : sleeplock := SleepLock spin_free 1 pid.

Lemma acquiresleep_run pid l :
  sl_lk l = spin_free ->
  acquiresleep pid l = if truth (sl_locked l) then Blocked l else Ok tt (sl_held pid).
Proof.
  destruct l as [lk lo p]. simpl. intros ->. unfold acquiresleep, sl_acquire, sl_release,
    spin_acquire, spin_release, bind, get, gets, modify, ret, block. simpl.
  by destruct (truth lo).
Qed.

Lemma releasesleep_run l : sl_lk l = spin_free -> releasesleep l = Ok tt sl_free.
Proof. destruct l as [lk lo p]. simpl. intros ->. done. Qed.

Lemma holdingsleep_run pid l :
  sl_lk l = spin_free -> holdingsleep pid l = Ok (truth (sl_locked l) && (sl_pid l =? pid)) l.
Proof. destruct l as [lk lo p]. simpl. intros ->. done. Qed.

(** ** Processes competing for a sleeplock *)

Inductive sl_pc := SIdle | SSleeping | SWoken | SHolding.

#[export] Instance sl_pc_eq_dec : EqDecision sl_pc.
Proof. solve_decision. Defined.

Record sl_sys := SlSys { slock : sleeplock; sprocs : gmap Z sl_pc }.

(** [wakeup(lk)] in [releasesleep]. *)
Definition wake (p : sl_pc) : sl_pc := match p with SSleeping => SWoken | _ => p end.

Inductive sl_step : sl_sys -> sl_sys -> Prop :=
| sl_try_ok s pid p l' :
    sprocs s !! pid = Some p -> p = SIdle \/ p = SWoken ->
    acquiresleep pid (slock s) = Ok tt l' ->
    sl_step s (SlSys l' (<[pid := SHolding]> (sprocs s)))
| sl_try_sleep s pid p l' :
    sprocs s !! pid = Some p -> p = SIdle \/ p = SWoken ->
    acquiresleep pid (slock s) = Blocked l' ->
    sl_step s (SlSys l' (<[pid := SSleeping]> (sprocs s)))
| sl_done s pid l' :
    sprocs s !! pid = Some SHolding -> releasesleep (slock s) = Ok tt l' ->
    sl_step s (SlSys l' (wake <$> <[pid := SIdle]> (sprocs s))).

Definition sl_init (pids : gset Z) : sl_sys := SlSys initsleeplock (gset_to_gmap SIdle pids).

(** The lock is held exactly while its owner holds it, and nobody sleeps on a
    free lock. *)
Definition sl_inv (s : sl_sys) : Prop :=
  (slock s = sl_free /\ forall pid, sprocs s !! pid <> Some SHolding /\ sprocs s !! pid <> Some SSleeping) \/
  (exists owner, slock s = sl_held owner /\
     forall pid, sprocs s !! pid = Some SHolding <-> pid = owner).

Lemma sl_init_inv pids : sl_inv (sl_init pids).
Proof.
  left. split; [done|]. intros pid. simpl. rewrite !lookup_gset_to_gmap.
  split; case_guard; simpl; congruence.
Qed.

Lemma sl_step_inv s s' : sl_inv s -> sl_step s s' -> sl_inv s'.
Proof.
  intros [[Hl Hp]|(owner & Hl & Hp)] Hs; inversion Hs as [? pid p l' Hpid Hpc Hrun|? pid p l' Hpid Hpc Hrun|? pid l' Hpid Hrun];
    subst s0; subst s'; rewrite Hl in Hrun; rewrite ?acquiresleep_run, ?releasesleep_run in Hrun by done; simpl in Hrun.
  - injection Hrun as <-. right. exists pid. split; [done|]. intros q. simpl. rewrite lookup_insert.
    case_decide as E; [by subst|]. split; [by intros ?%Hp|congruence].
  - done.
  - by apply Hp in Hpid.
  - done.
  - injection Hrun as <-. right. exists owner. split; [done|]. intros q. simpl. rewrite lookup_insert.
    case_decide as E; [|apply Hp]. subst q. split; [done|]. intros ->.
    assert (sprocs s !! owner = Some SHolding) by (by apply Hp). destruct Hpc; congruence.
  - injection Hrun as <-. left. split; [done|]. intros q. simpl. rewrite lookup_fmap, lookup_insert.
    case_decide as E; simpl; [done|]. destruct (sprocs s !! q) as [[]|] eqn:Eq; simpl; try done.
    apply Hp in Eq. apply Hp in Hpid. congruence.
Qed.


