(* ===== verification/Kalloc.v ===== *)
(** * The physical page allocator (kernel/kalloc.c)

    The free list is threaded through the free pages themselves: the first
    eight bytes of a free page hold the address of the next one.  [kinv]
    relates that list in memory to the abstract sequence of free pages. *)

From S2P Require Import Prelude Riscv Memory Spinlock.

Record kmem_t := Kmem { klock : spin; freelist : Z }.
Record kst := Kst { mem : gmap Z Z; kmem : kmem_t }.

Definition set_mem (m : gmap Z Z) (s : kst) : kst := Kst m (kmem s).
Definition set_freelist (r : Z) (s : kst) : kst := Kst (mem s) (Kmem (klock (kmem s)) r).
Definition set_klock (l : spin) (s : kst) : kst := Kst (mem s) (Kmem l (freelist (kmem s))).

Definition kacquire : M kst unit := spin_acquire (fun s => klock (kmem s)) set_klock.
Definition krelease : M kst unit := spin_release (fun s => klock (kmem s)) set_klock.

(** [memset] on the kernel's memory. *)
Definition kmemset (dst c n : Z) : M kst unit := modify (fun s => set_mem (memset (mem s) dst c n) s).

Section kalloc.
(** [end], the first address after the kernel image: a linker symbol
    (kernel/kernel.ld). *)
Context (kend : Z).

Definition kfree (pa : Z) : M kst unit :=
  if negb (pa mod PGSIZE =? 0) || (pa <? kend) || (PHYSTOP <=? pa) then panic "kfree" else
  kmemset pa 1 PGSIZE ;;
  kacquire ;;
  modify (fun s => set_mem (store64 (mem s) pa (freelist (kmem s))) s) ;;
  modify (set_freelist pa) ;;
  krelease.

Definition kalloc : M kst Z :=
  kacquire ;;
  let! s := get in
  let r := freelist (kmem s) in
  (if truth r then modify (fun s => set_freelist (load64 (mem s) r) s) else ret tt) ;;
  krelease ;;
  (if truth r then kmemset r 5 PGSIZE else ret tt) ;;
  ret r.

(** The loop of [freerange]; the fuel is the number of pages left. *)
Fixpoint freerange_loop (fuel : nat) (p pa_end : Z) : M kst unit :=
  if p + PGSIZE <=? pa_end then
    match fuel with
    | O => nofuel
    | S fuel' => kfree p ;; freerange_loop fuel' (p + PGSIZE) pa_end
    end
  else ret tt.
Definition freerange (pa_start pa_end : Z) : M kst unit :=
  let p := PGROUNDUP pa_start in
  freerange_loop (Z.to_nat ((pa_end - p) / PGSIZE)) p pa_end.

Definition kinit : M kst unit :=
  modify (set_klock spin_free) ;;
  freerange kend PHYSTOP.

(** ** Pages *)

Definition valid_page (p : Z) : Prop := page_aligned p /\ kend <= p < PHYSTOP.
Definition in_page (p a : Z) : Prop := p <= a < p + PGSIZE.

#[global] Instance in_page_dec p a : Decision (in_page p a).
Proof. unfold in_page. apply _. Defined.

Lemma in_page_disjoint p q a :
  page_aligned p -> page_aligned q -> in_page p a -> in_page q a -> p = q.
Proof. unfold page_aligned, in_page, PGSIZE. intros. dlia. Qed.

Lemma in_page_self p : in_page p p.
Proof. unfold in_page, PGSIZE. lia. Qed.

(** ** The abstraction: a duplicate-free sequence of free pages *)

Fixpoint freelist_rep (m : gmap Z Z) (h : Z) (l : list Z) : Prop :=
  match l with
  | [] => h = 0
  | p :: l' => h = p /\ valid_page p /\ freelist_rep m (load64 m p) l'
  end.

Definition kinv (s : kst) (l : list Z) : Prop :=
  klock (kmem s) = spin_free /\ mem_wf (mem s) /\ NoDup l /\
  freelist_rep (mem s) (freelist (kmem s)) l.

Lemma freelist_rep_valid m h l p : freelist_rep m h l -> p ∈ l -> valid_page p.
Proof.
  revert h. induction l as [|q l IH]; intros h H Hp; [by apply not_elem_of_nil in Hp|].
  destruct H as (-> & Hv & Hr). apply elem_of_cons in Hp as [->|]; eauto.
Qed.

(** The representation depends only on the free pages. *)
Lemma freelist_rep_ext m m' h l :
  (forall p a, p ∈ l -> in_page p a -> load8 m' a = load8 m a) ->
  freelist_rep m h l -> freelist_rep m' h l.
Proof.
  revert h. induction l as [|p l IH]; intros h He H; [done|].
  destruct H as (-> & Hv & Hr). split_and!; [done..|].
  assert (load64 m' p = load64 m p) as ->.
  { apply load64_ext. intros b Hb. apply (He p); [by left|]. unfold in_page, PGSIZE. lia. }
  apply IH; [|done]. intros q a Hq. apply He. by right.
Qed.

Lemma kinv_ext s s' l :
  kmem s' = kmem s -> mem_wf (mem s') ->
  (forall p a, p ∈ l -> in_page p a -> load8 (mem s') a = load8 (mem s) a) ->
  kinv s l -> kinv s' l.
Proof.
  intros Hk Hw He (Hl & _ & Hd & Hr). unfold kinv. rewrite Hk. split_and!; auto.
  by eapply freelist_rep_ext.
Qed.
End kalloc.

Section specs.
Context (kend : Z) (Hend : 0 < kend).

Lemma valid_page_nonzero p : valid_page kend p -> p <> 0.
Proof using Hend. unfold valid_page. lia. Qed.

Lemma wp_kalloc s l (Q : Z -> kst -> Prop) :
  kinv kend s l ->
  (l = [] -> Q 0 s) ->
  (forall p l' s', l = p :: l' -> kinv kend s' l' -> valid_page kend p -> p ∉ l' ->
     (forall a, load8 (mem s') a = if decide (in_page p a) then 5 else load8 (mem s) a) ->
     Q p s') ->
  wp kalloc Q s.
Proof using Hend.
  intros (Hl & Hw & Hd & Hr) Hnil Hcons. destruct s as [m [lk fl]]. simpl in *. subst lk.
  unfold kalloc. apply wp_bind, wp_spin_acquire; [done|]. apply wp_bind, wp_get. simpl.
  destruct l as [|p l].
  - simpl in Hr. subst fl. simpl. apply wp_bind, wp_ret, wp_bind, wp_spin_release; [done|].
    simpl. by apply wp_bind, wp_ret, wp_ret, Hnil.
  - destruct Hr as (-> & Hv & Hr). apply NoDup_cons in Hd as [Hp Hd].
    rewrite (proj2 (truth_true p) (valid_page_nonzero p Hv)).
    apply wp_bind, wp_modify, wp_bind, wp_spin_release; [done|].
    apply wp_bind, wp_modify, wp_ret.
    assert (Hm : forall a, load8 (memset m p 5 PGSIZE) a =
                   if decide (in_page p a) then 5 else load8 m a) by (intros a; apply load8_memset).
    apply (Hcons p l); [done| |done|done|done].
    split_and!; [done|by apply memset_wf|done|]. simpl.
    eapply freelist_rep_ext; [|done]. intros q a Hq Ha. simpl. rewrite Hm.
    case_decide as Hin; [|done]. exfalso. apply Hp.
    pose proof (freelist_rep_valid _ _ _ _ _ Hr Hq) as [Hqa _]. destruct Hv as [Hpa _].
    by rewrite (in_page_disjoint p q a).
Qed.

Lemma wp_kfree s l p (Q : unit -> kst -> Prop) :
  kinv kend s l -> valid_page kend p -> p ∉ l ->
  (forall s', kinv kend s' (p :: l) ->
     (forall a, ~ in_page p a -> load8 (mem s') a = load8 (mem s) a) -> Q tt s') ->
  wp (kfree kend p) Q s.
Proof using Hend.
  intros (Hl & Hw & Hd & Hr) Hv Hp HQ. destruct s as [m [lk fl]]. simpl in *. subst lk.
  unfold kfree. pose proof Hv as [Hal Hrg]. unfold page_aligned in Hal.
  replace (p mod PGSIZE =? 0) with true by lia. replace (p <? kend) with false by lia.
  replace (PHYSTOP <=? p) with false by lia. simpl.
  apply wp_bind, wp_modify, wp_bind, wp_spin_acquire; [done|].
  apply wp_bind, wp_modify, wp_bind, wp_modify, wp_spin_release; [done|].
  set (m' := store64 (memset m p 1 PGSIZE) p fl).
  assert (Hout : forall a, ~ in_page p a -> load8 m' a = load8 m a).
  { intros a Ha. unfold m'. rewrite load8_store64_ne by (unfold in_page, PGSIZE in Ha; lia).
    rewrite load8_memset. by case_decide. }
  assert (0 <= fl < 2^64) as Hfl.
  { destruct l as [|q l]; simpl in Hr; [lia|]. destruct Hr as (-> & [_ Hq] & _).
    unfold PHYSTOP, KERNBASE in Hq. lia. }
  apply HQ; [|done]. split; [done|split; [|split; [by apply NoDup_cons|]]].
  - apply store64_wf. by apply memset_wf.
  - split; [done|split; [done|]]. simpl. fold m'. unfold m' at 2. rewrite load64_store64_eq, wrap64_small by done. fold m'.
    eapply freelist_rep_ext; [|done]. intros q a Hq Ha. simpl. apply Hout. intros Hin.
    apply Hp. pose proof (freelist_rep_valid _ _ _ _ _ Hr Hq) as [Hqa _].
    by rewrite (in_page_disjoint p q a).
Qed.

(** [kfree] rejects everything that is not the address of a page the
    allocator may hold. *)
Lemma kfree_invalid p s : ~ valid_page kend p -> kfree kend p s = Panic "kfree".
Proof using.
  intros Hv. unfold kfree.
  destruct (_ || _) eqn:E; [done|]. b2p. exfalso. apply Hv. unfold valid_page, page_aligned. lia.
Qed.

(** ** Initialisation *)

Fixpoint pages (p : Z) (n : nat) : list Z :=
  match n with
  | O => []
  | S n' => p :: pages (p + PGSIZE) n'
  end.

Lemma elem_of_pages n : forall p q,
  q ∈ pages p n <-> exists i, 0 <= i < Z.of_nat n /\ q = p + i * PGSIZE.
Proof.
  induction n as [|n IH]; intros p q; cbn [pages].
  - split; [by intros ?%not_elem_of_nil|]. intros (i & ? & _). lia.
  - rewrite elem_of_cons, IH. split.
    + intros [->|(i & ? & ->)]; [exists 0; lia|exists (i + 1); lia].
    + intros (i & ? & ->). destruct (decide (i = 0)) as [->|]; [left; lia|].
      right. exists (i - 1). lia.
Qed.

Lemma wp_freerange_loop n : forall p pa_end s l,
  kinv kend s l -> page_aligned p -> kend <= p -> pa_end <= PHYSTOP ->
  p + Z.of_nat n * PGSIZE <= pa_end < p + Z.of_nat n * PGSIZE + PGSIZE ->
  (forall q, q ∈ l -> q < p) ->
  wp (freerange_loop kend n p pa_end) (fun _ s' => kinv kend s' (rev (pages p n) ++ l)) s.
Proof using Hend.
  induction n as [|n IH]; intros p pa_end s l Hk Hal Hke Hps He Hl; cbn [freerange_loop].
  - replace (p + PGSIZE <=? pa_end) with false by lia. by apply wp_ret.
  - unfold PGSIZE in He. replace (p + PGSIZE <=? pa_end) with true by (unfold PGSIZE; lia).
    apply wp_bind. eapply wp_kfree; [done|split; [done|lia]| |].
    + intros Hin. apply Hl in Hin. lia.
    + intros s' Hk' _. cbn [pages rev]. rewrite <- (assoc_L (++)).
      apply (IH (p + PGSIZE) pa_end s' (p :: l)); [done| |unfold PGSIZE; lia|done|unfold PGSIZE; lia|].
      * unfold page_aligned, PGSIZE in *. dlia.
      * unfold PGSIZE. intros q [->|Hq%Hl]%elem_of_cons; lia.
Qed.

Lemma wp_kinit s :
  kend <= PHYSTOP -> mem_wf (mem s) -> freelist (kmem s) = 0 ->
  wp (kinit kend) (fun _ s' => exists l, kinv kend s' l /\ forall p, p ∈ l <-> valid_page kend p) s.
Proof using Hend.
  intros Hke Hw Hf. unfold kinit. apply wp_bind, wp_modify. unfold freerange.
  assert (Hr : PGROUNDUP kend = PGSIZE * ((kend + PGSIZE - 1) / PGSIZE)).
  { apply PGROUNDUP_spec. unfold PHYSTOP, KERNBASE, PGSIZE in *. lia. }
  set (p := PGROUNDUP kend) in *. set (n := Z.to_nat ((PHYSTOP - p) / PGSIZE)).
  change PGSIZE with 4096 in *. change PHYSTOP with 2281701376 in *.
  assert (Hpe : p <= 2281701376 /\ kend <= p < kend + 4096 /\ p mod 4096 = 0) by dlia.
  assert (Hn : Z.of_nat n = (2281701376 - p) / 4096) by (unfold n; rewrite Z2Nat.id; dlia).
  eapply wp_conseq.
  - apply (wp_freerange_loop n p 2281701376 _ []); [|exact (proj2 (proj2 Hpe))|lia|done|change PGSIZE with 4096; dlia|].
    + split_and!; [done|done|constructor|by simpl].
    + by intros q ?%not_elem_of_nil.
  - intros [] s' Hk. rewrite app_nil_r in Hk. eexists. split; [exact Hk|].
    intros q. rewrite list_elem_of_In, <- in_rev, <- list_elem_of_In, elem_of_pages.
    unfold valid_page, page_aligned. change PGSIZE with 4096. change PHYSTOP with 2281701376.
    split.
    + intros (i & Hi & ->). dlia.
    + intros [Hq1 Hq2]. exists ((q - p) / 4096). dlia.
Qed.

(** ** Clients of the allocator

    The rest of the kernel allocates pages, frees pages it was given, and
    writes in pages it holds.  [U] is the set of pages handed out. *)

Inductive client_step : kst * gset Z -> kst * gset Z -> Prop :=
| client_alloc s U r s' :
    kalloc s = Ok r s' ->
    client_step (s, U) (s', if decide (r = 0) then U else {[r]} ∪ U)
| client_free s U p s' :
    p ∈ U -> kfree kend p s = Ok tt s' -> client_step (s, U) (s', U ∖ {[p]})
| client_write s U p a v :
    p ∈ U -> in_page p a -> client_step (s, U) (set_mem (store8 (mem s) a v) s, U).

(** Every page is either free or handed out, never both. *)
Definition client_inv (st : kst * gset Z) : Prop :=
  exists l, kinv kend (fst st) l /\ (forall p, p ∈ l -> p ∉ snd st) /\
            (forall p, valid_page kend p <-> p ∈ l \/ p ∈ snd st).

Lemma client_step_inv st st' : client_inv st -> client_step st st' -> client_inv st'.
Proof using Hend.
  intros (l & Hk & Hd & Hv) Hst. destruct Hst as [s U r s' Hr|s U p s' Hp Hf|s U p a v Hp Ha]; simpl in *.
  - assert (wp kalloc (fun r s' => client_inv (s', if decide (r = 0) then U else {[r]} ∪ U)) s) as Hw.
    { eapply wp_kalloc; [exact Hk| |].
      - intros ->. exists []. rewrite decide_True by done. auto.
      - intros p l' s1 -> Hk1 Hvp Hpl _. exists l'. simpl.
        rewrite decide_False by (by apply valid_page_nonzero). split_and!; [done| |].
        + intros q Hq. pose proof (Hd q). set_solver.
        + intros q. rewrite Hv. set_solver. }
    unfold wp in Hw. by rewrite Hr in Hw.
  - assert (wp (kfree kend p) (fun _ s' => client_inv (s', U ∖ {[p]})) s) as Hw.
    { eapply wp_kfree; [exact Hk|apply Hv; by right|by intros ?%Hd|].
      intros s1 Hk1 _. exists (p :: l). simpl. split_and!; [done|set_solver|].
      intros q. rewrite Hv. destruct (decide (q = p)); set_solver. }
    unfold wp in Hw. by rewrite Hf in Hw.
  - exists l. simpl. split_and!; [|done|done]. apply (kinv_ext kend s); simpl; [done| | |done].
    + apply store8_wf, Hk.
    + intros q b Hq Hb. apply load8_store8_ne. intros <-. apply (Hd q Hq).
      pose proof (freelist_rep_valid _ _ _ _ _ (proj2 (proj2 (proj2 Hk))) Hq) as [Hqa _].
      destruct (proj2 (Hv p) (or_intror Hp)) as [Hpa _].
      by rewrite (in_page_disjoint q p a).
Qed.

Lemma client_run_inv boot s0 s U :
  kend <= PHYSTOP -> mem_wf (mem boot) -> freelist (kmem boot) = 0 ->
  kinit kend boot = Ok tt s0 -> rtc client_step (s0, ∅) (s, U) -> client_inv (s, U).
Proof using Hend.
  intros Hke Hw Hf Hi Hr. pose proof (wp_kinit boot Hke Hw Hf) as H0.
  unfold wp in H0. rewrite Hi in H0. destruct H0 as (l & Hk & Hl).
  assert (client_inv (s0, ∅)) as HI.
  { exists l. simpl. split_and!; [done|set_solver|]. intros p. rewrite <- Hl. set_solver. }
  remember (s, U) as st eqn:E. clear E. induction Hr; eauto using client_step_inv.
Qed.

(** C11. After [kinit], along any sequence of allocations, frees and writes by
    clients: [kalloc] always returns; it returns 0 only when every page
    between [end] and [PHYSTOP] is handed out; otherwise it returns a page
    that nobody holds, filled with 5, and changes no byte of any page that is
    handed out; and freeing a page that is held never panics. *)
Theorem kalloc_exclusive boot s0 s U :
  kend <= PHYSTOP -> mem_wf (mem boot) -> freelist (kmem boot) = 0 ->
  kinit kend boot = Ok tt s0 -> rtc client_step (s0, ∅) (s, U) ->
  (exists r s', kalloc s = Ok r s' /\
     ((r = 0 /\ s' = s /\ forall p, valid_page kend p -> p ∈ U) \/
      (valid_page kend r /\ r ∉ U /\ (forall a, in_page r a -> load8 (mem s') a = 5) /\
       forall p a, p ∈ U -> in_page p a -> load8 (mem s') a = load8 (mem s) a))) /\
  (forall p, p ∈ U -> exists s', kfree kend p s = Ok tt s').
Proof using Hend.
  intros Hke Hw Hf Hi Hr.
  destruct (client_run_inv boot s0 s U Hke Hw Hf Hi Hr) as (l & Hk & Hd & Hv). simpl in *. split.
  - apply wp_iff. eapply wp_kalloc; [exact Hk| |].
    + intros ->. left. split_and!; [done..|]. intros p. rewrite Hv. set_solver.
    + intros p l' s' -> Hk' Hvp _ Hm. right. split_and!; [done|apply Hd; by left| |].
      * intros a Ha. rewrite Hm. by case_decide.
      * intros q a Hq Ha. rewrite Hm. case_decide as Hin; [|done]. exfalso.
        assert (valid_page kend q) as [Hqa _] by (apply Hv; by right). destruct Hvp as [Hpa _].
        apply (Hd p); [by left|]. by rewrite (in_page_disjoint p q a).
  - intros p Hp. assert (wp (kfree kend p) (fun _ _ => True) s) as H.
    { eapply wp_kfree; [exact Hk|apply Hv; by right|by intros ?%Hd|done]. }
    apply wp_iff in H as ([] & s' & -> & _). eauto.
Qed.
End specs.

Lemma kalloc_exclusive_witness :
  exists s0, kinit (PHYSTOP - 2 * PGSIZE) (Kst ∅ (Kmem spin_free 0)) = Ok tt s0 /\
  (exists r s', kalloc s0 = Ok r s' /\
     ((r = 0 /\ s' = s0 /\ forall p, valid_page (PHYSTOP - 2 * PGSIZE) p -> p ∈ (∅ : gset Z)) \/
      (valid_page (PHYSTOP - 2 * PGSIZE) r /\ r ∉ (∅ : gset Z) /\
       (forall a, in_page r a -> load8 (mem s') a = 5) /\
       forall p a, p ∈ (∅ : gset Z) -> in_page p a -> load8 (mem s') a = load8 (mem s0) a))) /\
  (forall p, p ∈ (∅ : gset Z) -> exists s', kfree (PHYSTOP - 2 * PGSIZE) p s0 = Ok tt s').
Proof.
  assert (0 < PHYSTOP - 2 * PGSIZE) as Hend by done.
  assert (PHYSTOP - 2 * PGSIZE <= PHYSTOP) as Hke by (unfold PGSIZE; lia).
  assert (mem_wf ∅) as Hw by (intros a; vm_compute; intuition discriminate).
  pose proof (wp_kinit _ Hend (Kst ∅ (Kmem spin_free 0)) Hke Hw eq_refl) as H.
  apply wp_iff in H as ([] & s0 & Hrun & _). exists s0. split; [done|].
  apply (kalloc_exclusive (PHYSTOP - 2 * PGSIZE) Hend (Kst ∅ (Kmem spin_free 0)) s0 s0 ∅); try done.
Defined.
