(* ===== verification/Vm.v ===== *)
(** * Virtual memory (kernel/vm.c)

    Page tables live in physical memory, page-table pages come from the page
    allocator.  All routines run on the allocator's state [kst]. *)

From S2P Require Import Prelude Riscv Memory Spinlock Kalloc.

(** Memory accesses of kernel code. *)
Definition kload64 (a : Z) : M kst Z := gets (fun s => load64 (mem s) a).
Definition kstore64 (a v : Z) : M kst unit := modify (fun s => set_mem (store64 (mem s) a v) s).
Definition kload8 (a : Z) : M kst Z := gets (fun s => load8 (mem s) a).
Definition kstore8 (a v : Z) : M kst unit := modify (fun s => set_mem (store8 (mem s) a v) s).
Definition kmemmove (dst src n : Z) : M kst unit :=
  modify (fun s => set_mem (memmove (mem s) dst src n) s).

Section vm.
Context (kend : Z).

(** The loop of [walk] over [level] = 2, 1; [level] = 0 is the final
    [return &pagetable[PX(0, va)]]. *)
Fixpoint walk_loop (level : nat) (pagetable va : Z) (alloc : bool) : M kst Z :=
  match level with
  | O => ret (pagetable + 8 * PX 0 va)
  | S level' =>
      let pte := pagetable + 8 * PX (Z.of_nat level) va in
      let! v := kload64 pte in
      if pte_has v PTE_V then walk_loop level' (PTE2PA v) va alloc
      else if negb alloc then ret 0 else
      let! pagetable := kalloc in
      if pagetable =? 0 then ret 0 else
      kmemset pagetable 0 PGSIZE ;;
      kstore64 pte (Z.lor (PA2PTE pagetable) PTE_V) ;;
      walk_loop level' pagetable va alloc
  end.
Definition walk (pagetable va : Z) (alloc : bool) : M kst Z :=
  if MAXVA <=? va then panic "walk" else walk_loop 2 pagetable va alloc.

Definition walkaddr (pagetable va : Z) : M kst Z :=
  if MAXVA <=? va then ret 0 else
  let! pte := walk pagetable va false in
  if pte =? 0 then ret 0 else
  let! v := kload64 pte in
  if negb (pte_has v PTE_V) then ret 0 else
  if negb (pte_has v PTE_U) then ret 0 else
  ret (PTE2PA v).

(** The loop of [mappages].  The fuel is the number of pages from [a] to
    [last]; with [last < a] ([size] = 0) the C loop runs away upwards, which
    the model reports as [NoFuel]. *)
Fixpoint mappages_loop (fuel : nat) (pagetable a last pa perm : Z) : M kst Z :=
  match fuel with
  | O => nofuel
  | S fuel' =>
      let! pte := walk pagetable a true in
      if pte =? 0 then ret (-1) else
      let! v := kload64 pte in
      if pte_has v PTE_V then panic "remap" else
      kstore64 pte (Z.lor (Z.lor (PA2PTE pa) perm) PTE_V) ;;
      if a =? last then ret 0
      else mappages_loop fuel' pagetable (wrap64 (a + PGSIZE)) last (wrap64 (pa + PGSIZE)) perm
  end.
Definition mappages (pagetable va size pa perm : Z) : M kst Z :=
  let a := PGROUNDDOWN va in
  let last := PGROUNDDOWN (wrap64 (va + size - 1)) in
  mappages_loop (Z.to_nat ((last - a) / PGSIZE + 1)) pagetable a last pa perm.

Definition kvmmap (kernel_pagetable va pa sz perm : Z) : M kst unit :=
  let! r := mappages kernel_pagetable va sz pa perm in
  if negb (r =? 0) then panic "kvmmap" else ret tt.

Definition kvmpa (kernel_pagetable va : Z) : M kst Z :=
  let off := va mod PGSIZE in
  let! pte := walk kernel_pagetable va false in
  if pte =? 0 then panic "kvmpa" else
  let! v := kload64 pte in
  if negb (pte_has v PTE_V) then panic "kvmpa" else
  ret (wrap64 (PTE2PA v + off)).

Fixpoint uvmunmap_loop (fuel : nat) (pagetable a lim : Z) (do_free : bool) : M kst unit :=
  if a <? lim then
    match fuel with
    | O => nofuel
    | S fuel' =>
        let! pte := walk pagetable a false in
        if pte =? 0 then panic "uvmunmap: walk" else
        let! v := kload64 pte in
        if negb (pte_has v PTE_V) then panic "uvmunmap: not mapped" else
        if PTE_FLAGS v =? PTE_V then panic "uvmunmap: not a leaf" else
        (if do_free then kfree kend (PTE2PA v) else ret tt) ;;
        kstore64 pte 0 ;;
        uvmunmap_loop fuel' pagetable (wrap64 (a + PGSIZE)) lim do_free
    end
  else ret tt.
Definition uvmunmap (pagetable va npages : Z) (do_free : bool) : M kst unit :=
  if negb (va mod PGSIZE =? 0) then panic "uvmunmap: not aligned" else
  uvmunmap_loop (Z.to_nat npages) pagetable va (wrap64 (va + npages * PGSIZE)) do_free.

Definition uvmcreate : M kst Z :=
  let! pagetable := kalloc in
  if pagetable =? 0 then ret 0 else
  kmemset pagetable 0 PGSIZE ;;
  ret pagetable.

(** [src] is the address of the [initcode] array. *)
Definition uvminit (pagetable src sz : Z) : M kst unit :=
  if PGSIZE <=? sz then panic "inituvm: more than a page" else
  let! mem := kalloc in
  kmemset mem 0 PGSIZE ;;
  mappages pagetable 0 PGSIZE mem (Z.lor (Z.lor (Z.lor PTE_W PTE_R) PTE_X) PTE_U) ;;
  kmemmove mem src sz.

Definition uvmdealloc (pagetable oldsz newsz : Z) : M kst Z :=
  if oldsz <=? newsz then ret oldsz else
  (if PGROUNDUP newsz <? PGROUNDUP oldsz then
     let npages := s32 ((PGROUNDUP oldsz - PGROUNDUP newsz) / PGSIZE) in
     uvmunmap pagetable (PGROUNDUP newsz) npages true
   else ret tt) ;;
  ret newsz.

Fixpoint uvmalloc_loop (fuel : nat) (pagetable oldsz newsz a : Z) : M kst Z :=
  if a <? newsz then
    match fuel with
    | O => nofuel
    | S fuel' =>
        let! mem := kalloc in
        if mem =? 0 then uvmdealloc pagetable a oldsz ;; ret 0 else
        kmemset mem 0 PGSIZE ;;
        let! r := mappages pagetable a PGSIZE mem
                    (Z.lor (Z.lor (Z.lor PTE_W PTE_X) PTE_R) PTE_U) in
        if negb (r =? 0) then
          kfree kend mem ;; uvmdealloc pagetable a oldsz ;; ret 0
        else uvmalloc_loop fuel' pagetable oldsz newsz (wrap64 (a + PGSIZE))
    end
  else ret newsz.
Definition uvmalloc (pagetable oldsz newsz : Z) : M kst Z :=
  if newsz <? oldsz then ret oldsz else
  let oldsz := PGROUNDUP oldsz in
  uvmalloc_loop (Z.to_nat ((newsz - oldsz) / PGSIZE + 1)) pagetable oldsz newsz oldsz.

(** The recursion of [freewalk] goes one level down the tree; the fuel is the
    number of levels. *)
Fixpoint freewalk (levels : nat) (pagetable : Z) : M kst unit :=
  match levels with
  | O => nofuel
  | S levels' =>
      for_each (seqZ 0 512) (fun i =>
        let! pte := kload64 (pagetable + 8 * i) in
        if pte_has pte PTE_V && (Z.land pte (Z.lor (Z.lor PTE_R PTE_W) PTE_X) =? 0) then
          freewalk levels' (PTE2PA pte) ;;
          kstore64 (pagetable + 8 * i) 0
        else if pte_has pte PTE_V then panic "freewalk: leaf"
        else ret tt) ;;
      kfree kend pagetable
  end.

Definition uvmfree (pagetable sz : Z) : M kst unit :=
  (if 0 <? sz then uvmunmap pagetable 0 (PGROUNDUP sz / PGSIZE) true else ret tt) ;;
  freewalk 3 pagetable.

(** [err:] of [uvmcopy] unmaps the [i / PGSIZE] pages copied so far. *)
Fixpoint uvmcopy_loop (fuel : nat) (old new sz i : Z) : M kst Z :=
  if i <? sz then
    match fuel with
    | O => nofuel
    | S fuel' =>
        let! pte := walk old i false in
        if pte =? 0 then panic "uvmcopy: pte should exist" else
        let! v := kload64 pte in
        if negb (pte_has v PTE_V) then panic "uvmcopy: page not present" else
        let pa := PTE2PA v in
        let flags := PTE_FLAGS v in
        let! mem := kalloc in
        if mem =? 0 then uvmunmap new 0 (i / PGSIZE) true ;; ret (-1) else
        kmemmove mem pa PGSIZE ;;
        let! r := mappages new i PGSIZE mem flags in
        if negb (r =? 0) then
          kfree kend mem ;; uvmunmap new 0 (i / PGSIZE) true ;; ret (-1)
        else uvmcopy_loop fuel' old new sz (wrap64 (i + PGSIZE))
    end
  else ret 0.
Definition uvmcopy (old new sz : Z) : M kst Z :=
  uvmcopy_loop (Z.to_nat (sz / PGSIZE + 1)) old new sz 0.

Definition uvmclear (pagetable va : Z) : M kst unit :=
  let! pte := walk pagetable va false in
  if pte =? 0 then panic "uvmclear" else
  let! v := kload64 pte in
  kstore64 pte (Z.land v (wrap64 (Z.lnot PTE_U))).

Fixpoint copyout_loop (fuel : nat) (pagetable dstva src len : Z) : M kst Z :=
  if 0 <? len then
    match fuel with
    | O => nofuel
    | S fuel' =>
        let va0 := PGROUNDDOWN dstva in
        let! pa0 := walkaddr pagetable va0 in
        if pa0 =? 0 then ret (-1) else
        let n := PGSIZE - (dstva - va0) in
        let n := if len <? n then len else n in
        kmemmove (pa0 + (dstva - va0)) src n ;;
        copyout_loop fuel' pagetable (wrap64 (va0 + PGSIZE)) (src + n) (len - n)
    end
  else ret 0.
Definition copyout (pagetable dstva src len : Z) : M kst Z :=
  copyout_loop (Z.to_nat (len / PGSIZE + 2)) pagetable dstva src len.

Fixpoint copyin_loop (fuel : nat) (pagetable dst srcva len : Z) : M kst Z :=
  if 0 <? len then
    match fuel with
    | O => nofuel
    | S fuel' =>
        let va0 := PGROUNDDOWN srcva in
        let! pa0 := walkaddr pagetable va0 in
        if pa0 =? 0 then ret (-1) else
        let n := PGSIZE - (srcva - va0) in
        let n := if len <? n then len else n in
        kmemmove dst (pa0 + (srcva - va0)) n ;;
        copyin_loop fuel' pagetable (dst + n) (wrap64 (va0 + PGSIZE)) (len - n)
    end
  else ret 0.
Definition copyin (pagetable dst srcva len : Z) : M kst Z :=
  copyin_loop (Z.to_nat (len / PGSIZE + 2)) pagetable dst srcva len.

(** The inner loop of [copyinstr] on one page: at most [n] bytes from [p] to
    [dst]; returns whether the NUL was found and the advanced [dst]. *)
Fixpoint copyinstr_page (n : nat) (p dst : Z) : M kst (bool * Z) :=
  match n with
  | O => ret (false, dst)
  | S n' =>
      let! c := kload8 p in
      if c =? 0 then kstore8 dst 0 ;; ret (true, dst)
      else kstore8 dst c ;; copyinstr_page n' (p + 1) (dst + 1)
  end.
Fixpoint copyinstr_loop (fuel : nat) (pagetable dst srcva max : Z) : M kst Z :=
  if 0 <? max then
    match fuel with
    | O => nofuel
    | S fuel' =>
        let va0 := PGROUNDDOWN srcva in
        let! pa0 := walkaddr pagetable va0 in
        if pa0 =? 0 then ret (-1) else
        let n := PGSIZE - (srcva - va0) in
        let n := if max <? n then max else n in
        let! r := copyinstr_page (Z.to_nat n) (pa0 + (srcva - va0)) dst in
        let '(got_null, dst') := r in
        if got_null then ret 0
        else copyinstr_loop fuel' pagetable dst' (wrap64 (va0 + PGSIZE)) (max - n)
    end
  else ret (-1).
Definition copyinstr (pagetable dst srcva max : Z) : M kst Z :=
  copyinstr_loop (Z.to_nat (max / PGSIZE + 2)) pagetable dst srcva max.
End vm.
