(* ===== verification/PageTable.v ===== *)
(** * The page-table tree and what [walk] does to it

    The ghost state of a page table is the shape of its tree: the root page,
    the level-1 pages by level-2 index and the level-0 pages by the two upper
    indices.  [pt_rep] says that physical memory holds that tree.  The
    abstract meaning of a page table is the function [leaf] from virtual
    addresses to page-table entries. *)

From S2P Require Import Prelude Riscv Memory Spinlock Kalloc Vm.

Record ptree := PTree { root : Z; l1 : gmap Z Z; l0 : gmap (Z * Z) Z }.

Definition pt_pages (t : ptree) : list Z :=
  root t :: (map_to_list (l1 t)).*2 ++ (map_to_list (l0 t)).*2.

(** A page-table page whose used entries point to the pages [ch]. *)
Definition table_rep (m : gmap Z Z) (p : Z) (ch : Z -> option Z) : Prop :=
  forall i, 0 <= i < 512 ->
    match ch i with
    | Some q => load64 m (p + 8 * i) = Z.lor (PA2PTE q) PTE_V
    | None => pte_has (load64 m (p + 8 * i)) PTE_V = false
    end.

Definition pt_rep (m : gmap Z Z) (t : ptree) : Prop :=
  table_rep m (root t) (fun i => l1 t !! i) /\
  (forall i p, l1 t !! i = Some p -> table_rep m p (fun j => l0 t !! (i, j))) /\
  (forall i j q, l0 t !! (i, j) = Some q -> is_Some (l1 t !! i)) /\
  ((forall i p, l1 t !! i = Some p -> 0 <= i < 256) /\
   (forall i j q, l0 t !! (i, j) = Some q -> 0 <= j < 512)).

(** Address and contents of the leaf entry for [va]; 0 where a table is
    missing. *)
Definition pte_addr (t : ptree) (va : Z) : option Z :=
  (fun q => q + 8 * PX 0 va) <$> l0 t !! (PX 2 va, PX 1 va).
Definition leaf (m : gmap Z Z) (t : ptree) (va : Z) : Z :=
  match pte_addr t va with Some a => load64 m a | None => 0 end.

(** Bytes outside the pages [P] are untouched. *)
Definition unchanged_outside (P : list Z) (m m' : gmap Z Z) : Prop :=
  forall a, (forall p, p ∈ P -> ~ in_page p a) -> load8 m' a = load8 m a.

Section pt.
Context (kend : Z) (Hend : 0 < kend).

(** A page table next to the allocator: its pages are distinct, valid, and
    not on the free list. *)
Definition vinv (s : kst) (l : list Z) (t : ptree) : Prop :=
  kinv kend s l /\ pt_rep (mem s) t /\
  NoDup (pt_pages t ++ l) /\ (forall p, p ∈ pt_pages t -> valid_page kend p).

Lemma elem_of_pt_pages t p :
  p ∈ pt_pages t <->
  p = root t \/ (exists i, l1 t !! i = Some p) \/ (exists ij, l0 t !! ij = Some p).
Proof.
  unfold pt_pages. rewrite elem_of_cons, elem_of_app, !list_elem_of_fmap.
  split; (intros [?|[H|H]]; [by left|right; left|right; right]).
  - destruct H as ([i q] & -> & H%elem_of_map_to_list). eauto.
  - destruct H as ([i q] & -> & H%elem_of_map_to_list). eauto.
  - destruct H as (i & H). exists (i, p). by rewrite elem_of_map_to_list.
  - destruct H as (i & H). exists (i, p). by rewrite elem_of_map_to_list.
Qed.

(** ** Entries of pages *)

Lemma entry_in_page p i b : 0 <= i < 512 -> p + 8 * i <= b < p + 8 * i + 8 -> in_page p b.
Proof. unfold in_page, PGSIZE. lia. Qed.

Lemma table_rep_ext m m' p ch :
  (forall b, in_page p b -> load8 m' b = load8 m b) -> table_rep m p ch -> table_rep m' p ch.
Proof.
  intros He H i Hi. specialize (H i Hi).
  assert (load64 m' (p + 8 * i) = load64 m (p + 8 * i)) as ->; [|done].
  apply load64_ext. intros b Hb. eapply He, entry_in_page; eauto.
Qed.

Lemma pt_rep_ext m m' t :
  (forall p b, p ∈ pt_pages t -> in_page p b -> load8 m' b = load8 m b) ->
  pt_rep m t -> pt_rep m' t.
Proof.
  intros He (H2 & H1 & Hd). split; [|split; [|done]].
  - eapply table_rep_ext, H2. intros b Hb. eapply He, Hb. apply elem_of_pt_pages. auto.
  - intros i p Hp. eapply table_rep_ext, H1, Hp. intros b Hb.
    eapply He, Hb. apply elem_of_pt_pages. eauto.
Qed.

Lemma valid_page_entry p : valid_page kend p -> page_aligned p /\ 0 <= p < 2^56.
Proof using Hend. intros [Ha Hr]. split; [done|]. unfold PHYSTOP, KERNBASE in Hr. lia. Qed.

(** An inner entry leads to the page it was made from. *)
Lemma inner_entry q :
  valid_page kend q ->
  pte_has (Z.lor (PA2PTE q) PTE_V) PTE_V = true /\ PTE2PA (Z.lor (PA2PTE q) PTE_V) = q.
Proof using Hend.
  intros [Ha Hr]%valid_page_entry. split; [apply pte_has_V_lor|].
  apply PTE2PA_PA2PTE; [done|done|]. change PTE_V with 1. lia.
Qed.

Lemma walk_loop_missing level pt va s :
  pte_has (load64 (mem s) (pt + 8 * PX (Z.of_nat (S level)) va)) PTE_V = false ->
  walk_loop (S level) pt va true s =
  (let! pagetable := kalloc in
   if pagetable =? 0 then ret 0 else
   kmemset pagetable 0 PGSIZE ;;
   kstore64 (pt + 8 * PX (Z.of_nat (S level)) va) (Z.lor (PA2PTE pagetable) PTE_V) ;;
   walk_loop level pagetable va true) s.
Proof. intros H. cbn [walk_loop]. unfold bind at 1, kload64, gets. by rewrite H. Qed.

Lemma walk_loop_step level pt va alloc s p :
  load64 (mem s) (pt + 8 * PX (Z.of_nat (S level)) va) = Z.lor (PA2PTE p) PTE_V ->
  valid_page kend p ->
  walk_loop (S level) pt va alloc s = walk_loop level p va alloc s.
Proof using Hend.
  intros Hp Hv. destruct (inner_entry p Hv) as [H1 H2].
  cbn [walk_loop]. unfold bind, kload64, gets. by rewrite Hp, H1, H2.
Qed.

(** [walk] without allocation finds the leaf entry and changes nothing. *)
Lemma walk_noalloc s l t va :
  vinv s l t -> 0 <= va < MAXVA ->
  walk (root t) va false s = Ok (default 0 (pte_addr t va)) s.
Proof using Hend.
  intros (_ & (H2 & H1 & Hd) & _ & Hv) Hva. unfold walk.
  replace (MAXVA <=? va) with false by lia.
  pose proof (H2 _ (PX_range 2 va ltac:(lia))) as He2. cbv beta in He2. unfold pte_addr.
  destruct (l1 t !! PX 2 va) as [p1|] eqn:E1.
  - rewrite (walk_loop_step _ _ _ _ _ p1) by
      (done || apply Hv, elem_of_pt_pages; eauto).
    pose proof (H1 _ _ E1 _ (PX_range 1 va ltac:(lia))) as He1. cbv beta in He1.
    destruct (l0 t !! (PX 2 va, PX 1 va)) as [p0|] eqn:E0.
    + rewrite (walk_loop_step _ _ _ _ _ p0) by (done || apply Hv, elem_of_pt_pages; eauto). done.
    + cbn [walk_loop]. unfold bind, kload64, gets. change (Z.of_nat 1) with 1. by rewrite He1.
  - assert (l0 t !! (PX 2 va, PX 1 va) = None) as ->.
    { destruct (l0 t !! (PX 2 va, PX 1 va)) eqn:E0; [|done]. apply (proj1 Hd) in E0 as [? ?]. congruence. }
    cbn [walk_loop]. unfold bind, kload64, gets. change (Z.of_nat 2) with 2. by rewrite He2.
Qed.

(** ** Distinct pages of a tree *)

Lemma map_values_inj `{Countable K} (m : gmap K Z) i i' p :
  NoDup (map_to_list m).*2 -> m !! i = Some p -> m !! i' = Some p -> i = i'.
Proof.
  intros N H1 H2. apply elem_of_map_to_list in H1, H2.
  apply list_elem_of_lookup in H1 as (k & H1), H2 as (k' & H2).
  assert (k = k') as ->.
  { eapply (NoDup_lookup _ _ _ p N); rewrite list_lookup_fmap, ?H1, ?H2; done. }
  congruence.
Qed.

Lemma pt_pages_NoDup t :
  NoDup (pt_pages t) ->
  (forall i p, l1 t !! i = Some p -> p <> root t) /\
  (forall ij q, l0 t !! ij = Some q -> q <> root t) /\
  (forall i p ij q, l1 t !! i = Some p -> l0 t !! ij = Some q -> p <> q) /\
  (forall i i' p, l1 t !! i = Some p -> l1 t !! i' = Some p -> i = i') /\
  (forall ij ij' p, l0 t !! ij = Some p -> l0 t !! ij' = Some p -> ij = ij').
Proof.
  unfold pt_pages. rewrite NoDup_cons, elem_of_app, NoDup_app. intros (Hr & N1 & Hd & N0).
  assert (E1 : forall i p, l1 t !! i = Some p -> p ∈ (map_to_list (l1 t)).*2).
  { intros i p H. apply list_elem_of_fmap. exists (i, p). by rewrite elem_of_map_to_list. }
  assert (E0 : forall ij p, l0 t !! ij = Some p -> p ∈ (map_to_list (l0 t)).*2).
  { intros i p H. apply list_elem_of_fmap. exists (i, p). by rewrite elem_of_map_to_list. }
  split_and!.
  - intros i p H ->. eauto.
  - intros ij q H ->. eauto.
  - intros i p ij q H H' ->. eapply Hd; eauto.
  - intros i i' p. by apply map_values_inj.
  - intros ij ij' p. by apply map_values_inj.
Qed.

(** ** Allocating one page-table page *)

(** What the four lines of [walk] that create a table do to memory: [p] is
    the fresh page, entry [i] of page [r] is set to [v]. *)
Definition table_added (m m' : gmap Z Z) (p r i v : Z) : Prop :=
  (forall b, ~ in_page p b -> ~ in_page r b -> load8 m' b = load8 m b) /\
  (forall j, 0 <= j < 512 -> j <> i -> load64 m' (r + 8 * j) = load64 m (r + 8 * j)) /\
  load64 m' (r + 8 * i) = v /\
  (forall j, 0 <= j < 512 -> load64 m' (p + 8 * j) = 0).

Lemma table_added_intro m mk p r i v :
  (forall a, load8 mk a = if decide (in_page p a) then 5 else load8 m a) ->
  page_aligned p -> page_aligned r -> p <> r -> 0 <= i < 512 -> 0 <= v < 2^64 ->
  table_added m (store64 (memset mk p 0 PGSIZE) (r + 8 * i) v) p r i v.
Proof.
  intros Hk Hp Hr Hne Hi Hv.
  assert (Hd : forall b, in_page r b -> ~ in_page p b).
  { intros b Hb Hb'. apply Hne. by apply (in_page_disjoint p r b). }
  assert (Hout : forall b, ~ in_page p b -> load8 (memset mk p 0 PGSIZE) b = load8 m b).
  { intros b Hb. rewrite load8_memset, Hk. unfold in_page in *. by repeat case_decide. }
  split_and!.
  - intros b Hb Hb'. rewrite load8_store64_ne; [by apply Hout|].
    intros ?. apply Hb'. by apply (entry_in_page r i).
  - intros j Hj Hji. rewrite load64_store64_ne by lia.
    apply load64_ext. intros b Hb. apply Hout, Hd. by apply (entry_in_page r j).
  - by rewrite load64_store64_eq, wrap64_small.
  - intros j Hj. rewrite load64_store64_ne.
    + apply load64_memset_zero; unfold PGSIZE; lia.
    + unfold page_aligned, PGSIZE in *. dlia.
Qed.

Lemma wp_alloc_table s l r i (K : Z -> M kst Z) (Q : Z -> kst -> Prop) :
  kinv kend s l -> valid_page kend r -> r ∉ l -> 0 <= i < 512 ->
  (l = [] -> Q 0 s) ->
  (forall p l' s', l = p :: l' -> kinv kend s' l' -> valid_page kend p -> p ∉ l' ->
     table_added (mem s) (mem s') p r i (Z.lor (PA2PTE p) PTE_V) -> wp (K p) Q s') ->
  wp (let! pt := kalloc in
      if pt =? 0 then ret 0 else
      kmemset pt 0 PGSIZE ;;
      kstore64 (r + 8 * i) (Z.lor (PA2PTE pt) PTE_V) ;;
      K pt) Q s.
Proof using Hend.
  intros Hk Hr Hrl Hi Hnil Hcons. apply wp_bind. eapply wp_kalloc; [done|exact Hk| |].
  { intros ->. by apply Hnil. }
  intros p l' s1 -> Hk1 Hvp Hpl Hm.
  pose proof (valid_page_nonzero kend Hend p Hvp). replace (p =? 0) with false by lia.
  apply wp_bind, wp_modify, wp_bind, wp_modify.
  assert (p <> r) as Hne by (intros ->; apply Hrl; by left).
  destruct (valid_page_entry _ Hvp) as [Hpa Hpr].
  assert (0 <= Z.lor (PA2PTE p) PTE_V < 2^64) as Hpte.
  { rewrite pte_spec by (done || change PTE_V with 1; lia). change PTE_V with 1.
    unfold PGSIZE. dlia. }
  assert (Hta := table_added_intro (mem s) (mem s1) p r i _ Hm Hpa (proj1 Hr) Hne Hi Hpte).
  apply (Hcons p l'); [done| |done|done|done].
  apply (kinv_ext kend s1); simpl; [done| | |done].
  - apply store64_wf, memset_wf. apply Hk1.
  - intros q a Hq Ha.
    assert (valid_page kend q) as [Hqa _].
    { destruct Hk1 as (_ & _ & _ & Hf). by eapply freelist_rep_valid. }
    assert (p <> q) by (by intros ->).
    assert (r <> q) by (intros ->; apply Hrl; by right).
    assert (~ in_page p a) by (intros Hin; apply (in_page_disjoint p q a) in Hin; done).
    assert (~ in_page r a) by (intros Hin; apply (in_page_disjoint r q a) in Hin; [done|apply Hr|done|done]).
    destruct Hta as (Hf & _). rewrite Hf by done. rewrite Hm. by case_decide.
Qed.

(** ** Growing the tree *)

Definition add_l1 (t : ptree) (i p : Z) : ptree := PTree (root t) (<[i := p]> (l1 t)) (l0 t).
Definition add_l0 (t : ptree) (ij : Z * Z) (p : Z) : ptree := PTree (root t) (l1 t) (<[ij := p]> (l0 t)).

(** The tree grew by pages of the free list; every mapping is the same. *)
Definition extends (s : kst) (l : list Z) (t : ptree) (s' : kst) (l' : list Z) (t' : ptree) : Prop :=
  vinv s' l' t' /\ root t' = root t /\ pt_pages t' ++ l' ≡ₚ pt_pages t ++ l /\
  (forall va, leaf (mem s') t' va = leaf (mem s) t va) /\
  (forall va a, pte_addr t va = Some a -> pte_addr t' va = Some a) /\
  unchanged_outside (pt_pages t ++ l) (mem s) (mem s').

Lemma extends_refl s l t : vinv s l t -> extends s l t s l t.
Proof. intros H. unfold extends, unchanged_outside. auto 10. Qed.

Lemma extends_trans s l t s1 l1' t1 s2 l2' t2 :
  extends s l t s1 l1' t1 -> extends s1 l1' t1 s2 l2' t2 -> extends s l t s2 l2' t2.
Proof.
  intros (H1 & R1 & P1 & L1 & A1 & U1) (H2 & R2 & P2 & L2 & A2 & U2). split_and!; [done|..].
  - congruence.
  - by rewrite P2.
  - intros va. by rewrite L2.
  - auto.
  - intros a Ha. rewrite U2; [by apply U1|]. intros p. rewrite P1. apply Ha.
Qed.

Lemma table_rep_added m m' p r i q ch :
  page_aligned p -> page_aligned r -> p <> r ->
  table_added m m' p r i (Z.lor (PA2PTE q) PTE_V) ->
  table_rep m r ch -> table_rep m' r (fun j => if decide (j = i) then Some q else ch j).
Proof.
  intros Hp Hr Hne (_ & Ho & Hi & _) H j Hj. case_decide; [by subst|].
  rewrite Ho by done. by apply H.
Qed.

Lemma table_rep_other m m' p r i v x ch :
  table_added m m' p r i v -> page_aligned p -> page_aligned r -> page_aligned x ->
  x <> p -> x <> r -> table_rep m x ch -> table_rep m' x ch.
Proof.
  intros (Hf & _) Hp Hr Hx Hxp Hxr. apply table_rep_ext. intros b Hb.
  apply Hf; intros Hb'.
  - apply Hxp. by apply (in_page_disjoint x p b).
  - apply Hxr. by apply (in_page_disjoint x r b).
Qed.

Lemma table_rep_fresh m m' p r i v :
  table_added m m' p r i v -> table_rep m' p (fun _ => None).
Proof. intros (_ & _ & _ & Hz) j Hj. by rewrite Hz. Qed.

Lemma load64_other m m' p r i v x j :
  table_added m m' p r i v -> page_aligned p -> page_aligned r -> page_aligned x ->
  x <> p -> x <> r -> 0 <= j < 512 -> load64 m' (x + 8 * j) = load64 m (x + 8 * j).
Proof.
  intros (Hf & _) Hp Hr Hx Hxp Hxr Hj. apply load64_ext. intros b Hb.
  apply (entry_in_page x j) in Hb; [|done].
  apply Hf; intros Hb'.
  - apply Hxp. by apply (in_page_disjoint x p b).
  - apply Hxr. by apply (in_page_disjoint x r b).
Qed.

Lemma table_rep_fun m p ch ch' : (forall j, ch j = ch' j) -> table_rep m p ch -> table_rep m p ch'.
Proof. intros He H j Hj. rewrite <- He. by apply H. Qed.

Lemma unchanged_table m m' p r i v P :
  table_added m m' p r i v -> p ∈ P -> r ∈ P -> unchanged_outside P m m'.
Proof. intros (Hf & _) Hp Hr a Ha. apply Hf; by apply Ha. Qed.

Section grow.
Context (s s' : kst) (l : list Z) (t : ptree) (p : Z).
Context (HI : vinv s (p :: l) t) (Hk : kinv kend s' l) (Hvp : valid_page kend p).

Lemma grow_out q : q ∈ pt_pages t -> q <> p.
Proof using HI.
  destruct HI as (_ & _ & Hnd & _). intros Hq ->.
  apply NoDup_app in Hnd as (_ & Hd & _). apply (Hd p Hq). by left.
Qed.

Lemma grow_aligned q : q ∈ pt_pages t -> page_aligned q.
Proof using HI. destruct HI as (_ & _ & _ & Hv). intros Hq. by apply Hv. Qed.

Lemma grow_NoDup : NoDup (pt_pages t).
Proof using HI. destruct HI as (_ & _ & Hnd & _). by apply NoDup_app in Hnd as (? & _). Qed.

Lemma extends_grow t' :
  pt_rep (mem s') t' -> root t' = root t -> pt_pages t' ≡ₚ p :: pt_pages t ->
  (forall va, leaf (mem s') t' va = leaf (mem s) t va) ->
  (forall va a, pte_addr t va = Some a -> pte_addr t' va = Some a) ->
  unchanged_outside (pt_pages t ++ p :: l) (mem s) (mem s') ->
  extends s (p :: l) t s' l t'.
Proof using HI Hk Hvp.
  intros Hrep Hr HP HL HA HU. destruct HI as (_ & _ & Hnd & Hv).
  assert (pt_pages t' ++ l ≡ₚ pt_pages t ++ p :: l) as HP'.
  { rewrite HP. by rewrite <- Permutation_middle. }
  split; [split; [done|split; [done|split]]|by split_and!].
  - by rewrite HP'.
  - intros q. rewrite HP, elem_of_cons. intros [->|]; auto.
Qed.

Lemma extends_add_l1 i :
  0 <= i < 256 -> l1 t !! i = None ->
  table_added (mem s) (mem s') p (root t) i (Z.lor (PA2PTE p) PTE_V) ->
  extends s (p :: l) t s' l (add_l1 t i p).
Proof using HI Hk Hvp Hend.
  intros Hi Hn Hta. pose proof grow_out as Hp_out. pose proof grow_aligned as Hal.
  destruct (pt_pages_NoDup t grow_NoDup) as (N1 & N0 & N10 & Ninj & _).
  pose proof (elem_of_pt_pages t) as HE. pose proof HI as (_ & (H2 & H1 & Hd) & _ & _).
  assert (root t ∈ pt_pages t) as Hroot by (apply HE; auto).
  pose proof (proj1 Hvp) as Hpa.
  apply extends_grow; [|done| | |done|].
  - split_and!; simpl.
    + eapply table_rep_fun; [|eapply (table_rep_added _ _ p); eauto with lia].
      2: by apply not_eq_sym, Hp_out.
      intros j. simpl. rewrite lookup_insert. repeat case_decide; congruence.
    + intros i' q. rewrite lookup_insert. case_decide as Hii.
      * intros [= <-]. subst i'. eapply table_rep_fun; [|eapply table_rep_fresh; eauto].
        intros j. simpl. destruct (l0 t !! (i, j)) eqn:E; [|done].
        apply (proj1 Hd) in E as [? ?]. congruence.
      * intros Hq. assert (q ∈ pt_pages t) by (apply HE; eauto).
        eapply table_rep_other; eauto.
    + intros i' j q Hq. rewrite lookup_insert. case_decide; [by eauto|]. by eapply Hd.
    + intros i' q. rewrite lookup_insert. case_decide; [by intros; subst|]. by apply Hd.
    + apply Hd.
  - unfold pt_pages. simpl. rewrite map_to_list_insert by done. simpl. apply perm_swap.
  - intros va. unfold leaf. change (pte_addr (add_l1 t i p) va) with (pte_addr t va).
    unfold pte_addr. destruct (l0 t !! _) as [q|] eqn:E; simpl; [|done].
    assert (q ∈ pt_pages t) by (apply HE; eauto).
    eapply load64_other; eauto. apply PX_range. lia.
  - eapply unchanged_table; [done|set_solver|set_solver].
Qed.

Lemma extends_add_l0 i j p1 :
  0 <= j < 512 -> l1 t !! i = Some p1 -> l0 t !! (i, j) = None ->
  table_added (mem s) (mem s') p p1 j (Z.lor (PA2PTE p) PTE_V) ->
  extends s (p :: l) t s' l (add_l0 t (i, j) p).
Proof using HI Hk Hvp Hend.
  intros Hj Hp1 Hn Hta. pose proof grow_out as Hp_out. pose proof grow_aligned as Hal.
  destruct (pt_pages_NoDup t grow_NoDup) as (N1 & N0 & N10 & Ninj & _).
  pose proof (elem_of_pt_pages t) as HE. pose proof HI as (_ & (H2 & H1 & Hd) & _ & _).
  assert (root t ∈ pt_pages t) as Hroot by (apply HE; auto).
  assert (p1 ∈ pt_pages t) as Hin1 by (apply HE; eauto).
  pose proof (proj1 Hvp) as Hpa.
  apply extends_grow; [|done| | | |].
  - split_and!; simpl.
    + eapply table_rep_other; eauto. intros E. by eapply N1.
    + intros i' q Hq. assert (q ∈ pt_pages t) by (apply HE; eauto).
      destruct (decide (i' = i)) as [->|Hii].
      * rewrite Hp1 in Hq. injection Hq as <-.
        eapply table_rep_fun; [|eapply (table_rep_added _ _ p); eauto].
        2: by apply not_eq_sym, Hp_out.
        intros k. simpl. rewrite lookup_insert. repeat case_decide; congruence.
      * eapply table_rep_fun; [|eapply (table_rep_other _ _ p p1); eauto].
        -- intros k. simpl. rewrite lookup_insert_ne by congruence. done.
        -- intros ->. apply Hii. eauto.
    + intros i' k q. rewrite lookup_insert. case_decide; [|by apply Hd].
      intros _. simplify_eq. eauto.
    + apply Hd.
    + intros i' k q. rewrite lookup_insert. case_decide; [|by apply Hd].
      intros _. by simplify_eq.
  - unfold pt_pages. simpl. rewrite map_to_list_insert by done. simpl.
    rewrite <- Permutation_middle. apply perm_swap.
  - intros va. unfold leaf, pte_addr. simpl. rewrite lookup_insert. case_decide as Hij.
    + rewrite <- Hij, Hn. simpl. apply Hta. apply PX_range. lia.
    + destruct (l0 t !! (PX 2 va, PX 1 va)) as [q|] eqn:E; simpl; [|done].
      assert (q ∈ pt_pages t) by (apply HE; eauto).
      eapply load64_other; eauto; [|apply PX_range; lia].
      intros ->. by eapply N10.
  - intros va a. unfold pte_addr. simpl. rewrite lookup_insert. case_decide as Hij; [|done].
    rewrite <- Hij, Hn. by intros [=].
  - eapply unchanged_table; [done|set_solver|set_solver].
Qed.
End grow.

(** ** [walk] with allocation *)

(** At most [n] pages are taken. *)
Definition walk_post (n : nat) (s : kst) (l : list Z) (t : ptree) (va r : Z) (s' : kst) : Prop :=
  exists l' t', extends s l t s' l' t' /\ (length l <= length l' + n)%nat /\
    ((r = 0 /\ l' = [] /\ pte_addr t' va = None) \/ pte_addr t' va = Some r).

Lemma walk_post_trans n s p l' t s1 t1 va r s2 :
  extends s (p :: l') t s1 l' t1 -> walk_post n s1 l' t1 va r s2 -> walk_post (S n) s (p :: l') t va r s2.
Proof.
  intros H1 (l2 & t2 & H2 & Hn & H). exists l2, t2. split; [by eapply extends_trans|]. split; [cbn [length]; lia|done].
Qed.

Lemma wp_walk_loop_l0 n s l t va q :
  vinv s l t -> l0 t !! (PX 2 va, PX 1 va) = Some q ->
  wp (walk_loop 0 q va true) (walk_post n s l t va) s.
Proof.
  intros HI Hq. apply wp_ret. exists l, t. split; [by apply extends_refl|]. split; [lia|].
  right. unfold pte_addr. by rewrite Hq.
Qed.

Lemma wp_walk_loop_l1 n s l t va p1 :
  vinv s l t -> l1 t !! PX 2 va = Some p1 ->
  wp (walk_loop 1 p1 va true) (walk_post (S n) s l t va) s.
Proof using Hend.
  intros HI Hp1. pose proof HI as (Hk & (H2 & H1 & Hd) & Hnd & Hv).
  pose proof (PX_range 1 va ltac:(lia)) as Hr1.
  pose proof (H1 _ _ Hp1 _ Hr1) as He. cbv beta in He.
  destruct (l0 t !! (PX 2 va, PX 1 va)) as [q|] eqn:E0.
  - eapply wp_eq; [eapply walk_loop_step; [exact He|apply Hv, elem_of_pt_pages; eauto]|].
    by eapply wp_walk_loop_l0.
  - eapply wp_eq; [by apply walk_loop_missing|]. change (Z.of_nat 1) with 1.
    assert (p1 ∈ pt_pages t) as Hin by (apply elem_of_pt_pages; eauto).
    apply NoDup_app in Hnd as (_ & Hdis & _).
    eapply (wp_alloc_table s l p1 (PX 1 va)); [exact Hk|by apply Hv|by apply Hdis|done| |].
    + intros ->. exists [], t. split; [by apply extends_refl|]. split; [cbn; lia|]. left.
      unfold pte_addr. by rewrite E0.
    + intros p l' s' -> Hk' Hvp _ Hta. clear Hdis.
      assert (Hx := extends_add_l0 s s' l' t p HI Hk' Hvp _ _ _ Hr1 Hp1 E0 Hta).
      eapply wp_conseq; [|intros r s2; exact (walk_post_trans _ _ _ _ _ _ _ _ _ _ Hx)].
      apply (wp_walk_loop_l0 n s' l' (add_l0 t (PX 2 va, PX 1 va) p)); [exact (proj1 Hx)|].
      apply lookup_insert_eq.
Qed.

(** [walk] with allocation returns the entry's address, or 0 when the free
    list is exhausted; the tree only grows and no mapping changes. *)
Lemma wp_walk_alloc s l t va :
  vinv s l t -> 0 <= va < MAXVA -> wp (walk (root t) va true) (walk_post 2 s l t va) s.
Proof using Hend.
  intros HI Hva. unfold walk. replace (MAXVA <=? va) with false by lia.
  pose proof HI as (Hk & (H2 & H1 & Hd) & Hnd & Hv).
  pose proof (PX_2_range va Hva) as Hr2.
  pose proof (H2 (PX 2 va) ltac:(lia)) as He. cbv beta in He.
  destruct (l1 t !! PX 2 va) as [p1|] eqn:E1.
  - eapply wp_eq; [eapply walk_loop_step; [exact He|apply Hv, elem_of_pt_pages; eauto]|].
    by eapply wp_walk_loop_l1.
  - eapply wp_eq; [by apply walk_loop_missing|]. change (Z.of_nat 2) with 2.
    assert (root t ∈ pt_pages t) as Hin by (apply elem_of_pt_pages; eauto).
    apply NoDup_app in Hnd as (_ & Hdis & _).
    eapply (wp_alloc_table s l (root t) (PX 2 va)); [exact Hk|by apply Hv|by apply Hdis|lia| |].
    + intros ->. exists [], t. split; [by apply extends_refl|]. split; [cbn; lia|]. left. unfold pte_addr.
      destruct (l0 t !! (PX 2 va, PX 1 va)) eqn:E0; [|done].
      apply (proj1 Hd) in E0 as [? ?]. congruence.
    + intros p l' s' -> Hk' Hvp _ Hta. clear Hdis.
      assert (Hx := extends_add_l1 s s' l' t p HI Hk' Hvp _ Hr2 E1 Hta).
      eapply wp_conseq; [|intros r s2; exact (walk_post_trans _ _ _ _ _ _ _ _ _ _ Hx)].
      apply (wp_walk_loop_l1 0 s' l' (add_l1 t (PX 2 va) p)); [exact (proj1 Hx)|].
      apply lookup_insert_eq.
Qed.

Lemma walk_oob pt va alloc s : MAXVA <= va -> walk pt va alloc s = Panic "walk".
Proof. intros. unfold walk. by replace (MAXVA <=? va) with true by lia. Qed.
End pt.
