(* ===== verification/UserVm.v ===== *)
(** * User address spaces

    Growing, shrinking, copying and freeing the memory of a process:
    [uvmalloc], [uvmdealloc], [uvmcopy], [uvmfree] of kernel/vm.c.  [uvinv]
    describes an address space by the list [D] of the physical pages mapped
    from virtual address 0 upwards. *)

From S2P Require Import Prelude Riscv Memory Spinlock Kalloc Vm PageTable VmMap.

Section uservm.
Context (kend : Z) (Hend : 0 < kend).
Local Abbreviation vinv := (vinv kend).

Definition user_maps (m : gmap Z Z) (t : ptree) (D : list Z) : Prop :=
  (forall k p, D !! k = Some p -> leaf_maps (leaf m t (Z.of_nat k * PGSIZE)) p) /\
  (forall va, Z.of_nat (length D) * PGSIZE <= va < TRAPFRAME -> pte_has (leaf m t va) PTE_V = false).

Definition uvinv (s : kst) (l : list Z) (t : ptree) (D : list Z) : Prop :=
  vinv s l t /\ user_maps (mem s) t D /\ NoDup (D ++ pt_pages t ++ l) /\
  Forall (valid_page kend) D /\ Z.of_nat (length D) * PGSIZE <= TRAPFRAME.

Lemma TRAPFRAME_val : TRAPFRAME = 2^38 - 8192.
Proof. done. Qed.

(** The pages of an address space of [sz] bytes. *)
Definition pgs (sz : Z) : Z := (sz + PGSIZE - 1) / PGSIZE.

Lemma PGROUNDUP_pgs sz : 0 <= sz <= TRAPFRAME -> PGROUNDUP sz = pgs sz * PGSIZE.
Proof. rewrite TRAPFRAME_val. intros. rewrite PGROUNDUP_spec by (unfold PGSIZE; lia). unfold pgs. lia. Qed.

(** ** Shrinking *)

Definition dealloc_post (s : kst) (l : list Z) (t : ptree) (Dk Dd : list Z) (s' : kst) : Prop :=
  uvinv s' (rev Dd ++ l) t Dk /\
  (forall va, 0 <= va < Z.of_nat (length Dk) * PGSIZE \/ TRAPFRAME <= va < MAXVA ->
     leaf (mem s') t va = leaf (mem s) t va) /\
  unchanged_outside (pt_pages t ++ Dd ++ l) (mem s) (mem s').

Lemma wp_unmap_tail s l t Dk Dd :
  uvinv s l t (Dk ++ Dd) ->
  wp (uvmunmap kend (root t) (Z.of_nat (length Dk) * PGSIZE) (Z.of_nat (length Dd)) true)
     (fun _ s' => dealloc_post s l t Dk Dd s') s.
Proof using Hend.
  intros (HI & [Hmap Hno] & Hnd & Hval & Hlen). rewrite length_app in Hno, Hlen.
  rewrite TRAPFRAME_val in Hlen. apply Forall_app in Hval as [HvK HvD].
  eapply wp_conseq; [apply (wp_uvmunmap kend Hend s l t _ Dd true); [done|..]|].
  - unfold page_aligned, PGSIZE. dlia.
  - unfold PGSIZE. lia.
  - change MAXVA with (2^38). unfold PGSIZE in *. lia.
  - intros k p Hk. replace (_ + _) with (Z.of_nat (length Dk + k) * PGSIZE) by lia.
    apply Hmap. rewrite lookup_app_r by lia. replace (_ - _)%nat with k by lia. done.
  - intros _. split; [|done]. rewrite <- (assoc_L (++)) in Hnd. by apply NoDup_app in Hnd as (_ & _ & ?).
  - intros _ s' (HI' & Hl & Hu). split; [split; [done|split]|split].
    + split.
      * intros k p Hk. pose proof (lookup_lt_Some _ _ _ Hk).
        rewrite Hl by (change MAXVA with (2^38); unfold PGSIZE in *; lia).
        unfold cleared. rewrite decide_False by (unfold PGSIZE in *; lia).
        apply Hmap. by rewrite lookup_app_l.
      * intros va Hva. rewrite Hl by (rewrite TRAPFRAME_val in Hva; change MAXVA with (2^38); unfold PGSIZE in *; lia).
        unfold cleared. case_decide; [done|]. apply Hno. unfold PGSIZE in *. lia.
    + split; [|split; [done|rewrite TRAPFRAME_val; unfold PGSIZE in *; lia]]. simpl freed.
      revert Hnd. apply NoDup_Permutation_proper.
      rewrite <- Permutation_rev. solve_Permutation.
    + intros va Hva. rewrite TRAPFRAME_val in Hva. change MAXVA with (2^38) in *.
      rewrite Hl by (change MAXVA with (2^38); unfold PGSIZE in *; lia).
      unfold cleared. rewrite decide_False by (unfold PGSIZE in *; lia). done.
    + done.
Qed.

Lemma pgs_mono a b : a <= b -> pgs a <= pgs b.
Proof. intros. unfold pgs, PGSIZE. dlia. Qed.

Lemma pgs_mul n : pgs (n * PGSIZE) = n.
Proof. unfold pgs, PGSIZE. dlia. Qed.

Lemma wp_uvmdealloc s l t Dk Dd oldsz newsz :
  uvinv s l t (Dk ++ Dd) -> 0 <= newsz < oldsz -> oldsz <= TRAPFRAME ->
  Z.of_nat (length (Dk ++ Dd)) = pgs oldsz -> Z.of_nat (length Dk) = pgs newsz ->
  wp (uvmdealloc kend (root t) oldsz newsz)
     (fun r s' => r = newsz /\ dealloc_post s l t Dk Dd s') s.
Proof using Hend.
  intros HU Hsz Hmax Hlen HlenK. unfold uvmdealloc.
  replace (oldsz <=? newsz) with false by (bool_goal; lia).
  rewrite !PGROUNDUP_pgs by lia. rewrite <- Hlen, <- HlenK, length_app.
  rewrite TRAPFRAME_val in Hmax. apply wp_bind. destruct Dd as [|d Dd].
  - rewrite app_nil_r in HU. rewrite Nat.add_0_r.
    replace (_ <? _) with false by (bool_goal; lia). apply wp_ret, wp_ret.
    split; [done|]. split; [done|split; [done|]]. by intros a.
  - replace (_ <? _) with true by (bool_goal; simpl; unfold PGSIZE; lia).
    replace ((Z.of_nat (length Dk + length (d :: Dd)) * PGSIZE - Z.of_nat (length Dk) * PGSIZE) / PGSIZE)
      with (Z.of_nat (length (d :: Dd))) by (unfold PGSIZE; dlia).
    rewrite s32_small.
    2:{ rewrite length_app in Hlen. unfold pgs, PGSIZE in *. dlia. }
    eapply wp_conseq; [by apply wp_unmap_tail|]. intros [] s' Hs'. by apply wp_ret.
Qed.

(** ** Growing *)

Definition PTE_USER : Z := Z.lor (Z.lor (Z.lor PTE_W PTE_X) PTE_R) PTE_U.

Lemma leaf_maps_entry p perm :
  valid_page kend p -> 0 <= perm < 1024 -> Z.lor perm PTE_V <> PTE_V -> leaf_maps (pte_entry p perm) p.
Proof using Hend.
  intros [Ha Hr]%(valid_page_entry kend Hend) Hp Hb.
  destruct (pte_entry_facts p perm Ha Hr ltac:(lia)) as (_ & HP & HF & HV).
  split; [done|split; [by rewrite HF|done]].
Qed.

(** The address space after mapping one more page at its end. *)
Lemma uvinv_snoc s l t s' l' t' D p perm :
  uvinv s l t D -> p ∉ D ++ pt_pages t ++ l -> evolves kend s l t s' l' t' ->
  Z.of_nat (length D) * PGSIZE + PGSIZE <= TRAPFRAME ->
  valid_page kend p -> 0 <= perm < 1024 -> Z.lor perm PTE_V <> PTE_V ->
  (forall va, 0 <= va < MAXVA -> leaf (mem s') t' va =
     if decide (va / PGSIZE = (Z.of_nat (length D) * PGSIZE) / PGSIZE) then pte_entry p perm
     else leaf (mem s) t va) ->
  uvinv s' l' t' (D ++ [p]).
Proof using Hend.
  intros (HI & [Hmap Hno] & Hnd & Hval & Hlen) Hpn (HI' & Hroot & HP & Hu) Hmax Hp Hperm Hb Hl.
  pose proof TRAPFRAME_val as HT. split; [done|split; [split|split; [|split]]].
  - intros k q Hk. apply lookup_app_Some in Hk as [Hk|[Hge Hk]].
    + pose proof (lookup_lt_Some _ _ _ Hk).
      rewrite Hl by (change MAXVA with (2^38); unfold PGSIZE in *; lia).
      unfold PGSIZE in *. rewrite decide_False by dlia. by apply Hmap.
    + apply list_lookup_singleton_Some in Hk as [Hk0 <-].
      rewrite Hl by (change MAXVA with (2^38); unfold PGSIZE in *; lia).
      unfold PGSIZE in *. rewrite decide_True by dlia. by apply leaf_maps_entry.
  - intros va Hva. rewrite length_app in Hva. simpl in Hva.
    rewrite Hl by (change MAXVA with (2^38); unfold PGSIZE in *; lia).
    unfold PGSIZE in *. rewrite decide_False by dlia. apply Hno. lia.
  - rewrite <- (assoc_L (++)), HP. cbn [app].
    rewrite <- Permutation_middle. by apply NoDup_cons.
  - apply Forall_app. split; [done|]. by apply Forall_singleton.
  - rewrite length_app. simpl. unfold PGSIZE in *. lia.
Qed.

(** Writing in a page that the address space does not own. *)
Lemma uvinv_write s s' l t D p :
  uvinv s l t D -> valid_page kend p -> p ∉ pt_pages t ++ l ->
  kmem s' = kmem s -> mem_wf (mem s') ->
  (forall a, ~ in_page p a -> load8 (mem s') a = load8 (mem s) a) ->
  uvinv s' l t D /\ forall va, leaf (mem s') t va = leaf (mem s) t va.
Proof.
  intros (HI & [Hmap Hno] & Hrest) Hp Hpn Hk Hw Hout.
  destruct (vinv_mem_ext kend s s' l t Hk Hw) as [HI' Hl]; [|done|].
  - intros q b Hq Hb. apply Hout. intros Hb'. apply Hpn.
    rewrite (in_page_disjoint p q b); try done; [apply Hp|].
    destruct HI as ((_ & _ & _ & Hf) & _ & _ & Hv).
    apply elem_of_app in Hq as [Hq|Hq]; [by apply Hv|by eapply freelist_rep_valid].
  - split; [|done]. split; [done|split; [split|done]]; intros *; rewrite Hl; auto.
Qed.

(** Taking a page from the allocator next to an address space. *)
Lemma wp_kalloc_user s l t D (Q : Z -> kst -> Prop) :
  uvinv s l t D ->
  (l = [] -> Q 0 s) ->
  (forall p l' s', l = p :: l' -> uvinv s' l' t D -> valid_page kend p ->
     p ∉ D ++ pt_pages t ++ l' -> (forall va, leaf (mem s') t va = leaf (mem s) t va) ->
     (forall a, ~ in_page p a -> load8 (mem s') a = load8 (mem s) a) -> Q p s') ->
  wp kalloc Q s.
Proof using Hend.
  intros HU Hnil Hcons. pose proof HU as (HI & [Hmap Hno] & Hnd & Hval & Hlen).
  pose proof HI as (HK & Hrep & Hnd' & Hv).
  eapply (wp_kalloc kend Hend); [done|done|]. intros p l' s' -> HK' Hp Hpl Hm.
  assert (Hout : forall a, ~ in_page p a -> load8 (mem s') a = load8 (mem s) a).
  { intros a Ha. rewrite Hm. by case_decide. }
  assert (NoDup (p :: D ++ pt_pages t ++ l')) as [Hpn Hnd2]%NoDup_cons.
  { revert Hnd. apply NoDup_Permutation_proper. solve_Permutation. }
  assert (He : forall q b, q ∈ pt_pages t -> in_page q b -> load8 (mem s') b = load8 (mem s) b).
  { intros q b Hq Hb. apply Hout. intros Hb'. apply Hpn. rewrite !elem_of_app. right. left.
    rewrite (in_page_disjoint p q b); try done; [apply Hp|by apply Hv]. }
  assert (Hl : forall va, leaf (mem s') t va = leaf (mem s) t va) by (intros; by apply leaf_ext).
  eapply Hcons; [done| |done|done|done|done].
  split; [|split; [split; intros *; rewrite Hl; auto|done]].
  split; [done|split; [by eapply pt_rep_ext|split; [|done]]].
  by apply NoDup_app in Hnd2 as (_ & _ & ?).
Qed.

(** An address space whose tree grew without changing any mapping. *)
Lemma uvinv_evolves s l t s' l' t' D :
  uvinv s l t D -> evolves kend s l t s' l' t' ->
  (forall va, 0 <= va < MAXVA -> leaf (mem s') t' va = leaf (mem s) t va) -> uvinv s' l' t' D.
Proof.
  intros (HI & [Hmap Hno] & Hnd & Hval & Hlen) (HI' & Hroot & HP & Hu) Hl.
  pose proof TRAPFRAME_val as HT. split; [done|split; [split|split; [|done]]].
  - intros k p Hk. pose proof (lookup_lt_Some _ _ _ Hk).
    rewrite Hl by (change MAXVA with (2^38); unfold PGSIZE in *; lia). by apply Hmap.
  - intros va Hva. rewrite Hl by (change MAXVA with (2^38); unfold PGSIZE in *; lia). by apply Hno.
  - by rewrite HP.
Qed.

Lemma wp_kfree_user s l t D p (Q : unit -> kst -> Prop) :
  uvinv s l t D -> valid_page kend p -> p ∉ D ++ pt_pages t ++ l ->
  (forall s', uvinv s' (p :: l) t D -> (forall va, leaf (mem s') t va = leaf (mem s) t va) ->
     (forall a, ~ in_page p a -> load8 (mem s') a = load8 (mem s) a) -> Q tt s') ->
  wp (kfree kend p) Q s.
Proof using Hend.
  intros (HI & [Hmap Hno] & Hnd & Hval & Hlen) Hp Hpn HQ. rewrite !elem_of_app in Hpn.
  apply (wp_kfree_data kend Hend s l t); [done|done|tauto|tauto|].
  intros s' HI' Hl Hout. apply HQ; [|done|done].
  split; [done|split; [split; intros *; rewrite Hl; auto|split; [|done]]].
  rewrite (assoc_L (++)), <- Permutation_middle, <- (assoc_L (++)).
  apply NoDup_cons. rewrite !elem_of_app. tauto.
Qed.
(** Distinct pages of physical memory are few, so an address space never
    reaches the trapframe. *)
Lemma NoDup_below (L : list Z) N : NoDup L -> Forall (fun x => 0 <= x < N) L -> Z.of_nat (length L) <= Z.max 0 N.
Proof.
  intros Hnd HL. assert (L ⊆+ seqZ 0 N) as Hs%submseteq_length.
  { apply NoDup_submseteq; [done|]. intros x Hx. rewrite Forall_forall in HL.
    apply elem_of_seqZ. specialize (HL x Hx). lia. }
  rewrite length_seqZ in Hs. lia.
Qed.

Lemma valid_pages_bound D :
  NoDup D -> Forall (valid_page kend) D -> Z.of_nat (length D) * PGSIZE <= PHYSTOP.
Proof using Hend.
  intros Hnd HD. pose proof (NoDup_below ((fun p => p / PGSIZE) <$> D) (PHYSTOP / PGSIZE)) as H.
  rewrite length_fmap in H. change (PHYSTOP / PGSIZE) with 557056 in H.
  change PHYSTOP with (557056 * PGSIZE). unfold PGSIZE in *. ospecialize (H _ _); [| |lia].
  - apply NoDup_fmap_2_strong; [|done]. rewrite Forall_forall in HD.
    intros x y Hx%HD Hy%HD He. destruct Hx as [Hx _], Hy as [Hy _].
    unfold page_aligned, PGSIZE in *. dlia.
  - rewrite Forall_fmap. eapply Forall_impl; [exact HD|].
    intros x [Hx Hr]. change PHYSTOP with (557056 * PGSIZE) in Hr.
    unfold page_aligned, PGSIZE in *. simpl. dlia.
Qed.

Lemma uvinv_room s l t D p :
  uvinv s l t D -> valid_page kend p -> p ∉ D ++ pt_pages t ++ l ->
  Z.of_nat (length D) * PGSIZE + PGSIZE <= TRAPFRAME.
Proof using Hend.
  intros (_ & _ & Hnd & Hval & _) Hp Hpn. rewrite !elem_of_app in Hpn.
  pose proof (valid_pages_bound (p :: D)) as H. rewrite TRAPFRAME_val.
  change PHYSTOP with 0x88000000 in H. cbn [length] in H. unfold PGSIZE in *.
  ospecialize (H _ _); [| |lia].
  - apply NoDup_cons. split; [tauto|]. by apply NoDup_app in Hnd as (? & _).
  - by constructor.
Qed.

(** ** Adding one page

    [uvmalloc] and [uvmcopy] both take a page, fill it, and map it at the end
    of the address space; when the mapping fails the page is given back. *)

(** The tree may have grown and the free list changed, but the address space
    is the same. *)
Definition same_space (s : kst) (l : list Z) (t : ptree) (De : list Z) (s' : kst) (l' : list Z) (t' : ptree) : Prop :=
  root t' = root t /\ De ++ pt_pages t' ++ l' ≡ₚ pt_pages t ++ l /\ unchanged_outside (pt_pages t ++ l) (mem s) (mem s').

Lemma same_space_evolves p s l t s1 s' l' t' De :
  unchanged_outside [p] (mem s) (mem s1) -> evolves kend s1 l t s' l' t' -> De ++ l' ≡ₚ p :: l' ->
  same_space s (p :: l) t De s' l' t'.
Proof.
  intros Hm (_ & Hr & HP & Hu) HD. split; [done|split].
  - transitivity (p :: pt_pages t' ++ l'); [|rewrite HP; solve_Permutation].
    rewrite (Permutation_app_comm (pt_pages t')), (assoc_L (++)), HD. solve_Permutation.
  - intros a Ha. rewrite Hu, Hm; [done|..]; intros q Hq; apply Ha;
      rewrite ?elem_of_cons, ?elem_of_app, ?elem_of_cons, ?elem_of_nil in *; tauto.
Qed.

Section add_page.
Context (f : Z -> gmap Z Z -> gmap Z Z).
Context (Hf_wf : forall p m, mem_wf m -> mem_wf (f p m)).
Context (Hf_out : forall p m a, mem_wf m -> ~ in_page p a -> load8 (f p m) a = load8 m a).

Lemma wp_add_page s l t D perm (E K : M kst Z) (Q : Z -> kst -> Prop) :
  uvinv s l t D -> 0 <= perm < 1024 -> Z.lor perm PTE_V <> PTE_V ->
  (forall s' l' t', uvinv s' l' t' D -> same_space s l t [] s' l' t' ->
     (forall va, 0 <= va < MAXVA -> leaf (mem s') t' va = leaf (mem s) t va) -> wp E Q s') ->
  (forall p m1 s' l' t', uvinv s' l' t' (D ++ [p]) -> same_space s l t [p] s' l' t' ->
     valid_page kend p -> p ∉ D -> p ∈ l -> mem_wf m1 ->
     (forall va, 0 <= va < MAXVA -> leaf (mem s') t' va =
        if decide (va / PGSIZE = Z.of_nat (length D)) then pte_entry p perm
        else leaf (mem s) t va) ->
     unchanged_outside [p] (mem s) m1 ->
     (forall a, in_page p a -> load8 (mem s') a = load8 (f p m1) a) -> wp K Q s') ->
  wp (let! mem := kalloc in
      if mem =? 0 then E else
      modify (fun s => set_mem (f mem (Kalloc.mem s)) s) ;;
      let! r := mappages (root t) (Z.of_nat (length D) * PGSIZE) PGSIZE mem perm in
      if negb (r =? 0) then kfree kend mem ;; E else K) Q s.
Proof using Hend Hf_wf Hf_out.
  intros HU Hperm Hbit HE HK. pose proof TRAPFRAME_val as HT.
  apply wp_bind. eapply wp_kalloc_user; [exact HU| |].
  { intros ->. simpl. eapply HE; [done| |done]. split; done. }
  intros p l' s1 -> HU1 Hp Hpn Hl1 Hm1.
  pose proof (valid_page_nonzero kend Hend p Hp). replace (p =? 0) with false by lia.
  pose proof (uvinv_room _ _ _ _ _ HU1 Hp Hpn) as Hroom.
  apply wp_bind, wp_modify. set (s2 := set_mem _ s1).
  assert (Hw1 : mem_wf (mem s1)) by apply HU1.
  destruct (uvinv_write s1 s2 l' t D p HU1 Hp) as [HU2 Hl2];
    [rewrite !elem_of_app in Hpn; rewrite !elem_of_app; tauto|done|by apply Hf_wf|by intros a; apply Hf_out|].
  assert (Hm2 : unchanged_outside [p] (mem s) (mem s2)).
  { intros a Ha. specialize (Ha p ltac:(by left)). simpl. rewrite Hf_out by done. by apply Hm1. }
  pose proof HU2 as (HI2 & [_ Hno] & _ & _ & _).
  destruct (valid_page_entry kend Hend p Hp) as [Hpa Hpr].
  apply wp_bind. eapply (wp_mappages_page kend Hend s2 l' t); [done|..].
  1-6: change MAXVA with (2^38); unfold page_aligned, PGSIZE in *; try dlia; try done.
  - destruct Hp. change PHYSTOP with 0x88000000 in *. lia.
  - apply Hno. unfold PGSIZE in *. lia.
  - intros s3 t3 Hev Hl3 _. simpl. apply wp_bind.
    assert (HU3 : uvinv s3 [] t3 D) by (by eapply uvinv_evolves).
    assert (p ∉ D ++ pt_pages t3 ++ []) as Hpn3.
    { destruct Hev as (_ & _ & HP & _). by rewrite HP. }
    apply (wp_kfree_user s3 [] t3 D p); [done..|].
    intros s4 HU4 Hl4 Hm4. eapply HE; [done| |].
    + destruct (same_space_evolves p s l' t s2 s3 [] t3 [p] Hm2 Hev) as (Hr & HP & Hu); [done|].
      split; [done|split; [rewrite <- HP; solve_Permutation|]].
      intros a Ha. rewrite Hm4; [by apply Hu|]. apply Ha. apply elem_of_app. right. by left.
    + intros va Hva. rewrite Hl4, Hl3, Hl2, Hl1 by done. done.
  - intros s3 l3 t3 Hev Hl3 _. simpl. 
    assert (forall va, va / PGSIZE = Z.of_nat (length D) * PGSIZE / PGSIZE <-> va / PGSIZE = Z.of_nat (length D)) as Hpg
      by (intros; unfold PGSIZE; dlia).
    apply (HK p (mem s1) s3 l3 t3).
    + eapply uvinv_snoc; eauto.
    + by eapply same_space_evolves.
    + done.
    + rewrite !elem_of_app in Hpn. tauto.
    + by left.
    + done.
    + intros va Hva. rewrite Hl3, Hl2, Hl1 by done.
      by rewrite (decide_ext _ _ _ _ (Hpg va)).
    + intros a Ha. apply Hm1. apply Ha. by left.
    + intros a Ha. destruct Hev as (_ & _ & _ & Hu). rewrite Hu; [done|].
      intros q Hq Hb. assert (p = q) as ->; [|by apply Hpn, elem_of_app; right].
      eapply in_page_disjoint; eauto. destruct HI2 as ((_ & _ & _ & Hff) & _ & _ & Hv).
      apply elem_of_app in Hq as [Hq|Hq]; [by apply Hv|by eapply freelist_rep_valid].
Qed.
End add_page.

Section grow.
Context (s0 : kst) (l0 : list Z) (t0 : ptree) (D0 : list Z).
Context (HU0 : uvinv s0 l0 t0 D0).

(** The address space [D0] has grown by the zeroed pages [Dn]. *)
Definition grown (s : kst) (l : list Z) (t : ptree) (Dn : list Z) : Prop :=
  uvinv s l t (D0 ++ Dn) /\ root t = root t0 /\
  Dn ++ pt_pages t ++ l ≡ₚ pt_pages t0 ++ l0 /\
  (forall va, 0 <= va < Z.of_nat (length D0) * PGSIZE \/ TRAPFRAME <= va < MAXVA ->
     leaf (mem s) t va = leaf (mem s0) t0 va) /\
  unchanged_outside (pt_pages t0 ++ l0) (mem s0) (mem s) /\
  (forall k p, Dn !! k = Some p ->
     leaf (mem s) t (Z.of_nat (length D0 + k) * PGSIZE) = pte_entry p PTE_USER) /\
  (forall p a, p ∈ Dn -> in_page p a -> load8 (mem s) a = 0).

Definition uvmalloc_post (newsz r : Z) (s' : kst) : Prop :=
  (r = newsz /\ exists l t Dn, grown s' l t Dn /\ Z.of_nat (length (D0 ++ Dn)) = pgs newsz) \/
  (r = 0 /\ exists l t, grown s' l t []).

Lemma grown_init : grown s0 l0 t0 [].
Proof using HU0.
  unfold grown. rewrite app_nil_r. splits; try done.
  intros p a Hp. by apply not_elem_of_nil in Hp.
Qed.

(** Giving back the pages added so far. *)
Lemma wp_undo s l t Dn :
  grown s l t Dn ->
  wp (uvmdealloc kend (root t) (Z.of_nat (length (D0 ++ Dn)) * PGSIZE) (Z.of_nat (length D0) * PGSIZE) ;; ret 0)
     (fun r s' => r = 0 /\ exists l' t', grown s' l' t' []) s.
Proof using HU0 Hend.
  intros HG. pose proof HG as (HU & Hr & HP & Hl & Hu & Hn & Hz). apply wp_bind.
  destruct Dn as [|d Dn].
  - rewrite app_nil_r. unfold uvmdealloc. replace (_ <=? _) with true by (bool_goal; lia).
    apply wp_ret, wp_ret. split; [done|]. by exists l, t.
  - pose proof HU as (_ & _ & _ & _ & Hlen).
    eapply wp_conseq.
    { apply (wp_uvmdealloc s l t D0 (d :: Dn)); [done| |done|by rewrite pgs_mul|by rewrite pgs_mul].
      rewrite length_app. simpl. unfold PGSIZE. lia. }
    intros r s' (_ & HU' & Hl' & Hu'). apply wp_ret. split; [done|].
    exists (rev (d :: Dn) ++ l), t. unfold grown. splits; [by rewrite app_nil_r|done| | | |done|].
    + rewrite <- HP, <- Permutation_rev. solve_Permutation.
    + intros va Hva. rewrite Hl' by done. by apply Hl.
    + intros a Ha. rewrite Hu'; [by apply Hu|]. intros p Hp. apply Ha. rewrite <- HP.
      rewrite !elem_of_app in *. tauto.
    + intros p a Hp. by apply not_elem_of_nil in Hp.
Qed.

Lemma uvmalloc_loop_S fuel pt oldsz newsz a :
  uvmalloc_loop kend (S fuel) pt oldsz newsz a =
  if a <? newsz then
    let! mem := kalloc in
    if mem =? 0 then uvmdealloc kend pt a oldsz ;; ret 0 else
    kmemset mem 0 PGSIZE ;;
    let! r := mappages pt a PGSIZE mem PTE_USER in
    if negb (r =? 0) then
      kfree kend mem ;; uvmdealloc kend pt a oldsz ;; ret 0
    else uvmalloc_loop kend fuel pt oldsz newsz (wrap64 (a + PGSIZE))
  else ret newsz.
Proof. done. Qed.

Lemma grown_more s l t Dn s' l' t' De :
  grown s l t Dn -> uvinv s' l' t' (D0 ++ Dn ++ De) -> root t' = root t ->
  De ++ pt_pages t' ++ l' ≡ₚ pt_pages t ++ l ->
  (forall va, 0 <= va < Z.of_nat (length (D0 ++ Dn)) * PGSIZE \/ TRAPFRAME <= va < MAXVA ->
     leaf (mem s') t' va = leaf (mem s) t va) ->
  unchanged_outside (pt_pages t ++ l) (mem s) (mem s') ->
  (forall k p, De !! k = Some p ->
     leaf (mem s') t' (Z.of_nat (length (D0 ++ Dn) + k) * PGSIZE) = pte_entry p PTE_USER) ->
  (forall p a, p ∈ De -> in_page p a -> load8 (mem s') a = 0) ->
  grown s' l' t' (Dn ++ De).
Proof.
  intros (HU & Hr & HP & Hl & Hu & Hn & Hz) HU' Hr' HP' Hl' Hu' Hn' Hz'.
  rewrite length_app in Hl', Hn'. pose proof HU as (HI & _ & Hnd & Hval & Hlen).
  rewrite length_app in Hlen. pose proof TRAPFRAME_val as HT.
  unfold grown. splits; [done|congruence|..].
  - rewrite <- (assoc_L (++)), HP'. done.
  - intros va Hva. rewrite Hl', Hl; [done|done|unfold PGSIZE in *; lia].
  - intros a Ha. rewrite Hu'; [by apply Hu|]. intros p Hp. apply Ha. rewrite <- HP.
    rewrite !elem_of_app in *. tauto.
  - intros k p Hk. apply lookup_app_Some in Hk as [Hk|[Hge Hk]].
    + pose proof (lookup_lt_Some _ _ _ Hk). rewrite Hl' by (left; unfold PGSIZE; lia). by apply Hn.
    + rewrite <- (Hn' _ _ Hk). do 2 f_equal. lia.
  - intros p a [Hp|Hp]%elem_of_app Ha; [|by eapply Hz'].
    rewrite Hu'; [by eapply Hz|]. intros q Hq Hb.
    assert (page_aligned q) as Hqa.
    { destruct HI as ((_ & _ & _ & Hf) & _ & _ & Hv).
      apply elem_of_app in Hq as [Hq|Hq]; [by apply Hv|by eapply freelist_rep_valid]. }
    assert (page_aligned p) as Hpa.
    { rewrite Forall_forall in Hval. apply Hval, elem_of_app. by right. }
    rewrite (in_page_disjoint p q a) in Hp by done.
    rewrite <- (assoc_L (++)) in Hnd. apply NoDup_app in Hnd as (_ & _ & Hnd).
    apply NoDup_app in Hnd as (_ & Hd & _). by apply (Hd q Hp).
Qed.

Lemma zero_fill_out p m a : mem_wf m -> ~ in_page p a -> load8 (memset m p 0 PGSIZE) a = load8 m a.
Proof. intros _ Ha. rewrite load8_memset. by case_decide. Qed.

Lemma wp_uvmalloc_loop newsz fuel : forall s l t Dn,
  grown s l t Dn -> 0 <= newsz < 2^64 -> Z.of_nat (length D0) <= pgs newsz ->
  Z.of_nat (length (D0 ++ Dn)) <= pgs newsz <= Z.of_nat (length (D0 ++ Dn)) + Z.of_nat fuel ->
  wp (uvmalloc_loop kend fuel (root t0) (Z.of_nat (length D0) * PGSIZE) newsz
        (Z.of_nat (length (D0 ++ Dn)) * PGSIZE)) (uvmalloc_post newsz) s.
Proof using HU0 Hend.
  induction fuel as [|fuel IH]; intros s l t Dn HG Hnew HD0 Hfuel.
  { simpl. replace (_ <? newsz) with false by (bool_goal; unfold pgs, PGSIZE in *; dlia).
    apply wp_ret. left. split; [done|]. exists l, t, Dn. split; [done|lia]. }
  rewrite uvmalloc_loop_S. case_match eqn:E; b2p.
  2:{ apply wp_ret. left. split; [done|]. exists l, t, Dn. split; [done|].
      unfold pgs, PGSIZE in *. dlia. }
  pose proof HG as (HU & Hr & _). rewrite <- Hr.
  eapply (wp_add_page (fun p m => memset m p 0 PGSIZE)); [by eauto using memset_wf| |exact HU|done|done|..].
  { intros p m a. apply zero_fill_out. }
  - intros s' l' t' HU' (Hr' & HP & Hu) Hl. rewrite <- Hr'.
    eapply wp_conseq; [eapply (wp_undo s' l' t')|].
    + rewrite <- (app_nil_r Dn). eapply grown_more; [done|by rewrite app_nil_r|done|done| |done|done|].
      * intros va Hva. apply Hl. pose proof HU as (_ & _ & _ & _ & Hlen).
        rewrite TRAPFRAME_val in *. change MAXVA with (2^38) in *. unfold PGSIZE in *. lia.
      * intros q a Hq. by apply not_elem_of_nil in Hq.
    + intros r s2 Hu2. by right.
  - intros p m1 s' l' t' HU' (Hr' & HP & Hu) Hp _ _ _ Hl _ Hz.
    pose proof HU' as (_ & _ & _ & _ & Hlen). rewrite TRAPFRAME_val, length_app in Hlen. simpl in Hlen.
    replace (wrap64 _) with (Z.of_nat (length (D0 ++ Dn ++ [p])) * PGSIZE).
    2:{ rewrite wrap64_small by (unfold PGSIZE in *; lia).
        rewrite (assoc_L (++)), (length_app _ [p]). simpl. unfold PGSIZE. lia. }
    rewrite Hr. eapply (IH s' l' t'); [|done|done|].
    2:{ rewrite (assoc_L (++)), (length_app _ [p]). simpl. unfold pgs, PGSIZE in *. dlia. }
    eapply grown_more; [done|by rewrite (assoc_L (++))|done|done| |done| |].
    + intros va Hva. rewrite TRAPFRAME_val in Hva. change MAXVA with (2^38) in *.
      rewrite Hl by (unfold PGSIZE in *; lia). unfold PGSIZE in *. rewrite decide_False by dlia. done.
    + intros [|k] q [= <-]. change MAXVA with (2^38) in *. rewrite Hl by (unfold PGSIZE in *; lia).
      unfold PGSIZE. rewrite decide_True by dlia. done.
    + intros q a ->%list_elem_of_singleton Ha. rewrite Hz by done. rewrite load8_memset.
      by rewrite decide_True.
Qed.

Lemma wp_uvmalloc oldsz newsz :
  Z.of_nat (length D0) = pgs oldsz -> 0 <= oldsz <= newsz -> newsz < 2^64 -> oldsz <= TRAPFRAME ->
  wp (uvmalloc kend (root t0) oldsz newsz) (uvmalloc_post newsz) s0.
Proof using HU0 Hend.
  intros Hlen Hsz Hnew Hold. unfold uvmalloc. replace (newsz <? oldsz) with false by (bool_goal; lia).
  rewrite PGROUNDUP_pgs, <- Hlen by lia.
  pose proof (wp_uvmalloc_loop newsz (Z.to_nat ((newsz - Z.of_nat (length D0) * PGSIZE) / PGSIZE + 1))
                s0 l0 t0 [] grown_init) as H.
  rewrite app_nil_r in H. apply H; [lia|..]; rewrite Hlen; unfold pgs, PGSIZE in *; dlia.
Qed.
End grow.

End uservm.
