(* ===== verification/UvmCopy.v ===== *)
(** * Copying an address space

    [uvmcopy] of kernel/vm.c, the memory half of [fork]: the child gets its
    own pages with the parent's contents and permissions, the parent's memory
    is untouched, and a failure leaves the child empty. *)

From S2P Require Import Prelude Riscv Memory Spinlock Kalloc Vm PageTable VmMap UserVm.

Section uvmcopy.
Context (kend : Z) (Hend : 0 < kend).

(** An address space none of whose pages changed, next to another free list. *)
Lemma uvinv_frame s s' l l' t D :
  uvinv kend s l t D -> kinv kend s' l' -> NoDup (D ++ pt_pages t ++ l') ->
  (forall p b, p ∈ pt_pages t -> in_page p b -> load8 (mem s') b = load8 (mem s) b) ->
  uvinv kend s' l' t D /\ forall va, leaf (mem s') t va = leaf (mem s) t va.
Proof.
  intros (HI & [Hmap Hno] & _ & Hval & Hlen) HK Hnd He.
  assert (Hl : forall va, leaf (mem s') t va = leaf (mem s) t va) by (intros; by apply leaf_ext).
  split; [|done]. destruct HI as (_ & Hrep & _ & Hv).
  split; [split; [done|split; [by eapply pt_rep_ext|split; [|done]]]|].
  - by apply NoDup_app in Hnd as (_ & _ & ?).
  - split; [split; intros *; rewrite Hl; auto|done].
Qed.

(** The parent: state [s0], free list [l0'], tree [to], pages [Do]; the child
    starts with the tree [tn0] and no user memory. *)
Context (s0 : kst) (l0' : list Z) (to tn0 : ptree) (Do : list Z).
Context (HUo : uvinv kend s0 l0' to Do) (HUn : uvinv kend s0 l0' tn0 []).
Context (Hdisj : NoDup (Do ++ pt_pages to ++ pt_pages tn0 ++ l0')).

(** The first pages of the parent have been copied to the pages [Dn]. *)
Definition copied (s : kst) (l : list Z) (t : ptree) (Dn : list Z) : Prop :=
  uvinv kend s l t Dn /\ root t = root tn0 /\
  Dn ++ pt_pages t ++ l ≡ₚ pt_pages tn0 ++ l0' /\
  unchanged_outside (pt_pages tn0 ++ l0') (mem s0) (mem s) /\
  (forall va, TRAPFRAME <= va < MAXVA -> leaf (mem s) t va = leaf (mem s0) tn0 va) /\
  forall k p, Dn !! k = Some p -> exists q, Do !! k = Some q /\
    PTE_FLAGS (leaf (mem s) t (Z.of_nat k * PGSIZE)) = PTE_FLAGS (leaf (mem s0) to (Z.of_nat k * PGSIZE)) /\
    forall off, 0 <= off < PGSIZE -> load8 (mem s) (p + off) = load8 (mem s0) (q + off).

(** The parent after some pages of the child were allocated. *)
Lemma copied_parent s l t Dn :
  copied s l t Dn -> uvinv kend s l to Do /\
  (forall va, leaf (mem s) to va = leaf (mem s0) to va) /\
  (forall p b, p ∈ Do -> in_page p b -> load8 (mem s) b = load8 (mem s0) b).
Proof using HUo Hdisj HUn.
  intros ((HI & _) & _ & HP & Hu & _).
  assert (Hkeep : forall p b, p ∈ Do ++ pt_pages to -> in_page p b -> load8 (mem s) b = load8 (mem s0) b).
  { intros p b Hp Hb. apply Hu. intros q Hq Hbq. assert (p = q) as ->.
    { eapply in_page_disjoint; eauto.
      - apply elem_of_app in Hp as [Hp|Hp].
        + destruct HUo as (_ & _ & _ & Hval & _). rewrite Forall_forall in Hval. by apply Hval.
        + destruct HUo as ((_ & _ & _ & Hv) & _). by apply Hv.
      - destruct HUn as (((_ & _ & _ & Hf) & _ & _ & Hv) & _).
        apply elem_of_app in Hq as [Hq|Hq]; [by apply Hv|by eapply freelist_rep_valid]. }
    rewrite (assoc_L (++)) in Hdisj. apply NoDup_app in Hdisj as (_ & Hd & _). by apply (Hd q). }
  destruct (uvinv_frame s0 s l0' l to Do HUo) as [HU Hl]; [apply HI| | |].
  - rewrite <- HP in Hdisj.
    assert (NoDup ((Dn ++ pt_pages t) ++ Do ++ pt_pages to ++ l)) as (_ & _ & ?)%NoDup_app; [|done].
    revert Hdisj. apply NoDup_Permutation_proper. solve_Permutation.
  - intros p b Hp. apply Hkeep, elem_of_app. by right.
  - splits; [done|done|]. intros p b Hp. apply Hkeep, elem_of_app. by left.
Qed.

Lemma copied_init : copied s0 l0' tn0 [].
Proof using HUn. unfold copied. splits; try done. Qed.

(** The [err:] path. *)
Lemma wp_copy_undo s l t Dn :
  copied s l t Dn ->
  wp (uvmunmap kend (root t) 0 (Z.of_nat (length Dn)) true ;; ret (-1))
     (fun r s' => r = -1 /\ exists l' t', copied s' l' t' []) s.
Proof using Hend.
  intros (HU & Hr & HP & Hu & Htop & _). apply wp_bind.
  eapply wp_conseq; [apply (wp_unmap_tail kend Hend s l t [] Dn HU)|].
  intros [] s' (HU' & Hl' & Hu'). apply wp_ret. split; [done|].
  exists (rev Dn ++ l), t. unfold copied. splits; try done.
  - rewrite <- HP, <- Permutation_rev. solve_Permutation.
  - intros a Ha. rewrite Hu'; [by apply Hu|]. intros p Hp. apply Ha. rewrite <- HP.
    rewrite !elem_of_app in *. tauto.
  - intros va Hva. rewrite Hl' by (by right). by apply Htop.
Qed.

Lemma uvmcopy_loop_S fuel old new sz i :
  uvmcopy_loop kend (S fuel) old new sz i =
  if i <? sz then
    let! pte := walk old i false in
    if pte =? 0 then panic "uvmcopy: pte should exist" else
    let! v := kload64 pte in
    if negb (pte_has v PTE_V) then panic "uvmcopy: page not present" else
    let! mem := kalloc in
    if mem =? 0 then uvmunmap kend new 0 (i / PGSIZE) true ;; ret (-1) else
    kmemmove mem (PTE2PA v) PGSIZE ;;
    let! r := mappages new i PGSIZE mem (PTE_FLAGS v) in
    if negb (r =? 0) then
      kfree kend mem ;; uvmunmap kend new 0 (i / PGSIZE) true ;; ret (-1)
    else uvmcopy_loop kend fuel old new sz (wrap64 (i + PGSIZE))
  else ret 0.
Proof. done. Qed.

(** Reading the parent's entry. *)
Lemma wp_read_leaf s l t D k p (K : Z -> M kst Z) (Q : Z -> kst -> Prop) :
  uvinv kend s l t D -> D !! k = Some p ->
  wp (K (leaf (mem s) t (Z.of_nat k * PGSIZE))) Q s ->
  wp (let! pte := walk (root t) (Z.of_nat k * PGSIZE) false in
      if pte =? 0 then panic "uvmcopy: pte should exist" else
      let! v := kload64 pte in
      if negb (pte_has v PTE_V) then panic "uvmcopy: page not present" else K v) Q s.
Proof using Hend.
  intros (HI & [Hmap _] & _ & _ & Hlen) Hk HK. pose proof (lookup_lt_Some _ _ _ Hk).
  rewrite TRAPFRAME_val in Hlen. destruct (Hmap k p Hk) as (HV & _ & _).
  apply wp_bind. eapply wp_run.
  { apply (walk_noalloc kend Hend s l t); [done|]. change MAXVA with (2^38). unfold PGSIZE in *. lia. }
  unfold leaf in *. destruct (pte_addr t _) as [a|] eqn:Ea; [|done]. simpl.
  pose proof (pte_addr_nonzero kend Hend _ _ _ _ _ HI Ea).
  replace (a =? 0) with false by (bool_goal; lia).
  apply wp_bind, wp_gets. by rewrite HV.
Qed.

Lemma PTE_FLAGS_range v : 0 <= PTE_FLAGS v < 1024.
Proof. unfold PTE_FLAGS. change 0x3FF with (Z.ones 10). rewrite Z.land_ones by lia. by apply Z.mod_pos_bound. Qed.

(** The flags of a valid entry contain [PTE_V] already. *)
Lemma PTE_FLAGS_V v : pte_has v PTE_V = true -> Z.lor (PTE_FLAGS v) PTE_V = PTE_FLAGS v.
Proof.
  rewrite pte_has_V. intros Hv. apply Z.bits_inj'. intros i Hi. rewrite Z.lor_spec.
  change PTE_V with (2^0). destruct (decide (i = 0)) as [->|].
  - unfold PTE_FLAGS. rewrite Z.land_spec, Hv. done.
  - rewrite Z.pow2_bits_false by lia. apply orb_false_r.
Qed.

Lemma copied_more s l t Dn s' l' t' De :
  copied s l t Dn -> uvinv kend s' l' t' (Dn ++ De) -> same_space s l t De s' l' t' ->
  (forall va, 0 <= va < Z.of_nat (length Dn) * PGSIZE \/ TRAPFRAME <= va < MAXVA ->
     leaf (mem s') t' va = leaf (mem s) t va) ->
  (forall k p, De !! k = Some p -> exists q, Do !! (length Dn + k)%nat = Some q /\
     PTE_FLAGS (leaf (mem s') t' (Z.of_nat (length Dn + k) * PGSIZE)) =
     PTE_FLAGS (leaf (mem s0) to (Z.of_nat (length Dn + k) * PGSIZE)) /\
     forall off, 0 <= off < PGSIZE -> load8 (mem s') (p + off) = load8 (mem s0) (q + off)) ->
  copied s' l' t' (Dn ++ De).
Proof.
  intros (HU & Hr & HP & Hu & Htop & Hc) HU' (Hr' & HP' & Hu') Hl Hnew.
  pose proof HU as (HI & _ & Hnd & Hval & Hlen). unfold copied. splits; [done|congruence|..].
  - rewrite <- (assoc_L (++)), HP'. done.
  - intros a Ha. rewrite Hu'; [by apply Hu|]. intros p Hp. apply Ha. rewrite <- HP.
    rewrite !elem_of_app in *. tauto.
  - intros va Hva. rewrite Hl by (by right). by apply Htop.
  - intros k p [Hk|[Hge Hk]]%lookup_app_Some.
    2:{ apply Hnew in Hk. by replace (length Dn + (k - length Dn))%nat with k in Hk by lia. }
    pose proof (lookup_lt_Some _ _ _ Hk). destruct (Hc k p Hk) as (q & Hq & Hfl & Hby).
    exists q. splits; [done|rewrite Hl; [done|]; left; unfold PGSIZE; lia|].
    intros off Hoff. rewrite Hu'; [by apply Hby|]. intros x Hx Hb.
    rewrite Forall_forall in Hval. assert (p ∈ Dn) as Hp by (by eapply list_elem_of_lookup_2).
    apply NoDup_app in Hnd as (_ & Hd & _). apply (Hd p Hp).
    rewrite (in_page_disjoint p x (p + off)); [done|by apply Hval| |unfold in_page; lia|done].
    destruct HI as ((_ & _ & _ & Hf) & _ & _ & Hv).
    apply elem_of_app in Hx as [Hx|Hx]; [by apply Hv|by eapply freelist_rep_valid].
Qed.

Definition uvmcopy_post (r : Z) (s' : kst) : Prop :=
  (r = 0 /\ exists l t Dn, copied s' l t Dn /\ length Dn = length Do) \/
  (r = -1 /\ exists l t, copied s' l t []).

Lemma wp_uvmcopy_loop sz fuel : forall s l t Dn,
  copied s l t Dn -> Z.of_nat (length Do) = pgs sz ->
  (length Dn <= length Do <= length Dn + fuel)%nat ->
  wp (uvmcopy_loop kend fuel (root to) (root tn0) sz (Z.of_nat (length Dn) * PGSIZE)) uvmcopy_post s.
Proof using HUo HUn Hdisj Hend.
  induction fuel as [|fuel IH]; intros s l t Dn HC Hsz Hfuel.
  { simpl. replace (_ <? sz) with false by (bool_goal; unfold pgs, PGSIZE in *; dlia).
    apply wp_ret. left. split; [done|]. exists l, t, Dn. split; [done|lia]. }
  rewrite uvmcopy_loop_S. case_match eqn:E; b2p.
  2:{ apply wp_ret. left. split; [done|]. exists l, t, Dn. split; [done|].
      unfold pgs, PGSIZE in *. dlia. }
  destruct (copied_parent _ _ _ _ HC) as (HUo' & Hlo & Hdata).
  assert (length Dn < length Do)%nat as Hlt by (unfold pgs, PGSIZE in *; dlia).
  destruct (lookup_lt_is_Some_2 Do (length Dn) Hlt) as [q Hq].
  eapply wp_read_leaf; [exact HUo'|exact Hq|]. cbv beta.
  pose proof HUo' as (_ & [Hmap _] & _ & Hval & _). destruct (Hmap _ _ Hq) as (HV & HF & HPA).
  rewrite HPA. set (v := leaf (mem s) to _) in *.
  assert (valid_page kend q) as Hqv by (rewrite Forall_forall in Hval; by eapply Hval, list_elem_of_lookup_2).
  pose proof HC as (HU & Hr & _). rewrite <- Hr. rewrite Z.div_mul by done.
  eapply (wp_add_page kend Hend (fun p m => memmove m p q PGSIZE)); [..|exact HU|apply PTE_FLAGS_range| | |].
  { intros p m Hw. by apply memmove_wf. }
  { intros p m a Hw Ha. rewrite load8_memmove by done. by case_decide. }
  { by rewrite PTE_FLAGS_V. }
  - intros s' l' t' HU' HS Hl. pose proof HS as (Hr' & _). rewrite <- Hr'.
    eapply wp_conseq; [apply (wp_copy_undo s' l' t')|intros r s2 Hpost; by right].
    rewrite <- (app_nil_r Dn). eapply copied_more; [done|by rewrite app_nil_r|done| |done].
    intros va Hva. apply Hl. pose proof HU as (_ & _ & _ & _ & Hlen).
    rewrite TRAPFRAME_val in *. change MAXVA with (2^38) in *. unfold PGSIZE in *. lia.
  - intros p m1 s' l' t' HU' HS Hp Hpn Hpl Hw1 Hl Hu1 Hpage.
    pose proof HU' as (_ & _ & _ & _ & Hlen). rewrite TRAPFRAME_val, length_app in Hlen. simpl in Hlen.
    replace (wrap64 _) with (Z.of_nat (length (Dn ++ [p])) * PGSIZE).
    2:{ rewrite wrap64_small by (unfold PGSIZE in *; lia).
        rewrite length_app. simpl. unfold PGSIZE. lia. }
    rewrite Hr. eapply (IH s' l' t'); [|done|rewrite length_app; simpl; lia].
    eapply copied_more; [done|done|done| |].
    + intros va Hva. rewrite TRAPFRAME_val in Hva. change MAXVA with (2^38) in *.
      rewrite Hl by (unfold PGSIZE in *; lia). unfold PGSIZE in *. rewrite decide_False by dlia. done.
    + intros [|k] x [= <-]. rewrite Nat.add_0_r. exists q. change MAXVA with (2^38) in *. splits; [done| |].
      * rewrite Hl by (unfold PGSIZE in *; lia). rewrite decide_True by (unfold PGSIZE; dlia).
        destruct (valid_page_entry kend Hend p Hp) as [Hpa Hpr].
        destruct (pte_entry_facts p (PTE_FLAGS v) Hpa Hpr (PTE_FLAGS_range v)) as (_ & _ & -> & _).
        rewrite PTE_FLAGS_V by done. unfold v. by rewrite Hlo.
      * intros off Hoff. rewrite Hpage by (unfold in_page; lia). rewrite load8_memmove by done.
        rewrite decide_True by lia. replace (q + (p + off - p)) with (q + off) by lia.
        rewrite Hu1; [apply (Hdata q); [by eapply list_elem_of_lookup_2|unfold in_page; lia]|].
        intros y ->%list_elem_of_singleton Hb.
        assert (q = p) as ->; [|].
        { eapply in_page_disjoint; [apply Hqv|apply Hp| |exact Hb]. unfold in_page. lia. }
        pose proof HUo' as (_ & _ & Hndo & _). apply NoDup_app in Hndo as (_ & Hd & _).
        apply (Hd p); [by eapply list_elem_of_lookup_2|]. apply elem_of_app. by right.
Qed.

Lemma wp_uvmcopy sz :
  Z.of_nat (length Do) = pgs sz -> 0 <= sz ->
  wp (uvmcopy kend (root to) (root tn0) sz) uvmcopy_post s0.
Proof using HUo HUn Hdisj Hend.
  intros Hlen Hsz. unfold uvmcopy.
  apply (wp_uvmcopy_loop sz (Z.to_nat (sz / PGSIZE + 1)) s0 l0' tn0 []); [apply copied_init|done|].
  unfold pgs, PGSIZE in *. simpl. dlia.
Qed.
End uvmcopy.
