(* ===== verification/VmFree.v ===== *)
(** * Freeing a page table

    [freewalk] and [uvmfree] of kernel/vm.c: every page-table page and every
    user page goes back to the free list, and to it only once. *)

From S2P Require Import Prelude Riscv Memory Spinlock Kalloc Vm PageTable VmMap UserVm.

Arguments seqZ : simpl never.

(** The pages of the subtree below [r], a page table of [n] levels that maps
    nothing. *)
Fixpoint subtree (n : nat) (m : gmap Z Z) (r : Z) (pages : list Z) : Prop :=
  match n with
  | O => False
  | S n' => exists subs : Z -> list Z,
      pages ≡ₚ r :: (seqZ 0 512 ≫= subs) /\
      forall i, 0 <= i < 512 ->
        (pte_has (load64 m (r + 8 * i)) PTE_V = false /\ subs i = []) \/
        exists q, load64 m (r + 8 * i) = Z.lor (PA2PTE q) PTE_V /\ subtree n' m q (subs i)
  end.

Lemma subtree_root n m r pages : subtree n m r pages -> r ∈ pages.
Proof. destruct n; [done|]. intros (subs & HP & _). rewrite HP. by left. Qed.

Lemma elem_of_subs (subs : Z -> list Z) ks p i : i ∈ ks -> p ∈ subs i -> p ∈ ks ≫= subs.
Proof. intros Hi Hp. apply list_elem_of_bind. eauto. Qed.

Lemma subtree_ext n m m' : forall r pages,
  (forall p b, p ∈ pages -> in_page p b -> load8 m' b = load8 m b) ->
  subtree n m r pages -> subtree n m' r pages.
Proof.
  induction n as [|n IH]; intros r pages He; [done|]. intros (subs & HP & H).
  exists subs. split; [done|]. intros i Hi.
  assert (load64 m' (r + 8 * i) = load64 m (r + 8 * i)) as ->.
  { apply load64_ext. intros b Hb. apply (He r); [rewrite HP; by left|by eapply entry_in_page]. }
  destruct (H i Hi) as [?|(q & Hq & Hsub)]; [by left|right]. exists q. split; [done|].
  eapply IH; [|done]. intros p b Hp. apply He. rewrite HP. right.
  eapply elem_of_subs, Hp. apply elem_of_seqZ. lia.
Qed.

(** ** The tree of a page table that maps nothing *)

Lemma map_vals_enum `{Countable K} (ks : list K) : forall m : gmap K Z,
  NoDup ks -> (forall k v, m !! k = Some v -> k ∈ ks) ->
  (map_to_list m).*2 ≡ₚ ks ≫= (fun k => option_list (m !! k)).
Proof.
  induction ks as [|k ks IH]; intros m Hnd Hk.
  { assert (m = ∅) as ->; [|by rewrite map_to_list_empty].
    apply map_eq. intros k. rewrite lookup_empty. destruct (m !! k) eqn:E; [|done].
    apply Hk in E. by apply not_elem_of_nil in E. }
  apply NoDup_cons in Hnd as [Hkn Hnd]. cbn [mbind list_bind]. fold (mbind (M:=list) (fun k => option_list (m !! k)) ks).
  assert (forall k', k' ∈ ks -> delete k m !! k' = m !! k') as Hdel.
  { intros k' Hk'. apply lookup_delete_ne. by intros ->. }
  assert ((map_to_list (delete k m)).*2 ≡ₚ ks ≫= (fun k => option_list (m !! k))) as IH'.
  { rewrite IH; [|done|].
    - rewrite (Forall_bind_ext _ (fun k => option_list (m !! k))); [done|].
      apply Forall_forall. intros k' Hk'. by rewrite Hdel.
    - intros k' v Hv. rewrite lookup_delete_Some in Hv. destruct Hv as [Hne Hv].
      apply Hk in Hv. apply elem_of_cons in Hv as [->|]; done. }
  destruct (m !! k) as [v|] eqn:E; simpl.
  - rewrite <- (insert_delete_id m k v) at 1 by done.
    rewrite map_to_list_insert by apply lookup_delete_eq. simpl. by constructor.
  - rewrite <- IH'. by rewrite delete_id.
Qed.

Lemma bind_app_perm {A B} (f g : A -> list B) l : (l ≫= f) ++ (l ≫= g) ≡ₚ l ≫= (fun x => f x ++ g x).
Proof. induction l as [|x l IH]; csimpl; [done|]. rewrite <- IH. solve_Permutation. Qed.

Lemma bind_none {A B} (f : A -> list B) l : (forall x, x ∈ l -> f x = []) -> l ≫= f = [].
Proof.
  intros H. induction l as [|x l IH]; csimpl; [done|].
  rewrite H by (by left). apply IH. intros y Hy. apply H. by right.
Qed.

Lemma bind_pairs {B} (f : Z * Z -> list B) l l' :
  (l ≫= (fun i => (fun j => (i, j)) <$> l')) ≫= f = l ≫= (fun i => l' ≫= (fun j => f (i, j))).
Proof.
  induction l as [|x l IH]; csimpl; [done|]. rewrite bind_app, IH. f_equal.
  clear. induction l' as [|y l' IH]; csimpl; [done|]. by rewrite IH.
Qed.

Definition inner_pages (t : ptree) (i : Z) : list Z :=
  match l1 t !! i with
  | Some p => p :: (seqZ 0 512 ≫= (fun j => option_list (l0 t !! (i, j))))
  | None => []
  end.

Lemma pt_pages_enum m t : pt_rep m t -> pt_pages t ≡ₚ root t :: (seqZ 0 512 ≫= inner_pages t).
Proof.
  intros (_ & _ & Hd & Hk1 & Hk0). unfold pt_pages. apply perm_skip.
  rewrite (map_vals_enum (seqZ 0 512)); [|apply NoDup_seqZ|].
  2:{ intros i v Hv%Hk1. apply elem_of_seqZ. lia. }
  rewrite (map_vals_enum (seqZ 0 512 ≫= (fun i => (fun j => (i, j)) <$> seqZ 0 512))).
  - rewrite bind_pairs, bind_app_perm.
    rewrite (Forall_bind_ext _ (inner_pages t)); [done|].
    apply Forall_forall. intros i _. unfold inner_pages. destruct (l1 t !! i) as [p|] eqn:E; [done|].
    apply bind_none. intros j _. destruct (l0 t !! (i, j)) eqn:E0; [|done].
    apply Hd in E0 as [? ?]. congruence.
  - apply NoDup_bind; [|intros; apply NoDup_fmap; [by intros ?? [=]|]; apply NoDup_seqZ|apply NoDup_seqZ].
    intros i i' y _ _ Hy Hy'. apply list_elem_of_fmap in Hy as (? & -> & _).
    by apply list_elem_of_fmap in Hy' as (? & [= ->] & _).
  - intros [i j] q Hq. pose proof (Hk0 _ _ _ Hq). apply Hd in Hq as [p Hp%Hk1].
    apply list_elem_of_bind. exists i. split; [apply list_elem_of_fmap; exists j; split; [done|]|];
      apply elem_of_seqZ; lia.
Qed.

(** The virtual address with given page-table indices. *)
Lemma PX_of_indices i j k :
  0 <= i < 256 -> 0 <= j < 512 -> 0 <= k < 512 ->
  let va := i * 2^30 + j * 2^21 + k * 2^12 in
  0 <= va < MAXVA /\ PX 2 va = i /\ PX 1 va = j /\ PX 0 va = k.
Proof.
  intros Hi Hj Hk va. change MAXVA with (2^38). rewrite !PX_spec by lia. unfold va.
  change (12 + 9 * 2) with 30. change (12 + 9 * 1) with 21. change (12 + 9 * 0) with 12. splits; dlia.
Qed.

Lemma pt_subtree m t :
  pt_rep m t -> (forall va, 0 <= va < MAXVA -> pte_has (leaf m t va) PTE_V = false) ->
  subtree 3 m (root t) (pt_pages t).
Proof.
  intros Hrep Hno. pose proof (pt_pages_enum m t Hrep) as HE. destruct Hrep as (H2 & H1 & Hd & Hk1 & Hk0).
  exists (inner_pages t). split; [done|]. intros i Hi. pose proof (H2 i Hi) as Hi2. cbv beta in Hi2.
  unfold inner_pages. destruct (l1 t !! i) as [p|] eqn:Ep; [right|by left].
  exists p. split; [done|]. exists (fun j => option_list (l0 t !! (i, j))). split; [done|].
  intros j Hj. pose proof (H1 _ _ Ep j Hj) as Hj2. cbv beta in Hj2.
  destruct (l0 t !! (i, j)) as [q|] eqn:Eq; [right|by left].
  exists q. split; [done|]. exists (fun _ => []). split; [by rewrite bind_none|].
  intros k Hk. left. split; [|done].
  destruct (PX_of_indices i j k (Hk1 _ _ Ep) Hj Hk) as (Hva & E2 & E1 & E0).
  specialize (Hno _ Hva). unfold leaf, pte_addr in Hno. rewrite E2, E1, E0, Eq in Hno. done.
Qed.

Section freewalk.
Context (kend : Z) (Hend : 0 < kend).

Lemma inner_entry_not_leaf q :
  valid_page kend q ->
  Z.land (Z.lor (PA2PTE q) PTE_V) (Z.lor (Z.lor PTE_R PTE_W) PTE_X) = 0.
Proof using Hend.
  intros [Ha Hr]%(valid_page_entry kend Hend). change (Z.lor (Z.lor PTE_R PTE_W) PTE_X) with 14.
  rewrite pte_spec by (done || change PTE_V with 1; lia). change PTE_V with 1.
  change 1024 with (2^10).
  rewrite <- lor_shiftl_add by lia. apply Z.bits_inj'. intros i Hi.
  rewrite Z.land_spec, Z.lor_spec, Z.bits_0.
  destruct (decide (i < 10)).
  - rewrite Z.shiftl_spec_low by lia. simpl.
    destruct (decide (i = 0)) as [->|]; [done|]. change 1 with (2^0).
    by rewrite Z.pow2_bits_false by lia.
  - rewrite (testbit_above 14 i 4) by lia. apply andb_false_r.
Qed.

Definition freewalk_body (n : nat) (r i : Z) : M kst unit :=
  let! pte := kload64 (r + 8 * i) in
  if pte_has pte PTE_V && (Z.land pte (Z.lor (Z.lor PTE_R PTE_W) PTE_X) =? 0) then
    freewalk kend n (PTE2PA pte) ;;
    kstore64 (r + 8 * i) 0
  else if pte_has pte PTE_V then panic "freewalk: leaf"
  else ret tt.

Lemma freewalk_S n r :
  freewalk kend (S n) r = (for_each (seqZ 0 512) (freewalk_body n r) ;; kfree kend r).
Proof. done. Qed.

Definition freewalk_ok (n : nat) : Prop := forall s l r pages,
  kinv kend s l -> subtree n (mem s) r pages -> NoDup (pages ++ l) -> Forall (valid_page kend) pages ->
  wp (freewalk kend n r) (fun _ s' => exists l', l' ≡ₚ pages ++ l /\ kinv kend s' l' /\
     unchanged_outside pages (mem s) (mem s')) s.

(** A write in the page [r] between the subtrees. *)
Lemma kinv_store s l r i v :
  kinv kend s l -> valid_page kend r -> r ∉ l -> 0 <= i < 512 ->
  kinv kend (set_mem (store64 (mem s) (r + 8 * i) v) s) l.
Proof.
  intros HK Hr Hrl Hi. apply (kinv_ext kend s); [done|by apply store64_wf, HK| |done].
  intros p b Hp Hb. apply load8_store64_ne. intros Hb'. apply Hrl.
  rewrite <- (in_page_disjoint p r b); [done| |apply Hr|done|by eapply entry_in_page].
  destruct HK as (_ & _ & _ & Hf). by eapply freelist_rep_valid.
Qed.

(** Freeing one child of [r] and clearing its entry leaves the other children
    and the other entries alone. *)
Lemma frame_child m m1 r i (P1 P2 : list Z) :
  valid_page kend r -> 0 <= i < 512 -> Forall (valid_page kend) P1 -> Forall (valid_page kend) P2 ->
  NoDup (r :: P1 ++ P2) -> unchanged_outside P1 m m1 ->
  (forall p b, p ∈ P2 -> in_page p b -> load8 (store64 m1 (r + 8 * i) 0) b = load8 m b) /\
  (forall k, 0 <= k < 512 -> k <> i ->
     load64 (store64 m1 (r + 8 * i) 0) (r + 8 * k) = load64 m (r + 8 * k)).
Proof.
  intros Hr Hi HP1 HP2 [Hrn Hnd]%NoDup_cons Hu. rewrite elem_of_app in Hrn.
  rewrite Forall_forall in HP1, HP2. apply NoDup_app in Hnd as (_ & Hd & _).
  assert (forall p b, valid_page kend p -> in_page p b -> p ∉ P1 -> load8 m1 b = load8 m b) as Hout.
  { intros p b Hp Hb Hpn. apply Hu. intros x Hx Hbx. apply Hpn.
    rewrite (in_page_disjoint p x b); [done|apply Hp|by apply HP1|done|done]. }
  split.
  - intros p b Hp Hb. rewrite load8_store64_ne.
    + eapply Hout; [by apply HP2|done|]. intros Hp1. by apply (Hd p).
    + intros Hbi. apply Hrn. right. rewrite <- (in_page_disjoint p r b); [done|by apply HP2|apply Hr|done|].
      by eapply entry_in_page.
  - intros k Hk Hki. apply load64_ext. intros b Hb. rewrite load8_store64_ne by lia.
    eapply (Hout r); [done|by eapply entry_in_page|tauto].
Qed.

Lemma wp_freewalk_loop n r (subs : Z -> list Z) ks : freewalk_ok n -> forall s l,
  kinv kend s l -> NoDup ks -> (forall i, i ∈ ks -> 0 <= i < 512) ->
  (forall i, i ∈ ks ->
     (pte_has (load64 (mem s) (r + 8 * i)) PTE_V = false /\ subs i = []) \/
     exists q, load64 (mem s) (r + 8 * i) = Z.lor (PA2PTE q) PTE_V /\ subtree n (mem s) q (subs i)) ->
  NoDup (r :: (ks ≫= subs) ++ l) -> Forall (valid_page kend) (r :: (ks ≫= subs)) ->
  wp (for_each ks (freewalk_body n r)) (fun _ s' => exists l', l' ≡ₚ (ks ≫= subs) ++ l /\
     kinv kend s' l' /\ unchanged_outside (r :: (ks ≫= subs)) (mem s) (mem s')) s.
Proof using Hend.
  intros IHn. induction ks as [|i ks IH]; intros s l HK Hks Hrange Hent Hnd Hval.
  { apply wp_ret. exists l. done. }
  apply NoDup_cons in Hks as [Hik Hks]. pose proof (Hrange i ltac:(by left)) as Hi.
  cbn [for_each mbind list_bind] in *. fold (mbind (M:=list) subs ks) in *.
  apply wp_bind, wp_bind, wp_gets.
  destruct (Hent i ltac:(by left)) as [[HV Hsub]|(q & Hq & Hsub)].
  - rewrite HV. simpl. apply wp_ret. rewrite Hsub in *. apply IH; try done.
    + intros k Hk. apply Hrange. by right.
    + intros k Hk. apply Hent. by right.
  - inversion Hval as [|? ? Hr Hval']; subst. apply Forall_app in Hval' as [Hvi Hvk].
    assert (valid_page kend q) as Hqv.
    { rewrite Forall_forall in Hvi. by eapply Hvi, subtree_root. }
    destruct (inner_entry kend Hend q Hqv) as [HV HP].
    rewrite Hq, HV, HP, inner_entry_not_leaf by done. simpl.
    apply NoDup_cons in Hnd as [Hrn Hnd]. rewrite !elem_of_app in Hrn.
    apply wp_bind. eapply wp_conseq; [apply (IHn s l q (subs i)); [done|done| |done]|].
    { revert Hnd. rewrite <- (assoc_L (++)). intros (H1 & H2 & H3)%NoDup_app.
      apply NoDup_app. apply NoDup_app in H3 as (_ & _ & H3). splits; [done| |done].
      intros x Hx Hxl. apply (H2 x Hx), elem_of_app. by right. }
    intros [] s1 (l' & HPl & HK1 & Hu1). apply wp_modify.
    set (s2 := set_mem _ s1).
    assert (r ∉ l') as Hrl by (rewrite HPl, elem_of_app; tauto).
    assert (HK2 : kinv kend s2 l') by (by apply kinv_store).
    destruct (frame_child (mem s) (mem s1) r i (subs i) (ks ≫= subs)) as [Hm2 Hr2]; try done.
    { apply NoDup_cons. rewrite elem_of_app. split; [tauto|]. by apply NoDup_app in Hnd as (? & _). }
    eapply wp_conseq; [apply (IH s2 l'); try done|].
    + intros k Hk. apply Hrange. by right.
    + intros k Hk. pose proof (Hrange k ltac:(by right)) as Hkr.
      simpl. rewrite Hr2 by (done || by intros ->).
      destruct (Hent k ltac:(by right)) as [?|(q' & ? & ?)]; [by left|right].
      exists q'. split; [done|]. eapply subtree_ext; [|done].
      intros p b Hp. apply Hm2. by eapply elem_of_subs.
    + apply NoDup_cons. rewrite elem_of_app. split; [tauto|].
      rewrite HPl. revert Hnd. apply NoDup_Permutation_proper. solve_Permutation.
    + by constructor.
    + intros [] s3 (l3 & HP3 & HK3 & Hu3). exists l3. splits; [|done|].
      * rewrite HP3, HPl. solve_Permutation.
      * intros b Hb. rewrite Hu3.
        -- simpl. rewrite load8_store64_ne.
           ++ apply Hu1. intros p Hp. apply Hb. right. apply elem_of_app. by left.
           ++ intros Hbi. apply (Hb r); [by left|by eapply entry_in_page].
        -- intros p Hp. apply Hb. rewrite elem_of_cons, elem_of_app in *. tauto.
Qed.

Lemma wp_freewalk n : freewalk_ok n.
Proof using Hend.
  induction n as [|n IH]; intros s l r pages HK Hsub Hnd Hval; [done|].
  destruct Hsub as (subs & HP & Hent). rewrite freewalk_S.
  rewrite HP in Hnd, Hval. pose proof Hval as Hval'. inversion Hval' as [|? ? Hr _]; subst.
  apply wp_bind. eapply wp_conseq; [apply (wp_freewalk_loop n r subs); try done|].
  - apply NoDup_seqZ.
  - intros i Hi%elem_of_seqZ. lia.
  - intros i Hi%elem_of_seqZ. apply Hent. lia.
  - intros [] s1 (l' & HPl & HK1 & Hu1). apply NoDup_cons in Hnd as [Hrn Hnd].
    apply (wp_kfree kend Hend s1 l'); [done|done|by rewrite HPl|].
    intros s2 HK2 Hout. exists (r :: l'). splits; [by rewrite HPl, HP|done|].
    intros a Ha. rewrite Hout, Hu1; [done|..].
    + intros p Hp. apply Ha. by rewrite HP.
    + apply Ha. rewrite HP. by left.
Qed.

(** [uvmfree] gives back every page of the address space and of its page
    table, once the trampoline and the trapframe are unmapped. *)
Lemma wp_uvmfree s l t D sz :
  uvinv kend s l t D -> 0 <= sz <= TRAPFRAME -> Z.of_nat (length D) = pgs sz ->
  (forall va, TRAPFRAME <= va < MAXVA -> pte_has (leaf (mem s) t va) PTE_V = false) ->
  wp (uvmfree kend (root t) sz) (fun _ s' => exists l', l' ≡ₚ D ++ pt_pages t ++ l /\
     kinv kend s' l' /\ unchanged_outside (D ++ pt_pages t ++ l) (mem s) (mem s')) s.
Proof using Hend.
  intros HU Hsz Hlen Htop. unfold uvmfree. apply wp_bind.
  assert (Hrest : forall s1, dealloc_post kend s l t [] D s1 ->
    wp (freewalk kend 3 (root t)) (fun _ s' => exists l', l' ≡ₚ D ++ pt_pages t ++ l /\
     kinv kend s' l' /\ unchanged_outside (D ++ pt_pages t ++ l) (mem s) (mem s')) s1).
  { intros s1 ((HI1 & [_ Hno1] & Hnd1 & _) & Hl1 & Hu1). pose proof HI1 as (HK1 & Hrep1 & _ & Hv1).
    eapply wp_conseq.
    - apply (wp_freewalk 3 s1 (rev D ++ l) (root t) (pt_pages t)); [done| |done|by apply Forall_forall].
      apply pt_subtree; [done|]. intros va Hva. destruct (decide (va < TRAPFRAME)).
      + apply Hno1. simpl. lia.
      + rewrite Hl1 by lia. apply Htop. lia.
    - intros [] s2 (l' & HP & HK2 & Hu2). exists l'. splits; [|done|].
      + rewrite HP, <- Permutation_rev. solve_Permutation.
      + intros a Ha. rewrite Hu2, Hu1; [done|..]; intros p Hp; apply Ha; rewrite !elem_of_app in *; tauto. }
  case_match eqn:E; b2p.
  - rewrite PGROUNDUP_pgs by lia. rewrite Z.div_mul by done. rewrite <- Hlen.
    eapply wp_conseq; [apply (wp_unmap_tail kend Hend s l t [] D HU)|].
    intros [] s1 H1. by apply Hrest.
  - apply wp_ret. assert (D = []) as ->.
    { destruct D; [done|]. unfold pgs, PGSIZE in Hlen. simpl in Hlen. dlia. }
    apply Hrest. split; [done|split; done].
Qed.
End freewalk.
