(* ===== verification/VmCopy.v ===== *)
(** * Copying between the kernel and user space

    [walkaddr], [copyout], [copyin] and [copyinstr] of kernel/vm.c.  [upa]
    translates a user virtual address the way the paging hardware does for
    user mode; the theorems say that the kernel touches exactly the bytes that
    the process itself could touch. *)

From S2P Require Import Prelude Riscv Memory Spinlock Kalloc Vm PageTable VmMap UserVm.

(** The physical page behind a user virtual address. *)
Definition page_pa (m : gmap Z Z) (t : ptree) (va : Z) : option Z :=
  if decide (0 <= va < MAXVA) then
    let v := leaf m t va in
    if pte_has v PTE_V && pte_has v PTE_U then Some (PTE2PA v) else None
  else None.
Definition upa (m : gmap Z Z) (t : ptree) (va : Z) : option Z :=
  (fun p => p + va mod PGSIZE) <$> page_pa m t va.

Section vmcopy.
Context (kend : Z) (Hend : 0 < kend).

(** An address space with nothing accessible from the trapframe upwards. *)
Definition user_ok (s : kst) (l : list Z) (t : ptree) (D : list Z) : Prop :=
  uvinv kend s l t D /\
  forall va, TRAPFRAME <= va < MAXVA -> pte_has (leaf (mem s) t va) PTE_U = false.

Lemma page_pa_page m t va va' : va / PGSIZE = va' / PGSIZE -> page_pa m t va = page_pa m t va'.
Proof.
  intros He. unfold page_pa. change MAXVA with (2^26 * PGSIZE).
  assert (0 <= va < 2^26 * PGSIZE <-> 0 <= va' < 2^26 * PGSIZE) as Hi by (unfold PGSIZE in *; dlia).
  repeat case_decide; try tauto. rewrite (leaf_page m t va va'); auto.
Qed.

Lemma page_pa_data s l t D va p :
  user_ok s l t D -> page_pa (mem s) t va = Some p ->
  0 <= va < MAXVA /\ D !! Z.to_nat (va / PGSIZE) = Some p /\ valid_page kend p /\ p ∈ D.
Proof.
  intros [(HI & [Hmap Hno] & Hnd & Hval & Hlen) Htop] Hp. pose proof TRAPFRAME_val as HT.
  unfold page_pa in Hp. case_decide as Hva; [|done].
  destruct (pte_has _ PTE_V) eqn:HV; [|done]. destruct (pte_has _ PTE_U) eqn:HU; [|done].
  injection Hp as Hp. assert (va < TRAPFRAME).
  { destruct (decide (va < TRAPFRAME)); [done|]. rewrite Htop in HU by lia. done. }
  assert (va < Z.of_nat (length D) * PGSIZE).
  { destruct (decide (va < Z.of_nat (length D) * PGSIZE)); [done|]. rewrite Hno in HV by lia. done. }
  assert (Z.to_nat (va / PGSIZE) < length D)%nat as Hk by (unfold PGSIZE in *; dlia).
  destruct (lookup_lt_is_Some_2 D _ Hk) as [q Hq]. destruct (Hmap _ _ Hq) as (_ & _ & HP).
  rewrite (leaf_page _ t _ va) in HP; [|change MAXVA with (2^38) in *; unfold PGSIZE in *; dlia|done|unfold PGSIZE; dlia].
  rewrite Hp in HP. subst q. rewrite Forall_forall in Hval.
  assert (p ∈ D) by (by eapply list_elem_of_lookup_2). auto.
Qed.

(** Translation is injective. *)
Lemma upa_inj s l t D va va' a :
  user_ok s l t D -> upa (mem s) t va = Some a -> upa (mem s) t va' = Some a -> va = va'.
Proof.
  intros HU (p & Hp & ->)%fmap_Some (p' & Hp' & E)%fmap_Some.
  destruct (page_pa_data _ _ _ _ _ _ HU Hp) as (Hva & Hk & [Ha _] & Hin).
  destruct (page_pa_data _ _ _ _ _ _ HU Hp') as (Hva' & Hk' & [Ha' _] & Hin').
  assert (p = p' /\ va mod PGSIZE = va' mod PGSIZE) as [-> Hm] by (unfold page_aligned, PGSIZE in *; dlia).
  destruct HU as [(_ & _ & Hnd & _) _]. apply NoDup_app in Hnd as (Hnd & _).
  pose proof (NoDup_lookup _ _ _ _ Hnd Hk Hk'). unfold PGSIZE in *. dlia.
Qed.

Lemma upa_in s l t D va a :
  user_ok s l t D -> upa (mem s) t va = Some a -> exists p, p ∈ D /\ in_page p a.
Proof.
  intros HU (p & Hp & ->)%fmap_Some. destruct (page_pa_data _ _ _ _ _ _ HU Hp) as (_ & _ & _ & ?).
  exists p. split; [done|]. unfold in_page, PGSIZE. dlia.
Qed.

(** [walkaddr] is the translation of a page; 0 stands for no access. *)
Lemma walkaddr_spec s l t D va :
  user_ok s l t D -> 0 <= va < 2^64 ->
  walkaddr (root t) va s = Ok (default 0 (page_pa (mem s) t va)) s.
Proof using Hend.
  intros [(HI & _) _] Hva. unfold walkaddr, page_pa.
  case_decide as Hm; [replace (MAXVA <=? va) with false by (bool_goal; lia)|
                      replace (MAXVA <=? va) with true by (bool_goal; lia); done].
  rewrite (bind_ok _ _ _ _ _ (walk_noalloc kend Hend s l t va HI Hm)). unfold leaf.
  destruct (pte_addr t va) as [a|] eqn:Ea; simpl; [|done].
  pose proof (pte_addr_nonzero kend Hend _ _ _ _ _ HI Ea).
  replace (a =? 0) with false by (bool_goal; lia). unfold bind, kload64, gets.
  destruct (pte_has _ PTE_V); simpl; [|done]. destruct (pte_has _ PTE_U); done.
Qed.

Lemma page_pa_nonzero s l t D va p : user_ok s l t D -> page_pa (mem s) t va = Some p -> p <> 0.
Proof using Hend.
  intros HU Hp. destruct (page_pa_data _ _ _ _ _ _ HU Hp) as (_ & _ & Hv & _).
  by apply (valid_page_nonzero kend Hend).
Qed.

(** Memory changes away from the page table and the free pages. *)
Lemma user_ok_write s m l t D :
  user_ok s l t D -> mem_wf m ->
  (forall q b, q ∈ pt_pages t ++ l -> in_page q b -> load8 m b = load8 (mem s) b) ->
  user_ok (set_mem m s) l t D /\ (forall va, leaf m t va = leaf (mem s) t va) /\
  forall va, page_pa m t va = page_pa (mem s) t va.
Proof.
  intros [(HI & [Hmap Hno] & Hrest) Htop] Hw He.
  destruct (vinv_mem_ext kend s (set_mem m s) l t) as [HI' Hl]; [done|done|done|done|].
  simpl in Hl. splits; [|done|].
  - split; [split; [done|split; [split|done]]|]; intros *; simpl; rewrite Hl; auto.
  - intros va. unfold page_pa. by rewrite Hl.
Qed.

Lemma data_not_kernel s l t D p q b :
  user_ok s l t D -> p ∈ D -> in_page p b -> q ∈ pt_pages t ++ l -> ~ in_page q b.
Proof.
  intros [(HI & _ & Hnd & Hval & _) _] Hp Hb Hq Hb'. rewrite Forall_forall in Hval.
  apply NoDup_app in Hnd as (_ & Hd & _). apply (Hd p Hp).
  rewrite (in_page_disjoint p q b); [done|by apply Hval| |done|done].
  destruct HI as ((_ & _ & _ & Hf) & _ & _ & Hv).
  apply elem_of_app in Hq as [Hq|Hq]; [by apply Hv|by eapply freelist_rep_valid].
Qed.

(** ** copyout *)

(** The kernel buffer is not one of the process's pages. *)
Definition not_user (D : list Z) (a n : Z) : Prop :=
  forall p b, p ∈ D -> a <= b < a + n -> ~ in_page p b.

Definition copyout_post (s : kst) (l : list Z) (t : ptree) (D : list Z) (dstva src len r : Z) (s' : kst) : Prop :=
  user_ok s' l t D /\ (forall va, leaf (mem s') t va = leaf (mem s) t va) /\
  (forall a, (forall i, 0 <= i < len -> upa (mem s) t (dstva + i) <> Some a) ->
     load8 (mem s') a = load8 (mem s) a) /\
  ((r = 0 /\ forall i, 0 <= i < len -> exists a, upa (mem s) t (dstva + i) = Some a /\
                         load8 (mem s') a = load8 (mem s) (src + i)) \/
   (r = -1 /\ exists i, 0 <= i < len /\ upa (mem s) t (dstva + i) = None)).

Lemma copyout_loop_S fuel pt dstva src len :
  copyout_loop (S fuel) pt dstva src len =
  if 0 <? len then
    let va0 := PGROUNDDOWN dstva in
    let! pa0 := walkaddr pt va0 in
    if pa0 =? 0 then ret (-1) else
    let n := PGSIZE - (dstva - va0) in
    let n := if len <? n then len else n in
    kmemmove (pa0 + (dstva - va0)) src n ;;
    copyout_loop fuel pt (wrap64 (va0 + PGSIZE)) (src + n) (len - n)
  else ret 0.
Proof. done. Qed.

(** The bytes of one page. *)
Lemma upa_chunk m t va i :
  0 <= i < PGSIZE - va mod PGSIZE ->
  upa m t (va + i) = (fun p => p + va mod PGSIZE + i) <$> page_pa m t va.
Proof.
  intros Hi. unfold upa. rewrite (page_pa_page m t (va + i) va) by (unfold PGSIZE in *; dlia).
  replace ((va + i) mod PGSIZE) with (va mod PGSIZE + i) by (unfold PGSIZE in *; dlia).
  destruct (page_pa m t va); simpl; [f_equal; lia|done].
Qed.

(** Copying into one page. *)
Lemma copyout_chunk s l t D dstva src n p :
  user_ok s l t D -> page_pa (mem s) t dstva = Some p ->
  0 < n <= PGSIZE - dstva mod PGSIZE -> not_user D src n ->
  copyout_post s l t D dstva src n 0 (set_mem (memmove (mem s) (p + dstva mod PGSIZE) src n) s).
Proof.
  intros HU Hp Hn Hsrc. destruct (page_pa_data _ _ _ _ _ _ HU Hp) as (Hva & _ & Hpv & Hin).
  assert (Hw : mem_wf (mem s)) by apply HU.
  assert (Hb : forall a, p + dstva mod PGSIZE <= a < p + dstva mod PGSIZE + n -> in_page p a)
    by (unfold in_page, PGSIZE in *; intros; dlia).
  destruct (user_ok_write s (memmove (mem s) (p + dstva mod PGSIZE) src n) l t D HU) as (HU' & Hl & _).
  - apply memmove_wf; [done|lia].
  - intros q b Hq Hqb. rewrite load8_memmove by (done || lia). case_decide as Hd; [|done].
    exfalso. eapply (data_not_kernel s l t D p q b); eauto.
  - split; [done|split; [done|split]]; simpl.
    + intros a Ha. rewrite load8_memmove by (done || lia). case_decide as Hd; [|done].
      exfalso. apply (Ha (a - (p + dstva mod PGSIZE)) ltac:(lia)).
      rewrite upa_chunk, Hp by lia. simpl. f_equal. lia.
    + left. split; [done|]. intros i Hi. exists (p + dstva mod PGSIZE + i).
      rewrite upa_chunk, Hp by lia. split; [done|].
      rewrite load8_memmove by (done || lia). rewrite decide_True by lia. f_equal. lia.
Qed.

(** Sequencing a successful copy of [n] bytes and the copy of the rest. *)
Lemma copyout_post_trans s l t D dstva src n len r s1 s2 :
  user_ok s l t D -> 0 <= n <= len -> not_user D src len ->
  copyout_post s l t D dstva src n 0 s1 ->
  copyout_post s1 l t D (dstva + n) (src + n) (len - n) r s2 ->
  copyout_post s l t D dstva src len r s2.
Proof.
  intros HU Hn Hsrc (HU1 & Hl1 & Hout1 & H1) (HU2 & Hl2 & Hout2 & H2).
  assert (forall va, upa (mem s1) t va = upa (mem s) t va) as Hupa.
  { intros va. unfold upa, page_pa. by rewrite Hl1. }
  destruct H1 as [[_ H1]|[? _]]; [|done].
  split; [done|split; [|split]].
  - intros va. by rewrite Hl2.
  - intros a Ha. rewrite Hout2, Hout1; [done|intros i Hi; apply Ha; lia|].
    intros i Hi. rewrite Hupa. replace (dstva + n + i) with (dstva + (n + i)) by lia. apply Ha. lia.
  - destruct H2 as [[-> H2]|[-> (i & Hi & H2)]]; [left|right]; (split; [done|]).
    + intros i Hi. destruct (decide (i < n)).
      * destruct (H1 i) as (a & Ha & Hby); [lia|]. exists a. split; [done|].
        rewrite Hout2; [done|]. intros j Hj. rewrite Hupa. intros Hj'.
        pose proof (upa_inj _ _ _ _ _ _ _ HU Ha Hj'). lia.
      * destruct (H2 (i - n)) as (a & Ha & Hby); [lia|]. exists a.
        rewrite Hupa in Ha. replace (dstva + n + (i - n)) with (dstva + i) in Ha by lia.
        split; [done|]. rewrite Hby. replace (src + n + (i - n)) with (src + i) by lia.
        apply Hout1. intros j Hj Hj'. destruct (upa_in _ _ _ _ _ _ HU Hj') as (p & Hp & Hpb).
        eapply Hsrc; [exact Hp| |exact Hpb]. lia.
    + exists (n + i). split; [lia|]. rewrite <- Hupa, <- H2. f_equal. lia.
Qed.

Lemma wp_copyout_loop l t D fuel : forall s dstva src len,
  user_ok s l t D -> 0 <= dstva < 2^64 -> 0 <= len ->
  dstva mod PGSIZE + len <= Z.of_nat fuel * PGSIZE -> not_user D src len ->
  wp (copyout_loop fuel (root t) dstva src len) (copyout_post s l t D dstva src len) s.
Proof using Hend.
  assert (forall s dstva src, user_ok s l t D -> copyout_post s l t D dstva src 0 0 s) as Hnil.
  { intros s dstva src HU. split; [done|split; [done|split; [done|]]]. left. split; [done|]. lia. }
  induction fuel as [|fuel IH]; intros s dstva src len HU Hdst Hlen Hfuel Hsrc.
  { assert (len = 0) as -> by (unfold PGSIZE in *; dlia). simpl. by apply wp_ret, Hnil. }
  rewrite copyout_loop_S. case_match eqn:E; b2p.
  2:{ assert (len = 0) as -> by lia. by apply wp_ret, Hnil. }
  cbv zeta. rewrite PGROUNDDOWN_spec by done.
  replace (dstva - (dstva - dstva mod PGSIZE)) with (dstva mod PGSIZE) by lia.
  apply wp_bind. eapply wp_run; [apply (walkaddr_spec s l t D); [done|unfold PGSIZE; dlia]|].
  rewrite (page_pa_page (mem s) t _ dstva) by (unfold PGSIZE; dlia).
  destruct (page_pa (mem s) t dstva) as [p|] eqn:Ep; simpl.
  2:{ apply wp_ret. split; [done|split; [done|split; [done|]]]. right. split; [done|].
      exists 0. split; [lia|]. unfold upa. by rewrite Z.add_0_r, Ep. }
  pose proof (page_pa_nonzero _ _ _ _ _ _ HU Ep). replace (p =? 0) with false by (bool_goal; lia).
  destruct (page_pa_data _ _ _ _ _ _ HU Ep) as (Hva & _).
  apply wp_bind, wp_modify. set (n := if len <? _ then len else _).
  assert (n = Z.min len (PGSIZE - dstva mod PGSIZE)) as Hn by (unfold n; case_match; b2p; lia).
  clearbody n. assert (0 < n) by (unfold PGSIZE in *; dlia).
  assert (copyout_post s l t D dstva src n 0
            (set_mem (memmove (mem s) (p + dstva mod PGSIZE) src n) s)) as HC1.
  { apply copyout_chunk; [done|done|unfold PGSIZE in *; dlia|]. intros q b Hq Hb. apply Hsrc; [done|lia]. }
  rewrite wrap64_small by (change MAXVA with (2^38) in *; unfold PGSIZE in *; dlia).
  destruct (decide (len = n)) as [->|Hne].
  - rewrite Z.sub_diag. destruct fuel; by apply wp_ret.
  - replace (dstva - dstva mod PGSIZE + PGSIZE) with (dstva + n) by lia.
    eapply wp_conseq; [apply IH|].
    + apply HC1.
    + change MAXVA with (2^38) in *. unfold PGSIZE in *. dlia.
    + lia.
    + unfold PGSIZE in *. dlia.
    + intros q b Hq Hb. apply Hsrc; [done|lia].
    + intros r s2 HC2. eapply (copyout_post_trans s l t D dstva src n len); [done|split; [|lia]; unfold PGSIZE in *; dlia|done|exact HC1|exact HC2].
Qed.

Lemma wp_copyout s l t D dstva src len :
  user_ok s l t D -> 0 <= dstva < 2^64 -> 0 <= len -> not_user D src len ->
  wp (copyout (root t) dstva src len) (copyout_post s l t D dstva src len) s.
Proof using Hend.
  intros. unfold copyout. apply wp_copyout_loop; [done|done|done| |done]. unfold PGSIZE. dlia.
Qed.

(** ** copyin *)

(** The kernel buffer at [dst] is neither user memory, nor page table, nor
    free. *)
Definition kernel_buf (l : list Z) (t : ptree) (D : list Z) (dst n : Z) : Prop :=
  forall p b, p ∈ D ++ pt_pages t ++ l -> dst <= b < dst + n -> ~ in_page p b.

Definition copyin_post (s : kst) (l : list Z) (t : ptree) (D : list Z) (dst srcva len r : Z) (s' : kst) : Prop :=
  user_ok s' l t D /\ (forall va, leaf (mem s') t va = leaf (mem s) t va) /\
  (forall a, ~ (dst <= a < dst + len) -> load8 (mem s') a = load8 (mem s) a) /\
  ((r = 0 /\ forall i, 0 <= i < len -> exists a, upa (mem s) t (srcva + i) = Some a /\
                         load8 (mem s') (dst + i) = load8 (mem s) a) \/
   (r = -1 /\ exists i, 0 <= i < len /\ upa (mem s) t (srcva + i) = None)).

Lemma copyin_loop_S fuel pt dst srcva len :
  copyin_loop (S fuel) pt dst srcva len =
  if 0 <? len then
    let va0 := PGROUNDDOWN srcva in
    let! pa0 := walkaddr pt va0 in
    if pa0 =? 0 then ret (-1) else
    let n := PGSIZE - (srcva - va0) in
    let n := if len <? n then len else n in
    kmemmove dst (pa0 + (srcva - va0)) n ;;
    copyin_loop fuel pt (dst + n) (wrap64 (va0 + PGSIZE)) (len - n)
  else ret 0.
Proof. done. Qed.

Lemma copyin_chunk s l t D dst srcva n p :
  user_ok s l t D -> page_pa (mem s) t srcva = Some p ->
  0 < n <= PGSIZE - srcva mod PGSIZE -> kernel_buf l t D dst n ->
  copyin_post s l t D dst srcva n 0 (set_mem (memmove (mem s) dst (p + srcva mod PGSIZE) n) s).
Proof.
  intros HU Hp Hn Hdst. assert (Hw : mem_wf (mem s)) by apply HU.
  destruct (user_ok_write s (memmove (mem s) dst (p + srcva mod PGSIZE) n) l t D HU) as (HU' & Hl & _).
  - apply memmove_wf; [done|lia].
  - intros q b Hq Hqb. rewrite load8_memmove by (done || lia). case_decide as Hd; [|done].
    exfalso. eapply (Hdst q b); eauto. apply elem_of_app. by right.
  - split; [done|split; [done|split]]; simpl.
    + intros a Ha. rewrite load8_memmove by (done || lia). by case_decide.
    + left. split; [done|]. intros i Hi. exists (p + srcva mod PGSIZE + i).
      rewrite upa_chunk, Hp by lia. split; [done|].
      rewrite load8_memmove by (done || lia). rewrite decide_True by lia. f_equal. lia.
Qed.

Lemma copyin_post_trans s l t D dst srcva n len r s1 s2 :
  user_ok s l t D -> 0 <= n <= len -> kernel_buf l t D dst len ->
  copyin_post s l t D dst srcva n 0 s1 ->
  copyin_post s1 l t D (dst + n) (srcva + n) (len - n) r s2 ->
  copyin_post s l t D dst srcva len r s2.
Proof.
  intros HU Hn Hdst (HU1 & Hl1 & Hout1 & H1) (HU2 & Hl2 & Hout2 & H2).
  assert (forall va, upa (mem s1) t va = upa (mem s) t va) as Hupa.
  { intros va. unfold upa, page_pa. by rewrite Hl1. }
  destruct H1 as [[_ H1]|[? _]]; [|done].
  split; [done|split; [|split]].
  - intros va. by rewrite Hl2.
  - intros a Ha. rewrite Hout2, Hout1; [done|lia..].
  - destruct H2 as [[-> H2]|[-> (i & Hi & H2)]]; [left|right]; (split; [done|]).
    + intros i Hi. destruct (decide (i < n)).
      * destruct (H1 i) as (a & Ha & Hby); [lia|]. exists a. split; [done|].
        rewrite Hout2; [done|lia].
      * destruct (H2 (i - n)) as (a & Ha & Hby); [lia|]. exists a.
        rewrite Hupa in Ha. replace (srcva + n + (i - n)) with (srcva + i) in Ha by lia.
        split; [done|]. replace (dst + n + (i - n)) with (dst + i) in Hby by lia. rewrite Hby.
        apply Hout1. intros Hj. destruct (upa_in _ _ _ _ _ _ HU Ha) as (p & Hp & Hpb).
        eapply (Hdst p a); [apply elem_of_app; by left|lia|done].
    + exists (n + i). split; [lia|]. rewrite <- Hupa, <- H2. f_equal. lia.
Qed.

Lemma wp_copyin_loop l t D fuel : forall s dst srcva len,
  user_ok s l t D -> 0 <= srcva < 2^64 -> 0 <= len ->
  srcva mod PGSIZE + len <= Z.of_nat fuel * PGSIZE -> kernel_buf l t D dst len ->
  wp (copyin_loop fuel (root t) dst srcva len) (copyin_post s l t D dst srcva len) s.
Proof using Hend.
  assert (forall s dst srcva, user_ok s l t D -> copyin_post s l t D dst srcva 0 0 s) as Hnil.
  { intros s dst srcva HU. split; [done|split; [done|split; [done|]]]. left. split; [done|]. lia. }
  induction fuel as [|fuel IH]; intros s dst srcva len HU Hsrc Hlen Hfuel Hdst.
  { assert (len = 0) as -> by (unfold PGSIZE in *; dlia). simpl. by apply wp_ret, Hnil. }
  rewrite copyin_loop_S. case_match eqn:E; b2p.
  2:{ assert (len = 0) as -> by lia. by apply wp_ret, Hnil. }
  cbv zeta. rewrite PGROUNDDOWN_spec by done.
  replace (srcva - (srcva - srcva mod PGSIZE)) with (srcva mod PGSIZE) by lia.
  apply wp_bind. eapply wp_run; [apply (walkaddr_spec s l t D); [done|unfold PGSIZE; dlia]|].
  rewrite (page_pa_page (mem s) t _ srcva) by (unfold PGSIZE; dlia).
  destruct (page_pa (mem s) t srcva) as [p|] eqn:Ep; simpl.
  2:{ apply wp_ret. split; [done|split; [done|split; [done|]]]. right. split; [done|].
      exists 0. split; [lia|]. unfold upa. by rewrite Z.add_0_r, Ep. }
  pose proof (page_pa_nonzero _ _ _ _ _ _ HU Ep). replace (p =? 0) with false by (bool_goal; lia).
  destruct (page_pa_data _ _ _ _ _ _ HU Ep) as (Hva & _).
  apply wp_bind, wp_modify. set (n := if len <? _ then len else _).
  assert (n = Z.min len (PGSIZE - srcva mod PGSIZE)) as Hn by (unfold n; case_match; b2p; lia).
  clearbody n. assert (0 < n) by (unfold PGSIZE in *; dlia).
  assert (copyin_post s l t D dst srcva n 0
            (set_mem (memmove (mem s) dst (p + srcva mod PGSIZE) n) s)) as HC1.
  { apply copyin_chunk; [done|done|lia|]. intros q b Hq Hb. apply Hdst; [done|lia]. }
  rewrite wrap64_small by (change MAXVA with (2^38) in *; unfold PGSIZE in *; dlia).
  destruct (decide (len = n)) as [->|Hne].
  - rewrite Z.sub_diag. destruct fuel; by apply wp_ret.
  - replace (srcva - srcva mod PGSIZE + PGSIZE) with (srcva + n) by lia.
    eapply wp_conseq; [apply IH|].
    + apply HC1.
    + change MAXVA with (2^38) in *. unfold PGSIZE in *. dlia.
    + lia.
    + unfold PGSIZE in *. dlia.
    + intros q b Hq Hb. apply Hdst; [done|lia].
    + intros r s2 HC2. eapply (copyin_post_trans s l t D dst srcva n len); [done|lia|done|exact HC1|exact HC2].
Qed.

Lemma wp_copyin s l t D dst srcva len :
  user_ok s l t D -> 0 <= srcva < 2^64 -> 0 <= len -> kernel_buf l t D dst len ->
  wp (copyin (root t) dst srcva len) (copyin_post s l t D dst srcva len) s.
Proof using Hend.
  intros. unfold copyin. apply wp_copyin_loop; [done|done|done| |done]. unfold PGSIZE. dlia.
Qed.

(** ** copyinstr *)

Definition page_post (m : gmap Z Z) (p dst n : Z) (got : bool) (k : Z) (m' : gmap Z Z) : Prop :=
  mem_wf m' /\ (forall a, ~ (dst <= a < dst + n) -> load8 m' a = load8 m a) /\ 0 <= k <= n /\
  (forall i, 0 <= i < k -> load8 m' (dst + i) = load8 m (p + i) /\ load8 m (p + i) <> 0) /\
  (if got then k < n /\ load8 m (p + k) = 0 /\ load8 m' (dst + k) = 0 else k = n).

Lemma copyinstr_page_spec n : forall s p dst,
  mem_wf (mem s) -> (forall b, p <= b < p + Z.of_nat n -> ~ (dst <= b < dst + Z.of_nat n)) ->
  exists got k m', copyinstr_page n p dst s = Ok (got, dst + k) (set_mem m' s) /\
    page_post (mem s) p dst (Z.of_nat n) got k m'.
Proof.
  induction n as [|n IH]; intros s p dst Hw Hdis.
  { exists false, 0, (mem s). split; [destruct s; unfold ret; simpl; do 2 f_equal; lia|].
    unfold page_post. splits; try done; lia. }
  cbn [copyinstr_page]. unfold bind, kload8, kstore8, gets, modify. case_match eqn:E; b2p.
  - exists true, 0, (store8 (mem s) dst 0). split; [unfold ret; do 2 f_equal; lia|].
    unfold page_post. rewrite !Z.add_0_r. splits; try lia; [by apply store8_wf| |].
    + intros a Ha. rewrite load8_store8. case_decide; [lia|done].
    + rewrite load8_store8. by rewrite decide_True.
  - set (s1 := set_mem _ s).
    destruct (IH s1 (p + 1) (dst + 1)) as (got & k & m' & Hrun & Hw' & Hout & Hk & Hby & Hend').
    { by apply store8_wf. } { intros b Hb Hb'. apply (Hdis b); lia. }
    assert (Hs1 : forall a, a <> dst -> load8 (mem s1) a = load8 (mem s) a).
    { intros a Ha. simpl. rewrite load8_store8. by rewrite decide_False. }
    assert (forall i, 0 <= i < Z.of_nat (S n) -> p + i <> dst) as Hne.
    { intros i Hi He. apply (Hdis dst); lia. }
    exists got, (k + 1), m'. split; [rewrite Hrun; destruct s; simpl; do 2 f_equal; lia|].
    unfold page_post. splits; [done| |lia|lia| |].
    + intros a Ha. rewrite Hout by lia. apply Hs1. lia.
    + intros i Hi. destruct (decide (i = 0)) as [->|].
      * rewrite !Z.add_0_r, Hout by lia. simpl. rewrite load8_store8, decide_True by done.
        split; [|done]. apply wrap8_small. pose proof (Hw p). lia.
      * destruct (Hby (i - 1)) as [Hb Hnz]; [lia|]. rewrite !Hs1 in * by (specialize (Hne i); lia).
        replace (p + 1 + (i - 1)) with (p + i) in * by lia.
        by replace (dst + 1 + (i - 1)) with (dst + i) in * by lia.
    + destruct got; [|lia]. destruct Hend' as (Hk' & Hz & Hzd).
      rewrite Hs1 in Hz by (specialize (Hne (k + 1)); lia).
      replace (p + 1 + k) with (p + (k + 1)) in Hz by lia.
      replace (dst + 1 + k) with (dst + (k + 1)) in Hzd by lia. split; [lia|done].
Qed.

(** [n] accessible bytes from [va], none of them NUL; and the string of [n]
    bytes that starts at [va]. *)
Definition no_nul (m : gmap Z Z) (t : ptree) (va n : Z) : Prop :=
  forall i, 0 <= i < n -> exists a, upa m t (va + i) = Some a /\ load8 m a <> 0.
Definition user_str (m : gmap Z Z) (t : ptree) (va n : Z) : Prop :=
  no_nul m t va n /\ exists a, upa m t (va + n) = Some a /\ load8 m a = 0.

Definition copyinstr_post (s : kst) (l : list Z) (t : ptree) (D : list Z) (dst srcva max r : Z) (s' : kst) : Prop :=
  user_ok s' l t D /\ (forall va, leaf (mem s') t va = leaf (mem s) t va) /\
  (forall a, ~ (dst <= a < dst + max) -> load8 (mem s') a = load8 (mem s) a) /\
  ((r = 0 /\ exists n, 0 <= n < max /\ user_str (mem s) t srcva n /\
      forall i a, 0 <= i <= n -> upa (mem s) t (srcva + i) = Some a -> load8 (mem s') (dst + i) = load8 (mem s) a) \/
   (r = -1 /\ exists n, 0 <= n <= max /\ no_nul (mem s) t srcva n /\
      (n = max \/ upa (mem s) t (srcva + n) = None))).

Lemma copyinstr_loop_S fuel pt dst srcva max :
  copyinstr_loop (S fuel) pt dst srcva max =
  if 0 <? max then
    let va0 := PGROUNDDOWN srcva in
    let! pa0 := walkaddr pt va0 in
    if pa0 =? 0 then ret (-1) else
    let n := PGSIZE - (srcva - va0) in
    let n := if max <? n then max else n in
    let! r := copyinstr_page (Z.to_nat n) (pa0 + (srcva - va0)) dst in
    let '(got_null, dst') := r in
    if got_null then ret 0
    else copyinstr_loop fuel pt dst' (wrap64 (va0 + PGSIZE)) (max - n)
  else ret (-1).
Proof. done. Qed.

(** One page of the string: the NUL is in it, or all its bytes are copied. *)
Lemma copyinstr_chunk s l t D dst srcva n p got k m' :
  user_ok s l t D -> page_pa (mem s) t srcva = Some p ->
  n <= PGSIZE - srcva mod PGSIZE -> kernel_buf l t D dst n ->
  page_post (mem s) (p + srcva mod PGSIZE) dst n got k m' ->
  user_ok (set_mem m' s) l t D /\ (forall va, leaf m' t va = leaf (mem s) t va) /\
  no_nul (mem s) t srcva k /\
  (forall i, 0 <= i < k + (if got then 1 else 0) -> upa (mem s) t (srcva + i) = Some (p + srcva mod PGSIZE + i) /\
     load8 m' (dst + i) = load8 (mem s) (p + srcva mod PGSIZE + i)).
Proof.
  intros HU Hp Hn Hdst (Hw & Hout & Hk & Hby & Hgot).
  assert (Hupa : forall i, 0 <= i < n -> upa (mem s) t (srcva + i) = Some (p + srcva mod PGSIZE + i)).
  { intros i Hi. rewrite upa_chunk, Hp by lia. done. }
  destruct (user_ok_write s m' l t D HU Hw) as (HU' & Hl & _).
  { intros q b Hq Hqb. apply Hout. intros Hb. eapply (Hdst q b); eauto. apply elem_of_app. by right. }
  splits; [done|done| |].
  - intros i Hi. exists (p + srcva mod PGSIZE + i). split; [apply Hupa; lia|]. by apply Hby.
  - intros i Hi. destruct got; [|split; [apply Hupa; lia|apply Hby; lia]].
    destruct Hgot as (Hkn & Hz & Hzd). split; [apply Hupa; lia|].
    destruct (decide (i = k)) as [->|]; [congruence|apply Hby; lia].
Qed.

Lemma no_nul_app m t va n k : no_nul m t va n -> no_nul m t (va + n) k -> no_nul m t va (n + k).
Proof.
  intros H1 H2 i Hi. destruct (decide (i < n)); [apply H1; lia|].
  destruct (H2 (i - n)) as (a & Ha & ?); [lia|]. exists a. split; [|done]. rewrite <- Ha. f_equal. lia.
Qed.

(** The rest of the string, read after the first [n] bytes were copied. *)
Lemma copyinstr_post_trans s l t D dst srcva n max r m' s2 :
  user_ok s l t D -> 0 <= n <= max -> kernel_buf l t D dst max ->
  (forall va, leaf m' t va = leaf (mem s) t va) ->
  (forall a, ~ (dst <= a < dst + n) -> load8 m' a = load8 (mem s) a) -> no_nul (mem s) t srcva n ->
  (forall i a, 0 <= i < n -> upa (mem s) t (srcva + i) = Some a -> load8 m' (dst + i) = load8 (mem s) a) ->
  copyinstr_post (set_mem m' s) l t D (dst + n) (srcva + n) (max - n) r s2 ->
  copyinstr_post s l t D dst srcva max r s2.
Proof.
  intros HU Hn Hdst Hl1 Hout1 Hnz Hby (HU2 & Hl2 & Hout2 & H2). simpl in *.
  assert (forall va, upa m' t va = upa (mem s) t va) as Hupa.
  { intros va. unfold upa, page_pa. by rewrite Hl1. }
  assert (forall va a, upa (mem s) t va = Some a -> load8 m' a = load8 (mem s) a) as Hsame.
  { intros va a Ha. apply Hout1. intros Hj. destruct (upa_in _ _ _ _ _ _ HU Ha) as (p & Hp & Hpb).
    eapply (Hdst p a); [apply elem_of_app; by left|lia|done]. }
  assert (forall k, no_nul m' t (srcva + n) k -> no_nul (mem s) t srcva (n + k)) as Happ.
  { intros k Hk. apply no_nul_app; [done|]. intros i Hi. destruct (Hk i Hi) as (a & Ha & Hz).
    rewrite Hupa in Ha. exists a. by rewrite <- (Hsame _ _ Ha). }
  split; [done|split; [intros va; by rewrite Hl2|split]].
  - intros a Ha. rewrite Hout2, Hout1; [done|lia..].
  - destruct H2 as [(-> & k & Hk & [Hk1 (a & Ha & Hz)] & Hk2)|(-> & k & Hk & Hk1 & Hk2)]; [left|right].
    + split; [done|]. exists (n + k). rewrite Hupa in Ha. split; [lia|split; [split; [by apply Happ|]|]].
      * exists a. rewrite <- (Hsame _ _ Ha). by rewrite Z.add_assoc.
      * intros i b Hi Hb. destruct (decide (i < n)).
        -- rewrite Hout2 by lia. apply Hby; [lia|done].
        -- specialize (Hk2 (i - n) b). rewrite Hupa in Hk2.
           replace (srcva + n + (i - n)) with (srcva + i) in Hk2 by lia.
           replace (dst + n + (i - n)) with (dst + i) in Hk2 by lia.
           rewrite Hk2 by (done || lia). by eapply Hsame.
    + split; [done|]. exists (n + k). split; [lia|split; [by apply Happ|]].
      rewrite Hupa in Hk2. destruct Hk2 as [->|Hk2]; [left; lia|right]. by rewrite Z.add_assoc.
Qed.

Lemma wp_copyinstr_loop l t D fuel : forall s dst srcva max,
  user_ok s l t D -> 0 <= srcva < 2^64 -> 0 <= max ->
  srcva mod PGSIZE + max <= Z.of_nat fuel * PGSIZE -> kernel_buf l t D dst max ->
  wp (copyinstr_loop fuel (root t) dst srcva max) (copyinstr_post s l t D dst srcva max) s.
Proof using Hend.
  assert (forall s dst srcva, user_ok s l t D -> copyinstr_post s l t D dst srcva 0 (-1) s) as Hnil.
  { intros s dst srcva HU. split; [done|split; [done|split; [done|]]]. right. split; [done|].
    exists 0. split; [lia|split; [intros i Hi; lia|by left]]. }
  induction fuel as [|fuel IH]; intros s dst srcva max HU Hsrc Hlen Hfuel Hdst.
  { assert (max = 0) as -> by (unfold PGSIZE in *; dlia). simpl. by apply wp_ret, Hnil. }
  rewrite copyinstr_loop_S. case_match eqn:E; b2p.
  2:{ assert (max = 0) as -> by lia. by apply wp_ret, Hnil. }
  cbv zeta. rewrite PGROUNDDOWN_spec by done.
  replace (srcva - (srcva - srcva mod PGSIZE)) with (srcva mod PGSIZE) by lia.
  apply wp_bind. eapply wp_run; [apply (walkaddr_spec s l t D); [done|unfold PGSIZE; dlia]|].
  rewrite (page_pa_page (mem s) t _ srcva) by (unfold PGSIZE; dlia).
  destruct (page_pa (mem s) t srcva) as [p|] eqn:Ep; simpl.
  2:{ apply wp_ret. split; [done|split; [done|split; [done|]]]. right. split; [done|].
      exists 0. split; [lia|split; [intros i Hi; lia|right]]. unfold upa. by rewrite Z.add_0_r, Ep. }
  pose proof (page_pa_nonzero _ _ _ _ _ _ HU Ep). replace (p =? 0) with false by (bool_goal; lia).
  destruct (page_pa_data _ _ _ _ _ _ HU Ep) as (Hva & _ & _ & HpD).
  set (n := if max <? _ then max else _).
  assert (n = Z.min max (PGSIZE - srcva mod PGSIZE)) as Hn by (unfold n; case_match; b2p; lia).
  clearbody n. assert (0 < n) by (unfold PGSIZE in *; dlia).
  assert (kernel_buf l t D dst n) as Hdn by (intros q b Hq Hb; apply Hdst; [done|lia]).
  destruct (copyinstr_page_spec (Z.to_nat n) s (p + srcva mod PGSIZE) dst) as (got & k & m' & Hrun & Hpage).
  { apply HU. }
  { rewrite Z2Nat.id by lia. intros b Hb. intros Hb'. apply (Hdn p b); [apply elem_of_app; by left|done|].
    unfold in_page, PGSIZE in *. dlia. }
  rewrite Z2Nat.id in Hpage by lia.
  apply wp_bind. eapply wp_run; [exact Hrun|]. cbv beta iota.
  destruct (copyinstr_chunk s l t D dst srcva n p got k m') as (HU1 & Hl1 & Hnz & Hby); [done|done|lia|done|done|].
  destruct Hpage as (_ & Hout & Hk & _ & Hgot). destruct got.
  - apply wp_ret. split; [done|split; [done|split; [intros a Ha; apply Hout; lia|left]]].
    split; [done|]. exists k. destruct Hgot as (Hkn & Hz & _). destruct (Hby k) as [Hk1 Hk2]; [lia|].
    split; [lia|split; [split; [done|by eauto]|]].
    intros i a Hi Ha. destruct (Hby i) as [Hi1 Hi2]; [lia|]. rewrite Hi1 in Ha. injection Ha as <-. done.
  - subst k.
    assert (Hcopy : forall i a, 0 <= i < n -> upa (mem s) t (srcva + i) = Some a ->
              load8 m' (dst + i) = load8 (mem s) a).
    { intros i a Hi Ha. destruct (Hby i) as [Hi1 Hi2]; [lia|]. rewrite Hi1 in Ha. injection Ha as <-. done. }
    rewrite wrap64_small by (change MAXVA with (2^38) in *; unfold PGSIZE in *; dlia).
    eapply wp_conseq; [|intros r s2 HC2; eapply (copyinstr_post_trans s l t D dst srcva n max r m');
      [done|lia|done|done|done|done|done|exact HC2]].
    destruct (decide (max = n)) as [->|Hne].
    + rewrite Z.sub_diag. destruct fuel; by apply wp_ret, Hnil.
    + replace (srcva - srcva mod PGSIZE + PGSIZE) with (srcva + n) by lia.
      apply IH; [done|change MAXVA with (2^38) in *; unfold PGSIZE in *; dlia|lia|unfold PGSIZE in *; dlia|].
      intros q b Hq Hb. apply Hdst; [done|lia].
Qed.

Lemma wp_copyinstr s l t D dst srcva max :
  user_ok s l t D -> 0 <= srcva < 2^64 -> 0 <= max -> kernel_buf l t D dst max ->
  wp (copyinstr (root t) dst srcva max) (copyinstr_post s l t D dst srcva max) s.
Proof using Hend.
  intros. unfold copyinstr. apply wp_copyinstr_loop; [done|done|done| |done]. unfold PGSIZE. dlia.
Qed.
End vmcopy.
