(* ===== verification/VmExample.v ===== *)
(** * A concrete address space

    Seven pages at the top of physical memory: a three-level page table that
    maps user page 0, that page, two free pages, and an empty page table.  The witnesses of the
    theorems on virtual memory are evaluated on it. *)

From S2P Require Import Prelude Riscv Memory Spinlock Kalloc Vm PageTable VmMap UserVm VmCopy.

Definition ex_page (i : Z) : Z := PHYSTOP - 7 * PGSIZE + i * PGSIZE.
Definition ex_end : Z := ex_page 0.

Definition ex_mem : gmap Z Z :=
  store64 (store64 (store64 (store64 ∅
    (ex_page 0) (Z.lor (PA2PTE (ex_page 1)) PTE_V))
    (ex_page 1) (Z.lor (PA2PTE (ex_page 2)) PTE_V))
    (ex_page 2) (pte_entry (ex_page 3) PTE_USER))
    (ex_page 4) (ex_page 5).
Definition ex_state : kst := Kst ex_mem (Kmem spin_free (ex_page 4)).
Definition ex_tree : ptree := PTree (ex_page 0) {[ 0 := ex_page 1 ]} {[ (0, 0) := ex_page 2 ]}.
Definition ex_free : list Z := [ex_page 4; ex_page 5].
Definition ex_data : list Z := [ex_page 3].
Definition ex_new : ptree := PTree (ex_page 6) ∅ ∅.

Lemma ex_end_pos : 0 < ex_end.
Proof. done. Qed.

Lemma ex_valid i : 0 <= i < 7 -> valid_page ex_end (ex_page i).
Proof.
  intros Hi. unfold valid_page, page_aligned, ex_end, ex_page.
  change PHYSTOP with (557056 * PGSIZE). unfold PGSIZE. dlia.
Qed.

Lemma ex_mem_wf : mem_wf ex_mem.
Proof. unfold ex_mem. repeat apply store64_wf. intros a. vm_compute. done. Qed.

(** Every entry but the first of a page of the tree is zero. *)
Lemma ex_entry0 r i : r = ex_page 0 \/ r = ex_page 1 \/ r = ex_page 2 -> 0 < i < 512 -> load64 ex_mem (r + 8 * i) = 0.
Proof.
  intros Hr Hi. unfold ex_mem.
  rewrite !load64_store64_ne by (destruct Hr as [->|[->| ->]]; unfold ex_page, PGSIZE; lia). done.
Qed.

Lemma ex_pages : pt_pages ex_tree = [ex_page 0; ex_page 1; ex_page 2].
Proof. unfold pt_pages, ex_tree. simpl. by rewrite !map_to_list_singleton. Qed.

Lemma ex_rep : pt_rep ex_mem ex_tree.
Proof.
  split; [|split; [|split; [|split]]]; cbn [l0 l1 ex_tree root].
  - intros i Hi. simpl. destruct (decide (i = 0)) as [->|Hi0].
    + rewrite lookup_singleton_eq. vm_compute. done.
    + rewrite lookup_singleton_ne, ex_entry0 by (lia || auto). done.
  - intros i p [<- <-]%lookup_singleton_Some j Hj.
    destruct (decide (j = 0)) as [->|Hj0].
    + rewrite lookup_singleton_eq. vm_compute. done.
    + rewrite lookup_singleton_ne, ex_entry0 by (lia || auto || congruence). done.
  - intros i j q [[= <- <-] <-]%lookup_singleton_Some. simpl. rewrite lookup_singleton_eq. eauto.
  - intros i p [<- <-]%lookup_singleton_Some. lia.
  - intros i j q [[= <- <-] <-]%lookup_singleton_Some. lia.
Qed.

Lemma ex_leaf va : 0 <= va < MAXVA -> leaf ex_mem ex_tree va = if decide (va < PGSIZE) then pte_entry (ex_page 3) PTE_USER else 0.
Proof.
  intros Hva. unfold leaf, pte_addr. simpl.
  pose proof (PX_decompose va) as Hd. change MAXVA with (2^38) in Hva. specialize (Hd ltac:(lia)).
  pose proof (PX_range 2 va ltac:(lia)). pose proof (PX_range 1 va ltac:(lia)). pose proof (PX_range 0 va ltac:(lia)).
  destruct (decide ((0, 0) = (PX 2 va, PX 1 va))) as [[= E2 E1]|Hne].
  - rewrite <- E2, <- E1, lookup_singleton_eq. simpl. case_decide as Hp.
    + replace (PX 0 va) with 0 by (unfold PGSIZE in *; dlia). vm_compute. done.
    + apply ex_entry0; [auto|]. unfold PGSIZE in *. dlia.
  - rewrite lookup_singleton_ne by done. simpl. case_decide as Hp; [|done]. exfalso. apply Hne.
    f_equal; unfold PGSIZE in *; dlia.
Qed.

(** Distinct numbers give distinct pages. *)
Lemma ex_nodup ns : NoDup ns -> NoDup (ex_page <$> ns).
Proof. apply NoDup_fmap_2. intros i j. unfold ex_page, PGSIZE. lia. Qed.

Lemma ex_kinv : kinv ex_end ex_state ex_free.
Proof.
  split; [done|split; [exact ex_mem_wf|split]].
  - apply (ex_nodup [4; 5]). apply (bool_decide_unpack _). vm_compute. done.
  - simpl. split; [done|split; [apply ex_valid; lia|split; [vm_compute; done|split; [apply ex_valid; lia|]]]].
    vm_compute. done.
Qed.

Lemma ex_vinv : vinv ex_end ex_state ex_free ex_tree.
Proof.
  split; [exact ex_kinv|split; [exact ex_rep|split]]; rewrite ex_pages.
  - apply (ex_nodup [0; 1; 2; 4; 5]). apply (bool_decide_unpack _). vm_compute. done.
  - intros p Hp. rewrite !elem_of_cons, elem_of_nil in Hp.
    destruct Hp as [->|[->|[->|[]]]]; apply ex_valid; lia.
Qed.

Lemma ex_uvinv : uvinv ex_end ex_state ex_free ex_tree ex_data.
Proof.
  split; [exact ex_vinv|split; [split|split; [|split]]].
  - intros [|k] p [= <-]. simpl. rewrite ex_leaf by (change MAXVA with (2^38); lia).
    rewrite decide_True by (unfold PGSIZE; lia).
    apply (leaf_maps_entry ex_end ex_end_pos); [apply ex_valid|vm_compute|vm_compute]; done.
  - intros va Hva. rewrite TRAPFRAME_val in Hva. simpl in Hva. simpl.
    rewrite ex_leaf by (change MAXVA with (2^38); unfold PGSIZE in *; lia).
    rewrite decide_False by (unfold PGSIZE in *; lia). done.
  - rewrite ex_pages. apply (ex_nodup [3; 0; 1; 2; 4; 5]). apply (bool_decide_unpack _). vm_compute. done.
  - apply Forall_singleton, ex_valid. lia.
  - rewrite TRAPFRAME_val. simpl. unfold PGSIZE. lia.
Qed.

Lemma ex_top va : TRAPFRAME <= va < MAXVA -> leaf ex_mem ex_tree va = 0.
Proof.
  rewrite TRAPFRAME_val. intros Hva. rewrite ex_leaf by lia. by rewrite decide_False by (unfold PGSIZE; lia).
Qed.

Lemma ex_user_ok : user_ok ex_end ex_state ex_free ex_tree ex_data.
Proof. split; [exact ex_uvinv|]. intros va Hva. simpl. by rewrite ex_top. Qed.

(** The empty page table of a new process. *)
Lemma ex_new_uvinv : uvinv ex_end ex_state ex_free ex_new [].
Proof.
  assert (forall va, leaf ex_mem ex_new va = 0) as Hl by done.
  assert (pt_pages ex_new = [ex_page 6]) as HP.
  { unfold pt_pages, ex_new. simpl. by rewrite !map_to_list_empty. }
  split; [split; [exact ex_kinv|split; [|rewrite HP; split]]|split; [split|rewrite HP; split; [|split]]].
  - split; [|split; [done|split; [done|split; done]]]. intros i Hi. cbn [l1 ex_new root].
    rewrite lookup_empty. change (mem ex_state) with ex_mem. unfold ex_mem.
    rewrite !load64_store64_ne by (unfold ex_page, PGSIZE; lia). done.
  - apply (ex_nodup [6; 4; 5]). apply (bool_decide_unpack _). vm_compute. done.
  - intros p ->%list_elem_of_singleton. apply ex_valid. lia.
  - done.
  - intros va _. simpl. by rewrite Hl.
  - apply (ex_nodup [6; 4; 5]). apply (bool_decide_unpack _). vm_compute. done.
  - done.
  - done.
Qed.

(** Closes a fact about the example: an invariant, or closed arithmetic. *)
Ltac ex_fact :=
  lazymatch goal with
  | |- vinv _ _ _ _ => exact ex_vinv
  | |- uvinv _ _ _ _ _ => first [exact ex_uvinv | exact ex_new_uvinv]
  | |- user_ok _ _ _ _ _ => exact ex_user_ok
  | |- @eq Z _ _ => vm_compute; reflexivity
  | |- @eq bool _ _ => vm_compute; reflexivity
  | |- _ <= _ => vm_compute; discriminate
  | |- _ < _ => vm_compute; reflexivity
  | |- page_aligned _ => vm_compute; reflexivity
  | |- _ /\ _ => split; ex_fact
  end.
