(* ===== verification/VmTheorems.v ===== *)
(** * What virtual memory promises

    The theorems of kernel/vm.c for its callers (exec, fork, exit, sbrk and
    the system calls), each with an evaluation on the concrete address space
    of [VmExample]. *)

From S2P Require Import Prelude Riscv Memory Spinlock Kalloc Vm PageTable VmMap UserVm UvmCopy VmFree VmCopy VmExample.

(** Mapping a range of unmapped virtual pages never panics: it returns 0
    with every page of the range mapped to its physical page, or -1 when the
    allocator is exhausted with a prefix of the range mapped.  No other
    mapping changes, the tree grows only by free pages, and nothing outside
    the tree and the free pages is written. *)
Theorem mappages_correct kend s l t va size pa perm :
  0 < kend -> vinv kend s l t -> 0 <= va -> 0 < size -> va + size <= MAXVA ->
  page_aligned pa -> 0 <= pa -> pa + npages va size * PGSIZE <= 2^56 -> 0 <= perm < 1024 ->
  (forall x, va / PGSIZE <= x / PGSIZE <= (va + size - 1) / PGSIZE ->
     pte_has (leaf (mem s) t x) PTE_V = false) ->
  exists r s', mappages (root t) va size pa perm s = Ok r s' /\
    mappages_post kend s l t (PGROUNDDOWN va) (npages va size) pa perm r s'.
Proof. intros Hend. intros. by apply wp_iff, wp_mappages. Qed.

Lemma mappages_correct_witness :
  exists r s', mappages (ex_page 0) 0x5000 4096 0x80000000 PTE_R ex_state = Ok r s' /\
    mappages_post ex_end ex_state ex_free ex_tree 0x5000 1 0x80000000 PTE_R r s'.
Proof.
  apply (mappages_correct ex_end ex_state ex_free ex_tree 0x5000 4096 0x80000000 PTE_R).
  1-9: ex_fact. intros x Hx. simpl.
  change MAXVA with (2^38) in *. unfold PGSIZE in Hx.
  rewrite ex_leaf by (change MAXVA with (2^38); dlia). rewrite decide_False by (unfold PGSIZE; dlia). done.
Defined.

(** Mapping a page that is mapped already is caught: [mappages] panics
    with "remap" before it writes anything. *)
Theorem mappages_remap_panics kend s l t va size pa perm :
  0 < kend -> vinv kend s l t -> 0 <= va -> 0 < size -> va + size <= MAXVA ->
  pte_has (leaf (mem s) t va) PTE_V = true ->
  mappages (root t) va size pa perm s = Panic "remap".
Proof. intros Hend. intros. by eapply (mappages_remap kend Hend). Qed.

Lemma mappages_remap_panics_witness :
  mappages (ex_page 0) 0 4096 0x80000000 PTE_R ex_state = Panic "remap".
Proof.
  apply (mappages_remap_panics ex_end ex_state ex_free ex_tree); ex_fact.
Defined.

(** Unmapping mapped pages clears exactly their entries; with [do_free]
    their physical pages are pushed on the free list, each once, and nothing
    but the tree and the freed pages is written. *)
Theorem uvmunmap_correct kend s l t va D do_free :
  0 < kend -> vinv kend s l t -> page_aligned va -> 0 <= va ->
  va + Z.of_nat (length D) * PGSIZE <= MAXVA ->
  (forall k p, D !! k = Some p -> leaf_maps (leaf (mem s) t (va + Z.of_nat k * PGSIZE)) p) ->
  (do_free = true -> NoDup (D ++ pt_pages t ++ l) /\ Forall (valid_page kend) D) ->
  exists s', uvmunmap kend (root t) va (Z.of_nat (length D)) do_free s = Ok tt s' /\
    unmap_post kend s l t va D do_free s'.
Proof.
  intros Hend HI Ha Ha0 HM Hmap Hfree.
  pose proof (wp_uvmunmap kend Hend s l t va D do_free HI Ha Ha0 HM Hmap Hfree) as Hw.
  apply wp_iff in Hw as ([] & s' & Hrun & Hpost). eauto.
Qed.

Lemma uvmunmap_correct_witness :
  exists s', uvmunmap ex_end (ex_page 0) 0 1 true ex_state = Ok tt s' /\
    unmap_post ex_end ex_state ex_free ex_tree 0 ex_data true s'.
Proof.
  apply (uvmunmap_correct ex_end ex_state ex_free ex_tree 0 ex_data true); try ex_fact.
  - intros k p Hk. destruct ex_uvinv as (_ & [Hmap _] & _). by apply Hmap.
  - intros _. destruct ex_uvinv as (_ & _ & Hnd & Hv & _). done.
Defined.

(** Growing an address space is all or nothing.  [uvmalloc] returns
    [newsz] with zeroed, user-accessible, distinct new pages up to [newsz], or
    0 with the old address space intact and every page taken given back (only
    page-table pages may stay allocated).  For any 64-bit [newsz], it never
    panics and never reaches the trapframe. *)
Theorem uvmalloc_all_or_nothing kend s l t D oldsz newsz :
  0 < kend -> uvinv kend s l t D -> Z.of_nat (length D) = pgs oldsz ->
  0 <= oldsz <= newsz -> newsz < 2^64 -> oldsz <= TRAPFRAME ->
  exists r s', uvmalloc kend (root t) oldsz newsz s = Ok r s' /\
    uvmalloc_post kend s l t D newsz r s'.
Proof. intros Hend HU Hlen Hsz Hnew Hold. by apply wp_iff, wp_uvmalloc. Qed.

Lemma uvmalloc_all_or_nothing_witness :
  exists r s', uvmalloc ex_end (ex_page 0) 100 5000 ex_state = Ok r s' /\
    uvmalloc_post ex_end ex_state ex_free ex_tree ex_data 5000 r s'.
Proof.
  apply (uvmalloc_all_or_nothing ex_end ex_state ex_free ex_tree ex_data 100 5000); ex_fact.
Defined.

(** Shrinking gives back exactly the pages above the new size and keeps
    the rest of the address space. *)
Theorem uvmdealloc_correct kend s l t Dk Dd oldsz newsz :
  0 < kend -> uvinv kend s l t (Dk ++ Dd) -> 0 <= newsz < oldsz -> oldsz <= TRAPFRAME ->
  Z.of_nat (length (Dk ++ Dd)) = pgs oldsz -> Z.of_nat (length Dk) = pgs newsz ->
  exists s', uvmdealloc kend (root t) oldsz newsz s = Ok newsz s' /\
    dealloc_post kend s l t Dk Dd s'.
Proof.
  intros Hend HU Hsz Hmax Hlen HlenK.
  pose proof (wp_uvmdealloc kend Hend s l t Dk Dd oldsz newsz HU Hsz Hmax Hlen HlenK) as Hw.
  apply wp_iff in Hw as (r & s' & Hrun & -> & Hpost). eauto.
Qed.

Lemma uvmdealloc_correct_witness :
  exists s', uvmdealloc ex_end (ex_page 0) 4096 0 ex_state = Ok 0 s' /\
    dealloc_post ex_end ex_state ex_free ex_tree [] ex_data s'.
Proof.
  apply (uvmdealloc_correct ex_end ex_state ex_free ex_tree [] ex_data 4096 0); ex_fact.
Defined.

(** The memory half of fork.  [uvmcopy] either returns 0 with a child
    whose pages are all its own (disjoint from the parent's), with the
    parent's bytes and permissions, or -1 with an empty child; in both cases
    the parent's pages and mappings are unchanged. *)
Theorem uvmcopy_forks kend s l told tnew D sz :
  0 < kend -> uvinv kend s l told D -> uvinv kend s l tnew [] ->
  NoDup (D ++ pt_pages told ++ pt_pages tnew ++ l) ->
  Z.of_nat (length D) = pgs sz -> 0 <= sz ->
  exists r s', uvmcopy kend (root told) (root tnew) sz s = Ok r s' /\
    uvmcopy_post kend s l told tnew D r s' /\
    (forall va, leaf (mem s') told va = leaf (mem s) told va) /\
    (forall p b, p ∈ D -> in_page p b -> load8 (mem s') b = load8 (mem s) b).
Proof.
  intros Hend HUo HUn Hd Hlen Hsz.
  pose proof (wp_uvmcopy kend Hend s l told tnew D HUo HUn Hd sz Hlen Hsz) as Hw.
  apply wp_iff in Hw as (r & s' & Hrun & Hpost). exists r, s'. split; [done|split; [done|]].
  destruct Hpost as [(_ & l' & t' & Dn & HC & _)|(_ & l' & t' & HC)];
    by destruct (copied_parent kend s l told tnew D HUo HUn Hd _ _ _ _ HC) as (_ & ? & ?).
Qed.

Lemma uvmcopy_forks_witness :
  exists r s', uvmcopy ex_end (ex_page 0) (ex_page 6) 4096 ex_state = Ok r s' /\
    uvmcopy_post ex_end ex_state ex_free ex_tree ex_new ex_data r s' /\
    (forall va, leaf (mem s') ex_tree va = leaf ex_mem ex_tree va) /\
    (forall p b, p ∈ ex_data -> in_page p b -> load8 (mem s') b = load8 ex_mem b).
Proof.
  apply (uvmcopy_forks ex_end ex_state ex_free ex_tree ex_new ex_data 4096); try ex_fact.
  rewrite ex_pages. apply (ex_nodup [3; 0; 1; 2; 6; 4; 5]). apply (bool_decide_unpack _). vm_compute. done.
Defined.

(** C14. Freeing an address space leaks nothing: once trapframe and trampoline
    are unmapped, [uvmfree] puts every user page and every page-table page back
    on the free list, each exactly once. *)
Theorem uvmfree_no_leak kend s l t D sz :
  0 < kend -> uvinv kend s l t D -> 0 <= sz <= TRAPFRAME -> Z.of_nat (length D) = pgs sz ->
  (forall va, TRAPFRAME <= va < MAXVA -> pte_has (leaf (mem s) t va) PTE_V = false) ->
  exists s' l', uvmfree kend (root t) sz s = Ok tt s' /\ kinv kend s' l' /\
    l' ≡ₚ D ++ pt_pages t ++ l /\ unchanged_outside (D ++ pt_pages t ++ l) (mem s) (mem s').
Proof.
  intros Hend HU Hsz Hlen Htop. pose proof (wp_uvmfree kend Hend s l t D sz HU Hsz Hlen Htop) as Hw.
  apply wp_iff in Hw as ([] & s' & Hrun & l' & HP & HK & Hu). eauto 10.
Qed.

Lemma uvmfree_no_leak_witness :
  exists s' l', uvmfree ex_end (ex_page 0) 4096 ex_state = Ok tt s' /\ kinv ex_end s' l' /\
    l' ≡ₚ ex_data ++ pt_pages ex_tree ++ ex_free /\
    unchanged_outside (ex_data ++ pt_pages ex_tree ++ ex_free) ex_mem (mem s').
Proof.
  apply (uvmfree_no_leak ex_end ex_state ex_free ex_tree ex_data 4096); try ex_fact.
  - intros va Hva. simpl. by rewrite ex_top.
Defined.

(** C15. Isolation and correctness of [copyout], for any user-supplied address.
    It never panics; it writes only bytes that the process itself can access
    through its page table, within the range; it returns 0 exactly when the
    whole range is accessible, and then every byte of the range is the
    kernel's byte. *)
Theorem copyout_isolated kend s l t D dstva src len :
  0 < kend -> user_ok kend s l t D -> 0 <= dstva < 2^64 -> 0 <= len -> not_user D src len ->
  exists r s', copyout (root t) dstva src len s = Ok r s' /\
    copyout_post kend s l t D dstva src len r s'.
Proof. intros Hend HU Hd Hl Hs. by apply wp_iff, wp_copyout. Qed.

Lemma copyout_isolated_witness :
  exists r s', copyout (ex_page 0) 4000 0x80000000 50 ex_state = Ok r s' /\
    copyout_post ex_end ex_state ex_free ex_tree ex_data 4000 0x80000000 50 r s'.
Proof.
  apply (copyout_isolated ex_end ex_state ex_free ex_tree ex_data 4000 0x80000000 50); try ex_fact.
  intros p b ->%list_elem_of_singleton Hb. unfold in_page, ex_page. change PHYSTOP with 0x88000000.
  unfold PGSIZE. lia.
Defined.

(** [copyin] reads only bytes that the process can access and writes only
    the kernel buffer; it returns 0 exactly when the whole range is accessible,
    and then the buffer holds the process's bytes. *)
Theorem copyin_isolated kend s l t D dst srcva len :
  0 < kend -> user_ok kend s l t D -> 0 <= srcva < 2^64 -> 0 <= len -> kernel_buf l t D dst len ->
  exists r s', copyin (root t) dst srcva len s = Ok r s' /\
    copyin_post kend s l t D dst srcva len r s'.
Proof. intros Hend HU Hd Hl Hs. by apply wp_iff, wp_copyin. Qed.

(** The kernel's own memory is below the example's pages. *)
Lemma ex_kernel_buf dst n : 0 <= n -> dst + n <= ex_end -> kernel_buf ex_free ex_tree ex_data dst n.
Proof.
  intros Hn Hd p b Hp Hb. assert (ex_end <= p); [|unfold in_page; lia].
  rewrite ex_pages in Hp. unfold ex_data, ex_free in Hp. cbn [app] in Hp.
  rewrite !elem_of_cons, elem_of_nil in Hp. unfold ex_end, ex_page, PGSIZE in *. intuition lia.
Qed.

Lemma copyin_isolated_witness :
  exists r s', copyin (ex_page 0) 0x80000000 10 20 ex_state = Ok r s' /\
    copyin_post ex_end ex_state ex_free ex_tree ex_data 0x80000000 10 20 r s'.
Proof.
  apply (copyin_isolated ex_end ex_state ex_free ex_tree ex_data 0x80000000 10 20); try ex_fact.
  apply ex_kernel_buf; ex_fact.
Defined.

(** Round trip: what [copyout] put into user memory, [copyin] reads back. *)
Theorem copyout_copyin kend s l t D va src dst len s1 :
  0 < kend -> user_ok kend s l t D -> 0 <= va < 2^64 -> 0 <= len ->
  not_user D src len -> kernel_buf l t D dst len ->
  copyout (root t) va src len s = Ok 0 s1 ->
  exists s2, copyin (root t) dst va len s1 = Ok 0 s2 /\
    forall i, 0 <= i < len -> load8 (mem s2) (dst + i) = load8 (mem s) (src + i).
Proof.
  intros Hend HU Hva Hlen Hsrc Hdst Hout.
  pose proof (wp_copyout kend Hend s l t D va src len HU Hva Hlen Hsrc) as Hw.
  apply wp_iff in Hw as (r & s1' & Hrun & HU1 & Hl1 & _ & H1).
  rewrite Hout in Hrun. injection Hrun as <- <-. destruct H1 as [[_ H1]|[? _]]; [|done].
  assert (forall x, upa (mem s1) t x = upa (mem s) t x) as Hupa.
  { intros x. unfold upa, page_pa. by rewrite Hl1. }
  pose proof (wp_copyin kend Hend s1 l t D dst va len HU1 Hva Hlen Hdst) as Hw.
  apply wp_iff in Hw as (r & s2 & Hrun & _ & _ & _ & H2).
  destruct H2 as [[-> H2]|(_ & i & Hi & Hnone)].
  - exists s2. split; [done|]. intros i Hi. destruct (H1 i Hi) as (a & Ha & E1).
    destruct (H2 i Hi) as (b & Hb & E2). rewrite Hupa, Ha in Hb. injection Hb as <-. congruence.
  - destruct (H1 i Hi) as (a & Ha & _). rewrite Hupa in Hnone. congruence.
Qed.

Lemma copyout_copyin_witness :
  exists s1 s2, copyout (ex_page 0) 8 (ex_page 2) 4 ex_state = Ok 0 s1 /\
    copyin (ex_page 0) 0x80000000 8 4 s1 = Ok 0 s2 /\
    forall i, 0 <= i < 4 -> load8 (mem s2) (0x80000000 + i) = load8 ex_mem (ex_page 2 + i).
Proof.
  eexists. edestruct (copyout_copyin ex_end ex_state ex_free ex_tree ex_data 8 (ex_page 2) 0x80000000 4) as (s2 & H1 & H2).
  7: vm_compute; reflexivity. 1-4: ex_fact.
  - intros p b ->%list_elem_of_singleton Hb. unfold in_page, ex_page in *. unfold PGSIZE in *. lia.
  - apply ex_kernel_buf; ex_fact.
  - exists s2. split; [vm_compute; reflexivity|]. split; [exact H1|exact H2].
Defined.

(** [copyinstr] fetches a NUL-terminated string of less than [max] bytes:
    it returns 0 exactly when the user's memory holds such a string, fully
    accessible, and then the buffer holds it with its NUL; otherwise it returns
    -1 because an inaccessible address or the limit comes first.  It writes
    only the buffer. *)
Theorem copyinstr_correct kend s l t D dst srcva max :
  0 < kend -> user_ok kend s l t D -> 0 <= srcva < 2^64 -> 0 <= max -> kernel_buf l t D dst max ->
  exists r s', copyinstr (root t) dst srcva max s = Ok r s' /\
    copyinstr_post kend s l t D dst srcva max r s'.
Proof. intros Hend HU Hd Hl Hs. by apply wp_iff, wp_copyinstr. Qed.

Lemma copyinstr_correct_witness :
  exists r s', copyinstr (ex_page 0) 0x80000000 4090 20 ex_state = Ok r s' /\
    copyinstr_post ex_end ex_state ex_free ex_tree ex_data 0x80000000 4090 20 r s'.
Proof.
  apply (copyinstr_correct ex_end ex_state ex_free ex_tree ex_data 0x80000000 4090 20); try ex_fact.
  apply ex_kernel_buf; ex_fact.
Defined.
