(* ===== verification/Block.v ===== *)
(** * Disk blocks

    A disk block is a list of [BSIZE] bytes; the file system reads and writes
    little-endian integers and byte ranges in it (kernel/fs.h).  The lemmas
    here are the load/store laws on blocks. *)

From S2P Require Import Prelude.

Definition BSIZE : Z := 1024.

Abbreviation blk := (list Z) (only parsing).
Definition zero_blk : blk := replicate (Z.to_nat BSIZE) 0.

Definition byte_ok (x : Z) : Prop := 0 <= x < 256.
Definition blk_wf (b : blk) : Prop := length b = Z.to_nat BSIZE /\ Forall byte_ok b.

Definition get8 (b : blk) (o : Z) : Z := default 0 (b !! Z.to_nat o).
Definition put8 (b : blk) (o v : Z) : blk := <[Z.to_nat o := wrap8 v]> b.

Fixpoint getn (n : nat) (b : blk) (o : Z) : Z :=
  match n with
  | O => 0
  | S n' => get8 b o + 256 * getn n' b (o + 1)
  end.
Fixpoint putn (n : nat) (b : blk) (o v : Z) : blk :=
  match n with
  | O => b
  | S n' => putn n' (put8 b o v) (o + 1) (v / 256)
  end.
Definition get16 := getn 2.
Definition get32 := getn 4.
Definition put16 := putn 2.
Definition put32 := putn 4.
Arguments get16 : simpl never.
Arguments get32 : simpl never.
Arguments put16 : simpl never.
Arguments put32 : simpl never.

(** [n] bytes from offset [o]; and the block with [bs] written at [o]. *)
Definition bytes_at (b : blk) (o n : Z) : list Z := take (Z.to_nat n) (drop (Z.to_nat o) b).
Definition splice (b : blk) (o : Z) (bs : list Z) : blk :=
  take (Z.to_nat o) b ++ bs ++ drop (Z.to_nat o + length bs) b.

(** ** Laws *)

Lemma length_put8 b o v : length (put8 b o v) = length b.
Proof. apply length_insert. Qed.

Lemma get8_put8_eq b o v : 0 <= o < Z.of_nat (length b) -> get8 (put8 b o v) o = wrap8 v.
Proof. intros Ho. unfold get8, put8. rewrite list_lookup_insert_eq by lia. done. Qed.

Lemma get8_put8_ne b o o' v : 0 <= o -> 0 <= o' -> o <> o' -> get8 (put8 b o v) o' = get8 b o'.
Proof. intros Ho Ho' Hn. unfold get8, put8. rewrite list_lookup_insert_ne by lia. done. Qed.

Lemma length_putn n : forall b o v, length (putn n b o v) = length b.
Proof. induction n as [|n IH]; intros; simpl; [done|]. rewrite IH. apply length_put8. Qed.

Lemma get8_putn_ne n : forall b o v o',
  0 <= o -> 0 <= o' -> ~ (o <= o' < o + Z.of_nat n) -> get8 (putn n b o v) o' = get8 b o'.
Proof.
  induction n as [|n IH]; intros b o v o' Ho Ho' Hn; simpl; [done|].
  rewrite IH by lia. apply get8_put8_ne; lia.
Qed.

Lemma getn_ext n : forall b b' o,
  (forall o', o <= o' < o + Z.of_nat n -> get8 b' o' = get8 b o') -> getn n b' o = getn n b o.
Proof.
  induction n as [|n IH]; intros b b' o H; simpl; [done|].
  rewrite (H o), (IH b b') by (intros; try apply H; lia). done.
Qed.

Lemma getn_putn_eq n : forall b o v,
  0 <= o -> o + Z.of_nat n <= Z.of_nat (length b) -> getn n (putn n b o v) o = v mod 256 ^ Z.of_nat n.
Proof.
  induction n as [|n IH]; intros b o v Ho Hl; [by rewrite Z.mod_1_r|].
  cbn [putn getn]. rewrite IH by (rewrite ?length_put8; lia).
  rewrite get8_putn_ne, get8_put8_eq by lia.
  rewrite Nat2Z.inj_succ, Z.pow_succ_r by lia.
  rewrite Z.rem_mul_r by (try apply Z.pow_nonzero; lia). done.
Qed.

Lemma getn_putn_ne n n' b o o' v :
  0 <= o -> 0 <= o' -> o + Z.of_nat n <= o' \/ o' + Z.of_nat n' <= o ->
  getn n' (putn n b o v) o' = getn n' b o'.
Proof. intros Ho Ho' Hd. apply getn_ext. intros x Hx. apply get8_putn_ne; lia. Qed.

Lemma get32_put32_eq b o v :
  0 <= o -> o + 4 <= Z.of_nat (length b) -> get32 (put32 b o v) o = wrap32 v.
Proof. intros. exact (getn_putn_eq 4 b o v ltac:(lia) ltac:(lia)). Qed.

Lemma get32_put32_ne b o o' v :
  0 <= o -> 0 <= o' -> o + 4 <= o' \/ o' + 4 <= o -> get32 (put32 b o v) o' = get32 b o'.
Proof. intros. apply getn_putn_ne; lia. Qed.

Lemma get8_ok b o : Forall byte_ok b -> byte_ok (get8 b o).
Proof.
  intros H. unfold get8. destruct (b !! _) eqn:E; simpl; [|unfold byte_ok; lia].
  by eapply Forall_lookup_1.
Qed.

Lemma getn_range n : forall b o, Forall byte_ok b -> 0 <= getn n b o < 256 ^ Z.of_nat n.
Proof.
  induction n as [|n IH]; intros b o H; [done|].
  rewrite Nat2Z.inj_succ, Z.pow_succ_r by lia. cbn [getn].
  specialize (IH b (o + 1) H). pose proof (get8_ok b o H). unfold byte_ok in *. lia.
Qed.

Lemma get32_range b o : Forall byte_ok b -> 0 <= get32 b o < 2^32.
Proof. intros H. exact (getn_range 4 b o H). Qed.

Lemma put8_ok b o v : Forall byte_ok b -> Forall byte_ok (put8 b o v).
Proof. intros H. apply Forall_insert; [done|]. pose proof (wrap8_range v). unfold byte_ok. lia. Qed.

Lemma putn_ok n : forall b o v, Forall byte_ok b -> Forall byte_ok (putn n b o v).
Proof. induction n as [|n IH]; intros; simpl; [done|]. apply IH. by apply put8_ok. Qed.

Lemma putn_wf n b o v : blk_wf b -> blk_wf (putn n b o v).
Proof. intros [Hl Hb]. split; [by rewrite length_putn|by apply putn_ok]. Qed.

Lemma zero_blk_wf : blk_wf zero_blk.
Proof.
  split; [apply length_replicate|]. apply Forall_replicate. unfold byte_ok. lia.
Qed.

Lemma length_splice b o bs :
  (Z.to_nat o + length bs <= length b)%nat -> length (splice b o bs) = length b.
Proof. intros H. unfold splice. rewrite !length_app, length_take, length_drop. lia. Qed.

Lemma splice_wf b o bs :
  blk_wf b -> Forall byte_ok bs -> (Z.to_nat o + length bs <= Z.to_nat BSIZE)%nat -> blk_wf (splice b o bs).
Proof.
  intros [Hl Hb] Hbs H. split; [rewrite length_splice; lia|]. unfold splice.
  rewrite !Forall_app. split; [|split]; auto using Forall_take, Forall_drop.
Qed.

Lemma bytes_at_splice b o bs :
  (Z.to_nat o + length bs <= length b)%nat -> bytes_at (splice b o bs) o (Z.of_nat (length bs)) = bs.
Proof.
  intros H. unfold bytes_at, splice.
  rewrite drop_app_length' by (rewrite length_take; lia).
  rewrite take_app_length' by lia. done.
Qed.
#[export] Hint Resolve putn_wf zero_blk_wf splice_wf : xv6.
