(* ===== verification/BlockCache.v ===== *)
(** * The interface of the block cache

    What kernel/bio.c promises to the logging layer, as a class: an abstract
    cache [acache] for one device, the operations, and the effect of each
    operation on the abstract cache.  [Bio] gives the instance. *)

From S2P Require Import Prelude Block.

Definition NBUF : Z := 30.

(** [cv] is the content of every block as users of the cache see it, [dk] the
    content on the disk, [refs] the reference counts of the blocks that have
    one, [held] the buffers locked by this process and their blocks, [tr] the
    sequence of block writes sent to the disk. *)
Record acache := ACache {
  cv : Z -> blk;
  dk : Z -> blk;
  refs : gmap Z Z;
  held : gmap nat Z;
  tr : list (Z * blk);
}.

Definition getref (a : acache) (b : Z) : Z := default 0 (refs a !! b).
Definition refset (b n : Z) (m : gmap Z Z) : gmap Z Z := if decide (n = 0) then delete b m else <[b := n]> m.

Definition a_hold (i : nat) (b : Z) (a : acache) : acache :=
  ACache (cv a) (dk a) (<[b := getref a b + 1]> (refs a)) (<[i := b]> (held a)) (tr a).
Definition a_set (b : Z) (d : blk) (a : acache) : acache :=
  ACache (<[b := d]> (cv a)) (dk a) (refs a) (held a) (tr a).
Definition a_flush (b : Z) (a : acache) : acache :=
  ACache (cv a) (<[b := cv a b]> (dk a)) (refs a) (held a) (tr a ++ [(b, cv a b)]).
Definition a_ref (b n : Z) (a : acache) : acache :=
  ACache (cv a) (dk a) (refset b n (refs a)) (held a) (tr a).
Definition a_release (i : nat) (b : Z) (a : acache) : acache :=
  ACache (cv a) (dk a) (refset b (wrap32 (getref a b - 1)) (refs a)) (delete i (held a)) (tr a).

(** Every locked buffer is counted; [b] can be given a buffer. *)
Definition held_busy (a : acache) : Prop := forall i b, held a !! i = Some b -> is_Some (refs a !! b).
Definition can_get (a : acache) (b : Z) : Prop :=
  is_Some (refs a !! b) \/ (size (dom (refs a)) < Z.to_nat NBUF)%nat.

Class BlockCache (dev : Z) (St : Type) := {
  bread : Z -> Z -> M St nat;
  bdata : nat -> M St blk;
  bblockno : nat -> M St Z;
  bset : nat -> blk -> M St unit;
  bwrite : nat -> M St unit;
  brelse : nat -> M St unit;
  bpin : nat -> M St unit;
  bunpin : nat -> M St unit;

  cache_rep : St -> acache -> Prop;

  (** A block without references has not been modified. *)
  cache_clean s a b : cache_rep s a -> refs a !! b = None -> cv a b = dk a b;

  bread_law s a b (Q : nat -> St -> Prop) :
    cache_rep s a -> (forall i, held a !! i <> Some b) -> held_busy a -> can_get a b ->
    getref a b + 1 < 2^32 ->
    (forall i s', held a !! i = None -> cache_rep s' (a_hold i b a) -> Q i s') ->
    wp (bread dev b) Q s;
  bdata_law s a i b (Q : blk -> St -> Prop) :
    cache_rep s a -> held a !! i = Some b -> Q (cv a b) s -> wp (bdata i) Q s;
  bblockno_law s a i b (Q : Z -> St -> Prop) :
    cache_rep s a -> held a !! i = Some b -> Q b s -> wp (bblockno i) Q s;
  bset_law s a i b d (Q : unit -> St -> Prop) :
    cache_rep s a -> held a !! i = Some b -> is_Some (refs a !! b) ->
    (forall s', cache_rep s' (a_set b d a) -> Q tt s') -> wp (bset i d) Q s;
  bwrite_law s a i b (Q : unit -> St -> Prop) :
    cache_rep s a -> held a !! i = Some b ->
    (forall s', cache_rep s' (a_flush b a) -> Q tt s') -> wp (bwrite i) Q s;
  brelse_law s a i b (Q : unit -> St -> Prop) :
    cache_rep s a -> held a !! i = Some b ->
    (wrap32 (getref a b - 1) = 0 -> cv a b = dk a b) ->
    (forall s', cache_rep s' (a_release i b a) -> Q tt s') -> wp (brelse i) Q s;
  bpin_law s a i b (Q : unit -> St -> Prop) :
    cache_rep s a -> held a !! i = Some b -> getref a b + 1 < 2^32 ->
    (forall s', cache_rep s' (a_ref b (getref a b + 1) a) -> Q tt s') -> wp (bpin i) Q s;
  bunpin_law s a i b (Q : unit -> St -> Prop) :
    cache_rep s a -> held a !! i = Some b ->
    (wrap32 (getref a b - 1) = 0 -> cv a b = dk a b) ->
    (forall s', cache_rep s' (a_ref b (wrap32 (getref a b - 1)) a) -> Q tt s') -> wp (bunpin i) Q s;
}.

(** ** Reference counts *)

Lemma lookup_refset b n m b' :
  refset b n m !! b' = if decide (b' = b) then (if decide (n = 0) then None else Some n) else m !! b'.
Proof.
  unfold refset. repeat case_decide; subst; rewrite ?lookup_delete_eq, ?lookup_delete_ne, ?lookup_insert_eq,
    ?lookup_insert_ne by congruence; done.
Qed.

Lemma default_refset b n m : default 0 (refset b n m !! b) = n.
Proof. rewrite lookup_refset, decide_True by done. case_decide; simpl; congruence. Qed.
