(* ===== verification/Bio.v ===== *)
(** * The buffer cache (kernel/bio.c)

    The buffers, their doubly linked LRU list and the disk.  The list is
    modelled by its [prev] and [next] links, as in the code, with node
    [HEAD] for [bcache.head].  [virtio_disk_rw] is the transfer of one whole
    block, as the driver provides it. *)

From S2P Require Import Prelude Spinlock Sleeplock Block BlockCache.

Record buf := Buf {
  valid : Z; bdisk : Z; bdev : Z; blockno : Z;
  blk_lock : sleeplock; refcnt : Z; data : blk;
}.

Definition set_valid (x : Z) (b : buf) := Buf x (bdisk b) (bdev b) (blockno b) (blk_lock b) (refcnt b) (data b).
Definition set_blk_lock (x : sleeplock) (b : buf) := Buf (valid b) (bdisk b) (bdev b) (blockno b) x (refcnt b) (data b).
Definition set_refcnt (x : Z) (b : buf) := Buf (valid b) (bdisk b) (bdev b) (blockno b) (blk_lock b) x (data b).
Definition set_data (x : blk) (b : buf) := Buf (valid b) (bdisk b) (bdev b) (blockno b) (blk_lock b) (refcnt b) x.

Definition HEAD : nat := Z.to_nat NBUF.

Record bcache := BCache {
  bc_lock : spin; bufs : list buf; bnext : gmap nat nat; bprev : gmap nat nat;
}.

(** The cache and the disk: its blocks, and the writes it has received. *)
Record bst := Bst { bc : bcache; disk : gmap Z blk; dtrace : list (Z * blk) }.

Definition empty_buf : buf := Buf 0 0 0 0 initsleeplock 0 zero_blk.
Definition buf_at (s : bst) (i : nat) : buf := default empty_buf (bufs (bc s) !! i).
Definition disk_at (s : bst) (b : Z) : blk := default zero_blk (disk s !! b).

Definition set_bc (x : bcache) (s : bst) : bst := Bst x (disk s) (dtrace s).
Definition set_bc_lock (x : spin) (s : bst) : bst :=
  set_bc (BCache x (bufs (bc s)) (bnext (bc s)) (bprev (bc s))) s.
Definition set_bufs (x : list buf) (s : bst) : bst :=
  set_bc (BCache (bc_lock (bc s)) x (bnext (bc s)) (bprev (bc s))) s.
Definition upd_buf (i : nat) (f : buf -> buf) (s : bst) : bst := set_bufs (<[i := f (buf_at s i)]> (bufs (bc s))) s.
Definition set_next (i j : nat) (s : bst) : bst :=
  set_bc (BCache (bc_lock (bc s)) (bufs (bc s)) (<[i := j]> (bnext (bc s))) (bprev (bc s))) s.
Definition set_prev (i j : nat) (s : bst) : bst :=
  set_bc (BCache (bc_lock (bc s)) (bufs (bc s)) (bnext (bc s)) (<[i := j]> (bprev (bc s)))) s.

Definition bc_acquire : M bst unit := spin_acquire (fun s => bc_lock (bc s)) set_bc_lock.
Definition bc_release : M bst unit := spin_release (fun s => bc_lock (bc s)) set_bc_lock.

(** A routine of sleeplock.c on the lock of buffer [i]. *)
Definition on_lock {A} (i : nat) (c : M sleeplock A) : M bst A :=
  zoom (fun s => blk_lock (buf_at s i)) (fun l => upd_buf i (set_blk_lock l)) c.

(** One whole block is moved between the buffer and the disk. *)
Definition virtio_disk_rw (i : nat) (write : bool) : M bst unit :=
  modify (fun s =>
    let b := buf_at s i in
    if write then Bst (bc s) (<[blockno b := data b]> (disk s)) (dtrace s ++ [(blockno b, data b)])
    else upd_buf i (set_data (disk_at s (blockno b))) s).

Definition binit : M bst unit :=
  modify (set_bc_lock spin_free) ;;
  modify (set_prev HEAD HEAD) ;;
  modify (set_next HEAD HEAD) ;;
  for_each (seq 0 (Z.to_nat NBUF)) (fun b =>
    modify (fun s => set_next b (bnext (bc s) !!! HEAD) s) ;;
    modify (set_prev b HEAD) ;;
    modify (upd_buf b (set_blk_lock initsleeplock)) ;;
    modify (fun s => set_prev (bnext (bc s) !!! HEAD) b s) ;;
    modify (set_next HEAD b)).

(** The two loops of [bget] walk the list forwards or backwards until a buffer
    passes the test. *)
Fixpoint bget_scan (links : bcache -> gmap nat nat) (test : buf -> bool) (fuel : nat) (b : nat) : M bst (option nat) :=
  if decide (b = HEAD) then ret None else
  match fuel with
  | O => nofuel
  | S fuel' => fun s =>
      if test (buf_at s b) then Ok (Some b) s
      else bget_scan links test fuel' (links (bc s) !!! b) s
  end.

Section bio.
(** [me] is [myproc()->pid]. *)
Context (me : Z).

Definition bget (dev bno : Z) : M bst nat :=
  bc_acquire ;;
  let! s := get in
  let! r := bget_scan bnext (fun b => (bdev b =? dev) && (blockno b =? bno)) HEAD (bnext (bc s) !!! HEAD) in
  match r with
  | Some b =>
      modify (upd_buf b (fun x => set_refcnt (wrap32 (refcnt x + 1)) x)) ;;
      bc_release ;;
      on_lock b (acquiresleep me) ;;
      ret b
  | None =>
      let! r := bget_scan bprev (fun b => refcnt b =? 0) HEAD (bprev (bc s) !!! HEAD) in
      match r with
      | Some b =>
          modify (upd_buf b (fun x => Buf 0 (bdisk x) dev bno (blk_lock x) 1 (data x))) ;;
          bc_release ;;
          on_lock b (acquiresleep me) ;;
          ret b
      | None => panic "bget: no buffers"
      end
  end.

Definition bio_bread (dev bno : Z) : M bst nat :=
  let! b := bget dev bno in
  let! s := get in
  (if negb (truth (valid (buf_at s b))) then
     virtio_disk_rw b false ;; modify (upd_buf b (set_valid 1))
   else ret tt) ;;
  ret b.

Definition bio_bwrite (b : nat) : M bst unit :=
  let! h := on_lock b (holdingsleep me) in
  if negb h then panic "bwrite" else virtio_disk_rw b true.

Definition bio_brelse (b : nat) : M bst unit :=
  let! h := on_lock b (holdingsleep me) in
  if negb h then panic "brelse" else
  on_lock b releasesleep ;;
  bc_acquire ;;
  modify (upd_buf b (fun x => set_refcnt (wrap32 (refcnt x - 1)) x)) ;;
  let! s := get in
  (if refcnt (buf_at s b) =? 0 then
     modify (fun s => set_prev (bnext (bc s) !!! b) (bprev (bc s) !!! b) s) ;;
     modify (fun s => set_next (bprev (bc s) !!! b) (bnext (bc s) !!! b) s) ;;
     modify (fun s => set_next b (bnext (bc s) !!! HEAD) s) ;;
     modify (set_prev b HEAD) ;;
     modify (fun s => set_prev (bnext (bc s) !!! HEAD) b s) ;;
     modify (set_next HEAD b)
   else ret tt) ;;
  bc_release.

Definition bio_bpin (b : nat) : M bst unit :=
  bc_acquire ;;
  modify (upd_buf b (fun x => set_refcnt (wrap32 (refcnt x + 1)) x)) ;;
  bc_release.

Definition bio_bunpin (b : nat) : M bst unit :=
  bc_acquire ;;
  modify (upd_buf b (fun x => set_refcnt (wrap32 (refcnt x - 1)) x)) ;;
  bc_release.

(** Access to [b->data] and [b->blockno] of a locked buffer. *)
Definition bio_data (b : nat) : M bst blk := gets (fun s => data (buf_at s b)).
Definition bio_blockno (b : nat) : M bst Z := gets (fun s => blockno (buf_at s b)).
Definition bio_set (b : nat) (d : blk) : M bst unit := modify (upd_buf b (set_data d)).
End bio.
