(* ===== verification/BioList.v ===== *)
(** * The LRU list of the buffer cache

    The circular doubly linked list through [prev] and [next] represents a
    sequence of buffers, most recently used first.  Walking it is searching
    the sequence; the link updates of [binit] and [brelse] insert at the front
    and move to the front. *)

From S2P Require Import Prelude Spinlock Sleeplock Block BlockCache Bio.

(** Following the links [f] from [x] visits [l] and ends in [z]. *)
Fixpoint chain (f : gmap nat nat) (x : nat) (l : list nat) (z : nat) : Prop :=
  match l with
  | [] => f !!! x = z
  | y :: l' => f !!! x = y /\ chain f y l' z
  end.

Definition dll (nx pv : gmap nat nat) (o : list nat) : Prop :=
  chain nx HEAD o HEAD /\ chain pv HEAD (rev o) HEAD /\ NoDup (HEAD :: o).

Lemma chain_app f l1 : forall x l2 z,
  chain f x (l1 ++ l2) z <-> match l2 with [] => chain f x l1 z | y :: l2' => chain f x l1 y /\ chain f y l2' z end.
Proof.
  induction l1 as [|w l1 IH]; intros x [|y l2] z; simpl; rewrite ?app_nil_r; try done.
  - rewrite IH. tauto.
Qed.

Lemma chain_insert_ne f i j l : forall x z,
  i <> x -> i ∉ l -> chain f x l z -> chain (<[i := j]> f) x l z.
Proof.
  induction l as [|y l IH]; intros x z Hx Hl; simpl.
  - by rewrite lookup_total_insert_ne.
  - rewrite lookup_total_insert_ne by done. rewrite not_elem_of_cons in Hl.
    intros [-> H]. split; [done|]. apply IH; tauto.
Qed.

(** ** Inserting at the front *)

Definition push_links (b : nat) (nx pv : gmap nat nat) : gmap nat nat * gmap nat nat :=
  let h := nx !!! HEAD in
  let nx1 := <[b := h]> nx in
  let pv1 := <[b := HEAD]> pv in
  (<[HEAD := b]> nx1, <[nx1 !!! HEAD := b]> pv1).

Lemma dll_push b nx pv o :
  dll nx pv o -> b ∉ HEAD :: o -> dll (push_links b nx pv).1 (push_links b nx pv).2 (b :: o).
Proof.
  intros (Hn & Hp & Hnd) Hb. rewrite not_elem_of_cons in Hb. destruct Hb as [HbH Hbo].
  pose proof Hnd as [HHo Hndo]%NoDup_cons.
  unfold push_links. cbn [fst snd]. rewrite (lookup_total_insert_ne _ b) by done.
  split; [|split; [|apply NoDup_cons; rewrite not_elem_of_cons; split; [split; [done|done]|by apply NoDup_cons]]].
  - simpl. rewrite lookup_total_insert_eq. split; [done|].
    destruct o as [|y o]; simpl in *.
    + rewrite lookup_total_insert_ne, lookup_total_insert_eq by done. done.
    + rewrite lookup_total_insert_ne, lookup_total_insert_eq by done. destruct Hn as [-> Hn].
      split; [done|]. rewrite !not_elem_of_cons in *. destruct HHo, Hbo.
      apply chain_insert_ne; [done|done|]. by apply chain_insert_ne.
  - simpl. destruct o as [|y o]; simpl in *.
    + rewrite Hn. rewrite lookup_total_insert_eq, lookup_total_insert_ne, lookup_total_insert_eq by done. done.
    + destruct Hn as [-> Hn]. rewrite <- (assoc_L (++)). apply chain_app in Hp as [Hp1 Hp2].
      rewrite chain_app. cbn [app]. simpl. rewrite lookup_total_insert_eq.
      rewrite !not_elem_of_cons in *. destruct HHo as [HHy HHo], Hbo as [Hby Hbo].
      apply NoDup_cons in Hndo as [Hyo Hndo].
      rewrite (lookup_total_insert_ne _ y), lookup_total_insert_eq by done.
      split; [|done]. apply chain_insert_ne; [done|by rewrite <- Permutation_rev|].
      apply chain_insert_ne; [done|by rewrite <- Permutation_rev|done].
Qed.

(** ** Taking a buffer out *)

Fixpoint last_or (x : nat) (l : list nat) : nat :=
  match l with [] => x | y :: l' => last_or y l' end.

Lemma last_or_app x l y : last_or x (l ++ [y]) = y.
Proof. revert x. induction l; intros x; simpl; done. Qed.

Lemma last_or_rev x l : last_or x (rev l) = hd x l.
Proof. destruct l as [|y l]; simpl; [done|]. apply last_or_app. Qed.

Lemma last_or_in x l : last_or x l ∈ x :: l.
Proof.
  revert x. induction l as [|y l IH]; intros x; simpl; [by left|]. right. apply IH.
Qed.

Lemma chain_hd f x l z : chain f x l z -> f !!! x = hd z l.
Proof. destruct l; simpl; tauto. Qed.

Lemma chain_unlink f b l1 : forall x l2 z,
  chain f x (l1 ++ b :: l2) z -> NoDup (x :: l1 ++ b :: l2) ->
  chain (<[last_or x l1 := f !!! b]> f) x (l1 ++ l2) z.
Proof.
  induction l1 as [|w l1 IH]; intros x l2 z Hc Hnd; simpl in *.
  - destruct Hc as [_ Hc]. apply NoDup_cons in Hnd as [Hx _]. rewrite not_elem_of_cons in Hx.
    destruct l2 as [|y l2]; simpl in *; rewrite lookup_total_insert_eq; [done|].
    destruct Hc as [-> Hc]. split; [done|]. rewrite not_elem_of_cons in Hx. apply chain_insert_ne; tauto.
  - destruct Hc as [Hw Hc]. apply NoDup_cons in Hnd as [Hx Hnd]. split; [|by apply IH].
    rewrite lookup_total_insert_ne; [done|]. intros <-. apply Hx.
    pose proof (last_or_in w l1) as Hin. rewrite elem_of_cons, elem_of_app in *. tauto.
Qed.

Definition unlink_links (b : nat) (nx pv : gmap nat nat) : gmap nat nat * gmap nat nat :=
  let pv1 := <[nx !!! b := pv !!! b]> pv in
  (<[pv1 !!! b := nx !!! b]> nx, pv1).

Lemma dll_unlink b nx pv o1 o2 :
  dll nx pv (o1 ++ b :: o2) ->
  dll (unlink_links b nx pv).1 (unlink_links b nx pv).2 (o1 ++ o2) /\ b ∉ HEAD :: o1 ++ o2.
Proof.
  intros (Hn & Hp & Hnd).
  assert (rev (o1 ++ b :: o2) = rev o2 ++ b :: rev o1) as Hrev.
  { rewrite rev_app_distr. simpl. by rewrite <- (assoc_L (++)). }
  rewrite Hrev in Hp.
  assert (nx !!! b = hd HEAD o2) as Enx.
  { apply chain_app in Hn as [_ Hn]. by apply chain_hd in Hn. }
  assert (pv !!! b = last_or HEAD o1) as Epv.
  { apply chain_app in Hp as [_ Hp]. apply chain_hd in Hp. rewrite Hp.
    rewrite <- (rev_involutive o1) at 2. by rewrite last_or_rev. }
  assert (b ∉ HEAD :: o1 ++ o2) as Hb.
  { rewrite not_elem_of_cons. apply NoDup_cons in Hnd as [HH Hnd].
    rewrite <- Permutation_middle in Hnd. apply NoDup_cons in Hnd as [Hb _].
    split; [|done]. intros ->. apply HH. apply elem_of_app. right. by left. }
  split; [|done]. unfold unlink_links. cbn [fst snd].
  rewrite lookup_total_insert_ne.
  2:{ rewrite Enx. intros <-. apply Hb. destruct o2; simpl; [by left|]. right. apply elem_of_app. right. by left. }
  split; [|split].
  - rewrite Epv. by apply chain_unlink.
  - rewrite rev_app_distr, Enx. rewrite <- (last_or_rev HEAD o2). apply chain_unlink; [done|].
    rewrite <- Hrev. by rewrite <- Permutation_rev.
  - apply NoDup_cons in Hnd as [HH Hnd]. apply NoDup_cons. rewrite <- Permutation_middle in Hnd.
    apply NoDup_cons in Hnd as [_ Hnd]. split; [|done]. intros Hin. apply HH.
    rewrite elem_of_app, elem_of_cons in *. tauto.
Qed.

(** ** Searching *)

Lemma scan_run links test fuel : forall s x l,
  chain (links (bc s)) x l HEAD -> HEAD ∉ l -> (length l <= fuel)%nat ->
  bget_scan links test fuel (links (bc s) !!! x) s = Ok (List.find (fun b => test (buf_at s b)) l) s.
Proof.
  induction fuel as [|fuel IH]; intros s x l Hc Hl Hf.
  - destruct l; simpl in *; [|lia]. rewrite Hc. cbn [bget_scan]. by rewrite decide_True.
  - cbn [bget_scan]. destruct l as [|y l]; simpl in *.
    + rewrite Hc. by rewrite decide_True.
    + rewrite not_elem_of_cons in Hl. destruct Hc as [-> Hc]. rewrite decide_False by (intros ->; tauto).
      destruct (test (buf_at s y)); [done|]. apply IH; [done|tauto|lia].
Qed.
