(* ===== verification/BioProof.v ===== *)
(** * The buffer cache implements its interface

    [bio_rep] relates the buffers, the LRU list and the disk of [Bio] to the
    abstract cache of [BlockCache]; every operation of kernel/bio.c satisfies
    the law of the interface. *)

From S2P Require Import Prelude Spinlock Sleeplock Block BlockCache Bio BioList.

Section bioproof.
(** The process and the device. *)
Context (me dev : Z) (Hdev : dev <> 0).

Definition buf_ok (a : acache) (i : nat) (b : buf) : Prop :=
  (bdev b = 0 /\ refcnt b = 0 /\ blk_lock b = sl_free /\ held a !! i = None) \/
  (bdev b = dev /\ refcnt b = getref a (blockno b) /\
   (if truth (valid b) then data b = cv a (blockno b) else cv a (blockno b) = dk a (blockno b)) /\
   match held a !! i with
   | Some n => n = blockno b /\ blk_lock b = sl_held me /\ truth (valid b) = true
   | None => blk_lock b = sl_free
   end).

Definition is_cached (l : list buf) (i : nat) (b : buf) (n : Z) : Prop :=
  l !! i = Some b /\ bdev b = dev /\ blockno b = n.

(** The buffers represent the abstract cache [a]: at most one buffer per block
    and no counted or modified block without its buffer. *)
Definition core (l : list buf) (a : acache) : Prop :=
  (forall i b, l !! i = Some b -> buf_ok a i b) /\
  (forall i j b b' n, is_cached l i b n -> is_cached l j b' n -> i = j) /\
  (forall n, is_Some (refs a !! n) -> exists i b, is_cached l i b n) /\
  (forall n k, refs a !! n = Some k -> 0 < k < 2^32) /\
  (forall n, refs a !! n = None -> cv a n = dk a n) /\
  (forall i n, held a !! i = Some n -> exists b, l !! i = Some b).

Definition bok (s : bst) (o : list nat) : Prop :=
  bc_lock (bc s) = spin_free /\ length (bufs (bc s)) = HEAD /\
  dll (bnext (bc s)) (bprev (bc s)) o /\ o ≡ₚ seq 0 HEAD.

Definition bio_rep (s : bst) (a : acache) : Prop :=
  exists o, bok s o /\ core (bufs (bc s)) a /\ (forall n, dk a n = disk_at s n) /\ tr a = dtrace s.

(** ** Changing one buffer *)

Lemma buf_ok_ext a a' i b :
  buf_ok a i b -> held a' !! i = held a !! i ->
  (bdev b = dev -> refs a' !! blockno b = refs a !! blockno b /\
     cv a' (blockno b) = cv a (blockno b) /\ dk a' (blockno b) = dk a (blockno b)) ->
  buf_ok a' i b.
Proof.
  intros [H|(Hd & Hr & Hv & Hh)] Hheld He; [left; by rewrite Hheld|right].
  destruct (He Hd) as (E1 & E2 & E3). unfold getref. rewrite Hheld, E1, E2, E3. done.
Qed.

Lemma core_upd l a a' i b b' :
  core l a -> l !! i = Some b -> bdev b = dev -> bdev b' = dev -> blockno b' = blockno b ->
  (forall m, m <> blockno b -> refs a' !! m = refs a !! m /\ cv a' m = cv a m /\ dk a' m = dk a m) ->
  (forall j, j <> i -> held a' !! j = held a !! j) ->
  buf_ok a' i b' ->
  (forall k, refs a' !! blockno b = Some k -> 0 < k < 2^32) ->
  (refs a' !! blockno b = None -> cv a' (blockno b) = dk a' (blockno b)) ->
  core (<[i := b']> l) a'.
Proof.
  intros (Hok & Huniq & Href & Hpos & Hclean & Hin) Hi Hd Hd' Hb Hother Hheld Hok' Hpos' Hclean'.
  pose proof (lookup_lt_Some _ _ _ Hi) as Hlt.
  assert (Hc : forall j x n, is_cached (<[i := b']> l) j x n -> exists y, is_cached l j y n).
  { intros j x n (Hj & ? & ?). apply list_lookup_insert_Some in Hj as [(-> & <- & _)|[Hne Hj]].
    - exists b. split; [done|split; [done|congruence]].
    - by exists x. }
  unfold core. splits.
  - intros j x Hj. apply list_lookup_insert_Some in Hj as [(-> & <- & _)|[Hne Hj]]; [done|].
    eapply buf_ok_ext; [by apply Hok|by apply Hheld; congruence|]. intros Hx. apply Hother.
    intros E. apply Hne. eapply (Huniq i j b x); [split; [done|split; [done|done]]|]. split; done.
  - intros j k x y n Hj Hk. destruct (Hc _ _ _ Hj) as [x' Hj']. destruct (Hc _ _ _ Hk) as [y' Hk']. eauto.
  - intros n Hn. destruct (decide (n = blockno b)) as [->|Hne].
    + exists i, b'. split; [by rewrite list_lookup_insert_eq|split; done].
    + destruct (Hother n Hne) as (E & _). rewrite E in Hn.
      destruct (Href n Hn) as (j & x & Hj & Hx & En). destruct (decide (j = i)) as [->|Hji].
      * rewrite Hi in Hj. injection Hj as <-. congruence.
      * exists j, x. split; [by rewrite list_lookup_insert_ne by congruence|split; done].
  - intros n k Hn. destruct (decide (n = blockno b)) as [->|Hne]; [by apply Hpos'|].
    destruct (Hother n Hne) as (E & _). rewrite E in Hn. eauto.
  - intros n Hn. destruct (decide (n = blockno b)) as [->|Hne]; [by apply Hclean'|].
    destruct (Hother n Hne) as (E & -> & ->). rewrite E in Hn. eauto.
  - intros j n Hj. destruct (decide (j = i)) as [->|Hji].
    + exists b'. by rewrite list_lookup_insert_eq.
    + rewrite Hheld in Hj by done. destruct (Hin _ _ Hj) as [x Hx]. exists x.
      by rewrite list_lookup_insert_ne by congruence.
Qed.

(** A locked buffer. *)
Lemma core_held l a i n :
  core l a -> held a !! i = Some n ->
  exists b, is_cached l i b n /\ blk_lock b = sl_held me /\ truth (valid b) = true /\ data b = cv a n /\
            refcnt b = getref a n.
Proof.
  intros (Hok & _ & _ & _ & _ & Hin) Hh. destruct (Hin _ _ Hh) as [b Hb].
  destruct (Hok _ _ Hb) as [(_ & _ & _ & Hn)|(Hd & Hr & Hv & Hm)]; [congruence|].
  rewrite Hh in Hm. destruct Hm as (-> & Hl & Hval). exists b. rewrite Hval in Hv. simpl in Hv.
  splits; try done.
Qed.

Lemma buf_at_eq s i b : bufs (bc s) !! i = Some b -> buf_at s i = b.
Proof. unfold buf_at. by intros ->. Qed.

Lemma bok_bufs s o l : bok s o -> length l = HEAD -> bok (set_bufs l s) o.
Proof. intros (H1 & H2 & H3 & H4) Hl. split; [done|split; [done|split; done]]. Qed.

Lemma bok_upd s o i f : bok s o -> bok (upd_buf i f s) o.
Proof. intros H. apply bok_bufs; [done|]. rewrite length_insert. apply H. Qed.

(** ** Straight-line pieces *)

Lemma upd_buf_id s i b : bufs (bc s) !! i = Some b -> upd_buf i (fun _ => b) s = s.
Proof.
  destruct s as [[lk l nx pv] dk tr]. unfold upd_buf, set_bufs, set_bc. simpl. intros Hi.
  by rewrite list_insert_id.
Qed.

Lemma holding_run s i b :
  bufs (bc s) !! i = Some b -> sl_lk (blk_lock b) = spin_free ->
  on_lock i (holdingsleep me) s = Ok (truth (sl_locked (blk_lock b)) && (sl_pid (blk_lock b) =? me)) s.
Proof.
  intros Hi Hl. unfold on_lock, zoom. rewrite (buf_at_eq s i b Hi), holdingsleep_run by done.
  f_equal. rewrite <- (upd_buf_id s i b Hi) at 2. unfold upd_buf. rewrite (buf_at_eq s i b Hi). by destruct b.
Qed.

Lemma acquire_run s i b :
  bufs (bc s) !! i = Some b -> blk_lock b = sl_free ->
  on_lock i (acquiresleep me) s = Ok tt (upd_buf i (set_blk_lock (sl_held me)) s).
Proof.
  intros Hi Hl. unfold on_lock, zoom. by rewrite (buf_at_eq s i b Hi), Hl, acquiresleep_run.
Qed.

Lemma release_run s i b :
  bufs (bc s) !! i = Some b -> sl_lk (blk_lock b) = spin_free ->
  on_lock i releasesleep s = Ok tt (upd_buf i (set_blk_lock sl_free) s).
Proof. intros Hi Hl. unfold on_lock, zoom. by rewrite (buf_at_eq s i b Hi), releasesleep_run. Qed.

(** An update of one buffer under [bcache.lock]. *)
Lemma locked_upd_run s i f :
  bc_lock (bc s) = spin_free ->
  (bc_acquire ;; modify (upd_buf i f) ;; bc_release) s = Ok tt (upd_buf i f s).
Proof.
  destruct s as [[lk l nx pv] d tr]. simpl. intros ->. done.
Qed.

(** Two updates of the same buffer. *)
Lemma upd_buf_twice s i f g b :
  bufs (bc s) !! i = Some b -> upd_buf i g (upd_buf i f s) = upd_buf i (fun x => g (f x)) s.
Proof.
  intros Hi. pose proof (lookup_lt_Some _ _ _ Hi). unfold upd_buf, set_bufs, set_bc. simpl. f_equal. f_equal.
  rewrite list_insert_insert_eq. f_equal. f_equal. unfold buf_at. simpl.
  rewrite list_lookup_insert_eq by done. by rewrite Hi.
Qed.

Lemma lookup_upd s i f b : bufs (bc s) !! i = Some b -> bufs (bc (upd_buf i f s)) !! i = Some (f b).
Proof.
  intros Hi. unfold upd_buf. simpl. rewrite (buf_at_eq s i b Hi). apply list_lookup_insert_eq.
  by eapply lookup_lt_Some.
Qed.

(** The representation after changing a buffer of the block [n]. *)
Lemma rep_upd s a a' i b f :
  bio_rep s a -> bufs (bc s) !! i = Some b -> bdev b = dev -> bdev (f b) = dev -> blockno (f b) = blockno b ->
  (forall m, m <> blockno b -> refs a' !! m = refs a !! m /\ cv a' m = cv a m) ->
  (forall m, dk a' m = dk a m) -> tr a' = tr a ->
  (forall j, j <> i -> held a' !! j = held a !! j) ->
  buf_ok a' i (f b) ->
  (forall k, refs a' !! blockno b = Some k -> 0 < k < 2^32) ->
  (refs a' !! blockno b = None -> cv a' (blockno b) = dk a' (blockno b)) ->
  bio_rep (upd_buf i f s) a'.
Proof.
  intros (o & Hbok & Hcore & Hdk & Htr) Hi Hd Hd' Hn Hother Hdk' Htr' Hheld Hok Hpos Hclean.
  exists o. split; [by apply bok_upd|]. split; [|split].
  - unfold upd_buf. simpl. rewrite (buf_at_eq s i b Hi). eapply core_upd; eauto.
    intros m Hm. destruct (Hother m Hm). auto.
  - intros m. rewrite Hdk'. apply Hdk.
  - rewrite Htr'. exact Htr.
Qed.

(** ** The laws *)

Lemma bio_clean s a n : bio_rep s a -> refs a !! n = None -> cv a n = dk a n.
Proof. intros (o & _ & (_ & _ & _ & _ & H & _) & _). apply H. Qed.

Lemma rep_lock s a : bio_rep s a -> bc_lock (bc s) = spin_free.
Proof. by intros (o & (H & _) & _). Qed.

Lemma rep_held s a i n :
  bio_rep s a -> held a !! i = Some n ->
  exists b, bufs (bc s) !! i = Some b /\ bdev b = dev /\ blockno b = n /\ blk_lock b = sl_held me /\
    truth (valid b) = true /\ data b = cv a n /\ refcnt b = getref a n.
Proof.
  intros (o & _ & Hc & _) Hh. destruct (core_held _ _ _ _ Hc Hh) as (b & (? & ? & ?) & ?). eauto.
Qed.

Lemma rep_pos s a n k : bio_rep s a -> refs a !! n = Some k -> 0 < k < 2^32.
Proof. intros (o & _ & (_ & _ & _ & H & _) & _). apply H. Qed.

Lemma rep_ref_range s a n : bio_rep s a -> 0 <= getref a n < 2^32.
Proof.
  intros H. unfold getref. destruct (refs a !! n) as [k|] eqn:E; simpl; [|lia].
  pose proof (rep_pos _ _ _ _ H E). lia.
Qed.

Lemma bio_data_law s a i n (Q : blk -> bst -> Prop) :
  bio_rep s a -> held a !! i = Some n -> Q (cv a n) s -> wp (bio_data i) Q s.
Proof.
  intros H Hh HQ. destruct (rep_held _ _ _ _ H Hh) as (b & Hi & _ & _ & _ & _ & Hd & _).
  apply wp_gets. rewrite (buf_at_eq s i b Hi). by rewrite Hd.
Qed.

Lemma bio_blockno_law s a i n (Q : Z -> bst -> Prop) :
  bio_rep s a -> held a !! i = Some n -> Q n s -> wp (bio_blockno i) Q s.
Proof.
  intros H Hh HQ. destruct (rep_held _ _ _ _ H Hh) as (b & Hi & _ & <- & _).
  apply wp_gets. by rewrite (buf_at_eq s i b Hi).
Qed.

Lemma bio_set_law s a i n d (Q : unit -> bst -> Prop) :
  bio_rep s a -> held a !! i = Some n -> is_Some (refs a !! n) ->
  (forall s', bio_rep s' (a_set n d a) -> Q tt s') -> wp (bio_set i d) Q s.
Proof.
  intros H Hh [k Hk] HQ. destruct (rep_held _ _ _ _ H Hh) as (b & Hi & Hd & Hn & Hl & Hv & Hdata & Hr).
  apply wp_modify, HQ. subst n. apply (rep_upd s a _ i b); try done.
  - intros m Hm. simpl. by rewrite fn_lookup_insert_ne.
  - right. simpl. rewrite Hh, Hv. simpl. rewrite fn_lookup_insert. done.
  - intros k' Hk'. simpl in Hk'. by eapply rep_pos.
  - simpl. congruence.
Qed.

Lemma bio_ref_law g s a i n (Q : unit -> bst -> Prop) :
  bio_rep s a -> held a !! i = Some n -> 0 <= g (getref a n) < 2^32 ->
  (g (getref a n) = 0 -> cv a n = dk a n) ->
  (forall s', bio_rep s' (a_ref n (g (getref a n)) a) -> Q tt s') ->
  wp (bc_acquire ;; modify (upd_buf i (fun x => set_refcnt (g (refcnt x)) x)) ;; bc_release) Q s.
Proof.
  intros H Hh Hg Hz HQ. destruct (rep_held _ _ _ _ H Hh) as (b & Hi & Hd & Hn & Hl & Hv & Hdata & Hr).
  eapply wp_run; [by apply locked_upd_run, (rep_lock s a)|]. apply HQ. subst n.
  apply (rep_upd s a _ i b); try done.
  - intros m Hm. simpl. rewrite lookup_refset. by rewrite decide_False.
  - right. simpl. unfold getref at 1. simpl. rewrite default_refset, Hh, Hv, Hr. done.
  - intros k. simpl. rewrite lookup_refset, decide_True by done. case_decide; [done|].
    intros [= <-]. lia.
  - simpl. rewrite lookup_refset, decide_True by done. case_decide; [auto|done].
Qed.

Lemma bio_pin_law s a i n (Q : unit -> bst -> Prop) :
  bio_rep s a -> held a !! i = Some n -> getref a n + 1 < 2^32 ->
  (forall s', bio_rep s' (a_ref n (getref a n + 1) a) -> Q tt s') -> wp (bio_bpin i) Q s.
Proof.
  intros H Hh Hlt HQ. pose proof (rep_ref_range s a n H).
  apply (bio_ref_law (fun x => wrap32 (x + 1)) s a i n); rewrite ?wrap32_small by lia; [done|done|lia|lia|done].
Qed.

Lemma bio_unpin_law s a i n (Q : unit -> bst -> Prop) :
  bio_rep s a -> held a !! i = Some n -> (wrap32 (getref a n - 1) = 0 -> cv a n = dk a n) ->
  (forall s', bio_rep s' (a_ref n (wrap32 (getref a n - 1)) a) -> Q tt s') -> wp (bio_bunpin i) Q s.
Proof.
  intros H Hh Hz HQ. pose proof (wrap32_range (getref a n - 1)).
  apply (bio_ref_law (fun x => wrap32 (x - 1)) s a i n); [done|done|lia|done|done].
Qed.

Lemma bio_write_law s a i n (Q : unit -> bst -> Prop) :
  bio_rep s a -> held a !! i = Some n ->
  (forall s', bio_rep s' (a_flush n a) -> Q tt s') -> wp (bio_bwrite me i) Q s.
Proof.
  intros H Hh HQ. destruct (rep_held _ _ _ _ H Hh) as (b & Hi & Hd & Hn & Hl & Hv & Hdata & Hr).
  unfold bio_bwrite. apply wp_bind. eapply wp_run; [apply (holding_run s i b Hi); by rewrite Hl|].
  rewrite Hl. simpl. rewrite Z.eqb_refl. simpl. apply wp_modify, HQ.
  cbv zeta. rewrite (buf_at_eq s i b Hi), Hn, Hdata. destruct H as (o & Hbok & Hcore & Hdk & Htr).
  exists o. split; [done|split; [|split]]; simpl.
  - pose proof Hcore as (Hok & Hu & Hc & Hp & Hcl & Hin). split; [|split; [done|split; [done|split; [done|split; [|done]]]]].
    + intros j x Hj. destruct (Hok j x Hj) as [?|(Hxd & Hxr & Hxv & Hxh)]; [by left|right].
      simpl. split; [done|split; [done|split; [|done]]]. destruct (decide (blockno x = n)) as [E|Hne].
      * assert (j = i) as ->. { eapply Hu; [split; [done|split; [done|exact E]]|split; done]. }
        rewrite Hi in Hj. injection Hj as <-. rewrite Hv. simpl. by rewrite Hn.
      * by rewrite fn_lookup_insert_ne.
    + intros m Hm. simpl in *. destruct (decide (m = n)) as [->|Hne]; [by rewrite fn_lookup_insert|].
      rewrite fn_lookup_insert_ne by done. by apply Hcl.
  - intros m. unfold disk_at. simpl. destruct (decide (m = n)) as [->|Hne].
    + by rewrite fn_lookup_insert, lookup_insert_eq.
    + rewrite fn_lookup_insert_ne, lookup_insert_ne by done. apply Hdk.
  - by rewrite Htr.
Qed.

(** The second half of [brelse]: the count, and the move to the front of the
    list when it drops to zero. *)
Definition released_order (k : Z) (i : nat) (o o' : list nat) : Prop :=
  if k =? 0 then exists o1 o2, o = o1 ++ i :: o2 /\ o' = i :: o1 ++ o2 else o' = o.

Lemma brelse_tail s i f b o :
  bok s o -> bufs (bc s) !! i = Some b ->
  exists s' o',
    (bc_acquire ;;
     modify (upd_buf i f) ;;
     let! s := get in
     (if refcnt (buf_at s i) =? 0 then
        modify (fun s => set_prev (bnext (bc s) !!! i) (bprev (bc s) !!! i) s) ;;
        modify (fun s => set_next (bprev (bc s) !!! i) (bnext (bc s) !!! i) s) ;;
        modify (fun s => set_next i (bnext (bc s) !!! HEAD) s) ;;
        modify (set_prev i HEAD) ;;
        modify (fun s => set_prev (bnext (bc s) !!! HEAD) i s) ;;
        modify (set_next HEAD i)
      else ret tt) ;;
     bc_release) s = Ok tt s' /\
    bok s' o' /\ bufs (bc s') = bufs (bc (upd_buf i f s)) /\ disk s' = disk s /\ dtrace s' = dtrace s /\
    released_order (refcnt (f b)) i o o'.
Proof.
  intros (Hlk & Hlen & Hdll & HP) Hi. pose proof (lookup_lt_Some _ _ _ Hi) as Hlt.
  destruct s as [[lk l nx pv] d tr]. cbn [bc bc_lock bufs bnext bprev] in *. subst lk.
  unfold bc_acquire, bc_release, spin_acquire, spin_release, bind, get, gets, modify, ret, released_order.
  cbn [bc bc_lock sheld smine andb spin_free].
  rewrite (buf_at_eq (upd_buf i f _) i (f b)) by (by apply lookup_upd).
  destruct (refcnt (f b) =? 0).
  - assert (i ∈ o) as (o1 & o2 & ->)%list_elem_of_split.
    { rewrite HP. apply elem_of_seq. lia. }
    destruct (dll_unlink i nx pv o1 o2 Hdll) as [Hd1 Hi1].
    pose proof (dll_push i _ _ _ Hd1 Hi1) as Hd2.
    eexists _, (i :: o1 ++ o2). split; [reflexivity|]. split; [|split; [done|split; [done|split; [done|by exists o1, o2]]]].
    split; [done|split; [simpl; by rewrite length_insert|split; [exact Hd2|]]].
    rewrite <- HP. apply Permutation_middle.
  - eexists _, o. split; [reflexivity|]. split; [|done].
    split; [done|split; [simpl; by rewrite length_insert|done]].
Qed.

Lemma bio_relse_law s a i n (Q : unit -> bst -> Prop) :
  bio_rep s a -> held a !! i = Some n -> (wrap32 (getref a n - 1) = 0 -> cv a n = dk a n) ->
  (forall s', bio_rep s' (a_release i n a) -> Q tt s') -> wp (bio_brelse me i) Q s.
Proof.
  intros H Hh Hz HQ. destruct (rep_held _ _ _ _ H Hh) as (b & Hi & Hd & Hn & Hl & Hv & Hdata & Hr).
  unfold bio_brelse. apply wp_bind. eapply wp_run; [apply (holding_run s i b Hi); by rewrite Hl|].
  rewrite Hl. simpl. rewrite Z.eqb_refl. cbn [negb andb truth].
  apply wp_bind. eapply wp_run; [apply (release_run s i b Hi); by rewrite Hl|].
  set (s1 := upd_buf i (set_blk_lock sl_free) s).
  pose proof H as (o & Hbok & _ & Hdk & Htr).
  destruct (brelse_tail s1 i (fun x => set_refcnt (wrap32 (refcnt x - 1)) x) (set_blk_lock sl_free b) o)
    as (s' & o' & Hrun & Hbok' & Hbufs & Hdisk & Htr' & _).
  { by apply bok_upd. } { by apply lookup_upd. }
  eapply wp_run; [exact Hrun|]. apply HQ.
  assert (bio_rep (upd_buf i (fun x => set_refcnt (wrap32 (refcnt x - 1)) (set_blk_lock sl_free x)) s) (a_release i n a)) as Hrep.
  { subst n. apply (rep_upd s a _ i b); try done.
    - intros m Hm. simpl. rewrite lookup_refset. by rewrite decide_False.
    - intros j Hj. simpl. by rewrite lookup_delete_ne.
    - right. simpl. unfold getref at 1. simpl. rewrite default_refset, lookup_delete_eq, Hv, Hr. done.
    - intros k. simpl. rewrite lookup_refset, decide_True by done. case_decide; [done|].
      intros [= <-]. pose proof (wrap32_range (getref a (blockno b) - 1)). lia.
    - simpl. rewrite lookup_refset, decide_True by done. case_decide; [auto|done]. }
  destruct Hrep as (_ & _ & Hcore & Hdk2 & Htr2). exists o'. split; [done|].
  unfold s1 in Hbufs. rewrite (upd_buf_twice s i _ _ b Hi) in Hbufs.
  split; [by rewrite Hbufs|split]; [|by rewrite Htr'].
  intros m. rewrite Hdk2. unfold disk_at. by rewrite Hdisk.
Qed.

(** ** bread *)

Lemma order_buf s o i : bok s o -> In i o -> exists b, bufs (bc s) !! i = Some b.
Proof.
  intros (_ & Hlen & _ & HP) Hi%list_elem_of_In. rewrite HP in Hi. apply elem_of_seq in Hi.
  apply lookup_lt_is_Some. lia.
Qed.

Lemma order_all s o i b : bok s o -> bufs (bc s) !! i = Some b -> In i o.
Proof.
  intros (_ & Hlen & _ & HP) Hi%lookup_lt_Some. apply list_elem_of_In. rewrite HP. apply elem_of_seq. lia.
Qed.

(** The searches of [bget] from a locked cache. *)
Lemma scan_next s o test x : bok s o ->
  bget_scan bnext test HEAD (bnext (bc s) !!! HEAD) (set_bc_lock x s) =
  Ok (List.find (fun b => test (buf_at s b)) o) (set_bc_lock x s).
Proof.
  intros (_ & _ & (Hn & _ & Hnd) & HP). apply NoDup_cons in Hnd as [Hh _].
  apply (scan_run bnext test HEAD (set_bc_lock x s)); [done|done|]. rewrite HP, length_seq. done.
Qed.

Lemma scan_prev s o test x : bok s o ->
  bget_scan bprev test HEAD (bprev (bc s) !!! HEAD) (set_bc_lock x s) =
  Ok (List.find (fun b => test (buf_at s b)) (rev o)) (set_bc_lock x s).
Proof.
  intros (_ & _ & (_ & Hp & Hnd) & HP). apply NoDup_cons in Hnd as [Hh _].
  apply (scan_run bprev test HEAD (set_bc_lock x s)); [done|by rewrite <- Permutation_rev|].
  rewrite length_rev, HP, length_seq. done.
Qed.

(** Giving out buffer [i], changed by [f], with its lock. *)
Definition give (i : nat) (f : buf -> buf) : M bst nat :=
  modify (upd_buf i f) ;; bc_release ;; on_lock i (acquiresleep me) ;; ret i.

Lemma give_run s i f b :
  bc_lock (bc s) = spin_free -> bufs (bc s) !! i = Some b -> blk_lock (f b) = sl_free ->
  give i f (set_bc_lock (Spin true true) s) = Ok i (upd_buf i (fun x => set_blk_lock (sl_held me) (f x)) s).
Proof.
  intros Hlk Hi Hl. assert ((modify (upd_buf i f) ;; bc_release) (set_bc_lock (Spin true true) s) = Ok tt (upd_buf i f s)) as Hrun.
  { destruct s as [[lk l nx pv] d tr]. simpl in Hlk. subst lk. done. }
  unfold give. rewrite <- bind_assoc. rewrite (bind_ok _ _ _ _ _ Hrun).
  rewrite (bind_ok _ _ _ _ _ (acquire_run (upd_buf i f s) i (f b) (lookup_upd s i f b Hi) Hl)).
  unfold ret. f_equal. by apply (upd_buf_twice s i _ _ b).
Qed.

Definition same_block (n : Z) (b : buf) : bool := (bdev b =? dev) && (blockno b =? n).
Definition bump (b : buf) : buf := set_refcnt (wrap32 (refcnt b + 1)) b.
Definition recycle (n : Z) (b : buf) : buf := Buf 0 (bdisk b) dev n (blk_lock b) 1 (data b).

Lemma bget_run s o n : bok s o ->
  bget me dev n s =
  match List.find (fun i => same_block n (buf_at s i)) o with
  | Some i => give i bump (set_bc_lock (Spin true true) s)
  | None =>
      match List.find (fun i => refcnt (buf_at s i) =? 0) (rev o) with
      | Some i => give i (recycle n) (set_bc_lock (Spin true true) s)
      | None => Panic "bget: no buffers"
      end
  end.
Proof.
  intros Hbok. pose proof Hbok as (Hlk & _). unfold bget.
  assert (bc_acquire s = Ok tt (set_bc_lock (Spin true true) s)) as Hacq.
  { unfold bc_acquire, spin_acquire, bind, get. by rewrite Hlk. }
  rewrite (bind_ok _ _ _ _ _ Hacq). unfold bind at 1, get at 1.
  rewrite (bind_ok _ _ _ _ _ (scan_next s o (same_block n) (Spin true true) Hbok)).
  destruct (List.find _ o) as [i|]; [done|].
  rewrite (bind_ok _ _ _ _ _ (scan_prev s o (fun b => refcnt b =? 0) (Spin true true) Hbok)).
  by destruct (List.find _ (rev o)) as [i|].
Qed.

Definition fill (s : bst) (f : buf -> buf) (x : buf) : buf :=
  if truth (valid (f x)) then f x else set_valid 1 (set_data (disk_at s (blockno (f x))) (f x)).

Lemma bread_run s i b f n :
  bufs (bc s) !! i = Some b -> bget me dev n s = Ok i (upd_buf i f s) ->
  bio_bread me dev n s = Ok i (upd_buf i (fill s f) s).
Proof.
  intros Hi Hget. unfold bio_bread. rewrite (bind_ok _ _ _ _ _ Hget). unfold bind at 1, get at 1.
  pose proof (lookup_upd s i f b Hi) as Hi1. rewrite (buf_at_eq _ i _ Hi1).
  assert (forall g, upd_buf i (fill s f) s = upd_buf i g s <-> upd_buf i (fun _ => fill s f b) s = upd_buf i (fun _ => g b) s) as Hext.
  { intros g. unfold upd_buf. by rewrite (buf_at_eq s i b Hi). }
  destruct (truth (valid (f b))) eqn:Ev; simpl.
  - unfold bind, ret. f_equal. symmetry. apply Hext. unfold fill. by rewrite Ev.
  - unfold bind, ret, virtio_disk_rw, modify. f_equal. rewrite (buf_at_eq _ i _ Hi1).
    rewrite (upd_buf_twice _ i _ _ (f b) Hi1), (upd_buf_twice s i _ _ b Hi). symmetry. apply Hext.
    unfold fill. by rewrite Ev.
Qed.

(** A buffer that nobody references takes over an uncached block. *)
Lemma core_recycle l a i b b' n :
  core l a -> l !! i = Some b -> refcnt b = 0 -> held a !! i = None ->
  (forall j x, ~ is_cached l j x n) -> bdev b' = dev -> blockno b' = n ->
  buf_ok (a_hold i n a) i b' -> core (<[i := b']> l) (a_hold i n a).
Proof using Hdev.
  intros (Hok & Huniq & Href & Hpos & Hclean & Hin) Hi Hr Hh Hnew Hd Hn Hok'.
  pose proof (lookup_lt_Some _ _ _ Hi) as Hlt.
  assert (refs a !! n = None) as Hrn.
  { destruct (refs a !! n) eqn:E; [|done]. destruct (Href n) as (j & x & Hj); [by eauto|]. by apply Hnew in Hj. }
  assert (Hc : forall j x m, is_cached (<[i := b']> l) j x m -> (j = i /\ m = n) \/ (j <> i /\ is_cached l j x m)).
  { intros j x m (Hj & ? & ?). apply list_lookup_insert_Some in Hj as [(<- & <- & _)|[Hne Hj]].
    - left. split; [done|congruence].
    - right. split; [congruence|]. by split. }
  unfold core. splits.
  - intros j x Hj. apply list_lookup_insert_Some in Hj as [(<- & <- & _)|[Hne Hj]]; [done|].
    eapply buf_ok_ext; [by apply Hok|simpl; by rewrite lookup_insert_ne|]. intros Hx. simpl.
    rewrite lookup_insert_ne; [done|]. intros E. apply (Hnew j x). split; [done|split; done].
  - intros j k x y m Hj Hk. destruct (Hc _ _ _ Hj) as [[-> ->]|[Hji Hj']], (Hc _ _ _ Hk) as [[-> ?]|[Hki Hk']].
    + done.
    + by apply Hnew in Hk'.
    + subst. by apply Hnew in Hj'.
    + eauto.
  - intros m Hm. simpl in Hm. destruct (decide (m = n)) as [->|Hne].
    + exists i, b'. split; [by rewrite list_lookup_insert_eq|done].
    + rewrite lookup_insert_ne in Hm by done. destruct (Href m Hm) as (j & x & Hj & Hx & Hxm).
      exists j, x. split; [|done]. rewrite list_lookup_insert_ne; [done|]. intros <-.
      rewrite Hi in Hj. injection Hj as <-. destruct (Hok i b Hi) as [(E & _)|(_ & E & _)]; [congruence|].
      unfold getref in E. rewrite Hxm in E. destruct Hm as [k Hk]. rewrite Hk in E. simpl in E.
      pose proof (Hpos _ _ Hk). lia.
  - intros m k. simpl. destruct (decide (m = n)) as [->|Hne].
    + rewrite lookup_insert_eq. unfold getref. rewrite Hrn. simpl. intros [= <-]. lia.
    + rewrite lookup_insert_ne by done. apply Hpos.
  - intros m. simpl. destruct (decide (m = n)) as [->|Hne]; [by rewrite lookup_insert_eq|].
    rewrite lookup_insert_ne by done. apply Hclean.
  - intros j m. simpl. destruct (decide (j = i)) as [->|Hne].
    + intros _. exists b'. by rewrite list_lookup_insert_eq.
    + rewrite lookup_insert_ne by done. intros [x Hx]%Hin. exists x. by rewrite list_lookup_insert_ne.
Qed.

(** Among fewer than [NBUF] counted blocks some buffer is free. *)
Lemma free_buffer s a :
  bio_rep s a -> (size (dom (refs a)) < HEAD)%nat -> exists i b, bufs (bc s) !! i = Some b /\ refcnt b = 0.
Proof.
  intros (o & (_ & Hlen & _) & (Hok & Huniq & _ & _ & _) & _) Hsz.
  destruct (decide (Exists (fun b => refcnt b = 0) (bufs (bc s)))) as [He|Hne].
  { apply Exists_exists in He as (b & [i Hi]%list_elem_of_lookup & Hb). eauto. }
  exfalso. apply not_Exists_Forall in Hne; [|apply _]. rewrite Forall_forall in Hne.
  assert (forall i b, bufs (bc s) !! i = Some b -> bdev b = dev /\ blockno b ∈ dom (refs a)) as Hall.
  { intros i b Hi. destruct (Hok i b Hi) as [(_ & Hz & _)|(Hd & Hr & _)].
    - exfalso. eapply Hne; [by eapply list_elem_of_lookup_2|done].
    - split; [done|]. apply elem_of_dom. destruct (refs a !! blockno b) eqn:E; [by eauto|].
      exfalso. eapply Hne; [by eapply list_elem_of_lookup_2|]. rewrite Hr. unfold getref. by rewrite E. }
  assert (NoDup (blockno <$> bufs (bc s))) as Hnd.
  { apply NoDup_alt. intros i j n Hi Hj. rewrite list_lookup_fmap in Hi, Hj.
    apply fmap_Some in Hi as (b & Hi & ->). apply fmap_Some in Hj as (b' & Hj & E).
    destruct (Hall _ _ Hi), (Hall _ _ Hj).
    eapply (Huniq i j b b' (blockno b)); (split; [done|split; [done|done]]). }
  assert (length (blockno <$> bufs (bc s)) <= size (dom (refs a)))%nat; [|rewrite length_fmap in *; lia].
  rewrite <- (size_list_to_set (C := gset Z)) by done. apply subseteq_size.
  intros n Hn. apply elem_of_list_to_set, list_elem_of_fmap in Hn as (b & -> & [i Hi]%list_elem_of_lookup).
  by eapply Hall.
Qed.

Lemma find_cached s o n :
  bok s o ->
  match List.find (fun i => same_block n (buf_at s i)) o with
  | Some i => exists b, is_cached (bufs (bc s)) i b n
  | None => forall i b, ~ is_cached (bufs (bc s)) i b n
  end.
Proof.
  intros Hbok. destruct (List.find _ o) as [i|] eqn:E.
  - apply List.find_some in E as [Hi Ht]. destruct (order_buf s o i Hbok Hi) as [b Hb].
    rewrite (buf_at_eq s i b Hb) in Ht. unfold same_block in Ht. b2p. exists b. by split.
  - intros i b (Hb & Hd & Hn). pose proof (List.find_none _ _ E i (order_all s o i b Hbok Hb)) as Ht.
    cbv beta in Ht. rewrite (buf_at_eq s i b Hb) in Ht. unfold same_block in Ht.
    rewrite Hd, Hn, !Z.eqb_refl in Ht. done.
Qed.

(** A cached block: its buffer is handed out once more. *)
Lemma bread_hit s a n o i b :
  bio_rep s a -> bok s o -> (forall j, held a !! j <> Some n) -> getref a n + 1 < 2^32 ->
  List.find (fun i => same_block n (buf_at s i)) o = Some i -> is_cached (bufs (bc s)) i b n ->
  held a !! i = None /\ exists s', bio_bread me dev n s = Ok i s' /\ bio_rep s' (a_hold i n a).
Proof using Hdev.
  intros H Hbok Hnh Hlt Hf (Hi & Hd & Hn). pose proof H as (o' & _ & (Hok & _) & Hdk & _).
  destruct (Hok i b Hi) as [(E & _)|(_ & Hr & Hv & Hm)]; [congruence|].
  assert (held a !! i = None) as Hh.
  { destruct (held a !! i) eqn:E; [|done]. destruct Hm as [-> _]. exfalso. apply (Hnh i). congruence. }
  split; [done|]. rewrite Hh in Hm.
  eexists. split.
  { apply (bread_run s i b); [done|]. rewrite (bget_run s o n Hbok), Hf.
    by apply (give_run s i bump b); [by eapply rep_lock| |]. }
  pose proof (rep_ref_range s a n H) as Hrr. subst n.
  apply (rep_upd s a _ i b); try done.
  - unfold fill. simpl. by destruct (truth _).
  - unfold fill. simpl. by destruct (truth _).
  - intros m Hne. simpl. by rewrite lookup_insert_ne.
  - intros j Hj. simpl. by rewrite lookup_insert_ne.
  - right. unfold fill, bump. simpl. destruct (truth (valid b)) eqn:Ev; simpl.
    + unfold getref at 1. simpl. rewrite !lookup_insert_eq, Ev, Hr. simpl.
      rewrite wrap32_small by lia. splits; done.
    + unfold getref at 1. simpl. rewrite !lookup_insert_eq, Hr. simpl.
      rewrite wrap32_small by lia. splits; try done. rewrite <- Hdk. done.
  - intros k. simpl. rewrite lookup_insert_eq. intros [= <-]. lia.
  - simpl. rewrite lookup_insert_eq. done.
Qed.

(** An uncached block: the least recently used free buffer is recycled. *)
Lemma bread_miss s a n o :
  bio_rep s a -> bok s o -> held_busy a -> can_get a n ->
  List.find (fun i => same_block n (buf_at s i)) o = None ->
  (forall i b, ~ is_cached (bufs (bc s)) i b n) ->
  exists i s', held a !! i = None /\ bio_bread me dev n s = Ok i s' /\ bio_rep s' (a_hold i n a).
Proof using Hdev.
  intros H Hbok Hbusy Hget Hf Hnew. pose proof H as (_ & _ & Hcore & Hdk & Htr).
  pose proof Hcore as (Hok & _ & Href & Hpos & Hclean & _).
  assert (refs a !! n = None) as Hrn.
  { destruct (refs a !! n) eqn:E; [|done]. destruct (Href n) as (j & x & Hj); [by eauto|]. by apply Hnew in Hj. }
  destruct Hget as [[k Hk]|Hsz]; [congruence|].
  destruct (List.find (fun i => refcnt (buf_at s i) =? 0) (rev o)) as [i|] eqn:Hf2.
  2:{ destruct (free_buffer s a H Hsz) as (i & b & Hi & Hz).
      assert (In i (rev o)) as Hin by (apply -> in_rev; by eapply order_all).
      pose proof (List.find_none _ _ Hf2 i Hin) as Ht. cbv beta in Ht.
      rewrite (buf_at_eq s i b Hi), Hz in Ht. done. }
  apply List.find_some in Hf2 as Hf2'. destruct Hf2' as [Hin Ht].
  destruct (order_buf s o i Hbok) as [b Hi]; [by apply in_rev|].
  rewrite (buf_at_eq s i b Hi) in Ht. b2p.
  assert (held a !! i = None) as Hh.
  { destruct (held a !! i) as [m|] eqn:E; [|done].
    destruct (core_held _ _ _ _ Hcore E) as (b' & (Hb' & _ & _) & _ & _ & _ & Hr).
    rewrite Hi in Hb'. injection Hb' as <-. destruct (Hbusy _ _ E) as [k Hk].
    unfold getref in Hr. rewrite Hk in Hr. simpl in Hr. pose proof (Hpos _ _ Hk). lia. }
  assert (blk_lock b = sl_free) as Hl.
  { destruct (Hok i b Hi) as [(_ & _ & ? & _)|(_ & _ & _ & Hm)]; [done|]. by rewrite Hh in Hm. }
  exists i. eexists. split; [done|]. split.
  { apply (bread_run s i b); [done|]. rewrite (bget_run s o n Hbok), Hf, Hf2.
    apply (give_run s i (recycle n) b); [by eapply rep_lock|done|done]. }
  exists o. split; [by apply bok_upd|]. split; [|split; [|done]].
  - unfold upd_buf. simpl. rewrite (buf_at_eq s i b Hi). apply (core_recycle _ _ _ b); try done.
    right. simpl. unfold getref at 1. simpl. rewrite !lookup_insert_eq. unfold getref. rewrite Hrn. simpl.
    splits; try done. rewrite <- Hdk. symmetry. by apply Hclean.
  - intros m. apply Hdk.
Qed.

Lemma bio_read_law s a n (Q : nat -> bst -> Prop) :
  bio_rep s a -> (forall i, held a !! i <> Some n) -> held_busy a -> can_get a n ->
  getref a n + 1 < 2^32 ->
  (forall i s', held a !! i = None -> bio_rep s' (a_hold i n a) -> Q i s') ->
  wp (bio_bread me dev n) Q s.
Proof using Hdev.
  intros H Hnh Hbusy Hget Hlt HQ. pose proof H as (o & Hbok & _).
  pose proof (find_cached s o n Hbok) as Hf.
  destruct (List.find (fun i => same_block n (buf_at s i)) o) as [i|] eqn:E.
  - destruct Hf as [b Hb].
    destruct (bread_hit s a n o i b H Hbok Hnh Hlt E Hb) as (Hh & s' & Hrun & Hrep).
    eapply wp_run; [exact Hrun|]. by apply HQ.
  - destruct (bread_miss s a n o H Hbok Hbusy Hget E Hf) as (i & s' & Hh & Hrun & Hrep).
    eapply wp_run; [exact Hrun|]. by apply HQ.
Qed.

#[global] Instance bio_cache : BlockCache dev bst := {
  bread := bio_bread me;
  bdata := bio_data;
  bblockno := bio_blockno;
  bset := bio_set;
  bwrite := bio_bwrite me;
  brelse := bio_brelse me;
  bpin := bio_bpin;
  bunpin := bio_bunpin;
  cache_rep := bio_rep;
  cache_clean := bio_clean;
  bread_law := bio_read_law;
  bdata_law := bio_data_law;
  bblockno_law := bio_blockno_law;
  bset_law := bio_set_law;
  bwrite_law := bio_write_law;
  brelse_law := bio_relse_law;
  bpin_law := bio_pin_law;
  bunpin_law := bio_unpin_law;
}.

(** ** Initialisation *)

Definition fresh_cache (d : gmap Z blk) (t : list (Z * blk)) : acache :=
  ACache (fun n => default zero_blk (d !! n)) (fun n => default zero_blk (d !! n)) ∅ ∅ t.

(** The cache at boot: the BSS is zero. *)
Definition boot_cache (d : gmap Z blk) : bst :=
  Bst (BCache spin_free (replicate HEAD empty_buf) ∅ ∅) d [].

Definition binit_inv (d : gmap Z blk) (todo : list nat) (s : bst) : Prop :=
  exists o, bc_lock (bc s) = spin_free /\ bufs (bc s) = replicate HEAD empty_buf /\
    dll (bnext (bc s)) (bprev (bc s)) o /\ o ++ todo ≡ₚ seq 0 HEAD /\ disk s = d /\ dtrace s = [].

Lemma binit_step d b todo s :
  binit_inv d (b :: todo) s ->
  wp (modify (fun s => set_next b (bnext (bc s) !!! HEAD) s) ;;
      modify (set_prev b HEAD) ;;
      modify (upd_buf b (set_blk_lock initsleeplock)) ;;
      modify (fun s => set_prev (bnext (bc s) !!! HEAD) b s) ;;
      modify (set_next HEAD b)) (fun _ s' => binit_inv d todo s') s.
Proof.
  destruct s as [[lk l nx pv] d' tr]. intros (o & Hlk & Hl & Hdll & HP & Hd & Ht). cbn [bc bc_lock bufs bnext bprev disk dtrace] in *. subst lk l d' tr.
  repeat (apply wp_bind, wp_modify). apply wp_modify. exists (b :: o).
  assert (NoDup (o ++ b :: todo)) as Hnd by (rewrite HP; apply NoDup_seq).
  rewrite <- Permutation_middle in Hnd. apply NoDup_cons in Hnd as [Hbo _].
  assert (b < HEAD)%nat as Hb.
  { assert (b ∈ seq 0 HEAD) as Hin by (rewrite <- HP; apply elem_of_app; right; by left).
    apply elem_of_seq in Hin. lia. }
  split; [reflexivity|split; [|split; [|split; [|split; reflexivity]]]].
  - cbn [bc bufs set_bc set_next set_prev upd_buf set_bufs]. unfold buf_at. cbn [bc bufs set_bc set_next set_prev]. rewrite list_insert_id; [done|]. rewrite lookup_replicate_2 by done. done.
  - apply dll_push; [done|]. rewrite not_elem_of_cons. rewrite elem_of_app in Hbo. split; [lia|tauto].
  - rewrite <- HP. apply Permutation_middle.
Qed.

Lemma core_fresh l d t : (forall i b, l !! i = Some b -> b = empty_buf) -> core l (fresh_cache d t).
Proof using Hdev.
  intros Hl. unfold core. splits.
  - intros i b Hi. apply Hl in Hi as ->. left. done.
  - intros i j b b' n (Hi & Hd & _) _. apply Hl in Hi as ->. simpl in Hd. congruence.
  - intros n [k Hk]. done.
  - intros n k Hk. done.
  - done.
  - intros i n Hn. done.
Qed.

Lemma binit_rep d : exists s, binit (boot_cache d) = Ok tt s /\ bio_rep s (fresh_cache d []).
Proof using Hdev.
  assert (wp binit (fun _ s => bio_rep s (fresh_cache d [])) (boot_cache d)) as Hw.
  { unfold binit. do 3 (apply wp_bind, wp_modify).
    eapply wp_conseq; [apply (wp_for_each _ (binit_inv d) (seq 0 HEAD)); [intros; by apply binit_step|]|].
    - exists []. split; [reflexivity|split; [reflexivity|split; [|split; [reflexivity|split; reflexivity]]]].
      split; [reflexivity|split; [reflexivity|]]. apply NoDup_singleton.
    - intros [] s (o & Hlk & Hl & Hdll & HP & Hd & Ht). rewrite app_nil_r in HP. exists o. splits.
      + split; [done|split; [by rewrite Hl, length_replicate|done]].
      + rewrite Hl. apply core_fresh. intros i b Hi. by apply lookup_replicate in Hi as [-> _].
      + intros n. unfold disk_at. by rewrite Hd.
      + done. }
  apply wp_iff in Hw as ([] & s & Hrun & Hrep). eauto.
Qed.

(** ** Theorems *)

(** C18. [bread] returns a locked buffer that holds the current contents of the
    block, whether it was cached, pinned or has to be read from the disk; no
    other block is affected. *)
Theorem bread_correct s a n :
  bio_rep s a -> (forall i, held a !! i <> Some n) -> held_busy a -> can_get a n -> getref a n + 1 < 2^32 ->
  exists i s', bio_bread me dev n s = Ok i s' /\ held a !! i = None /\ bio_rep s' (a_hold i n a) /\
    data (buf_at s' i) = cv a n /\ blk_lock (buf_at s' i) = sl_held me.
Proof using Hdev.
  intros H Hnh Hbusy Hget Hlt. apply wp_iff. eapply bio_read_law; [done..|].
  intros i s' Hi H'. split; [done|]. split; [done|].
  destruct (rep_held s' _ i n H') as (b & Hb & _ & _ & Hl & _ & Hd & _); [apply lookup_insert_eq|].
  rewrite (buf_at_eq s' i b Hb). done.
Qed.

Lemma find_split {A} (p : A -> bool) l x :
  List.find p l = Some x -> exists l1 l2, l = l1 ++ x :: l2 /\ p x = true /\ Forall (fun y => p y = false) l1.
Proof.
  induction l as [|y l IH]; simpl; [done|]. destruct (p y) eqn:E.
  - intros [= ->]. by exists [], l.
  - intros (l1 & l2 & -> & Hx & Hl)%IH. exists (y :: l1), l2. split; [done|]. split; [done|]. by constructor.
Qed.

Lemma find_rev_split {A} (p : A -> bool) l x :
  List.find p (rev l) = Some x -> exists l1 l2, l = l1 ++ x :: l2 /\ p x = true /\ Forall (fun y => p y = false) l2.
Proof.
  intros (l1 & l2 & E & Hx & Hl)%find_split. exists (rev l2), (rev l1). split; [|split; [done|]].
  - rewrite <- (rev_involutive l), E, rev_app_distr. simpl. by rewrite <- (assoc_L (++)).
  - rewrite <- Permutation_rev. done.
Qed.

(** The replacement policy.  On a miss [bget] recycles the buffer nearest
    the end of the list that nobody references, and [brelse] puts a buffer at
    the front when its last reference goes: the victim is the least recently
    released free buffer. *)
Theorem lru_replacement s a n o i s' :
  bio_rep s a -> bok s o -> (forall j b, ~ is_cached (bufs (bc s)) j b n) -> bget me dev n s = Ok i s' ->
  (exists o1 o2, o = o1 ++ i :: o2 /\ refcnt (buf_at s i) = 0 /\
     Forall (fun j => refcnt (buf_at s j) <> 0) o2) /\
  (forall t u at' k, bio_rep t at' -> held at' !! k = Some u ->
     exists t' ot ot', bok t ot /\ bio_brelse me k t = Ok tt t' /\ bok t' ot' /\
       released_order (wrap32 (getref at' u - 1)) k ot ot').
Proof using Hdev.
  intros H Hbok Hnew Hget. split.
  - rewrite (bget_run s o n Hbok) in Hget. pose proof (find_cached s o n Hbok) as Hf.
    destruct (List.find (fun i => same_block n (buf_at s i)) o) as [j|].
    { destruct Hf as [b Hb]. by apply Hnew in Hb. }
    destruct (List.find (fun i => refcnt (buf_at s i) =? 0) (rev o)) as [j|] eqn:E2; [|done].
    apply find_rev_split in E2 as (o1 & o2 & -> & Hz & Hall). b2p.
    assert (j = i) as ->.
    { unfold give, bind, ret in Hget. repeat case_match; congruence. }
    exists o1, o2. splits; [done|done|]. eapply Forall_impl; [exact Hall|]. intros k Hk. simpl in Hk. by b2p.
  - intros t u at' k Ht Hh. destruct (rep_held _ _ _ _ Ht Hh) as (b & Hi & Hd & Hn & Hl & Hv & Hdata & Hr).
    pose proof Ht as (ot & Hbt & _).
    destruct (brelse_tail (upd_buf k (set_blk_lock sl_free) t) k (fun x => set_refcnt (wrap32 (refcnt x - 1)) x)
                (set_blk_lock sl_free b) ot) as (t' & ot' & Hrun & Hbt' & _ & _ & _ & Hord);
      [by apply bok_upd|by apply lookup_upd|].
    simpl in Hord. rewrite Hr in Hord. exists t', ot, ot'. splits; [done| |done|done].
    unfold bio_brelse. rewrite (bind_ok _ _ _ _ _ (holding_run t k b Hi ltac:(by rewrite Hl))).
    rewrite Hl. simpl. rewrite Z.eqb_refl. cbn [negb andb truth].
    rewrite (bind_ok _ _ _ _ _ (release_run t k b Hi ltac:(by rewrite Hl))). exact Hrun.
Qed.
End bioproof.

Lemma bread_correct_witness : exists s i s', bio_bread 1 1 50 s = Ok i s' /\ data (buf_at s' i) = zero_blk.
Proof.
  assert (1 <> 0) as H1 by done. destruct (binit_rep 1 1 H1 ∅) as (s & _ & Hrep).
  destruct (bread_correct 1 1 H1 s (fresh_cache ∅ []) 50) as (i & s' & Hrun & _ & _ & Hd & _).
  - done.
  - done.
  - done.
  - right. vm_compute. lia.
  - vm_compute. reflexivity.
  - exists s, i, s'. split; [done|]. rewrite Hd. reflexivity.
Defined.

Lemma booted_cache_misses s :
  binit (boot_cache ∅) = Ok tt s ->
  (exists i s', bget 1 1 50 s = Ok i s') /\ (forall j b, ~ is_cached 1 (bufs (bc s)) j b 50).
Proof.
  set (c := match binit (boot_cache ∅) with Ok _ s => s | _ => boot_cache ∅ end). intros Hs.
  assert (s = c) as -> by (unfold c; by rewrite Hs). split.
  - assert (match bget 1 1 50 c with Ok _ _ => true | _ => false end = true) as H by (vm_compute; reflexivity).
    destruct (bget 1 1 50 c); [by eexists _, _|done..].
  - assert (forallb (fun b => bdev b =? 0) (bufs (bc c)) = true) as H by (vm_compute; reflexivity).
    intros j b (Hj & Hd & _). rewrite forallb_forall in H.
    specialize (H b (proj1 (list_elem_of_In _ _) (list_elem_of_lookup_2 _ _ _ Hj))). b2p. congruence.
Qed.

Lemma lru_replacement_witness : exists s i s' o, bget 1 1 50 s = Ok i s' /\ bok s o /\
  exists o1 o2, o = o1 ++ i :: o2 /\ refcnt (buf_at s i) = 0 /\ Forall (fun j => refcnt (buf_at s j) <> 0) o2.
Proof.
  assert (1 <> 0) as H1 by done. destruct (binit_rep 1 1 H1 ∅) as (s & Hs & Hrep).
  pose proof Hrep as (o & Hbok & _). destruct (booted_cache_misses s Hs) as [(i & s' & Hget) Hmiss].
  destruct (lru_replacement 1 1 H1 s (fresh_cache ∅ []) 50 o i s' Hrep Hbok Hmiss Hget) as [H _].
  by exists s, i, s', o.
Defined.
