(* ===== verification/Log.v ===== *)
(** * The write-ahead log (kernel/log.c)

    Translated over the block-cache interface.  [sleep] in [begin_op] is
    [Blocked]; an index outside [log.lh.block] is reported as a panic of the
    model.  [LogProof] has the effect of each routine on the abstract cache. *)

From S2P Require Import Prelude Spinlock Block BlockCache.

Definition MAXOPBLOCKS : Z := 10.
Definition LOGSIZE : Z := MAXOPBLOCKS * 3.

(** [lh_n] and [lh_block] are the in-memory header [log.lh]. *)
Record log_t := Log {
  log_lock : spin; start : Z; size_ : Z; outstanding : Z; committing : Z; ldev : Z;
  lh_n : Z; lh_block : list Z;
}.

Definition set_log_lock (x : spin) (l : log_t) :=
  Log x (start l) (size_ l) (outstanding l) (committing l) (ldev l) (lh_n l) (lh_block l).
Definition set_outstanding (x : Z) (l : log_t) :=
  Log (log_lock l) (start l) (size_ l) x (committing l) (ldev l) (lh_n l) (lh_block l).
Definition set_committing (x : Z) (l : log_t) :=
  Log (log_lock l) (start l) (size_ l) (outstanding l) x (ldev l) (lh_n l) (lh_block l).
Definition set_lh_n (x : Z) (l : log_t) :=
  Log (log_lock l) (start l) (size_ l) (outstanding l) (committing l) (ldev l) x (lh_block l).
Definition set_lh_block (x : list Z) (l : log_t) :=
  Log (log_lock l) (start l) (size_ l) (outstanding l) (committing l) (ldev l) (lh_n l) x.

Definition lh_at (l : log_t) (i : Z) : Z := default 0 (lh_block l !! Z.to_nat i).

Record superblock := SuperBlock {
  magic : Z; sb_size : Z; nblocks : Z; ninodes : Z; nlog : Z; logstart : Z; inodestart : Z; bmapstart : Z;
}.

(** The header block on disk: [int n; int block[LOGSIZE]]. *)
Definition hdr_n (d : blk) : Z := s32 (get32 d 0).
Definition hdr_block (d : blk) (i : Z) : Z := s32 (get32 d (4 + 4 * i)).

(** [hb->block[i] = log.lh.block[i]] for the first [k] entries from [i]. *)
Fixpoint put_entries (k : nat) (i : Z) (l : log_t) (d : blk) : blk :=
  match k with
  | O => d
  | S k' => put_entries k' (i + 1) l (put32 d (4 + 4 * i) (lh_at l i))
  end.

Section log.
Context {dev : Z} {St : Type} `{!BlockCache dev St}.

Record lst := Lst { lg : log_t; cch : St }.

Definition set_lg (x : log_t) (s : lst) : lst := Lst x (cch s).
Definition set_cch (x : St) (s : lst) : lst := Lst (lg s) x.
Definition mod_lg (f : log_t -> log_t) : M lst unit := modify (fun s => set_lg (f (lg s)) s).
Definition on_cache {A} (c : M St A) : M lst A := zoom cch set_cch c.

Definition log_acquire : M lst unit := spin_acquire (fun s => log_lock (lg s)) (fun x s => set_lg (set_log_lock x (lg s)) s).
Definition log_release : M lst unit := spin_release (fun s => log_lock (lg s)) (fun x s => set_lg (set_log_lock x (lg s)) s).

Definition install_one (tail : Z) : M lst unit :=
  let! l := gets lg in
  let! lbuf := on_cache (bread (ldev l) (wrap32 (start l + tail + 1))) in
  let! dbuf := on_cache (bread (ldev l) (wrap32 (lh_at l tail))) in
  let! d := on_cache (bdata lbuf) in
  on_cache (bset dbuf d) ;;
  on_cache (bwrite dbuf) ;;
  on_cache (bunpin dbuf) ;;
  on_cache (brelse lbuf) ;;
  on_cache (brelse dbuf).
Definition install_trans : M lst unit :=
  let! l := gets lg in
  for_each (seqZ 0 (lh_n l)) install_one.

Definition read_head : M lst unit :=
  let! l := gets lg in
  let! b := on_cache (bread (ldev l) (wrap32 (start l))) in
  let! d := on_cache (bdata b) in
  mod_lg (set_lh_n (hdr_n d)) ;;
  for_each (seqZ 0 (hdr_n d)) (fun i =>
    if LOGSIZE <=? i then panic "log.lh.block out of bounds" else
    mod_lg (fun l => set_lh_block (<[Z.to_nat i := hdr_block d i]> (lh_block l)) l)) ;;
  on_cache (brelse b).

Definition write_head : M lst unit :=
  let! l := gets lg in
  let! b := on_cache (bread (ldev l) (wrap32 (start l))) in
  let! d := on_cache (bdata b) in
  on_cache (bset b (put_entries (Z.to_nat (lh_n l)) 0 l (put32 d 0 (lh_n l)))) ;;
  on_cache (bwrite b) ;;
  on_cache (brelse b).

Definition recover_from_log : M lst unit :=
  read_head ;;
  install_trans ;;
  mod_lg (set_lh_n 0) ;;
  write_head.

(** [sizeof(struct logheader)] is [4 + 4 * LOGSIZE]. *)
Definition initlog (d : Z) (sb : superblock) : M lst unit :=
  if BSIZE <=? 4 + 4 * LOGSIZE then panic "initlog: too big logheader" else
  mod_lg (set_log_lock spin_free) ;;
  mod_lg (fun l => Log (log_lock l) (s32 (logstart sb)) (s32 (nlog sb)) (outstanding l) (committing l) d (lh_n l) (lh_block l)) ;;
  recover_from_log.

Definition begin_op : M lst unit :=
  log_acquire ;;
  let! l := gets lg in
  if truth (committing l) then log_release ;; block
  else if LOGSIZE <? lh_n l + (outstanding l + 1) * MAXOPBLOCKS then log_release ;; block
  else mod_lg (fun l => set_outstanding (outstanding l + 1) l) ;; log_release.

Definition write_log_one (tail : Z) : M lst unit :=
  let! l := gets lg in
  let! to := on_cache (bread (ldev l) (wrap32 (start l + tail + 1))) in
  let! from := on_cache (bread (ldev l) (wrap32 (lh_at l tail))) in
  let! d := on_cache (bdata from) in
  on_cache (bset to d) ;;
  on_cache (bwrite to) ;;
  on_cache (brelse from) ;;
  on_cache (brelse to).
Definition write_log : M lst unit :=
  let! l := gets lg in
  for_each (seqZ 0 (lh_n l)) write_log_one.

Definition commit : M lst unit :=
  let! l := gets lg in
  if 0 <? lh_n l then
    write_log ;;
    write_head ;;
    install_trans ;;
    mod_lg (set_lh_n 0) ;;
    write_head
  else ret tt.

Definition end_op : M lst unit :=
  log_acquire ;;
  mod_lg (fun l => set_outstanding (outstanding l - 1) l) ;;
  let! l := gets lg in
  if truth (committing l) then panic "log.committing" else
  let do_commit := outstanding l =? 0 in
  (if do_commit then mod_lg (set_committing 1) else ret tt) ;;
  log_release ;;
  if do_commit then
    commit ;;
    log_acquire ;;
    mod_lg (set_committing 0) ;;
    log_release
  else ret tt.

(** The absorption loop: the first entry equal to [bno], or [lh_n]. *)
Fixpoint log_find (k : nat) (i : Z) (l : log_t) (bno : Z) : Z :=
  match k with
  | O => i
  | S k' => if wrap32 (lh_at l i) =? bno then i else log_find k' (i + 1) l bno
  end.

Definition log_write (b : nat) : M lst unit :=
  let! l := gets lg in
  if (LOGSIZE <=? lh_n l) || (size_ l - 1 <=? lh_n l) then panic "too big a transaction" else
  if outstanding l <? 1 then panic "log_write outside of trans" else
  log_acquire ;;
  let! bno := on_cache (bblockno b) in
  let i := log_find (Z.to_nat (lh_n l)) 0 l bno in
  mod_lg (fun l => set_lh_block (<[Z.to_nat i := s32 bno]> (lh_block l)) l) ;;
  (if i =? lh_n l then
     on_cache (bpin b) ;; mod_lg (fun l => set_lh_n (lh_n l + 1) l)
   else ret tt) ;;
  log_release.
End log.
Arguments lst St : clear implicits.
