(* ===== verification/LogProof.v ===== *)
(** * What the log does to the cache and the disk

    The net effect of each turn of the log's loops on the abstract cache, and
    from it the exact sequence of disk writes of [commit] and of
    [recover_from_log]. *)

From S2P Require Import Prelude Spinlock Block BlockCache Log.

(** ** Sequences of disk writes *)

Abbreviation writes := (list (Z * blk)) (only parsing).

Fixpoint apply_writes (ws : writes) (f : Z -> blk) : Z -> blk :=
  match ws with
  | [] => f
  | (b, d) :: ws' => apply_writes ws' (<[b := d]> f)
  end.

(** Copying the blocks [bs] to the log, from its entry [k]; and installing
    them from there.  [f] gives the contents. *)
Fixpoint log_copies (st : Z) (f : Z -> blk) (k : Z) (bs : list Z) : writes :=
  match bs with
  | [] => []
  | b :: bs' => (st + k + 1, f b) :: log_copies st f (k + 1) bs'
  end.
Fixpoint installs (st : Z) (f : Z -> blk) (k : Z) (bs : list Z) : writes :=
  match bs with
  | [] => []
  | b :: bs' => (b, f (st + k + 1)) :: installs st f (k + 1) bs'
  end.

Definition in_log (st b : Z) : Prop := st <= b < st + LOGSIZE.

#[export] Instance in_log_dec st b : Decision (in_log st b).
Proof. unfold in_log. apply _. Defined.

Lemma in_log_start st : in_log st st.
Proof. unfold in_log, LOGSIZE, MAXOPBLOCKS. lia. Qed.

Fixpoint drop_refs (bs : list Z) (m : gmap Z Z) : gmap Z Z :=
  match bs with
  | [] => m
  | b :: bs' => drop_refs bs' (refset b (wrap32 (default 0 (m !! b) - 1)) m)
  end.

Lemma log_copies_ext st f g k bs : (forall b, b ∈ bs -> f b = g b) -> log_copies st f k bs = log_copies st g k bs.
Proof.
  revert k. induction bs as [|b bs IH]; intros k H; simpl; [done|].
  rewrite H by (by left). f_equal. apply IH. intros x Hx. apply H. by right.
Qed.

Lemma installs_ext st f g k bs :
  (forall i, k <= i < k + Z.of_nat (length bs) -> f (st + i + 1) = g (st + i + 1)) ->
  installs st f k bs = installs st g k bs.
Proof.
  revert k. induction bs as [|b bs IH]; intros k H; simpl; [done|].
  rewrite H by (simpl; lia). f_equal. apply IH. intros i Hi. apply H. simpl. lia.
Qed.

Lemma apply_writes_app ws1 ws2 f : apply_writes (ws1 ++ ws2) f = apply_writes ws2 (apply_writes ws1 f).
Proof. revert f. induction ws1 as [|[b d] ws1 IH]; intros f; simpl; [done|]. apply IH. Qed.

Lemma apply_notin ws f b : b ∉ ws.*1 -> apply_writes ws f b = f b.
Proof.
  revert f. induction ws as [|[b' d] ws IH]; intros f Hb; simpl in *; [done|].
  rewrite not_elem_of_cons in Hb. destruct Hb as [Hne Hb]. rewrite IH by done. by rewrite fn_lookup_insert_ne.
Qed.

Lemma log_copies_keys st f k bs b :
  b ∈ (log_copies st f k bs).*1 -> st + k < b <= st + k + Z.of_nat (length bs).
Proof.
  revert k. induction bs as [|x bs IH]; intros k H; cbn [log_copies fmap list_fmap fst length] in *.
  - by apply not_elem_of_nil in H.
  - apply elem_of_cons in H as [->|H%IH]; lia.
Qed.

Lemma apply_copies st f bs : forall k g i b,
  bs !! i = Some b -> apply_writes (log_copies st f k bs) g (st + k + Z.of_nat i + 1) = f b.
Proof.
  induction bs as [|x bs IH]; intros k g i b Hi; [done|]. cbn [log_copies apply_writes].
  destruct i as [|i]; simpl in Hi.
  - injection Hi as ->. rewrite apply_notin.
    + replace (st + k + Z.of_nat 0 + 1) with (st + k + 1) by lia. apply fn_lookup_insert.
    + intros H%log_copies_keys. lia.
  - replace (st + k + Z.of_nat (S i) + 1) with (st + (k + 1) + Z.of_nat i + 1) by lia. by apply IH.
Qed.

Lemma installs_copied st f g bs : forall k,
  (forall i b, bs !! i = Some b -> g (st + k + Z.of_nat i + 1) = f b) ->
  installs st g k bs = (fun b => (b, f b)) <$> bs.
Proof.
  induction bs as [|b bs IH]; intros k H; cbn [installs fmap list_fmap]; [done|]. f_equal.
  - f_equal. rewrite <- (H 0%nat b eq_refl). f_equal. lia.
  - apply IH. intros i x Hi. rewrite <- (H (S i) x Hi). f_equal. lia.
Qed.

(** The blocks of the log header: [n] set and the entries copied. *)
Definition head_blk (l : log_t) (d : blk) : blk :=
  put_entries (Z.to_nat (lh_n l)) 0 l (put32 d 0 (lh_n l)).

(** All disk writes of a commit of the blocks [bs] with contents [f]. *)
Definition commit_writes (l : log_t) (f : Z -> blk) (bs : list Z) : writes :=
  let h := head_blk l (f (start l)) in
  log_copies (start l) f 0 bs ++ [(start l, h)] ++ ((fun b => (b, f b)) <$> bs) ++ [(start l, put32 h 0 0)].

(** The entries of a header as a list, and the log after loading them. *)
Definition hdr_list (d : blk) : list Z := hdr_block d <$> seqZ 0 (hdr_n d).
Definition load_hdr (d : blk) (l : log_t) : log_t :=
  set_lh_block (hdr_list d ++ drop (Z.to_nat (hdr_n d)) (lh_block l)) (set_lh_n (hdr_n d) l).

(** The home blocks that the header on disk [f] lists, and the disk writes of
    a recovery from [f]. *)
Definition home (st : Z) (f : Z -> blk) : list Z := wrap32 <$> hdr_list (f st).
Definition recover_writes (st : Z) (f : Z -> blk) : writes :=
  installs st f 0 (home st f) ++ [(st, put32 (f st) 0 0)].

(** A header that [commit] can have written. *)
Definition valid_hdr (st : Z) (f : Z -> blk) : Prop :=
  0 <= hdr_n (f st) < LOGSIZE /\ NoDup (home st f) /\ (forall b, b ∈ home st f -> ~ in_log st b).

Lemma length_home st f : 0 <= hdr_n (f st) -> Z.of_nat (length (home st f)) = hdr_n (f st).
Proof. intros H. unfold home, hdr_list. rewrite !length_fmap, length_seqZ. lia. Qed.

Section logproof.
Context {dev : Z} {St : Type} `{!BlockCache dev St}.

Definition rep (s : lst St) (a : acache) : Prop := cache_rep (cch s) a.

(** Block [b] holds [d] in the cache and on the disk, after one disk write. *)
Definition a_put (b : Z) (d : blk) (a : acache) : acache :=
  ACache (<[b := d]> (cv a)) (<[b := d]> (dk a)) (refs a) (held a) (tr a ++ [(b, d)]).

Lemma wp_on_cache {A} (c : M St A) (Q : A -> lst St -> Prop) s :
  wp c (fun x t => Q x (set_cch t s)) (cch s) -> wp (on_cache c) Q s.
Proof. intros H. by apply wp_zoom. Qed.

Lemma getref_none a b : refs a !! b = None -> getref a b = 0.
Proof. unfold getref. by intros ->. Qed.

Lemma getref_some a b k : refs a !! b = Some k -> getref a b = k.
Proof. unfold getref. by intros ->. Qed.

(** ** write_log *)

Lemma wp_write_log_one s a tail lb hb k (Q : unit -> lst St -> Prop) :
  rep s a -> held a = ∅ -> ldev (lg s) = dev ->
  wrap32 (start (lg s) + tail + 1) = lb -> wrap32 (lh_at (lg s) tail) = hb -> lb <> hb ->
  refs a !! lb = None -> refs a !! hb = Some k -> 0 < k -> k + 1 < 2^32 ->
  (size (dom (refs a)) < Z.to_nat NBUF)%nat ->
  (forall c, rep (set_cch c s) (a_put lb (cv a hb) a) -> Q tt (set_cch c s)) ->
  wp (write_log_one tail) Q s.
Proof.
  intros Hrep Hheld Hdev Hlb Hhb Hne Hrl Hrh Hk Hk1 Hsz HQ. unfold write_log_one.
  apply wp_bind, wp_gets. rewrite Hdev, Hlb, Hhb.
  apply wp_bind, wp_on_cache. eapply (bread_law (cch s) a lb); [done|..].
  { intros i. by rewrite Hheld. } { intros i b. by rewrite Hheld. } { by right. }
  { rewrite getref_none by done. lia. }
  intros i c1 Hi H1. apply wp_bind, wp_on_cache. cbn [cch set_cch].
  set (a1 := a_hold i lb a) in *.
  assert (held a1 = {[ i := lb ]}) as Hh1 by (unfold a1; simpl; by rewrite Hheld).
  eapply (bread_law c1 a1 hb); [done|..].
  { intros j. rewrite Hh1. intros [_ E]%lookup_singleton_Some. congruence. }
  { intros j b. rewrite Hh1. intros [_ <-]%lookup_singleton_Some. unfold a1. simpl. rewrite lookup_insert_eq. eauto. }
  { left. unfold a1. simpl. rewrite lookup_insert_ne by done. eauto. }
  { rewrite (getref_some a1 hb k) by (unfold a1; simpl; by rewrite lookup_insert_ne). lia. }
  intros j c2 Hj H2. rewrite Hh1 in Hj. apply lookup_singleton_None in Hj.
  assert (held (a_hold j hb a1) !! i = Some lb) as Hhi.
  { simpl. rewrite lookup_insert_ne by done. unfold a1. simpl. by rewrite lookup_insert_eq. }
  assert (held (a_hold j hb a1) !! j = Some hb) as Hhj by apply lookup_insert_eq.
  apply wp_bind, wp_on_cache. cbn [cch set_cch]. eapply (bdata_law c2 _ j hb); [exact H2|done|].
  apply wp_bind, wp_on_cache. cbn [cch set_cch]. eapply (bset_law c2 _ i lb); [exact H2|done| |].
  { simpl. rewrite lookup_insert_ne, lookup_insert_eq by done. eauto. }
  intros c3 H3. apply wp_bind, wp_on_cache. cbn [cch set_cch]. eapply (bwrite_law c3 _ i lb); [exact H3|done|].
  intros c4 H4. apply wp_bind, wp_on_cache. cbn [cch set_cch].
  assert (Hg4 : forall x y, getref (a_flush x (a_set x y (a_hold j hb a1))) hb = k + 1).
  { intros x y. unfold getref at 1. simpl. rewrite lookup_insert_eq. simpl. f_equal.
    apply getref_some. unfold a1. simpl. by rewrite lookup_insert_ne. }
  eapply (brelse_law c4 _ j hb); [exact H4|done| |].
  { rewrite Hg4. rewrite wrap32_small by lia. lia. }
  intros c5 H5. apply wp_on_cache. cbn [cch set_cch].
  assert (Hg5 : forall y, getref (a_release j hb (a_flush lb (a_set lb y (a_hold j hb a1)))) lb = 1).
  { intros y. unfold getref at 1. simpl. rewrite lookup_refset, decide_False, lookup_insert_ne, lookup_insert_eq by done.
    unfold a1. rewrite getref_none by done. done. }
  eapply (brelse_law c5 _ i lb); [exact H5| | |].
  { simpl. by rewrite lookup_delete_ne by congruence. }
  { intros _. simpl. by rewrite !fn_lookup_insert. }
  intros c6 H6. cbn [set_cch lg]. apply HQ. revert H6. unfold rep. cbn [cch set_cch].
  match goal with |- cache_rep _ ?x -> cache_rep _ ?y => replace x with y; [done|] end.
  unfold a_put, a_release at 1. f_equal.
  - simpl. by rewrite fn_lookup_insert.
  - rewrite Hg5. change (wrap32 (1 - 1)) with 0. unfold a_release. cbn [refs]. rewrite Hg4.
    rewrite wrap32_small by lia. replace (k + 1 - 1) with k by lia. unfold a1. cbn [refs a_hold a_set a_flush].
    apply map_eq. intros x. rewrite !lookup_refset. rewrite (decide_True (P := 0 = 0)) by done.
    repeat case_decide; subst; try congruence; try lia.
    rewrite !lookup_insert_ne by done. done.
  - unfold a_release. cbn [held a_flush a_set a_hold]. rewrite Hh1, Hheld.
    rewrite delete_insert_id by (apply lookup_singleton_None; done). apply map_eq. intros x.
    destruct (decide (x = i)) as [->|]; [by rewrite lookup_delete_eq|].
    rewrite lookup_delete_ne, lookup_singleton_ne by done. done.
  - simpl. by rewrite fn_lookup_insert.
Qed.

(** ** install_trans *)

(** The home block [hb] takes the contents [d], and one reference is dropped. *)
Definition a_install (hb : Z) (d : blk) (a : acache) : acache :=
  ACache (<[hb := d]> (cv a)) (<[hb := d]> (dk a)) (refset hb (wrap32 (getref a hb - 1)) (refs a))
    (held a) (tr a ++ [(hb, d)]).

(** Room for the log block and, where it has no buffer yet, the home block. *)
Definition install_room (a : acache) (hb : Z) : Prop :=
  (size (dom (refs a)) + (if decide (is_Some (refs a !! hb)) then 0 else 1) < Z.to_nat NBUF)%nat.

Lemma dom_hold i b a : dom (refs (a_hold i b a)) = {[ b ]} ∪ dom (refs a).
Proof. simpl. by rewrite dom_insert_L. Qed.

Lemma wp_install_one s a tail lb hb (Q : unit -> lst St -> Prop) :
  rep s a -> held a = ∅ -> ldev (lg s) = dev ->
  wrap32 (start (lg s) + tail + 1) = lb -> wrap32 (lh_at (lg s) tail) = hb -> lb <> hb ->
  refs a !! lb = None -> 0 <= getref a hb -> getref a hb + 1 < 2^32 -> install_room a hb ->
  (forall c, rep (set_cch c s) (a_install hb (cv a lb) a) -> Q tt (set_cch c s)) ->
  wp (install_one tail) Q s.
Proof.
  intros Hrep Hheld Hdev Hlb Hhb Hne Hrl Hg0 Hg1 Hroom HQ. unfold install_one.
  apply wp_bind, wp_gets. rewrite Hdev, Hlb, Hhb. set (g := getref a hb) in *.
  pose proof (cache_clean _ _ _ Hrep Hrl) as Hclean.
  apply wp_bind, wp_on_cache. eapply (bread_law (cch s) a lb); [done|..].
  { intros i. by rewrite Hheld. } { intros i b. by rewrite Hheld. }
  { right. unfold install_room in Hroom. lia. }
  { rewrite getref_none by done. lia. }
  intros i c1 Hi H1. apply wp_bind, wp_on_cache. cbn [cch set_cch]. set (a1 := a_hold i lb a) in *.
  assert (held a1 = {[ i := lb ]}) as Hh1 by (unfold a1; simpl; by rewrite Hheld).
  assert (getref a1 hb = g) as Hgh1 by (unfold getref, a1; simpl; by rewrite lookup_insert_ne).
  assert (refs a1 !! hb = refs a !! hb) as Hr1 by (unfold a1; simpl; by rewrite lookup_insert_ne).
  eapply (bread_law c1 a1 hb); [done|..].
  { intros j. rewrite Hh1. intros [_ E]%lookup_singleton_Some. congruence. }
  { intros j b. rewrite Hh1. intros [_ <-]%lookup_singleton_Some. unfold a1. simpl. rewrite lookup_insert_eq. eauto. }
  { unfold can_get. rewrite Hr1. unfold install_room in Hroom. case_decide as Hd; [by left|right].
    unfold a1. rewrite dom_hold, size_union, size_singleton; [lia|].
    rewrite disjoint_singleton_l, elem_of_dom, Hrl. by intros [? ?]. }
  { lia. }
  intros j c2 Hj H2. rewrite Hh1 in Hj. apply lookup_singleton_None in Hj. set (a2 := a_hold j hb a1) in *.
  assert (held a2 !! i = Some lb) as Hhi.
  { simpl. rewrite lookup_insert_ne by done. unfold a1. simpl. by rewrite lookup_insert_eq. }
  assert (held a2 !! j = Some hb) as Hhj by apply lookup_insert_eq.
  assert (refs a2 !! hb = Some (g + 1)) as Hr2 by (unfold a2; simpl; by rewrite lookup_insert_eq, Hgh1).
  apply wp_bind, wp_on_cache. cbn [cch set_cch]. eapply (bdata_law c2 _ i lb); [exact H2|done|].
  apply wp_bind, wp_on_cache. cbn [cch set_cch]. eapply (bset_law c2 _ j hb); [exact H2|done|by eauto|].
  intros c3 H3. apply wp_bind, wp_on_cache. cbn [cch set_cch]. eapply (bwrite_law c3 _ j hb); [exact H3|done|].
  change (cv a2 lb) with (cv a lb). set (a4 := a_flush hb (a_set hb (cv a lb) a2)).
  intros c4 H4. apply wp_bind, wp_on_cache. cbn [cch set_cch].
  assert (getref a4 hb = g + 1) as Hg4 by (by apply getref_some).
  assert (cv a4 hb = dk a4 hb) as Hcl4 by (simpl; by rewrite !fn_lookup_insert).
  eapply (bunpin_law c4 _ j hb); [exact H4|done|by intros _|].
  rewrite Hg4. replace (g + 1 - 1) with g by lia. rewrite wrap32_small by lia.
  set (a5 := a_ref hb g a4). intros c5 H5. apply wp_bind, wp_on_cache. cbn [cch set_cch].
  assert (getref a5 lb = 1) as Hg5.
  { unfold getref, a5, a4, a2, a1. simpl. rewrite lookup_refset, decide_False, lookup_insert_ne, lookup_insert_eq by done.
    by rewrite getref_none. }
  eapply (brelse_law c5 _ i lb); [exact H5|done| |].
  { intros _. simpl. rewrite !fn_lookup_insert_ne by done. done. }
  set (a6 := a_release i lb a5). intros c6 H6. apply wp_on_cache. cbn [cch set_cch].
  assert (getref a6 hb = g) as Hg6.
  { unfold getref at 1, a6. simpl. rewrite lookup_refset, decide_False by done. apply default_refset. }
  eapply (brelse_law c6 _ j hb); [exact H6| |by intros _|].
  { simpl. by rewrite lookup_delete_ne. }
  intros c7 H7. apply HQ. revert H7. unfold rep. cbn [cch set_cch].
  match goal with |- cache_rep _ ?x -> cache_rep _ ?y => replace x with y; [done|] end.
  unfold a_install, a_release at 1. rewrite Hg6. fold g. f_equal.
  - simpl. by rewrite fn_lookup_insert.
  - unfold a6, a_release. cbn [refs]. rewrite Hg5. change (wrap32 (1 - 1)) with 0.
    apply map_eq. intros x. unfold a5, a4, a2, a1. cbn [refs a_ref a_flush a_set a_hold]. rewrite !lookup_refset.
    rewrite (decide_True (P := 0 = 0)) by done.
    destruct (decide (x = hb)) as [->|]; [done|]. destruct (decide (x = lb)) as [->|]; [done|].
    by rewrite !lookup_insert_ne by done.
  - unfold a6, a_release, a5, a4, a2. cbn [held a_ref a_flush a_set a_hold]. rewrite Hh1, Hheld.
    apply map_eq. intros x. rewrite lookup_empty.
    destruct (decide (x = j)) as [->|]; [by rewrite lookup_delete_eq|]. rewrite lookup_delete_ne by done.
    destruct (decide (x = i)) as [->|]; [by rewrite lookup_delete_eq|]. rewrite lookup_delete_ne by done.
    by rewrite lookup_insert_ne, lookup_singleton_ne by done.
  - simpl. by rewrite fn_lookup_insert.
Qed.

(** ** The header block *)

(** Reading a block and giving it back. *)
Lemma hold_release_refs i b a :
  refs a !! b = None -> refset b (wrap32 (getref (a_hold i b a) b - 1)) (<[b := getref a b + 1]> (refs a)) = refs a.
Proof.
  intros Hr. unfold getref at 1. simpl. rewrite lookup_insert_eq. simpl. rewrite (getref_none a b Hr).
  change (wrap32 (0 + 1 - 1)) with 0. apply map_eq. intros x. rewrite lookup_refset.
  rewrite (decide_True (P := 0 = 0)) by done. case_decide as E; [by subst|]. by rewrite lookup_insert_ne.
Qed.

Lemma wp_write_head s a b (Q : unit -> lst St -> Prop) :
  rep s a -> held a = ∅ -> ldev (lg s) = dev -> wrap32 (start (lg s)) = b -> refs a !! b = None ->
  (size (dom (refs a)) < Z.to_nat NBUF)%nat ->
  (forall c, rep (set_cch c s)
     (a_put b (put_entries (Z.to_nat (lh_n (lg s))) 0 (lg s) (put32 (cv a b) 0 (lh_n (lg s)))) a) ->
     Q tt (set_cch c s)) ->
  wp write_head Q s.
Proof.
  intros Hrep Hheld Hdev Hb Hr Hsz HQ. unfold write_head. apply wp_bind, wp_gets. rewrite Hdev, Hb.
  apply wp_bind, wp_on_cache. eapply (bread_law (cch s) a b); [done|..].
  { intros i. by rewrite Hheld. } { intros i x. by rewrite Hheld. } { by right. }
  { rewrite getref_none by done. lia. }
  intros i c1 Hi H1. assert (held (a_hold i b a) !! i = Some b) as Hh by apply lookup_insert_eq.
  apply wp_bind, wp_on_cache. cbn [cch set_cch]. eapply (bdata_law c1 _ i b); [exact H1|done|].
  change (cv (a_hold i b a) b) with (cv a b). set (d := put_entries _ _ _ _).
  apply wp_bind, wp_on_cache. cbn [cch set_cch]. eapply (bset_law c1 _ i b); [exact H1|done| |].
  { simpl. rewrite lookup_insert_eq. eauto. }
  intros c2 H2. apply wp_bind, wp_on_cache. cbn [cch set_cch]. eapply (bwrite_law c2 _ i b); [exact H2|done|].
  intros c3 H3. apply wp_on_cache. cbn [cch set_cch]. eapply (brelse_law c3 _ i b); [exact H3|done| |].
  { intros _. simpl. by rewrite !fn_lookup_insert. }
  intros c4 H4. apply HQ. revert H4. unfold rep. cbn [cch set_cch].
  match goal with |- cache_rep _ ?x -> cache_rep _ ?y => replace x with y; [done|] end.
  unfold a_put, a_release. f_equal.
  - simpl. by rewrite fn_lookup_insert.
  - symmetry. by apply hold_release_refs.
  - simpl. by rewrite delete_insert_id.
  - simpl. by rewrite fn_lookup_insert.
Qed.

Lemma wp_read_entries (d : blk) (k : nat) : forall s pre (Q : unit -> lst St -> Prop),
  Z.of_nat (length pre) + Z.of_nat k <= LOGSIZE ->
  (length pre + k <= length (lh_block (lg s)))%nat -> take (length pre) (lh_block (lg s)) = pre ->
  Q tt (set_lg (set_lh_block (pre ++ (hdr_block d <$> seqZ (Z.of_nat (length pre)) (Z.of_nat k)) ++
          drop (length pre + k) (lh_block (lg s))) (lg s)) s) ->
  wp (for_each (seqZ (Z.of_nat (length pre)) (Z.of_nat k)) (fun i =>
    if LOGSIZE <=? i then panic "log.lh.block out of bounds" else
    mod_lg (fun l => set_lh_block (<[Z.to_nat i := hdr_block d i]> (lh_block l)) l))) Q s.
Proof.
  induction k as [|k IH]; intros s pre Q Hmax Hlen Hpre HQ.
  - apply wp_ret. rewrite Nat.add_0_r in HQ. rewrite seqZ_nil in HQ by lia. simpl in HQ.
    rewrite <- Hpre in HQ at 1. rewrite take_drop in HQ. by destruct s as [[] ?].
  - rewrite seqZ_cons by lia. cbn [for_each]. replace (LOGSIZE <=? _) with false by (bool_goal; lia).
    apply wp_bind, wp_modify. set (x := hdr_block d (Z.of_nat (length pre))). rewrite Nat2Z.id.
    replace (Z.succ (Z.of_nat (length pre))) with (Z.of_nat (length (pre ++ [x]))) by (rewrite length_app; simpl; lia).
    replace (Z.pred (Z.of_nat (S k))) with (Z.of_nat k) by lia.
    set (s1 := set_lg _ s). assert (lh_block (lg s1) = <[length pre := x]> (lh_block (lg s))) as Hl1 by done.
    apply (IH s1 (pre ++ [x])); rewrite ?Hl1, ?length_insert, ?length_app; simpl; [lia|lia| |].
    + rewrite Nat.add_1_r. rewrite (take_S_r _ _ x) by (apply list_lookup_insert_eq; lia).
      by rewrite take_insert_ge, Hpre by lia.
    + rewrite drop_insert_lt by lia. rewrite seqZ_cons in HQ by lia. rewrite fmap_cons in HQ.
      replace (length pre + 1 + k)%nat with (length pre + S k)%nat by lia.
      replace (Z.of_nat (length pre + 1)) with (Z.succ (Z.of_nat (length pre))) by lia.
      replace (Z.pred (Z.of_nat (S k))) with (Z.of_nat k) in HQ by lia.
      rewrite <- (assoc_L (++)). cbn [app]. exact HQ.
Qed.

Lemma wp_read_head s a b (Q : unit -> lst St -> Prop) :
  rep s a -> held a = ∅ -> ldev (lg s) = dev -> wrap32 (start (lg s)) = b -> refs a !! b = None ->
  (size (dom (refs a)) < Z.to_nat NBUF)%nat ->
  hdr_n (cv a b) <= LOGSIZE -> length (lh_block (lg s)) = Z.to_nat LOGSIZE ->
  (forall c, rep (Lst (load_hdr (cv a b) (lg s)) c) a -> Q tt (Lst (load_hdr (cv a b) (lg s)) c)) ->
  wp read_head Q s.
Proof.
  intros Hrep Hheld Hdev Hb Hr Hsz Hn Hlen HQ. unfold read_head. apply wp_bind, wp_gets. rewrite Hdev, Hb.
  apply wp_bind, wp_on_cache. eapply (bread_law (cch s) a b); [done|..].
  { intros i. by rewrite Hheld. } { intros i x. by rewrite Hheld. } { by right. }
  { rewrite getref_none by done. lia. }
  intros i c1 Hi H1. assert (held (a_hold i b a) !! i = Some b) as Hh by apply lookup_insert_eq.
  apply wp_bind, wp_on_cache. cbn [cch set_cch]. eapply (bdata_law c1 _ i b); [exact H1|done|].
  change (cv (a_hold i b a) b) with (cv a b). set (d := cv a b) in *.
  apply wp_bind, wp_modify. apply wp_bind.
  assert (seqZ (Z.of_nat 0) (Z.of_nat (Z.to_nat (hdr_n d))) = seqZ 0 (hdr_n d)) as Hseq.
  { simpl. destruct (decide (0 <= hdr_n d)); [by rewrite Z2Nat.id|]. rewrite !seqZ_nil by lia. done. }
  rewrite <- Hseq. apply (wp_read_entries d (Z.to_nat (hdr_n d)) _ []); cbn [lg set_lg set_cch set_lh_n lh_block length].
  { unfold LOGSIZE, MAXOPBLOCKS in *. lia. } { unfold LOGSIZE, MAXOPBLOCKS in *. lia. } { done. }
  apply wp_on_cache. cbn [cch set_cch set_lg]. eapply (brelse_law c1 _ i b); [exact H1|done| |].
  { intros _. simpl. by apply (cache_clean _ _ _ Hrep). }
  intros c2 H2.
  assert (forall c, cache_rep c (a_release i b (a_hold i b a)) -> cache_rep c a) as Hsame.
  { intros c. match goal with |- cache_rep _ ?x -> _ => replace x with a; [done|] end.
    unfold a_release. simpl. rewrite hold_release_refs by done. rewrite delete_insert_id by done. by destruct a. }
  specialize (HQ c2). unfold load_hdr, hdr_list in HQ.
  rewrite Hseq. apply HQ. by apply Hsame.
Qed.

(** ** The loops *)

Definition a_writes (ws : writes) (r : gmap Z Z) (a : acache) : acache :=
  ACache (apply_writes ws (cv a)) (apply_writes ws (dk a)) r (held a) (tr a ++ ws).

(** The entries [k ..] of the in-memory header are [bs], home blocks. *)
Definition entries (l : log_t) (k : Z) (bs : list Z) : Prop :=
  0 <= k /\ k + Z.of_nat (length bs) < LOGSIZE /\ 0 <= start l /\ start l + LOGSIZE + 1 < 2^32 /\
  (forall i b, bs !! i = Some b -> wrap32 (lh_at l (k + Z.of_nat i)) = b /\ ~ in_log (start l) b).

Lemma entries_cons l k b bs :
  entries l k (b :: bs) ->
  wrap32 (start l + k + 1) = start l + k + 1 /\ wrap32 (lh_at l k) = b /\ ~ in_log (start l) b /\
  start l + k + 1 <> b /\ in_log (start l) (start l + k + 1) /\ entries l (k + 1) bs.
Proof.
  intros (Hk & Hlen & Hst & Hmax & He). cbn [length] in Hlen.
  destruct (He 0%nat b eq_refl) as [H0 Hb]. rewrite Z.add_0_r in H0.
  unfold LOGSIZE, MAXOPBLOCKS in *. rewrite wrap32_small by lia.
  assert (in_log (start l) (start l + k + 1)) by (unfold in_log, LOGSIZE, MAXOPBLOCKS; lia).
  splits; try done.
  - intros E. by rewrite <- E in Hb.
  - unfold entries, LOGSIZE, MAXOPBLOCKS. splits; try lia. intros i x Hi.
    replace (k + 1 + Z.of_nat i) with (k + Z.of_nat (S i)) by lia. by apply He.
Qed.

Lemma entries_out l k bs b : entries l k bs -> b ∈ bs -> ~ in_log (start l) b.
Proof. intros (_ & _ & _ & _ & He) [i Hi]%list_elem_of_lookup. by apply He in Hi as [_ ?]. Qed.

Definition log_unref (l : log_t) (a : acache) : Prop :=
  forall b, in_log (start l) b -> refs a !! b = None.

Lemma wp_write_log_loop bs : forall s a k (Q : unit -> lst St -> Prop),
  rep s a -> held a = ∅ -> ldev (lg s) = dev -> entries (lg s) k bs -> log_unref (lg s) a ->
  (forall b, b ∈ bs -> exists n, refs a !! b = Some n /\ 0 < n < 2^32 - 1) ->
  (size (dom (refs a)) < Z.to_nat NBUF)%nat ->
  (forall c, rep (set_cch c s) (a_writes (log_copies (start (lg s)) (cv a) k bs) (refs a) a) -> Q tt (set_cch c s)) ->
  wp (for_each (seqZ k (Z.of_nat (length bs))) write_log_one) Q s.
Proof.
  induction bs as [|b bs IH]; intros s a k Q Hrep Hheld Hdev He Hun Hpin Hsz HQ.
  - rewrite seqZ_nil by (simpl; lia). apply wp_ret. specialize (HQ (cch s)). simpl in HQ.
    replace (set_cch (cch s) s) with s in HQ by (by destruct s). apply HQ.
    unfold a_writes. simpl. rewrite app_nil_r. by destruct a.
  - destruct (entries_cons _ _ _ _ He) as (Elb & Ehb & Hb & Hne & Hin & He').
    rewrite seqZ_cons by (simpl; lia). cbn [for_each].
    replace (Z.pred (Z.of_nat (length (b :: bs)))) with (Z.of_nat (length bs)) by (simpl; lia).
    replace (Z.succ k) with (k + 1) by lia. apply wp_bind.
    destruct (Hpin b ltac:(by left)) as (n & Hn & Hn1 & Hn2).
    eapply (wp_write_log_one s a k _ b n); [done|done|done|exact Elb|done|done|by apply Hun|done|lia|lia|done|].
    intros c Hc. set (lb := start (lg s) + k + 1) in *.
    apply (IH (set_cch c s) (a_put lb (cv a b) a)); [done|done|done|done|done| |done|].
    + intros x Hx. apply Hpin. by right.
    + intros c' Hc'. change (set_cch c' (set_cch c s)) with (set_cch c' s) in *. apply HQ. revert Hc'. unfold rep. simpl.
      match goal with |- cache_rep _ ?x -> cache_rep _ ?y => replace x with y; [done|] end.
      rewrite (log_copies_ext _ (<[lb := cv a b]> (cv a)) (cv a)).
      2:{ intros x Hx. rewrite fn_lookup_insert_ne; [done|]. intros E.
          apply (entries_out _ _ _ x He' Hx). by rewrite <- E. }
      unfold a_writes. simpl. by rewrite <- (assoc_L (++)).
Qed.

(** Home blocks that have no buffer of their own yet. *)
Fixpoint n_unref (m : gmap Z Z) (bs : list Z) : nat :=
  match bs with
  | [] => 0
  | b :: bs' => (if decide (is_Some (m !! b)) then 0 else 1) + n_unref m bs'
  end.

Lemma n_unref_ext m m' bs : (forall b, b ∈ bs -> m' !! b = m !! b) -> n_unref m' bs = n_unref m bs.
Proof.
  induction bs as [|b bs IH]; intros H; simpl; [done|]. rewrite H by (by left).
  f_equal. apply IH. intros x Hx. apply H. by right.
Qed.

Lemma refset_size b n (m : gmap Z Z) :
  (size (dom (refset b n m)) <= size (dom m) + (if decide (is_Some (m !! b)) then 0 else 1))%nat.
Proof.
  case_decide as Hs.
  - rewrite Nat.add_0_r. apply subseteq_size. intros x. rewrite !elem_of_dom, lookup_refset.
    case_decide; [by subst|done].
  - rewrite <- (size_singleton (C := gset Z) b), Nat.add_comm, <- size_union.
    + apply subseteq_size. intros x. rewrite elem_of_union, elem_of_singleton, !elem_of_dom, lookup_refset.
      case_decide; [by left|by right].
    + rewrite disjoint_singleton_l, elem_of_dom. done.
Qed.

(** Room for one log block and the home blocks still to come. *)
Definition loop_room (m : gmap Z Z) (bs : list Z) : Prop :=
  (size (dom m) + n_unref m bs < Z.to_nat NBUF)%nat.

Lemma loop_room_cons m b n bs : loop_room m (b :: bs) -> NoDup (b :: bs) ->
  (size (dom m) + (if decide (is_Some (m !! b)) then 0 else 1) < Z.to_nat NBUF)%nat /\
  loop_room (refset b n m) bs.
Proof.
  intros Hroom [Hb Hnd]%NoDup_cons. unfold loop_room in *. cbn [n_unref] in Hroom. split; [lia|].
  rewrite (n_unref_ext m).
  2:{ intros x Hx. rewrite lookup_refset, decide_False; [done|]. by intros ->. }
  pose proof (refset_size b n m). lia.
Qed.

Lemma wp_install_loop bs : forall s a k (Q : unit -> lst St -> Prop),
  rep s a -> held a = ∅ -> ldev (lg s) = dev -> entries (lg s) k bs -> log_unref (lg s) a ->
  NoDup bs -> (forall b, b ∈ bs -> 0 <= getref a b < 2^32 - 1) -> loop_room (refs a) bs ->
  (forall c, rep (set_cch c s) (a_writes (installs (start (lg s)) (cv a) k bs) (drop_refs bs (refs a)) a) ->
     Q tt (set_cch c s)) ->
  wp (for_each (seqZ k (Z.of_nat (length bs))) install_one) Q s.
Proof.
  induction bs as [|b bs IH]; intros s a k Q Hrep Hheld Hdev He Hun Hnd Href Hroom HQ.
  - rewrite seqZ_nil by (simpl; lia). apply wp_ret. specialize (HQ (cch s)). simpl in HQ.
    replace (set_cch (cch s) s) with s in HQ by (by destruct s). apply HQ.
    unfold a_writes. simpl. rewrite app_nil_r. by destruct a.
  - destruct (entries_cons _ _ _ _ He) as (Elb & Ehb & Hb & Hne & Hin & He').
    rewrite seqZ_cons by (simpl; lia). cbn [for_each].
    replace (Z.pred (Z.of_nat (length (b :: bs)))) with (Z.of_nat (length bs)) by (simpl; lia).
    replace (Z.succ k) with (k + 1) by lia. apply wp_bind.
    pose proof (Href b ltac:(by left)) as Hrb.
    destruct (loop_room_cons _ _ (wrap32 (getref a b - 1)) _ Hroom Hnd) as [Hr1 Hr2].
    apply NoDup_cons in Hnd as [Hbn Hnd].
    eapply (wp_install_one s a k _ b); [done|done|done|exact Elb|done|done|by apply Hun|lia|lia|done|].
    intros c Hc. set (lb := start (lg s) + k + 1) in *.
    apply (IH (set_cch c s) (a_install b (cv a lb) a)); [done|done|done|done| |done| |done|].
    + intros x Hx. simpl. rewrite lookup_refset, decide_False by (by intros ->). by apply Hun.
    + intros x Hx. unfold getref at 1 2. simpl. rewrite lookup_refset, decide_False by (by intros ->).
      apply Href. by right.
    + intros c' Hc'. change (set_cch c' (set_cch c s)) with (set_cch c' s) in *. apply HQ. revert Hc'. unfold rep. simpl.
      match goal with |- cache_rep _ ?x -> cache_rep _ ?y => replace x with y; [done|] end.
      rewrite (installs_ext _ (<[b := cv a lb]> (cv a)) (cv a)).
      2:{ intros i Hi. rewrite fn_lookup_insert_ne; [done|]. intros E. apply Hb. rewrite E. unfold in_log.
          destruct He' as (? & ? & _). lia. }
      unfold a_writes. simpl. by rewrite <- (assoc_L (++)).
Qed.

Lemma a_writes_app ws1 ws2 r1 r2 a : a_writes ws2 r2 (a_writes ws1 r1 a) = a_writes (ws1 ++ ws2) r2 a.
Proof. unfold a_writes. simpl. by rewrite !apply_writes_app, <- (assoc_L (++)). Qed.

Lemma a_put_writes b d a : a_put b d a = a_writes [(b, d)] (refs a) a.
Proof. done. Qed.

(** What the log needs to commit the blocks [bs]. *)
Definition commit_pre (s : lst St) (a : acache) (bs : list Z) : Prop :=
  rep s a /\ held a = ∅ /\ ldev (lg s) = dev /\ entries (lg s) 0 bs /\ lh_n (lg s) = Z.of_nat (length bs) /\
  NoDup bs /\ log_unref (lg s) a /\
  (forall b, b ∈ bs -> exists n, refs a !! b = Some n /\ 0 < n < 2^32 - 1) /\
  (size (dom (refs a)) < Z.to_nat NBUF)%nat.

Lemma drop_refs_other bs : forall m b, b ∉ bs -> drop_refs bs m !! b = m !! b.
Proof.
  induction bs as [|x bs IH]; intros m b Hb; simpl; [done|]. rewrite not_elem_of_cons in Hb.
  rewrite IH by tauto. rewrite lookup_refset, decide_False by tauto. done.
Qed.

Lemma drop_refs_size bs : forall m, NoDup bs -> (size (dom (drop_refs bs m)) <= size (dom m) + n_unref m bs)%nat.
Proof.
  induction bs as [|x bs IH]; intros m Hnd; cbn [drop_refs n_unref]; [lia|]. apply NoDup_cons in Hnd as [Hx Hnd].
  etransitivity; [by apply IH|]. set (n := wrap32 _).
  rewrite (n_unref_ext m) by (intros b Hb; rewrite lookup_refset, decide_False; [done|by intros ->]).
  pose proof (refset_size x n m). lia.
Qed.

Lemma n_unref_pinned m bs : (forall b, b ∈ bs -> is_Some (m !! b)) -> n_unref m bs = 0%nat.
Proof.
  induction bs as [|b bs IH]; intros H; simpl; [done|]. rewrite decide_True by (apply H; by left).
  apply IH. intros x Hx. apply H. by right.
Qed.

Lemma wp_commit s a bs (Q : unit -> lst St -> Prop) :
  commit_pre s a bs -> bs <> [] ->
  (forall c, rep (Lst (set_lh_n 0 (lg s)) c)
               (a_writes (commit_writes (lg s) (cv a) bs) (drop_refs bs (refs a)) a) ->
     Q tt (Lst (set_lh_n 0 (lg s)) c)) ->
  wp commit Q s.
Proof.
  intros (Hrep & Hheld & Hdev & He & Hn & Hnd & Hun & Hpin & Hsz) Hne HQ. unfold commit.
  set (l := lg s) in *. set (st := start l) in *.
  assert (wrap32 st = st) as Hst by (destruct He as (_ & _ & ? & ? & _); apply wrap32_small; unfold LOGSIZE, MAXOPBLOCKS in *; lia).
  pose proof (in_log_start st) as Hin.
  assert (Hpin' : forall b, b ∈ bs -> is_Some (refs a !! b)) by (intros b Hb; destruct (Hpin b Hb) as (n & -> & _); eauto).
  apply wp_bind, wp_gets. replace (0 <? lh_n (lg s)) with true.
  2:{ bool_goal. fold l. rewrite Hn. destruct bs; [done|]. simpl. lia. }
  apply wp_bind. unfold write_log. apply wp_bind, wp_gets. fold l. rewrite Hn.
  apply (wp_write_log_loop bs s a 0); [done..|]. fold l st. intros c1 H1.
  set (a1 := a_writes (log_copies st (cv a) 0 bs) (refs a) a) in *.
  apply wp_bind. apply (wp_write_head _ a1 st); [exact H1|done|done|done|by apply Hun|done|].
  cbn [lg set_cch]. fold l. intros c2 H2. rewrite a_put_writes in H2. unfold a1 in H2 at 3. rewrite a_writes_app in H2.
  fold (head_blk l (cv a1 st)) in H2.
  assert (cv a1 st = cv a st) as Ecv.
  { unfold a1. simpl. apply apply_notin. intros H%log_copies_keys. lia. }
  rewrite Ecv in H2. cbn [refs a1 a_writes] in H2. set (h := head_blk l (cv a st)) in *.
  set (w2 := log_copies st (cv a) 0 bs ++ [(st, h)]) in *. set (a2 := a_writes w2 (refs a) a) in *.
  apply wp_bind. unfold install_trans. apply wp_bind, wp_gets. cbn [lg set_cch]. fold l. rewrite Hn.
  apply (wp_install_loop bs _ a2 0); [done|done|done|done|done|done| | |].
  { intros b Hb. destruct (Hpin b Hb) as (n & E & ?). rewrite (getref_some a2 b n) by done. lia. }
  { unfold loop_room. cbn [refs a2 a_writes]. rewrite n_unref_pinned by done. lia. }
  cbn [lg set_cch]. fold l st. intros c3 H3. unfold a2 in H3 at 3. rewrite a_writes_app in H3.
  rewrite (installs_copied st (cv a) _ bs 0) in H3.
  2:{ intros i b Hi. unfold a2, w2. simpl. rewrite apply_writes_app. simpl.
      rewrite fn_lookup_insert_ne by lia. by apply apply_copies. }
  apply wp_bind, wp_modify. cbn [refs a2 a_writes] in H3.
  set (w3 := w2 ++ _) in *. set (a3 := a_writes w3 (drop_refs bs (refs a)) a) in *.
  apply (wp_write_head _ a3 st); [done|done|done|done| | |].
  { simpl. rewrite drop_refs_other; [by apply Hun|]. intros Hb. by apply (entries_out _ _ _ _ He Hb). }
  { simpl. pose proof (drop_refs_size bs (refs a) Hnd) as Hs. rewrite n_unref_pinned in Hs by done. lia. }
  intros c4 H4. apply HQ. revert H4. unfold rep. cbn [cch set_cch lg set_lg].
  match goal with |- cache_rep _ ?x -> cache_rep _ ?y => replace x with y; [done|] end.
  rewrite a_put_writes. unfold a3 at 3. rewrite a_writes_app. cbn [refs a3 a_writes]. f_equal.
  unfold commit_writes. fold st h. unfold w3, w2. rewrite <- !(assoc_L (++)). do 3 f_equal.
  cbn [lh_n set_lh_n Z.to_nat put_entries]. do 3 f_equal. unfold a3. cbn [cv a_writes]. unfold w3, w2.
  rewrite !apply_writes_app. rewrite apply_notin; [simpl; by rewrite fn_lookup_insert|].
  rewrite <- list_fmap_compose. intros (b & E & Hb)%list_elem_of_fmap. simpl in E. subst b.
  by apply (entries_out _ _ _ _ He Hb).
Qed.

(** ** Recovery *)

Lemma load_hdr_entries l (d : blk) :
  0 <= start l -> start l + LOGSIZE + 1 < 2^32 -> 0 <= hdr_n d < LOGSIZE ->
  (forall b, b ∈ wrap32 <$> hdr_list d -> ~ in_log (start l) b) ->
  entries (load_hdr d l) 0 (wrap32 <$> hdr_list d).
Proof.
  intros H0 H1 Hn Hout. unfold entries. rewrite length_fmap. unfold hdr_list at 1. rewrite length_fmap, length_seqZ.
  splits; try (done || lia). intros i b Hi. split.
  - rewrite list_lookup_fmap in Hi. apply fmap_Some in Hi as (x & Hi & ->). f_equal.
    unfold lh_at. cbn [lh_block load_hdr set_lh_block]. replace (Z.to_nat (0 + Z.of_nat i)) with i by lia.
    rewrite lookup_app_l by (by eapply lookup_lt_Some). by rewrite Hi.
  - apply Hout. by eapply list_elem_of_lookup_2.
Qed.

Lemma wp_recover s a (Q : unit -> lst St -> Prop) :
  let st := start (lg s) in
  rep s a -> held a = ∅ -> refs a = ∅ -> ldev (lg s) = dev -> 0 <= st -> st + LOGSIZE + 1 < 2^32 ->
  length (lh_block (lg s)) = Z.to_nat LOGSIZE -> valid_hdr st (cv a) ->
  (forall c, rep (Lst (set_lh_n 0 (load_hdr (cv a st) (lg s))) c)
       (a_writes (recover_writes st (cv a)) (drop_refs (home st (cv a)) ∅) a) ->
     Q tt (Lst (set_lh_n 0 (load_hdr (cv a st) (lg s))) c)) ->
  wp recover_from_log Q s.
Proof.
  intros st Hrep Hheld Hrefs Hdev Hst Hmax Hlen (Hn & Hnd & Hout) HQ. unfold recover_from_log.
  assert (wrap32 st = st) as Hw by (apply wrap32_small; unfold LOGSIZE, MAXOPBLOCKS in *; lia).
  pose proof (in_log_start st) as Hin.
  set (d := cv a st) in *. set (bs := home st (cv a)) in *.
  assert (Z.of_nat (length bs) = hdr_n d) as Hbs by (apply length_home; fold d; lia).
  pose proof (load_hdr_entries (lg s) d Hst Hmax Hn Hout) as He. fold bs in He.
  assert (Hroom : loop_room ∅ bs).
  { unfold loop_room. rewrite dom_empty_L, size_empty.
    enough (n_unref ∅ bs <= length bs)%nat by (change LOGSIZE with 30 in *; unfold NBUF; lia).
    clear. induction bs; simpl; [done|]. case_decide; lia. }
  apply wp_bind. apply (wp_read_head s a st); [done|done|done|done|by rewrite Hrefs|rewrite Hrefs, dom_empty_L, size_empty; unfold NBUF; lia|fold d; lia|done|].
  fold d. intros c1 H1. set (l1 := load_hdr d (lg s)) in *. set (s1 := Lst l1 c1) in *.
  assert (log_unref (lg s1) a) as Hun by (intros b _; by rewrite Hrefs).
  apply wp_bind. unfold install_trans. apply wp_bind, wp_gets.
  change (lh_n (lg s1)) with (hdr_n d). rewrite <- Hbs.
  apply (wp_install_loop bs s1 a 0); [done|done|done|done|done|done| |by rewrite Hrefs|].
  { intros b Hb. rewrite getref_none by (by rewrite Hrefs). lia. }
  rewrite Hrefs. change (start (lg s1)) with st. intros c2 H2. set (a2 := a_writes (installs st (cv a) 0 bs) (drop_refs bs ∅) a) in *.
  apply wp_bind, wp_modify. apply (wp_write_head _ a2 st); [done|done|done|done| | |].
  { simpl. rewrite drop_refs_other; [done|]. intros Hb. by apply Hout in Hb. }
  { simpl. pose proof (drop_refs_size bs ∅ Hnd) as Hs. unfold loop_room in Hroom. lia. }
  intros c3 H3. apply HQ. revert H3. unfold rep. cbn [cch set_cch].
  match goal with |- cache_rep _ ?x -> cache_rep _ ?y => replace x with y; [done|] end.
  rewrite a_put_writes. unfold a2 at 3. rewrite a_writes_app. f_equal. unfold recover_writes. fold bs. f_equal.
  do 2 f_equal. cbn [lg set_lg lh_n set_lh_n Z.to_nat put_entries]. f_equal. unfold a2. cbn [cv a_writes].
  simpl. f_equal. symmetry. apply apply_notin. intros (w & E & Hw2)%list_elem_of_fmap.
  assert (forall k bs', w ∈ installs st (cv a) k bs' -> w.1 ∈ bs') as Hkey.
  { clear. intros k bs'. revert k. induction bs' as [|x bs' IH]; intros k H; simpl in *; [by apply not_elem_of_nil in H|].
    apply elem_of_cons in H as [->|H]; [by left|]. right. by eapply IH. }
  apply Hkey in Hw2. rewrite <- E in Hw2. by apply Hout in Hw2.
Qed.
End logproof.
