(* ===== verification/LogCrash.v ===== *)
(** * Crash safety of the log

    A crash leaves the disk after some prefix of the writes issued so far (the
    log waits for each write).  [recovers] is what booting does with such a
    disk: recovery runs, possibly crashing itself any number of times, until
    one run completes.  Whatever the crash point of a commit, the recovered
    disk holds all of the transaction or none of it. *)

From S2P Require Import Prelude Spinlock Block BlockCache Log LogProof.

(** ** Reading back a header *)

Lemma wrap32_s32 x : wrap32 (s32 x) = wrap32 x.
Proof.
  unfold wrap32, s32, signed. change (2 ^ (32 - 1)) with (2^31). rewrite Zminus_mod_idemp_l.
  f_equal. lia.
Qed.

Lemma length_put_entries l k : forall i d, length (put_entries k i l d) = length d.
Proof. induction k as [|k IH]; intros i d; simpl; [done|]. rewrite IH. apply length_putn. Qed.

Lemma put_entries_other l o k : forall i d,
  0 <= i -> 0 <= o -> o + 4 <= 4 + 4 * i \/ 4 + 4 * (i + Z.of_nat k) <= o ->
  get32 (put_entries k i l d) o = get32 d o.
Proof.
  induction k as [|k IH]; intros i d Hi Ho Hd; cbn [put_entries]; [done|].
  rewrite IH by lia. apply get32_put32_ne; lia.
Qed.

Lemma put_entries_get l j k : forall i d,
  0 <= i <= j -> j < i + Z.of_nat k -> 8 + 4 * j <= Z.of_nat (length d) ->
  get32 (put_entries k i l d) (4 + 4 * j) = wrap32 (lh_at l j).
Proof.
  induction k as [|k IH]; intros i d Hi Hj Hd; cbn [put_entries]; [lia|].
  destruct (decide (i = j)) as [->|].
  - rewrite put_entries_other by lia. apply get32_put32_eq; lia.
  - apply IH; [lia|lia|]. unfold put32. rewrite length_putn. lia.
Qed.

Lemma hdr_n_put d n : length d = Z.to_nat BSIZE -> -2^31 <= n < 2^31 -> hdr_n (put32 d 0 n) = n.
Proof.
  intros Hd Hn. unfold hdr_n. rewrite get32_put32_eq by (unfold BSIZE in *; lia).
  unfold s32, signed, wrap32. rewrite Zplus_mod_idemp_l. change (2 ^ (32 - 1)) with (2^31).
  rewrite Z.mod_small; lia.
Qed.

Lemma head_blk_n l d :
  length d = Z.to_nat BSIZE -> 0 <= lh_n l <= LOGSIZE -> hdr_n (head_blk l d) = lh_n l.
Proof.
  intros Hd Hn. unfold head_blk, hdr_n. rewrite put_entries_other by lia.
  apply hdr_n_put; [done|]. unfold LOGSIZE, MAXOPBLOCKS in *. lia.
Qed.

Lemma home_head l d bs f st :
  length d = Z.to_nat BSIZE -> entries l 0 bs -> lh_n l = Z.of_nat (length bs) ->
  f st = head_blk l d -> home st f = bs.
Proof.
  intros Hd (_ & Hlen & _ & _ & He) Hn Hf. unfold home, hdr_list. rewrite Hf, head_blk_n by (done || lia).
  apply list_eq. intros i. rewrite <- list_fmap_compose, list_lookup_fmap, Hn.
  destruct (bs !! i) as [b|] eqn:Ei.
  - pose proof (lookup_lt_Some _ _ _ Ei). rewrite lookup_seqZ_lt by lia. simpl. f_equal.
    destruct (He i b Ei) as [Hb _]. rewrite <- Hb. unfold hdr_block. rewrite wrap32_s32.
    unfold head_blk. rewrite put_entries_get.
    + unfold wrap32. by rewrite Zmod_mod.
    + lia.
    + lia.
    + unfold put32. rewrite length_putn. unfold LOGSIZE, MAXOPBLOCKS, BSIZE in *. lia.
  - apply lookup_ge_None in Ei. rewrite lookup_seqZ_ge by lia. done.
Qed.

(** ** What recovery makes of a disk *)

Definition recovered (st : Z) (f : Z -> blk) : Z -> blk := apply_writes (recover_writes st f) f.

Lemma installs_keys st f bs : forall k b, b ∈ (installs st f k bs).*1 -> b ∈ bs.
Proof.
  induction bs as [|x bs IH]; intros k b H; cbn [installs fmap list_fmap fst] in *; [done|].
  apply elem_of_cons in H as [->|H%IH]; [by left|by right].
Qed.

Lemma apply_installs st f bs : forall k g i b,
  NoDup bs -> bs !! i = Some b -> apply_writes (installs st f k bs) g b = f (st + k + Z.of_nat i + 1).
Proof.
  induction bs as [|x bs IH]; intros k g i b Hnd Hi; [done|]. apply NoDup_cons in Hnd as [Hx Hnd].
  cbn [installs apply_writes]. destruct i as [|i]; simpl in Hi.
  - injection Hi as ->. rewrite apply_notin by (by intros H%installs_keys).
    rewrite fn_lookup_insert. f_equal. lia.
  - rewrite (IH (k + 1) _ i b) by done. f_equal. lia.
Qed.

Lemma recovered_home st f i b :
  valid_hdr st f -> home st f !! i = Some b -> recovered st f b = f (st + Z.of_nat i + 1).
Proof.
  intros (_ & Hnd & Hout) Hi. unfold recovered, recover_writes. rewrite apply_writes_app. simpl.
  rewrite fn_lookup_insert_ne.
  - rewrite (apply_installs st f _ 0 _ i b) by done. f_equal. lia.
  - intros <-. apply (Hout st); [by eapply list_elem_of_lookup_2|]. apply in_log_start.
Qed.

Lemma recovered_other st f b : b ∉ home st f -> ~ in_log st b -> recovered st f b = f b.
Proof.
  intros Hb Hl. unfold recovered, recover_writes. rewrite apply_writes_app. simpl.
  rewrite fn_lookup_insert_ne.
  - apply apply_notin. by intros H%installs_keys.
  - intros <-. apply Hl, in_log_start.
Qed.

(** An empty log. *)
Lemma home_empty st f : hdr_n (f st) <= 0 -> home st f = [].
Proof. intros H. unfold home, hdr_list. by rewrite seqZ_nil. Qed.

Lemma valid_empty st f : hdr_n (f st) = 0 -> valid_hdr st f.
Proof.
  intros H. unfold valid_hdr. rewrite home_empty by lia. rewrite H.
  unfold LOGSIZE, MAXOPBLOCKS. splits; try lia; [constructor|]. intros b Hb. by apply not_elem_of_nil in Hb.
Qed.

(** Two disks with the same log and the same blocks outside, except home
    blocks, recover alike. *)
Lemma recovered_ext st f g :
  valid_hdr st f -> (forall b, in_log st b -> g b = f b) ->
  (forall b, ~ in_log st b -> b ∉ home st f -> g b = f b) ->
  valid_hdr st g /\ forall b, ~ in_log st b -> recovered st g b = recovered st f b.
Proof.
  intros Hv Hlog Hother.
  pose proof (in_log_start st) as Hst.
  assert (home st g = home st f) as Hh by (unfold home; by rewrite Hlog).
  assert (valid_hdr st g) as Hv'.
  { destruct Hv as (Hn & Hnd & Hout). unfold valid_hdr. rewrite Hh, Hlog by done. done. }
  split; [done|]. intros b Hb. destruct (decide (b ∈ home st f)) as [[i Hi]%list_elem_of_lookup|Hn].
  - rewrite (recovered_home st f i), (recovered_home st g i) by (done || by rewrite Hh).
    apply Hlog. apply lookup_lt_Some in Hi. destruct Hv as (Hn & _).
    pose proof (length_home st f ltac:(lia)). unfold in_log. lia.
  - rewrite !recovered_other by (done || by rewrite Hh). by apply Hother.
Qed.

(** A prefix of a list of writes that all hit the blocks [P]. *)
Lemma prefix_keys (ws w1 w2 : writes) (P : Z -> Prop) :
  ws = w1 ++ w2 -> (forall b, b ∈ ws.*1 -> P b) -> forall b, ~ P b -> b ∉ w1.*1.
Proof.
  intros -> H b Hb Hin. apply Hb, H. rewrite fmap_app, elem_of_app. by left.
Qed.

(** ** Recovery can be interrupted *)

Lemma recover_prefix st f w1 w2 :
  valid_hdr st f -> length (f st) = Z.to_nat BSIZE -> recover_writes st f = w1 ++ w2 ->
  valid_hdr st (apply_writes w1 f) /\ length (apply_writes w1 f st) = Z.to_nat BSIZE /\
  forall b, ~ in_log st b -> recovered st (apply_writes w1 f) b = recovered st f b.
Proof.
  intros Hv Hlen Hw. pose proof Hv as (Hn & Hnd & Hout).
  pose proof (in_log_start st) as Hst.
  destruct (decide (w2 = [])) as [->|Hne].
  - rewrite app_nil_r in Hw. subst w1.
    assert (apply_writes (recover_writes st f) f st = put32 (f st) 0 0) as E.
    { unfold recover_writes. rewrite apply_writes_app. simpl. rewrite fn_lookup_insert. done. }
    assert (hdr_n (apply_writes (recover_writes st f) f st) = 0) as Hz by (rewrite E; by apply hdr_n_put).
    split; [by apply valid_empty|]. split; [rewrite E; by unfold put32; rewrite length_putn|].
    intros b Hb. rewrite recovered_other; [done| |done]. rewrite home_empty by lia. apply not_elem_of_nil.
  - destruct (exists_last Hne) as (w2' & x & ->). unfold recover_writes in Hw.
    rewrite (assoc_L (++)) in Hw. apply app_inj_tail in Hw as [Hw _].
    assert (forall b, b ∉ home st f -> apply_writes w1 f b = f b) as Hsame.
    { intros b Hb. apply apply_notin. eapply (prefix_keys _ w1 w2' (fun b => b ∈ home st f)); eauto.
      intros c Hc. by eapply installs_keys. }
    assert (st ∉ home st f) as Hsth by (intros H; by apply Hout in H).
    destruct (recovered_ext st f (apply_writes w1 f)) as [Hv' Hr]; [done| |by intros; apply Hsame|].
    + intros b Hb. apply Hsame. intros H. by apply Hout in H.
    + split; [done|]. split; [by rewrite Hsame|done].
Qed.

(** Booting from the disk [f]: recovery runs until it is not interrupted. *)
Inductive recovers (st : Z) : (Z -> blk) -> (Z -> blk) -> Prop :=
| recovers_done f : recovers st f (apply_writes (recover_writes st f) f)
| recovers_crash f w1 w2 f' :
    recover_writes st f = w1 ++ w2 -> recovers st (apply_writes w1 f) f' -> recovers st f f'.

Lemma recovers_recovered st f f' :
  recovers st f f' -> valid_hdr st f -> length (f st) = Z.to_nat BSIZE ->
  forall b, ~ in_log st b -> f' b = recovered st f b.
Proof.
  induction 1 as [f|f w1 w2 f' Hw Hr IH]; intros Hv Hlen b Hb; [done|].
  destruct (recover_prefix st f w1 w2 Hv Hlen Hw) as (Hv' & Hlen' & He). rewrite IH by done. by apply He.
Qed.

(** ** Crashing during a commit *)

Section commit.
Context (l : log_t) (f g : Z -> blk) (bs : list Z).
Context (He : entries l 0 bs) (Hn : lh_n l = Z.of_nat (length bs)) (Hlt : lh_n l < LOGSIZE).
Context (Hnd : NoDup bs) (Hlen : length (f (start l)) = Z.to_nat BSIZE).
Context (Hhdr : g (start l) = f (start l)) (Hclean : hdr_n (g (start l)) = 0).
Context (Hsame : forall b, ~ in_log (start l) b -> b ∉ bs -> f b = g b).

Abbreviation st := (start l).
Let h := head_blk l (f st).
Let copies := log_copies st f 0 bs.
Let news : writes := (fun b => (b, f b)) <$> bs.

Lemma commit_writes_eq : commit_writes l f bs = copies ++ [(st, h)] ++ news ++ [(st, put32 h 0 0)].
Proof. done. Qed.

Lemma copies_key b : b ∈ copies.*1 -> in_log st b /\ b <> st.
Proof using Type*.
  intros H%log_copies_keys. destruct He as (_ & ? & _). unfold in_log. lia.
Qed.

(** Before the header is written. *)
Lemma crash_before w1 w2 : copies = w1 ++ w2 ->
  hdr_n (apply_writes w1 g st) = 0 /\ (forall b, ~ in_log st b -> apply_writes w1 g b = g b).
Proof using Type*.
  intros Hw. split.
  - rewrite apply_notin; [done|]. eapply (prefix_keys _ w1 w2 (fun b => b <> st) Hw); [|lia].
    intros b Hb. by apply copies_key.
  - intros b Hb. apply apply_notin. eapply (prefix_keys _ w1 w2 (in_log st) Hw); [|done].
    intros c Hc. by apply copies_key.
Qed.

Lemma news_key b : b ∈ news.*1 -> b ∈ bs.
Proof. unfold news. rewrite <- list_fmap_compose. by intros (x & -> & Hx)%list_elem_of_fmap. Qed.

(** The disk right after the header was written. *)
Let mid := apply_writes (copies ++ [(st, h)]) g.

Lemma mid_st : mid st = h.
Proof. unfold mid. rewrite apply_writes_app. simpl. apply fn_lookup_insert. Qed.

Lemma mid_valid : valid_hdr st mid /\ home st mid = bs.
Proof using Type*.
  assert (home st mid = bs) as Hh by (eapply home_head; eauto using mid_st).
  split; [|done]. unfold valid_hdr. rewrite Hh, mid_st. unfold h. rewrite head_blk_n by (done || lia).
  split; [lia|]. split; [done|]. intros b Hb. by apply (entries_out l 0 bs).
Qed.

Lemma mid_recovered b : ~ in_log st b -> recovered st mid b = f b.
Proof using Type*.
  intros Hb. destruct mid_valid as [Hv Hh].
  destruct (decide (b ∈ bs)) as [[i Hi]%list_elem_of_lookup|Hnb].
  - rewrite (recovered_home st mid i b) by (done || by rewrite Hh). unfold mid.
    rewrite apply_writes_app. simpl. rewrite fn_lookup_insert_ne by lia.
    replace (st + Z.of_nat i + 1) with (st + 0 + Z.of_nat i + 1) by lia. by apply apply_copies.
  - rewrite recovered_other by (done || by rewrite Hh). unfold mid. rewrite apply_writes_app. simpl.
    rewrite fn_lookup_insert_ne by (intros <-; apply Hb, in_log_start). rewrite apply_notin; [by rewrite Hsame|].
    by intros [? _]%copies_key.
Qed.

(** From the header write on. *)
Lemma crash_after w1 w2 : news ++ [(st, put32 h 0 0)] = w1 ++ w2 ->
  valid_hdr st (apply_writes w1 mid) /\ length (apply_writes w1 mid st) = Z.to_nat BSIZE /\
  forall b, ~ in_log st b -> recovered st (apply_writes w1 mid) b = f b.
Proof using Type*.
  intros Hw. destruct mid_valid as [Hv Hh].
  assert (length h = Z.to_nat BSIZE) as Hh'.
  { unfold h, head_blk. rewrite length_put_entries. unfold put32. by rewrite length_putn. }
  destruct (decide (w2 = [])) as [->|Hne].
  - rewrite app_nil_r in Hw. subst w1.
    assert (apply_writes (news ++ [(st, put32 h 0 0)]) mid st = put32 h 0 0) as E.
    { rewrite apply_writes_app. simpl. apply fn_lookup_insert. }
    assert (hdr_n (apply_writes (news ++ [(st, put32 h 0 0)]) mid st) = 0) as Hz by (rewrite E; by apply hdr_n_put).
    split; [by apply valid_empty|]. split; [rewrite E; unfold put32; by rewrite length_putn|].
    intros b Hb. rewrite recovered_other by (done || rewrite home_empty by lia; apply not_elem_of_nil).
    rewrite apply_writes_app. simpl. rewrite fn_lookup_insert_ne by (intros <-; apply Hb, in_log_start).
    rewrite <- (mid_recovered b) by done.
    destruct (decide (b ∈ bs)) as [[i Hi]%list_elem_of_lookup|Hnb].
    + rewrite mid_recovered by done. unfold news.
      rewrite <- (installs_copied st f (fun x => f (default 0 (bs !! Z.to_nat (x - st - 1)))) bs 0).
      * rewrite (apply_installs st _ bs 0 _ i b) by done. replace (Z.to_nat (st + 0 + Z.of_nat i + 1 - st - 1)) with i by lia.
        by rewrite Hi.
      * intros j x Hj. replace (Z.to_nat (st + 0 + Z.of_nat j + 1 - st - 1)) with j by lia. by rewrite Hj.
    + rewrite recovered_other by (done || by rewrite Hh). apply apply_notin. by intros H%news_key.
  - destruct (exists_last Hne) as (w2' & x & ->). rewrite (assoc_L (++)) in Hw. apply app_inj_tail in Hw as [Hw _].
    assert (forall b, b ∉ bs -> apply_writes w1 mid b = mid b) as Hk.
    { intros b Hb. apply apply_notin. eapply (prefix_keys _ w1 w2' (fun b => b ∈ bs)); eauto using news_key. }
    assert (forall b, in_log st b -> b ∉ bs) as Hlog by (intros b Hb Hin; by apply (entries_out l 0 bs b He)).
    destruct (recovered_ext st mid (apply_writes w1 mid)) as [Hv' Hr]; [done|by intros; apply Hk, Hlog| |].
    + intros b _ Hb. apply Hk. by rewrite <- Hh.
    + split; [done|]. split; [rewrite Hk by (apply Hlog, in_log_start); by rewrite mid_st|].
      intros b Hb. rewrite Hr by done. by apply mid_recovered.
Qed.

Lemma app_split {A} (x y a b : list A) :
  x ++ y = a ++ b -> (exists c, x = a ++ c) \/ (exists c, a = x ++ c /\ y = c ++ b).
Proof. intros H. apply app_eq_inv in H as [(k & -> & ->)|(k & -> & ->)]; eauto. Qed.

Lemma commit_crash w1 w2 f' :
  commit_writes l f bs = w1 ++ w2 -> recovers st (apply_writes w1 g) f' ->
  (forall b, ~ in_log st b -> f' b = g b) \/ (forall b, ~ in_log st b -> f' b = f b).
Proof using Type*.
  intros Hw Hr. rewrite commit_writes_eq in Hw. rewrite (assoc_L (++)) in Hw.
  destruct (app_split _ _ _ _ Hw) as [[c Hc]|(c & -> & Hc)].
  - destruct (app_split _ _ _ _ Hc) as [[c' Hc']|(c' & -> & Hc')].
    + left. destruct (crash_before w1 c' Hc') as [Hz Hg].
      intros b Hb. rewrite (recovers_recovered st _ f' Hr (valid_empty _ _ Hz)); [| |done].
      * rewrite recovered_other, Hg by (done || rewrite home_empty by lia; apply not_elem_of_nil). done.
      * rewrite apply_notin; [by rewrite Hhdr|]. eapply (prefix_keys _ w1 c' (fun b => b <> st) Hc'); [|lia].
        intros x Hx. by apply copies_key.
    + destruct c' as [|x c']; simpl in Hc'.
      * rewrite app_nil_r in Hr. left. destruct (crash_before copies [] ltac:(by rewrite app_nil_r)) as [Hz Hg].
        intros b Hb. rewrite (recovers_recovered st _ f' Hr (valid_empty _ _ Hz)); [| |done].
        -- rewrite recovered_other, Hg by (done || rewrite home_empty by lia; apply not_elem_of_nil). done.
        -- rewrite apply_notin; [by rewrite Hhdr|]. by intros [_ ?]%copies_key.
      * injection Hc' as <- Hnil. symmetry in Hnil. apply app_eq_nil in Hnil as [-> ->]. right. fold mid in Hr.
        destruct (crash_after [] _ eq_refl) as (Hv & Hl & Hrec). simpl in *.
        intros b Hb. rewrite (recovers_recovered st mid f' Hr) by done. by apply Hrec.
  - right. rewrite apply_writes_app in Hr. fold mid in Hr.
    destruct (crash_after c w2 Hc) as (Hv & Hl & Hrec).
    intros b Hb. rewrite (recovers_recovered st _ f' Hr) by done. by apply Hrec.
Qed.

Lemma commit_final b : ~ in_log st b -> apply_writes (commit_writes l f bs) g b = f b.
Proof using Type*.
  intros Hb. rewrite commit_writes_eq, (assoc_L (++)), apply_writes_app. fold mid.
  destruct (crash_after _ [] ltac:(by rewrite app_nil_r)) as (_ & _ & Hrec).
  rewrite <- (Hrec b) by done. rewrite recovered_other; [done| |done].
  rewrite home_empty; [apply not_elem_of_nil|]. rewrite apply_writes_app. simpl. rewrite fn_lookup_insert.
  rewrite hdr_n_put; [done| |lia]. unfold h, head_blk. rewrite length_put_entries. unfold put32. by rewrite length_putn.
Qed.
End commit.

(** Recovery depends only on the contents of the disk. *)
Lemma recover_writes_ext st f g : (forall b, f b = g b) -> recover_writes st f = recover_writes st g.
Proof.
  intros H. unfold recover_writes, home. rewrite H. f_equal. apply installs_ext. intros i _. apply H.
Qed.
