(* ===== verification/LogTheorems.v ===== *)
(** * What the log promises

    Theorems on kernel/log.c against the block-cache interface, and their
    evaluation on the buffer cache of kernel/bio.c. *)

From S2P Require Import Prelude Spinlock Sleeplock Block BlockCache Bio BioList BioProof Log LogProof LogCrash.

Section logops.
Context {dev : Z} {St : Type} `{!BlockCache dev St}.

(** The header in memory lists the distinct home blocks [bs]. *)
Definition log_inv (s : lst St) (a : acache) (bs : list Z) : Prop :=
  rep s a /\ ldev (lg s) = dev /\ log_lock (lg s) = spin_free /\ entries (lg s) 0 bs /\
  lh_n (lg s) = Z.of_nat (length bs) /\ length (lh_block (lg s)) = Z.to_nat LOGSIZE /\ NoDup bs.

Lemma log_find_spec l b k : forall i bs,
  (forall j x, bs !! j = Some x -> wrap32 (lh_at l (i + Z.of_nat j)) = x) -> length bs = k ->
  exists j, log_find k i l b = i + Z.of_nat j /\
    ((j < k)%nat /\ bs !! j = Some b \/ j = k /\ b ∉ bs).
Proof.
  induction k as [|k IH]; intros i bs He Hlen.
  - destruct bs; [|done]. exists 0%nat. simpl. split; [lia|]. right. split; [done|apply not_elem_of_nil].
  - destruct bs as [|x bs]; [done|]. simpl in Hlen. cbn [log_find].
    pose proof (He 0%nat x eq_refl) as Hx. rewrite Z.add_0_r in Hx. rewrite Hx.
    destruct (x =? b) eqn:E; b2p.
    + exists 0%nat. split; [lia|]. left. split; [lia|]. by subst.
    + destruct (IH (i + 1) bs) as (j & Hj & Hc); [|lia|].
      { intros j y Hj. replace (i + 1 + Z.of_nat j) with (i + Z.of_nat (S j)) by lia. by apply He. }
      exists (S j). split; [lia|]. destruct Hc as [[Hlt Hjb]|[-> Hnb]]; [left|right].
      * split; [lia|done].
      * split; [done|]. rewrite not_elem_of_cons. split; [congruence|done].
Qed.

Lemma entries_insert l bs b j :
  entries l 0 bs -> 0 <= b < 2^32 -> ~ in_log (start l) b -> (j <= length bs)%nat ->
  Z.of_nat (length bs) < LOGSIZE - 1 -> length (lh_block l) = Z.to_nat LOGSIZE ->
  (j < length bs)%nat /\ bs !! j = Some b \/ j = length bs ->
  entries (set_lh_block (<[j := s32 b]> (lh_block l)) l) 0 (if decide (j = length bs) then bs ++ [b] else bs).
Proof.
  intros (H0 & Hlen & Hst & Hmax & He) Hb Hout Hj Hlt Hblk Hc.
  assert (forall i x, bs !! i = Some x -> i <> j -> wrap32 (lh_at (set_lh_block (<[j := s32 b]> (lh_block l)) l) (0 + Z.of_nat i)) = x) as Hother.
  { intros i x Hi Hne. unfold lh_at. cbn [lh_block set_lh_block]. replace (Z.to_nat (0 + Z.of_nat i)) with i by lia.
    rewrite list_lookup_insert_ne by done. destruct (He i x Hi) as [E _]. rewrite <- E. unfold lh_at.
    by replace (Z.to_nat (0 + Z.of_nat i)) with i by lia. }
  assert (wrap32 (lh_at (set_lh_block (<[j := s32 b]> (lh_block l)) l) (0 + Z.of_nat j)) = b) as Hself.
  { unfold lh_at. cbn [lh_block set_lh_block]. replace (Z.to_nat (0 + Z.of_nat j)) with j by lia.
    rewrite list_lookup_insert_eq by (unfold LOGSIZE, MAXOPBLOCKS in *; lia). simpl.
    rewrite wrap32_s32. by apply wrap32_small. }
  case_decide as Hd.
  - unfold entries. rewrite length_app. cbn [length start set_lh_block]. splits; try lia.
    intros i x Hi. apply lookup_app_Some in Hi as [Hi|[Hge Hi]].
    + pose proof (lookup_lt_Some _ _ _ Hi). split; [apply Hother; [done|lia]|by apply (He i x)].
    + apply list_lookup_singleton_Some in Hi as [Hi0 <-]. replace i with j by lia. done.
  - destruct Hc as [[_ Hjb]|?]; [|done]. unfold entries. cbn [start set_lh_block]. splits; try lia.
    intros i x Hi. destruct (decide (i = j)) as [->|Hij].
    + rewrite Hjb in Hi. injection Hi as <-. done.
    + split; [by apply Hother|by apply (He i x)].
Qed.

(** Everything but the header is the same. *)
Definition log_same (l l' : log_t) : Prop :=
  start l' = start l /\ size_ l' = size_ l /\ outstanding l' = outstanding l /\ committing l' = committing l.

Lemma wp_log_write s a bs i b (Q : unit -> lst St -> Prop) :
  log_inv s a bs -> held a !! i = Some b -> 0 <= b < 2^32 -> ~ in_log (start (lg s)) b ->
  size_ (lg s) <= LOGSIZE -> lh_n (lg s) < size_ (lg s) - 1 -> 1 <= outstanding (lg s) -> getref a b + 1 < 2^32 ->
  (forall s', log_same (lg s) (lg s') ->
     (if decide (b ∈ bs) then log_inv s' a bs
      else log_inv s' (a_ref b (getref a b + 1) a) (bs ++ [b])) -> Q tt s') ->
  wp (log_write i) Q s.
Proof.
  intros (Hrep & Hdev & Hlk & He & Hn & Hblk & Hnd) Hh Hb Hout Hlt Hsz Ho Hr HQ. unfold log_write.
  apply wp_bind, wp_gets. replace (LOGSIZE <=? _) with false by (bool_goal; lia).
  replace (_ - 1 <=? _) with false by (bool_goal; lia). cbn [orb].
  replace (_ <? 1) with false by (bool_goal; lia).
  apply wp_bind. unfold log_acquire. apply wp_spin_acquire; [done|]. cbn [lg set_lg cch].
  apply wp_bind, wp_on_cache. cbn [cch set_lg]. eapply (bblockno_law (cch s) a i b); [exact Hrep|done|].
  destruct (log_find_spec (lg s) b (Z.to_nat (lh_n (lg s))) 0 bs) as (j & Hj & Hc).
  { intros k x Hk. by apply He. } { lia. }
  rewrite Hj. apply wp_bind, wp_modify. cbn [lg set_lg set_cch]. rewrite Z.add_0_l, Nat2Z.id, Hn.
  replace (Z.to_nat (lh_n (lg s))) with (length bs) in Hc by lia.
  assert (entries (set_lh_block (<[j := s32 b]> (lh_block (lg s))) (lg s)) 0 (if decide (j = length bs) then bs ++ [b] else bs)) as He'.
  { apply entries_insert; try done; [destruct Hc as [[? _]|[-> _]]; lia|lia|tauto]. }
  apply wp_bind. destruct Hc as [[Hjl Hjb]|[-> Hnb]].
  - replace (_ =? _) with false by (bool_goal; lia). apply wp_ret.
    apply wp_spin_release; [done|]. apply HQ; [done|]. rewrite decide_True by (by eapply list_elem_of_lookup_2).
    rewrite decide_False in He' by lia. unfold log_inv. cbn. rewrite length_insert. done.
  - rewrite Z.eqb_refl. apply wp_bind, wp_on_cache. cbn [cch set_lg set_cch].
    eapply (bpin_law (cch s) a i b); [exact Hrep|done|done|]. intros c Hc. apply wp_modify.
    apply wp_spin_release; [done|]. apply HQ; [done|]. rewrite decide_False by done. rewrite decide_True in He' by done.
    unfold log_inv. cbn. rewrite length_insert, length_app. simpl. splits; try done.
    + lia.
    + apply NoDup_app. split; [done|split; [|apply NoDup_singleton]]. intros x Hx ->%list_elem_of_singleton. done.
Qed.

(** [log_write] records a modified block once: a block already in the
    transaction is absorbed, a new one is appended to the header and pinned in
    the cache so that it cannot be evicted before the commit. *)
Theorem log_write_correct s a bs i b :
  log_inv s a bs -> held a !! i = Some b -> 0 <= b < 2^32 -> ~ in_log (start (lg s)) b ->
  size_ (lg s) <= LOGSIZE -> lh_n (lg s) < size_ (lg s) - 1 -> 1 <= outstanding (lg s) -> getref a b + 1 < 2^32 ->
  exists s', log_write i s = Ok tt s' /\ log_same (lg s) (lg s') /\
    (if decide (b ∈ bs) then log_inv s' a bs
     else log_inv s' (a_ref b (getref a b + 1) a) (bs ++ [b])).
Proof.
  intros H1 H2 H3 H4 H5 H6 H7 H8.
  assert (wp (log_write i) (fun _ s' => log_same (lg s) (lg s') /\ if decide (b ∈ bs) then log_inv s' a bs
     else log_inv s' (a_ref b (getref a b + 1) a) (bs ++ [b])) s) as Hw by (by eapply wp_log_write).
  apply wp_iff in Hw as ([] & s' & Hrun & Hpost). eauto.
Qed.

(** C1. Crash atomicity of the log.  A commit returns with the logged contents
    in place.  If the machine crashes after any prefix of its disk writes, then
    after reboot, with recovery itself interrupted any number of times, every
    block outside the log area holds its contents from before the transaction,
    or every one holds its contents from after it. *)
Theorem log_crash_safe s a bs :
  let st := start (lg s) in
  commit_pre s a bs -> bs <> [] -> lh_n (lg s) < LOGSIZE ->
  length (cv a st) = Z.to_nat BSIZE -> hdr_n (dk a st) = 0 ->
  (forall b, ~ in_log st b -> b ∉ bs -> cv a b = dk a b) ->
  exists s' a' ws, commit s = Ok tt s' /\ rep s' a' /\ lh_n (lg s') = 0 /\
    tr a' = tr a ++ ws /\ dk a' = apply_writes ws (dk a) /\
    (forall b, ~ in_log st b -> dk a' b = cv a b) /\
    forall w1 w2 f, ws = w1 ++ w2 -> recovers st (apply_writes w1 (dk a)) f ->
      (forall b, ~ in_log st b -> f b = dk a b) \/ (forall b, ~ in_log st b -> f b = cv a b).
Proof.
  intros st Hpre Hne Hlt Hlen Hhdr Hsame.
  assert (wp commit (fun _ s' => exists c, s' = Lst (set_lh_n 0 (lg s)) c /\
    rep s' (a_writes (commit_writes (lg s) (cv a) bs) (drop_refs bs (refs a)) a)) s) as Hw.
  { eapply wp_commit; [done|done|]. intros c Hc. eauto. }
  apply wp_iff in Hw as ([] & s' & Hrun & c & -> & Hrep).
  destruct Hpre as (Hr & _ & _ & He & Hn & Hnd & Hun & _).
  assert (dk a st = cv a st) as Hcl by (symmetry; apply (cache_clean _ _ _ Hr), Hun, in_log_start).
  eexists _, _, _. split; [exact Hrun|]. split; [exact Hrep|]. split; [done|]. split; [done|]. split; [done|]. split.
  - intros b Hb. simpl. by eapply commit_final.
  - intros w1 w2 f Hw Hrec. by eapply commit_crash.
Qed.

(** Recovery at boot.  On a disk whose header is one that a commit can
    have written, [recover_from_log] installs exactly the logged blocks, clears
    the header, and performs the disk writes assumed in the crash theorem. *)
Theorem recovery_correct s a :
  let st := start (lg s) in
  rep s a -> held a = ∅ -> refs a = ∅ -> ldev (lg s) = dev -> 0 <= st -> st + LOGSIZE + 1 < 2^32 ->
  length (lh_block (lg s)) = Z.to_nat LOGSIZE -> length (dk a st) = Z.to_nat BSIZE -> valid_hdr st (dk a) ->
  exists s' a', recover_from_log s = Ok tt s' /\ rep s' a' /\ lh_n (lg s') = 0 /\ hdr_n (dk a' st) = 0 /\
    tr a' = tr a ++ recover_writes st (dk a) /\ dk a' = apply_writes (recover_writes st (dk a)) (dk a) /\
    (forall i b, home st (dk a) !! i = Some b -> dk a' b = dk a (st + Z.of_nat i + 1)) /\
    (forall b, ~ in_log st b -> b ∉ home st (dk a) -> dk a' b = dk a b).
Proof.
  intros st Hrep Hheld Hrefs Hdev H0 Hmax Hblk Hlen Hv.
  assert (forall b, cv a b = dk a b) as Hcd by (intros b; apply (cache_clean _ _ _ Hrep); by rewrite Hrefs).
  assert (home st (cv a) = home st (dk a)) as Hhome by (unfold home; by rewrite Hcd).
  assert (wp recover_from_log (fun _ s' => exists c, s' = Lst (set_lh_n 0 (load_hdr (cv a st) (lg s))) c /\
     rep s' (a_writes (recover_writes st (cv a)) (drop_refs (home st (cv a)) ∅) a)) s) as Hw.
  { eapply wp_recover; try done; [|by eauto]. unfold valid_hdr. fold st. by rewrite Hhome, Hcd. }
  apply wp_iff in Hw as ([] & s' & Hrun & c & -> & Hr). rewrite (recover_writes_ext st _ (dk a) Hcd) in Hr.
  eexists _, _. split; [exact Hrun|]. split; [exact Hr|]. split; [done|]. simpl. splits; try done.
  - unfold recover_writes. rewrite apply_writes_app. simpl. rewrite fn_lookup_insert. by apply hdr_n_put.
  - intros i b Hi. by apply recovered_home.
  - intros b Hb Hnb. by apply recovered_other.
Qed.

Lemma drop_refs_fresh bs : forall m b, NoDup bs -> b ∈ bs -> (forall x, x ∈ bs -> m !! x = None) ->
  drop_refs bs m !! b = Some (2^32 - 1).
Proof.
  induction bs as [|x bs IH]; intros m b Hnd Hb Hm; [by apply not_elem_of_nil in Hb|].
  apply NoDup_cons in Hnd as [Hx Hnd]. cbn [drop_refs]. rewrite Hm by (by left). simpl default.
  destruct (decide (b = x)) as [->|Hne].
  - rewrite drop_refs_other by done. rewrite lookup_refset, decide_True by done. done.
  - apply elem_of_cons in Hb as [?|Hb]; [done|]. apply IH; [done|done|].
    intros y Hy. rewrite lookup_refset, decide_False by (by intros ->). apply Hm. by right.
Qed.

(** C22. Recovery leaks buffers: [install_trans] unpins each home block even
    when recovering, where nothing was pinned.  The reference count of its
    buffer wraps around to 2^32 - 1, so the buffer is never recycled. *)
Theorem recovery_leaks_buffers s a b :
  let st := start (lg s) in
  rep s a -> held a = ∅ -> refs a = ∅ -> ldev (lg s) = dev -> 0 <= st -> st + LOGSIZE + 1 < 2^32 ->
  length (lh_block (lg s)) = Z.to_nat LOGSIZE -> valid_hdr st (dk a) -> b ∈ home st (dk a) ->
  exists s' a', recover_from_log s = Ok tt s' /\ rep s' a' /\ held a' = ∅ /\ refs a' !! b = Some (2^32 - 1).
Proof.
  intros st Hrep Hheld Hrefs Hdev H0 Hmax Hblk Hv Hb.
  assert (forall b, cv a b = dk a b) as Hcd by (intros x; apply (cache_clean _ _ _ Hrep); by rewrite Hrefs).
  assert (home st (cv a) = home st (dk a)) as Hhome by (unfold home; by rewrite Hcd).
  assert (wp recover_from_log (fun _ s' => exists c, s' = Lst (set_lh_n 0 (load_hdr (cv a st) (lg s))) c /\
     rep s' (a_writes (recover_writes st (cv a)) (drop_refs (home st (cv a)) ∅) a)) s) as Hw.
  { eapply wp_recover; try done; [|by eauto]. unfold valid_hdr. fold st. by rewrite Hhome, Hcd. }
  apply wp_iff in Hw as ([] & s' & Hrun & c & -> & Hr).
  eexists _, _. split; [exact Hrun|]. split; [exact Hr|]. split; [done|]. simpl. rewrite Hhome.
  apply drop_refs_fresh; [by apply Hv|done|done].
Qed.

(** What [end_op] leaves: the log's record and the cache. *)
Definition ended (l : log_t) : log_t :=
  Log (log_lock l) (start l) (size_ l) (outstanding l - 1) (committing l) (ldev l)
    (if outstanding l =? 1 then 0 else lh_n l) (lh_block l).
Definition committed (l : log_t) (bs : list Z) (a : acache) : acache :=
  if (outstanding l =? 1) && negb (bool_decide (bs = []))
  then a_writes (commit_writes l (cv a) bs) (drop_refs bs (refs a)) a else a.

Lemma put_entries_ext l l' k : forall i d, lh_block l = lh_block l' -> put_entries k i l d = put_entries k i l' d.
Proof.
  induction k as [|k IH]; intros i d H; cbn [put_entries]; [done|].
  replace (lh_at l' i) with (lh_at l i) by (unfold lh_at; by rewrite H). by apply IH.
Qed.

Lemma commit_writes_ext l l' f bs :
  start l = start l' -> lh_n l = lh_n l' -> lh_block l = lh_block l' -> commit_writes l f bs = commit_writes l' f bs.
Proof.
  intros Hs Hn Hb. unfold commit_writes, head_blk. rewrite Hs, Hn. by rewrite (put_entries_ext l l') by done.
Qed.

Lemma wp_end_op s a bs (Q : unit -> lst St -> Prop) :
  log_lock (lg s) = spin_free -> committing (lg s) = 0 -> commit_pre s a bs ->
  (forall s', lg s' = ended (lg s) -> rep s' (committed (lg s) bs a) -> Q tt s') ->
  wp end_op Q s.
Proof.
  intros Hlk Hcm Hpre HQ. pose proof Hpre as (Hr & _ & _ & He & Hn & _). unfold end_op.
  apply wp_bind. unfold log_acquire. apply wp_spin_acquire; [done|].
  apply wp_bind, wp_modify. apply wp_bind, wp_gets. cbn [lg set_lg set_log_lock set_outstanding committing outstanding].
  rewrite Hcm. change (truth 0) with false. cbv iota.
  replace (outstanding (lg s) - 1 =? 0) with (outstanding (lg s) =? 1) by (destruct (outstanding (lg s) =? 1) eqn:E; b2p; bool_goal; lia).
  unfold committed, ended in HQ. destruct (outstanding (lg s) =? 1) eqn:E; apply wp_bind.
  2:{ apply wp_ret. apply wp_bind, wp_spin_release; [done|]. apply wp_ret. apply HQ; [|exact Hr].
      destruct s as [[] c]. simpl in *. by subst. }
  apply wp_modify, wp_bind, wp_spin_release; [done|]. apply wp_bind.
  set (s1 := set_lg _ _).
  assert (forall c a2, cache_rep c a2 -> a2 = (if true && negb (bool_decide (bs = [])) then
      a_writes (commit_writes (lg s) (cv a) bs) (drop_refs bs (refs a)) a else a) ->
     wp (log_acquire ;; mod_lg (set_committing 0) ;; log_release) Q (Lst (set_lh_n 0 (lg s1)) c)) as Hfin.
  { intros c a2 H1 ->. apply wp_bind, wp_spin_acquire; [done|]. apply wp_bind, wp_modify.
    apply wp_spin_release; [done|]. apply HQ; [|exact H1]. destruct s as [[] c']. simpl in *. by subst. }
  destruct bs as [|b0 bs].
  - unfold commit. apply wp_bind, wp_gets. change (lh_n (lg s1)) with (lh_n (lg s)). rewrite Hn.
    apply wp_ret. specialize (Hfin (cch s1) a Hr eq_refl).
    replace s1 with (Lst (set_lh_n 0 (lg s1)) (cch s1)); [exact Hfin|].
    unfold s1. clear -Hn. destruct s as [[] c']. simpl in *. by subst.
  - eapply (wp_commit s1 a (b0 :: bs)); [exact Hpre|done|]. intros c Hc. apply (Hfin c _ Hc). rewrite bool_decide_eq_false_2 by done. cbn [andb negb]. by rewrite (commit_writes_ext (lg s1) (lg s)).
Qed.

(** C2. The last [end_op] of a group commits: with one operation outstanding
    it writes the logged blocks to their home locations and leaves an empty log
    that accepts operations again; with more outstanding it only counts down. *)
Theorem end_op_correct s a bs :
  let st := start (lg s) in
  log_lock (lg s) = spin_free -> committing (lg s) = 0 -> commit_pre s a bs -> lh_n (lg s) < LOGSIZE ->
  length (cv a st) = Z.to_nat BSIZE -> hdr_n (dk a st) = 0 ->
  (forall b, ~ in_log st b -> b ∉ bs -> cv a b = dk a b) ->
  exists s' a', end_op s = Ok tt s' /\ rep s' a' /\ log_lock (lg s') = spin_free /\
    outstanding (lg s') = outstanding (lg s) - 1 /\ committing (lg s') = 0 /\
    (if outstanding (lg s) =? 1
     then lh_n (lg s') = 0 /\ forall b, ~ in_log st b -> dk a' b = cv a b
     else a' = a /\ lh_n (lg s') = lh_n (lg s)).
Proof.
  intros st Hlk Hcm Hpre Hlt Hlen Hhdr Hsame.
  assert (wp end_op (fun _ s' => lg s' = ended (lg s) /\ rep s' (committed (lg s) bs a)) s) as Hw by (by eapply wp_end_op).
  apply wp_iff in Hw as ([] & s' & Hrun & El & Hrep).
  exists s', (committed (lg s) bs a). rewrite El. splits; try done.
  pose proof Hpre as (Hr & _ & _ & He & Hn & Hnd & Hun & _).
  assert (dk a st = cv a st) as Hcl by (symmetry; apply (cache_clean _ _ _ Hr), Hun, in_log_start).
  unfold committed. simpl. destruct (outstanding (lg s) =? 1); [|done]. split; [done|].
  case_bool_decide as Hbs; cbn [andb negb]; intros b Hb.
  - symmetry. apply Hsame; [done|]. rewrite Hbs. apply not_elem_of_nil.
  - cbn [dk a_writes]. by eapply (commit_final (lg s)).
Qed.
End logops.

(** ** Evaluation on the buffer cache of kernel/bio.c *)

Lemma rootdev_nonzero : 1 <> 0.
Proof. done. Qed.

#[local] Instance ex_cache : BlockCache 1 bst := bio_cache 1 1 rootdev_nonzero.

(** The log area of [mkfs]: 30 blocks from block 2; one operation running. *)
Definition ex_log : log_t := Log spin_free 2 30 1 0 1 0 (replicate 30 0).

(** A file-system operation that replaces block [bno] by [d]. *)
Definition ex_write (bno : Z) (d : blk) : M (lst bst) unit :=
  let! b := on_cache (bread 1 bno) in
  on_cache (bset b d) ;;
  log_write b ;;
  on_cache (brelse b).

Definition ex_disk (d : gmap Z blk) : Z -> blk := fun n => default zero_blk (d !! n).

Lemma ex_boot d : exists c, cache_rep c (fresh_cache d []).
Proof. destruct (binit_rep 1 1 rootdev_nonzero d) as (c & _ & Hc). by exists c. Qed.

Lemma ex_log_inv c d : cache_rep c (fresh_cache d []) -> log_inv (Lst ex_log c) (fresh_cache d []) [].
Proof.
  intros Hc. unfold log_inv. cbn [lg cch]. splits; try done. constructor.
Qed.

(** The state after one operation on block 50. *)
Lemma ex_logged d : exists s a,
  commit_pre s a [50] /\ log_inv s a [50] /\ outstanding (lg s) = 1 /\ committing (lg s) = 0 /\
  start (lg s) = 2 /\ cv a = <[50 := d]> (ex_disk ∅) /\ dk a = ex_disk ∅.
Proof.
  destruct (ex_boot ∅) as [c Hc]. pose proof (ex_log_inv c ∅ Hc) as HI0.
  enough (wp (ex_write 50 d) (fun _ s => exists a, commit_pre s a [50] /\ log_inv s a [50] /\ outstanding (lg s) = 1 /\ committing (lg s) = 0 /\
    start (lg s) = 2 /\ cv a = <[50 := d]> (ex_disk ∅) /\ dk a = ex_disk ∅) (Lst ex_log c)) as Hw.
  { apply wp_iff in Hw as ([] & s & _ & a & H). eauto. }
  unfold ex_write. apply wp_bind, wp_on_cache. cbn [cch]. eapply (bread_law c _ 50); [exact Hc|done|done| |done|].
  { right. vm_compute. lia. }
  intros i c1 Hi H1. apply wp_bind, wp_on_cache. cbn [cch set_cch].
  eapply (bset_law c1 _ i 50); [exact H1|apply lookup_insert_eq|by eexists|].
  intros c2 H2. apply wp_bind. set (s2 := set_cch c2 _).
  assert (log_inv s2 (a_set 50 d (a_hold i 50 (fresh_cache ∅ []))) []) as HI2.
  { destruct HI0 as (_ & HI0). split; [exact H2|exact HI0]. }
  eapply (wp_log_write s2 _ [] i 50); [exact HI2|apply lookup_insert_eq|lia| |done|done|done|done|].
  { unfold in_log, LOGSIZE, MAXOPBLOCKS. simpl. lia. }
  intros s3 (E1 & E2 & E3 & E4) HI3. rewrite decide_False in HI3 by apply not_elem_of_nil. cbn [app] in HI3.
  apply wp_on_cache. pose proof HI3 as (H3 & HI3').
  eapply (brelse_law (cch s3) _ i 50); [exact H3|apply lookup_insert_eq|done|].
  intros c4 H4. set (a4 := a_release i 50 _) in *. exists a4.
  assert (held a4 = ∅) as Hh by (apply delete_insert_id; done).
  assert (refs a4 = {[ 50 := 1 ]}) as Hr by (vm_compute; done).
  destruct HI3' as (Hd & Hlk & He & Hn & Hbl & Hnd).
  splits; try done.
  - unfold commit_pre. splits; try done.
    + intros b Hb. rewrite Hr. apply lookup_singleton_ne. intros <-. unfold in_log, LOGSIZE, MAXOPBLOCKS in Hb.
      change (start (lg (set_cch c4 s3))) with (start (lg s3)) in Hb. rewrite E1 in Hb. simpl in Hb. lia.
    + intros b ->%list_elem_of_singleton. exists 1. rewrite Hr. split; [apply lookup_singleton_eq|lia].
    + rewrite Hr. vm_compute. lia.
Qed.

Definition ex_blk : blk := replicate (Z.to_nat BSIZE) 7.

Lemma log_crash_safe_witness : exists (s s' : lst bst) a a' ws,
  commit s = Ok tt s' /\ rep s' a' /\ dk a' = apply_writes ws (dk a) /\ dk a' 50 = ex_blk /\
  forall w1 w2 f, ws = w1 ++ w2 -> recovers 2 (apply_writes w1 (dk a)) f ->
    (forall b, ~ in_log 2 b -> f b = dk a b) \/ (forall b, ~ in_log 2 b -> f b = cv a b).
Proof.
  destruct (ex_logged ex_blk) as (s & a & Hpre & HI & _ & _ & Est & Ecv & Edk).
  pose proof (log_crash_safe s a [50] Hpre) as H. cbv zeta in H. rewrite Est in H.
  assert (lh_n (lg s) = 1) as Hn by (destruct HI as (_ & _ & _ & _ & -> & _); done).
  destruct H as (s' & a' & ws & Hrun & Hrep & _ & _ & Hdk & Hnew & Hcrash).
  - done.
  - rewrite Hn. done.
  - rewrite Ecv. vm_compute. reflexivity.
  - rewrite Edk. vm_compute. reflexivity.
  - intros b _ Hb. rewrite Ecv, Edk, fn_lookup_insert_ne; [done|]. intros <-. apply Hb. by left.
  - exists s, s', a, a', ws. split; [done|split; [done|split; [done|split; [|done]]]].
    rewrite Hnew by (unfold in_log, LOGSIZE, MAXOPBLOCKS; lia). rewrite Ecv. apply fn_lookup_insert.
Defined.

Lemma end_op_correct_witness : exists (s s' : lst bst) a', end_op s = Ok tt s' /\ rep s' a' /\
  outstanding (lg s') = 0 /\ lh_n (lg s') = 0 /\ dk a' 50 = ex_blk.
Proof.
  destruct (ex_logged ex_blk) as (s & a & Hpre & HI & Ho & Hc & Est & Ecv & Edk).
  pose proof (end_op_correct s a [50]) as H. cbv zeta in H. rewrite Est, Ho in H.
  assert (lh_n (lg s) = 1) as Hn by (destruct HI as (_ & _ & _ & _ & -> & _); done).
  destruct H as (s' & a' & Hrun & Hrep & _ & Ho' & _ & Hn' & Hnew).
  - apply HI.
  - done.
  - done.
  - rewrite Hn. done.
  - rewrite Ecv. vm_compute. reflexivity.
  - rewrite Edk. vm_compute. reflexivity.
  - intros b _ Hb. rewrite Ecv, Edk, fn_lookup_insert_ne; [done|]. intros <-. apply Hb. by left.
  - exists s, s', a'. splits; [done|done|done|done|].
    rewrite Hnew by (unfold in_log, LOGSIZE, MAXOPBLOCKS; lia). rewrite Ecv. apply fn_lookup_insert.
Defined.

(** A process that holds block 50 writes it to the log. *)
Lemma log_write_correct_witness : exists (s s' : lst bst) i a,
  log_write i s = Ok tt s' /\ log_same (lg s) (lg s') /\ log_inv s' a [50].
Proof.
  destruct (ex_boot ∅) as [c Hc]. pose proof (ex_log_inv c ∅ Hc) as HI0.
  assert (wp (bread 1 50) (fun i c' => cache_rep c' (a_hold i 50 (fresh_cache ∅ []))) c) as Hw.
  { eapply (bread_law c _ 50); [exact Hc|done|done| |done|done]. right. vm_compute. lia. }
  apply wp_iff in Hw as (i & c1 & _ & H1). set (s1 := Lst ex_log c1).
  assert (log_inv s1 (a_hold i 50 (fresh_cache ∅ [])) []) as HI1.
  { destruct HI0 as (_ & HI0). split; [exact H1|exact HI0]. }
  destruct (log_write_correct s1 _ [] i 50 HI1) as (s' & Hrun & Hsame & HI').
  - apply lookup_insert_eq.
  - lia.
  - unfold in_log, LOGSIZE, MAXOPBLOCKS. simpl. lia.
  - done.
  - done.
  - done.
  - done.
  - rewrite decide_False in HI' by apply not_elem_of_nil. eexists s1, s', i, _. split; [done|]. split; [done|exact HI'].
Defined.

(** A disk whose log holds one committed block, bound for block 50. *)
Definition ex_crashed : gmap Z blk := <[2 := put32 (put32 zero_blk 0 1) 4 50]> {[ 3 := ex_blk ]}.

Lemma ex_crashed_home : home 2 (ex_disk ex_crashed) = [50].
Proof. vm_compute. reflexivity. Qed.

Lemma ex_crashed_valid : valid_hdr 2 (ex_disk ex_crashed).
Proof.
  unfold valid_hdr. rewrite ex_crashed_home. split; [vm_compute; split; congruence|].
  split; [apply NoDup_singleton|]. intros b ->%list_elem_of_singleton. unfold in_log, LOGSIZE, MAXOPBLOCKS. lia.
Qed.

Lemma recovery_correct_witness : exists (s s' : lst bst) a',
  recover_from_log s = Ok tt s' /\ rep s' a' /\ hdr_n (dk a' 2) = 0 /\ dk a' 50 = ex_blk.
Proof.
  destruct (ex_boot ex_crashed) as [c Hc].
  pose proof (recovery_correct (Lst ex_log c) (fresh_cache ex_crashed [])) as H. cbv zeta in H.
  change (start (lg (Lst ex_log c))) with 2 in H.
  destruct H as (s' & a' & Hrun & Hrep & _ & Hz & _ & _ & Hhome & _).
  - exact Hc.
  - done.
  - done.
  - done.
  - lia.
  - unfold LOGSIZE, MAXOPBLOCKS. lia.
  - done.
  - vm_compute. reflexivity.
  - exact ex_crashed_valid.
  - exists (Lst ex_log c), s', a'. split; [done|split; [done|split; [done|]]].
    rewrite (Hhome 0%nat 50); [vm_compute; reflexivity|]. change (dk (fresh_cache ex_crashed [])) with (ex_disk ex_crashed). by rewrite ex_crashed_home.
Defined.

Lemma recovery_leaks_buffers_witness : exists (s s' : lst bst) a',
  recover_from_log s = Ok tt s' /\ rep s' a' /\ held a' = ∅ /\ refs a' !! 50 = Some (2^32 - 1).
Proof.
  destruct (ex_boot ex_crashed) as [c Hc].
  destruct (recovery_leaks_buffers (Lst ex_log c) (fresh_cache ex_crashed []) 50) as (s' & a' & H).
  - exact Hc.
  - done.
  - done.
  - done.
  - simpl. lia.
  - unfold LOGSIZE, MAXOPBLOCKS. simpl. lia.
  - done.
  - exact ex_crashed_valid.
  - change (home _ _) with (home 2 (ex_disk ex_crashed)). rewrite ex_crashed_home. by left.
  - by exists (Lst ex_log c), s', a'.
Defined.

(** Three operations are admitted at the same time; together they write the
    blocks [100 ..]. *)
Definition three_ops (n : nat) : M (lst bst) unit :=
  on_cache binit ;;
  begin_op ;;
  begin_op ;;
  begin_op ;;
  for_each (seqZ 100 (Z.of_nat n)) (fun b => ex_write b ex_blk).

Definition ex_boot_state : lst bst :=
  Lst (set_outstanding 0 ex_log) (boot_cache ∅).

