(* ===== verification/Tx.v ===== *)
(** * The interface of the logging layer

    What kernel/log.c and kernel/bio.c together promise to kernel/fs.c inside
    a transaction: the contents of the blocks as the file system sees them,
    the blocks it has logged, and the effect of [bread], [log_write], [brelse],
    [begin_op] and [end_op] on them.  [LogTx] gives the instance. *)

From S2P Require Import Prelude Block BlockCache Log.

(** [av] is the content of every block, [alog] the set of blocks logged so
    far, [adirty] the blocks modified but not logged, [aheld] the locked
    buffers, [acap] the capacity of the log, [ast] its first block, [aops] the
    number of outstanding operations. *)
Record atx := ATx {
  av : Z -> blk; alog : gset Z; adirty : gset Z; aheld : gmap nat Z;
  acap : nat; ast : Z; aops : Z;
}.

Definition t_hold (i : nat) (b : Z) (a : atx) : atx :=
  ATx (av a) (alog a) (adirty a) (<[i := b]> (aheld a)) (acap a) (ast a) (aops a).
Definition t_put (b : Z) (d : blk) (a : atx) : atx :=
  ATx (<[b := d]> (av a)) (alog a) ({[ b ]} ∪ adirty a) (aheld a) (acap a) (ast a) (aops a).
Definition t_logged (b : Z) (a : atx) : atx :=
  ATx (av a) ({[ b ]} ∪ alog a) (adirty a ∖ {[ b ]}) (aheld a) (acap a) (ast a) (aops a).
Definition t_drop (i : nat) (a : atx) : atx :=
  ATx (av a) (alog a) (adirty a) (delete i (aheld a)) (acap a) (ast a) (aops a).

(** A block outside the log area. *)
Definition home_block (a : atx) (b : Z) : Prop :=
  0 <= b < 2^32 /\ ~ (ast a <= b < ast a + LOGSIZE).

(** The operations. *)
Class TxOps (T : Type) := {
  tx_bread : Z -> Z -> M T nat;
  tx_data : nat -> M T blk;
  tx_set : nat -> blk -> M T unit;
  tx_log_write : nat -> M T unit;
  tx_brelse : nat -> M T unit;
  tx_begin_op : M T unit;
  tx_end_op : M T unit;
  tx_initlog : Z -> superblock -> M T unit;
}.

(** ... and what they promise. *)
Class Tx (dev : Z) (T : Type) := {
  tx_ops :: TxOps T;
  tx_rep : T -> atx -> Prop;

  tx_bread_law s a b (Q : nat -> T -> Prop) :
    tx_rep s a -> home_block a b -> (forall i, aheld a !! i <> Some b) ->
    (size (alog a) + size (aheld a) < Z.to_nat NBUF)%nat ->
    (forall i s', aheld a !! i = None -> tx_rep s' (t_hold i b a) -> Q i s') ->
    wp (tx_bread dev b) Q s;
  tx_data_law s a i b (Q : blk -> T -> Prop) :
    tx_rep s a -> aheld a !! i = Some b -> Q (av a b) s -> wp (tx_data i) Q s;
  tx_set_law s a i b d (Q : unit -> T -> Prop) :
    tx_rep s a -> aheld a !! i = Some b ->
    (forall s', tx_rep s' (t_put b d a) -> Q tt s') -> wp (tx_set i d) Q s;
  tx_log_write_law s a i b (Q : unit -> T -> Prop) :
    tx_rep s a -> aheld a !! i = Some b -> home_block a b -> (size (alog a) < acap a)%nat -> 1 <= aops a ->
    (forall s', tx_rep s' (t_logged b a) -> Q tt s') -> wp (tx_log_write i) Q s;
  tx_brelse_law s a i b (Q : unit -> T -> Prop) :
    tx_rep s a -> aheld a !! i = Some b -> b ∉ adirty a ->
    (forall s', tx_rep s' (t_drop i a) -> Q tt s') -> wp (tx_brelse i) Q s;
  tx_begin_law s a (Q : unit -> T -> Prop) :
    tx_rep s a -> (Z.of_nat (size (alog a)) + (aops a + 1) * MAXOPBLOCKS <= LOGSIZE) ->
    (forall s', tx_rep s' (ATx (av a) (alog a) (adirty a) (aheld a) (acap a) (ast a) (aops a + 1)) -> Q tt s') ->
    wp tx_begin_op Q s;
  (** The last operation commits: the log is empty again and the contents of
      the blocks are the same. *)
  tx_end_law s a (Q : unit -> T -> Prop) :
    tx_rep s a -> aheld a = ∅ -> adirty a = ∅ -> 1 <= aops a ->
    (forall s' f, (forall b, home_block a b -> f b = av a b) ->
       tx_rep s' (ATx f (if aops a =? 1 then ∅ else alog a) ∅ ∅ (acap a) (ast a) (aops a - 1)) -> Q tt s') ->
    wp tx_end_op Q s;
  (** The log never fills the buffer cache. *)
  tx_cap_law s a : tx_rep s a -> (size (alog a) <= acap a < Z.to_nat NBUF)%nat;
}.

(** ** Room in the log

    [slack c a M k]: less than [c] blocks are in the log with the blocks of [M]
    and [k] more, and that many have room in it. *)

Definition slack (c : nat) (a : atx) (m : gset Z) (k : nat) : Prop := (size (alog a ∪ m) + k < c <= acap a)%nat.

Lemma slack_room c a m k : slack c a m k -> (size (alog a) + k < c <= acap a)%nat.
Proof. unfold slack. intros H. assert (size (alog a) <= size (alog a ∪ m))%nat by (apply subseteq_size; set_solver). lia. Qed.

Lemma slack_in c a m k b : slack c a m k -> b ∈ m -> slack c (t_logged b a) m k.
Proof.
  unfold slack. simpl. intros H Hb. assert ({[ b ]} ∪ alog a ∪ m = alog a ∪ m) as -> by set_solver. done.
Qed.

Lemma slack_new c a m k b : slack c a m (S k) -> slack c (t_logged b a) ({[ b ]} ∪ m) k.
Proof.
  unfold slack. simpl. intros H.
  assert (size ({[ b ]} ∪ alog a ∪ ({[ b ]} ∪ m)) <= size (alog a ∪ m) + 1)%nat; [|lia].
  transitivity (size ({[ b ]} ∪ (alog a ∪ m))); [apply subseteq_size; set_solver|].
  rewrite size_union_alt, size_singleton. assert (size ((alog a ∪ m) ∖ {[ b ]}) <= size (alog a ∪ m))%nat; [|lia].
  apply subseteq_size. set_solver.
Qed.

Lemma slack_weaken c a m m' k k' : slack c a m k -> m' ⊆ m -> (k' <= k)%nat -> slack c a m' k'.
Proof.
  unfold slack. intros H Hm Hk. assert (size (alog a ∪ m') <= size (alog a ∪ m))%nat; [|lia].
  apply subseteq_size. set_solver.
Qed.

Lemma slack_ext c a a' m k : slack c a m k -> alog a' = alog a -> acap a' = acap a -> slack c a' m k.
Proof. unfold slack. by intros H -> ->. Qed.

Lemma slack_reserve c a m k b : slack c a m (S k) -> slack c a ({[ b ]} ∪ m) k.
Proof.
  unfold slack. intros H. assert (size (alog a ∪ ({[ b ]} ∪ m)) <= size (alog a ∪ m) + 1)%nat; [|lia].
  transitivity (size ({[ b ]} ∪ (alog a ∪ m))); [apply subseteq_size; set_solver|].
  rewrite size_union_alt, size_singleton. assert (size ((alog a ∪ m) ∖ {[ b ]}) <= size (alog a ∪ m))%nat; [|lia].
  apply subseteq_size. set_solver.
Qed.
