(* ===== verification/LogTx.v ===== *)
(** * The log and the buffer cache implement transactions

    The instance of [Tx] on kernel/log.c over any block cache. *)

From S2P Require Import Prelude Spinlock Block BlockCache Log LogProof LogCrash LogTheorems Tx.

(** The blocks of the locked buffers. *)
Definition hset (m : gmap nat Z) : gset Z := list_to_set (map_to_list m).*2.

Lemma elem_of_hset m b : b ∈ hset m <-> exists i, m !! i = Some b.
Proof.
  unfold hset. rewrite elem_of_list_to_set, list_elem_of_fmap. split.
  - intros ([i x] & -> & Hi%elem_of_map_to_list). by exists i.
  - intros [i Hi]. exists (i, b). split; [done|]. by apply elem_of_map_to_list.
Qed.

Lemma size_list_to_set_le (l : list Z) : (size (list_to_set l : gset Z) <= length l)%nat.
Proof.
  induction l as [|x l IH]; [done|]. cbn [list_to_set length]. rewrite size_union_alt, size_singleton.
  assert (size ((list_to_set l : gset Z) ∖ {[ x ]}) <= size (list_to_set l : gset Z))%nat; [|lia].
  apply subseteq_size. set_solver.
Qed.

Lemma size_hset m : (size (hset m) <= size m)%nat.
Proof. unfold hset. rewrite size_list_to_set_le, length_fmap, length_map_to_list. done. Qed.

(** The reference count of a block that is pinned and locked or not. *)
Definition pin_count (a : atx) (b : Z) : Z :=
  (if decide (b ∈ alog a) then 1 else 0) + (if decide (b ∈ hset (aheld a)) then 1 else 0).

Lemma hset_insert m i b x : m !! i = None -> x ∈ hset (<[i := b]> m) <-> x = b \/ x ∈ hset m.
Proof.
  intros Hi. rewrite !elem_of_hset. setoid_rewrite lookup_insert_Some. split.
  - intros [j [[_ ->]|[_ ?]]]; eauto.
  - intros [->|[j Hj]]; [by exists i; left|]. exists j. right. split; [|done]. intros ->. congruence.
Qed.

Lemma hset_delete m i b x :
  m !! i = Some b -> (forall j, m !! j = Some b -> j = i) ->
  x ∈ hset (delete i m) <-> x <> b /\ x ∈ hset m.
Proof.
  intros Hi Hinj. rewrite !elem_of_hset. setoid_rewrite lookup_delete_Some. split.
  - intros [j [Hij Hj]]. split; [|by exists j]. intros ->. by rewrite (Hinj j Hj) in Hij.
  - intros [Hx [j Hj]]. exists j. split; [|done]. intros ->. congruence.
Qed.

Lemma pin_count_hold a i b x :
  aheld a !! i = None -> b ∉ hset (aheld a) ->
  pin_count (t_hold i b a) x = if decide (x = b) then pin_count a b + 1 else pin_count a x.
Proof.
  intros Hi Hb. unfold pin_count. cbn [alog aheld t_hold].
  rewrite (decide_ext (x ∈ hset (<[i := b]> (aheld a))) (x = b \/ x ∈ hset (aheld a))) by (by apply hset_insert).
  repeat (case_decide; subst); try done; try tauto; lia.
Qed.

Lemma pin_count_log a b x :
  pin_count (t_logged b a) x = if decide (x = b /\ b ∉ alog a) then pin_count a b + 1 else pin_count a x.
Proof.
  unfold pin_count. cbn [alog aheld t_logged].
  rewrite (decide_ext (x ∈ {[ b ]} ∪ alog a) (x = b \/ x ∈ alog a)) by set_solver.
  destruct (decide (x = b)) as [->|Hx], (decide (b ∈ alog a)) as [Hb|Hb];
    repeat (case_decide; try tauto; try lia).
Qed.

Lemma pin_count_drop a i b x :
  aheld a !! i = Some b -> (forall j, aheld a !! j = Some b -> j = i) ->
  pin_count (t_drop i a) x = if decide (x = b) then pin_count a b - 1 else pin_count a x.
Proof.
  intros Hi Hinj. assert (b ∈ hset (aheld a)) by (apply elem_of_hset; eauto).
  unfold pin_count. cbn [alog aheld t_drop].
  rewrite (decide_ext (x ∈ hset (delete i (aheld a))) (x <> b /\ x ∈ hset (aheld a))) by (by apply hset_delete).
  repeat (case_decide; subst); try done; try tauto; lia.
Qed.

Section logtx.
Context {dev : Z} {St : Type} `{!BlockCache dev St}.

Record log_rep (s : lst St) (a : atx) (c : acache) (bs : list Z) : Prop := {
  lr_inv : log_inv s c bs;
  lr_log : forall b, b ∈ bs <-> b ∈ alog a;
  lr_cv : cv c = av a;
  lr_held : held c = aheld a;
  lr_inj : forall i j b, aheld a !! i = Some b -> aheld a !! j = Some b -> i = j;
  lr_refs : forall b, refs c !! b = if decide (pin_count a b = 0) then None else Some (pin_count a b);
  lr_clean : forall b, b ∉ alog a -> b ∉ adirty a -> av a b = dk c b;
  lr_out : forall b, in_log (ast a) b -> b ∉ alog a /\ b ∉ adirty a /\ b ∉ hset (aheld a);
  lr_dirty : forall b, b ∈ adirty a -> b ∈ hset (aheld a);
  lr_hdr : hdr_n (dk c (ast a)) = 0;
  lr_len : length (dk c (ast a)) = Z.to_nat BSIZE;
  lr_ops : outstanding (lg s) = aops a;
  lr_committing : committing (lg s) = 0;
  lr_start : start (lg s) = ast a;
  lr_size : 1 <= size_ (lg s) <= LOGSIZE;
  lr_cap : acap a = Z.to_nat (size_ (lg s) - 1);
  lr_fit : (size (alog a) <= acap a)%nat;
}.

Definition log_tx_rep (s : lst St) (a : atx) : Prop := exists c bs, log_rep s a c bs.

Lemma pin_count_range a b : 0 <= pin_count a b <= 2.
Proof. unfold pin_count. repeat case_decide; lia. Qed.

Lemma lr_getref s a c bs b : log_rep s a c bs -> getref c b = pin_count a b.
Proof. intros H. unfold getref. rewrite (lr_refs _ _ _ _ H). case_decide; simpl; lia. Qed.

Lemma lr_length s a c bs : log_rep s a c bs -> length bs = size (alog a).
Proof.
  intros H. pose proof (lr_inv _ _ _ _ H) as (_ & _ & _ & _ & _ & _ & Hnd).
  rewrite <- (size_list_to_set (C := gset Z) bs) by done. f_equal. apply set_eq. intros b.
  rewrite elem_of_list_to_set. apply (lr_log _ _ _ _ H).
Qed.

Lemma lr_dom s a c bs : log_rep s a c bs -> (size (dom (refs c)) <= size (alog a) + size (aheld a))%nat.
Proof.
  intros H. transitivity (size (alog a ∪ hset (aheld a))).
  - apply subseteq_size. intros b. rewrite elem_of_dom, (lr_refs _ _ _ _ H), elem_of_union.
    unfold pin_count. repeat case_decide; try done; try tauto; lia.
  - pose proof (size_hset (aheld a)). rewrite size_union_alt.
    assert (size (hset (aheld a) ∖ alog a) <= size (hset (aheld a)))%nat; [|lia]. apply subseteq_size. set_solver.
Qed.

Lemma log_bread_law s a b (Q : nat -> lst St -> Prop) :
  log_tx_rep s a -> home_block a b -> (forall i, aheld a !! i <> Some b) ->
  (size (alog a) + size (aheld a) < Z.to_nat NBUF)%nat ->
  (forall i s', aheld a !! i = None -> log_tx_rep s' (t_hold i b a) -> Q i s') ->
  wp (on_cache (bread dev b)) Q s.
Proof.
  intros (c & bs & H) [Hr Hb] Hnh Hsz HQ. pose proof (lr_inv _ _ _ _ H) as Hi. pose proof Hi as (Hrep & Hi').
  pose proof (pin_count_range a b).
  assert (b ∉ hset (aheld a)) as Hnhs by (intros [i Hx]%elem_of_hset; by apply (Hnh i)).
  apply wp_on_cache. eapply (bread_law (cch s) c b); [exact Hrep| | | | |].
  - rewrite (lr_held _ _ _ _ H). done.
  - intros i x Hx. rewrite (lr_held _ _ _ _ H) in Hx. rewrite (lr_refs _ _ _ _ H).
    unfold pin_count. rewrite (decide_True (P := x ∈ hset _)) by (rewrite elem_of_hset; by exists i).
    repeat case_decide; try lia; by eexists.
  - right. pose proof (lr_dom _ _ _ _ H). lia.
  - rewrite (lr_getref _ _ _ _ _ H). lia.
  - intros i c' Hfree Hc'. rewrite (lr_held _ _ _ _ H) in Hfree. apply HQ; [done|].
    exists (a_hold i b c), bs. destruct H. constructor; try done.
    + simpl. by rewrite lr_held0.
    + intros j k x. simpl. rewrite !lookup_insert_Some. intros [[-> ->]|[Hj Hx]] [[-> E]|[Hk Hy]]; try done.
      * by apply Hnh in Hy.
      * subst. by apply Hnh in Hx.
      * by eapply lr_inj0.
    + intros x. rewrite pin_count_hold by done. simpl. destruct (decide (x = b)) as [->|Hx].
      * rewrite lookup_insert_eq, decide_False by lia. by rewrite (lr_getref s a c bs) by (by constructor).
      * by rewrite lookup_insert_ne.
    + intros x Hx. destruct (lr_out0 x Hx) as (? & ? & ?). splits; try done.
      cbn [aheld t_hold]. rewrite hset_insert by done. intros [->|?]; [by apply Hb|done].
    + intros x Hx. cbn [aheld t_hold]. rewrite hset_insert by done. right. by apply lr_dirty0.
Qed.

Lemma held_pinned a i b : aheld a !! i = Some b -> 1 <= pin_count a b.
Proof.
  intros H. assert (b ∈ hset (aheld a)) by (apply elem_of_hset; eauto).
  unfold pin_count. repeat (case_decide; try done; try lia).
Qed.

Lemma log_set_law s a i b d (Q : unit -> lst St -> Prop) :
  log_tx_rep s a -> aheld a !! i = Some b ->
  (forall s', log_tx_rep s' (t_put b d a) -> Q tt s') -> wp (on_cache (bset i d)) Q s.
Proof.
  intros (c & bs & H) Hi HQ. destruct (lr_inv _ _ _ _ H) as [Hrep Hinv].
  assert (b ∈ hset (aheld a)) as Hh by (apply elem_of_hset; eauto).
  assert (~ in_log (ast a) b) as Hout by (by intros (_ & _ & ?)%(lr_out _ _ _ _ H)).
  pose proof (held_pinned a i b Hi).
  apply wp_on_cache. eapply (bset_law (cch s) c i b d); [exact Hrep|by rewrite (lr_held _ _ _ _ H)| |].
  { rewrite (lr_refs _ _ _ _ H), decide_False by lia. by eexists. }
  intros c' Hc'. apply HQ. exists (a_set b d c), bs. destruct H. constructor; try done.
  - simpl. by rewrite lr_cv0.
  - intros x. cbn [alog adirty av t_put dk a_set]. intros Hx Hd. rewrite fn_lookup_insert_ne by set_solver. apply lr_clean0; set_solver.
  - intros x Hx. cbn [alog adirty aheld t_put ast] in *. destruct (lr_out0 x Hx) as (? & ? & ?). splits; try done.
    intros [->%elem_of_singleton|?]%elem_of_union; done.
  - intros x. cbn [adirty t_put aheld]. intros [->%elem_of_singleton|?]%elem_of_union; [done|by apply lr_dirty0].
Qed.

Lemma log_log_write_law s a i b (Q : unit -> lst St -> Prop) :
  log_tx_rep s a -> aheld a !! i = Some b -> home_block a b -> (size (alog a) < acap a)%nat -> 1 <= aops a ->
  (forall s', log_tx_rep s' (t_logged b a) -> Q tt s') -> wp (log_write i) Q s.
Proof.
  intros (c & bs & H) Hi [Hr Hb] Hcap Ho HQ. pose proof (lr_inv _ _ _ _ H) as Hinv. pose proof (lr_length _ _ _ _ H) as Hlen.
  pose proof (lr_size _ _ _ _ H) as Hsz. pose proof (lr_cap _ _ _ _ H) as Hc.
  assert (b ∈ hset (aheld a)) as Hh by (apply elem_of_hset; eauto).
  pose proof (pin_count_range a b).
  assert (lh_n (lg s) = Z.of_nat (length bs)) as Hn by apply Hinv.
  eapply (wp_log_write s c bs i b); [done|by rewrite (lr_held _ _ _ _ H)|done|by rewrite (lr_start _ _ _ _ H)|lia|lia| | |].
  { by rewrite (lr_ops _ _ _ _ H). }
  { rewrite (lr_getref _ _ _ _ _ H). lia. }
  intros s' (E1 & E2 & E3 & E4) Hpost. apply HQ.
  exists (if decide (b ∈ bs) then c else a_ref b (getref c b + 1) c), (if decide (b ∈ bs) then bs else bs ++ [b]).
  assert (forall x, cv (if decide (b ∈ bs) then c else a_ref b (getref c b + 1) c) x = cv c x) as Hcv by (intros; by case_decide).
  pose proof (lr_getref _ _ _ _ b H) as Hg.
  destruct H. constructor; try (case_decide; (done || congruence)).
  - intros x. cbn [alog t_logged]. rewrite elem_of_union, elem_of_singleton, <- lr_log0.
    case_decide; [|rewrite elem_of_app, list_elem_of_singleton; tauto]. split; [tauto|]. by intros [->|?].
  - intros x. rewrite pin_count_log. destruct (decide (b ∈ bs)) as [Hin|Hin].
    + rewrite (decide_False (P := x = b /\ b ∉ alog a)) by (intros [_ E]; by apply E, lr_log0). apply lr_refs0.
    + cbn [refs a_ref]. rewrite lookup_refset. destruct (decide (x = b)) as [->|Hx].
      * rewrite (decide_True (P := b = b /\ b ∉ alog a)) by (split; [done|by rewrite <- lr_log0]). rewrite Hg. done.
      * rewrite (decide_False (P := x = b /\ b ∉ alog a)) by tauto. apply lr_refs0.
  - intros x. cbn [alog adirty t_logged av]. intros Hx Hd. transitivity (dk c x); [|by case_decide].
    apply lr_clean0; set_solver.
  - intros x Hx. cbn [alog adirty aheld t_logged ast] in *. destruct (lr_out0 x Hx) as (? & ? & ?).
    splits; [|set_solver|done]. assert (x <> b) by (by intros ->). set_solver.
  - intros x. cbn [adirty t_logged aheld]. intros Hx. apply lr_dirty0. set_solver.
  - cbn. congruence.
  - cbn. congruence.
  - by rewrite E2.
  - cbn [alog acap t_logged]. rewrite size_union_alt, size_singleton.
    assert (size (alog a ∖ {[ b ]}) <= size (alog a))%nat by (apply subseteq_size; set_solver). lia.
Qed.

Lemma log_brelse_law s a i b (Q : unit -> lst St -> Prop) :
  log_tx_rep s a -> aheld a !! i = Some b -> b ∉ adirty a ->
  (forall s', log_tx_rep s' (t_drop i a) -> Q tt s') -> wp (on_cache (brelse i)) Q s.
Proof.
  intros (c & bs & H) Hi Hd HQ. destruct (lr_inv _ _ _ _ H) as [Hrep Hinv].
  assert (b ∈ hset (aheld a)) as Hh by (apply elem_of_hset; eauto).
  pose proof (pin_count_range a b). pose proof (held_pinned a i b Hi). pose proof (lr_getref _ _ _ _ b H) as Hg.
  assert (forall j, aheld a !! j = Some b -> j = i) as Hinj by (intros j Hj; by apply (lr_inj _ _ _ _ H j i b)).
  apply wp_on_cache. eapply (brelse_law (cch s) c i b); [exact Hrep|by rewrite (lr_held _ _ _ _ H)| |].
  { rewrite Hg, wrap32_small by lia. intros E. rewrite (lr_cv _ _ _ _ H). apply (lr_clean _ _ _ _ H); [|done].
    unfold pin_count in E. intros Hl. rewrite !decide_True in E by done. lia. }
  intros c' Hc'. apply HQ. exists (a_release i b c), bs. destruct H. constructor; try done.
  - simpl. by rewrite lr_held0.
  - intros j k x. cbn [aheld t_drop]. rewrite !lookup_delete_Some. intros [_ ?] [_ ?]. by eapply lr_inj0.
  - intros x. rewrite (pin_count_drop a i b) by done. cbn [refs a_release]. rewrite lookup_refset, Hg, wrap32_small by lia.
    destruct (decide (x = b)) as [->|Hx]; [done|]. apply lr_refs0.
  - intros x Hx. cbn [alog adirty aheld t_drop ast] in *. destruct (lr_out0 x Hx) as (? & ? & ?). splits; try done.
    rewrite (hset_delete _ i b) by done. tauto.
  - intros x. cbn [adirty t_drop aheld]. intros Hx. rewrite (hset_delete _ i b) by done. split; [by intros ->|by apply lr_dirty0].
Qed.

Lemma log_begin_law s a (Q : unit -> lst St -> Prop) :
  log_tx_rep s a -> (Z.of_nat (size (alog a)) + (aops a + 1) * MAXOPBLOCKS <= LOGSIZE) ->
  (forall s', log_tx_rep s' (ATx (av a) (alog a) (adirty a) (aheld a) (acap a) (ast a) (aops a + 1)) -> Q tt s') ->
  wp begin_op Q s.
Proof.
  intros (c & bs & H) Hroom HQ. pose proof (lr_inv _ _ _ _ H) as Hinv. pose proof (lr_length _ _ _ _ H) as Hlen.
  pose proof Hinv as (Hrep & Hdev & Hlk & He & Hn & Hbl & Hnd).
  unfold begin_op. apply wp_bind. unfold log_acquire. apply wp_spin_acquire; [done|]. apply wp_bind, wp_gets.
  cbn [lg set_lg set_log_lock committing lh_n outstanding].
  rewrite (lr_committing _ _ _ _ H), (lr_ops _ _ _ _ H). change (truth 0) with false. cbv iota.
  replace (LOGSIZE <? _) with false by (bool_goal; lia).
  apply wp_bind, wp_modify, wp_spin_release; [done|]. apply HQ. exists c, bs. destruct H. constructor; try done.
  cbn. by rewrite lr_ops0.
Qed.

Lemma drop_refs_pinned bs : forall m, NoDup bs -> (forall b, m !! b = if decide (b ∈ bs) then Some 1 else None) -> drop_refs bs m = ∅.
Proof.
  induction bs as [|x bs IH]; intros m Hnd Hm; cbn [drop_refs].
  - apply map_eq. intros b. rewrite Hm, lookup_empty, decide_False by apply not_elem_of_nil. done.
  - apply NoDup_cons in Hnd as [Hx Hnd]. apply IH; [done|]. intros b. rewrite lookup_refset, Hm.
    rewrite (decide_True (P := x ∈ x :: bs)) by (by left). simpl. change (wrap32 (1 - 1)) with 0.
    destruct (decide (b = x)) as [->|Hb].
    + rewrite (decide_False (P := x ∈ bs)) by done. done.
    + rewrite Hm. apply decide_ext. rewrite elem_of_cons. tauto.
Qed.

Lemma rep_refs_pins s a c bs :
  log_rep s a c bs -> aheld a = ∅ -> forall b, refs c !! b = if decide (b ∈ bs) then Some 1 else None.
Proof.
  intros H Hh b. rewrite (lr_refs _ _ _ _ H). unfold pin_count. rewrite Hh.
  rewrite (decide_False (P := b ∈ hset ∅)) by (rewrite elem_of_hset; by intros [i Hi]).
  pose proof (lr_log _ _ _ _ H b) as Hl. destruct (decide (b ∈ alog a)), (decide (b ∈ bs)); try done; tauto.
Qed.

Lemma rep_commit_pre s a c bs : log_rep s a c bs -> aheld a = ∅ -> commit_pre s c bs.
Proof.
  intros H Hh. pose proof (rep_refs_pins s a c bs H Hh) as Hrefs.
  pose proof (lr_inv _ _ _ _ H) as (Hrep & Hdev & Hlk & He & Hn & Hbl & Hnd).
  unfold commit_pre. splits; try done.
  - by rewrite (lr_held _ _ _ _ H).
  - intros b Hb. rewrite Hrefs, decide_False; [done|]. by intros ?%(entries_out _ _ _ _ He).
  - intros b Hb. exists 1. rewrite Hrefs, decide_True by done. done.
  - pose proof (lr_dom _ _ _ _ H) as Hd. rewrite Hh, map_size_empty in Hd.
    pose proof (lr_length _ _ _ _ H). pose proof (lr_cap _ _ _ _ H). pose proof (lr_size _ _ _ _ H).
    pose proof (lr_fit _ _ _ _ H). unfold NBUF, LOGSIZE, MAXOPBLOCKS in *. lia.
Qed.

Lemma commit_writes_header l f g bs :
  length (f (start l)) = Z.to_nat BSIZE ->
  hdr_n (apply_writes (commit_writes l f bs) g (start l)) = 0 /\
  length (apply_writes (commit_writes l f bs) g (start l)) = Z.to_nat BSIZE.
Proof.
  intros Hl. unfold commit_writes. rewrite !(assoc_L (++)), apply_writes_app. simpl. rewrite fn_lookup_insert.
  assert (length (head_blk l (f (start l))) = Z.to_nat BSIZE) as Hh.
  { unfold head_blk. rewrite length_put_entries. unfold put32. by rewrite length_putn. }
  split; [by apply hdr_n_put|]. unfold put32. by rewrite length_putn.
Qed.

Lemma apply_writes_cases ws b :
  (b ∉ ws.*1 /\ forall g, apply_writes ws g b = g b) \/ exists d, (b, d) ∈ ws /\ forall g, apply_writes ws g b = d.
Proof.
  destruct (decide (b ∈ ws.*1)) as [Hb|Hb]; [right|left; split; [done|]; intros; by apply apply_notin].
  induction ws as [|[x d] ws IH] using rev_ind; [by apply not_elem_of_nil in Hb|].
  rewrite fmap_app, elem_of_app in Hb.
  destruct (decide (x = b)) as [->|Hne].
  - exists d. split; [apply elem_of_app; right; by left|]. intros g. rewrite apply_writes_app. apply fn_lookup_insert.
  - destruct IH as (d' & Hd' & Hg); [destruct Hb as [?|Hb]; [done|]; by apply list_elem_of_singleton in Hb|].
    exists d'. split; [apply elem_of_app; by left|]. intros g. rewrite apply_writes_app. cbn [apply_writes]. by rewrite fn_lookup_insert_ne.
Qed.

Lemma commit_writes_home l f bs b d :
  entries l 0 bs -> (b, d) ∈ commit_writes l f bs -> ~ in_log (start l) b -> d = f b.
Proof.
  intros He Hin Hb. unfold commit_writes in Hin. rewrite !elem_of_app, !list_elem_of_singleton in Hin.
  destruct Hin as [Hin|[[= -> _]|[Hin|[= -> _]]]]; try (by destruct Hb; apply in_log_start).
  - apply (list_elem_of_fmap_2 fst) in Hin. apply log_copies_keys in Hin. simpl in Hin. destruct Hb, He as (_ & ? & _).
    unfold in_log. lia.
  - apply list_elem_of_fmap in Hin as (x & [= -> ->] & _). done.
Qed.

Lemma log_end_law s a (Q : unit -> lst St -> Prop) :
  log_tx_rep s a -> aheld a = ∅ -> adirty a = ∅ -> 1 <= aops a ->
  (forall s' f, (forall b, home_block a b -> f b = av a b) ->
     log_tx_rep s' (ATx f (if aops a =? 1 then ∅ else alog a) ∅ ∅ (acap a) (ast a) (aops a - 1)) -> Q tt s') ->
  wp end_op Q s.
Proof.
  intros (c & bs & H) Hh Hd Ho HQ. pose proof (rep_commit_pre s a c bs H Hh) as Hpre.
  pose proof (rep_refs_pins s a c bs H Hh) as Hrefs. pose proof (lr_inv _ _ _ _ H) as (Hrep & Hdev & Hlk & He & Hn & Hbl & Hnd).
  pose proof (lr_length _ _ _ _ H) as Hlen.
  assert (cv c (ast a) = dk c (ast a)) as Hst.
  { rewrite (lr_cv _ _ _ _ H). destruct (lr_out _ _ _ _ H (ast a) (in_log_start _)) as (? & ? & _). by apply (lr_clean _ _ _ _ H). }
  eapply (wp_end_op s c bs); [done|apply (lr_committing _ _ _ _ H)|done|]. intros s' El Hrep'.
  unfold committed, ended in El, Hrep'. rewrite (lr_ops _ _ _ _ H) in El, Hrep'.
  destruct (aops a =? 1) eqn:E1; cbn [andb] in Hrep'.
  2:{ apply (HQ s' (av a)); [done|]. exists c, bs. clear HQ. destruct a as [v L D hm cp st ops]; simpl in *; subst D hm.
      destruct H; simpl in *. constructor; simpl; try (rewrite El); try done. split; [exact Hrep'|]. by rewrite El. }
  set (c' := if negb (bool_decide (bs = [])) then _ else _) in *.
  assert (refs c' = ∅) as Hr'.
  { unfold c'. case_bool_decide as Hb; simpl; [|by apply drop_refs_pinned]. apply map_eq. intros b.
    by rewrite Hrefs, Hb, lookup_empty, decide_False by apply not_elem_of_nil. }
  assert (forall b, cv c' b = dk c' b) as Hclean.
  { intros b. destruct (decide (b ∈ bs)) as [Hb|Hb].
    - unfold c'. rewrite bool_decide_eq_false_2 by (intros ->; by apply not_elem_of_nil in Hb). simpl.
      destruct (apply_writes_cases (commit_writes (lg s) (cv c) bs) b) as [[Hk _]|(d & _ & Hg)]; [|by rewrite !Hg].
      destruct Hk. unfold commit_writes. rewrite !fmap_app, !elem_of_app, <- list_fmap_compose. right; right; left.
      apply list_elem_of_fmap. by exists b.
    - assert (cv c b = dk c b) as Hcb.
      { rewrite (lr_cv _ _ _ _ H). apply (lr_clean _ _ _ _ H); [by rewrite <- (lr_log _ _ _ _ H)|rewrite Hd; set_solver]. }
      unfold c'. case_bool_decide; simpl; [done|].
      destruct (apply_writes_cases (commit_writes (lg s) (cv c) bs) b) as [[_ Hg]|(d & _ & Hg)]; by rewrite !Hg. }
  apply (HQ s' (cv c')).
  - intros b [_ Hb]. rewrite <- (lr_cv _ _ _ _ H). unfold c'. case_bool_decide; simpl; [done|].
    destruct (apply_writes_cases (commit_writes (lg s) (cv c) bs) b) as [[_ Hg]|(d & Hin & Hg)]; rewrite Hg; [done|].
    eapply commit_writes_home; [done|done|]. by rewrite (lr_start _ _ _ _ H).
  - exists c', []. destruct H. constructor; try done; try (rewrite El; done).
    + split; [done|]. rewrite El. splits; try done; [|constructor]. destruct He as (? & ? & ? & ? & ?). unfold entries. done.
    + intros b. cbn [alog]. set_solver.
    + cbn [aheld]. unfold c'. case_bool_decide; simpl; congruence.
    + intros b. rewrite Hr'. done.
    + intros b _ _. by rewrite <- Hclean.
    + cbn [ast]. unfold c'. case_bool_decide; simpl; [done|]. rewrite <- lr_start0. apply commit_writes_header. congruence.
    + cbn [ast]. unfold c'. case_bool_decide; simpl; [done|]. rewrite <- lr_start0. apply commit_writes_header. congruence.
    + cbn. rewrite size_empty. lia.
Qed.

Lemma log_data_law s a i b (Q : blk -> lst St -> Prop) :
  log_tx_rep s a -> aheld a !! i = Some b -> Q (av a b) s -> wp (on_cache (bdata i)) Q s.
Proof.
  intros (c & bs & H) Hi HQ. destruct (lr_inv _ _ _ _ H) as [Hrep _].
  apply wp_on_cache. eapply (bdata_law (cch s) c i b); [exact Hrep|by rewrite (lr_held _ _ _ _ H)|].
  rewrite (lr_cv _ _ _ _ H). by destruct s.
Qed.

Lemma log_cap_law s a : log_tx_rep s a -> (size (alog a) <= acap a < Z.to_nat NBUF)%nat.
Proof.
  intros (c & bs & H). pose proof (lr_size _ _ _ _ H). pose proof (lr_fit _ _ _ _ H). rewrite (lr_cap _ _ _ _ H) in *.
  unfold NBUF, LOGSIZE, MAXOPBLOCKS in *. lia.
Qed.

#[export] Instance log_tx_ops : TxOps (lst St) := {|
  tx_bread d b := on_cache (bread d b);
  tx_data i := on_cache (bdata i);
  tx_set i d := on_cache (bset i d);
  tx_log_write := log_write;
  tx_brelse i := on_cache (brelse i);
  tx_begin_op := begin_op;
  tx_end_op := end_op;
  tx_initlog := initlog;
|}.

#[export] Instance log_tx : Tx dev (lst St) := {|
  tx_ops := log_tx_ops;
  tx_rep := log_tx_rep;
  tx_bread_law := log_bread_law;
  tx_data_law := log_data_law;
  tx_set_law := log_set_law;
  tx_log_write_law := log_log_write_law;
  tx_brelse_law := log_brelse_law;
  tx_begin_law := log_begin_law;
  tx_end_law := log_end_law;
  tx_cap_law := log_cap_law;
|}.
End logtx.
