(* ===== verification/CopyIO.v ===== *)
(** * The interface for copying to and from callers' memory

    The file system moves bytes between disk buffers and a memory address that
    is a user or a kernel address ([either_copyout] and [either_copyin] of
    kernel/proc.c).  The class states what these promise, on a view of the
    memory: [v user a] is the byte at address [a] of the user or the kernel
    space, [None] where the space has none to give. *)

From S2P Require Import Prelude Block.

Definition view := bool -> Z -> option Z.

(** The view after [bs] was stored at [a]. *)
Definition vwrite (user : bool) (a : Z) (bs : list Z) (v : view) : view := fun user' a' =>
  if decide (user' = user /\ a <= a' < a + Z.of_nat (length bs)) then bs !! Z.to_nat (a' - a) else v user' a'.

(** All of [a, a+n) can be accessed; the bytes there are [bs]. *)
Definition accessible (v : view) (user : bool) (a n : Z) : Prop :=
  forall i, 0 <= i < n -> is_Some (v user (a + i)).
Definition vbytes (v : view) (user : bool) (a : Z) (bs : list Z) : Prop :=
  forall i b, bs !! i = Some b -> v user (a + Z.of_nat i) = Some b.

(** [v'] differs from [v] only in [a, a+n) of one space. *)
Definition only_range (user : bool) (a n : Z) (v v' : view) : Prop :=
  forall user' a', (is_Some (v' user' a') <-> is_Some (v user' a')) /\
    (~ (user' = user /\ a <= a' < a + n) -> v' user' a' = v user' a').

(** [either_copyout user_dst dst bs] copies the bytes [bs] of a kernel object;
    [either_copyin old user_src src len] copies [len] bytes over a kernel
    object that holds [old], and returns what the object holds then, also when
    it fails.  [kread] and [kwrite] access a variable of the kernel. *)
Class CopyOps (U : Type) := {
  either_copyout : Z -> Z -> list Z -> M U Z;
  either_copyin : list Z -> Z -> Z -> Z -> M U (Z * list Z);
  kread : Z -> nat -> M U (list Z);
  kwrite : Z -> list Z -> M U unit;
}.

Class CopyIO (U : Type) := {
  copy_ops :: CopyOps U;
  copy_rep : U -> view -> Prop;

  copy_bytes_law u v user a b : copy_rep u v -> v user a = Some b -> byte_ok b;
  copyout_law u v ud dst bs (Q : Z -> U -> Prop) :
    copy_rep u v -> accessible v (truth ud) dst (Z.of_nat (length bs)) -> Forall byte_ok bs ->
    0 <= dst -> dst + Z.of_nat (length bs) <= 2^64 ->
    (forall u', copy_rep u' (vwrite (truth ud) dst bs v) -> Q 0 u') -> wp (either_copyout ud dst bs) Q u;
  copyout_fail u v ud dst bs (Q : Z -> U -> Prop) :
    copy_rep u v -> ~ accessible v (truth ud) dst (Z.of_nat (length bs)) -> truth ud = true -> Forall byte_ok bs ->
    0 <= dst -> dst + Z.of_nat (length bs) <= 2^64 ->
    (forall u' v', copy_rep u' v' -> only_range (truth ud) dst (Z.of_nat (length bs)) v v' -> Q (-1) u') ->
    wp (either_copyout ud dst bs) Q u;
  copyin_law u v us src len old bs (Q : Z * list Z -> U -> Prop) :
    copy_rep u v -> vbytes v (truth us) src bs -> len = Z.of_nat (length bs) -> length old = length bs ->
    0 <= src -> src + len <= 2^64 ->
    (forall u', copy_rep u' v -> Q (0, bs) u') -> wp (either_copyin old us src len) Q u;
  copyin_fail u v us src len old (Q : Z * list Z -> U -> Prop) :
    copy_rep u v -> ~ accessible v (truth us) src len -> truth us = true -> len = Z.of_nat (length old) ->
    Forall byte_ok old -> 0 <= src -> src + len <= 2^64 ->
    (forall u' bs, copy_rep u' v -> length bs = length old -> Forall byte_ok bs -> Q (-1, bs) u') ->
    wp (either_copyin old us src len) Q u;
  kread_law u v a bs (Q : list Z -> U -> Prop) :
    copy_rep u v -> vbytes v false a bs -> Q bs u -> wp (kread a (length bs)) Q u;
  kwrite_law u v a bs (Q : unit -> U -> Prop) :
    copy_rep u v -> accessible v false a (Z.of_nat (length bs)) -> Forall byte_ok bs ->
    (forall u', copy_rep u' (vwrite false a bs v) -> Q tt u') -> wp (kwrite a bs) Q u;
}.

(** ** Facts about views *)

Lemma vwrite_bytes user a bs v : vbytes (vwrite user a bs v) user a bs.
Proof.
  intros i b Hi. unfold vwrite. pose proof (lookup_lt_Some _ _ _ Hi). rewrite decide_True by (split; [done|lia]).
  by replace (Z.to_nat (a + Z.of_nat i - a)) with i by lia.
Qed.

Lemma vwrite_out user a bs v user' a' :
  ~ (user' = user /\ a <= a' < a + Z.of_nat (length bs)) -> vwrite user a bs v user' a' = v user' a'.
Proof. intros H. unfold vwrite. by rewrite decide_False. Qed.

Lemma vwrite_only user a bs v :
  accessible v user a (Z.of_nat (length bs)) -> only_range user a (Z.of_nat (length bs)) v (vwrite user a bs v).
Proof.
  intros Hacc user' a'. split; [|by apply vwrite_out].
  unfold vwrite. case_decide as H; [|done]. destruct H as [-> Hr]. rewrite lookup_lt_is_Some.
  split; [|lia]. intros _. replace a' with (a + (a' - a)) by lia. apply Hacc. lia.
Qed.

Lemma only_range_accessible user a n v v' user' a' n' :
  only_range user a n v v' -> accessible v user' a' n' -> accessible v' user' a' n'.
Proof. intros Hr Ha i Hi. apply Hr. by apply Ha. Qed.

Lemma only_range_weaken user a n b m v v' :
  only_range user a n v v' -> b <= a -> a + n <= b + m -> only_range user b m v v'.
Proof. intros H Hb Hm user' a'. destruct (H user' a') as [H1 H2]. split; [done|]. intros Hn. apply H2. intros [-> ?]. apply Hn. split; [done|lia]. Qed.

Lemma only_range_refl user a n v : only_range user a n v v.
Proof. done. Qed.

Lemma only_range_trans user a n v1 v2 v3 :
  only_range user a n v1 v2 -> only_range user a n v2 v3 -> only_range user a n v1 v3.
Proof.
  intros H H' u x. destruct (H u x) as [E1 E2], (H' u x) as [E3 E4]. split; [tauto|]. intros Hn.
  rewrite E4 by done. by apply E2.
Qed.

Lemma vbytes_accessible v user a bs n : vbytes v user a bs -> n = Z.of_nat (length bs) -> accessible v user a n.
Proof.
  intros H -> i Hi. destruct (lookup_lt_is_Some_2 bs (Z.to_nat i)) as [b Hb]; [lia|].
  exists b. rewrite <- (H _ _ Hb). f_equal. lia.
Qed.
