(* ===== verification/Fs.v ===== *)
(** * The file system (kernel/fs.c)

    Blocks, inodes, file contents, directories and path names, translated
    over the transaction interface [Tx] and the copying interface [CopyIO].
    An inode pointer is an index into the inode cache; a null pointer is
    [None].  Strings are lists of characters, a read past the end gives the
    terminating zero.  [de_addr] is the address of the local variable [de] of
    the directory routines. *)

From S2P Require Import Prelude Spinlock Sleeplock Block Log Tx CopyIO.

(** ** kernel/fs.h, kernel/stat.h, kernel/file.h *)

Definition ROOTINO : Z := 1.
Definition FSMAGIC : Z := 0x10203040.
Definition NDIRECT : Z := 12.
Definition NINDIRECT : Z := BSIZE / 4.
Definition MAXFILE : Z := NDIRECT + NINDIRECT.
Definition DINODE : Z := 64.
Definition IPB : Z := BSIZE / DINODE.
Definition IBLOCK (i : Z) (sb : superblock) : Z := wrap32 (i / IPB + inodestart sb).
Definition BPB : Z := BSIZE * 8.
Definition BBLOCK (b : Z) (sb : superblock) : Z := wrap32 (b / BPB + bmapstart sb).
Definition DIRSIZ : Z := 14.
Definition DIRENT : Z := 2 + DIRSIZ.
Definition NINODE : Z := 50.
Definition ROOTDEV : Z := 1.
Definition T_DIR : Z := 1.
Definition T_FILE : Z := 2.
Definition T_DEVICE : Z := 3.

(** [struct inode]: the copy of the disk inode is the part from [itype]. *)
Record inode := Inode {
  idev : Z; inum : Z; iref : Z; ilk : sleeplock; ivalid : Z;
  itype : Z; imajor : Z; iminor : Z; nlink : Z; isize : Z; addrs : list Z;
}.

Definition set_iref (x : Z) (p : inode) : inode :=
  Inode (idev p) (inum p) x (ilk p) (ivalid p) (itype p) (imajor p) (iminor p) (nlink p) (isize p) (addrs p).
Definition set_ilk (x : sleeplock) (p : inode) : inode :=
  Inode (idev p) (inum p) (iref p) x (ivalid p) (itype p) (imajor p) (iminor p) (nlink p) (isize p) (addrs p).
Definition set_ivalid (x : Z) (p : inode) : inode :=
  Inode (idev p) (inum p) (iref p) (ilk p) x (itype p) (imajor p) (iminor p) (nlink p) (isize p) (addrs p).
Definition set_itype (x : Z) (p : inode) : inode :=
  Inode (idev p) (inum p) (iref p) (ilk p) (ivalid p) x (imajor p) (iminor p) (nlink p) (isize p) (addrs p).
Definition set_nlink (x : Z) (p : inode) : inode :=
  Inode (idev p) (inum p) (iref p) (ilk p) (ivalid p) (itype p) (imajor p) (iminor p) x (isize p) (addrs p).
Definition set_isize (x : Z) (p : inode) : inode :=
  Inode (idev p) (inum p) (iref p) (ilk p) (ivalid p) (itype p) (imajor p) (iminor p) (nlink p) x (addrs p).
Definition set_addrs (x : list Z) (p : inode) : inode :=
  Inode (idev p) (inum p) (iref p) (ilk p) (ivalid p) (itype p) (imajor p) (iminor p) (nlink p) (isize p) x.
Definition set_majmin (x y : Z) (p : inode) : inode :=
  Inode (idev p) (inum p) (iref p) (ilk p) (ivalid p) (itype p) x y (nlink p) (isize p) (addrs p).

Record stat := Stat { st_dev : Z; st_ino : Z; st_type : Z; st_nlink : Z; st_size : Z }.

Definition empty_inode : inode := Inode 0 0 0 initsleeplock 0 0 0 0 0 0 (replicate 13 0).

(** ** Encoding of the disk structures *)

(** The words [addrs[0], addrs[1], ...] at offset [o]. *)
Fixpoint get_addrs (k : nat) (d : blk) (o : Z) : list Z :=
  match k with
  | O => []
  | S k' => get32 d o :: get_addrs k' d (o + 4)
  end.
Fixpoint put_addrs (l : list Z) (d : blk) (o : Z) : blk :=
  match l with
  | [] => d
  | x :: l' => put_addrs l' (put32 d o x) (o + 4)
  end.

(** [struct dinode] at offset [o]: [type], [major], [minor], [nlink], [size],
    [addrs]. *)
Definition dip_type (d : blk) (o : Z) : Z := s16 (get16 d o).
Definition load_dinode (d : blk) (o : Z) (p : inode) : inode :=
  Inode (idev p) (inum p) (iref p) (ilk p) (ivalid p) (s16 (get16 d o)) (s16 (get16 d (o + 2)))
    (s16 (get16 d (o + 4))) (s16 (get16 d (o + 6))) (get32 d (o + 8)) (get_addrs 13 d (o + 12)).
Definition store_dinode (p : inode) (d : blk) (o : Z) : blk :=
  put_addrs (addrs p)
    (put32 (put16 (put16 (put16 (put16 d o (itype p)) (o + 2) (imajor p)) (o + 4) (iminor p)) (o + 6) (nlink p))
       (o + 8) (isize p)) (o + 12).

Definition load_superblock (d : blk) : superblock :=
  SuperBlock (get32 d 0) (get32 d 4) (get32 d 8) (get32 d 12) (get32 d 16) (get32 d 20) (get32 d 24) (get32 d 28).

(** ** Strings (kernel/string.c on character arrays) *)

Definition hd0 (s : list Z) : Z := default 0 (head s).

Fixpoint strncmp_l (n : nat) (p q : list Z) : Z :=
  match n with
  | O => 0
  | S n' => if truth (hd0 p) && (hd0 p =? hd0 q) then strncmp_l n' (tail p) (tail q) else hd0 p - hd0 q
  end.
Fixpoint strncpy_l (n : nat) (t : list Z) : list Z :=
  match n with
  | O => []
  | S n' => if truth (hd0 t) then hd0 t :: strncpy_l n' (tail t) else replicate n 0
  end.

Definition namecmp (s t : list Z) : Z := strncmp_l (Z.to_nat DIRSIZ) s t.

Definition SLASH : Z := 47.

Fixpoint skip_slashes (path : list Z) : list Z :=
  match path with
  | c :: path' => if c =? SLASH then skip_slashes path' else path
  | [] => []
  end.
(** [while( *path != '/' && *path != 0) path++]: the element and the rest. *)
Fixpoint split_elem (path : list Z) : list Z * list Z :=
  match path with
  | c :: path' =>
      if negb (c =? SLASH) && negb (c =? 0) then
        let (e, r) := split_elem path' in (c :: e, r)
      else ([], path)
  | [] => ([], [])
  end.

(** [memmove(name, s, k)] on the array [name]. *)
Definition move_to (name s : list Z) (k : Z) : list Z := take (Z.to_nat k) s ++ drop (Z.to_nat k) name.

Definition skipelem (path name : list Z) : option (list Z * list Z) :=
  let path := skip_slashes path in
  if hd0 path =? 0 then None else
  let (s, path) := split_elem path in
  let len := Z.of_nat (length s) in
  let name' :=
    if DIRSIZ <=? len then move_to name s DIRSIZ
    else <[Z.to_nat len := 0]> (move_to name s len) in
  Some (name', skip_slashes path).

(** ** The state and the routines *)

Section fs.
Context {T U : Type} `{!TxOps T} `{!CopyOps U}.

Record fs_t := Fs { sb : superblock; ic_lock : spin; inodes : list inode; txs : T; um : U }.

Definition set_sb (x : superblock) (s : fs_t) : fs_t := Fs x (ic_lock s) (inodes s) (txs s) (um s).
Definition set_ic_lock (x : spin) (s : fs_t) : fs_t := Fs (sb s) x (inodes s) (txs s) (um s).
Definition set_inodes (x : list inode) (s : fs_t) : fs_t := Fs (sb s) (ic_lock s) x (txs s) (um s).
Definition set_txs (x : T) (s : fs_t) : fs_t := Fs (sb s) (ic_lock s) (inodes s) x (um s).
Definition set_um (x : U) (s : fs_t) : fs_t := Fs (sb s) (ic_lock s) (inodes s) (txs s) x.

Definition on_tx {A} (c : M T A) : M fs_t A := zoom txs set_txs c.
Definition on_um {A} (c : M U A) : M fs_t A := zoom um set_um c.

Definition bread_ (d b : Z) : M fs_t nat := on_tx (tx_bread d b).
Definition data_ (i : nat) : M fs_t blk := on_tx (tx_data i).
Definition set_ (i : nat) (d : blk) : M fs_t unit := on_tx (tx_set i d).
Definition log_write_ (i : nat) : M fs_t unit := on_tx (tx_log_write i).
Definition brelse_ (i : nat) : M fs_t unit := on_tx (tx_brelse i).

Definition inode_at (s : fs_t) (ip : nat) : inode := default empty_inode (inodes s !! ip).
Definition get_inode (ip : nat) : M fs_t inode := gets (fun s => inode_at s ip).
Definition upd_inode (ip : nat) (f : inode -> inode) : M fs_t unit :=
  modify (fun s => set_inodes (<[ip := f (inode_at s ip)]> (inodes s)) s).
Definition on_ilock {A} (ip : nat) (c : M sleeplock A) : M fs_t A :=
  zoom (fun s => ilk (inode_at s ip)) (fun l s => set_inodes (<[ip := set_ilk l (inode_at s ip)]> (inodes s)) s) c.

Definition ic_acquire : M fs_t unit := spin_acquire ic_lock set_ic_lock.
Definition ic_release : M fs_t unit := spin_release ic_lock set_ic_lock.

(** *** Blocks *)

Definition readsb (d : Z) : M fs_t unit :=
  let! bp := bread_ d 1 in
  let! b := data_ bp in
  modify (set_sb (load_superblock b)) ;;
  brelse_ bp.

Definition fsinit (d : Z) : M fs_t unit :=
  readsb d ;;
  let! s := gets sb in
  if negb (magic s =? FSMAGIC) then panic "invalid file system" else on_tx (tx_initlog d s).

Definition bzero (d bno : Z) : M fs_t unit :=
  let! bp := bread_ d bno in
  set_ bp zero_blk ;;
  log_write_ bp ;;
  brelse_ bp.

(** The bit of block [bi] of a bitmap block. *)
Definition bit_mask (bi : Z) : Z := Z.shiftl 1 (bi mod 8).
Definition bit_set (d : blk) (bi : Z) : bool := truth (Z.land (get8 d (bi / 8)) (bit_mask bi)).
Definition set_bit (d : blk) (bi : Z) : blk := put8 d (bi / 8) (Z.lor (get8 d (bi / 8)) (bit_mask bi)).
Definition clear_bit (d : blk) (bi : Z) : blk := put8 d (bi / 8) (Z.land (get8 d (bi / 8)) (Z.lnot (bit_mask bi))).

(** The inner loop of [balloc]: the first clear bit from [bi]. *)
Fixpoint balloc_scan (k : nat) (bi b size : Z) (d : blk) : option Z :=
  match k with
  | O => None
  | S k' =>
      if negb (b + bi <? size) then None
      else if negb (bit_set d bi) then Some bi
      else balloc_scan k' (bi + 1) b size d
  end.
Fixpoint balloc_loop (bs : list Z) (d : Z) : M fs_t Z :=
  match bs with
  | [] => panic "balloc: out of blocks"
  | b :: bs' =>
      let! s := gets sb in
      let! bp := bread_ d (BBLOCK b s) in
      let! x := data_ bp in
      match balloc_scan (Z.to_nat BPB) 0 b (sb_size s) x with
      | Some bi =>
          set_ bp (set_bit x bi) ;;
          log_write_ bp ;;
          brelse_ bp ;;
          bzero d (b + bi) ;;
          ret (b + bi)
      | None => brelse_ bp ;; balloc_loop bs' d
      end
  end.
(** [for(b = 0; b < sb.size; b += BPB)]. *)
Definition balloc (d : Z) : M fs_t Z :=
  let! s := gets sb in
  balloc_loop ((fun k => k * BPB) <$> seqZ 0 ((sb_size s + BPB - 1) / BPB)) d.

Definition bfree (d b : Z) : M fs_t unit :=
  let! s := gets sb in
  let! bp := bread_ d (BBLOCK b s) in
  let! x := data_ bp in
  let bi := b mod BPB in
  if negb (bit_set x bi) then panic "freeing free block" else
  set_ bp (clear_bit x bi) ;;
  log_write_ bp ;;
  brelse_ bp.

(** *** Inodes *)

(** [me] is [myproc()->pid]. *)
Context (me : Z).

Definition iinit : M fs_t unit :=
  modify (set_ic_lock spin_free) ;;
  for_each (seq 0 (Z.to_nat NINODE)) (fun i => upd_inode i (set_ilk initsleeplock)).

(** The scan of [iget]: the cached entry, or the first empty one. *)
Fixpoint iget_scan (l : list inode) (i : nat) (empty : option nat) (d n : Z) : nat + option nat :=
  match l with
  | [] => inr empty
  | p :: l' =>
      if (0 <? iref p) && (idev p =? d) && (inum p =? n) then inl i
      else iget_scan l' (S i)
             (match empty with None => if iref p =? 0 then Some i else None | _ => empty end) d n
  end.

Definition iget (d n : Z) : M fs_t nat :=
  ic_acquire ;;
  let! l := gets inodes in
  match iget_scan l 0 None d n with
  | inl ip =>
      upd_inode ip (fun p => set_iref (iref p + 1) p) ;;
      ic_release ;;
      ret ip
  | inr None => panic "iget: no inodes"
  | inr (Some ip) =>
      upd_inode ip (fun p => Inode d n 1 (ilk p) 0 (itype p) (imajor p) (iminor p) (nlink p) (isize p) (addrs p)) ;;
      ic_release ;;
      ret ip
  end.

Fixpoint ialloc_loop (ns : list Z) (d type : Z) : M fs_t nat :=
  match ns with
  | [] => panic "ialloc: no inodes"
  | n :: ns' =>
      let! s := gets sb in
      let! bp := bread_ d (IBLOCK n s) in
      let! x := data_ bp in
      let o := n mod IPB * DINODE in
      if dip_type x o =? 0 then
        set_ bp (put16 (splice x o (replicate (Z.to_nat DINODE) 0)) o type) ;;
        log_write_ bp ;;
        brelse_ bp ;;
        iget d n
      else brelse_ bp ;; ialloc_loop ns' d type
  end.
Definition ialloc (d type : Z) : M fs_t nat :=
  let! s := gets sb in
  ialloc_loop (seqZ 1 (ninodes s - 1)) d type.

Definition iupdate (ip : nat) : M fs_t unit :=
  let! s := gets sb in
  let! p := get_inode ip in
  let! bp := bread_ (idev p) (IBLOCK (inum p) s) in
  let! x := data_ bp in
  set_ bp (store_dinode p x (inum p mod IPB * DINODE)) ;;
  log_write_ bp ;;
  brelse_ bp.

Definition idup (ip : nat) : M fs_t nat :=
  ic_acquire ;;
  upd_inode ip (fun p => set_iref (iref p + 1) p) ;;
  ic_release ;;
  ret ip.

Definition ilock (ip : nat) : M fs_t unit :=
  let! p := get_inode ip in
  if iref p <? 1 then panic "ilock" else
  on_ilock ip (acquiresleep me) ;;
  let! p := get_inode ip in
  if ivalid p =? 0 then
    let! s := gets sb in
    let! bp := bread_ (idev p) (IBLOCK (inum p) s) in
    let! x := data_ bp in
    upd_inode ip (load_dinode x (inum p mod IPB * DINODE)) ;;
    brelse_ bp ;;
    upd_inode ip (set_ivalid 1) ;;
    let! p := get_inode ip in
    if itype p =? 0 then panic "ilock: no type" else ret tt
  else ret tt.

Definition iunlock (ip : nat) : M fs_t unit :=
  let! h := on_ilock ip (holdingsleep me) in
  let! p := get_inode ip in
  if negb h || (iref p <? 1) then panic "iunlock" else
  on_ilock ip releasesleep.

(** *** Contents *)

Definition addr_at (p : inode) (i : Z) : Z := default 0 (addrs p !! Z.to_nat i).
Definition set_addr (i a : Z) (p : inode) : inode := set_addrs (<[Z.to_nat i := a]> (addrs p)) p.

(** [if((addr = ip->addrs[i]) == 0) ip->addrs[i] = addr = balloc(ip->dev)]. *)
Definition bmap_slot (ip : nat) (i : Z) : M fs_t Z :=
  let! p := get_inode ip in
  if addr_at p i =? 0 then
    let! a := balloc (idev p) in
    upd_inode ip (set_addr i a) ;;
    ret a
  else ret (addr_at p i).

Definition bmap (ip : nat) (bn : Z) : M fs_t Z :=
  if bn <? NDIRECT then bmap_slot ip bn else
  let bn := bn - NDIRECT in
  if bn <? NINDIRECT then
    let! addr := bmap_slot ip NDIRECT in
    let! p := get_inode ip in
    let! bp := bread_ (idev p) addr in
    let! x := data_ bp in
    let! addr :=
      (if get32 x (4 * bn) =? 0 then
         let! a := balloc (idev p) in
         set_ bp (put32 x (4 * bn) a) ;;
         log_write_ bp ;;
         ret a
       else ret (get32 x (4 * bn))) in
    brelse_ bp ;;
    ret addr
  else panic "bmap: out of range".

Definition itrunc (ip : nat) : M fs_t unit :=
  for_each (seqZ 0 NDIRECT) (fun i =>
    let! p := get_inode ip in
    if truth (addr_at p i) then
      bfree (idev p) (addr_at p i) ;;
      upd_inode ip (set_addr i 0)
    else ret tt) ;;
  let! p := get_inode ip in
  (if truth (addr_at p NDIRECT) then
     let! bp := bread_ (idev p) (addr_at p NDIRECT) in
     let! x := data_ bp in
     for_each (seqZ 0 NINDIRECT) (fun j =>
       if truth (get32 x (4 * j)) then bfree (idev p) (get32 x (4 * j)) else ret tt) ;;
     brelse_ bp ;;
     bfree (idev p) (addr_at p NDIRECT) ;;
     upd_inode ip (set_addr NDIRECT 0)
   else ret tt) ;;
  upd_inode ip (set_isize 0) ;;
  iupdate ip.

Definition iput (ip : nat) : M fs_t unit :=
  ic_acquire ;;
  let! p := get_inode ip in
  (if (iref p =? 1) && truth (ivalid p) && (nlink p =? 0) then
     on_ilock ip (acquiresleep me) ;;
     ic_release ;;
     itrunc ip ;;
     upd_inode ip (set_itype 0) ;;
     iupdate ip ;;
     upd_inode ip (set_ivalid 0) ;;
     on_ilock ip releasesleep ;;
     ic_acquire
   else ret tt) ;;
  upd_inode ip (fun p => set_iref (iref p - 1) p) ;;
  ic_release.

Definition iunlockput (ip : nat) : M fs_t unit :=
  iunlock ip ;;
  iput ip.

Definition stati (ip : nat) : M fs_t stat :=
  let! p := get_inode ip in
  ret (Stat (idev p) (inum p) (itype p) (nlink p) (isize p)).

(** The loop of [readi]; the value is [tot] when it ends. *)
Fixpoint readi_loop (fuel : nat) (ip : nat) (user_dst dst off n tot : Z) : M fs_t Z :=
  if negb (tot <? n) then ret tot else
  match fuel with
  | O => nofuel
  | S fuel' =>
      let! p := get_inode ip in
      let! a := bmap ip (off / BSIZE) in
      let! bp := bread_ (idev p) a in
      let m := Z.min (n - tot) (BSIZE - off mod BSIZE) in
      let! x := data_ bp in
      let! r := on_um (either_copyout user_dst dst (bytes_at x (off mod BSIZE) m)) in
      if r =? -1 then brelse_ bp ;; ret tot
      else
        brelse_ bp ;;
        readi_loop fuel' ip user_dst (wrap64 (dst + m)) (wrap32 (off + m)) n (wrap32 (tot + m))
  end.
(** Blocks that [n] bytes can touch. *)
Definition rw_fuel (n : Z) : nat := Z.to_nat (n / BSIZE + 2).

Definition readi (ip : nat) (user_dst dst off n : Z) : M fs_t Z :=
  let! p := get_inode ip in
  if (isize p <? off) || (wrap32 (off + n) <? off) then ret 0 else
  let n := if isize p <? wrap32 (off + n) then isize p - off else n in
  let! tot := readi_loop (rw_fuel n) ip user_dst dst off n 0 in
  ret (s32 tot).

(** The loop of [writei]; the value is [off] when it ends. *)
Fixpoint writei_loop (fuel : nat) (ip : nat) (user_src src off n tot : Z) : M fs_t Z :=
  if negb (tot <? n) then ret off else
  match fuel with
  | O => nofuel
  | S fuel' =>
      let! p := get_inode ip in
      let! a := bmap ip (off / BSIZE) in
      let! bp := bread_ (idev p) a in
      let m := Z.min (n - tot) (BSIZE - off mod BSIZE) in
      let! x := data_ bp in
      let! (r, bs) := on_um (either_copyin (bytes_at x (off mod BSIZE) m) user_src src m) in
      set_ bp (splice x (off mod BSIZE) bs) ;;
      if r =? -1 then brelse_ bp ;; ret off
      else
        log_write_ bp ;;
        brelse_ bp ;;
        writei_loop fuel' ip user_src (wrap64 (src + m)) (wrap32 (off + m)) n (wrap32 (tot + m))
  end.

Definition writei (ip : nat) (user_src src off n : Z) : M fs_t Z :=
  let! p := get_inode ip in
  if (isize p <? off) || (wrap32 (off + n) <? off) then ret (-1) else
  if MAXFILE * BSIZE <? wrap32 (off + n) then ret (-1) else
  let! off := writei_loop (rw_fuel n) ip user_src src off n 0 in
  (if 0 <? n then
     let! p := get_inode ip in
     (if isize p <? off then upd_inode ip (set_isize off) else ret tt) ;;
     iupdate ip
   else ret tt) ;;
  ret (s32 n).

(** *** Directories *)

Context (de_addr : Z).

Definition de_inum (de : list Z) : Z := get16 de 0.
Definition de_name (de : list Z) : list Z := drop 2 de.

(** [readi(dp, 0, (uint64)&de, off, sizeof(de))] and the value of [de]. *)
Definition read_de (dp : nat) (off : Z) (msg : string) : M fs_t (list Z) :=
  let! r := readi dp 0 de_addr off DIRENT in
  if negb (r =? DIRENT) then panic msg else on_um (kread de_addr (Z.to_nat DIRENT)).

Fixpoint dirlookup_loop (fuel : nat) (dp : nat) (name : list Z) (off : Z) : M fs_t (option (nat * Z)) :=
  let! p := get_inode dp in
  if negb (off <? isize p) then ret None else
  match fuel with
  | O => nofuel
  | S fuel' =>
      let! de := read_de dp off "dirlookup read" in
      if de_inum de =? 0 then dirlookup_loop fuel' dp name (wrap32 (off + DIRENT))
      else if namecmp name (de_name de) =? 0 then
        let! ip := iget (idev p) (de_inum de) in
        ret (Some (ip, off))
      else dirlookup_loop fuel' dp name (wrap32 (off + DIRENT))
  end.
Definition dir_fuel (size : Z) : nat := Z.to_nat (size / DIRENT + 1).

(** The second component is the value stored through [poff]. *)
Definition dirlookup (dp : nat) (name : list Z) : M fs_t (option (nat * Z)) :=
  let! p := get_inode dp in
  if negb (itype p =? T_DIR) then panic "dirlookup not DIR" else
  dirlookup_loop (dir_fuel (isize p)) dp name 0.

(** The offset of the first free entry, or the end of the directory. *)
Fixpoint dirlink_loop (fuel : nat) (dp : nat) (off : Z) : M fs_t Z :=
  let! p := get_inode dp in
  if negb (off <? isize p) then ret off else
  match fuel with
  | O => nofuel
  | S fuel' =>
      let! de := read_de dp off "dirlink read" in
      if de_inum de =? 0 then ret off else dirlink_loop fuel' dp (off + DIRENT)
  end.

Definition mk_dirent (name : list Z) (inum : Z) : list Z :=
  put16 [0; 0] 0 inum ++ strncpy_l (Z.to_nat DIRSIZ) name.

Definition dirlink (dp : nat) (name : list Z) (inum : Z) : M fs_t Z :=
  let! r := dirlookup dp name in
  match r with
  | Some (ip, _) => iput ip ;; ret (-1)
  | None =>
      let! p := get_inode dp in
      let! off := dirlink_loop (dir_fuel (isize p)) dp 0 in
      on_um (kwrite de_addr (mk_dirent name inum)) ;;
      let! r := writei dp 0 de_addr off DIRENT in
      if negb (r =? DIRENT) then panic "dirlink" else ret 0
  end.

(** *** Paths *)

(** The loop of [namex]; [name] is the caller's array. *)
Fixpoint namex_loop (fuel : nat) (ip : nat) (path : list Z) (nameiparent : bool) (name : list Z)
    : M fs_t (option nat * list Z) :=
  match skipelem path name with
  | None =>
      if nameiparent then iput ip ;; ret (None, name) else ret (Some ip, name)
  | Some (name, path) =>
      match fuel with
      | O => nofuel
      | S fuel' =>
          ilock ip ;;
          let! p := get_inode ip in
          if negb (itype p =? T_DIR) then iunlockput ip ;; ret (None, name)
          else if nameiparent && (hd0 path =? 0) then iunlock ip ;; ret (Some ip, name)
          else
            let! next := dirlookup ip name in
            match next with
            | None => iunlockput ip ;; ret (None, name)
            | Some (next, _) => iunlockput ip ;; namex_loop fuel' next path nameiparent name
            end
      end
  end.

(** [cwd] is [myproc()->cwd]. *)
Definition namex (cwd : nat) (path : list Z) (nameiparent : bool) (name : list Z) : M fs_t (option nat * list Z) :=
  let! ip := (if hd0 path =? SLASH then iget ROOTDEV ROOTINO else idup cwd) in
  namex_loop (S (length path)) ip path nameiparent name.

Definition namei (cwd : nat) (path : list Z) : M fs_t (option nat) :=
  let! r := namex cwd path false (replicate (Z.to_nat DIRSIZ) 0) in
  ret (fst r).
Definition nameiparent (cwd : nat) (path name : list Z) : M fs_t (option nat * list Z) :=
  namex cwd path true name.
End fs.
Arguments fs_t T U : clear implicits.
