(* ===== verification/FsBlock.v ===== *)
(** * Block allocation (kernel/fs.c: bzero, balloc, bfree)

    The bitmap as a predicate [used] on block numbers, the routines on single
    blocks lifted to the file-system state, and the effect of [balloc] and
    [bfree]. *)

From S2P Require Import Prelude Spinlock Sleeplock Block BlockCache Log Tx CopyIO Fs.

(** ** Bits *)

Lemma bit_set_spec d bi : 0 <= bi -> bit_set d bi = Z.testbit (get8 d (bi / 8)) (bi mod 8).
Proof.
  intros H. unfold bit_set, bit_mask. rewrite Z.shiftl_1_l. apply truth_land_pow2. apply Z.mod_pos_bound. lia.
Qed.

Lemma lor_byte x k : byte_ok x -> 0 <= k < 8 -> byte_ok (Z.lor x (2^k)).
Proof.
  unfold byte_ok. intros Hx Hk. assert (0 <= Z.lor x (2^k)) by (apply Z.lor_nonneg; lia). split; [done|].
  change 256 with (2^8). apply bits_bound; [lia|done|]. intros i Hi. rewrite Z.lor_spec.
  rewrite (testbit_above x i 8) by lia. rewrite Z.pow2_bits_false by lia. done.
Qed.

Lemma set_bit_spec d bi bj :
  blk_wf d -> 0 <= bi < BPB -> 0 <= bj < BPB -> bit_set (set_bit d bi) bj = (bi =? bj) || bit_set d bj.
Proof.
  intros [Hl Hd] Hi Hj. unfold BPB, BSIZE in *. rewrite !bit_set_spec by lia. unfold set_bit, bit_mask. rewrite Z.shiftl_1_l.
  pose proof (Z.mod_pos_bound bi 8 ltac:(lia)). pose proof (Z.mod_pos_bound bj 8 ltac:(lia)).
  destruct (decide (bi / 8 = bj / 8)) as [E|E].
  - rewrite <- E. rewrite get8_put8_eq by (rewrite Hl; dlia). rewrite wrap8_small.
    2:{ apply lor_byte; [by apply get8_ok|done]. }
    rewrite Z.lor_spec, orb_comm. f_equal. rewrite Z.pow2_bits_eqb by lia.
    destruct (Z.eqb_spec bi bj) as [->|Hne]; [apply Z.eqb_refl|]. apply Z.eqb_neq. dlia.
  - rewrite get8_put8_ne by (try done; dlia). replace (bi =? bj) with false by (bool_goal; by intros ->). done.
Qed.

Lemma clear_bit_spec d bi bj :
  blk_wf d -> 0 <= bi < BPB -> 0 <= bj < BPB -> bit_set (clear_bit d bi) bj = negb (bi =? bj) && bit_set d bj.
Proof.
  intros [Hl Hd] Hi Hj. unfold BPB, BSIZE in *. rewrite !bit_set_spec by lia. unfold clear_bit, bit_mask. rewrite Z.shiftl_1_l.
  pose proof (Z.mod_pos_bound bi 8 ltac:(lia)). pose proof (Z.mod_pos_bound bj 8 ltac:(lia)).
  destruct (decide (bi / 8 = bj / 8)) as [E|E].
  - rewrite <- E. rewrite get8_put8_eq by (rewrite Hl; dlia). rewrite wrap8_small.
    2:{ change (2^8) with 256. apply (land_range _ _ 8); [lia|]. by apply get8_ok. }
    rewrite Z.land_spec, Z.lnot_spec, andb_comm by lia. f_equal. f_equal. rewrite Z.pow2_bits_eqb by lia.
    destruct (Z.eqb_spec bi bj) as [->|Hne]; [apply Z.eqb_refl|]. apply Z.eqb_neq. dlia.
  - rewrite get8_put8_ne by (try done; dlia). replace (bi =? bj) with false by (bool_goal; by intros ->). done.
Qed.

Lemma set_bit_wf d bi : blk_wf d -> blk_wf (set_bit d bi).
Proof. intros [Hl Hd]. split; [unfold set_bit; by rewrite length_put8|by apply put8_ok]. Qed.
Lemma clear_bit_wf d bi : blk_wf d -> blk_wf (clear_bit d bi).
Proof. intros [Hl Hd]. split; [unfold clear_bit; by rewrite length_put8|by apply put8_ok]. Qed.

Lemma balloc_scan_spec k : forall bi b size d,
  match balloc_scan k bi b size d with
  | Some x => bi <= x < bi + Z.of_nat k /\ b + x < size /\ bit_set d x = false /\
              (forall y, bi <= y < x -> bit_set d y = true)
  | None => forall y, bi <= y < bi + Z.of_nat k -> b + y < size -> bit_set d y = true
  end.
Proof.
  induction k as [|k IH]; intros bi b size d; cbn [balloc_scan]; [intros; lia|].
  destruct (b + bi <? size) eqn:E1; b2p; cbn [negb]; [|intros; lia].
  destruct (bit_set d bi) eqn:E2; cbn [negb].
  - specialize (IH (bi + 1) b size d). destruct (balloc_scan k (bi + 1) b size d) as [x|].
    + destruct IH as (? & ? & ? & IH). splits; try lia; [done|]. intros y Hy.
      destruct (decide (y = bi)) as [->|]; [done|]. apply IH. lia.
    + intros y Hy Hs. destruct (decide (y = bi)) as [->|]; [done|]. apply IH; lia.
  - splits; (lia || done).
Qed.

(** ** The layout of the disk *)

Definition dstart (s : superblock) : Z := bmapstart s + sb_size s / BPB + 1.

(** The areas follow each other: log, inodes, bitmap, data. *)
Definition layout (s : superblock) (st : Z) : Prop :=
  1 < st /\ st + LOGSIZE <= inodestart s /\ 0 < ninodes s < 2^16 /\ inodestart s + ninodes s / IPB + 1 <= bmapstart s /\
  dstart s <= sb_size s < 2^31.

Definition used (s : superblock) (f : Z -> blk) (b : Z) : bool := bit_set (f (BBLOCK b s)) (b mod BPB).

Lemma BBLOCK_range s st b : layout s st -> 0 <= b < sb_size s ->
  BBLOCK b s = b / BPB + bmapstart s /\ bmapstart s <= BBLOCK b s < dstart s.
Proof.
  intros (? & ? & ? & ? & ? & ?) Hb. unfold BBLOCK, dstart, IPB, DINODE, BPB, BSIZE, LOGSIZE, MAXOPBLOCKS in *.
  change (1024 * 8) with 8192 in *. change (1024 / 64) with 16 in *. assert (b / 8192 <= sb_size s / 8192) by (apply Z.div_le_mono; lia).
  assert (0 <= b / 8192) by (apply Z.div_pos; lia). change (1024 / 64) with 16 in *. assert (0 <= ninodes s / 16) by (apply Z.div_pos; lia).
  rewrite wrap32_small by lia. lia.
Qed.

Lemma layout_home s st a b : layout s st -> ast a = st -> inodestart s <= b < sb_size s -> home_block a b.
Proof.
  intros (? & ? & ? & ? & ? & ?) <- Hb. unfold home_block, LOGSIZE, MAXOPBLOCKS in *. lia.
Qed.

Lemma layout_order s st : layout s st ->
  0 < inodestart s /\ inodestart s < bmapstart s /\ bmapstart s < dstart s /\ dstart s <= sb_size s /\ sb_size s < 2^31.
Proof.
  intros (? & ? & ? & ? & ? & ?). unfold dstart, IPB, DINODE, BPB, BSIZE, LOGSIZE, MAXOPBLOCKS in *.
  change (1024 / 64) with 16 in *. assert (0 <= ninodes s / 16) by (apply Z.div_pos; lia).
  assert (0 <= sb_size s / (1024 * 8)); [|lia].
  destruct (decide (0 <= sb_size s)); [apply Z.div_pos; lia|].
  exfalso. change (1024*8) with 8192 in *. assert (sb_size s / 8192 >= sb_size s) by dlia. lia.
Qed.

(** ** Lifting to the file-system state *)

Definition t_upd (b : Z) (d : blk) (a : atx) : atx :=
  ATx (<[b := d]> (av a)) ({[ b ]} ∪ alog a) (adirty a ∖ {[ b ]}) (aheld a) (acap a) (ast a) (aops a).

Lemma t_drop_hold i b a : aheld a !! i = None -> t_drop i (t_hold i b a) = a.
Proof. intros H. destruct a. unfold t_drop, t_hold. simpl in *. f_equal. by apply delete_insert_id. Qed.

Lemma t_upd_seq i b d a : aheld a !! i = None -> t_drop i (t_logged b (t_put b d (t_hold i b a))) = t_upd b d a.
Proof.
  intros H. unfold t_drop, t_logged, t_put, t_hold, t_upd. simpl. f_equal; [set_solver|]. by apply delete_insert_id.
Qed.

Section fsblock.
Context {dev : Z} {T U : Type} `{!Tx dev T} `{!CopyIO U}.
Implicit Types (s : fs_t T U) (a : atx).

Lemma wp_on_tx {A} (c : M T A) (Q : A -> fs_t T U -> Prop) s :
  wp c (fun x t => Q x (set_txs t s)) (txs s) -> wp (on_tx c) Q s.
Proof. apply wp_zoom. Qed.

Lemma wp_on_um {A} (c : M U A) (Q : A -> fs_t T U -> Prop) s :
  wp c (fun x u => Q x (set_um u s)) (um s) -> wp (on_um c) Q s.
Proof. apply wp_zoom. Qed.

(** No locked buffer for [b], and a buffer available. *)
Definition can_read (a : atx) (b : Z) : Prop :=
  home_block a b /\ (forall i, aheld a !! i <> Some b) /\ (size (alog a) + size (aheld a) < Z.to_nat NBUF)%nat.

Lemma wp_bread s a b (Q : nat -> fs_t T U -> Prop) :
  tx_rep (txs s) a -> can_read a b ->
  (forall i t, aheld a !! i = None -> tx_rep t (t_hold i b a) -> Q i (set_txs t s)) -> wp (bread_ dev b) Q s.
Proof. intros H (Hb & Hn & Hr) HQ. apply wp_on_tx. eapply tx_bread_law; [done..|]. eauto. Qed.

Lemma wp_data s a i b (Q : blk -> fs_t T U -> Prop) :
  tx_rep (txs s) a -> aheld a !! i = Some b -> Q (av a b) s -> wp (data_ i) Q s.
Proof. intros H Hi HQ. apply wp_on_tx. eapply tx_data_law; [done..|]. by destruct s. Qed.

Lemma wp_brelse s a i b (Q : unit -> fs_t T U -> Prop) :
  tx_rep (txs s) (t_hold i b a) -> aheld a !! i = None -> b ∉ adirty a ->
  (forall t, tx_rep t a -> Q tt (set_txs t s)) -> wp (brelse_ i) Q s.
Proof.
  intros H Hi Hd HQ. apply wp_on_tx. eapply tx_brelse_law; [done|apply lookup_insert_eq|done|].
  intros t Ht. rewrite t_drop_hold in Ht by done. eauto.
Qed.

(** [bp->data] is replaced, logged and released. *)
Lemma wp_update s a i b d (Q : unit -> fs_t T U -> Prop) :
  tx_rep (txs s) (t_hold i b a) -> aheld a !! i = None -> home_block a b ->
  (size (alog a) < acap a)%nat -> 1 <= aops a ->
  (forall t, tx_rep t (t_upd b d a) -> Q tt (set_txs t s)) ->
  wp (set_ i d ;; log_write_ i ;; brelse_ i) Q s.
Proof.
  intros H Hi Hb Hr Ho HQ. apply wp_bind, wp_on_tx. eapply tx_set_law; [done|apply lookup_insert_eq|]. intros t1 H1.
  apply wp_bind, wp_on_tx. eapply (tx_log_write_law _ _ i b); [exact H1|apply lookup_insert_eq|done|done|done|]. intros t2 H2.
  apply wp_on_tx. eapply (tx_brelse_law _ _ i b); [exact H2|apply lookup_insert_eq|cbn; set_solver|]. intros t3 H3.
  rewrite t_upd_seq in H3 by done. apply (HQ t3 H3).
Qed.

Lemma wp_bzero s a b (Q : unit -> fs_t T U -> Prop) :
  tx_rep (txs s) a -> can_read a b -> (size (alog a) < acap a)%nat -> 1 <= aops a ->
  (forall t, tx_rep t (t_upd b zero_blk a) -> Q tt (set_txs t s)) -> wp (bzero dev b) Q s.
Proof.
  intros H Hc Hr Ho HQ. unfold bzero. apply wp_bind. eapply wp_bread; [done..|]. intros i t Hi Ht.
  eapply (wp_update _ a); [exact Ht|done|apply Hc|done|done|]. intros t' Ht'. apply (HQ t' Ht').
Qed.

Definition meta_used (sb : superblock) (f : Z -> blk) : Prop := forall b, 0 <= b < dstart sb -> used sb f b = true.
(** At most one buffer is locked, that of an allocated data block. *)
Definition held_data (sb : superblock) (a : atx) : Prop :=
  (size (aheld a) <= 1)%nat /\
  (forall i x, aheld a !! i = Some x -> dstart sb <= x < sb_size sb /\ used sb (av a) x = true).

Definition t_alloc (sb : superblock) (b : Z) (a : atx) : atx :=
  t_upd b zero_blk (t_upd (BBLOCK b sb) (set_bit (av a (BBLOCK b sb)) (b mod BPB)) a).

Lemma bitmap_readable s a b :
  tx_rep (txs s) a -> layout (sb s) (ast a) -> held_data (sb s) a -> (size (alog a) < acap a)%nat ->
  0 <= b < sb_size (sb s) -> can_read a (BBLOCK b (sb s)).
Proof.
  intros H Hl [Hh1 Hh2] Hr Hb. destruct (BBLOCK_range _ _ b Hl Hb) as [_ ?]. pose proof (layout_order _ _ Hl) as (? & ? & ? & ? & ?).
  split; [|split].
  - eapply layout_home; [done|done|]. lia.
  - intros i Hi. apply Hh2 in Hi. lia.
  - pose proof (tx_cap_law _ _ H). lia.
Qed.

Lemma wp_balloc_step s a b bi (Q : Z -> fs_t T U -> Prop) i t :
  tx_rep (txs s) a -> tx_rep t (t_hold i (BBLOCK b (sb s)) a) -> aheld a !! i = None ->
  layout (sb s) (ast a) -> meta_used (sb s) (av a) -> held_data (sb s) a ->
  (size (alog a) + 1 < acap a)%nat -> 1 <= aops a ->
  0 <= bi < BPB -> b mod BPB = 0 -> 0 <= b -> b + bi < sb_size (sb s) -> used (sb s) (av a) (b + bi) = false ->
  (forall t', dstart (sb s) <= b + bi -> tx_rep t' (t_alloc (sb s) (b + bi) a) -> Q (b + bi) (set_txs t' s)) ->
  wp (set_ i (set_bit (av a (BBLOCK b (sb s))) bi) ;; log_write_ i ;; brelse_ i ;; bzero dev (b + bi) ;; ret (b + bi)) Q (set_txs t s).
Proof.
  intros H Ht Hi Hl Hm Hh Hr Ho Hbi Hb0 Hbn Hlt Hfree HQ.
  assert (BBLOCK (b + bi) (sb s) = BBLOCK b (sb s) /\ (b + bi) mod BPB = bi) as [Eb Em].
  { unfold BBLOCK. unfold BPB, BSIZE in *. split; [do 2 f_equal|]; dlia. }
  destruct (BBLOCK_range _ _ (b + bi) Hl ltac:(lia)) as [_ Hbb]. pose proof (layout_order _ _ Hl) as (? & ? & ? & ? & ?).
  assert (dstart (sb s) <= b + bi) as Hd.
  { destruct (decide (dstart (sb s) <= b + bi)); [done|]. rewrite Hm in Hfree by lia. done. }
  apply wp_eq with (c' := ((set_ i (set_bit (av a (BBLOCK b (sb s))) bi) ;; log_write_ i ;; brelse_ i) ;;
     bzero dev (b + bi) ;; ret (b + bi))).
  { rewrite !bind_assoc. apply bind_ext. intros [] s1. rewrite !bind_assoc. done. }
  apply wp_bind. eapply (wp_update _ a); [exact Ht|done| |lia|done|].
  { eapply layout_home; [done|done|]. lia. }
  intros t1 Ht1. change (set_txs t1 (set_txs t s)) with (set_txs t1 s) in *. set (a1 := t_upd _ _ a) in *.
  assert (size (alog a1) <= size (alog a) + 1)%nat as Hs1.
  { unfold a1. cbn. rewrite size_union_alt, size_singleton.
    assert (size (alog a ∖ {[ BBLOCK b (sb s) ]}) <= size (alog a))%nat by (apply subseteq_size; set_solver). lia. }
  apply wp_bind. eapply (wp_bzero _ a1); [exact Ht1| |cbn in *; lia|done|].
  - destruct Hh as [Hh1 Hh2]. split; [|split].
    + eapply layout_home; [done|done|]. lia.
    + intros j Hj. cbn in Hj. apply Hh2 in Hj as [_ Hj]. congruence.
    + pose proof (tx_cap_law _ _ H). change (aheld a1) with (aheld a). lia.
  - intros t2 Ht2. apply wp_ret. apply (HQ t2 Hd). unfold t_alloc. rewrite Eb, Em. exact Ht2.
Qed.

Lemma wp_balloc_loop n : forall s a k (Q : Z -> fs_t T U -> Prop),
  tx_rep (txs s) a -> layout (sb s) (ast a) -> meta_used (sb s) (av a) -> held_data (sb s) a ->
  adirty a = ∅ -> (size (alog a) + 1 < acap a)%nat -> 1 <= aops a -> 0 <= k ->
  k + Z.of_nat n = (sb_size (sb s) + BPB - 1) / BPB ->
  (exists b, k * BPB <= b < sb_size (sb s) /\ used (sb s) (av a) b = false) ->
  (forall b t, dstart (sb s) <= b < sb_size (sb s) -> used (sb s) (av a) b = false ->
     (forall b', k * BPB <= b' < b -> used (sb s) (av a) b' = true) ->
     tx_rep t (t_alloc (sb s) b a) -> Q b (set_txs t s)) ->
  wp (balloc_loop ((fun k => k * BPB) <$> seqZ k (Z.of_nat n)) dev) Q s.
Proof.
  induction n as [|n IH]; intros s a k Q H Hl Hm Hh Hd Hr Ho Hk Hn (b0 & Hb0 & Hf0) HQ.
  { exfalso. unfold BPB, BSIZE in *. change (1024*8) with 8192 in *. dlia. }
  assert (0 < BPB) by done.
  rewrite seqZ_cons by lia. cbn [fmap list_fmap balloc_loop]. apply wp_bind, wp_gets.
  assert (0 <= k * BPB < sb_size (sb s)) as Hkb by (unfold BPB, BSIZE in *; change (1024*8) with 8192 in *; dlia).
  apply wp_bind. eapply wp_bread; [exact H|eapply bitmap_readable; try done; lia|]. intros i t Hi Ht.
  apply wp_bind. eapply wp_data; [exact Ht|apply lookup_insert_eq|]. cbn [av t_hold].
  assert (forall y, 0 <= y < BPB -> used (sb s) (av a) (k * BPB + y) = bit_set (av a (BBLOCK (k * BPB) (sb s))) y) as Hu.
  { intros y Hy. unfold used, BBLOCK. rewrite Z.div_add_l, (Z.add_comm (k * BPB) y), Z.mod_add, Z.mod_small by lia.
    rewrite (Z.div_small y), Z.add_0_r, Z.div_mul by lia. done. }
  pose proof (balloc_scan_spec (Z.to_nat BPB) 0 (k * BPB) (sb_size (sb s)) (av a (BBLOCK (k * BPB) (sb s)))) as Hscan.
  destruct (balloc_scan _ _ _ _ _) as [bi|].
  - destruct Hscan as (Hbi & Hlt & Hclr & Hset). assert (0 <= bi < BPB) as Hbi' by (unfold BPB, BSIZE in *; lia).
    eapply wp_balloc_step; try done; [by apply Z.mod_mul|lia|by rewrite Hu|].
    intros t' Hge Ht'. apply HQ; [lia|by rewrite Hu| |done]. intros b' Hb'. replace b' with (k * BPB + (b' - k * BPB)) by lia.
    rewrite Hu by lia. apply Hset. lia.
  - apply wp_bind. eapply wp_brelse; [exact Ht|done|rewrite Hd; set_solver|]. intros t' Ht'.
    change (set_txs t' (set_txs t s)) with (set_txs t' s). replace (Z.pred (Z.of_nat (S n))) with (Z.of_nat n) by lia.
    change (Z.succ k) with (k + 1).
    assert (forall b', k * BPB <= b' < (k + 1) * BPB -> b' < sb_size (sb s) -> used (sb s) (av a) b' = true) as Hfull.
    { intros b' Hb' Hs'. replace b' with (k * BPB + (b' - k * BPB)) by lia. rewrite Hu by lia. apply Hscan; lia. }
    eapply (IH _ a (k + 1)); try done; [lia|cbn [sb set_txs]; lia| |].
    + cbn [sb set_txs]. exists b0. split; [|done]. split; [|lia]. destruct (decide ((k + 1) * BPB <= b0)); [done|].
      rewrite Hfull in Hf0 by lia. done.
    + cbn [sb set_txs]. intros b t2 Hb Hfb Hlow Ht2. apply HQ; [done|done| |done]. intros b' Hb'.
      destruct (decide (b' < (k + 1) * BPB)); [apply Hfull; lia|apply Hlow; lia].
Qed.

(** [balloc] takes the first free block. *)
Lemma wp_balloc s a (Q : Z -> fs_t T U -> Prop) :
  tx_rep (txs s) a -> layout (sb s) (ast a) -> meta_used (sb s) (av a) -> held_data (sb s) a ->
  adirty a = ∅ -> (size (alog a) + 1 < acap a)%nat -> 1 <= aops a ->
  (exists b, 0 <= b < sb_size (sb s) /\ used (sb s) (av a) b = false) ->
  (forall b t, dstart (sb s) <= b < sb_size (sb s) -> used (sb s) (av a) b = false ->
     (forall b', 0 <= b' < b -> used (sb s) (av a) b' = true) ->
     tx_rep t (t_alloc (sb s) b a) -> Q b (set_txs t s)) ->
  wp (balloc dev) Q s.
Proof.
  intros H Hl Hm Hh Hd Hr Ho Hfree HQ. unfold balloc. apply wp_bind, wp_gets.
  pose proof (layout_order _ _ Hl) as (? & ? & ? & ? & ?).
  assert (0 <= (sb_size (sb s) + BPB - 1) / BPB) by (apply Z.div_pos; [unfold BPB, BSIZE; lia|done]).
  rewrite <- (Z2Nat.id ((sb_size (sb s) + BPB - 1) / BPB)) by done.
  eapply (wp_balloc_loop _ s a 0); try done; lia.
Qed.

(** [bfree] clears the bit of an allocated block. *)
Definition t_free (sb : superblock) (b : Z) (a : atx) : atx :=
  t_upd (BBLOCK b sb) (clear_bit (av a (BBLOCK b sb)) (b mod BPB)) a.

Lemma wp_bfree s a b (Q : unit -> fs_t T U -> Prop) :
  tx_rep (txs s) a -> can_read a (BBLOCK b (sb s)) -> used (sb s) (av a) b = true ->
  (size (alog a) < acap a)%nat -> 1 <= aops a ->
  (forall t, tx_rep t (t_free (sb s) b a) -> Q tt (set_txs t s)) -> wp (bfree dev b) Q s.
Proof.
  intros H Hc Hu Hr Ho HQ. unfold bfree. apply wp_bind, wp_gets. apply wp_bind. eapply wp_bread; [done..|]. intros i t Hi Ht.
  apply wp_bind. eapply wp_data; [exact Ht|apply lookup_insert_eq|]. cbn [av t_hold]. unfold used in Hu. rewrite Hu. cbn [negb].
  eapply (wp_update _ a); [exact Ht|done|apply Hc|done|done|]. intros t' Ht'. apply (HQ t' Ht').
Qed.
End fsblock.

(** ** The bitmap after an allocation and a release *)

Lemma used_other sb f b d x : BBLOCK x sb <> b -> used sb (<[b := d]> f) x = used sb f x.
Proof. intros H. unfold used. by rewrite fn_lookup_insert_ne. Qed.

Lemma used_alloc sb st a b x :
  layout sb st -> (forall n, blk_wf (av a n)) -> dstart sb <= b < sb_size sb -> 0 <= x < sb_size sb ->
  used sb (av (t_alloc sb b a)) x = (b =? x) || used sb (av a) x.
Proof.
  intros Hl Hwf Hb Hx. pose proof (layout_order _ _ Hl) as (? & ? & ? & ? & ?). assert (0 < BPB) by done.
  destruct (BBLOCK_range _ _ x Hl Hx) as [Ex Hxr]. destruct (BBLOCK_range _ _ b Hl ltac:(lia)) as [Eb Hbr].
  unfold t_alloc. cbn [av t_upd]. rewrite used_other by lia. unfold used.
  destruct (decide (BBLOCK x sb = BBLOCK b sb)) as [E|E].
  - rewrite E, fn_lookup_insert, set_bit_spec by (try apply Z.mod_pos_bound; done). f_equal.
    rewrite Ex, Eb in E. pose proof (Z.div_mod x BPB). pose proof (Z.div_mod b BPB). replace (x / BPB) with (b / BPB) in * by lia.
    destruct (Z.eqb_spec b x) as [->|]; [apply Z.eqb_refl|]. apply Z.eqb_neq. lia.
  - rewrite fn_lookup_insert_ne by congruence. replace (b =? x) with false by (bool_goal; by intros ->). done.
Qed.

Lemma used_free sb st a b x :
  layout sb st -> (forall n, blk_wf (av a n)) -> 0 <= b < sb_size sb -> 0 <= x < sb_size sb ->
  used sb (av (t_free sb b a)) x = negb (b =? x) && used sb (av a) x.
Proof.
  intros Hl Hwf Hb Hx. assert (0 < BPB) by done.
  destruct (BBLOCK_range _ _ x Hl Hx) as [Ex Hxr]. destruct (BBLOCK_range _ _ b Hl ltac:(lia)) as [Eb Hbr].
  unfold t_free. cbn [av t_upd]. unfold used.
  destruct (decide (BBLOCK x sb = BBLOCK b sb)) as [E|E].
  - rewrite E, fn_lookup_insert, clear_bit_spec by (try apply Z.mod_pos_bound; done). do 2 f_equal.
    rewrite Ex, Eb in E. pose proof (Z.div_mod x BPB). pose proof (Z.div_mod b BPB). replace (x / BPB) with (b / BPB) in * by lia.
    destruct (Z.eqb_spec b x) as [->|]; [apply Z.eqb_refl|]. apply Z.eqb_neq. lia.
  - rewrite fn_lookup_insert_ne by congruence. replace (b =? x) with false by (bool_goal; by intros ->). done.
Qed.
