(* ===== verification/FsFile.v ===== *)
(** * Files as sequences of blocks (kernel/fs.c: bmap)

    An inode's thirteen addresses and its indirect block give 269 slots for
    block numbers.  [file_ok] says that the slots in use hold distinct
    allocated data blocks, [grown] relates a file before and after blocks were
    added to it.  [bmap] grows a file. *)

From S2P Require Import Prelude Spinlock Sleeplock Block BlockCache Log Tx CopyIO Fs FsBlock.

Definition lat (l : list Z) (i : Z) : Z := default 0 (l !! Z.to_nat i).
Definition NSLOT : Z := 13 + NINDIRECT.

(** The block number in slot [j]: the addresses, then the indirect block. *)
Definition slot (f : Z -> blk) (l : list Z) (j : Z) : Z :=
  if j <? 13 then lat l j else if lat l 12 =? 0 then 0 else get32 (f (lat l 12)) (4 * (j - 13)).

(** The slot of block [bn] of the file, its address and its contents. *)
Definition bslot (bn : Z) : Z := if bn <? NDIRECT then bn else bn + 1.
Definition faddr (f : Z -> blk) (l : list Z) (bn : Z) : Z := slot f l (bslot bn).
Definition content (f : Z -> blk) (l : list Z) (bn : Z) : blk :=
  if faddr f l bn =? 0 then zero_blk else f (faddr f l bn).

Record fs_ok (sb : superblock) (st : Z) (f : Z -> blk) : Prop := {
  fo_layout : layout sb st;
  fo_meta : meta_used sb f;
  fo_wf : forall b, blk_wf (f b);
}.

Record file_ok (sb : superblock) (f : Z -> blk) (l : list Z) : Prop := {
  fl_len : length l = 13%nat;
  fl_data : forall j, 0 <= j < NSLOT -> slot f l j <> 0 ->
    dstart sb <= slot f l j < sb_size sb /\ used sb f (slot f l j) = true;
  fl_inj : forall j j', 0 <= j < NSLOT -> 0 <= j' < NSLOT -> slot f l j <> 0 -> slot f l j = slot f l j' -> j = j';
}.

(** A block that does not belong to the file: in front of the bitmap, or a
    data block of something else. *)
Definition other_block (sb : superblock) (f : Z -> blk) (l : list Z) (b : Z) : Prop :=
  b < bmapstart sb \/
  dstart sb <= b < sb_size sb /\ used sb f b = true /\ forall j, 0 <= j < NSLOT -> slot f l j <> b.

(** The file keeps its blocks, may have taken free ones, and nothing else has
    changed. *)
Record evolved (sb : superblock) (f : Z -> blk) (l : list Z) (f' : Z -> blk) (l' : list Z) : Prop := {
  ev_ok : file_ok sb f' l';
  ev_keep : forall j, 0 <= j < NSLOT -> slot f l j <> 0 -> slot f' l' j = slot f l j;
  ev_new : forall j, 0 <= j < NSLOT -> slot f' l' j <> 0 -> slot f' l' j = slot f l j \/ used sb f (slot f' l' j) = false;
  ev_used : forall b, 0 <= b < sb_size sb -> used sb f b = true -> used sb f' b = true;
  ev_frame : forall b, other_block sb f l b -> f' b = f b;
}.

(** ... and its contents are the same. *)
Definition grown (sb : superblock) (f : Z -> blk) (l : list Z) (f' : Z -> blk) (l' : list Z) : Prop :=
  evolved sb f l f' l' /\ forall bn, 0 <= bn < MAXFILE -> content f' l' bn = content f l bn.

Lemma bslot_range bn : 0 <= bn < MAXFILE -> 0 <= bslot bn < NSLOT /\ bslot bn <> 12.
Proof. unfold bslot, NSLOT, MAXFILE, NDIRECT, NINDIRECT, BSIZE. change (1024 / 4) with 256. intros H. destruct (bn <? 12) eqn:E; b2p; lia. Qed.

Lemma bslot_inj bn bn' : 0 <= bn -> 0 <= bn' -> bslot bn = bslot bn' -> bn = bn'.
Proof. unfold bslot, NDIRECT. intros. destruct (bn <? 12) eqn:E, (bn' <? 12) eqn:E'; b2p; lia. Qed.

Lemma evolved_refl sb f l : file_ok sb f l -> evolved sb f l f l.
Proof. intros H. constructor; auto. Qed.

Lemma evolved_other sb f l f' l' b :
  0 < dstart sb -> evolved sb f l f' l' -> other_block sb f l b -> other_block sb f' l' b.
Proof.
  intros H0 G [Hb|(Hb & Hu & Hn)]; [by left|]. right. split; [done|]. split; [apply (ev_used _ _ _ _ _ G); [lia|done]|].
  intros j Hj E. destruct (ev_new _ _ _ _ _ G j Hj) as [E'|E'].
  - lia.
  - apply (Hn j Hj). congruence.
  - congruence.
Qed.

Lemma evolved_trans sb f l f1 l1 f2 l2 :
  0 < dstart sb -> evolved sb f l f1 l1 -> evolved sb f1 l1 f2 l2 -> evolved sb f l f2 l2.
Proof.
  intros H0 G1 G2. constructor.
  - apply (ev_ok _ _ _ _ _ G2).
  - intros j Hj Hnz. rewrite <- (ev_keep _ _ _ _ _ G1 j) by done. apply (ev_keep _ _ _ _ _ G2); [done|].
    by rewrite (ev_keep _ _ _ _ _ G1 j).
  - intros j Hj Hnz. destruct (ev_new _ _ _ _ _ G2 j Hj Hnz) as [E|E].
    + rewrite E in Hnz |- *. by apply (ev_new _ _ _ _ _ G1).
    + right. destruct (used sb f (slot f2 l2 j)) eqn:E'; [|done].
      rewrite (ev_used _ _ _ _ _ G1) in E; [done| |done].
      pose proof (fl_data _ _ _ (ev_ok _ _ _ _ _ G2) j Hj Hnz). lia.
  - intros b Hb Hu. apply (ev_used _ _ _ _ _ G2); [done|]. by apply (ev_used _ _ _ _ _ G1).
  - intros b Hb. rewrite (ev_frame _ _ _ _ _ G2) by (by eapply evolved_other). by apply (ev_frame _ _ _ _ _ G1).
Qed.

Lemma grown_trans sb f l f1 l1 f2 l2 :
  0 < dstart sb -> grown sb f l f1 l1 -> grown sb f1 l1 f2 l2 -> grown sb f l f2 l2.
Proof.
  intros H0 [E1 C1] [E2 C2]. split; [by eapply evolved_trans|]. intros bn Hbn. rewrite C2, C1 by done. done.
Qed.

(** One block [b] is added in slot [j0]. *)
Lemma grown_intro sb f l f' l' j0 b :
  0 <= bmapstart sb < dstart sb -> file_ok sb f l -> length l' = 13%nat ->
  0 <= j0 < NSLOT -> slot f l j0 = 0 -> dstart sb <= b < sb_size sb -> used sb f b = false ->
  (forall j, 0 <= j < NSLOT -> slot f' l' j = if decide (j = j0) then b else slot f l j) ->
  (forall x, 0 <= x < sb_size sb -> used sb f' x = (b =? x) || used sb f x) ->
  f' b = zero_blk ->
  (forall x, x <> b -> x < bmapstart sb \/ dstart sb <= x -> slot f l 12 = 0 \/ slot f l 12 <> x -> f' x = f x) ->
  grown sb f l f' l'.
Proof.
  intros Hbm [Hlen Hdata Hinj] Hlen' Hj0 Hs0 Hb Hfree Hslot Hused Hz Hsame.
  assert (0 <= 12 < NSLOT) by done.
  assert (forall j, 0 <= j < NSLOT -> slot f l j <> b) as Hnb.
  { intros j Hj E. destruct (Hdata j Hj) as [_ Hu]; [lia|]. congruence. }
  split; [constructor|].
  - constructor; [done| |].
    + intros j Hj Hnz. rewrite Hslot in * by done. case_decide; [split; [lia|]; rewrite Hused, Z.eqb_refl by lia; done|].
      destruct (Hdata j Hj Hnz) as [? Hu]. split; [done|]. rewrite Hused, Hu by lia. apply orb_true_r.
    + intros j j' Hj Hj' Hnz E. rewrite !Hslot in * by done. repeat case_decide; subst; try done.
      * by destruct (Hnb j' Hj').
      * by destruct (Hnb j Hj).
      * by apply Hinj.
  - intros j Hj Hnz. rewrite Hslot by done. case_decide; [congruence|done].
  - intros j Hj Hnz. rewrite Hslot in * by done. case_decide; [by right|by left].
  - intros x Hx Hu. rewrite Hused, Hu by done. apply orb_true_r.
  - intros x [Hx|(Hx & Hu & Hn)]; apply Hsame; try tauto; try lia; try congruence.
    + destruct (decide (slot f l 12 = 0)) as [E0|E0]; [by left|right]. destruct (Hdata 12) as [? _]; [done|done|lia].
    + right. by apply Hn.
  - intros bn Hbn. destruct (bslot_range bn Hbn) as [Hr Hn12]. unfold content, faddr. rewrite Hslot by done. case_decide as E.
    + subst j0. rewrite Hs0. simpl. replace (b =? 0) with false by (bool_goal; lia). done.
    + destruct (slot f l (bslot bn) =? 0) eqn:E0; [done|]. b2p. apply Hsame; [by apply Hnb|right; by apply Hdata|].
      right. intros E1. apply Hn12. symmetry. apply Hinj; [done|done|congruence|done].
Qed.

Lemma get8_zero o : get8 zero_blk o = 0.
Proof. unfold get8, zero_blk. destruct (replicate _ _ !! _) eqn:E; [|done]. by apply lookup_replicate in E as [-> _]. Qed.
Lemma get32_zero o : 0 <= o -> get32 zero_blk o = 0.
Proof. intros Ho. unfold get32. cbn [getn]. by rewrite !get8_zero. Qed.

Lemma lat_insert l i j x : length l = 13%nat -> 0 <= i < 13 -> 0 <= j -> lat (<[Z.to_nat i := x]> l) j = if decide (j = i) then x else lat l j.
Proof.
  intros Hl Hi Hj. unfold lat. case_decide as E.
  - subst. rewrite list_lookup_insert_eq by lia. done.
  - rewrite list_lookup_insert_ne by lia. done.
Qed.

Lemma fs_ok_alloc sb a b :
  fs_ok sb (ast a) (av a) -> dstart sb <= b < sb_size sb -> fs_ok sb (ast a) (av (t_alloc sb b a)).
Proof.
  intros [Hl Hm Hwf] Hb. pose proof (layout_order _ _ Hl) as (? & ? & ? & ? & ?). constructor; [done| |].
  - intros x Hx. rewrite (used_alloc sb (ast a)) by (done || lia). rewrite Hm by done. apply orb_true_r.
  - intros x. unfold t_alloc. cbn [av t_upd]. destruct (decide (x = b)) as [->|]; [rewrite fn_lookup_insert; auto with xv6|].
    rewrite fn_lookup_insert_ne by done. destruct (decide (x = BBLOCK b sb)) as [->|]; [rewrite fn_lookup_insert; by apply set_bit_wf|].
    by rewrite fn_lookup_insert_ne.
Qed.

Lemma alloc_same sb a b x :
  layout sb (ast a) -> dstart sb <= b < sb_size sb -> x <> b -> x < bmapstart sb \/ dstart sb <= x ->
  av (t_alloc sb b a) x = av a x.
Proof.
  intros Hl Hb Hne Hx. pose proof (layout_order _ _ Hl) as (? & ? & ? & ? & ?).
  destruct (BBLOCK_range _ _ b Hl ltac:(lia)) as [_ ?].
  unfold t_alloc. cbn [av t_upd]. rewrite !fn_lookup_insert_ne by lia. done.
Qed.

(** A new block in one of the inode's own slots. *)
Lemma grown_slot sb a l i b :
  fs_ok sb (ast a) (av a) -> file_ok sb (av a) l -> 0 <= i < 13 -> lat l i = 0 ->
  dstart sb <= b < sb_size sb -> used sb (av a) b = false ->
  grown sb (av a) l (av (t_alloc sb b a)) (<[Z.to_nat i := b]> l).
Proof.
  intros [Hl Hm Hwf] Hf Hi Hz Hb Hu. pose proof (layout_order _ _ Hl) as (? & ? & ? & ? & ?).
  pose proof Hf as [Hlen Hdata Hinj].
  assert (slot (av a) l i = 0) as Hs by (unfold slot; by replace (i <? 13) with true by (bool_goal; lia)).
  assert (av (t_alloc sb b a) b = zero_blk) as Hzb by apply fn_lookup_insert.
  eapply (grown_intro _ _ _ _ _ i b); try done; [lia|by rewrite length_insert|change NSLOT with 269; lia| | |].
  - intros j Hj. unfold slot. rewrite !lat_insert by lia. destruct (j <? 13) eqn:Ej; b2p; [done|].
    rewrite (decide_False (P := j = i)) by lia. case_decide as E12.
    + subst i. rewrite Hz. replace (b =? 0) with false by (bool_goal; lia). rewrite Hzb, get32_zero by lia. done.
    + destruct (lat l 12 =? 0) eqn:E0; [done|]. b2p. f_equal.
      assert (slot (av a) l 12 = lat l 12) as Hs12 by done. destruct (Hdata 12) as [? Hu12]; [done|by rewrite Hs12|].
      apply alloc_same; [done|done| |lia]. intros E. congruence.
  - intros x Hx. by apply (used_alloc sb (ast a)).
  - intros x Hx Hr _. by apply alloc_same.
Qed.

(** A new block in the indirect block. *)
Definition t_entry (sb : superblock) (l : list Z) (k b : Z) (a : atx) : atx :=
  t_upd (lat l 12) (put32 (av a (lat l 12)) (4 * k) b) (t_alloc sb b a).

Lemma grown_entry sb a l k b :
  fs_ok sb (ast a) (av a) -> file_ok sb (av a) l -> 0 <= k < NINDIRECT -> lat l 12 <> 0 -> slot (av a) l (13 + k) = 0 ->
  dstart sb <= b < sb_size sb -> used sb (av a) b = false ->
  grown sb (av a) l (av (t_entry sb l k b a)) l.
Proof.
  intros Hfs Hf Hk Hnz Hs Hb Hu. pose proof Hfs as [Hl Hm Hwf]. pose proof (layout_order _ _ Hl) as (? & ? & ? & ? & ?).
  pose proof Hf as [Hlen Hdata Hinj]. destruct (Hdata 12) as [Hr12 Hu12]; [done|done|]. change (slot (av a) l 12) with (lat l 12) in *.
  assert (lat l 12 <> b) by congruence. assert (NINDIRECT = 256) as E256 by done.
  assert (length (av a (lat l 12)) = 1024%nat) as Hlb by apply Hwf.
  eapply (grown_intro _ _ _ _ _ (13 + k) b); try done; [lia|unfold NSLOT; lia| | | |].
  - intros j Hj. unfold NSLOT in Hj. unfold slot. replace (lat l 12 =? 0) with false by (bool_goal; lia).
    destruct (j <? 13) eqn:Ej; b2p; [by rewrite decide_False by lia|].
    unfold t_entry. cbn [av t_upd]. rewrite fn_lookup_insert. case_decide as E.
    + subst j. replace (13 + k - 13) with k by lia. rewrite get32_put32_eq by lia. apply wrap32_small. lia.
    + apply get32_put32_ne; lia.
  - intros x Hx. unfold t_entry. destruct (BBLOCK_range _ _ x Hl Hx) as [_ ?].
    cbn [av]. unfold t_upd at 1. cbn [av]. rewrite used_other by lia. by apply (used_alloc sb (ast a)).
  - unfold t_entry. cbn [av t_upd]. rewrite fn_lookup_insert_ne by done. apply fn_lookup_insert.
  - intros x Hx Hr [E|E]; [done|]. change (slot (av a) l 12) with (lat l 12) in E. unfold t_entry.
    unfold t_upd at 1. cbn [av]. rewrite fn_lookup_insert_ne by done. by apply alloc_same.
Qed.

Lemma fs_ok_put sb st f b d :
  fs_ok sb st f -> blk_wf d -> b < bmapstart sb \/ dstart sb <= b -> fs_ok sb st (<[b := d]> f).
Proof.
  intros [Hl Hm Hwf] Hd Hb. pose proof (layout_order _ _ Hl) as (? & ? & ? & ? & ?). constructor; [done| |].
  - intros x Hx. destruct (BBLOCK_range _ _ x Hl ltac:(lia)) as [_ ?]. rewrite used_other by lia. by apply Hm.
  - intros x. destruct (decide (x = b)) as [->|]; [by rewrite fn_lookup_insert|by rewrite fn_lookup_insert_ne].
Qed.

Lemma fs_ok_entry sb a l k b :
  fs_ok sb (ast a) (av a) -> file_ok sb (av a) l -> lat l 12 <> 0 -> dstart sb <= b < sb_size sb ->
  fs_ok sb (ast a) (av (t_entry sb l k b a)).
Proof.
  intros Hfs Hf Hnz Hb. unfold t_entry. cbn [av t_upd]. apply (fs_ok_put _ _ (av (t_alloc sb b a))).
  - by apply fs_ok_alloc.
  - apply putn_wf. apply Hfs.
  - right. apply (fl_data _ _ _ Hf 12); done.
Qed.

(** ** Free blocks *)

Definition nfree (sb : superblock) (f : Z -> blk) (n : nat) : Prop :=
  exists l : list Z, NoDup l /\ (n <= length l)%nat /\ forall b, b ∈ l -> 0 <= b < sb_size sb /\ used sb f b = false.

Lemma nfree_some sb f n : nfree sb f (S n) -> exists b, 0 <= b < sb_size sb /\ used sb f b = false.
Proof. intros ([|b l] & _ & Hn & H); [simpl in Hn; lia|]. exists b. apply H. by left. Qed.

Lemma nfree_weaken sb f n n' : nfree sb f n -> (n' <= n)%nat -> nfree sb f n'.
Proof. intros (l & ? & ? & ?) Hle. exists l. splits; [done|lia|done]. Qed.

Lemma nfree_alloc sb f f' b n :
  nfree sb f (S n) -> (forall x, 0 <= x < sb_size sb -> used sb f' x = (b =? x) || used sb f x) -> nfree sb f' n.
Proof.
  intros (l & Hnd & Hn & Hl) Hu.
  assert (exists l', NoDup l' /\ (n <= length l')%nat /\ b ∉ l' /\ forall x, x ∈ l' -> x ∈ l) as (l' & Hnd' & Hn' & Hb & Hsub).
  { destruct (decide (b ∈ l)) as [(l1 & l2 & ->)%list_elem_of_split|Hb]; [|exists l; splits; (done || lia)].
    rewrite <- Permutation_middle in Hnd. apply NoDup_cons in Hnd as [Hb Hnd]. exists (l1 ++ l2). splits; [done| |done|].
    - rewrite length_app in *. simpl in Hn. lia.
    - intros x. rewrite !elem_of_app, elem_of_cons. tauto. }
  exists l'. splits; [done|done|]. intros x Hx. destruct (Hl x (Hsub x Hx)) as [Hr Hf]. split; [done|].
  rewrite Hu, Hf by done. rewrite orb_false_r. apply Z.eqb_neq. by intros ->.
Qed.

(** ** bmap *)

Section bmap.
Context {c : nat} {dev : Z} {T U : Type} `{!Tx dev T} `{!CopyIO U}.
Implicit Types (s : fs_t T U) (a : atx).

Definition with_addrs (ip : nat) (l : list Z) (p : inode) (t : T) (s : fs_t T U) : fs_t T U :=
  Fs (sb s) (ic_lock s) (<[ip := set_addrs l p]> (inodes s)) t (um s).

Lemma inode_at_eq s ip p : inodes s !! ip = Some p -> inode_at s ip = p.
Proof. unfold inode_at. by intros ->. Qed.

Lemma data_readable s a b :
  tx_rep (txs s) a -> layout (sb s) (ast a) -> aheld a = ∅ -> dstart (sb s) <= b < sb_size (sb s) -> can_read a b.
Proof.
  intros H Hl Hh Hb. pose proof (layout_order _ _ Hl) as (? & ? & ? & ? & ?). split; [|split].
  - eapply layout_home; [done|done|]. lia.
  - rewrite Hh. done.
  - pose proof (tx_cap_law _ _ H). rewrite Hh, map_size_empty. lia.
Qed.

(** A block that the file has is found without any change. *)
Lemma wp_bmap_old s a p ip bn (Q : Z -> fs_t T U -> Prop) :
  tx_rep (txs s) a -> inodes s !! ip = Some p -> idev p = dev ->
  fs_ok (sb s) (ast a) (av a) -> file_ok (sb s) (av a) (addrs p) -> aheld a = ∅ -> adirty a = ∅ ->
  0 <= bn < MAXFILE -> faddr (av a) (addrs p) bn <> 0 ->
  (forall t, tx_rep t a -> Q (faddr (av a) (addrs p) bn) (set_txs t s)) -> wp (bmap ip bn) Q s.
Proof.
  intros H Hip Hdev Hfs Hf Hh Hd Hbn Hnz HQ. destruct s as [sb0 lk inds t0 u0]. cbn [sb txs inodes um] in *.
  unfold bmap. unfold faddr, bslot in *. change MAXFILE with 268 in Hbn.
  destruct (bn <? NDIRECT) eqn:E; unfold NDIRECT in E; b2p.
  - unfold bmap_slot. apply wp_bind, wp_gets. rewrite (inode_at_eq _ _ p) by done.
    assert (addr_at p bn = slot (av a) (addrs p) bn) as Ea by (unfold slot; by replace (bn <? 13) with true by (bool_goal; lia)).
    rewrite Ea. replace (_ =? 0) with false by (bool_goal; done). apply wp_ret. by apply HQ.
  - change NINDIRECT with 256. replace (bn - NDIRECT <? 256) with true by (bool_goal; unfold NDIRECT; lia).
    assert (lat (addrs p) 12 <> 0) as H12.
    { intros E0. apply Hnz. unfold slot. replace (bn + 1 <? 13) with false by (bool_goal; lia). by rewrite E0. }
    destruct (fl_data _ _ _ Hf 12) as [Hr12 _]; [done|done|]. change (slot _ _ 12) with (lat (addrs p) 12) in Hr12.
    apply wp_bind. unfold bmap_slot. apply wp_bind, wp_gets. rewrite (inode_at_eq _ _ p) by done.
    change (addr_at p NDIRECT) with (lat (addrs p) 12). replace (_ =? 0) with false by (bool_goal; done). apply wp_ret.
    apply wp_bind, wp_gets. rewrite (inode_at_eq _ _ p), Hdev by done. apply wp_bind.
    eapply wp_bread; [exact H|eapply (data_readable (Fs sb0 lk inds t0 u0)); [exact H|apply Hfs|done|done]|].
    intros i t Hi Ht. apply wp_bind. eapply wp_data; [exact Ht|apply lookup_insert_eq|]. cbn [av t_hold].
    assert (get32 (av a (lat (addrs p) 12)) (4 * (bn - NDIRECT)) = slot (av a) (addrs p) (bn + 1)) as Es.
    { unfold slot. replace (bn + 1 <? 13) with false by (bool_goal; lia). replace (lat _ 12 =? 0) with false by (bool_goal; done).
      do 2 f_equal. unfold NDIRECT. lia. }
    rewrite Es. replace (slot _ _ _ =? 0) with false by (bool_goal; done). apply wp_bind, wp_ret.
    apply wp_bind. eapply wp_brelse; [exact Ht|done|rewrite Hd; set_solver|]. intros t' Ht'. apply wp_ret. apply (HQ t' Ht').
Qed.

Definition bitmap_in (sb : superblock) (m : gset Z) : Prop := forall b, 0 <= b < sb_size sb -> BBLOCK b sb ∈ m.

Lemma slack_upd a m k b d : slack c (t_logged b a) m k -> slack c (t_upd b d a) m k.
Proof. intros H. by eapply slack_ext. Qed.

Lemma slack_alloc sb a m k b :
  slack c a m (S k) -> bitmap_in sb m -> 0 <= b < sb_size sb -> slack c (t_alloc sb b a) ({[ b ]} ∪ m) k.
Proof. intros H Hm Hb. unfold t_alloc. apply slack_upd, slack_new, slack_upd, slack_in; [done|by apply Hm]. Qed.

(** What [bmap] needs to add a block: room in the log and free blocks. *)
Definition need (l : list Z) (bn : Z) : nat := if (NDIRECT <=? bn) && (lat l 12 =? 0) then 2 else 1.

(** The file system during an operation that has nothing locked. *)
Record fs_tx (s : fs_t T U) (a : atx) : Prop := {
  ft_rep : tx_rep (txs s) a;
  ft_ok : fs_ok (sb s) (ast a) (av a);
  ft_held : aheld a = ∅;
  ft_dirty : adirty a = ∅;
}.

Lemma held_data_empty sb a : aheld a = ∅ -> held_data sb a.
Proof. intros H. split; rewrite H; [by rewrite map_size_empty; lia|done]. Qed.

Lemma wp_bmap_slot_new s a m k p ip i (Q : Z -> fs_t T U -> Prop) :
  fs_tx s a -> inodes s !! ip = Some p -> idev p = dev -> 0 <= i < 13 -> lat (addrs p) i = 0 ->
  1 <= aops a -> slack c a m (S k) -> (exists b, 0 <= b < sb_size (sb s) /\ used (sb s) (av a) b = false) ->
  (forall b t, dstart (sb s) <= b < sb_size (sb s) -> used (sb s) (av a) b = false ->
     tx_rep t (t_alloc (sb s) b a) -> Q b (with_addrs ip (<[Z.to_nat i := b]> (addrs p)) p t s)) ->
  wp (bmap_slot ip i) Q s.
Proof.
  intros [H [Hl Hm Hwf] Hh Hd] Hip Hdev Hi Hz Ho Hsl Hfree HQ. unfold bmap_slot. apply wp_bind, wp_gets.
  rewrite (inode_at_eq _ _ p) by done. change (addr_at p i) with (lat (addrs p) i). rewrite Hz. simpl.
  apply wp_bind. rewrite Hdev. pose proof (slack_room _ _ _ _ Hsl).
  eapply wp_balloc; try done; [by apply held_data_empty|lia|]. intros b t Hb Hu _ Ht.
  apply wp_bind, wp_modify, wp_ret. specialize (HQ b t Hb Hu Ht). unfold with_addrs in HQ.
  rewrite (inode_at_eq (set_txs t s) _ p) by done. done.
Qed.

Lemma fs_tx_alloc s a b t s' :
  fs_tx s a -> dstart (sb s) <= b < sb_size (sb s) -> tx_rep t (t_alloc (sb s) b a) -> txs s' = t -> sb s' = sb s ->
  fs_tx s' (t_alloc (sb s) b a).
Proof.
  intros [H Hok Hh Hd] Hb Ht <- Hsb. constructor; [done|rewrite Hsb; by apply (fs_ok_alloc (sb s) a)|done|]. cbn. rewrite Hd. set_solver.
Qed.

(** What [bmap] leaves after adding block [bn]. *)
Record bmap_new (s : fs_t T U) (a : atx) (m : gset Z) (k n : nat) (l : list Z) (bn : Z)
    (t : T) (a' : atx) (m' : gset Z) (l' : list Z) : Prop := {
  bn_rep : tx_rep t a';
  bn_ok : fs_ok (sb s) (ast a) (av a');
  bn_held : aheld a' = ∅;
  bn_dirty : adirty a' = ∅;
  bn_par : acap a' = acap a /\ ast a' = ast a /\ aops a' = aops a;
  bn_grown : grown (sb s) (av a) l (av a') l';
  bn_addr : faddr (av a') l' bn <> 0;
  bn_sub : m ⊆ m';
  bn_in : faddr (av a') l' bn ∈ m';
  bn_ind : lat l' 12 <> 0 -> lat l' 12 ∈ m';
  bn_slack : slack c a' m' k;
  bn_free : nfree (sb s) (av a') n;
}.

(** The second half of [bmap]: a new entry in the indirect block. *)
Lemma wp_bmap_entry s a m k n p bn (Q : Z -> fs_t T U -> Prop) :
  fs_tx s a -> idev p = dev -> file_ok (sb s) (av a) (addrs p) -> NDIRECT <= bn < MAXFILE ->
  lat (addrs p) 12 <> 0 -> lat (addrs p) 12 ∈ m -> faddr (av a) (addrs p) bn = 0 ->
  1 <= aops a -> slack c a m (S k) -> bitmap_in (sb s) m -> nfree (sb s) (av a) (S n) ->
  (forall t a' m', bmap_new s a m k n (addrs p) bn t a' m' (addrs p) ->
     Q (faddr (av a') (addrs p) bn) (set_txs t s)) ->
  wp (let! bp := bread_ (idev p) (lat (addrs p) 12) in
      let! x := data_ bp in
      let! addr :=
        (if get32 x (4 * (bn - NDIRECT)) =? 0 then
           let! b := balloc (idev p) in
           set_ bp (put32 x (4 * (bn - NDIRECT)) b) ;;
           log_write_ bp ;;
           ret b
         else ret (get32 x (4 * (bn - NDIRECT)))) in
      brelse_ bp ;;
      ret addr) Q s.
Proof.
  intros Hft Hdev Hf Hbn H12 Hin Hz Ho Hsl Hbm Hfree HQ. pose proof Hft as [H Hfs Hh Hd]. pose proof Hfs as [Hl Hm Hwf].
  change MAXFILE with 268 in Hbn. unfold NDIRECT in *. rewrite Hdev. pose proof (slack_room _ _ _ _ Hsl).
  pose proof (layout_order _ _ Hl) as (? & ? & ? & ? & ?).
  destruct (fl_data _ _ _ Hf 12) as [Hr12 Hu12]; [done|done|]. change (slot _ _ 12) with (lat (addrs p) 12) in Hr12, Hu12.
  assert (faddr (av a) (addrs p) bn = get32 (av a (lat (addrs p) 12)) (4 * (bn - 12))) as Ef.
  { unfold faddr, bslot, NDIRECT, slot. replace (bn <? 12) with false by (bool_goal; lia).
    replace (bn + 1 <? 13) with false by (bool_goal; lia). replace (lat _ 12 =? 0) with false by (bool_goal; done). do 2 f_equal. lia. }
  apply wp_bind. eapply wp_bread; [exact H|by eapply data_readable|]. intros i t Hi Ht.
  apply wp_bind. eapply wp_data; [exact Ht|apply lookup_insert_eq|]. cbn [av t_hold]. rewrite <- Ef, Hz. simpl.
  apply wp_bind, wp_bind. eapply (wp_balloc _ (t_hold i (lat (addrs p) 12) a)); try done.
  { split; [cbn; rewrite Hh; by rewrite insert_empty, map_size_singleton|].
    intros j x Hj. cbn in Hj. rewrite Hh, insert_empty, lookup_singleton_Some in Hj. destruct Hj as [_ <-]. done. }
  { cbn. lia. } { by eapply nfree_some. }
  intros b t1 Hb Hu _ Ht1. cbn [av t_hold sb set_txs] in Hb, Hu, Ht1.
  set (x := put32 _ _ b). set (a1 := t_alloc (sb s) b a).
  change (t_alloc (sb s) b (t_hold i (lat (addrs p) 12) a)) with (t_hold i (lat (addrs p) 12) a1) in Ht1.
  assert (slack c a1 ({[ b ]} ∪ m) k) as Hsl1 by (apply slack_alloc; [done|done|lia]). pose proof (slack_room _ _ _ _ Hsl1).
  apply wp_bind, wp_on_tx. eapply tx_set_law; [exact Ht1|apply lookup_insert_eq|]. intros t2 Ht2.
  apply wp_bind, wp_on_tx. eapply (tx_log_write_law _ _ i (lat (addrs p) 12)); [exact Ht2|apply lookup_insert_eq| |cbn in *; lia|done|].
  { eapply layout_home; [done|done|]. lia. }
  intros t3 Ht3. apply wp_ret. apply wp_bind, wp_on_tx.
  eapply (tx_brelse_law _ _ i (lat (addrs p) 12)); [exact Ht3|apply lookup_insert_eq|cbn; set_solver|]. intros t4 Ht4. apply wp_ret.
  rewrite t_upd_seq in Ht4 by done. change (t_upd (lat (addrs p) 12) x a1) with (t_entry (sb s) (addrs p) (bn - 12) b a) in Ht4.
  assert (slot (av a) (addrs p) (13 + (bn - 12)) = 0) as Hs0.
  { rewrite <- Hz. unfold faddr, bslot, NDIRECT. replace (bn <? 12) with false by (bool_goal; lia). f_equal. lia. }
  assert (faddr (av (t_entry (sb s) (addrs p) (bn - 12) b a)) (addrs p) bn = b) as Eb.
  { unfold faddr, bslot, NDIRECT, slot. replace (bn <? 12) with false by (bool_goal; lia).
    replace (bn + 1 <? 13) with false by (bool_goal; lia). replace (lat _ 12 =? 0) with false by (bool_goal; done).
    unfold t_entry. cbn [av t_upd]. rewrite fn_lookup_insert. replace (bn + 1 - 13) with (bn - 12) by lia.
    assert (length (av a (lat (addrs p) 12)) = 1024%nat) by apply Hwf. rewrite get32_put32_eq by lia. apply wrap32_small. lia. }
  rewrite <- Eb. apply (HQ t4 _ ({[ b ]} ∪ m)). constructor; try done.
  - by apply fs_ok_entry.
  - cbn. rewrite Hd. set_solver.
  - apply grown_entry; try done. change NINDIRECT with 256. lia.
  - rewrite Eb. lia.
  - set_solver.
  - rewrite Eb. set_solver.
  - intros _. set_solver.
  - apply slack_upd, slack_in; [done|set_solver].
  - eapply nfree_alloc; [done|]. intros y Hy. unfold t_entry. destruct (BBLOCK_range _ _ y Hl Hy) as [_ ?].
    unfold t_upd at 1. cbn [av]. rewrite used_other by lia. by apply (used_alloc (sb s) (ast a)).
Qed.

Lemma with_addrs_same s ip p t : inodes s !! ip = Some p -> with_addrs ip (addrs p) p t s = set_txs t s.
Proof. intros H. unfold with_addrs, set_txs. f_equal. apply list_insert_id. rewrite H. by destruct p. Qed.

Lemma with_addrs_inode s ip l p t : inodes s !! ip = Some p -> inodes (with_addrs ip l p t s) !! ip = Some (set_addrs l p).
Proof. intros H. apply list_lookup_insert_eq. by eapply lookup_lt_Some. Qed.

Lemma with_addrs_twice s ip l l' p t t' :
  with_addrs ip l' (set_addrs l p) t' (with_addrs ip l p t s) = with_addrs ip l' p t' s.
Proof. unfold with_addrs. f_equal. cbn [inodes]. by rewrite list_insert_insert_eq. Qed.

(** [bmap] adds a block that the file does not have, and the indirect block
    if it is the first one to need it. *)
Lemma wp_bmap_new s a m k n p ip bn (Q : Z -> fs_t T U -> Prop) :
  fs_tx s a -> inodes s !! ip = Some p -> idev p = dev -> file_ok (sb s) (av a) (addrs p) ->
  0 <= bn < MAXFILE -> faddr (av a) (addrs p) bn = 0 -> 1 <= aops a ->
  slack c a m (need (addrs p) bn + k) -> bitmap_in (sb s) m -> (lat (addrs p) 12 <> 0 -> lat (addrs p) 12 ∈ m) ->
  nfree (sb s) (av a) (need (addrs p) bn + n) ->
  (forall t a' m' l', bmap_new s a m k n (addrs p) bn t a' m' l' ->
     Q (faddr (av a') l' bn) (with_addrs ip l' p t s)) ->
  wp (bmap ip bn) Q s.
Proof.
  intros Hft Hip Hdev Hf Hbn Hz Ho Hsl Hbm Hind Hfree HQ. unfold bmap, need in *.
  pose proof Hft as [H Hfs Hh Hd]. pose proof (fl_len _ _ _ Hf) as Hlen.
  pose proof (layout_order _ _ (fo_layout _ _ _ Hfs)) as (? & ? & ? & ? & ?).
  destruct (bn <? NDIRECT) eqn:E; unfold NDIRECT in E; b2p.
  - replace (NDIRECT <=? bn) with false in * by (bool_goal; unfold NDIRECT; lia). cbn [andb] in *.
    assert (lat (addrs p) bn = 0) as Hz'.
    { revert Hz. unfold faddr, bslot, NDIRECT, slot. replace (bn <? 12) with true by (bool_goal; lia).
      by replace (bn <? 13) with true by (bool_goal; lia). }
    eapply (wp_bmap_slot_new s a m k); try done; [lia|by eapply nfree_some|]. intros b t Hb Hu Ht.
    set (l' := <[Z.to_nat bn := b]> (addrs p)).
    assert (faddr (av (t_alloc (sb s) b a)) l' bn = b) as Eb.
    { unfold faddr, bslot, NDIRECT, slot. replace (bn <? 12) with true by (bool_goal; lia).
      replace (bn <? 13) with true by (bool_goal; lia). unfold l'. rewrite lat_insert by lia. by rewrite decide_True. }
    rewrite <- Eb. apply (HQ t _ ({[ b ]} ∪ m)). constructor; try done.
    + by apply fs_ok_alloc.
    + cbn. rewrite Hd. set_solver.
    + apply grown_slot; try done. lia.
    + rewrite Eb. lia.
    + set_solver.
    + rewrite Eb. set_solver.
    + intros H12. unfold l' in *. rewrite lat_insert in * by lia. rewrite decide_False in * by lia. specialize (Hind H12). set_solver.
    + apply slack_alloc; [done|done|lia].
    + eapply nfree_alloc; [done|]. intros y Hy. by apply (used_alloc (sb s) (ast a)); [apply Hfs|apply Hfs|..].
  - replace (NDIRECT <=? bn) with true in * by (bool_goal; unfold NDIRECT; lia). cbn [andb] in *.
    replace (bn - NDIRECT <? NINDIRECT) with true by (bool_goal; change MAXFILE with (NDIRECT + NINDIRECT) in *; lia).
    destruct (lat (addrs p) 12 =? 0) eqn:E12; b2p; apply wp_bind.
    + eapply (wp_bmap_slot_new s a m (S k)); try done; [by eapply (nfree_some _ _ (S n))|]. intros b t Hb Hu Ht.
      change (Z.to_nat NDIRECT) with (Z.to_nat 12). set (l1 := <[Z.to_nat 12 := b]> (addrs p)).
      set (a1 := t_alloc (sb s) b a) in *. set (s1 := with_addrs ip l1 p t s).
      assert (fs_tx s1 a1) as Hft1 by (by eapply fs_tx_alloc).
      assert (grown (sb s) (av a) (addrs p) (av a1) l1) as G1 by (by apply grown_slot).
      assert (lat l1 12 = b) as El1 by (unfold l1; rewrite lat_insert by lia; by rewrite decide_True).
      apply wp_bind, wp_gets. rewrite (inode_at_eq s1 ip (set_addrs l1 p)) by (by apply with_addrs_inode).
      rewrite <- El1. eapply (wp_bmap_entry s1 a1 ({[ b ]} ∪ m) k n (set_addrs l1 p)); try done; cbn [addrs set_addrs].
      * apply G1.
      * unfold MAXFILE, NDIRECT in *. lia.
      * rewrite El1. set_solver.
      * unfold faddr, bslot. replace (bn <? NDIRECT) with false by (bool_goal; unfold NDIRECT; lia). unfold slot.
        replace (bn + 1 <? 13) with false by (bool_goal; lia). rewrite El1. replace (b =? 0) with false by (bool_goal; lia).
        unfold a1, t_alloc. cbn [av t_upd]. rewrite fn_lookup_insert. apply get32_zero. lia.
      * apply slack_alloc; [done|done|lia].
      * intros y Hy. specialize (Hbm y Hy). set_solver.
      * eapply nfree_alloc; [done|]. intros y Hy. by apply (used_alloc (sb s) (ast a)); [apply Hfs|apply Hfs|..].
      * intros t2 a2 m2 HB. rewrite <- (with_addrs_same s1 ip (set_addrs l1 p)) by (by apply with_addrs_inode).
        unfold s1. rewrite with_addrs_twice. apply (HQ t2 a2 m2). destruct HB. constructor; try done.
        -- eapply grown_trans; [|exact G1|done]. lia.
        -- set_solver.
    + unfold bmap_slot. apply wp_bind, wp_gets. rewrite (inode_at_eq _ _ p) by done. change (addr_at p NDIRECT) with (lat (addrs p) 12).
      replace (_ =? 0) with false by (bool_goal; done). apply wp_ret.
      apply wp_bind, wp_gets. rewrite (inode_at_eq _ _ p) by done.
      eapply (wp_bmap_entry s a m k n p); try done; [by apply Hind|].
      intros t a' m' HB. rewrite <- (with_addrs_same s ip p) by done. by apply (HQ t a' m').
Qed.
End bmap.
