(* ===== verification/FsRead.v ===== *)
(** * Reading a file (kernel/fs.c: readi)

    The contents of a file as a function of the offset, and the effect of
    [readi] on the caller's memory. *)

From S2P Require Import Prelude Spinlock Sleeplock Block BlockCache Log Tx CopyIO Fs FsBlock FsFile.

(** The byte at offset [o]. *)
Definition filedata (f : Z -> blk) (l : list Z) (o : Z) : Z := get8 (content f l (o / BSIZE)) (o mod BSIZE).

(** Every block below the size is allocated. *)
Definition no_holes (f : Z -> blk) (l : list Z) (size : Z) : Prop :=
  forall bn, 0 <= bn -> bn * BSIZE < size -> faddr f l bn <> 0.

Lemma content_wf sb st f l bn : fs_ok sb st f -> blk_wf (content f l bn).
Proof. intros H. unfold content. destruct (_ =? 0); [apply zero_blk_wf|apply H]. Qed.

Lemma lookup_bytes_at b o n i :
  0 <= o -> 0 <= i < n -> o + n <= Z.of_nat (length b) -> bytes_at b o n !! Z.to_nat i = Some (get8 b (o + i)).
Proof.
  intros Ho Hi Hl. unfold bytes_at, get8. rewrite lookup_take_lt by lia. rewrite lookup_drop.
  replace (Z.to_nat o + Z.to_nat i)%nat with (Z.to_nat (o + i)) by lia.
  destruct (lookup_lt_is_Some_2 b (Z.to_nat (o + i))) as [x ->]; [lia|done].
Qed.

Lemma length_bytes_at b o n : 0 <= o -> 0 <= n -> o + n <= Z.of_nat (length b) -> length (bytes_at b o n) = Z.to_nat n.
Proof. intros. unfold bytes_at. rewrite length_take, length_drop. lia. Qed.

Lemma bytes_at_ok b o n : Forall byte_ok b -> Forall byte_ok (bytes_at b o n).
Proof. intros H. by apply Forall_take, Forall_drop. Qed.

#[export] Instance accessible_dec v user a n : Decision (accessible v user a n).
Proof.
  refine (cast_if (decide (Forall (fun i => is_Some (v user (a + i))) (seqZ 0 n)))).
  - rewrite Forall_forall in f. intros i Hi. apply f, elem_of_seqZ. lia.
  - intros H. apply n0. apply Forall_forall. intros i Hi%elem_of_seqZ. apply H. lia.
Defined.

(** The bytes of the file that a turn of the loops of [readi] and [writei] covers. *)
Definition chunk (off r : Z) : Z := Z.min r (BSIZE - off mod BSIZE).

Lemma chunk_spec off r : 0 < r -> 0 <= off ->
  0 < chunk off r <= r /\ chunk off r <= BSIZE /\ off mod BSIZE + chunk off r <= BSIZE /\
  (chunk off r = r \/ (off + chunk off r) mod BSIZE = 0 /\ chunk off r = BSIZE - off mod BSIZE).
Proof. unfold chunk, BSIZE. intros. splits; dlia. Qed.

Lemma chunk_block off r i : 0 <= off -> 0 <= i < chunk off r -> (off + i) / BSIZE = off / BSIZE /\ (off + i) mod BSIZE = off mod BSIZE + i.
Proof. unfold chunk, BSIZE. intros. split; dlia. Qed.

Lemma fuel_step off r fuel :
  0 < r -> 0 <= off -> off mod BSIZE + r <= Z.of_nat (S fuel) * BSIZE ->
  chunk off r = r \/ (off + chunk off r) mod BSIZE + (r - chunk off r) <= Z.of_nat fuel * BSIZE.
Proof.
  intros Hr Ho H. destruct (chunk_spec off r Hr Ho) as (? & ? & ? & [?|[E1 E2]]); [by left|right].
  rewrite E1, E2. lia.
Qed.

Lemma rw_fuel_enough off n : 0 <= n -> off mod BSIZE + n <= Z.of_nat (rw_fuel n) * BSIZE.
Proof. unfold rw_fuel, BSIZE. intros. dlia. Qed.

(** What the loop of [readi] has done with [r] of the bytes from [off]. *)
Definition read_post (f : Z -> blk) (l : list Z) (v : view) (user : bool) (dst off n r : Z) (v' : view) : Prop :=
  0 <= r <= n /\ (accessible v user dst n -> r = n) /\
  (forall i, 0 <= i < r -> v' user (dst + i) = Some (filedata f l (off + i))) /\ only_range user dst n v v'.

(** One chunk, then the rest. *)
Lemma read_post_chunk f l v user dst off n bs v1 :
  Z.of_nat (length bs) <= n -> v1 = vwrite user dst bs v -> accessible v user dst (Z.of_nat (length bs)) ->
  (forall i, 0 <= i < Z.of_nat (length bs) -> bs !! Z.to_nat i = Some (filedata f l (off + i))) ->
  (forall i, 0 <= i < Z.of_nat (length bs) -> v1 user (dst + i) = Some (filedata f l (off + i))) /\
  only_range user dst (Z.of_nat (length bs)) v v1.
Proof.
  intros Hn -> Hacc Hbs. split; [|by apply vwrite_only]. intros i Hi. rewrite <- Hbs by done.
  unfold vwrite. rewrite decide_True by (split; [done|lia]). f_equal. lia.
Qed.

Lemma read_post_app f l v user dst off n m v1 r v' :
  0 <= m <= n -> (forall i, 0 <= i < m -> v1 user (dst + i) = Some (filedata f l (off + i))) -> only_range user dst m v v1 ->
  read_post f l v1 user (dst + m) (off + m) (n - m) r v' -> read_post f l v user dst off n (m + r) v'.
Proof.
  intros Hm Hv1 Hor1 (Hr & Hall & Hb & Hor). unfold read_post. splits; try lia.
  - intros Hacc'. rewrite Hall; [lia|]. intros j Hj. apply Hor1. replace (dst + m + j) with (dst + (m + j)) by lia. apply Hacc'. lia.
  - intros j Hj. destruct (decide (j < m)).
    + destruct (Hor user (dst + j)) as [_ ->]; [apply Hv1; lia|lia].
    + replace (dst + j) with (dst + m + (j - m)) by lia. rewrite Hb by lia. do 2 f_equal. lia.
  - eapply only_range_trans; [eapply only_range_weaken; [exact Hor1|lia|lia]|eapply only_range_weaken; [exact Hor|lia|lia]].
Qed.

Lemma read_post_nil f l v user dst off n : n = 0 -> read_post f l v user dst off n 0 v.
Proof. intros ->. unfold read_post. splits; try lia. apply only_range_refl. Qed.

Lemma read_post_zero f l v user dst dst' off off' r v' :
  read_post f l v user dst off 0 r v' -> read_post f l v user dst' off' 0 r v'.
Proof.
  intros (Hr & _ & _ & Hor). unfold read_post. splits; try lia. intros user' a'. destruct (Hor user' a') as [E1 E2].
  split; [done|]. intros _. apply E2. lia.
Qed.

Section readi.
Context {dev : Z} {T U : Type} `{!Tx dev T} `{!CopyIO U}.
Implicit Types (s : fs_t T U) (a : atx).

Definition with_tu (t : T) (u : U) (s : fs_t T U) : fs_t T U := Fs (sb s) (ic_lock s) (inodes s) t u.

Lemma with_tu_id s : with_tu (txs s) (um s) s = s.
Proof. by destruct s. Qed.

(** An inode whose file can be read up to its size. *)
Record readable (sb : superblock) (f : Z -> blk) (p : inode) : Prop := {
  rd_dev : idev p = dev;
  rd_ok : file_ok sb f (addrs p);
  rd_holes : no_holes f (addrs p) (isize p);
  rd_size : 0 <= isize p <= MAXFILE * BSIZE;
}.

Lemma readable_block sb st f p off :
  fs_ok sb st f -> readable sb f p -> 0 <= off < isize p ->
  0 <= off / BSIZE < MAXFILE /\ faddr f (addrs p) (off / BSIZE) <> 0 /\
  content f (addrs p) (off / BSIZE) = f (faddr f (addrs p) (off / BSIZE)) /\
  dstart sb <= faddr f (addrs p) (off / BSIZE) < sb_size sb.
Proof.
  intros Hfs [Hdev Hf Hnh Hsz] Hoff. assert (0 <= off / BSIZE < MAXFILE) as Hbn.
  { change MAXFILE with 268 in *. unfold BSIZE in *. dlia. }
  assert (faddr f (addrs p) (off / BSIZE) <> 0) as Hnz by (apply Hnh; unfold BSIZE in *; dlia).
  destruct (bslot_range _ Hbn) as [Hsr _]. splits; try done; try apply (fl_data _ _ _ Hf _ Hsr Hnz); try lia.
  unfold content. by replace (_ =? 0) with false by (bool_goal; done).
Qed.

Lemma wp_readi_loop p ip a ud fuel : forall s v dst off n tot (Q : Z -> fs_t T U -> Prop),
  fs_tx s a -> inodes s !! ip = Some p -> readable (sb s) (av a) p ->
  copy_rep (um s) v -> 0 <= tot <= n -> 0 <= off -> off + (n - tot) <= isize p -> n < 2^32 ->
  (tot < n -> off mod BSIZE + (n - tot) <= Z.of_nat fuel * BSIZE) ->
  (tot < n -> 0 <= dst /\ dst + (n - tot) <= 2^64) ->
  (tot < n -> truth ud = true \/ accessible v (truth ud) dst (n - tot)) ->
  (forall r t u v', tx_rep t a -> copy_rep u v' -> read_post (av a) (addrs p) v (truth ud) dst off (n - tot) r v' ->
     Q (tot + r) (with_tu t u s)) ->
  wp (readi_loop fuel ip ud dst off n tot) Q s.
Proof.
  induction fuel as [|fuel IH]; intros s v dst off n tot Q Hft Hip Hrd Hv Htot Hoff Hend Hn Hfuel Hdst Hud HQ;
    cbn [readi_loop]; pose proof (Z.mod_pos_bound off BSIZE ltac:(done)) as Hmod;
    destruct (tot <? n) eqn:E; b2p; cbn [negb]; try (exfalso; lia).
  1,3: apply wp_ret; replace tot with (tot + 0) by lia; rewrite <- (with_tu_id s);
       apply (HQ 0 _ _ v); [apply Hft|done|apply read_post_nil; lia].
  set (r0 := n - tot) in *. assert (0 < r0) as Hr0 by lia. destruct (Hdst ltac:(lia)) as [Hd0 Hd1].
  destruct (chunk_spec off r0 Hr0 Hoff) as (Hm & HmB & Hmm & _). fold (chunk off r0). set (m := chunk off r0) in *.
  pose proof Hft as [Hrep Hfs Hheld Hdirty].
  destruct (readable_block _ _ _ _ off Hfs Hrd ltac:(lia)) as (Hbn & Hnz & Hc & Hdr). set (bn := off / BSIZE) in *.
  apply wp_bind, wp_gets. rewrite (inode_at_eq _ _ p) by done. apply wp_bind.
  eapply wp_bmap_old; try done; [apply Hrd|apply Hrd|]. intros t1 Ht1. rewrite (rd_dev _ _ _ Hrd). apply wp_bind.
  eapply wp_bread; [exact Ht1|eapply (data_readable (set_txs t1 s)); [exact Ht1|apply Hfs|done|done]|]. intros i t2 Hi Ht2.
  apply wp_bind. eapply wp_data; [exact Ht2|apply lookup_insert_eq|]. cbn [av t_hold]. rewrite <- Hc.
  destruct (content_wf (sb s) (ast a) (av a) (addrs p) bn Hfs) as [Hlen Hok].
  set (bs := bytes_at _ _ _). assert (Z.of_nat (length bs) = m) as Hlbz.
  { unfold bs. rewrite length_bytes_at; unfold BSIZE in *; lia. }
  assert (Forall byte_ok bs) as Hbok by (by apply bytes_at_ok).
  assert (forall i, 0 <= i < Z.of_nat (length bs) -> bs !! Z.to_nat i = Some (filedata (av a) (addrs p) (off + i))) as Hbs.
  { intros j Hj. unfold filedata. rewrite Hlbz in Hj. destruct (chunk_block off r0 j Hoff Hj) as [-> ->].
    fold bn. apply lookup_bytes_at; unfold BSIZE in *; lia. }
  apply wp_bind, wp_on_um. cbn [um set_txs].
  destruct (decide (accessible v (truth ud) dst m)) as [Hacc|Hacc].
  2:{ assert (truth ud = true) as Hut.
      { destruct (Hud ltac:(lia)) as [?|Hud']; [done|]. destruct Hacc. intros j Hj. apply Hud'. lia. }
      eapply copyout_fail; [exact Hv|by rewrite Hlbz|done|done|done|lia|]. intros u1 v1 Hu1 Hor. simpl.
      apply wp_bind. eapply wp_brelse; [exact Ht2|done|rewrite Hdirty; set_solver|]. intros t3 Ht3. apply wp_ret.
      replace tot with (tot + 0) by lia. apply (HQ 0 t3 u1 v1); [done|done|]. unfold read_post. splits; try lia.
      - intros Hacc'. destruct Hacc. intros j Hj. apply Hacc'. lia.
      - eapply only_range_weaken; [exact Hor|lia|rewrite Hlbz; lia]. }
  eapply copyout_law; [exact Hv|by rewrite Hlbz|done|done|lia|]. intros u1 Hu1. simpl.
  apply wp_bind. eapply wp_brelse; [exact Ht2|done|rewrite Hdirty; set_solver|]. intros t3 Ht3.
  change (set_txs t3 _) with (with_tu t3 u1 s). rewrite (wrap32_small (tot + m)) by lia.
  assert (wrap32 (off + m) = off + m) as ->.
  { apply wrap32_small. pose proof (rd_size _ _ _ Hrd). change MAXFILE with 268 in *. unfold BSIZE in *. lia. }
  set (v1 := vwrite _ _ _ _) in *.
  destruct (read_post_chunk (av a) (addrs p) v (truth ud) dst off r0 bs v1) as [Hv1 Hor1]; [lia|done|by rewrite Hlbz|done|].
  rewrite Hlbz in Hv1, Hor1.
  assert (m < r0 -> wrap64 (dst + m) = dst + m) as Hw by (intros; apply wrap64_small; lia).
  assert (accessible v (truth ud) dst r0 -> accessible v1 (truth ud) (dst + m) (r0 - m)) as Hacc1.
  { intros Ha j Hj. apply Hor1. replace (dst + m + j) with (dst + (m + j)) by lia. apply Ha. lia. }
  eapply (IH _ v1); [by constructor|done|done|exact Hu1|lia|lia|lia|lia| | | |].
  - intros Hlt. destruct (fuel_step off r0 fuel Hr0 Hoff (Hfuel ltac:(lia))) as [Hx|Hx]; fold m in Hx; lia.
  - intros Hlt. rewrite Hw by lia. lia.
  - intros Hlt. rewrite Hw by lia. replace (n - (tot + m)) with (r0 - m) by lia.
    destruct (Hud ltac:(lia)) as [?|Hud']; [by left|right]. by apply Hacc1.
  - intros r t u v' Ht Hu Hpost. replace (tot + m + r) with (tot + (m + r)) by lia.
    apply (HQ (m + r) t u v'); [done|done|]. replace (n - (tot + m)) with (r0 - m) in Hpost by lia.
    destruct (decide (m < r0)) as [Hlt|Hge].
    + rewrite Hw in Hpost by done. by eapply read_post_app; [lia|..].
    + eapply read_post_app; [lia|done|done|]. replace (r0 - m) with 0 in * by lia. by eapply read_post_zero.
Qed.

(** [readi] reads up to the end of the file; it stops early only where the
    destination cannot be written. *)
Lemma wp_readi p ip a s v ud dst off n (Q : Z -> fs_t T U -> Prop) :
  fs_tx s a -> inodes s !! ip = Some p -> readable (sb s) (av a) p ->
  copy_rep (um s) v -> 0 <= off < 2^32 -> 0 <= n < 2^32 -> 0 <= dst -> dst + n <= 2^64 ->
  let k := if (isize p <? off) || (2^32 <=? off + n) then 0 else Z.min n (isize p - off) in
  truth ud = true \/ accessible v (truth ud) dst k ->
  (forall r t u v', tx_rep t a -> copy_rep u v' -> read_post (av a) (addrs p) v (truth ud) dst off k r v' ->
     Q r (with_tu t u s)) ->
  wp (readi ip ud dst off n) Q s.
Proof.
  intros Hft Hip Hrd Hv Hoff Hn Hdst Hdst' k Hud HQ. unfold readi. apply wp_bind, wp_gets. rewrite (inode_at_eq _ _ p) by done.
  assert ((wrap32 (off + n) <? off) = (2^32 <=? off + n)) as ->.
  { destruct (2^32 <=? off + n) eqn:E; b2p; [apply Z.ltb_lt|apply Z.ltb_ge].
    - unfold wrap32. rewrite <- (Z.mod_unique (off + n) (2^32) 1 (off + n - 2^32)); lia.
    - rewrite wrap32_small; lia. }
  destruct ((isize p <? off) || _) eqn:E1.
  { apply wp_ret. rewrite <- (with_tu_id s). apply (HQ 0 _ _ v); [apply Hft|done|by apply read_post_nil]. }
  b2p. rewrite wrap32_small by lia. assert ((if isize p <? off + n then isize p - off else n) = k) as ->.
  { unfold k. destruct (isize p <? off + n) eqn:E; b2p; lia. }
  pose proof (rd_size _ _ _ Hrd) as Hsz. assert (MAXFILE * BSIZE < 2^31) as Hmax by done.
  apply wp_bind. eapply (wp_readi_loop p ip a ud); try done; try lia.
  - intros _. rewrite Z.sub_0_r. apply rw_fuel_enough. lia.
  - intros _. by rewrite Z.sub_0_r.
  - intros r t u v' Ht Hu Hpost. rewrite Z.sub_0_r in Hpost. pose proof Hpost as (Hr & _).
    apply wp_ret. rewrite s32_small by lia. apply (HQ r t u v'); [done|done|done].
Qed.
End readi.
