(* ===== verification/FsInode.v ===== *)
(** * Inodes on disk (kernel/fs.c: iupdate, ilock)

    The encoding of [struct dinode] in a block, the round trip between
    [store_dinode] and [load_dinode], and the effect of [iupdate] and
    [ilock]. *)

From S2P Require Import Prelude Spinlock Sleeplock Block BlockCache Log Tx CopyIO Fs FsBlock FsFile.

(** ** The encoding *)

Lemma get8_put_addrs_ne l : forall d o x,
  0 <= o -> 0 <= x -> ~ (o <= x < o + 4 * Z.of_nat (length l)) -> get8 (put_addrs l d o) x = get8 d x.
Proof.
  induction l as [|a l IH]; intros d o x Ho Hx Hn; cbn [put_addrs length] in *; [done|].
  rewrite IH by lia. apply get8_putn_ne; lia.
Qed.

Lemma length_put_addrs l : forall d o, length (put_addrs l d o) = length d.
Proof. induction l as [|a l IH]; intros d o; cbn [put_addrs]; [done|]. rewrite IH. apply length_putn. Qed.

Lemma put_addrs_ok l : forall d o, Forall byte_ok d -> Forall byte_ok (put_addrs l d o).
Proof. induction l as [|a l IH]; intros d o H; cbn [put_addrs]; [done|]. apply IH. by apply putn_ok. Qed.

Lemma get_put_addrs l : forall d o,
  Forall (fun x => 0 <= x < 2^32) l -> 0 <= o -> o + 4 * Z.of_nat (length l) <= Z.of_nat (length d) ->
  get_addrs (length l) (put_addrs l d o) o = l.
Proof.
  induction l as [|a l IH]; intros d o Hl Ho Hd; cbn [length get_addrs put_addrs] in *; [done|].
  apply Forall_cons in Hl as [Ha Hl]. f_equal.
  - unfold get32. rewrite (getn_ext 4 (put32 d o a)) by (intros; apply get8_put_addrs_ne; lia).
    change (get32 (put32 d o a) o = a). rewrite get32_put32_eq by lia. by apply wrap32_small.
  - apply IH; [done|lia|]. unfold put32. rewrite length_putn. lia.
Qed.

Lemma get_addrs_ext k : forall d d' o,
  (forall x, o <= x < o + 4 * Z.of_nat k -> get8 d' x = get8 d x) -> get_addrs k d' o = get_addrs k d o.
Proof.
  induction k as [|k IH]; intros d d' o H; cbn [get_addrs]; [done|]. f_equal.
  - apply getn_ext. intros. apply H. lia.
  - apply IH. intros. apply H. lia.
Qed.

Lemma get8_store_dinode_ne p d o x :
  length (addrs p) = 13%nat -> 0 <= o -> 0 <= x -> ~ (o <= x < o + DINODE) ->
  get8 (store_dinode p d o) x = get8 d x.
Proof.
  intros Hl Ho Hx Hn. unfold DINODE in Hn. unfold store_dinode. rewrite get8_put_addrs_ne by lia.
  unfold put32, put16. rewrite !get8_putn_ne by lia. done.
Qed.

Lemma length_store_dinode p d o : length (store_dinode p d o) = length d.
Proof. unfold store_dinode, put32, put16. by rewrite length_put_addrs, !length_putn. Qed.

Lemma store_dinode_wf p d o : blk_wf d -> blk_wf (store_dinode p d o).
Proof.
  intros [Hl Hd]. split; [by rewrite length_store_dinode|]. unfold store_dinode, put32, put16.
  apply put_addrs_ok. by repeat apply putn_ok.
Qed.

(** The fields fit their C types. *)
Record inode_wf (p : inode) : Prop := {
  iw_type : -2^15 <= itype p < 2^15;
  iw_major : -2^15 <= imajor p < 2^15;
  iw_minor : -2^15 <= iminor p < 2^15;
  iw_nlink : -2^15 <= nlink p < 2^15;
  iw_size : 0 <= isize p < 2^32;
  iw_addrs : length (addrs p) = 13%nat /\ Forall (fun x => 0 <= x < 2^32) (addrs p);
}.

Lemma s16_put16 d o v : 0 <= o -> o + 2 <= Z.of_nat (length d) -> -2^15 <= v < 2^15 -> s16 (get16 (put16 d o v) o) = v.
Proof.
  intros Ho Hd Hv. unfold get16, put16. rewrite getn_putn_eq by lia. unfold s16, signed.
  change (256 ^ Z.of_nat 2) with (2^16). rewrite Zplus_mod_idemp_l. change (2^(16-1)) with (2^15). rewrite Z.mod_small; lia.
Qed.

Lemma get16_put16_ne d o o' v : 0 <= o -> 0 <= o' -> o + 2 <= o' \/ o' + 2 <= o -> get16 (put16 d o v) o' = get16 d o'.
Proof. intros. unfold get16, put16. apply getn_putn_ne; lia. Qed.

(** The disk part of [q] is that of [p]. *)
Definition copy_disk (p q : inode) : inode :=
  Inode (idev q) (inum q) (iref q) (ilk q) (ivalid q) (itype p) (imajor p) (iminor p) (nlink p) (isize p) (addrs p).

Lemma load_store_dinode p q d o :
  inode_wf p -> 0 <= o -> o + DINODE <= Z.of_nat (length d) -> load_dinode (store_dinode p d o) o q = copy_disk p q.
Proof.
  intros [Ht Hma Hmi Hn Hs [Hl Ha]] Ho Hd. unfold DINODE in Hd. unfold load_dinode, store_dinode, copy_disk.
  set (d4 := put16 (put16 (put16 (put16 d o (itype p)) (o + 2) (imajor p)) (o + 4) (iminor p)) (o + 6) (nlink p)).
  set (d5 := put32 d4 (o + 8) (isize p)).
  assert (length d4 = length d) as L4 by (unfold d4, put16; by rewrite !length_putn).
  assert (length d5 = length d) as L5 by (unfold d5, put32; by rewrite length_putn).
  assert (forall n x, o <= x -> x + Z.of_nat n <= o + 12 -> getn n (put_addrs (addrs p) d5 (o + 12)) x = getn n d5 x) as E5.
  { intros n x Hx Hn'. apply getn_ext. intros y Hy. apply get8_put_addrs_ne; lia. }
  assert (forall x, o <= x <= o + 6 -> get16 (put_addrs (addrs p) d5 (o + 12)) x = get16 d4 x) as E4.
  { intros x Hx. unfold get16. rewrite E5 by lia. unfold d5, put32. apply getn_putn_ne; lia. }
  rewrite !E4 by lia. unfold get32. rewrite E5 by lia. f_equal; unfold d4.
  - rewrite !get16_put16_ne by lia. apply s16_put16; lia.
  - rewrite !get16_put16_ne by lia. apply s16_put16; unfold put16; rewrite ?length_putn; lia.
  - rewrite get16_put16_ne by lia. apply s16_put16; unfold put16; rewrite ?length_putn; lia.
  - apply s16_put16; unfold put16; rewrite ?length_putn; lia.
  - fold (get32 d5 (o + 8)). unfold d5. rewrite get32_put32_eq by lia. by apply wrap32_small.
  - rewrite <- Hl at 1. apply get_put_addrs; [done|lia|]. lia.
Qed.

(** Another inode of the block is not affected. *)
Lemma load_store_other p q d o o' :
  length (addrs p) = 13%nat -> 0 <= o -> 0 <= o' -> o + DINODE <= o' \/ o' + DINODE <= o ->
  load_dinode (store_dinode p d o) o' q = load_dinode d o' q.
Proof.
  intros Hl Ho Ho' Hd. unfold load_dinode.
  assert (forall x, o' <= x < o' + DINODE -> get8 (store_dinode p d o) x = get8 d x) as E.
  { intros x Hx. apply get8_store_dinode_ne; lia. }
  unfold DINODE in E. unfold get16, get32.
  rewrite (get_addrs_ext 13 d) by (intros; apply E; lia).
  rewrite !(getn_ext _ d (store_dinode p d o)) by (intros; apply E; lia). done.
Qed.

(** ** Blocks of inodes *)

Definition ioff (n : Z) : Z := n mod IPB * DINODE.

(** Inode [n] as the disk has it. *)
Definition dinode_at (sb : superblock) (f : Z -> blk) (n : Z) (q : inode) : inode :=
  load_dinode (f (IBLOCK n sb)) (ioff n) q.

Lemma ioff_range n : 0 <= n -> 0 <= ioff n /\ ioff n + DINODE <= BSIZE.
Proof. unfold ioff, IPB, DINODE, BSIZE. intros. change (1024 / 64) with 16. dlia. Qed.

Lemma IBLOCK_range sb st n : layout sb st -> 0 <= n < ninodes sb ->
  IBLOCK n sb = n / IPB + inodestart sb /\ inodestart sb <= IBLOCK n sb < bmapstart sb.
Proof.
  intros Hl Hn. pose proof (layout_order _ _ Hl) as (? & ? & ? & ? & ?). destruct Hl as (? & ? & ? & ? & ? & ?).
  unfold IBLOCK, IPB, DINODE, BSIZE in *. change (1024 / 64) with 16 in *.
  assert (n / 16 <= ninodes sb / 16) by (apply Z.div_le_mono; lia). assert (0 <= n / 16) by (apply Z.div_pos; lia).
  rewrite wrap32_small by lia. lia.
Qed.

Lemma same_inode sb st n m : layout sb st -> 0 <= n < ninodes sb -> 0 <= m < ninodes sb ->
  n <> m -> IBLOCK n sb <> IBLOCK m sb \/ ioff n + DINODE <= ioff m \/ ioff m + DINODE <= ioff n.
Proof.
  intros Hl Hn Hm Hne. destruct (IBLOCK_range _ _ n Hl Hn) as [-> _], (IBLOCK_range _ _ m Hl Hm) as [-> _].
  unfold ioff, IPB, DINODE, BSIZE. change (1024 / 64) with 16. dlia.
Qed.

(** Storing an inode changes that inode only. *)
Lemma dinode_put sb st f p q i n : layout sb st -> length (f (IBLOCK i sb)) = Z.to_nat BSIZE -> inode_wf p ->
  0 <= i < ninodes sb -> 0 <= n < ninodes sb ->
  dinode_at sb (<[IBLOCK i sb := store_dinode p (f (IBLOCK i sb)) (ioff i)]> f) n q =
  if decide (n = i) then copy_disk p q else dinode_at sb f n q.
Proof.
  intros Hlay Hlen Hp Hi Hn. unfold dinode_at. destruct (ioff_range i) as [? ?]; [lia|]. destruct (ioff_range n) as [? ?]; [lia|].
  case_decide as E.
  - subst n. rewrite fn_lookup_insert. apply load_store_dinode; [done|done|]. unfold BSIZE in *. lia.
  - destruct (decide (IBLOCK n sb = IBLOCK i sb)) as [Eb|Eb]; [|by rewrite fn_lookup_insert_ne].
    rewrite Eb, fn_lookup_insert. apply load_store_other; [apply Hp|done|done|].
    destruct (same_inode sb st n i) as [?|?]; try done. lia.
Qed.

Section inode.
Context {dev : Z} {T U : Type} `{!Tx dev T} `{!CopyIO U}.
Implicit Types (s : fs_t T U) (a : atx).

Lemma inode_readable s a n :
  tx_rep (txs s) a -> layout (sb s) (ast a) -> aheld a = ∅ -> 0 <= n < ninodes (sb s) -> can_read a (IBLOCK n (sb s)).
Proof.
  intros H Hl Hh Hn. destruct (IBLOCK_range _ _ n Hl Hn) as [_ ?]. pose proof (layout_order _ _ Hl) as (? & ? & ? & ? & ?).
  split; [eapply layout_home; [done|done|lia]|]. split; [rewrite Hh; done|].
  pose proof (tx_cap_law _ _ H). rewrite Hh, map_size_empty. lia.
Qed.

(** [iupdate] writes the inode to its place on disk. *)
Definition t_iupdate (sb : superblock) (p : inode) (a : atx) : atx :=
  t_upd (IBLOCK (inum p) sb) (store_dinode p (av a (IBLOCK (inum p) sb)) (ioff (inum p))) a.

Lemma wp_iupdate s a p ip (Q : unit -> fs_t T U -> Prop) :
  fs_tx s a -> inodes s !! ip = Some p -> idev p = dev -> 0 <= inum p < ninodes (sb s) ->
  (size (alog a) < acap a)%nat -> 1 <= aops a ->
  (forall t, tx_rep t (t_iupdate (sb s) p a) -> Q tt (set_txs t s)) -> wp (iupdate ip) Q s.
Proof.
  intros [H Hfs Hh Hd] Hip Hdev Hn Hr Ho HQ. unfold iupdate. apply wp_bind, wp_gets. apply wp_bind, wp_gets.
  rewrite (inode_at_eq _ _ p), Hdev by done. apply wp_bind.
  assert (can_read a (IBLOCK (inum p) (sb s))) as Hc by (eapply inode_readable; [done|apply Hfs|done|done]).
  eapply wp_bread; [done|done|]. intros i t Hi Ht. apply wp_bind. eapply wp_data; [exact Ht|apply lookup_insert_eq|].
  eapply (wp_update _ a); [exact Ht|done|apply Hc|done|done|]. intros t' Ht'. apply (HQ t' Ht').
Qed.

Lemma fs_ok_iupdate sb p a : fs_ok sb (ast a) (av a) -> 0 <= inum p < ninodes sb -> fs_ok sb (ast a) (av (t_iupdate sb p a)).
Proof.
  intros H Hn. unfold t_iupdate. cbn [av t_upd]. apply fs_ok_put; [done|apply store_dinode_wf; apply H|].
  left. destruct (IBLOCK_range _ _ (inum p) (fo_layout _ _ _ H) Hn) as [_ ?]. lia.
Qed.

Lemma iupdate_dinode sb p q a n :
  fs_ok sb (ast a) (av a) -> inode_wf p -> 0 <= inum p < ninodes sb -> 0 <= n < ninodes sb ->
  dinode_at sb (av (t_iupdate sb p a)) n q = if decide (n = inum p) then copy_disk p q else dinode_at sb (av a) n q.
Proof.
  intros H Hp Hip Hn. unfold t_iupdate. cbn [av t_upd]. apply (dinode_put sb (ast a)); [apply H|apply H|done..].
Qed.
End inode.
