(* ===== verification/FsWrite.v ===== *)
(** * Writing a file (kernel/fs.c: writei)

    The effect of [writei] on the contents of the file, on the other blocks
    of the disk and on the inode, and the room it needs in the log. *)

From S2P Require Import Prelude Spinlock Sleeplock Block BlockCache Log Tx CopyIO Fs FsBlock FsFile FsRead FsInode.

(** The contents [g] with [bs] written at [off]. *)
Definition overlay (off : Z) (bs : list Z) (g : Z -> Z) : Z -> Z := fun o =>
  if decide (off <= o < off + Z.of_nat (length bs)) then default 0 (bs !! Z.to_nat (o - off)) else g o.

Lemma overlay_app off bs1 bs2 g o :
  overlay (off + Z.of_nat (length bs1)) bs2 (overlay off bs1 g) o = overlay off (bs1 ++ bs2) g o.
Proof.
  unfold overlay. rewrite length_app.
  repeat case_decide; try lia; try done.
  - rewrite lookup_app_r by lia. do 2 f_equal. lia.
  - rewrite lookup_app_l by lia. done.
Qed.

Lemma get8_splice b o bs x :
  0 <= o -> 0 <= x -> o + Z.of_nat (length bs) <= Z.of_nat (length b) ->
  get8 (splice b o bs) x = overlay o bs (get8 b) x.
Proof.
  intros Ho Hx Hl. unfold get8, splice, overlay. case_decide as H.
  - rewrite lookup_app_r by (rewrite length_take; lia). rewrite length_take.
    rewrite lookup_app_l by lia. do 2 f_equal. lia.
  - destruct (decide (x < o)).
    + rewrite lookup_app_l by (rewrite length_take; lia). by rewrite lookup_take_lt by lia.
    + rewrite lookup_app_r by (rewrite length_take; lia). rewrite length_take, lookup_app_r by lia.
      rewrite lookup_drop. do 2 f_equal. lia.
Qed.

(** ** One data block is replaced *)

Section put.
Context (sb : superblock) (st : Z) (f : Z -> blk) (l : list Z) (bn : Z) (d : blk).
Context (Hfs : fs_ok sb st f) (Hf : file_ok sb f l) (Hbn : 0 <= bn < MAXFILE) (Hnz : faddr f l bn <> 0).

Lemma put_slot j : 0 <= j < NSLOT -> slot (<[faddr f l bn := d]> f) l j = slot f l j.
Proof using Type*.
  intros Hj. unfold slot. destruct (j <? 13); [done|]. destruct (lat l 12 =? 0) eqn:E; [done|].
  f_equal. rewrite fn_lookup_insert_ne; [done|]. intros E12. destruct (bslot_range bn Hbn) as [Hr Hn].
  apply Hn, (fl_inj _ _ _ Hf); [done|done|done|]. exact E12.
Qed.

Lemma put_faddr bn' : 0 <= bn' < MAXFILE -> faddr (<[faddr f l bn := d]> f) l bn' = faddr f l bn'.
Proof using Type*. intros Hb. apply put_slot. by apply bslot_range. Qed.

Lemma put_content bn' : 0 <= bn' < MAXFILE ->
  content (<[faddr f l bn := d]> f) l bn' = if decide (bn' = bn) then d else content f l bn'.
Proof using Type*.
  intros Hb. unfold content. rewrite put_faddr by done. case_decide as E.
  - subst. replace (_ =? 0) with false by (bool_goal; done). apply fn_lookup_insert.
  - destruct (faddr f l bn' =? 0) eqn:E0; [done|]. apply fn_lookup_insert_ne. intros E1. apply E.
    apply bslot_inj; [lia|lia|]. symmetry. apply (fl_inj _ _ _ Hf); [by apply bslot_range|by apply bslot_range|done|done].
Qed.

Lemma put_evolved : evolved sb f l (<[faddr f l bn := d]> f) l.
Proof using Type*.
  pose proof (layout_order _ _ (fo_layout _ _ _ Hfs)) as (? & ? & ? & ? & ?).
  destruct (fl_data _ _ _ Hf (bslot bn)) as [Hr _]; [by apply bslot_range|done|]. fold (faddr f l bn) in Hr.
  assert (forall x, 0 <= x < sb_size sb -> used sb (<[faddr f l bn := d]> f) x = used sb f x) as Hu.
  { intros x Hx. apply used_other. destruct (BBLOCK_range _ _ x (fo_layout _ _ _ Hfs) Hx) as [_ ?]. lia. }
  constructor.
  - constructor.
    + apply (fl_len _ _ _ Hf).
    + intros j Hj. rewrite put_slot by done. intros Hs. destruct (fl_data _ _ _ Hf j Hj Hs) as [? ?]. split; [done|].
      rewrite Hu by lia. done.
    + intros j j' Hj Hj'. rewrite !put_slot by done. by apply (fl_inj _ _ _ Hf).
  - intros j Hj _. by apply put_slot.
  - intros j Hj _. left. by apply put_slot.
  - intros b Hb. by rewrite Hu.
  - intros b [Hb|(Hb & _ & Hn)]; apply fn_lookup_insert_ne; [lia|]. intros E. apply (Hn (bslot bn)); [by apply bslot_range|done].
Qed.
End put.

Lemma grown_filedata sb f l f' l' o :
  grown sb f l f' l' -> 0 <= o < MAXFILE * BSIZE -> filedata f' l' o = filedata f l o.
Proof.
  intros [_ Hc] Ho. unfold filedata. rewrite Hc; [done|]. change MAXFILE with 268 in *. unfold BSIZE in *. dlia.
Qed.

(** A chunk written into its block. *)
Lemma put_filedata sb st f l off bs o :
  fs_ok sb st f -> file_ok sb f l -> 0 <= off -> off / BSIZE < MAXFILE -> faddr f l (off / BSIZE) <> 0 ->
  off mod BSIZE + Z.of_nat (length bs) <= BSIZE -> 0 <= o < MAXFILE * BSIZE ->
  filedata (<[faddr f l (off / BSIZE) := splice (f (faddr f l (off / BSIZE))) (off mod BSIZE) bs]> f) l o =
  overlay off bs (filedata f l) o.
Proof.
  intros Hfs Hf Hoff Hbn Hnz Hl Ho. assert (0 <= off / BSIZE < MAXFILE) as Hbn' by (split; [apply Z.div_pos; done|done]).
  pose proof (Z.mod_pos_bound off BSIZE ltac:(done)). pose proof (Z.mod_pos_bound o BSIZE ltac:(done)).
  assert (0 <= o / BSIZE < MAXFILE) as Hob by (change MAXFILE with 268 in *; unfold BSIZE in *; dlia).
  unfold filedata at 1. rewrite (put_content sb st) by done.
  assert (content f l (off / BSIZE) = f (faddr f l (off / BSIZE))) as Hc.
  { unfold content. by replace (_ =? 0) with false by (bool_goal; done). }
  assert (length (f (faddr f l (off / BSIZE))) = Z.to_nat BSIZE) as Hlen by apply Hfs.
  pose proof (Z.div_mod o BSIZE). pose proof (Z.div_mod off BSIZE).
  case_decide as E.
  - rewrite get8_splice by (unfold BSIZE in *; lia). rewrite <- Hc, <- E. unfold overlay, filedata.
    repeat case_decide; try lia; try done. do 2 f_equal. rewrite E in *. lia.
  - unfold overlay, filedata. rewrite decide_False; [done|]. intros Hin. apply E.
    symmetry. apply (Z.div_unique_pos o BSIZE (off / BSIZE) (o - BSIZE * (off / BSIZE))); lia.
Qed.

(** ** Changes in front of the bitmap *)

Section below.
Context (sb : superblock) (st : Z) (f f' : Z -> blk) (l : list Z).
Context (Hl : layout sb st) (Hf : file_ok sb f l) (Hsame : forall x, bmapstart sb <= x -> f' x = f x).

Lemma below_slot j : slot f' l j = slot f l j.
Proof using Type*.
  unfold slot. destruct (j <? 13); [done|]. destruct (lat l 12 =? 0) eqn:E; [done|]. f_equal. apply Hsame.
  pose proof (layout_order _ _ Hl) as (? & ? & ? & ? & ?). apply Z.eqb_neq in E.
  destruct (fl_data _ _ _ Hf 12) as [Hr _]; [done|exact E|]. change (slot f l 12) with (lat l 12) in Hr. lia.
Qed.

Lemma below_used x : 0 <= x < sb_size sb -> used sb f' x = used sb f x.
Proof using Type*.
  intros Hx. unfold used. rewrite Hsame; [done|]. destruct (BBLOCK_range _ _ x Hl Hx) as [_ ?]. lia.
Qed.

Lemma below_file : file_ok sb f' l.
Proof using Type*.
  pose proof (layout_order _ _ Hl) as (? & ? & ? & ? & ?).
  constructor; [apply Hf| |].
  - intros j Hj. rewrite below_slot. intros Hnz. destruct (fl_data _ _ _ Hf j Hj Hnz). split; [done|]. rewrite below_used; [done|lia].
  - intros j j' Hj Hj'. rewrite !below_slot. by apply (fl_inj _ _ _ Hf).
Qed.

Lemma below_faddr bn : faddr f' l bn = faddr f l bn.
Proof using Type*. apply below_slot. Qed.

Lemma below_filedata o : 0 <= o < MAXFILE * BSIZE -> filedata f' l o = filedata f l o.
Proof using Type*.
  intros Ho. unfold filedata, content. rewrite below_faddr. destruct (faddr f l (o / BSIZE) =? 0) eqn:E; [done|].
  apply Z.eqb_neq in E. f_equal. apply Hsame. pose proof (layout_order _ _ Hl) as (? & ? & ? & ? & ?).
  destruct (fl_data _ _ _ Hf (bslot (o / BSIZE))) as [Hr _]; [|exact E|unfold faddr; lia].
  apply bslot_range. change MAXFILE with 268 in *. unfold BSIZE in *. dlia.
Qed.
End below.

(** ** The loop *)

Section writei.
Context {c : nat} {dev : Z} {T U : Type} `{!Tx dev T} `{!CopyIO U}.
Implicit Types (s : fs_t T U) (a : atx).

(** One more block for the log if the file has no indirect block yet. *)
Definition ind (l : list Z) : nat := if lat l 12 =? 0 then 1 else 0.

(** What an operation on the file may still use: [k] data blocks in the log,
    and as many free blocks. *)
Definition budget (sb : superblock) (a : atx) (m : gset Z) (k : nat) (l : list Z) : Prop :=
  slack c a m (k + ind l) /\ nfree sb (av a) (k + ind l) /\ bitmap_in sb m /\ (lat l 12 <> 0 -> lat l 12 ∈ m).

Lemma faddr_ind f l bn : NDIRECT <= bn -> faddr f l bn <> 0 -> lat l 12 <> 0.
Proof.
  unfold faddr, bslot, NDIRECT, slot. intros Hb. replace (bn <? 12) with false by (bool_goal; lia).
  replace (bn + 1 <? 13) with false by (bool_goal; lia). destruct (lat l 12 =? 0) eqn:E; [done|]. by b2p.
Qed.

(** Block [bn] of the file, added if necessary and with its place in the log. *)
Lemma wp_bmap_any s a m k p ip bn (Q : Z -> fs_t T U -> Prop) :
  fs_tx s a -> inodes s !! ip = Some p -> idev p = dev -> file_ok (sb s) (av a) (addrs p) ->
  0 <= bn < MAXFILE -> 1 <= aops a -> budget (sb s) a m (S k) (addrs p) ->
  (forall t a' m' l', fs_tx (with_addrs ip l' p t s) a' -> acap a' = acap a /\ ast a' = ast a /\ aops a' = aops a ->
     grown (sb s) (av a) (addrs p) (av a') l' -> faddr (av a') l' bn <> 0 -> faddr (av a') l' bn ∈ m' -> m ⊆ m' ->
     budget (sb s) a' m' k l' -> Q (faddr (av a') l' bn) (with_addrs ip l' p t s)) ->
  wp (bmap ip bn) Q s.
Proof.
  intros Hft Hip Hdev Hf Hbn Ho (Hsl & Hfr & Hbm & Hind) HQ. pose proof Hft as [Hrep Hok Hh Hd].
  destruct (decide (faddr (av a) (addrs p) bn = 0)) as [Hz|Hnz].
  - assert (1 <= need (addrs p) bn <= 1 + ind (addrs p))%nat as Hneed.
    { unfold need, ind. destruct (NDIRECT <=? bn), (lat (addrs p) 12 =? 0); simpl; lia. }
    set (k' := (S k + ind (addrs p) - need (addrs p) bn)%nat).
    eapply (wp_bmap_new s a m k' k' p ip bn); try done.
    + by replace (need (addrs p) bn + k')%nat with (S k + ind (addrs p))%nat by lia.
    + by replace (need (addrs p) bn + k')%nat with (S k + ind (addrs p))%nat by lia.
    + intros t a' m' l' [Brep Bok Bheld Bdirty Bpar Bgrown Baddr Bsub Bin Bind Bslack Bfree]. assert (k + ind l' <= k')%nat as Hk.
      { unfold k', need, ind in *. destruct Bgrown as [Hev _]. pose proof (ev_keep _ _ _ _ _ Hev 12 ltac:(done)) as Ek.
        change (lat (addrs p) 12 <> 0 -> lat l' 12 = lat (addrs p) 12) in Ek. pose proof (faddr_ind (av a') l' bn) as Hfi.
        destruct (NDIRECT <=? bn) eqn:Eb, (lat (addrs p) 12 =? 0) eqn:E, (lat l' 12 =? 0) eqn:E'; simpl; b2p; try lia; exfalso; tauto || lia. }
      apply (HQ t a' m' l'); try done; [constructor; try done; destruct Bpar as (_ & -> & _); done|].
      split; [|split; [|split]]; [eapply slack_weaken; [done|done|lia]|by eapply nfree_weaken| |done].
      intros b Hb. apply Bsub. by apply Hbm.
  - eapply wp_bmap_old; try done. intros t Ht. rewrite <- (with_addrs_same s ip p) by done.
    apply (HQ t a ({[ faddr (av a) (addrs p) bn ]} ∪ m) (addrs p)); try done.
    + split; [by apply evolved_refl|done].
    + set_solver.
    + set_solver.
    + split; [|split; [|split]].
      * apply slack_reserve. exact Hsl.
      * eapply nfree_weaken; [exact Hfr|lia].
      * intros b Hb. specialize (Hbm b Hb). set_solver.
      * intros H12. specialize (Hind H12). set_solver.
Qed.

(** The file system after [bs] was written at [off] of the file [l]. *)
Record wrote (s : fs_t T U) (a : atx) (l : list Z) (off : Z) (bs : list Z) (m : gset Z)
    (t : T) (a' : atx) (l' : list Z) : Prop := {
  wr_rep : tx_rep t a';
  wr_ok : fs_ok (sb s) (ast a) (av a');
  wr_held : aheld a' = ∅;
  wr_dirty : adirty a' = ∅;
  wr_par : acap a' = acap a /\ ast a' = ast a /\ aops a' = aops a;
  wr_ev : evolved (sb s) (av a) l (av a') l';
  wr_data : forall o, 0 <= o < MAXFILE * BSIZE -> filedata (av a') l' o = overlay off bs (filedata (av a) l) o;
  wr_blocks : forall o, off <= o < off + Z.of_nat (length bs) -> faddr (av a') l' (o / BSIZE) <> 0;
  wr_slack : exists m', m ⊆ m' /\ slack c a' m' 0;
}.

Definition with_file (ip : nat) (l : list Z) (p : inode) (t : T) (u : U) (s : fs_t T U) : fs_t T U :=
  Fs (sb s) (ic_lock s) (<[ip := set_addrs l p]> (inodes s)) t u.

Lemma with_file_same s ip p : inodes s !! ip = Some p -> with_file ip (addrs p) p (txs s) (um s) s = s.
Proof. intros H. destruct s as [sb0 lk inds t u]. unfold with_file. simpl in *. f_equal. apply list_insert_id. rewrite H. by destruct p. Qed.

Lemma wrote_nil s a m k p off : fs_tx s a -> file_ok (sb s) (av a) (addrs p) -> budget (sb s) a m k (addrs p) ->
  wrote s a (addrs p) off [] m (txs s) a (addrs p).
Proof.
  intros [Hrep Hok Hh Hd] Hf (Hsl & _). constructor; try done.
  - by apply evolved_refl.
  - intros o Ho. unfold overlay. by rewrite decide_False by (simpl; lia).
  - intros o Ho. simpl in Ho. lia.
  - exists m. split; [done|]. eapply slack_weaken; [done|done|lia].
Qed.

(** A chunk [b1] in block [off / BSIZE], then the rest [b2]. *)
Lemma wrote_cons s s2 a a1 l l1 off b1 b2 m m1 t a' l' :
  let bn := off / BSIZE in
  let a2 := t_upd (faddr (av a1) l1 bn) (splice (av a1 (faddr (av a1) l1 bn)) (off mod BSIZE) b1) a1 in
  fs_ok (sb s) (ast a1) (av a1) -> acap a1 = acap a /\ ast a1 = ast a /\ aops a1 = aops a -> sb s2 = sb s ->
  grown (sb s) (av a) l (av a1) l1 -> faddr (av a1) l1 bn <> 0 -> 0 <= off -> bn < MAXFILE ->
  off mod BSIZE + Z.of_nat (length b1) <= BSIZE -> m ⊆ m1 ->
  wrote s2 a2 l1 (off + Z.of_nat (length b1)) b2 m1 t a' l' -> wrote s a l off (b1 ++ b2) m t a' l'.
Proof.
  intros bn a2 Hok1 (Hp1 & Hp2 & Hp3) Esb [Hev1 Hc1] Hnz Hoff Hbn Hl Hm [Wrep Wok Wheld Wdirty Wpar Wev Wdata Wblk (m' & Wm & Wsl)].
  rewrite Esb in *. pose proof (layout_order _ _ (fo_layout _ _ _ Hok1)) as (? & ? & ? & ? & ?).
  assert (0 <= bn < MAXFILE) as Hbn' by (split; [by apply Z.div_pos|done]). pose proof (ev_ok _ _ _ _ _ Hev1) as Hf1.
  assert (evolved (sb s) (av a1) l1 (av a2) l1) as Hev2 by (by eapply put_evolved).
  constructor; try done.
  - change (ast a2) with (ast a1) in Wok. by rewrite <- Hp2.
  - cbn in Wpar. destruct Wpar as (-> & -> & ->). done.
  - eapply evolved_trans; [lia|exact Hev1|]. eapply evolved_trans; [lia|exact Hev2|done].
  - intros o Ho. rewrite Wdata by done. rewrite <- overlay_app. unfold overlay at 1 2. case_decide; [done|].
    transitivity (overlay off b1 (filedata (av a1) l1) o); [by eapply (put_filedata (sb s) (ast a1))|].
    unfold overlay. case_decide; [done|]. eapply grown_filedata; [split; [exact Hev1|exact Hc1]|done].
  - intros o Ho. rewrite length_app in Ho. destruct (decide (o < off + Z.of_nat (length b1))) as [Hlt|Hge]; [|apply Wblk; lia].
    replace (o / BSIZE) with bn.
    2:{ pose proof (Z.mod_pos_bound off BSIZE ltac:(done)). pose proof (Z.div_mod off BSIZE ltac:(done)) as Hdm. fold bn in Hdm.
        apply (Z.div_unique_pos o BSIZE bn (o - BSIZE * bn)); lia. }
    assert (faddr (av a2) l1 bn = faddr (av a1) l1 bn) as E by (by eapply put_faddr).
    unfold faddr at 1. rewrite (ev_keep _ _ _ _ _ Wev); fold (faddr (av a2) l1 bn); rewrite ?E; try done. by apply bslot_range.
  - exists m'. split; [set_solver|done].
Qed.

(** The bytes still to be written fit in [fuel] blocks. *)
Lemma wp_writei_loop v us ip fuel : forall s a m p src off n tot bs (Q : Z -> fs_t T U -> Prop),
  fs_tx s a -> inodes s !! ip = Some p -> idev p = dev -> file_ok (sb s) (av a) (addrs p) -> 1 <= aops a ->
  copy_rep (um s) v -> vbytes v (truth us) src bs -> n - tot = Z.of_nat (length bs) -> 0 <= tot -> n < 2^32 ->
  0 <= off -> off + (n - tot) <= MAXFILE * BSIZE ->
  (tot < n -> off mod BSIZE + (n - tot) <= Z.of_nat fuel * BSIZE) ->
  (tot < n -> 0 <= src /\ src + (n - tot) <= 2^64) ->
  budget (sb s) a m fuel (addrs p) ->
  (forall t u a' l', wrote s a (addrs p) off bs m t a' l' -> copy_rep u v -> Q (off + (n - tot)) (with_file ip l' p t u s)) ->
  wp (writei_loop fuel ip us src off n tot) Q s.
Proof.
  induction fuel as [|fuel IH]; intros s a m p src off n tot bs Q Hft Hip Hdev Hf Ho Hv Hbs Hlen Htot Hn Hoff Hend Hfuel Hsrc Hbud HQ;
    cbn [writei_loop]; pose proof (Z.mod_pos_bound off BSIZE ltac:(done)) as Hmod;
    destruct (tot <? n) eqn:E; b2p; cbn [negb]; try (exfalso; lia).
  1,3: apply wp_ret; replace off with (off + (n - tot)) by lia; rewrite <- (with_file_same s ip p) by done;
       apply (HQ _ _ a); [|done]; destruct bs; [by eapply wrote_nil|simpl in *; lia].
  set (r0 := n - tot) in *. assert (0 < r0) as Hr0 by lia. destruct (Hsrc ltac:(lia)) as [Hs0 Hs1].
  destruct (chunk_spec off r0 Hr0 Hoff) as (Hm & HmB & Hmm & _). fold (chunk off r0). set (k := chunk off r0) in *.
  assert (MAXFILE * BSIZE < 2^31) as Hmax by done.
  assert (off / BSIZE < MAXFILE) as Hbn by (apply Z.div_lt_upper_bound; [done|lia]). set (bn := off / BSIZE) in *.
  assert (0 <= bn < MAXFILE) as Hbn' by (split; [by apply Z.div_pos|done]).
  apply wp_bind, wp_gets. rewrite (inode_at_eq _ _ p) by done. apply wp_bind.
  eapply wp_bmap_any; try done. intros t1 a1 m1 l1 Hft1 Hpar1 Hg1 Hnz1 Hin1 Hsub1 Hbud1. rewrite Hdev.
  set (r := faddr (av a1) l1 bn) in *. set (s1 := with_addrs ip l1 p t1 s) in *.
  pose proof Hft1 as [Hrep1 Hok1 Hh1 Hd1]. pose proof (ev_ok _ _ _ _ _ (proj1 Hg1)) as Hf1.
  destruct (fl_data _ _ _ Hf1 (bslot bn)) as [Hdr _]; [by apply bslot_range|done|]. fold (faddr (av a1) l1 bn) r in Hdr.
  assert (can_read a1 r) as Hcr by (eapply (data_readable s1); [done|apply Hok1|done|done]).
  apply wp_bind. eapply (wp_bread s1 a1); [done|done|]. intros i t2 Hi Ht2.
  apply wp_bind. eapply wp_data; [exact Ht2|apply lookup_insert_eq|]. cbn [av t_hold].
  assert (length (av a1 r) = Z.to_nat BSIZE) as Hlr by apply Hok1.
  set (b1 := take (Z.to_nat k) bs). assert (Z.of_nat (length b1) = k) as Hl1 by (unfold b1; rewrite length_take; lia).
  assert (vbytes v (truth us) src b1) as Hb1 by (intros j x [Hj _]%lookup_take_Some; by apply Hbs).
  apply wp_bind, wp_on_um. eapply (copyin_law _ v us src k _ b1); [done|done|lia| |done|lia|].
  { rewrite length_bytes_at; unfold BSIZE in *; lia. }
  intros u1 Hu1. apply wp_bind, wp_on_tx. eapply tx_set_law; [exact Ht2|apply lookup_insert_eq|]. intros t3 Ht3. simpl.
  destruct Hbud1 as (Hsl1 & Hfr1 & Hbm1 & Hind1). pose proof (slack_room _ _ _ _ Hsl1) as Hroom.
  apply wp_bind, wp_on_tx. eapply (tx_log_write_law _ _ i r); [exact Ht3|apply lookup_insert_eq|apply Hcr|cbn in *; lia|cbn; lia|].
  intros t4 Ht4. apply wp_bind, wp_on_tx.
  eapply (tx_brelse_law _ _ i r); [exact Ht4|apply lookup_insert_eq|cbn; set_solver|]. intros t5 Ht5.
  rewrite t_upd_seq in Ht5 by done. set (a2 := t_upd r _ a1) in *.
  rewrite (wrap32_small (tot + k)), (wrap32_small (off + k)) by lia.
  match goal with |- wp _ _ ?x => change x with (with_file ip l1 p t5 u1 s) end. set (s2 := with_file ip l1 p t5 u1 s).
  assert (fs_ok (sb s) (ast a1) (av a2)) as Hok2.
  { apply fs_ok_put; [done| |right; lia]. apply splice_wf; [apply Hok1| |unfold BSIZE in *; lia].
    apply Forall_forall. intros x [j Hj]%list_elem_of_lookup. apply Hb1 in Hj. by eapply copy_bytes_law. }
  assert (length (drop (Z.to_nat k) bs) = Z.to_nat (r0 - k)) as Hl2 by (rewrite length_drop; lia).
  assert (k < r0 -> wrap64 (src + k) = src + k) as Hw by (intros; apply wrap64_small; lia).
  eapply (IH s2 a2 m1 (set_addrs l1 p) _ _ n (tot + k) (drop (Z.to_nat k) bs)); try done; try lia.
  - constructor; [done|done|done|]. cbn. rewrite Hd1. set_solver.
  - apply list_lookup_insert_eq. by eapply lookup_lt_Some.
  - by eapply (ev_ok _ _ _ _ _ (put_evolved (sb s) (ast a1) (av a1) l1 bn _ Hok1 Hf1 Hbn' Hnz1)).
  - cbn. lia.
  - intros j x Hj. pose proof (lookup_lt_Some _ _ _ Hj). rewrite lookup_drop in Hj. apply Hbs in Hj. rewrite Hw by lia.
    rewrite <- Hj. f_equal. lia.
  - intros Hlt. destruct (fuel_step off r0 fuel Hr0 Hoff (Hfuel ltac:(lia))) as [Hx|Hx]; fold k in Hx; lia.
  - split; [|split; [|split]]; [apply slack_upd, slack_in; done| |done|done].
    destruct Hfr1 as (fl & Hnd & Hle & Hfl). exists fl. splits; [done|done|]. intros b Hb. destruct (Hfl b Hb) as [Hr Hu].
    split; [done|]. cbn [av a2 t_upd]. rewrite used_other; [done|].
    destruct (BBLOCK_range _ _ b (fo_layout _ _ _ Hok1) Hr) as [_ Hx]. change (sb s1) with (sb s) in Hx. change (sb s2) with (sb s). lia.
  - intros t u a' l' Hwr Hu. replace (off + k + (n - (tot + k))) with (off + r0) by lia.
    assert (with_file ip l' (set_addrs l1 p) t u s2 = with_file ip l' p t u s) as ->.
    { unfold s2, with_file. cbn [inodes sb ic_lock]. f_equal. apply list_insert_insert_eq. }
    apply (HQ t u a' l'); [|done]. rewrite <- (take_drop (Z.to_nat k) bs). fold b1.
    eapply (wrote_cons s s2 a a1 _ l1 off b1); try done; [lia|]. rewrite Hl1. exact Hwr.
Qed.

(** ** writei *)

(** The file system after [writei] wrote [bs] at [off] of the file of [p]. *)
Record written (sb : superblock) (a : atx) (p : inode) (off : Z) (bs : list Z) (a' : atx) (p' : inode) : Prop := {
  wn_ok : fs_ok sb (ast a) (av a');
  wn_held : aheld a' = ∅;
  wn_dirty : adirty a' = ∅;
  wn_par : acap a' = acap a /\ ast a' = ast a /\ aops a' = aops a;
  wn_inode : p' = set_isize (Z.max (isize p) (off + Z.of_nat (length bs))) (set_addrs (addrs p') p);
  wn_wf : inode_wf p';
  wn_read : readable (dev := dev) sb (av a') p';
  wn_data : forall o, 0 <= o < MAXFILE * BSIZE -> filedata (av a') (addrs p') o = overlay off bs (filedata (av a) (addrs p)) o;
  wn_disk : forall n q, 0 <= n < ninodes sb ->
    dinode_at sb (av a') n q = if decide (n = inum p) then copy_disk p' q else dinode_at sb (av a) n q;
  wn_frame : forall b, dstart sb <= b < sb_size sb -> used sb (av a) b = true ->
    (forall j, 0 <= j < NSLOT -> slot (av a) (addrs p) j <> b) -> av a' b = av a b /\ used sb (av a') b = true;
  wn_log : (size (alog a') < c)%nat;
}.

Lemma wrote_holes s a p off bs m t a' l' :
  readable (dev := dev) (sb s) (av a) p -> 0 <= off <= isize p -> wrote s a (addrs p) off bs m t a' l' ->
  no_holes (av a') l' (Z.max (isize p) (off + Z.of_nat (length bs))).
Proof.
  intros Hrd Hoff W bn Hbn Hlt. destruct (decide (bn * BSIZE < isize p)) as [Hin|Hout].
  - assert (0 <= bslot bn < NSLOT) as Hs.
    { apply bslot_range. pose proof (rd_size _ _ _ Hrd). change MAXFILE with 268 in *. unfold BSIZE in *. lia. }
    pose proof (rd_holes _ _ _ Hrd bn Hbn Hin) as Hnz. unfold faddr. by rewrite (ev_keep _ _ _ _ _ (wr_ev _ _ _ _ _ _ _ _ _ W)).
  - pose proof (wr_blocks _ _ _ _ _ _ _ _ _ W (Z.max off (bn * BSIZE))) as Hb.
    replace (Z.max off (bn * BSIZE)) with (bn * BSIZE) in Hb by lia. rewrite Z.div_mul in Hb by done. apply Hb. lia.
Qed.

Lemma evolved_addrs sb st f l f' l' :
  fs_ok sb st f -> Forall (fun x => 0 <= x < 2^32) l -> evolved sb f l f' l' ->
  length l' = 13%nat /\ Forall (fun x => 0 <= x < 2^32) l'.
Proof.
  intros Hfs Hl Hev. pose proof (ev_ok _ _ _ _ _ Hev) as Hf'. pose proof (fl_len _ _ _ Hf') as Hlen. split; [done|].
  pose proof (layout_order _ _ (fo_layout _ _ _ Hfs)) as (? & ? & ? & ? & ?).
  apply Forall_forall. intros x [j Hj]%list_elem_of_lookup. pose proof (lookup_lt_Some _ _ _ Hj) as Hlt.
  assert (slot f' l' (Z.of_nat j) = x) as Es.
  { unfold slot, lat. replace (Z.of_nat j <? 13) with true by (bool_goal; lia). rewrite Nat2Z.id, Hj. done. }
  destruct (decide (x = 0)) as [->|Hnz]; [lia|]. destruct (fl_data _ _ _ Hf' (Z.of_nat j)) as [Hr _]; [change NSLOT with 269; lia|congruence|].
  rewrite Es in Hr. lia.
Qed.

Lemma written_intro s a p off bs m t a1 l1 :
  let p' := set_isize (Z.max (isize p) (off + Z.of_nat (length bs))) (set_addrs l1 p) in
  fs_ok (sb s) (ast a) (av a) -> readable (dev := dev) (sb s) (av a) p -> inode_wf p -> 0 <= inum p < ninodes (sb s) ->
  0 <= off <= isize p -> off + Z.of_nat (length bs) <= MAXFILE * BSIZE ->
  wrote s a (addrs p) off bs m t a1 l1 -> IBLOCK (inum p) (sb s) ∈ m ->
  written (sb s) a p off bs (t_iupdate (sb s) p' a1) p'.
Proof.
  intros p' Hfs Hrd Hwf Hn Hoff Hend W Hm. pose proof W as [Wrep Wok Wheld Wdirty Wpar Wev Wdata Wblk (m' & Wm & Wsl)].
  pose proof Wpar as (Wp1 & Wp2 & Wp3). rewrite <- Wp2 in Wok.
  pose proof (fo_layout _ _ _ Wok) as Hl. pose proof (layout_order _ _ Hl) as (? & ? & ? & ? & ?).
  destruct (IBLOCK_range _ _ (inum p) Hl Hn) as [_ Hib]. pose proof (ev_ok _ _ _ _ _ Wev) as Hf1.
  assert (inum p' = inum p) as Ein by done.
  assert (forall x, bmapstart (sb s) <= x -> av (t_iupdate (sb s) p' a1) x = av a1 x) as Hsame.
  { intros x Hx. unfold t_iupdate. cbn [av t_upd]. apply fn_lookup_insert_ne. rewrite Ein. lia. }
  assert (MAXFILE * BSIZE < 2^31) as Hmax by done. pose proof (rd_size _ _ _ Hrd) as Hsz.
  assert (inode_wf p') as Hwf'.
  { destruct Hwf as [? ? ? ? ? [? ?]]. constructor; try done; [cbn; lia|]. eapply evolved_addrs; [exact Hfs|done|exact Wev]. }
  constructor; try done.
  - rewrite <- Wp2. by apply fs_ok_iupdate.
  - cbn. rewrite Wdirty. set_solver.
  - constructor; [apply Hrd|by eapply below_file| |cbn; lia].
    intros bn Hbn Hlt. erewrite below_faddr by done. by eapply wrote_holes.
  - intros o Ho. erewrite below_filedata by done. by apply Wdata.
  - intros n q Hq. rewrite (iupdate_dinode (sb s)) by done. rewrite Ein. case_decide; [done|].
    unfold dinode_at. f_equal. apply (ev_frame _ _ _ _ _ Wev). left. by apply (IBLOCK_range _ _ _ Hl).
  - intros b Hb Hu Hns. rewrite Hsame by lia. rewrite (ev_frame _ _ _ _ _ Wev) by (right; done). split; [done|].
    erewrite below_used by (done || lia). apply (ev_used _ _ _ _ _ Wev); [lia|done].
  - unfold t_iupdate. cbn [alog t_upd]. rewrite Ein. assert (slack c (t_logged (IBLOCK (inum p) (sb s)) a1) m' 0) as Hs2.
    { apply slack_in; [done|]. by apply Wm. }
    apply slack_room in Hs2. cbn in Hs2. lia.
Qed.

Lemma wp_writei s a m p ip us src off n bs v (Q : Z -> fs_t T U -> Prop) :
  fs_tx s a -> inodes s !! ip = Some p -> readable (dev := dev) (sb s) (av a) p -> inode_wf p -> 0 <= inum p < ninodes (sb s) ->
  1 <= aops a -> copy_rep (um s) v -> vbytes v (truth us) src bs -> n = Z.of_nat (length bs) -> 0 < n ->
  0 <= off <= isize p -> off + n <= MAXFILE * BSIZE -> 0 <= src -> src + n <= 2^64 ->
  budget (sb s) a m (rw_fuel n) (addrs p) -> IBLOCK (inum p) (sb s) ∈ m ->
  (forall t u a' p', tx_rep t a' -> copy_rep u v -> written (sb s) a p off bs a' p' ->
     Q n (Fs (sb s) (ic_lock s) (<[ip := p']> (inodes s)) t u)) ->
  wp (writei ip us src off n) Q s.
Proof.
  intros Hft Hip Hrd Hwf Hn Ho Hv Hbs Hlen Hpos Hoff Hend Hs0 Hs1 Hbud Hm HQ. assert (MAXFILE * BSIZE < 2^31) as Hmax by done.
  pose proof (ft_ok _ _ Hft) as Hfs.
  unfold writei. apply wp_bind, wp_gets. rewrite (inode_at_eq _ _ p) by done. rewrite (wrap32_small (off + n)) by lia.
  replace (isize p <? off) with false by (bool_goal; lia). replace (off + n <? off) with false by (bool_goal; lia).
  replace (MAXFILE * BSIZE <? off + n) with false by (bool_goal; lia). cbn [orb]. apply wp_bind.
  eapply (wp_writei_loop v us ip (rw_fuel n) s a m p src off n 0 bs); try done; try lia; [apply Hrd|apply Hrd| |].
  { intros _. rewrite Z.sub_0_r. apply rw_fuel_enough. lia. }
  intros t u a1 l1 W Hu. rewrite Z.sub_0_r. apply wp_bind. replace (0 <? n) with true by (bool_goal; lia).
  apply wp_bind, wp_gets. assert (ip < length (inodes s))%nat as Hipl by (by eapply lookup_lt_Some).
  rewrite (inode_at_eq _ ip (set_addrs l1 p)) by (by apply list_lookup_insert_eq). cbn [isize set_addrs].
  set (p' := set_isize (Z.max (isize p) (off + n)) (set_addrs l1 p)).
  apply wp_bind. apply (wp_conseq _ (fun _ s' => s' = Fs (sb s) (ic_lock s) (<[ip := p']> (inodes s)) t u)).
  { destruct (isize p <? off + n) eqn:E; b2p.
    - apply wp_modify. rewrite (inode_at_eq _ ip (set_addrs l1 p)) by (by apply list_lookup_insert_eq).
      unfold with_file, set_inodes. cbn [inodes sb ic_lock txs um]. rewrite list_insert_insert_eq. unfold p'.
      by replace (Z.max (isize p) (off + n)) with (off + n) by lia.
    - apply wp_ret. unfold with_file, p'. replace (Z.max (isize p) (off + n)) with (isize p) by lia. done. }
  intros [] s' ->. pose proof W as [Wrep Wok Wheld Wdirty Wpar Wev Wdata Wblk (m' & Wm & Wsl)].
  pose proof (slack_room _ _ _ _ Wsl) as Hroom. destruct Wpar as (Wp1 & Wp2 & Wp3).
  eapply (wp_iupdate _ a1 p'); [constructor; [done|by rewrite Wp2|done|done]|by apply list_lookup_insert_eq|apply Hrd|done|lia|lia|].
  intros t2 Ht2. apply wp_ret. rewrite s32_small by lia. apply (HQ t2 u _ p' Ht2 Hu).
  unfold p'. rewrite Hlen. eapply (written_intro s a p off bs m t a1 l1); try done. by rewrite <- Hlen.
Qed.
End writei.
