(* ===== verification/FsTrunc.v ===== *)
(** * Truncating a file (kernel/fs.c: itrunc)

    [itrunc] frees exactly the blocks of the file. *)

From S2P Require Import Prelude Spinlock Sleeplock Block BlockCache Log Tx CopyIO Fs FsBlock FsFile FsRead FsInode FsWrite.

(** From [f] to [f'] the blocks satisfying [D] were freed and nothing outside
    the bitmap has changed. *)
Record freed (sb : superblock) (f : Z -> blk) (D : Z -> Prop) (f' : Z -> blk) : Prop := {
  fr_same : forall x, x < bmapstart sb \/ dstart sb <= x -> f' x = f x;
  fr_used : forall x, 0 <= x < sb_size sb -> (used sb f' x = true <-> used sb f x = true /\ ~ D x);
  fr_wf : forall x, blk_wf (f' x);
}.

Lemma freed_step sb st a f D b :
  layout sb st -> freed sb f D (av a) -> 0 <= b < sb_size sb -> freed sb f (fun x => D x \/ x = b) (av (t_free sb b a)).
Proof.
  intros Hl [Hs Hu Hw] Hb. destruct (BBLOCK_range _ _ b Hl Hb) as [_ ?]. constructor.
  - intros x Hx. unfold t_free. cbn [av t_upd]. rewrite fn_lookup_insert_ne by lia. by apply Hs.
  - intros x Hx. rewrite (used_free sb st) by done. rewrite andb_true_iff, negb_true_iff, Z.eqb_neq, Hu by done. intuition congruence.
  - intros x. unfold t_free. cbn [av t_upd]. destruct (decide (x = BBLOCK b sb)) as [->|].
    + rewrite fn_lookup_insert. by apply clear_bit_wf.
    + by rewrite fn_lookup_insert_ne.
Qed.

Lemma freed_ext sb f D D' f' : (forall x, D x <-> D' x) -> freed sb f D f' -> freed sb f D' f'.
Proof. intros H [Hs Hu Hw]. constructor; try done. intros x Hx. rewrite Hu by done. by rewrite H. Qed.

(** The addresses with the first [i] cleared. *)
Definition zero_upto (i : Z) (l : list Z) : list Z := replicate (Z.to_nat i) 0 ++ drop (Z.to_nat i) l.

Lemma zero_upto_step i l : length l = 13%nat -> 0 <= i < 13 -> <[Z.to_nat i := 0]> (zero_upto i l) = zero_upto (i + 1) l.
Proof.
  intros Hl Hi. unfold zero_upto. rewrite insert_app_r_alt by (rewrite length_replicate; lia). rewrite length_replicate, Nat.sub_diag.
  replace (Z.to_nat (i + 1)) with (Z.to_nat i + 1)%nat by lia. rewrite replicate_add, <- (assoc_L (++)). f_equal.
  destruct (drop (Z.to_nat i) l) as [|x r] eqn:E; [apply (f_equal length) in E; rewrite length_drop in E; simpl in E; lia|].
  simpl. f_equal. rewrite <- drop_drop, E. done.
Qed.

Lemma zero_upto_zero i l : length l = 13%nat -> 0 <= i < 13 -> lat l i = 0 -> zero_upto i l = zero_upto (i + 1) l.
Proof.
  intros Hl Hi Hz. rewrite <- zero_upto_step by done. symmetry. apply list_insert_id. unfold zero_upto.
  rewrite lookup_app_r by (rewrite length_replicate; lia). rewrite length_replicate, Nat.sub_diag, lookup_drop, Nat.add_0_r.
  unfold lat in Hz. destruct (lookup_lt_is_Some_2 l (Z.to_nat i)) as [x Hx]; [lia|]. rewrite Hx in *. simpl in Hz. by subst.
Qed.

Lemma lat_zero_upto i l j : length l = 13%nat -> 0 <= i <= j -> j < 13 -> lat (zero_upto i l) j = lat l j.
Proof.
  intros Hl Hi Hj. unfold lat, zero_upto. rewrite lookup_app_r by (rewrite length_replicate; lia).
  rewrite length_replicate, lookup_drop. do 2 f_equal. lia.
Qed.

Section itrunc.
Context {c : nat} {dev : Z} {T U : Type} `{!Tx dev T} `{!CopyIO U}.
Implicit Types (s : fs_t T U) (a : atx).
Context (sb0 : superblock) (a0 : atx) (l : list Z) (m : gset Z).
Context (Hfs : fs_ok sb0 (ast a0) (av a0)) (Hf : file_ok sb0 (av a0) l) (Hbm : bitmap_in sb0 m).

(** The state of the transaction after freeing the slots below [n], with the
    buffers [h] locked. *)
Record trunc_inv (h : gmap nat Z) (n : Z) (a : atx) : Prop := {
  ti_freed : freed sb0 (av a0) (fun x => x <> 0 /\ exists j, 0 <= j < n /\ j <> 12 /\ slot (av a0) l j = x) (av a);
  ti_held : aheld a = h;
  ti_dirty : adirty a = ∅;
  ti_par : acap a = acap a0 /\ ast a = ast a0 /\ aops a = aops a0;
  ti_slack : slack c a m 0;
}.

(** A slot that is empty, or the indirect block, is skipped. *)
Lemma trunc_skip h n a : trunc_inv h n a -> n = 12 \/ slot (av a0) l n = 0 -> trunc_inv h (n + 1) a.
Proof.
  intros [Hfr Hh Hd Hp Hs] Hz. constructor; try done. eapply freed_ext; [|exact Hfr]. intros x. simpl. split.
  - intros (Hx & j & ? & ? & ?). split; [done|]. exists j. split; [lia|done].
  - intros (Hx & j & ? & ? & ?). split; [done|]. exists j. split; [|done]. destruct (decide (j = n)); [|lia]. subst. lia.
Qed.

Lemma wp_trunc_free s h n a (Q : unit -> fs_t T U -> Prop) :
  trunc_inv h n a -> tx_rep (txs s) a -> sb s = sb0 -> 0 <= n < NSLOT -> n <> 12 -> slot (av a0) l n <> 0 ->
  (size h <= 1)%nat -> (forall i x, h !! i = Some x -> dstart sb0 <= x) -> 1 <= aops a0 ->
  (forall t a', tx_rep t a' -> trunc_inv h (n + 1) a' -> Q tt (set_txs t s)) ->
  wp (bfree dev (slot (av a0) l n)) Q s.
Proof using Type*.
  intros [Hfr Hh Hd Hp Hs] Hrep Esb Hn H12 Hnz Hsz Hhd Ho HQ. destruct (fl_data _ _ _ Hf n Hn Hnz) as [Hr Hu].
  set (b := slot (av a0) l n) in *. pose proof (fo_layout _ _ _ Hfs) as Hl. pose proof (layout_order _ _ Hl) as (? & ? & ? & ? & ?).
  destruct (BBLOCK_range _ _ b Hl ltac:(lia)) as [_ Hbb]. pose proof (slack_room _ _ _ _ Hs). pose proof (tx_cap_law _ _ Hrep).
  destruct Hp as (Hp1 & Hp2 & Hp3).
  eapply wp_bfree; [exact Hrep| | |lia|lia|].
  - rewrite Esb. split; [eapply layout_home; [exact Hl|done|lia]|]. rewrite Hh. split; [|lia].
    intros i Hi. apply Hhd in Hi. lia.
  - rewrite Esb. apply (fr_used _ _ _ _ Hfr); [lia|]. split; [done|]. intros (_ & j & Hj & _ & E).
    assert (n = j); [|lia]. apply (fl_inj _ _ _ Hf); (done || lia).
  - rewrite Esb. intros t Ht. apply (HQ t _ Ht). constructor; try done.
    + eapply freed_ext; [|by eapply freed_step; [exact Hl|exact Hfr|lia]]. intros x. simpl. split.
      * intros [(Hx & j & ? & ? & ?)| ->]; [|split; [done|by exists n; split; [lia|]]]. split; [done|]. exists j. split; [lia|done].
      * intros (Hx & j & ? & ? & E). destruct (decide (j = n)) as [->|]; [by right|left]. split; [done|]. exists j. split; [lia|done].
    + cbn. rewrite Hd. set_solver.
    + apply slack_upd, slack_in; [done|]. apply Hbm. lia.
Qed.

Context (s0 : fs_t T U) (ip : nat) (p : inode).
Context (Esb : sb s0 = sb0) (Hip : inodes s0 !! ip = Some p) (Hl : addrs p = l) (Hdev : idev p = dev) (Ho : 1 <= aops a0).

Definition all_slots (x : Z) : Prop := x <> 0 /\ exists j, 0 <= j < NSLOT /\ slot (av a0) l j = x.

Lemma wp_trunc_direct (Q : unit -> fs_t T U -> Prop) :
  tx_rep (txs s0) a0 -> trunc_inv ∅ 0 a0 ->
  (forall t a, tx_rep t a -> trunc_inv ∅ 12 a -> Q tt (with_addrs ip (zero_upto 12 l) p t s0)) ->
  wp (for_each (seqZ 0 NDIRECT) (fun i =>
    let! p := get_inode ip in
    if truth (addr_at p i) then
      bfree (idev p) (addr_at p i) ;;
      upd_inode ip (set_addr i 0)
    else ret tt)) Q s0.
Proof using Type*.
  intros Hrep Hinv HQ. pose proof (fl_len _ _ _ Hf) as Hlen.
  eapply wp_conseq; [apply (wp_for_each _ (fun rest s' => exists i t a, rest = seqZ i (12 - i) /\ 0 <= i <= 12 /\
      s' = with_addrs ip (zero_upto i l) p t s0 /\ tx_rep t a /\ trunc_inv ∅ i a))|].
  - intros x rest s' (i & t & a & E & Hi & -> & Ht & Hiv). destruct (decide (i = 12)) as [->|Hne]; [done|].
    rewrite seqZ_cons in E by lia. injection E as -> ->. apply wp_bind, wp_gets.
    rewrite (inode_at_eq _ ip (set_addrs (zero_upto i l) p)) by (by apply with_addrs_inode).
    change (addr_at _ i) with (lat (zero_upto i l) i). rewrite lat_zero_upto by lia.
    assert (slot (av a0) l i = lat l i) as Es by (unfold slot; by replace (i <? 13) with true by (bool_goal; lia)).
    change (idev (set_addrs (zero_upto i l) p)) with (idev p). rewrite Hdev.
    destruct (truth (lat l i)) eqn:Et; [apply truth_true in Et|apply truth_false in Et].
    + apply wp_bind. rewrite <- Es. eapply (wp_trunc_free _ ∅ i a); try done; [change NSLOT with 269; lia|congruence|by rewrite map_size_empty; lia|].
      intros t' a' Ht' Hiv'. apply wp_modify. exists (i + 1), t', a'. splits; try done; try lia; [f_equal; lia|].
      rewrite (inode_at_eq _ ip (set_addrs (zero_upto i l) p)) by exact (with_addrs_inode s0 ip (zero_upto i l) p t Hip).
      unfold with_addrs, set_inodes, set_txs. cbn [inodes sb ic_lock um txs]. f_equal. rewrite list_insert_insert_eq. f_equal.
      unfold set_addr. cbn [addrs set_addrs]. by rewrite zero_upto_step by lia.
    + apply wp_ret. exists (i + 1), t, a. splits; try done; try lia; [f_equal; lia|by rewrite <- zero_upto_zero by lia|].
      apply trunc_skip; [done|]. right. congruence.
  - exists 0, (txs s0), a0. splits; try done. change (zero_upto 0 l) with l. rewrite <- Hl, with_addrs_same by done. by destruct s0.
  - intros [] s' (i & t & a & E & Hi & -> & Ht & Hiv). assert (i = 12) as ->.
    { apply (f_equal length) in E. rewrite length_seqZ in E. simpl in E. lia. }
    by apply (HQ t a).
Qed.

Lemma wp_trunc_indirect s a i (Q : unit -> fs_t T U -> Prop) :
  let h := {[ i := lat l 12 ]} in
  lat l 12 <> 0 -> tx_rep (txs s) a -> sb s = sb0 -> trunc_inv h 13 a ->
  (forall t a', tx_rep t a' -> trunc_inv h NSLOT a' -> Q tt (set_txs t s)) ->
  wp (for_each (seqZ 0 NINDIRECT) (fun j =>
       if truth (get32 (av a0 (lat l 12)) (4 * j)) then bfree dev (get32 (av a0 (lat l 12)) (4 * j)) else ret tt)) Q s.
Proof using Type*.
  intros h H12 Hrep Es Hinv HQ. destruct (fl_data _ _ _ Hf 12) as [Hr12 _]; [done|done|]. change (slot _ _ 12) with (lat l 12) in Hr12.
  eapply wp_conseq; [apply (wp_for_each _ (fun rest s' => exists k t a, rest = seqZ k (256 - k) /\ 0 <= k <= 256 /\
      s' = set_txs t s /\ tx_rep t a /\ trunc_inv h (13 + k) a))|].
  - intros x rest s' (j & t & a' & E & Hj & -> & Ht & Hiv). destruct (decide (j = 256)) as [->|Hne]; [done|].
    rewrite seqZ_cons in E by lia. injection E as -> ->.
    assert (get32 (av a0 (lat l 12)) (4 * j) = slot (av a0) l (13 + j)) as Eg.
    { unfold slot. replace (13 + j <? 13) with false by (bool_goal; lia). replace (lat l 12 =? 0) with false by (bool_goal; done).
      do 2 f_equal. lia. }
    rewrite Eg. destruct (truth (slot (av a0) l (13 + j))) eqn:Et; [apply truth_true in Et|apply truth_false in Et].
    + eapply (wp_trunc_free _ h (13 + j) a'); try done; [change NSLOT with 269; lia|lia|unfold h; by rewrite map_size_singleton| |].
      { intros i' x [_ <-]%lookup_singleton_Some. lia. }
      intros t' a2 Ht' Hiv'. exists (j + 1), t', a2. splits; try done; try lia; [f_equal; lia|].
      by replace (13 + (j + 1)) with (13 + j + 1) by lia.
    + apply wp_ret. exists (j + 1), t, a'. splits; try done; try lia; [f_equal; lia|].
      replace (13 + (j + 1)) with (13 + j + 1) by lia. apply trunc_skip; [done|by right].
  - exists 0, (txs s), a. splits; try done. by destruct s.
  - intros [] s' (j & t & a' & E & Hj & -> & Ht & Hiv). assert (j = 256) as ->.
    { apply (f_equal length) in E. rewrite length_seqZ in E. simpl in E. lia. }
    by apply (HQ t a').
Qed.

(** The transaction once every block of the file is free. *)
Record trunc_done (a : atx) : Prop := {
  td_freed : freed sb0 (av a0) all_slots (av a);
  td_held : aheld a = ∅;
  td_dirty : adirty a = ∅;
  td_par : acap a = acap a0 /\ ast a = ast a0 /\ aops a = aops a0;
  td_slack : slack c a m 0;
}.

Lemma trunc_done_direct a : lat l 12 = 0 -> trunc_inv ∅ 12 a -> trunc_done a.
Proof.
  intros H12 [Hfr Hh Hd Hp Hs]. constructor; try done. eapply freed_ext; [|exact Hfr]. intros x. simpl. unfold all_slots. split.
  - intros (Hx & j & ? & ? & ?). split; [done|]. exists j. split; [change NSLOT with 269; lia|done].
  - intros (Hx & j & Hj & E). split; [done|]. exists j. unfold slot in E. destruct (j <? 13) eqn:Ej; apply Z.ltb_lt in Ej || apply Z.ltb_ge in Ej.
    + assert (j <> 12) by (intros ->; congruence). split; [lia|]. split; [done|]. unfold slot.
      by replace (j <? 13) with true by (bool_goal; lia).
    + rewrite H12 in E. simpl in E. congruence.
Qed.

Lemma trunc_done_indirect h a :
  0 <= lat l 12 < sb_size sb0 -> lat l 12 <> 0 -> trunc_inv h NSLOT a ->
  freed sb0 (av a0) all_slots (av (t_free sb0 (lat l 12) a)).
Proof using Hfs.
  intros Hr Hnz [Hfr _ _ _ _]. eapply freed_ext; [|eapply freed_step; [apply Hfs|exact Hfr|done]]. intros x. simpl. unfold all_slots. split.
  - intros [(Hx & j & ? & ? & ?)| ->]; [by eauto|]. split; [done|]. by exists 12.
  - intros (Hx & j & Hj & E). destruct (decide (j = 12)) as [->|]; [right; by rewrite <- E|left; by eauto 6].
Qed.

Lemma wp_trunc_tail s1 t1 a (Q : unit -> fs_t T U -> Prop) :
  s1 = with_addrs ip (zero_upto 12 l) p t1 s0 -> tx_rep t1 a -> trunc_inv ∅ 12 a ->
  (forall t a', tx_rep t a' -> trunc_done a' -> Q tt (with_addrs ip (zero_upto 13 l) p t s0)) ->
  wp (let! p := get_inode ip in
      if truth (addr_at p NDIRECT) then
        let! bp := bread_ (idev p) (addr_at p NDIRECT) in
        let! x := data_ bp in
        for_each (seqZ 0 NINDIRECT) (fun j =>
          if truth (get32 x (4 * j)) then bfree (idev p) (get32 x (4 * j)) else ret tt) ;;
        brelse_ bp ;;
        bfree (idev p) (addr_at p NDIRECT) ;;
        upd_inode ip (set_addr NDIRECT 0)
      else ret tt) Q s1.
Proof using Type*.
  intros -> Hrep Hinv HQ. pose proof (fl_len _ _ _ Hf) as Hlen. apply wp_bind, wp_gets.
  rewrite (inode_at_eq _ ip (set_addrs (zero_upto 12 l) p)) by (by apply with_addrs_inode).
  change (addr_at _ NDIRECT) with (lat (zero_upto 12 l) 12). rewrite lat_zero_upto by lia.
  change (idev (set_addrs (zero_upto 12 l) p)) with (idev p). rewrite Hdev.
  destruct (truth (lat l 12)) eqn:Et; [apply truth_true in Et|apply truth_false in Et].
  2: { apply wp_ret. rewrite (zero_upto_zero 12) by (done || lia). apply (HQ t1 a); [done|]. by apply trunc_done_direct. }
  destruct (fl_data _ _ _ Hf 12) as [Hr Hu]; [done|done|]. change (slot _ _ 12) with (lat l 12) in Hr, Hu.
  pose proof (fo_layout _ _ _ Hfs) as Hlay. pose proof (layout_order _ _ Hlay) as (? & ? & ? & ? & ?).
  destruct Hinv as [Hfr Hh Hd (Hp1 & Hp2 & Hp3) Hs]. pose proof (slack_room _ _ _ _ Hs). pose proof (tx_cap_law _ _ Hrep).
  apply wp_bind. eapply wp_bread; [exact Hrep| |].
  { split; [eapply layout_home; [exact Hlay|done|lia]|]. rewrite Hh. split; [done|]. rewrite map_size_empty. lia. }
  intros i t Hi Ht. apply wp_bind. eapply wp_data; [exact Ht|apply lookup_insert_eq|]. cbn [av t_hold].
  rewrite (fr_same _ _ _ _ Hfr) by lia. apply wp_bind.
  eapply (wp_trunc_indirect _ (t_hold i (lat l 12) a) i); try done.
  { apply (trunc_skip _ 12); [|by left]. constructor; try done. cbn. rewrite Hh. by rewrite insert_empty. }
  intros t2 a2 Ht2 Hi2. pose proof Hi2 as [Hfr2 Hh2 Hd2 (Hq1 & Hq2 & Hq3) Hs2].
  apply wp_bind. apply wp_on_tx. eapply tx_brelse_law; [exact Ht2|rewrite Hh2; apply lookup_singleton_eq|by rewrite Hd2|].
  intros t3 Ht3. pose proof (slack_room _ _ _ _ Hs2). pose proof (tx_cap_law _ _ Ht3). cbn [alog acap t_drop] in *.
  destruct (BBLOCK_range _ _ (lat l 12) Hlay ltac:(lia)) as [_ Hbb].
  apply wp_bind. eapply wp_bfree; [exact Ht3| | |cbn; lia|cbn; lia|].
  - cbn [sb set_txs with_addrs set_inodes]. rewrite Esb. unfold can_read. cbn [aheld alog t_drop]. rewrite Hh2, delete_singleton_eq.
    split; [|split; [done|rewrite map_size_empty; lia]].
    eapply layout_home; [exact Hlay|done|lia].
  - cbn. rewrite Esb. apply (fr_used _ _ _ _ Hfr2); [lia|]. split; [done|]. intros (_ & j & Hj & Hj12 & E).
    apply Hj12. apply (fl_inj _ _ _ Hf); (done || congruence).
  - intros t4 Ht4. apply wp_modify.
    rewrite (inode_at_eq _ ip (set_addrs (zero_upto 12 l) p)) by exact (with_addrs_inode s0 ip (zero_upto 12 l) p t1 Hip).
    match goal with |- Q tt ?st => replace st with (with_addrs ip (zero_upto 13 l) p t4 s0) end.
    + eapply HQ; [exact Ht4|]. cbn [sb set_txs with_addrs set_inodes] in *. rewrite Esb. constructor; cbn.
      * by eapply (trunc_done_indirect _ a2); [lia|done|].
      * by rewrite Hh2, delete_singleton_eq.
      * rewrite Hd2. set_solver.
      * done.
      * apply slack_upd, slack_in; [done|]. apply Hbm. lia.
    + unfold with_addrs, set_inodes, set_txs. cbn [inodes sb ic_lock um txs]. f_equal. rewrite list_insert_insert_eq. f_equal.
      unfold set_addr. cbn [addrs set_addrs]. by rewrite (zero_upto_step 12) by lia.
Qed.

Definition emptied : inode := set_isize 0 (set_addrs (replicate 13 0) p).

Lemma freed_fs_ok a D : freed sb0 (av a0) D (av a) -> (forall x, D x -> dstart sb0 <= x) -> fs_ok sb0 (ast a0) (av a).
Proof using Hfs.
  intros [Hs Hu Hw] Hd. destruct Hfs as [Hlay Hm _]. constructor; [done| |done].
  intros b Hb. pose proof (layout_order _ _ Hlay) as (? & ? & ? & ? & ?). apply Hu; [lia|]. split; [by apply Hm|].
  intros Hx%Hd. lia.
Qed.

(** [itrunc] frees every block of the file and nothing else, and writes the
    emptied inode to disk. *)
Lemma wp_itrunc (Q : unit -> fs_t T U -> Prop) :
  fs_tx s0 a0 -> slack c a0 m 0 -> 0 <= inum p < ninodes sb0 -> 
  (forall t a, trunc_done a -> tx_rep t (t_iupdate sb0 emptied a) ->
     Q tt (set_inodes (<[ip := emptied]> (inodes s0)) (set_txs t s0))) ->
  wp (itrunc ip) Q s0.
Proof using Type*.
  intros [Hrep _ Hh Hd] Hs Hn HQ. unfold itrunc. apply wp_bind. apply wp_trunc_direct; [done| |].
  { constructor; try done. constructor; [done| |apply Hfs]. intros x Hx. split; [|tauto]. intros Hu. split; [done|].
    intros (_ & j & Hj & _). lia. }
  intros t a Ht Hi. apply wp_bind_assoc, wp_bind.
  eapply (wp_trunc_tail _ t a); try done. intros t' a' Ht' Hd'.
  pose proof Hd' as [Hfr Hh' Hdi (Hp1 & Hp2 & Hp3) Hs']. pose proof (slack_room _ _ _ _ Hs').
  pose proof (fl_len _ _ _ Hf) as Hlen. assert (zero_upto 13 l = replicate 13 0) as Ez.
  { unfold zero_upto. rewrite drop_ge by lia. apply app_nil_r. }
  apply wp_bind, wp_modify. rewrite (inode_at_eq _ ip (set_addrs (replicate 13 0) p)) by (rewrite Ez; by apply with_addrs_inode).
  match goal with |- wp _ _ ?st => replace st with (set_inodes (<[ip := emptied]> (inodes s0)) (set_txs t' s0)) end.
  2: { unfold with_addrs, set_inodes, set_txs. cbn [inodes sb ic_lock um txs]. f_equal. by rewrite list_insert_insert_eq. }
  eapply (wp_iupdate _ a' emptied); cbn; rewrite ?Esb; try done; try lia.
  - constructor; try done. cbn. rewrite Esb, Hp2. eapply freed_fs_ok; [done|]. intros x (Hx & j & Hj & <-).
    by apply (fl_data _ _ _ Hf).
  - apply list_lookup_insert_eq. by eapply lookup_lt_Some.
  - intros t2 Ht2. by apply (HQ t2 a').
Qed.
End itrunc.

Lemma emptied_wf p : inode_wf p -> inode_wf (emptied p).
Proof. intros [? ? ? ? ? ?]. constructor; try done. split; [done|]. by repeat constructor. Qed.
