(* ===== verification/FsExample.v ===== *)
(** * Reference instances of the file system's interfaces

    The smallest things that keep the promises of [Tx] and [CopyIO]: a
    transaction that is its own abstract state, and a memory that is a view.
    With them, a small disk on which the theorems of the file system are run. *)

From S2P Require Import Prelude Spinlock Sleeplock Block BlockCache Log Tx CopyIO Fs FsBlock FsFile FsRead FsInode FsWrite.

(** ** A transaction in memory *)

Section memtx.
Context (dev : Z).

Definition room (a : atx) : Prop := (size (alog a) <= acap a < Z.to_nat NBUF)%nat.

Definition mtx_bread (d b : Z) : M atx nat := fun a =>
  if bool_decide (map_Forall (fun _ b' => b' <> b) (aheld a)) then
    let i := fresh (dom (aheld a)) in Ok i (t_hold i b a)
  else Blocked a.
Definition mtx_data (i : nat) : M atx blk := fun a =>
  match aheld a !! i with Some b => Ok (av a b) a | None => Panic "data" end.
Definition mtx_set (i : nat) (d : blk) : M atx unit := fun a =>
  match aheld a !! i with Some b => Ok tt (t_put b d a) | None => Panic "set" end.
Definition mtx_log_write (i : nat) : M atx unit := fun a =>
  match aheld a !! i with
  | Some b => if bool_decide (size (alog a) < acap a)%nat then Ok tt (t_logged b a) else Panic "too big a transaction"
  | None => Panic "log_write"
  end.
Definition mtx_brelse (i : nat) : M atx unit := modify (t_drop i).
Definition mtx_begin_op : M atx unit :=
  modify (fun a => ATx (av a) (alog a) (adirty a) (aheld a) (acap a) (ast a) (aops a + 1)).
Definition mtx_end_op : M atx unit :=
  modify (fun a => ATx (av a) (if aops a =? 1 then ∅ else alog a) ∅ ∅ (acap a) (ast a) (aops a - 1)).

#[export] Instance mem_tx_ops : TxOps atx := {|
  tx_bread := mtx_bread; tx_data := mtx_data; tx_set := mtx_set; tx_log_write := mtx_log_write;
  tx_brelse := mtx_brelse; tx_begin_op := mtx_begin_op; tx_end_op := mtx_end_op; tx_initlog _ _ := ret tt;
|}.

Lemma room_logged b a : room a -> (size (alog a) < acap a)%nat -> room (t_logged b a).
Proof.
  unfold room. intros H Hlt. cbn. rewrite size_union_alt, size_singleton.
  assert (size (alog a ∖ {[ b ]}) <= size (alog a))%nat by (apply subseteq_size; set_solver). lia.
Qed.

#[export] Program Instance mem_tx : Tx dev atx := {| tx_ops := mem_tx_ops; tx_rep s a := s = a /\ room a |}.
Next Obligation.
  intros s a b Q [-> Hr] Hb Hn Hs HQ. unfold wp. cbn. unfold mtx_bread. rewrite bool_decide_true.
  - apply HQ; [|done]. apply not_elem_of_dom, is_fresh.
  - intros i x Hi ->. by apply (Hn i).
Qed.
Next Obligation. intros s a i b Q [-> Hr] Hi HQ. unfold wp. cbn. unfold mtx_data. by rewrite Hi. Qed.
Next Obligation. intros s a i b d Q [-> Hr] Hi HQ. unfold wp. cbn. unfold mtx_set. rewrite Hi. by apply HQ. Qed.
Next Obligation.
  intros s a i b Q [-> Hr] Hi Hb Hlt Ho HQ. unfold wp. cbn. unfold mtx_log_write. rewrite Hi, bool_decide_true by done.
  apply HQ. split; [done|]. by apply room_logged.
Qed.
Next Obligation. intros s a i b Q [-> Hr] Hi Hd HQ. unfold wp. cbn. by apply HQ. Qed.
Next Obligation. intros s a Q [-> Hr] Hl HQ. unfold wp. cbn. by apply HQ. Qed.
Next Obligation.
  intros s a Q [-> Hr] Hh Hd Ho HQ. unfold wp. cbn. apply (HQ _ (av a)); [done|]. split; [done|].
  unfold room in *. cbn. destruct (_ =? 1); [rewrite size_empty|]; lia.
Qed.
Next Obligation. intros s a [-> Hr]. done. Qed.
End memtx.

(** ** A memory that is a view *)

Definition bytes_of (v : view) (user : bool) (a : Z) (n : nat) : list Z :=
  (fun i => default 0 (v user (a + i))) <$> seqZ 0 (Z.of_nat n).

Lemma accessible_alt v user a n : accessible v user a n <-> Forall (fun i => is_Some (v user (a + i))) (seqZ 0 n).
Proof.
  rewrite Forall_forall. split; intros H i Hi; apply H; [apply elem_of_seqZ in Hi; lia|apply elem_of_seqZ; lia].
Qed.

#[export] Instance accessible_dec v user a n : Decision (accessible v user a n).
Proof. refine (cast_if (decide (Forall (fun i => is_Some (v user (a + i))) (seqZ 0 n)))); by rewrite accessible_alt. Defined.

Definition vm_copyout (ud dst : Z) (bs : list Z) : M view Z := fun v =>
  if decide (accessible v (truth ud) dst (Z.of_nat (length bs))) then Ok 0 (vwrite (truth ud) dst bs v)
  else if truth ud then Ok (-1) v else Panic "kerneltrap".
Definition vm_copyin (old : list Z) (us src len : Z) : M view (Z * list Z) := fun v =>
  if decide (accessible v (truth us) src len) then Ok (0, bytes_of v (truth us) src (Z.to_nat len)) v
  else if truth us then Ok (-1, old) v else Panic "kerneltrap".

#[export] Instance view_copy_ops : CopyOps view := {|
  either_copyout := vm_copyout; either_copyin := vm_copyin;
  kread a n := gets (fun v => bytes_of v false a n);
  kwrite a bs := modify (vwrite false a bs);
|}.

Lemma bytes_of_vbytes v user a bs : vbytes v user a bs -> bytes_of v user a (length bs) = bs.
Proof.
  intros H. apply list_eq. intros i. unfold bytes_of. rewrite list_lookup_fmap. destruct (bs !! i) as [b|] eqn:E.
  - assert (i < length bs)%nat by (by eapply lookup_lt_Some). rewrite lookup_seqZ_lt by lia. cbn [fmap option_fmap option_map]. by rewrite Z.add_0_l, (H i b E).
  - rewrite lookup_seqZ_ge; [done|]. apply lookup_ge_None in E. lia.
Qed.

Definition view_ok (v : view) : Prop := forall user a b, v user a = Some b -> byte_ok b.

Lemma vwrite_ok user a bs v : view_ok v -> Forall byte_ok bs -> view_ok (vwrite user a bs v).
Proof. intros H Hb user' a' b. unfold vwrite. case_decide; [|apply H]. intros E. by eapply Forall_lookup_1. Qed.

#[export] Program Instance view_copy : CopyIO view := {| copy_ops := view_copy_ops; copy_rep u v := u = v /\ view_ok v |}.
Next Obligation. intros u v user a b [-> H]. apply H. Qed.
Next Obligation.
  intros u v ud dst bs Q [-> H] Ha Hb Hd Hd' HQ. unfold wp. cbn. unfold vm_copyout. rewrite decide_True by done.
  apply HQ. split; [done|]. by apply vwrite_ok.
Qed.
Next Obligation.
  intros u v ud dst bs Q [-> H] Ha Hu Hb Hd Hd' HQ. unfold wp. cbn. unfold vm_copyout. rewrite decide_False by done.
  rewrite Hu. apply (HQ v v); [done|]. apply only_range_refl.
Qed.
Next Obligation.
  intros u v us src len old bs Q [-> H] Hb Hl Ho Hs Hs' HQ. unfold wp. cbn. unfold vm_copyin.
  rewrite decide_True by (by eapply vbytes_accessible). subst len. rewrite Nat2Z.id, bytes_of_vbytes by done. by apply HQ.
Qed.
Next Obligation.
  intros u v us src len old Q [-> H] Ha Hu Hl Hb Hs Hs' HQ. unfold wp. cbn. unfold vm_copyin. rewrite decide_False by done.
  rewrite Hu. by apply HQ.
Qed.
Next Obligation. intros u v a bs Q [-> H] Hb HQ. unfold wp. cbn. unfold gets. by rewrite bytes_of_vbytes. Qed.
Next Obligation. intros u v a bs Q [-> H] Ha Hb HQ. unfold wp. cbn. apply HQ. split; [done|]. by apply vwrite_ok. Qed.

(** ** A small disk

    The layout mkfs gives a disk of 1000 blocks; one file, inode 2, ten bytes
    long with its data in block 46. *)

Definition ex_sb : superblock := SuperBlock FSMAGIC 1000 954 200 30 2 32 45.
Definition ex_bitmap : blk := replicate 5 255 ++ [127] ++ replicate 1018 0.
Definition ex_disk (b : Z) : blk := if b =? 45 then ex_bitmap else zero_blk.
Definition ex_inode : inode := Inode 1 2 1 initsleeplock 1 T_FILE 0 0 1 10 (46 :: replicate 12 0).
Definition ex_atx : atx := ATx ex_disk ∅ ∅ ∅ 29 2 1.
(** User memory at 4096 holds the bytes 7, 8, 9. *)
Definition ex_view : view := fun user a =>
  if user && (4096 <=? a) && (a <? 8192) then Some (if a <? 4099 then a - 4089 else 0) else None.
Definition ex_fs : fs_t atx view := Fs ex_sb spin_free [ex_inode] ex_atx ex_view.

Lemma ex_meta : meta_used ex_sb ex_disk.
Proof.
  assert (Forall (fun b => used ex_sb ex_disk b = true) (seqZ 0 46)) as H by (apply (bool_decide_unpack _); by vm_compute).
  intros b Hb. rewrite Forall_forall in H. apply H, elem_of_seqZ. change (dstart ex_sb) with 46 in Hb. lia.
Qed.

Lemma ex_bitmap_wf : blk_wf ex_bitmap.
Proof.
  split; [done|]. unfold ex_bitmap. apply Forall_app. split; [by apply Forall_replicate|].
  apply Forall_app. split; [|by apply Forall_replicate]. by constructor.
Qed.

Lemma ex_fs_ok : fs_ok ex_sb 2 ex_disk.
Proof.
  constructor; [done|apply ex_meta|]. intros b. unfold ex_disk. destruct (b =? 45); [apply ex_bitmap_wf|apply zero_blk_wf].
Qed.

Lemma ex_slot j : 0 <= j < NSLOT -> slot ex_disk (addrs ex_inode) j <> 0 -> j = 0.
Proof.
  intros Hj H. assert (Forall (fun j => slot ex_disk (addrs ex_inode) j = 0) (seqZ 1 268)) as Hz by (apply (bool_decide_unpack _); by vm_compute).
  destruct (decide (j = 0)) as [|Hne]; [done|]. exfalso. apply H. rewrite Forall_forall in Hz. apply Hz, elem_of_seqZ.
  change NSLOT with 269 in Hj. lia.
Qed.

Lemma ex_file_ok : file_ok ex_sb ex_disk (addrs ex_inode).
Proof.
  constructor; [done| |].
  - intros j Hj ->%ex_slot; done.
  - intros j j' Hj Hj' H E. rewrite (ex_slot j), (ex_slot j') by (done || congruence). done.
Qed.

Lemma ex_readable : readable (dev := 1) ex_sb ex_disk ex_inode.
Proof.
  constructor; [done|apply ex_file_ok| |done]. intros bn Hbn Hlt. unfold BSIZE in Hlt. cbn in Hlt.
  assert (bn = 0) as -> by lia. done.
Qed.

Lemma ex_fs_tx : fs_tx (dev := 1) ex_fs ex_atx.
Proof. constructor; [|apply ex_fs_ok|done|done]. split; [done|]. unfold room. cbn [alog acap ex_atx]. rewrite size_empty. change NBUF with 30. lia. Qed.

Lemma ex_nfree n : (n <= 900)%nat -> nfree ex_sb ex_disk n.
Proof.
  intros Hn. exists (seqZ 47 900). split; [apply NoDup_seqZ|]. split; [rewrite length_seqZ; lia|].
  assert (Forall (fun b => used ex_sb ex_disk b = false) (seqZ 47 900)) as H by (apply (bool_decide_unpack _); by vm_compute).
  rewrite Forall_forall in H. intros b Hb. split; [apply elem_of_seqZ in Hb; simpl; lia|by apply H].
Qed.

Lemma ex_inode_wf : inode_wf ex_inode.
Proof. constructor; try done. split; [done|]. apply (bool_decide_unpack _). by vm_compute. Qed.

Lemma ex_copy : copy_rep (um ex_fs) ex_view.
Proof.
  split; [done|]. intros user a b. unfold ex_view. destruct user; simpl; [|done].
  destruct (4096 <=? a) eqn:E1, (a <? 8192) eqn:E2; simpl; try done. unfold byte_ok.
  destruct (a <? 4099) eqn:E3; intros [= <-]; b2p; lia.
Qed.

Lemma ex_room : (size (alog ex_atx) + 1 < acap ex_atx)%nat.
Proof. cbn [alog acap ex_atx]. rewrite size_empty. lia. Qed.

Lemma ex_cap : (size (alog ex_atx) + Z.to_nat MAXOPBLOCKS <= acap ex_atx)%nat.
Proof. cbn [alog acap ex_atx]. rewrite size_empty. change (Z.to_nat MAXOPBLOCKS) with 10%nat. lia. Qed.

Lemma ex_cap2 : (size (alog ex_atx) + 2 < acap ex_atx)%nat.
Proof. cbn [alog acap ex_atx]. rewrite size_empty. lia. Qed.

Definition ex_bs : list Z := [7; 8; 9].

Lemma ex_src : vbytes ex_view true 4096 ex_bs.
Proof. intros [|[|[|]]] b; intros [= <-]; done. Qed.

Lemma ex_dst : accessible ex_view true 5000 3.
Proof. intros i Hi. assert (i = 0 \/ i = 1 \/ i = 2) as [-> | [-> | ->]] by lia; done. Qed.
