(* ===== verification/FsTheorems.v ===== *)
(** * What the file system promises (kernel/fs.c)

    The statements about [balloc], [readi], [writei] and [itrunc] for every
    implementation of the logging layer and of the copy routines, each run
    once on the small disk of [FsExample]. *)

From S2P Require Import Prelude Spinlock Sleeplock Block BlockCache Log Tx CopyIO Fs FsBlock FsFile FsRead FsInode FsWrite FsTrunc FsExample.

Section fs.
Context {dev : Z} {T U : Type} `{!Tx dev T} `{!CopyIO U}.
Implicit Types (s : fs_t T U) (a : atx).

(** ** Allocation *)

(** [balloc] on a full disk: every bitmap block is searched in vain. *)
Lemma balloc_loop_full n : forall s a k,
  tx_rep (txs s) a -> layout (sb s) (ast a) -> held_data (sb s) a -> adirty a = ∅ -> (size (alog a) < acap a)%nat -> 0 <= k ->
  k + Z.of_nat n = (sb_size (sb s) + BPB - 1) / BPB ->
  (forall b, 0 <= b < sb_size (sb s) -> used (sb s) (av a) b = true) ->
  panics (balloc_loop ((fun k => k * BPB) <$> seqZ k (Z.of_nat n)) dev) "balloc: out of blocks" s.
Proof.
  induction n as [|n IH]; intros s a k H Hl Hh Hd Hr Hk Hn Hfull; [done|]. assert (0 < BPB) by done.
  rewrite seqZ_cons by lia. cbn [fmap list_fmap balloc_loop]. apply panics_bind, wp_gets.
  assert (0 <= k * BPB < sb_size (sb s)) as Hkb by (unfold BPB, BSIZE in *; change (1024*8) with 8192 in *; dlia).
  apply panics_bind. eapply wp_bread; [exact H|by eapply bitmap_readable|]. intros i t Hi Ht.
  apply panics_bind. eapply wp_data; [exact Ht|apply lookup_insert_eq|]. cbn [av t_hold].
  assert (forall y, 0 <= y < BPB -> used (sb s) (av a) (k * BPB + y) = bit_set (av a (BBLOCK (k * BPB) (sb s))) y) as Hu.
  { intros y Hy. unfold used, BBLOCK. rewrite Z.div_add_l, (Z.add_comm (k * BPB) y), Z.mod_add, Z.mod_small by lia.
    rewrite (Z.div_small y), Z.add_0_r, Z.div_mul by lia. done. }
  pose proof (balloc_scan_spec (Z.to_nat BPB) 0 (k * BPB) (sb_size (sb s)) (av a (BBLOCK (k * BPB) (sb s)))) as Hscan.
  destruct (balloc_scan _ _ _ _ _) as [bi|].
  - destruct Hscan as (Hbi & Hlt & Hclr & _). unfold BPB, BSIZE in *. rewrite <- Hu, Hfull in Hclr by lia. done.
  - apply panics_bind. eapply wp_brelse; [exact Ht|done|rewrite Hd; set_solver|]. intros t' Ht'.
    change (set_txs t' (set_txs t s)) with (set_txs t' s). replace (Z.pred (Z.of_nat (S n))) with (Z.of_nat n) by lia.
    change (Z.succ k) with (k + 1). eapply (IH _ a (k + 1)); try done; [lia|cbn [sb set_txs]; lia].
Qed.

(** [balloc] takes the first free block of the disk, which is a data
    block, marks exactly that one as used, clears it, and leaves every other
    block alone; on a full disk it panics. *)
Theorem balloc_correct s a :
  tx_rep (txs s) a -> fs_ok (sb s) (ast a) (av a) -> held_data (sb s) a -> adirty a = ∅ ->
  (size (alog a) + 1 < acap a)%nat -> 1 <= aops a ->
  (forall b0, 0 <= b0 < sb_size (sb s) -> used (sb s) (av a) b0 = false ->
    wp (balloc dev) (fun b s' => exists a', tx_rep (txs s') a' /\ s' = set_txs (txs s') s /\
      dstart (sb s) <= b <= b0 /\ used (sb s) (av a) b = false /\
      (forall b', 0 <= b' < b -> used (sb s) (av a) b' = true) /\
      av a' b = zero_blk /\
      (forall x, 0 <= x < sb_size (sb s) -> used (sb s) (av a') x = (b =? x) || used (sb s) (av a) x) /\
      (forall x, x <> b -> x <> BBLOCK b (sb s) -> av a' x = av a x)) s) /\
  ((forall b, 0 <= b < sb_size (sb s) -> used (sb s) (av a) b = true) -> panics (balloc dev) "balloc: out of blocks" s).
Proof.
  intros H Hfs Hh Hd Hr Ho. pose proof (fo_layout _ _ _ Hfs) as Hl. split.
  - intros b0 Hb0 Hf0. eapply wp_balloc; try done; [apply Hfs|by exists b0|].
    intros b t Hb Hfree Hlow Ht. exists (t_alloc (sb s) b a). split; [done|]. split; [done|].
    assert (b <= b0). { destruct (decide (b <= b0)); [done|]. rewrite Hlow in Hf0 by lia. done. }
    splits; try done; try lia.
    + unfold t_alloc. cbn [av t_upd]. apply fn_lookup_insert.
    + intros x Hx. by eapply used_alloc; [|apply Hfs| |].
    + intros x Hx Hx'. unfold t_alloc. cbn [av t_upd]. by rewrite !fn_lookup_insert_ne by done.
  - intros Hfull. unfold balloc. apply panics_bind, wp_gets.
    assert (0 <= (sb_size (sb s) + BPB - 1) / BPB).
    { pose proof (layout_order _ _ Hl) as (? & ? & ? & ? & ?). apply Z.div_pos; [unfold BPB, BSIZE; lia|done]. }
    rewrite <- (Z2Nat.id ((sb_size (sb s) + BPB - 1) / BPB)) by done.
    eapply (balloc_loop_full _ s a 0); try done; lia.
Qed.
(** ** Writing *)

(** The blocks besides data blocks that a write may log: bitmap, inode and
    indirect block. *)
Definition wmeta (sb : superblock) (p : inode) : gset Z :=
  {[ bmapstart sb ]} ∪ ({[ IBLOCK (inum p) sb ]} ∪ (if lat (addrs p) 12 =? 0 then ∅ else {[ lat (addrs p) 12 ]})).

Lemma size_add (x : Z) (m : gset Z) : (size ({[ x ]} ∪ m) <= size m + 1)%nat.
Proof. rewrite size_union_alt, size_singleton. assert (size (m ∖ {[ x ]}) <= size m)%nat by (apply subseteq_size; set_solver). lia. Qed.

Lemma size_union_le (m m' : gset Z) : (size (m ∪ m') <= size m + size m')%nat.
Proof. rewrite size_union_alt. assert (size (m' ∖ m) <= size m')%nat by (apply subseteq_size; set_solver). lia. Qed.

Lemma bitmap_single sb m : 0 <= bmapstart sb < 2^32 -> sb_size sb <= BPB -> bmapstart sb ∈ m -> bitmap_in sb m.
Proof. intros Hr Hs Hm b Hb. unfold BBLOCK. rewrite Z.div_small by lia. rewrite Z.add_0_l, wrap32_small by lia. done. Qed.

(** The budget of a write of at most three blocks. *)
Lemma write_budget sb a p n :
  layout sb (ast a) -> 0 < n <= 3 * BSIZE -> sb_size sb <= BPB -> (size (alog a) + Z.to_nat MAXOPBLOCKS <= acap a)%nat -> nfree sb (av a) 6 ->
  budget (c := size (alog a) + Z.to_nat MAXOPBLOCKS) sb a (wmeta sb p) (rw_fuel n) (addrs p).
Proof.
  intros Hl Hn Hs Hc Hf. assert (rw_fuel n <= 5)%nat as Hfu by (unfold rw_fuel, BSIZE in *; dlia).
  pose proof (layout_order _ _ Hl) as (? & ? & ? & ? & ?). split; [|split; [|split]].
  - unfold slack, ind. change (Z.to_nat MAXOPBLOCKS) with 10%nat in *. pose proof (size_union_le (alog a) (wmeta sb p)).
    unfold wmeta in *. pose proof (size_add (bmapstart sb) ({[IBLOCK (inum p) sb]} ∪ (if lat (addrs p) 12 =? 0 then ∅ else {[lat (addrs p) 12]}))).
    pose proof (size_add (IBLOCK (inum p) sb) (if lat (addrs p) 12 =? 0 then ∅ else {[lat (addrs p) 12]})).
    destruct (lat (addrs p) 12 =? 0); rewrite ?size_empty, ?size_singleton in *; lia.
  - eapply nfree_weaken; [done|]. unfold ind. destruct (_ =? 0); lia.
  - apply bitmap_single; [lia|done|]. unfold wmeta. set_solver.
  - intros Hne. unfold wmeta. replace (lat (addrs p) 12 =? 0) with false by (bool_goal; done). set_solver.
Qed.

(** C3. A write of at most three blocks (the most that [filewrite] asks for)
    that starts inside the file succeeds, puts exactly the given bytes at the
    offset and leaves the rest of the file as it was, sets the size to cover
    them, brings the inode on disk in step with the one in memory and leaves
    every other inode and every block of other files unchanged; it puts less
    than [MAXOPBLOCKS] new blocks in the log. *)
Theorem writei_correct s a p ip us src off bs v :
  let n := Z.of_nat (length bs) in
  fs_tx s a -> inodes s !! ip = Some p -> readable (dev := dev) (sb s) (av a) p -> inode_wf p -> 0 <= inum p < ninodes (sb s) ->
  1 <= aops a -> copy_rep (um s) v -> vbytes v (truth us) src bs -> 0 < n <= 3 * BSIZE ->
  0 <= off <= isize p -> off + n <= MAXFILE * BSIZE -> 0 <= src -> src + n <= 2^64 ->
  sb_size (sb s) <= BPB -> (size (alog a) + Z.to_nat MAXOPBLOCKS <= acap a)%nat -> nfree (sb s) (av a) 6 ->
  wp (writei ip us src off n) (fun r s' => r = n /\ exists a' p',
    inodes s' = <[ip := p']> (inodes s) /\ tx_rep (txs s') a' /\ copy_rep (um s') v /\
    written (c := size (alog a) + Z.to_nat MAXOPBLOCKS) (dev := dev) (sb s) a p off bs a' p') s.
Proof.
  intros n Hft Hip Hrd Hwf Hi Ho Hv Hbs Hn Hoff Hend Hs0 Hs1 Hsz Hcap Hfree.
  eapply (wp_writei _ a (wmeta (sb s) p)); try done; [lia| | |].
  - apply write_budget; try done. apply Hft.
  - unfold wmeta. set_solver.
  - intros t u a' p' Ht Hu W. split; [done|]. by exists a', p'.
Qed.

(** A write past the end of the file, past the largest file, or whose end
    does not fit 32 bits is refused, and changes nothing. *)
Theorem writei_refused s p ip us src off n :
  inodes s !! ip = Some p -> 0 <= off < 2^32 -> 0 <= n < 2^32 ->
  isize p < off \/ MAXFILE * BSIZE < off + n -> writei ip us src off n s = Ok (-1) s.
Proof.
  intros Hip Ho Hn Hbad. unfold writei, get_inode, bind, gets. rewrite (inode_at_eq _ _ p) by done.
  assert (MAXFILE * BSIZE < 2^31) by done.
  destruct ((isize p <? off) || (wrap32 (off + n) <? off)) eqn:E; [done|]. b2p.
  destruct Hbad as [|Hbig]; [lia|]. assert (off + n < 2^32).
  { destruct (decide (off + n < 2^32)); [done|]. exfalso.
    assert (wrap32 (off + n) = off + n - 2^32) by (unfold wrap32; symmetry; apply (Z.mod_unique _ _ 1); lia). lia. }
  rewrite wrap32_small by lia. replace (MAXFILE * BSIZE <? off + n) with true by (bool_goal; lia). done.
Qed.

(** ** Reading back *)

(** C4. What was written is read back: after a [writei] of [bs] at [off],
    [readi] of the same range returns the same number of bytes and puts [bs]
    at its destination. *)
Theorem write_read_roundtrip s a p ip us src off bs v ud dst :
  let n := Z.of_nat (length bs) in
  fs_tx s a -> inodes s !! ip = Some p -> readable (dev := dev) (sb s) (av a) p -> inode_wf p -> 0 <= inum p < ninodes (sb s) ->
  1 <= aops a -> copy_rep (um s) v -> vbytes v (truth us) src bs -> 0 < n <= 3 * BSIZE ->
  0 <= off <= isize p -> off + n <= MAXFILE * BSIZE -> 0 <= src -> src + n <= 2^64 ->
  sb_size (sb s) <= BPB -> (size (alog a) + Z.to_nat MAXOPBLOCKS <= acap a)%nat -> nfree (sb s) (av a) 6 ->
  accessible v (truth ud) dst n -> 0 <= dst -> dst + n <= 2^64 ->
  wp (let! w := writei ip us src off n in let! r := readi ip ud dst off n in ret (w, r))
     (fun r s' => r = (n, n) /\ exists v', copy_rep (um s') v' /\ vbytes v' (truth ud) dst bs /\ only_range (truth ud) dst n v v') s.
Proof.
  intros n Hft Hip Hrd Hwf Hi Ho Hv Hbs Hn Hoff Hend Hs0 Hs1 Hsz Hcap Hfree Hacc Hd0 Hd1. assert (MAXFILE * BSIZE < 2^31) by done.
  apply wp_bind. eapply (wp_writei (c := size (alog a) + Z.to_nat MAXOPBLOCKS) _ a (wmeta (sb s) p)); try done; [lia| | |].
  { apply write_budget; try done. apply Hft. }
  { unfold wmeta. set_solver. }
  intros t u a' p' Ht Hu W. pose proof (wn_inode _ _ _ _ _ _ _ W) as Ep.
  assert (isize p' = Z.max (isize p) (off + n)) as Esz by (by rewrite Ep).
  apply wp_bind. eapply (wp_readi p' ip a' _ v); cbn [sb um inodes]; try done; try lia.
  - constructor; cbn; try done; [by rewrite (proj1 (proj2 (wn_par _ _ _ _ _ _ _ W))); apply W|apply W|apply W].
  - apply list_lookup_insert_eq. by eapply lookup_lt_Some.
  - apply W.
  - right. replace ((isize p' <? off) || (2^32 <=? off + n)) with false by (symmetry; apply orb_false_intro; [apply Z.ltb_ge|apply Z.leb_gt]; lia).
    rewrite Z.min_l by lia. done.
  - replace ((isize p' <? off) || (2^32 <=? off + n)) with false by (symmetry; apply orb_false_intro; [apply Z.ltb_ge|apply Z.leb_gt]; lia).
    rewrite Z.min_l by lia. intros r t2 u2 v' Ht2 Hu2 (Hr & Hacc' & Hdata & Honly). rewrite (Hacc' Hacc) in *. apply wp_ret.
    split; [done|]. exists v'. split; [done|]. split; [|done]. intros i b Hb. pose proof (lookup_lt_Some _ _ _ Hb).
    rewrite Hdata by lia. rewrite (wn_data _ _ _ _ _ _ _ W) by lia. unfold overlay. rewrite decide_True by lia.
    f_equal. replace (Z.to_nat (off + Z.of_nat i - off)) with i by lia. by rewrite Hb.
Qed.

(** ** Truncation *)

(** C5. [itrunc] frees every block of the file, direct, indirect and the
    indirect block itself, and no other; the contents of all blocks but the
    bitmap and the inode's own are unchanged, and the inode, in memory and on
    disk, has size zero and no blocks. *)
Theorem itrunc_correct s a p ip :
  fs_tx s a -> inodes s !! ip = Some p -> idev p = dev -> file_ok (sb s) (av a) (addrs p) -> inode_wf p ->
  0 <= inum p < ninodes (sb s) -> 1 <= aops a -> sb_size (sb s) <= BPB -> (size (alog a) + 2 < acap a)%nat ->
  wp (itrunc ip) (fun _ s' => exists a', tx_rep (txs s') a' /\
    inodes s' = <[ip := emptied p]> (inodes s) /\ isize (emptied p) = 0 /\ addrs (emptied p) = replicate 13 0 /\
    (forall x, 0 <= x < sb_size (sb s) -> used (sb s) (av a') x = true <->
       used (sb s) (av a) x = true /\ ~ (x <> 0 /\ exists j, 0 <= j < NSLOT /\ slot (av a) (addrs p) j = x)) /\
    (forall x, dstart (sb s) <= x -> av a' x = av a x) /\
    (forall n q, 0 <= n < ninodes (sb s) -> dinode_at (sb s) (av a') n q =
       if decide (n = inum p) then copy_disk (emptied p) q else dinode_at (sb s) (av a) n q) /\
    (size (alog a') <= size (alog a) + 2)%nat) s.
Proof using Type*.
  intros Hft Hip Hdev Hf Hwf Hi Ho Hsz Hcap. pose proof (ft_ok _ _ Hft) as Hfs. pose proof (fo_layout _ _ _ Hfs) as Hl.
  pose proof (layout_order _ _ Hl) as (? & ? & ? & ? & ?).
  eapply (wp_itrunc (c := size (alog a) + 2) (sb s) a (addrs p) {[ bmapstart (sb s) ]} Hfs Hf); try done.
  { apply bitmap_single; [lia|done|set_solver]. }
  { unfold slack. pose proof (size_union_le (alog a) {[bmapstart (sb s)]}). rewrite size_singleton in *. lia. }
  intros t a1 [Hfr Hh Hd (Hp1 & Hp2 & Hp3) Hs] Ht.
  assert (fs_ok (sb s) (ast a1) (av a1)) as Hfs1.
  { rewrite Hp2. eapply freed_fs_ok; try done. intros x (Hx & j & Hj & <-). by apply (fl_data _ _ _ Hf). }
  destruct (IBLOCK_range _ _ (inum p) Hl Hi) as [_ Hib].
  exists (t_iupdate (sb s) (emptied p) a1). splits; try done.
  - intros x Hx. rewrite <- (fr_used _ _ _ _ Hfr) by done. unfold t_iupdate. cbn [av t_upd]. rewrite used_other; [done|].
    destruct (BBLOCK_range _ _ x Hl Hx) as [_ ?]. change (inum (emptied p)) with (inum p). lia.
  - intros x Hx. unfold t_iupdate. cbn [av t_upd]. change (inum (emptied p)) with (inum p).
    rewrite fn_lookup_insert_ne by lia. apply Hfr. lia.
  - intros n q Hn. rewrite iupdate_dinode; try done; [|by apply emptied_wf]. change (inum (emptied p)) with (inum p).
    destruct (decide (n = inum p)); [done|]. unfold dinode_at. destruct (IBLOCK_range _ _ n Hl Hn) as [_ ?].
    rewrite (fr_same _ _ _ _ Hfr) by lia. done.
  - unfold t_iupdate. cbn [alog t_upd]. pose proof (size_add (IBLOCK (inum (emptied p)) (sb s)) (alog a1)).
    pose proof (slack_room _ _ _ _ Hs). lia.
Qed.
End fs.

Lemma balloc_correct_witness :
  wp (balloc 1) (fun b s' => b = 47 /\ exists a', tx_rep (Tx := mem_tx 1) (txs s') a' /\ av a' 47 = zero_blk) ex_fs.
Proof.
  destruct (balloc_correct (dev := 1) ex_fs ex_atx) as [H _]; try done;
    [apply ex_fs_tx|apply ex_fs_ok|by apply held_data_empty|apply ex_room|].
  eapply wp_conseq; [by apply (H 47)|]. intros b s' (a' & Ht & _ & Hb & Hf & _ & Hz & _).
  change (dstart (sb ex_fs)) with 46 in Hb. destruct (decide (b = 46)) as [->|]; [done|].
  assert (b = 47) as -> by lia. by eauto.
Defined.

Ltac plain_ops H := change (@tx_ops _ atx _) with mem_tx_ops in H; change (@copy_ops view _) with view_copy_ops in H.

Lemma writei_correct_witness :
  wp (writei 0 1 4096 5 (Z.of_nat (length ex_bs)))
     (fun r s' => r = 3 /\ exists p', inodes s' = [p'] /\ isize p' = 10) ex_fs.
Proof.
  pose proof (writei_correct (dev := 1) ex_fs ex_atx ex_inode 0 1 4096 5 ex_bs ex_view ex_fs_tx eq_refl ex_readable ex_inode_wf
    ltac:(done) ltac:(done) ex_copy ex_src ltac:(done) ltac:(done) ltac:(done) ltac:(done) ltac:(done) ltac:(done)
    ex_cap ltac:(apply ex_nfree; lia)) as H. plain_ops H.
  eapply wp_conseq; [exact H|]. clear H. intros r s' [-> (a' & p' & Hi & _ & _ & W)]. split; [done|].
  exists p'. split; [done|]. by rewrite (wn_inode _ _ _ _ _ _ _ W).
Defined.

Lemma writei_refused_witness : writei 0 1 4096 11 3 ex_fs = Ok (-1) ex_fs.
Proof.
  pose proof (writei_refused (dev := 1) ex_fs ex_inode 0 1 4096 11 3 eq_refl ltac:(done) ltac:(done) (or_introl eq_refl)) as H.
  plain_ops H. exact H.
Defined.

Lemma write_read_roundtrip_witness :
  wp (let! w := writei 0 1 4096 5 (Z.of_nat (length ex_bs)) in
      let! r := readi 0 1 5000 5 (Z.of_nat (length ex_bs)) in ret (w, r))
     (fun r s' => r = (3, 3) /\ exists v', copy_rep (um s') v' /\ vbytes v' true 5000 ex_bs) ex_fs.
Proof.
  pose proof (write_read_roundtrip (dev := 1) ex_fs ex_atx ex_inode 0 1 4096 5 ex_bs ex_view 1 5000
    ex_fs_tx eq_refl ex_readable ex_inode_wf
    ltac:(done) ltac:(done) ex_copy ex_src ltac:(done) ltac:(done) ltac:(done) ltac:(done) ltac:(done) ltac:(done)
    ex_cap ltac:(apply ex_nfree; lia) ex_dst ltac:(done) ltac:(done)) as H. plain_ops H.
  eapply wp_conseq; [exact H|]. clear H. intros r s' [-> (v' & ? & ? & _)]. by eauto.
Defined.

Lemma itrunc_correct_witness :
  wp (itrunc 0) (fun _ s' => inodes s' = [emptied ex_inode] /\
    exists a', tx_rep (Tx := mem_tx 1) (txs s') a' /\ used ex_sb (av a') 46 <> true) ex_fs.
Proof.
  pose proof (itrunc_correct (dev := 1) ex_fs ex_atx ex_inode 0 ex_fs_tx eq_refl eq_refl ex_file_ok ex_inode_wf
    ltac:(done) ltac:(done) ltac:(done) ex_cap2) as H. plain_ops H.
  eapply wp_conseq; [exact H|]. clear H.
  intros _ s' (a' & Ht & Hi & _ & _ & Hu & _). split; [done|]. exists a'. split; [done|].
  intros [_ Hn]%Hu; [|done]. apply Hn. split; [done|]. by exists 0.
Defined.
