(* ===== verification/FsDir.v ===== *)
(** * Directories (kernel/fs.c: dirlookup, dirlink, iget, iput)

    A directory is a file of entries of sixteen bytes.  [dir_find] is the search
    for a name; [dirlookup] performs it and [dirlink] adds a name to what it
    finds. *)

From S2P Require Import Prelude Spinlock Sleeplock Block BlockCache Log Tx CopyIO Fs FsBlock FsFile FsRead FsInode FsWrite FsExample FsTheorems.

(** ** Names *)

(** The fourteen characters that stand for a name in an entry. *)
Definition canon (name : list Z) : list Z := strncpy_l (Z.to_nat DIRSIZ) name.

Lemma truth_zero x : truth x = negb (x =? 0).
Proof. unfold truth. by destruct (x =? 0). Qed.

Lemma strncmp_canon n : forall p q, strncmp_l n p q = 0 <-> strncpy_l n p = strncpy_l n q.
Proof.
  induction n as [|n IH]; intros p q; [done|]. cbn [strncmp_l strncpy_l]. rewrite !truth_zero.
  destruct (Z.eqb_spec (hd0 p) 0) as [Ep|Ep], (Z.eqb_spec (hd0 q) 0) as [Eq|Eq]; cbn [negb andb].
  - rewrite Ep, Eq. done.
  - cbn [replicate]. split; [lia|]. intros [= E]. congruence.
  - rewrite Eq. destruct (Z.eqb_spec (hd0 p) 0); [done|]. cbn [replicate]. split; [lia|]. intros [= E]. congruence.
  - destruct (Z.eqb_spec (hd0 p) (hd0 q)) as [E|E].
    + rewrite IH, E. split; [by intros ->|]. by intros [= ->].
    + split; [lia|]. intros [= ?]. done.
Qed.
Lemma namecmp_canon s t : namecmp s t = 0 <-> canon s = canon t.
Proof. apply strncmp_canon. Qed.

Lemma strncpy_length n : forall l, length (strncpy_l n l) = n.
Proof. induction n as [|n IH]; intros l; [done|]. cbn [strncpy_l]. destruct (truth (hd0 l)); cbn [length]; [by rewrite IH|]. by rewrite length_replicate. Qed.
Lemma strncpy_ok n : forall l, Forall byte_ok l -> Forall byte_ok (strncpy_l n l).
Proof.
  induction n as [|n IH]; intros l Hl; [constructor|]. cbn [strncpy_l]. destruct (truth (hd0 l)); [|by apply Forall_replicate].
  destruct l as [|x l]; [constructor; [done|]; by apply IH|]. apply Forall_cons in Hl as [Hx Hl]. constructor; [done|by apply IH].
Qed.
Lemma strncpy_twice n : forall l, strncpy_l n (strncpy_l n l) = strncpy_l n l.
Proof.
  induction n as [|n IH]; intros l; [done|]. cbn [strncpy_l]. destruct (truth (hd0 l)) eqn:E.
  - change (hd0 (hd0 l :: strncpy_l n (tail l))) with (hd0 l). rewrite E. cbn [tail]. by rewrite IH.
  - done.
Qed.

(** ** Entries *)

(** Entry [k] of the file with the addresses [l], as bytes and as a name and an
    inode number; a number of zero marks a free entry. *)
Definition de_bytes (f : Z -> blk) (l : list Z) (k : Z) : list Z := (fun i => filedata f l (DIRENT * k + i)) <$> seqZ 0 DIRENT.
Definition entry_of (de : list Z) : option (list Z * Z) :=
  if de_inum de =? 0 then None else Some (canon (de_name de), de_inum de).
Definition dir_entry (f : Z -> blk) (l : list Z) (k : Z) : option (list Z * Z) := entry_of (de_bytes f l k).

(** The first of the [n] entries from [k] on with the name [c]: its index and
    its inode number. *)
Fixpoint dir_find (g : Z -> option (list Z * Z)) (c : list Z) (k : Z) (n : nat) : option (Z * Z) :=
  match n with
  | O => None
  | S n' =>
      match g k with
      | Some (c', i) => if decide (c' = c) then Some (k, i) else dir_find g c (k + 1) n'
      | None => dir_find g c (k + 1) n'
      end
  end.

(** The first free entry, or the end. *)
Fixpoint dir_free (g : Z -> option (list Z * Z)) (k : Z) (n : nat) : Z :=
  match n with
  | O => k
  | S n' => match g k with None => k | Some _ => dir_free g (k + 1) n' end
  end.

Lemma dir_find_ext g g' c n : forall k, (forall j, k <= j < k + Z.of_nat n -> g' j = g j) -> dir_find g' c k n = dir_find g c k n.
Proof.
  induction n as [|n IH]; intros k H; [done|]. cbn [dir_find]. rewrite H, IH by (intros; apply H; lia) || lia. done.
Qed.

Lemma dir_free_range g n : forall k, k <= dir_free g k n <= k + Z.of_nat n /\
  (dir_free g k n < k + Z.of_nat n -> g (dir_free g k n) = None).
Proof.
  induction n as [|n IH]; intros k; cbn [dir_free]; [split; lia|]. destruct (g k) eqn:E; [|split; [lia|done]].
  destruct (IH (k + 1)) as [H1 H2]. split; [lia|]. intros H. apply H2. lia.
Qed.

(** A name that was not there is put in the first free place: it is found there,
    and the others are found where they were. *)
Lemma dir_find_link g g' c i c0 n : forall k, let d := dir_free g k n in
  (forall j, g' j = if decide (j = d) then Some (c, i) else g j) -> dir_find g c k n = None ->
  dir_find g' c0 k (if decide (d < k + Z.of_nat n) then n else S n) = if decide (c0 = c) then Some (d, i) else dir_find g c0 k n.
Proof.
  induction n as [|n IH]; intros k d Hg Hn.
  - subst d. cbn [dir_free]. rewrite decide_False by lia. cbn [dir_find]. rewrite Hg. cbn [dir_free]. rewrite decide_True by done.
    destruct (decide (c = c0)) as [->|]; [by rewrite decide_True|by rewrite decide_False].
  - cbn [dir_free dir_find] in *. destruct (g k) as [[c' i']|] eqn:E.
    + destruct (decide (c' = c)); [done|]. destruct (dir_free_range g n (k + 1)) as [Hr _]. specialize (IH (k + 1) Hg Hn).
      assert (g' k = Some (c', i')) as E'. { rewrite Hg, decide_False; [done|]. unfold d. lia. }
      fold d in IH. replace (k + 1 + Z.of_nat n) with (k + Z.of_nat (S n)) in IH by lia.
      destruct (decide (d < k + Z.of_nat (S n))); cbn [dir_find] in *; rewrite E'; (destruct (decide (c' = c0)) as [<-|]; [by rewrite decide_False|exact IH]).
    + rewrite decide_True by (unfold d; lia). cbn [dir_find]. assert (g' k = Some (c, i)) as -> by (by rewrite Hg, decide_True).
      destruct (decide (c = c0)) as [->|]; [by rewrite decide_True|rewrite decide_False by done]. apply dir_find_ext. intros j Hj.
      rewrite Hg, decide_False; [done|]. unfold d. lia.
Qed.

(** The bytes of an entry that [dirlink] writes. *)
Lemma length_mk_dirent name i : length (mk_dirent name i) = 16%nat.
Proof. unfold mk_dirent. rewrite length_app, strncpy_length. unfold put16. by rewrite length_putn. Qed.
Lemma mk_dirent_ok name i : Forall byte_ok name -> Forall byte_ok (mk_dirent name i).
Proof. intros Hn. unfold mk_dirent. apply Forall_app. split; [apply putn_ok; by repeat constructor|by apply strncpy_ok]. Qed.
Lemma entry_mk_dirent name i : 0 < i < 2^16 -> entry_of (mk_dirent name i) = Some (canon name, i).
Proof.
  intros Hi. unfold entry_of, de_inum, de_name, mk_dirent. 
  assert (get16 (put16 [0; 0] 0 i ++ strncpy_l (Z.to_nat DIRSIZ) name) 0 = i) as ->.
  { transitivity (get16 (put16 [0; 0] 0 i) 0).
    - apply getn_ext. intros x Hx. unfold get8. rewrite lookup_app_l; [done|]. unfold put16. rewrite length_putn. cbn [length]. lia.
    - unfold get16, put16. rewrite getn_putn_eq by (cbn [length]; lia). apply Z.mod_small. lia. }
  rewrite (proj2 (Z.eqb_neq i 0)) by lia. rewrite drop_app_length' by (unfold put16; by rewrite length_putn). unfold canon. by rewrite strncpy_twice.
Qed.

(** The entries after a write of one of them. *)
Lemma de_bytes_overlay f l f' l' k bs j : length bs = 16%nat -> 0 <= k -> 0 <= j -> DIRENT * j + DIRENT <= MAXFILE * BSIZE ->
  (forall o, 0 <= o < MAXFILE * BSIZE -> filedata f' l' o = overlay (DIRENT * k) bs (filedata f l) o) ->
  de_bytes f' l' j = if decide (j = k) then bs else de_bytes f l j.
Proof.
  intros Hl Hk Hj Hmax H. unfold de_bytes. change DIRENT with 16 in *. case_decide as E.
  - subst j. apply list_eq. intros i. rewrite list_lookup_fmap. destruct (decide (i < 16)%nat) as [Hi|Hi].
    + rewrite lookup_seqZ_lt by lia. cbn [fmap option_fmap option_map]. rewrite H by lia. unfold overlay. rewrite decide_True by lia.
      destruct (lookup_lt_is_Some_2 bs i) as [b Hb]; [lia|]. replace (Z.to_nat (16 * k + (0 + Z.of_nat i) - 16 * k)) with i by lia. by rewrite Hb.
    + rewrite lookup_seqZ_ge by lia. rewrite (proj2 (lookup_ge_None bs i)) by lia. done.
  - apply list_fmap_ext. intros i x Hx. apply lookup_seqZ in Hx as [-> Hx]. rewrite H by lia. unfold overlay. rewrite decide_False by lia. done.
Qed.

(** ** The inode cache *)

(** An entry in use for inode [n] of device [d]. *)
Definition live (d n : Z) (p : inode) : Prop := 0 < iref p /\ idev p = d /\ inum p = n.

(** [iget] has taken a reference to inode [n]: to the entry that is in use for
    it, or to an unused one when there is none. *)
Inductive got (l : list inode) (d n : Z) (ip : nat) : list inode -> Prop :=
| got_cached p : l !! ip = Some p -> live d n p -> got l d n ip (<[ip := set_iref (iref p + 1) p]> l)
| got_loaded p q : l !! ip = Some p -> iref p = 0 -> (forall j r, l !! j = Some r -> ~ live d n r) ->
    live d n q -> iref q = 1 -> ivalid q = 0 -> ilk q = ilk p -> got l d n ip (<[ip := q]> l).

Lemma iget_scan_spec l d n : forall i empty,
  match iget_scan l i empty d n with
  | inl ip => exists j p, ip = (i + j)%nat /\ l !! j = Some p /\ live d n p
  | inr r => (forall j p, l !! j = Some p -> ~ live d n p) /\
      match empty with
      | Some e => r = Some e
      | None => match r with
                | Some ip => exists j p, ip = (i + j)%nat /\ l !! j = Some p /\ iref p = 0
                | None => forall j p, l !! j = Some p -> iref p <> 0
                end
      end
  end.
Proof.
  induction l as [|p l IH]; intros i empty; cbn [iget_scan].
  - split; [done|]. by destruct empty.
  - destruct ((0 <? iref p) && (idev p =? d) && (inum p =? n)) eqn:E.
    + exists 0%nat, p. b2p. split; [lia|]. done.
    + assert (~ live d n p) as Hp. { intros (A & B & C). rewrite (proj2 (Z.ltb_lt _ _) A), (proj2 (Z.eqb_eq _ _) B), (proj2 (Z.eqb_eq _ _) C) in E. done. }
      specialize (IH (S i) (match empty with Some _ => empty | None => if iref p =? 0 then Some i else None end)).
      destruct (iget_scan l (S i) _ d n) as [ip|r].
      * destruct IH as (j & q & -> & Hj & Hq). exists (S j), q. split; [lia|]. done.
      * destruct IH as [H1 H2]. split.
        { intros [|j] q Hq; [by injection Hq as <-|by apply (H1 j)]. }
        destruct empty as [e|]; [done|]. destruct (Z.eqb_spec (iref p) 0) as [E0|E0].
        { rewrite H2. exists 0%nat, p. split; [lia|]. done. }
        destruct r as [ip|].
        { destruct H2 as (j & q & -> & Hj & Hq). exists (S j), q. split; [lia|]. done. }
        intros [|j] q Hq; [by injection Hq as <-|by apply (H2 j)].
Qed.

(** An entry is in use for the inode, or one is unused. *)
Definition cache_room (l : list inode) (d n : Z) : Prop := exists j p, l !! j = Some p /\ (iref p = 0 \/ live d n p).

Section iget.
Context {T U : Type} `{!TxOps T} `{!CopyOps U}.
Implicit Types s : fs_t T U.

Lemma lock_cycle s l x : ic_lock s = spin_free -> set_ic_lock (Spin false false) (set_inodes l (set_ic_lock x s)) = set_inodes l s.
Proof. destruct s. cbn. by intros ->. Qed.

Lemma wp_iget s d n (Q : nat -> fs_t T U -> Prop) : ic_lock s = spin_free -> cache_room (inodes s) d n ->
  (forall ip l', got (inodes s) d n ip l' -> Q ip (set_inodes l' s)) -> wp (iget d n) Q s.
Proof.
  intros Hlk Hroom HQ. unfold iget, ic_acquire. apply wp_bind, wp_spin_acquire; [done|]. apply wp_bind, wp_gets. cbn [inodes set_ic_lock].
  pose proof (iget_scan_spec (inodes s) d n 0 None) as Hs. destruct (iget_scan (inodes s) 0 None d n) as [ip|[ip|]].
  - destruct Hs as (j & p & -> & Hj & Hp). cbn [Nat.add]. apply wp_bind, wp_modify, wp_bind, wp_spin_release; [done|]. apply wp_ret.
    unfold inode_at. cbn [inodes set_ic_lock set_inodes]. rewrite Hj. cbn [default from_option id].
    rewrite lock_cycle by done. by apply HQ, got_cached.
  - destruct Hs as (Hn & j & p & -> & Hj & Hp). cbn [Nat.add]. apply wp_bind, wp_modify, wp_bind, wp_spin_release; [done|]. apply wp_ret.
    unfold inode_at. cbn [inodes set_ic_lock set_inodes]. rewrite Hj. cbn [default from_option id].
    rewrite lock_cycle by done. apply HQ. by apply (got_loaded _ d n j p).
  - destruct Hs as [Hn Hf]. destruct Hroom as (j & p & Hj & [Hp|Hp]); [by destruct (Hf j p Hj)|by destruct (Hn j p Hj)].
Qed.
End iget.

(** ** Reading a directory *)

Section dir.
Context {dev : Z} {T U : Type} `{!Tx dev T} `{!CopyIO U}.
Context (me de_addr : Z).
Implicit Types (s : fs_t T U) (a : atx) (v : view).

(** The variable [de] on the stack of [dirlookup] and [dirlink]. *)
Definition de_var v : Prop := 0 <= de_addr /\ de_addr + DIRENT <= 2^64 /\ accessible v false de_addr DIRENT.

Lemma de_var_only v v' : de_var v -> only_range false de_addr DIRENT v v' -> de_var v'.
Proof. intros (A & B & C) H. split; [done|]. split; [done|]. by eapply only_range_accessible. Qed.

Lemma wp_read_de s a p dp k msg v (Q : list Z -> fs_t T U -> Prop) :
  fs_tx s a -> inodes s !! dp = Some p -> readable (dev := dev) (sb s) (av a) p -> copy_rep (um s) v -> de_var v ->
  0 <= k -> DIRENT * k + DIRENT <= isize p ->
  (forall t u v', tx_rep t a -> copy_rep u v' -> only_range false de_addr DIRENT v v' -> Q (de_bytes (av a) (addrs p) k) (with_tu t u s)) ->
  wp (read_de de_addr dp (DIRENT * k) msg) Q s.
Proof.
  intros Hft Hdp Hrd Hv (Hd0 & Hd1 & Hacc) Hk Hsz HQ. pose proof (rd_size _ _ _ Hrd) as Hmax. change (MAXFILE * BSIZE) with 274432 in Hmax. change DIRENT with 16 in *.
  unfold read_de. apply wp_bind. change DIRENT with 16.
  assert ((isize p <? 16 * k) || (2^32 <=? 16 * k + 16) = false) as E by (apply orb_false_intro; [apply Z.ltb_ge|apply Z.leb_gt]; lia).
  apply (wp_readi p dp a s v 0 de_addr (16 * k) 16); [done|done|done|done|lia|lia|lia|lia| |]; rewrite E, Z.min_l by lia.
  - right. exact Hacc.
  - intros r t u v' Ht Hu (Hr & Hfull & Hb & Hor). change (truth 0) with false in *. rewrite (Hfull Hacc) in *. change (negb (16 =? 16)) with false. cbn match.
    apply wp_on_um. change (Z.to_nat 16) with (length (de_bytes (av a) (addrs p) k)) at 1. eapply (kread_law _ v'); [exact Hu| |exact (HQ t u v' Ht Hu Hor)].
    intros i b Hi. apply list_lookup_fmap_Some in Hi as (x & -> & Hx). apply lookup_seqZ in Hx as [-> Hx]. rewrite Hb by (unfold DIRENT, DIRSIZ in Hx; lia).
    do 2 f_equal.
Qed.
Lemma fs_tx_with s a t u : fs_tx s a -> tx_rep t a -> fs_tx (with_tu t u s) a.
Proof. intros [A B C D] Ht. by split. Qed.

(** The directory that inode [p] is. *)
Record is_dir s a (dp : nat) (p : inode) : Prop := IsDir {
  id_tx : fs_tx s a;
  id_at : inodes s !! dp = Some p;
  id_read : readable (dev := dev) (sb s) (av a) p;
  id_size : isize p mod DIRENT = 0 }.
Definition nent (p : inode) : nat := Z.to_nat (isize p / DIRENT).
Definition find_in a (p : inode) (name : list Z) : option (Z * Z) := dir_find (dir_entry (av a) (addrs p)) (canon name) 0 (nent p).
Definition free_in a (p : inode) : Z := dir_free (dir_entry (av a) (addrs p)) 0 (nent p).

Lemma is_dir_with s a dp p t u : is_dir s a dp p -> tx_rep t a -> is_dir (with_tu t u s) a dp p.
Proof. intros [A B C D] Ht. split; [by apply fs_tx_with|done..]. Qed.

Lemma nent_size s a dp p : is_dir s a dp p -> isize p = DIRENT * Z.of_nat (nent p).
Proof. intros [_ _ [_ _ _ Hs] Hm]. unfold nent. change DIRENT with 16 in *. dlia. Qed.

Lemma wp_dirlookup_loop a p dp name m : forall fuel k s v (Q : option (nat * Z) -> fs_t T U -> Prop),
  is_dir s a dp p -> copy_rep (um s) v -> de_var v -> 0 <= k -> k + Z.of_nat m = Z.of_nat (nent p) -> (m <= fuel)%nat ->
  (forall t u v', tx_rep t a -> copy_rep u v' -> only_range false de_addr DIRENT v v' ->
     match dir_find (dir_entry (av a) (addrs p)) (canon name) k m with
     | None => Q None (with_tu t u s)
     | Some (j, i) => wp (let! ip := iget (idev p) i in ret (Some (ip, DIRENT * j))) Q (with_tu t u s)
     end) ->
  wp (dirlookup_loop de_addr fuel dp name (DIRENT * k)) Q s.
Proof.
  induction m as [|m IH]; intros fuel k s v Q Hd Hv Hvar Hk Hm Hf HQ; pose proof (nent_size _ _ _ _ Hd) as Hs; pose proof (rd_size _ _ _ (id_read _ _ _ _ Hd)) as Hmax;
    change (MAXFILE * BSIZE) with 274432 in Hmax; change DIRENT with 16 in *; (destruct fuel as [|fuel]; [try lia|]); cbn [dirlookup_loop dir_find] in *;
    apply wp_bind, wp_gets; rewrite (inode_at_eq _ _ p) by apply Hd.
  1,2: rewrite (proj2 (Z.ltb_ge _ _)) by lia; apply wp_ret; rewrite <- (with_tu_id s); apply (HQ _ _ v); [apply (ft_rep _ _ (id_tx _ _ _ _ Hd))|done|apply only_range_refl].
  rewrite (proj2 (Z.ltb_lt _ _)) by lia. cbn [negb]. apply wp_bind. apply (wp_read_de s a p dp k _ v); [apply Hd|apply Hd|apply Hd|done|done|done|change DIRENT with 16; lia|].
  intros t u v' Ht Hu Hor. change DIRENT with 16 in *. set (de := de_bytes (av a) (addrs p) k) in *.
  assert (dir_entry (av a) (addrs p) k = entry_of de) as Ek by done. unfold entry_of in Ek.
  assert ((forall t u v', tx_rep t a -> copy_rep u v' -> only_range false de_addr 16 v v' ->
     match dir_find (dir_entry (av a) (addrs p)) (canon name) (k + 1) m with
     | None => Q None (with_tu t u s)
     | Some (j, i) => wp (let! ip := iget (idev p) i in ret (Some (ip, 16 * j))) Q (with_tu t u s) end) ->
     wp (dirlookup_loop de_addr fuel dp name (wrap32 (16 * k + 16))) Q (with_tu t u s)) as Hnext.
  { intros H. rewrite wrap32_small by lia. replace (16 * k + 16) with (16 * (k + 1)) by lia.
    apply (IH fuel (k + 1) (with_tu t u s) v'); [by apply is_dir_with|done|by eapply de_var_only|lia|lia|lia|].
    intros t2 u2 v2 Ht2 Hu2 Hor2. apply (H t2 u2 v2 Ht2 Hu2). by eapply only_range_trans. }
  destruct (de_inum de =? 0) eqn:E0; [apply Hnext; by rewrite Ek in HQ|].
  destruct (Z.eqb_spec (namecmp name (de_name de)) 0) as [E1|E1].
  + apply namecmp_canon in E1. specialize (HQ t u v' Ht Hu Hor). by rewrite Ek, decide_True in HQ by done.
  + apply Hnext. rewrite Ek in HQ. rewrite decide_False in HQ; [done|]. intros E. apply E1, namecmp_canon. by rewrite E.
Qed.
Lemma wp_dirlookup s a p dp name v (Q : option (nat * Z) -> fs_t T U -> Prop) :
  is_dir s a dp p -> itype p = T_DIR -> copy_rep (um s) v -> de_var v -> ic_lock s = spin_free ->
  (forall k i, find_in a p name = Some (k, i) -> cache_room (inodes s) (idev p) i) ->
  (forall t u v', tx_rep t a -> copy_rep u v' -> only_range false de_addr DIRENT v v' ->
     match find_in a p name with
     | None => Q None (with_tu t u s)
     | Some (k, i) => forall ip l', got (inodes s) (idev p) i ip l' -> Q (Some (ip, DIRENT * k)) (set_inodes l' (with_tu t u s))
     end) ->
  wp (dirlookup de_addr dp name) Q s.
Proof.
  intros Hd Ht Hv Hvar Hlk Hroom HQ. unfold dirlookup. apply wp_bind, wp_gets. rewrite (inode_at_eq _ _ p) by apply Hd. rewrite Ht. cbn [negb Z.eqb].
  apply (wp_dirlookup_loop a p dp name (nent p) _ 0 s v); [done|done|done|done|lia| |].
  { unfold dir_fuel, nent. lia. }
  intros t u v' Hrt Hu Hor. specialize (HQ t u v' Hrt Hu Hor). unfold find_in in *. destruct (dir_find _ _ 0 (nent p)) as [[k i]|]; [|done].
  apply wp_bind, wp_iget; [done|by apply (Hroom k)|]. intros ip l' G. apply wp_ret. by apply HQ.
Qed.

(** [iput] of a reference that [iget] has just given does not truncate the
    inode: the cache is as before, or has an entry that is not in use. *)
Definition ungot (l l' : list inode) : Prop :=
  l' = l \/ exists ip p q, l !! ip = Some p /\ iref p = 0 /\ iref q = 0 /\ ilk q = ilk p /\ l' = <[ip := q]> l.

Lemma iput_got s l d n ip (Q : unit -> fs_t T U -> Prop) : got l d n ip (inodes s) -> ic_lock s = spin_free ->
  (forall l', ungot l l' -> Q tt (set_inodes l' s)) -> wp (iput me ip) Q s.
Proof.
  intros G Hlk HQ. unfold iput, ic_acquire. apply wp_bind, wp_spin_acquire; [done|]. apply wp_bind, wp_gets.
  assert (exists p q, l !! ip = Some p /\ inodes s = <[ip := q]> l /\ (iref q =? 1) && truth (ivalid q) && (nlink q =? 0) = false /\
    ungot l (<[ip := set_iref (iref q - 1) q]> l)) as (p & q & Hp & Hq & Hc & Hu).
  { inversion G as [p Hp Hl E|p q Hp H0 Hn Hl H1 Hv Hk E]; subst.
    - exists p, (set_iref (iref p + 1) p). split; [done|]. split; [done|]. destruct Hl as (L1 & _). cbn. split.
      + by rewrite (proj2 (Z.eqb_neq _ _)) by lia.
      + left. replace (iref p + 1 - 1) with (iref p) by lia. apply list_insert_id. rewrite Hp. by destruct p.
    - exists p, q. split; [done|]. split; [done|]. rewrite H1, Hv. split; [done|]. right. exists ip, p, (set_iref (1 - 1) q). done. }
  assert (ip < length l)%nat as Hlt by (by eapply lookup_lt_Some).
  unfold inode_at. cbn [inodes set_ic_lock]. rewrite Hq, list_lookup_insert_eq by done. cbn [default from_option id]. rewrite Hc.
  apply wp_bind, wp_ret, wp_bind, wp_modify. unfold inode_at. cbn [inodes set_ic_lock]. rewrite Hq, list_lookup_insert_eq by done. cbn [default from_option id].
  rewrite list_insert_insert_eq. apply wp_spin_release; [done|]. rewrite lock_cycle by done. by apply HQ.
Qed.

(** The search for a free entry. *)
Lemma wp_dirlink_loop a p dp m : forall fuel k s v (Q : Z -> fs_t T U -> Prop),
  is_dir s a dp p -> copy_rep (um s) v -> de_var v -> 0 <= k -> k + Z.of_nat m = Z.of_nat (nent p) -> (m <= fuel)%nat ->
  (forall t u v', tx_rep t a -> copy_rep u v' -> only_range false de_addr DIRENT v v' ->
     Q (DIRENT * dir_free (dir_entry (av a) (addrs p)) k m) (with_tu t u s)) ->
  wp (dirlink_loop de_addr fuel dp (DIRENT * k)) Q s.
Proof.
  induction m as [|m IH]; intros fuel k s v Q Hd Hv Hvar Hk Hm Hf HQ; pose proof (nent_size _ _ _ _ Hd) as Hs; pose proof (rd_size _ _ _ (id_read _ _ _ _ Hd)) as Hmax;
    change (MAXFILE * BSIZE) with 274432 in Hmax; change DIRENT with 16 in *; (destruct fuel as [|fuel]; [try lia|]); cbn [dirlink_loop dir_free] in *;
    apply wp_bind, wp_gets; rewrite (inode_at_eq _ _ p) by apply Hd.
  1,2: rewrite (proj2 (Z.ltb_ge _ _)) by lia; apply wp_ret; rewrite <- (with_tu_id s); apply (HQ _ _ v); [apply (ft_rep _ _ (id_tx _ _ _ _ Hd))|done|apply only_range_refl].
  rewrite (proj2 (Z.ltb_lt _ _)) by lia. cbn [negb]. apply wp_bind. apply (wp_read_de s a p dp k _ v); [apply Hd|apply Hd|apply Hd|done|done|done|change DIRENT with 16; lia|].
  intros t u v' Ht Hu Hor. change DIRENT with 16 in *. set (de := de_bytes (av a) (addrs p) k) in *.
  assert (dir_entry (av a) (addrs p) k = entry_of de) as Ek by done. unfold entry_of in Ek. rewrite Ek in HQ. destruct (de_inum de =? 0).
  - apply wp_ret. by apply (HQ t u v').
  - replace (16 * k + 16) with (16 * (k + 1)) by lia. apply (IH fuel (k + 1) (with_tu t u s) v'); [by apply is_dir_with|done|by eapply de_var_only|lia|lia|lia|].
    intros t2 u2 v2 Ht2 Hu2 Hor2. apply (HQ t2 u2 v2 Ht2 Hu2). by eapply only_range_trans.
Qed.
(** The directory after an entry was written into its first free place. *)
Lemma find_linked c s a dp p name i a' p' : is_dir s a dp p -> 0 < i < 2^16 -> isize p + DIRENT <= MAXFILE * BSIZE -> find_in a p name = None ->
  let k := dir_free (dir_entry (av a) (addrs p)) 0 (nent p) in
  written (c := c) (dev := dev) (sb s) a p (DIRENT * k) (mk_dirent name i) a' p' ->
  isize p' mod DIRENT = 0 /\
  forall other, find_in a' p' other = if decide (canon other = canon name) then Some (k, i) else find_in a p other.
Proof.
  intros Hd Hi Hmax Hnone k W. pose proof (nent_size _ _ _ _ Hd) as Hs. destruct (dir_free_range (dir_entry (av a) (addrs p)) (nent p) 0) as [Hk _]. fold k in Hk.
  assert (isize p' = Z.max (isize p) (DIRENT * k + DIRENT)) as Es by (rewrite (wn_inode _ _ _ _ _ _ _ W); cbn [isize set_isize]; by rewrite length_mk_dirent).
  assert (nent p' = if decide (k < 0 + Z.of_nat (nent p)) then nent p else S (nent p)) as En.
  { unfold nent at 1. rewrite Es, Hs. change DIRENT with 16. destruct (decide _).
    - rewrite Z.max_l by lia. rewrite Z.mul_comm, Z.div_mul by lia. lia.
    - assert (k = Z.of_nat (nent p)) as -> by lia. rewrite Z.max_r by lia. replace (16 * Z.of_nat (nent p) + 16) with ((Z.of_nat (nent p) + 1) * 16) by lia.
      rewrite Z.div_mul by lia. lia. }
  split.
  - rewrite Es, Hs. change DIRENT with 16. destruct (decide (k < Z.of_nat (nent p))); [rewrite Z.max_l by lia|rewrite Z.max_r by lia]; dlia.
  - intros other. unfold find_in. rewrite En. change (MAXFILE * BSIZE) with 274432 in *. change DIRENT with 16 in *.
    set (g' := fun j => if decide (j = k) then Some (canon name, i) else dir_entry (av a) (addrs p) j).
    pose proof (dir_find_link (dir_entry (av a) (addrs p)) g' (canon name) i (canon other) (nent p) 0 ltac:(done) Hnone) as E. cbv zeta in E. fold k in E. rewrite <- E.
    apply dir_find_ext. intros j Hj. assert (0 <= j <= Z.of_nat (nent p)) as Hj' by (destruct (decide _); lia).
    unfold dir_entry at 1. rewrite (de_bytes_overlay (av a) (addrs p) _ _ k (mk_dirent name i)); [|apply length_mk_dirent|lia|lia| |apply W].
    + unfold g'. destruct (decide (j = k)); [by rewrite entry_mk_dirent|done].
    + change DIRENT with 16. change (MAXFILE * BSIZE) with 274432. lia.
Qed.

(** C8.  [dirlink] adds a name to a directory.  If the name is there already it
    returns -1 and the disk is as it was.  Otherwise the entry goes into the
    first free place: afterwards the name is found there with its inode number,
    every other name is found exactly as before, and no inode on disk but the
    directory's has changed. *)
Theorem dirlink_correct s a p dp name i v :
  is_dir s a dp p -> itype p = T_DIR -> inode_wf p -> 0 <= inum p < ninodes (sb s) -> 1 <= aops a ->
  copy_rep (um s) v -> de_var v -> ic_lock s = spin_free ->
  (forall k j, find_in a p name = Some (k, j) -> cache_room (inodes s) (idev p) j) ->
  Forall byte_ok name -> 0 < i < 2^16 -> isize p + DIRENT <= MAXFILE * BSIZE ->
  sb_size (sb s) <= BPB -> (size (alog a) + Z.to_nat MAXOPBLOCKS <= acap a)%nat -> nfree (sb s) (av a) 6 ->
  wp (dirlink me de_addr dp name i) (fun r s' =>
    match find_in a p name with
    | Some _ => r = -1 /\ tx_rep (txs s') a /\ ungot (inodes s) (inodes s')
    | None => r = 0 /\ exists a' p', is_dir s' a' dp p' /\ inodes s' = <[dp := p']> (inodes s) /\
        (forall other, find_in a' p' other = if decide (canon other = canon name) then Some (free_in a p, i) else find_in a p other) /\
        (forall n q, 0 <= n < ninodes (sb s) -> dinode_at (sb s) (av a') n q = if decide (n = inum p) then copy_disk p' q else dinode_at (sb s) (av a) n q)
    end) s.
Proof.
  intros Hd Ht Hwf Hin Hops Hv Hvar Hlk Hroom Hname Hi Hmax Hsz Hcap Hfree. unfold dirlink. apply wp_bind.
  apply (wp_dirlookup s a p dp name v); [done..|]. intros t u v' Hrt Hu Hor. destruct (find_in a p name) as [[k j]|] eqn:Ef.
  { intros ip l' G. apply wp_bind. apply (iput_got _ (inodes s) (idev p) j); [done|done|]. intros l2 Hl2. apply wp_ret. done. }
  apply wp_bind, wp_gets. pose proof (is_dir_with _ _ _ _ t u Hd Hrt) as Hd1. rewrite (inode_at_eq _ _ p) by apply Hd1. apply wp_bind.
  pose proof (de_var_only _ _ Hvar Hor) as Hvar'. set (k := dir_free (dir_entry (av a) (addrs p)) 0 (nent p)).
  apply (wp_dirlink_loop a p dp (nent p) _ 0 _ v'); [done|done|done|done|lia|unfold dir_fuel, nent; lia|]. intros t2 u2 v2 Ht2 Hu2 Hor2. fold k.
  pose proof (is_dir_with _ _ _ _ t2 u2 Hd1 Ht2) as Hd2. destruct (de_var_only _ _ Hvar' Hor2) as (V1 & V2 & V3).
  apply wp_bind, wp_on_um. eapply (kwrite_law _ v2); [done|by rewrite length_mk_dirent|by apply mk_dirent_ok|]. intros u3 Hu3.
  destruct (dir_free_range (dir_entry (av a) (addrs p)) (nent p) 0) as [Hk _]. fold k in Hk. pose proof (nent_size _ _ _ _ Hd) as Hs.
  change (MAXFILE * BSIZE) with 274432 in *. change DIRENT with 16 in *. apply wp_bind.
  set (s3 := set_um u3 _). assert (is_dir s3 a dp p) as Hd3 by (apply (is_dir_with _ _ _ _ t2 u3 Hd); done).
  eapply (wp_writei (c := size (alog a) + Z.to_nat MAXOPBLOCKS) s3 a (wmeta (sb s3) p) p dp 0 de_addr (16 * k) 16 (mk_dirent name i));
    [apply Hd3|apply Hd3|apply Hd3|done|done|done|exact Hu3|apply vwrite_bytes|by rewrite length_mk_dirent|lia|lia|change (MAXFILE * BSIZE) with 274432; lia|done|lia| | |].
  - apply write_budget; [apply Hd3|unfold BSIZE; lia|done|done|done].
  - unfold wmeta. set_solver.
  - intros t4 u4 a' p' Ht4 Hu4 W. change (negb (16 =? 16)) with false. cbn match. apply wp_ret. split; [done|].
    destruct (find_linked (size (alog a) + Z.to_nat MAXOPBLOCKS) s a dp p name i a' p' Hd Hi) as [Hm Hfind]; [change DIRENT with 16; change (MAXFILE * BSIZE) with 274432; lia|done|done|].
    exists a', p'. destruct W as [W1 W2 W3 [W4 [W5 W6]] W7 W8 W9 W10 W11 W12 W13]. splits; [split|done|exact Hfind|exact W11].
    + split; cbn [txs sb]; [done|by rewrite W5|done|done].
    + cbn [inodes]. apply list_lookup_insert_eq. eapply lookup_lt_Some, Hd3.
    + done.
    + done.
Qed.
End dir.

(** ** An example: a directory of two free entries *)

Definition ex_dirnode : inode := Inode 1 2 1 initsleeplock 1 T_DIR 0 0 1 32 (46 :: replicate 12 0).
Definition ex_kview : view := fun user a => if negb user && (0 <=? a) && (a <? 4096) then Some 0 else None.
Definition ex_dirfs : fs_t atx view := Fs ex_sb spin_free [ex_dirnode] ex_atx ex_kview.

Lemma ex_is_dir : is_dir (dev := 1) ex_dirfs ex_atx 0 ex_dirnode.
Proof.
  split; [|done| |done].
  - split; [apply ex_fs_tx|apply ex_fs_ok|done|done].
  - split; [done|apply ex_file_ok| |done]. intros bn Hbn Hlt. unfold BSIZE in Hlt. cbn in Hlt. assert (bn = 0) as -> by lia. done.
Qed.
Lemma ex_kcopy : copy_rep (um ex_dirfs) ex_kview.
Proof. split; [done|]. intros user a b. unfold ex_kview. destruct (_ && _); [|done]. intros [= <-]. done. Qed.
Lemma ex_de_var : de_var 512 ex_kview.
Proof.
  split; [lia|]. split; [done|]. intros i Hi. change DIRENT with 16 in Hi. unfold ex_kview. cbn [negb andb].
  rewrite (proj2 (Z.leb_le _ _)), (proj2 (Z.ltb_lt _ _)) by lia. done.
Qed.

Lemma dirlink_correct_witness : wp (dirlink 1 512 0 [97] 5) (fun r s' => r = 0 /\ exists a' p', is_dir (dev := 1) s' a' 0 p' /\
  find_in a' p' [97] = Some (0, 5) /\ find_in a' p' [98] = None) ex_dirfs.
Proof.
  pose proof (dirlink_correct (dev := 1) 1 512 ex_dirfs ex_atx ex_dirnode 0 [97] 5 ex_kview ex_is_dir eq_refl) as H. plain_ops H.
  eapply wp_conseq; [apply H; clear H|].
  - split; try done. split; [done|]. apply (bool_decide_unpack _). by vm_compute.
  - done.
  - done.
  - exact ex_kcopy.
  - exact ex_de_var.
  - done.
  - intros k j E. by vm_compute in E.
  - by repeat constructor.
  - done.
  - done.
  - done.
  - exact ex_cap.
  - apply ex_nfree. lia.
  - intros r s'. assert (find_in ex_atx ex_dirnode [97] = None) as -> by (by vm_compute). intros (-> & a' & p' & Hd & _ & Hf & _). split; [done|]. exists a', p'.
    split; [exact Hd|]. rewrite !Hf. split; by vm_compute.
Defined.
