(* ===== verification/FsPath.v ===== *)
(** * Paths (kernel/fs.c: skipelem, namex, ilock, iput)

    [resolve] goes from inode to inode through the entries of the directories on
    disk.  [namex] does that with references and locks: it returns a reference
    to the inode that the path leads to and has given back all the others. *)

From S2P Require Import Prelude Spinlock Sleeplock Block BlockCache Log Tx CopyIO Fs FsBlock FsFile FsRead FsInode FsWrite FsExample FsTheorems FsDir.

(** ** The elements of a path *)

Fixpoint split_at_slash (path : list Z) : list (list Z) :=
  match path with
  | [] => [[]]
  | c :: path' =>
      if c =? SLASH then [] :: split_at_slash path'
      else match split_at_slash path' with
           | [] => [[c]]
           | e :: es => (c :: e) :: es
           end
  end.
Definition elems (path : list Z) : list (list Z) := filter (fun e => e <> []) (split_at_slash path).

Definition plain (path : list Z) : Prop := Forall (fun c => c <> 0) path.

Lemma elems_slash path : elems (SLASH :: path) = elems path.
Proof. reflexivity. Qed.
Lemma elems_skip path : elems (skip_slashes path) = elems path.
Proof.
  induction path as [|c path IH]; [done|]. cbn [skip_slashes]. destruct (Z.eqb_spec c SLASH) as [->|]; [|done]. by rewrite IH, elems_slash.
Qed.
Lemma skip_slashes_plain path : plain path -> plain (skip_slashes path).
Proof. induction path as [|c path IH]; intros H; [done|]. cbn [skip_slashes]. apply Forall_cons in H as [Hc H]. destruct (c =? SLASH); [by apply IH|by constructor]. Qed.
Lemma skip_slashes_hd path c r : skip_slashes path = c :: r -> c <> SLASH.
Proof. induction path as [|d path IH]; [done|]. cbn [skip_slashes]. destruct (Z.eqb_spec d SLASH) as [|E]; [done|]. by intros [= <- _]. Qed.
Lemma skip_slashes_length path : (length (skip_slashes path) <= length path)%nat.
Proof. induction path as [|c path IH]; [done|]. cbn [skip_slashes]. destruct (c =? SLASH); cbn [length]; lia. Qed.

Lemma split_elem_spec path : plain path -> let (e, r) := split_elem path in
  split_at_slash path = match r with [] => [e] | _ :: r' => e :: split_at_slash r' end /\ plain r /\
  (length r <= length path)%nat /\ (match r with [] => True | c :: _ => c = SLASH end) /\ plain e /\
  match path with c :: _ => c <> SLASH -> e <> [] /\ (length r < length path)%nat | [] => True end.
Proof.
  induction path as [|c path IH]; intros H; [done|]. apply Forall_cons in H as [Hc H]. specialize (IH H). cbn [split_elem split_at_slash].
  destruct (Z.eqb_spec c SLASH) as [->|E].
  - cbn [negb andb]. splits; [done|by constructor|done|done|constructor|done].
  - rewrite (proj2 (Z.eqb_neq c 0)) by done. cbn [negb andb]. destruct (split_elem path) as [e r]. destruct IH as (A & B & C & D & F & _). rewrite A.
    splits; [by destruct r|done|cbn [length]; lia|done|by constructor|]. intros _. split; [done|]. cbn [length]. lia.
Qed.

(** The next element and the rest of the path. *)
Lemma elems_step path : plain path -> skip_slashes path <> [] -> let (e, r) := split_elem (skip_slashes path) in
  elems path = e :: elems (skip_slashes r) /\ e <> [] /\ plain e /\ plain (skip_slashes r) /\ (length (skip_slashes r) < length path)%nat.
Proof.
  intros H Hne. pose proof (split_elem_spec _ (skip_slashes_plain _ H)) as Hs. rewrite <- elems_skip. pose proof (skip_slashes_length path) as Hl.
  destruct (skip_slashes path) as [|c p] eqn:Ep; [done|]. destruct (split_elem (c :: p)) as [e r]. destruct Hs as (A & B & C & D & F & G).
  destruct (G (skip_slashes_hd _ _ _ Ep)) as [Ge Gl]. pose proof (skip_slashes_length r). splits; [|done|done|by apply skip_slashes_plain|lia].
  rewrite elems_skip. unfold elems at 1. rewrite A. destruct r as [|c' r']; rewrite filter_cons_True by done; [done|]. subst c'. by rewrite elems_slash.
Qed.

Lemma strncpy_nul n : forall e r, plain e -> hd0 r = 0 -> strncpy_l n (e ++ r) = take n e ++ replicate (n - length e) 0.
Proof.
  induction n as [|n IH]; intros e r He Hr; [done|]. destruct e as [|c e].
  - cbn [app strncpy_l take length]. rewrite Hr. done.
  - apply Forall_cons in He as [Hc He]. cbn [app strncpy_l take length Nat.sub]. change (hd0 (c :: e ++ r)) with c. rewrite truth_zero, (proj2 (Z.eqb_neq c 0)) by done.
    cbn [negb tail]. by rewrite IH.
Qed.

(** [skipelem] takes the next element; its name in the array of fourteen
    characters stands for the element, cut to fourteen characters. *)
Lemma skipelem_spec path name : plain path -> length name = 14%nat ->
  match elems path with
  | [] => skipelem path name = None
  | e :: es => exists name' path', skipelem path name = Some (name', path') /\ canon name' = canon e /\ length name' = 14%nat /\
      elems path' = es /\ plain path' /\ (length path' < length path)%nat /\ (hd0 path' = 0 <-> es = [])
  end.
Proof.
  intros Hp Hn. unfold skipelem. destruct (skip_slashes path) as [|c p] eqn:Ep.
  { rewrite <- elems_skip, Ep. done. }
  pose proof (elems_step path Hp) as Hs. rewrite Ep in Hs. specialize (Hs ltac:(done)). pose proof (skip_slashes_plain _ Hp) as Hpl. rewrite Ep in Hpl. apply Forall_cons in Hpl as [Hc _].
  change (hd0 (c :: p)) with c. rewrite (proj2 (Z.eqb_neq c 0)) by done. destruct (split_elem (c :: p)) as [e r]. destruct Hs as (-> & He & Hpe & Hpr & Hlen).
  eexists _, _. split; [reflexivity|]. splits; try done.
  - assert (canon e = take 14 e ++ replicate (14 - length e) 0) as -> by (pose proof (strncpy_nul 14 e [] Hpe eq_refl) as E; by rewrite app_nil_r in E).
    change DIRSIZ with 14.
    unfold canon, move_to. change (Z.to_nat DIRSIZ) with 14%nat. destruct (Z.leb_spec 14 (Z.of_nat (length e))) as [H|H].
    + change (Z.to_nat 14) with 14%nat. rewrite (drop_ge name) by lia. rewrite (strncpy_nul 14 (take 14 e) []); [|by apply Forall_take|done].
      rewrite take_take, length_take. replace (Init.Nat.min 14 14) with 14%nat by lia. f_equal. f_equal. lia.
    + rewrite Nat2Z.id. rewrite take_ge by lia. rewrite insert_app_r_alt by lia. rewrite Nat.sub_diag. apply strncpy_nul; [done|].
      destruct (drop (length e) name) as [|x l] eqn:E; [|done]. apply (f_equal length) in E. rewrite length_drop in E. cbn in E. lia.
  - change DIRSIZ with 14. unfold move_to. destruct (Z.leb_spec 14 (Z.of_nat (length e))) as [H|H]; rewrite ?length_insert, length_app, length_take, length_drop; lia.
  - split; [|].
    + intros H0. destruct (skip_slashes r) as [|x l]; [done|]. apply Forall_cons in Hpr as [Hx _]. by change (hd0 (x :: l)) with x in H0.
    + intros H0. destruct (skip_slashes r) as [|x l] eqn:Er; [done|]. pose proof (elems_step (skip_slashes r)) as Hs2. rewrite Er in Hs2. specialize (Hs2 Hpr).
      assert (skip_slashes (x :: l) = x :: l) as E2. { cbn [skip_slashes]. by rewrite (proj2 (Z.eqb_neq _ _) (skip_slashes_hd _ _ _ Er)). }
      rewrite E2 in Hs2. specialize (Hs2 ltac:(done)). destruct (split_elem (x :: l)) as [e2 r2]. destruct Hs2 as (E & _). by rewrite E in H0.
Qed.

(** ** References *)

(** Sums over the cache: the references to inode [n], the unused entries. *)
Definition tally (w : inode -> Z) (l : list inode) : Z := foldr (fun p acc => w p + acc) 0 l.
Definition share (n : Z) (p : inode) : Z := if inum p =? n then iref p else 0.
Definition idle (p : inode) : Z := if iref p =? 0 then 1 else 0.
Abbreviation refs l n := (tally (share n) l).
Abbreviation unused l := (tally idle l).

Lemma tally_insert w l j p q : l !! j = Some p -> tally w (<[j := q]> l) = tally w l - w p + w q.
Proof.
  unfold tally. revert j. induction l as [|r l IH]; intros [|j] Hj; [done|done|injection Hj as ->; cbn; lia|].
  change (<[S j := q]> (r :: l)) with (r :: <[j := q]> l). cbn [foldr]. rewrite (IH j Hj). lia.
Qed.
Lemma unused_room l d n : 0 < unused l -> cache_room l d n.
Proof.
  unfold tally. induction l as [|p l IH]; intros H; [done|]. cbn [foldr] in H. unfold idle at 1 in H. destruct (Z.eqb_spec (iref p) 0) as [E|E].
  - exists 0%nat, p. auto.
  - destruct (IH ltac:(lia)) as (j & q & Hj & Hq). by exists (S j), q.
Qed.

Section cache.
Context {dev : Z} {T U : Type} `{!Tx dev T} `{!CopyIO U}.
Context (me de_addr : Z).
Implicit Types (s : fs_t T U) (a : atx).

(** The cache: no inode has two entries in use, an entry that is in use and
    valid is what the disk holds, and only the inode [lk] is locked. *)
Record cached (lk : option nat) s a : Prop := Cached {
  ch_lock : ic_lock s = spin_free;
  ch_ref : forall j p, inodes s !! j = Some p -> 0 <= iref p;
  ch_once : forall i j p q, inodes s !! i = Some p -> inodes s !! j = Some q -> 0 < iref p -> live (idev p) (inum p) q -> i = j;
  ch_ilk : forall j p, inodes s !! j = Some p -> ilk p = if decide (lk = Some j) then sl_held me else sl_free;
  ch_live : forall j p, inodes s !! j = Some p -> 0 < iref p ->
    idev p = dev /\ 0 <= inum p < ninodes (sb s) /\ (ivalid p <> 0 -> dinode_at (sb s) (av a) (inum p) p = p) }.

(** An inode in memory is in step with the disk whatever its other fields. *)
Lemma dinode_keep sb f n p q : dinode_at sb f n p = p -> copy_disk p q = q -> dinode_at sb f n q = q.
Proof. intros H E. rewrite <- E at 2. rewrite <- H. reflexivity. Qed.

(** One entry changes: it stays in use for the same inode, or is taken for one
    that has none. *)
Lemma cached_insert lk lk' s a ip p q s' : cached lk s a -> inodes s !! ip = Some p -> 0 <= iref q ->
  (0 < iref q -> live (idev q) (inum q) p \/ forall j r, inodes s !! j = Some r -> ~ live (idev q) (inum q) r) ->
  (ilk q = if decide (lk' = Some ip) then sl_held me else sl_free) -> (forall j, j <> ip -> lk' = Some j <-> lk = Some j) ->
  (0 < iref q -> idev q = dev /\ 0 <= inum q < ninodes (sb s) /\ (ivalid q <> 0 -> dinode_at (sb s) (av a) (inum q) q = q)) ->
  inodes s' = <[ip := q]> (inodes s) -> ic_lock s' = spin_free -> sb s' = sb s -> cached lk' s' a.
Proof.
  intros [A B C D E] Hp Hq Hkey Hlk Hoth Hlive Hl Hic Hsb. assert (ip < length (inodes s))%nat as Hlt by (by eapply lookup_lt_Some).
  assert (forall j r, inodes s' !! j = Some r -> j = ip /\ r = q \/ j <> ip /\ inodes s !! j = Some r) as Hat.
  { intros j r Hr. rewrite Hl in Hr. destruct (decide (j = ip)) as [->|Hne]; [left|right].
    - rewrite list_lookup_insert_eq in Hr by done. by injection Hr as <-.
    - by rewrite list_lookup_insert_ne in Hr. }
  split; [done| | | |].
  - intros j r Hr. destruct (Hat j r Hr) as [[-> ->]|[_ Hr']]; [done|by apply (B j)].
  - intros i j r1 r2 H1 H2 Hr (L1 & L2 & L3). destruct (Hat i r1 H1) as [[-> ->]|[Hi H1']], (Hat j r2 H2) as [[-> ->]|[Hj H2']]; [done| | |].
    + destruct (Hkey Hr) as [(K1 & K2 & K3)|K]; [|by destruct (K j r2 H2')]. apply (C ip j p r2); [done|done|done|]. split; [done|]. split; congruence.
    + destruct (Hkey L1) as [(K1 & K2 & K3)|K]; [|destruct (K i r1 H1'); split; [done|]; split; congruence].
      apply (C i ip r1 p); [done|done|done|]. split; [done|]. split; congruence.
    + apply (C i j r1 r2); [done|done|done|]. done.
  - intros j r Hr. destruct (Hat j r Hr) as [[-> ->]|[Hne Hr']]; [done|]. rewrite (D j r Hr').
    destruct (decide (lk = Some j)) as [E1|E1]; [rewrite decide_True; [done|]; by apply Hoth|rewrite decide_False; [done|]; intros E2; apply E1; by apply Hoth].
  - intros j r Hr Hpos. rewrite Hsb. destruct (Hat j r Hr) as [[-> ->]|[_ Hr']]; [by apply Hlive|by apply (E j)].
Qed.
Lemma share_ne n p : inum p <> n -> share n p = 0.
Proof. intros H. unfold share. by rewrite (proj2 (Z.eqb_neq _ _) H). Qed.
Lemma share_eq p : share (inum p) p = iref p.
Proof. unfold share. by rewrite Z.eqb_refl. Qed.
Definition one (n m : Z) : Z := if decide (m = n) then 1 else 0.

(** [iget]: one reference more. *)
Lemma got_at l d n ip l' : got l d n ip l' -> exists q, l' !! ip = Some q /\ live d n q.
Proof.
  intros [p Hp Hl|p q Hp H0 Hn Hl H1 Hv Hk]; eexists; (split; [apply list_lookup_insert_eq; by eapply lookup_lt_Some|]); [|done].
  destruct Hl as (L1 & L2 & L3). split; [cbn; lia|done].
Qed.
Lemma got_keeps l d n ip l' j p : got l d n ip l' -> l !! j = Some p -> 0 < iref p ->
  l' !! j = Some (if decide (j = ip) then set_iref (iref p + 1) p else p).
Proof.
  intros G Hj Hr. case_decide as E; [subst j|destruct G; by rewrite list_lookup_insert_ne].
  destruct G as [p' Hp Hl|p' q Hp H0 Hn Hl H1 Hv Hk]; rewrite Hj in Hp; injection Hp as <-; [|lia]. apply list_lookup_insert_eq. by eapply lookup_lt_Some.
Qed.
(** An unused entry is taken only for a first reference. *)
Definition last_ref (p : inode) : Z := if iref p =? 1 then 1 else 0.
Lemma got_unused l d n ip l' q : got l d n ip l' -> l' !! ip = Some q -> unused l <= unused l' + last_ref q.
Proof.
  intros [p Hp (L1 & _)|p q' Hp H0 Hn Hl H1 Hv Hk] Hq; rewrite list_lookup_insert_eq in Hq by (by eapply lookup_lt_Some); injection Hq as <-;
    rewrite (tally_insert _ _ _ p) by done; unfold idle, last_ref.
  - cbn. rewrite !(proj2 (Z.eqb_neq _ 0)) by lia. destruct (_ =? 1); lia.
  - rewrite H0, H1. cbn. lia.
Qed.
Lemma got_refs lk s a n ip l' m : cached lk s a -> got (inodes s) dev n ip l' -> refs l' m = refs (inodes s) m + one n m.
Proof.
  intros Hc [p Hp (L1 & L2 & L3)|p q Hp H0 Hn (L1 & L2 & L3) H1 Hv Hk]; rewrite (tally_insert _ _ _ p) by done; unfold share, one.
  - change (inum (set_iref (iref p + 1) p)) with (inum p). change (iref (set_iref (iref p + 1) p)) with (iref p + 1). rewrite L3.
    destruct (decide (m = n)) as [->|E]; [rewrite Z.eqb_refl; lia|rewrite (proj2 (Z.eqb_neq n m)) by done; lia].
  - rewrite H0, H1, L3. destruct (decide (m = n)) as [->|E]; [rewrite Z.eqb_refl|rewrite (proj2 (Z.eqb_neq n m)) by done]; destruct (_ =? _); lia.
Qed.
Lemma got_cached_ok lk s a n ip l' : cached lk s a -> 0 <= n < ninodes (sb s) -> got (inodes s) dev n ip l' -> cached lk (set_inodes l' s) a.
Proof.
  intros Hc Hn [p Hp Hl|p q Hp H0 Hno Hl H1 Hv Hk]; pose proof (ch_ref _ _ _ Hc _ _ Hp) as Hr; pose proof (ch_ilk _ _ _ Hc _ _ Hp) as Hi.
  - destruct (ch_live _ _ _ Hc _ _ Hp (proj1 Hl)) as (E1 & E2 & E3).
    eapply (cached_insert lk lk s a ip p (set_iref (iref p + 1) p)); [done|done|cbn; lia|intros _; left|exact Hi|done|intros _; split; [done|split; [done|]]|done|apply Hc|done].
    + split; [apply Hl|done].
    + intros Hv. by apply (dinode_keep _ _ _ p); [apply E3|].
  - destruct Hl as (L1 & L2 & L3). eapply (cached_insert lk lk s a ip p q); [done|done|lia|intros _; right|by rewrite Hk|done| |done|apply Hc|done].
    + intros j r Hj. rewrite L2, L3. by apply (Hno j).
    + intros _. rewrite L3. split; [done|]. split; [done|]. by rewrite Hv.
Qed.

Lemma wp_iget_c lk s a n (Q : nat -> fs_t T U -> Prop) : cached lk s a -> 0 <= n < ninodes (sb s) -> cache_room (inodes s) dev n ->
  (forall ip l', got (inodes s) dev n ip l' -> cached lk (set_inodes l' s) a -> (forall m, refs l' m = refs (inodes s) m + one n m) -> Q ip (set_inodes l' s)) ->
  wp (iget dev n) Q s.
Proof.
  intros Hc Hn Hroom HQ. apply wp_iget; [apply Hc|done|]. intros ip l' G. apply HQ; [done|by eapply got_cached_ok|]. intros m. by eapply got_refs.
Qed.

(** [ilock]: the entry is valid and locked. *)
Lemma wp_on_ilock {A} ip p (c : M sleeplock A) s (Q : A -> fs_t T U -> Prop) : inodes s !! ip = Some p ->
  wp c (fun x l => Q x (set_inodes (<[ip := set_ilk l p]> (inodes s)) s)) (ilk p) -> wp (on_ilock ip c) Q s.
Proof. intros Hp H. unfold on_ilock. apply wp_zoom. unfold inode_at. rewrite Hp. exact H. Qed.

Lemma wp_upd_inode ip p g s (Q : unit -> fs_t T U -> Prop) : inodes s !! ip = Some p -> Q tt (set_inodes (<[ip := g p]> (inodes s)) s) -> wp (upd_inode ip g) Q s.
Proof. intros Hp H. apply wp_modify. unfold inode_at. by rewrite Hp. Qed.

Lemma wp_ilock s a ip p (Q : unit -> fs_t T U -> Prop) : cached None s a -> fs_tx s a -> inodes s !! ip = Some p -> 0 < iref p ->
  itype (dinode_at (sb s) (av a) (inum p) p) <> 0 ->
  (forall t q, let s' := Fs (sb s) (ic_lock s) (<[ip := q]> (inodes s)) t (um s) in
     tx_rep t a -> cached (Some ip) s' a -> iref q = iref p -> inum q = inum p -> idev q = dev -> dinode_at (sb s) (av a) (inum p) q = q ->
     (forall m, refs (<[ip := q]> (inodes s)) m = refs (inodes s) m) -> Q tt s') -> wp (ilock me ip) Q s.
Proof.
  intros Hc Hft Hp Hr Hty HQ. destruct (ch_live _ _ _ Hc _ _ Hp Hr) as (Hdev & Hn & Hsync). assert (ip < length (inodes s))%nat as Hlt by (by eapply lookup_lt_Some).
  unfold ilock. apply wp_bind, wp_gets. rewrite (inode_at_eq _ _ p) by done. rewrite (proj2 (Z.ltb_ge _ _)) by lia.
  apply wp_bind, (wp_on_ilock ip p); [done|]. rewrite (ch_ilk _ _ _ Hc _ _ Hp). cbn [decide]. eapply wp_run; [by rewrite acquiresleep_run|].
  set (p1 := set_ilk (sl_held me) p). set (s1 := set_inodes (<[ip := p1]> (inodes s)) s). assert (inodes s1 !! ip = Some p1) as Hp1 by (by apply list_lookup_insert_eq).
  assert (forall t q, tx_rep t a -> iref q = iref p -> inum q = inum p -> idev q = dev -> ilk q = sl_held me -> dinode_at (sb s) (av a) (inum p) q = q ->
    Q tt (Fs (sb s) (ic_lock s) (<[ip := q]> (inodes s)) t (um s))) as Hfin.
  { intros t q Ht E1 E2 E3 E4 E5. apply HQ; try done.
    - eapply (cached_insert None (Some ip) s a ip p q); try done; [lia| | | | |apply Hc].
      + intros _. left. rewrite E2, E3. done.
      + by rewrite decide_True.
      + intros j Hj. split; congruence.
      + intros _. rewrite E2. done.
    - intros m. rewrite (tally_insert _ _ _ p) by done. unfold share. rewrite E1, E2. lia. }
  apply wp_bind, wp_gets. rewrite (inode_at_eq _ _ p1) by done. destruct (Z.eqb_spec (ivalid p1) 0) as [E|E].
  - apply wp_bind, wp_gets. change (idev p1) with (idev p). rewrite Hdev. apply wp_bind.
    assert (can_read a (IBLOCK (inum p) (sb s))) as Hcr by (eapply inode_readable; [apply Hft|apply Hft|apply Hft|done]).
    eapply wp_bread; [apply Hft|exact Hcr|]. intros i t Hi Ht. apply wp_bind. eapply wp_data; [exact Ht|apply lookup_insert_eq|].
    apply wp_bind, (wp_upd_inode ip p1); [done|]. apply wp_bind. eapply (wp_brelse _ a); [exact Ht|done|by rewrite (ft_dirty _ _ Hft)|]. intros t2 Ht2.
    set (p2 := load_dinode _ _ p1). apply wp_bind, (wp_upd_inode ip p2); [apply list_lookup_insert_eq; cbn [inodes set_inodes set_txs s1]; by rewrite length_insert|].
    cbn [inodes set_inodes set_txs s1]. rewrite !list_insert_insert_eq. apply wp_bind, wp_gets. rewrite (inode_at_eq _ _ (set_ivalid 1 p2)) by (by apply list_lookup_insert_eq).
    rewrite (proj2 (Z.eqb_neq _ _)) by exact Hty. apply wp_ret. by apply Hfin.
  - apply wp_ret. pose proof (Hfin (txs s) p1) as H. apply H; try done; [apply Hft|]. by apply (dinode_keep _ _ _ p); [apply Hsync|].
Qed.
(** [iunlock] and [iunlockput]; a file that has a link is not truncated. *)
Lemma wp_iunlock s a ip p (Q : unit -> fs_t T U -> Prop) : cached (Some ip) s a -> inodes s !! ip = Some p -> 0 < iref p ->
  (let s' := set_inodes (<[ip := set_ilk sl_free p]> (inodes s)) s in cached None s' a ->
     (forall m, refs (inodes s') m = refs (inodes s) m) -> Q tt s') -> wp (iunlock me ip) Q s.
Proof.
  intros Hc Hp Hr HQ. assert (ip < length (inodes s))%nat as Hlt by (by eapply lookup_lt_Some). pose proof (ch_ilk _ _ _ Hc _ _ Hp) as Hl. rewrite decide_True in Hl by done.
  unfold iunlock. apply wp_bind, (wp_on_ilock ip p); [done|]. rewrite Hl. eapply wp_run; [by rewrite holdingsleep_run|]. cbn [sl_held sl_locked sl_pid truth negb]. rewrite Z.eqb_refl. cbn [andb].
  assert (set_ilk (sl_held me) p = p) as E by (rewrite <- Hl; by destruct p). change {| sl_lk := spin_free; sl_locked := 1; sl_pid := me |} with (sl_held me). rewrite E, list_insert_id by done.
  assert (set_inodes (inodes s) s = s) as Es by (by destruct s). rewrite Es. apply wp_bind, wp_gets. rewrite (inode_at_eq _ _ p) by done.
  rewrite (proj2 (Z.ltb_ge _ _)) by lia. cbn [negb orb]. apply (wp_on_ilock ip p); [done|]. rewrite Hl. eapply wp_run; [by rewrite releasesleep_run|].
  destruct (ch_live _ _ _ Hc _ _ Hp Hr) as (Hdev & Hn & Hsync). apply HQ.
  - eapply (cached_insert (Some ip) None s a ip p (set_ilk sl_free p)); [done|done|cbn; lia| |done| | |done|apply Hc|done].
    + intros _. by left.
    + intros j Hj. split; congruence.
    + intros _. split; [done|]. split; [done|]. intros Hv. by apply (dinode_keep _ _ _ p); [apply Hsync|].
  - intros m. cbn [inodes set_inodes]. rewrite (tally_insert _ _ _ p) by done. unfold share. cbn. lia.
Qed.

Lemma wp_iput s a ip p (Q : unit -> fs_t T U -> Prop) : cached None s a -> inodes s !! ip = Some p -> 0 < iref p -> (ivalid p <> 0 -> 0 < nlink p) ->
  (let s' := set_inodes (<[ip := set_iref (iref p - 1) p]> (inodes s)) s in cached None s' a ->
     (forall m, refs (inodes s') m = refs (inodes s) m - one (inum p) m) -> Q tt s') -> wp (iput me ip) Q s.
Proof.
  intros Hc Hp Hr Hn HQ. unfold iput, ic_acquire. apply wp_bind, wp_spin_acquire; [apply Hc|]. apply wp_bind, wp_gets.
  rewrite (inode_at_eq _ _ p) by done. assert ((iref p =? 1) && truth (ivalid p) && (nlink p =? 0) = false) as ->.
  { rewrite truth_zero. destruct (Z.eqb_spec (ivalid p) 0) as [E|E]; [by rewrite andb_false_r|]. rewrite (proj2 (Z.eqb_neq (nlink p) 0)) by (specialize (Hn E); lia). apply andb_false_r. }
  apply wp_bind, wp_ret, wp_bind, (wp_upd_inode ip p); [done|].
  apply wp_spin_release; [done|]. cbn [inodes set_ic_lock]. rewrite lock_cycle by apply Hc. destruct (ch_live _ _ _ Hc _ _ Hp Hr) as (Hdev & Hi & Hsync). apply HQ.
  - eapply (cached_insert None None s a ip p (set_iref (iref p - 1) p)); [done|done|cbn; lia| |apply (ch_ilk _ _ _ Hc _ _ Hp)|done| |done|apply Hc|done].
    + intros _. by left.
    + intros _. split; [done|]. split; [done|]. intros Hv. by apply (dinode_keep _ _ _ p); [apply Hsync|].
  - intros m. cbn [inodes set_inodes]. rewrite (tally_insert _ _ _ p) by done. unfold share, one. cbn.
    destruct (decide (m = inum p)) as [->|E]; [rewrite Z.eqb_refl; lia|rewrite (proj2 (Z.eqb_neq (inum p) m)) by done; lia].
Qed.
(** ** Walking through directories *)

Definition dnode (sb : superblock) (f : Z -> blk) (n : Z) : inode := dinode_at sb f n empty_inode.
Definition find_num (sb : superblock) (f : Z -> blk) (n : Z) (name : list Z) : option Z :=
  snd <$> dir_find (dir_entry f (addrs (dnode sb f n))) (canon name) 0 (nent (dnode sb f n)).

(** The inode that the path with the elements [es] leads to from inode [n]; with
    [parent], the directory that has its last element. *)
Fixpoint resolve (sb : superblock) (f : Z -> blk) (parent : bool) (n : Z) (es : list (list Z)) : option Z :=
  match es with
  | [] => if parent then None else Some n
  | e :: es' =>
      if itype (dnode sb f n) =? T_DIR then
        if parent && bool_decide (es' = []) then Some n else
        match find_num sb f n e with
        | Some m => resolve sb f parent m es'
        | None => None
        end
      else None
  end.

(** A set of inodes that are files with a link; the directories among them are
    well formed, and their entries are in the set. *)
Record node_ok (sb : superblock) (f : Z -> blk) (P : Z -> Prop) (n : Z) : Prop := NodeOk {
  nd_range : 0 <= n < ninodes sb;
  nd_type : itype (dnode sb f n) <> 0;
  nd_link : 0 < nlink (dnode sb f n);
  nd_dir : itype (dnode sb f n) = T_DIR ->
    file_ok sb f (addrs (dnode sb f n)) /\ no_holes f (addrs (dnode sb f n)) (isize (dnode sb f n)) /\
    0 <= isize (dnode sb f n) <= MAXFILE * BSIZE /\ isize (dnode sb f n) mod DIRENT = 0 /\
    forall k c m, dir_entry f (addrs (dnode sb f n)) k = Some (c, m) -> 0 <= k < Z.of_nat (nent (dnode sb f n)) -> P m }.
Definition tree_ok (sb : superblock) (f : Z -> blk) (P : Z -> Prop) : Prop := forall n, P n -> node_ok sb f P n.

Lemma dir_find_entry g c n : forall k j i, dir_find g c k n = Some (j, i) -> g j = Some (c, i) /\ k <= j < k + Z.of_nat n.
Proof.
  induction n as [|n IH]; intros k j i H; [done|]. cbn [dir_find] in H. destruct (g k) as [[c' i']|] eqn:E.
  - destruct (decide (c' = c)) as [->|]; [injection H as <- <-; split; [done|lia]|]. destruct (IH _ _ _ H). split; [done|lia].
  - destruct (IH _ _ _ H). split; [done|lia].
Qed.

(** The inode in memory that is in step with the disk. *)
Lemma dnode_fields sb f n q : dinode_at sb f n q = q ->
  itype q = itype (dnode sb f n) /\ nlink q = nlink (dnode sb f n) /\ isize q = isize (dnode sb f n) /\ addrs q = addrs (dnode sb f n).
Proof. intros <-. done. Qed.
Lemma valid_link s a lk P ip p : cached lk s a -> tree_ok (sb s) (av a) P -> P (inum p) -> inodes s !! ip = Some p -> 0 < iref p -> ivalid p <> 0 -> 0 < nlink p.
Proof.
  intros Hc Ht HP Hp Hr Hv. destruct (ch_live _ _ _ Hc _ _ Hp Hr) as (_ & _ & Hs). destruct (dnode_fields _ _ _ _ (Hs Hv)) as (_ & -> & _). by apply (nd_link _ _ _ _ (Ht _ HP)).
Qed.

(** [iunlockput] of a directory on the way. *)
Lemma wp_iunlockput s a P ip p (Q : unit -> fs_t T U -> Prop) : cached (Some ip) s a -> tree_ok (sb s) (av a) P -> P (inum p) ->
  inodes s !! ip = Some p -> 0 < iref p ->
  (let s' := set_inodes (<[ip := set_iref (iref p - 1) (set_ilk sl_free p)]> (inodes s)) s in cached None s' a ->
     (forall m, refs (inodes s') m = refs (inodes s) m - one (inum p) m) -> Q tt s') -> wp (iunlockput me ip) Q s.
Proof.
  intros Hc Ht HP Hp Hr HQ. assert (ip < length (inodes s))%nat as Hlt by (by eapply lookup_lt_Some). unfold iunlockput. apply wp_bind.
  apply (wp_iunlock s a ip p); [done|done|done|]. intros s1 Hc1 Hr1. apply (wp_iput s1 a ip (set_ilk sl_free p)); [done|by apply list_lookup_insert_eq|done| |].
  - intros Hv. exact (valid_link s a (Some ip) P ip p Hc Ht HP Hp Hr Hv).
  - intros s2 Hc2 Hr2. unfold s2, s1 in *. cbn [inodes set_inodes] in *. rewrite list_insert_insert_eq in *. apply HQ; [done|]. intros m. cbn [inodes set_inodes]. by rewrite Hr2, Hr1.
Qed.

(** A locked directory can be searched. *)
Lemma locked_dir s a P ip q : fs_tx s a -> tree_ok (sb s) (av a) P -> P (inum q) -> inodes s !! ip = Some q -> idev q = dev ->
  dinode_at (sb s) (av a) (inum q) q = q -> itype q = T_DIR -> is_dir (dev := dev) s a ip q.
Proof.
  intros Hft Ht HP Hq Hd Hs Hty. destruct (dnode_fields _ _ _ _ Hs) as (E1 & E2 & E3 & E4). rewrite E1 in Hty.
  destruct (nd_dir _ _ _ _ (Ht _ HP) Hty) as (D1 & D2 & D3 & D4 & _). split; [done|done| |by rewrite E3]. split; [done|by rewrite E4|by rewrite E3, E4|by rewrite E3].
Qed.
Lemma locked_find s a q name : dinode_at (sb s) (av a) (inum q) q = q -> snd <$> find_in a q name = find_num (sb s) (av a) (inum q) name.
Proof. intros Hs. destruct (dnode_fields _ _ _ _ Hs) as (_ & _ & E3 & E4). unfold find_in, find_num, nent. by rewrite E3, E4. Qed.
Lemma cached_with lk s a t u : cached lk s a -> cached lk (with_tu t u s) a.
Proof. intros [A B C D E]. by split. Qed.

(** What [namex] leaves: a reference to the inode found instead of that to [n]. *)
Definition walked s a (v : view) (parent : bool) n path (r : option nat) (name' : list Z) s' : Prop :=
  cached None s' a /\ tx_rep (txs s') a /\ (exists v', copy_rep (um s') v' /\ only_range false de_addr DIRENT v v') /\ sb s' = sb s /\
  match resolve (sb s) (av a) parent n (elems path) with
  | None => r = None /\ forall x, refs (inodes s') x = refs (inodes s) x - one n x
  | Some m => exists ip p, r = Some ip /\ inodes s' !! ip = Some p /\ live dev m p /\
      (forall x, refs (inodes s') x = refs (inodes s) x - one n x + one m x) /\
      (parent = true -> exists e, last (elems path) = Some e /\ canon name' = canon e)
  end.

(** One element of the path: from the directory [ip], searched and given back,
    to the next inode. *)
Lemma next_dir s a P ip q ip2 l2 m : cached (Some ip) s a -> tree_ok (sb s) (av a) P -> P (inum q) -> 0 <= m < ninodes (sb s) ->
  inodes s !! ip = Some q -> 0 < iref q -> got (inodes s) dev m ip2 l2 -> 2 <= unused (inodes s) + last_ref q ->
  forall (Q : unit -> fs_t T U -> Prop), (forall l3 p3, cached None (set_inodes l3 s) a -> l3 !! ip2 = Some p3 -> live dev m p3 -> 2 <= unused l3 + last_ref p3 ->
    (forall x, refs l3 x = refs (inodes s) x - one (inum q) x + one m x) -> Q tt (set_inodes l3 s)) ->
  wp (iunlockput me ip) Q (set_inodes l2 s).
Proof.
  intros Hc Ht HP Hm Hq Hr G Hu Q HQ. pose proof (got_cached_ok _ _ _ _ _ _ Hc Hm G) as Hc2. pose proof (got_keeps _ _ _ _ _ _ _ G Hq Hr) as Hk.
  destruct (got_at _ _ _ _ _ G) as (q2 & Hq2 & L1 & L2 & L3). pose proof (got_unused _ _ _ _ _ _ G Hq2) as Hun.
  set (q' := if decide (ip = ip2) then set_iref (iref q + 1) q else q) in *. assert (inum q' = inum q) as En by (unfold q'; by case_decide).
  assert (0 < iref q') as Hr' by (unfold q'; case_decide; cbn; lia).
  apply (wp_iunlockput (set_inodes l2 s) a P ip q'); [done|done|by rewrite En|done|done|]. cbn [inodes set_inodes]. intros Hc3 Hrefs.
  set (q3 := set_iref (iref q' - 1) (set_ilk sl_free q')) in *. assert (ip < length l2)%nat as Hlt by (by eapply lookup_lt_Some).
  assert (unused (<[ip := q3]> l2) = unused l2 + idle q3) as E3.
  { rewrite (tally_insert _ _ _ q') by done. unfold idle at 2. rewrite (proj2 (Z.eqb_neq _ 0)) by lia. lia. }
  assert (0 <= idle q3) as Hi by (unfold idle; destruct (_ =? 0); lia).
  apply (HQ _ (if decide (ip2 = ip) then q3 else q2)); [done| | | |].
  - destruct (decide (ip2 = ip)) as [->|Hne]; [by apply list_lookup_insert_eq|by rewrite list_lookup_insert_ne].
  - case_decide as E; [|done]. subst ip2. rewrite Hk in Hq2. injection Hq2 as <-. unfold q3, q' in *. rewrite decide_True in * by done. cbn in *. split; [cbn; lia|]. done.
  - rewrite E3. case_decide as E.
    + subst ip2. unfold q3, q', last_ref, idle in *. rewrite decide_True in * by done. rewrite Hk in Hq2. injection Hq2 as <-. cbn [iref set_iref set_ilk] in *.
      replace (iref q + 1 - 1) with (iref q) in * by lia. rewrite (proj2 (Z.eqb_neq (iref q + 1) 1)) in Hun by lia. lia.
    + assert (q' = q) as Eq by (unfold q'; by rewrite decide_False by congruence). unfold q3, idle, last_ref in *. rewrite Eq in *. cbn [iref set_iref set_ilk] in *.
      destruct (Z.eqb_spec (iref q) 1) as [E1|E1]; [rewrite (proj2 (Z.eqb_eq (iref q - 1) 0)) by lia|rewrite (proj2 (Z.eqb_neq (iref q - 1) 0)) by lia]; lia.
  - intros x. rewrite Hrefs, En. rewrite (got_refs _ s a m ip2 l2 x Hc G). lia.
Qed.
Lemma wp_namex_loop P a parent fuel : forall s v path name ip p n (Q : option nat * list Z -> fs_t T U -> Prop),
  cached None s a -> fs_tx s a -> copy_rep (um s) v -> de_var de_addr v -> tree_ok (sb s) (av a) P -> P n ->
  inodes s !! ip = Some p -> live dev n p -> plain path -> length name = 14%nat -> (length path < fuel)%nat -> 2 <= unused (inodes s) + last_ref p ->
  (forall r name' s', walked s a v parent n path r name' s' -> Q (r, name') s') ->
  wp (namex_loop me de_addr fuel ip path parent name) Q s.
Proof.
  induction fuel as [|fuel IH]; intros s v path name ip p n Q Hc Hft Hv Hvar Ht HP Hp (Lr & Ld & Ln) Hpl Hname Hfuel Hu HQ; [lia|]. cbn [namex_loop].
  pose proof (skipelem_spec path name Hpl Hname) as Hs. unfold walked in HQ. destruct (elems path) as [|e es]; cbn [resolve] in HQ.
  { rewrite Hs. destruct parent.
    - apply wp_bind, (wp_iput s a ip p); [done|done|done|intros; by apply (valid_link s a None P ip p); try rewrite Ln|]. intros s' Hc' Hr'. apply wp_ret, HQ. rewrite Ln in Hr'.
      splits; [done|apply Hft|by exists v|done|done|done].
    - apply wp_ret, HQ. splits; [done|apply Hft|by exists v|done|]. exists ip, p. splits; [done|done|done|intros; lia|done]. }
  destruct Hs as (name' & path' & -> & Hcan & Hlen' & Hes & Hpl' & Hlt & Hhd). pose proof (Ht n HP) as Hnode.
  apply wp_bind, (wp_ilock s a ip p); [done|done|done|done|rewrite Ln; apply Hnode|]. intros t q s1 Ht1 Hc1 Er En Ed Hsync Hrefs. rewrite Ln in En. rewrite Ln in Hsync.
  destruct (dnode_fields _ _ _ _ Hsync) as (Ety & _ & _ & _). assert (inodes s1 !! ip = Some q) as Hq by (apply list_lookup_insert_eq; by eapply lookup_lt_Some).
  assert (unused (inodes s1) = unused (inodes s)) as Eu.
  { cbn [inodes s1]. rewrite (tally_insert _ _ _ p) by done. unfold idle. rewrite Er. lia. }
  assert (fs_tx s1 a) as Hft1 by (destruct Hft; by split). assert (0 < iref q) as Hrq by lia. assert (last_ref q = last_ref p) as El by (unfold last_ref; by rewrite Er).
  apply wp_bind, wp_gets. rewrite (inode_at_eq _ _ q) by done. rewrite Ety.
  destruct (Z.eqb_spec (itype (dnode (sb s) (av a) n)) T_DIR) as [Edir|Edir]; cbn [negb].
  2:{ apply wp_bind, (wp_iunlockput s1 a P ip q); [done|done|by rewrite En|done|done|]. intros s' Hc' Hr'. apply wp_ret, HQ. rewrite En in Hr'.
      splits; [done|done|by exists v|done|done|]. intros x. rewrite Hr'. cbn [inodes s1]. by rewrite Hrefs. }
  destruct (parent && (hd0 path' =? 0)) eqn:Epar.
  { apply andb_prop in Epar as [-> E0%Z.eqb_eq]. apply Hhd in E0. subst es. rewrite bool_decide_true in HQ by done. cbn [andb] in HQ.
    apply wp_bind, (wp_iunlock s1 a ip q); [done|done|done|]. intros s' Hc' Hr'. apply wp_ret, HQ. splits; [done|done|by exists v|done|].
    eexists ip, _. splits; [done|apply list_lookup_insert_eq; by eapply lookup_lt_Some|by split|intros x; rewrite Hr'; cbn [inodes s1]; rewrite Hrefs; lia|]. intros _. exists e. by rewrite E0. }
  assert (parent && bool_decide (es = []) = false) as Ep.
  { destruct parent; [|done]. cbn [andb] in *. apply bool_decide_false. intros E. apply Hhd in E. by rewrite (proj2 (Z.eqb_eq _ _) E) in Epar. }
  rewrite Ep in HQ. apply wp_bind. assert (is_dir s1 a ip q) as Hdir by (eapply (locked_dir s1 a P); [done|done|by rewrite En|done|done|by rewrite En|by rewrite Ety]).
  assert (find_num (sb s) (av a) n e = snd <$> find_in a q name') as Ef.
  { rewrite (locked_find s1) by (by rewrite En). rewrite En. unfold find_num. by rewrite Hcan. }
  apply (wp_dirlookup de_addr s1 a q ip name' v); [done|by rewrite Ety|done|done|apply Hc1|intros; apply unused_room; unfold last_ref in *; destruct (_ =? _); lia|].
  intros t2 u2 v2 Ht2 Hu2 Hor. rewrite Ef in HQ. destruct (find_in a q name') as [[k m]|] eqn:Efi; cbn [fmap option_fmap option_map snd] in HQ.
  2:{ apply wp_bind, (wp_iunlockput _ a P ip q); [by apply cached_with|done|by rewrite En|done|done|]. intros s' Hc' Hr'. apply wp_ret, HQ. rewrite En in Hr'.
      splits; [done|done|by exists v2|done|done|]. intros x. rewrite Hr'. cbn [inodes s1 with_tu]. by rewrite Hrefs. }
  intros ip2 l2 G. assert (P m) as HPm.
  { destruct (nd_dir _ _ _ _ Hnode Edir) as (_ & _ & _ & _ & Hent). apply dir_find_entry in Efi as [Ek Hk]. destruct (dnode_fields _ _ _ _ Hsync) as (_ & _ & E3 & E4).
    rewrite E4 in Ek. apply (Hent k (canon name') m Ek). unfold nent in *. rewrite <- E3. lia. }
  pose proof (nd_range _ _ _ _ (Ht m HPm)) as Hm. rewrite Ed in G. apply wp_bind.
  eapply (next_dir (with_tu t2 u2 s1) a P ip q ip2 l2 m); [by apply cached_with|done|by rewrite En|done|done|done|exact G|cbn [inodes with_tu]; lia|].
  intros l3 p3 Hc3 Hp3 Hl3 Hu3 Hr3. rewrite En in Hr3. cbn [inodes with_tu s1] in Hr3.
  apply (IH _ v2 path' name' ip2 p3 m); [done|split; [exact Ht2|apply Hft|apply Hft|apply Hft]|done|by eapply de_var_only|done|done|done|done|done|done|lia|done|].
  intros r name2 s' (W1 & W2 & (v3 & W3 & W3') & W4 & W5). apply HQ. rewrite Hes in W5. splits; [done|done| |done|].
  { exists v3. split; [done|]. by eapply only_range_trans. }
  cbn [sb set_inodes with_tu s1 inodes] in W5. destruct (resolve (sb s) (av a) parent m es) as [m'|].
  - destruct W5 as (ip' & p' & A1 & A2 & A3 & A4 & A5). exists ip', p'. splits; [done|done|done|intros x; rewrite A4, Hr3, Hrefs; lia|].
    intros Epar'. destruct (A5 Epar') as (e' & A6 & A7). exists e'. split; [|done]. destruct es; [done|]. exact A6.
  - destruct W5 as [A1 A2]. split; [done|]. intros x. rewrite A2, Hr3, Hrefs. lia.
Qed.
(** [idup]: one reference more. *)
Lemma wp_idup s a ip p (Q : nat -> fs_t T U -> Prop) : cached None s a -> inodes s !! ip = Some p -> 0 < iref p ->
  (forall l', got (inodes s) dev (inum p) ip l' -> Q ip (set_inodes l' s)) -> wp (idup ip) Q s.
Proof.
  intros Hc Hp Hr HQ. unfold idup, ic_acquire, ic_release. apply wp_bind, wp_spin_acquire; [apply Hc|]. apply wp_bind, (wp_upd_inode ip p); [done|].
  apply wp_bind, wp_spin_release; [done|]. cbn [inodes set_ic_lock]. rewrite lock_cycle by apply Hc. apply wp_ret, HQ.
  destruct (ch_live _ _ _ Hc _ _ Hp Hr) as (Hdev & _). by apply got_cached.
Qed.

(** The state in which [namex] is called: the current directory is in use and
    two entries of the cache are not. *)
Record start_ok s a (v : view) cwd c : Prop := StartOk {
  so_root : dev = ROOTDEV;
  so_cached : cached None s a;
  so_tx : fs_tx s a;
  so_copy : copy_rep (um s) v;
  so_var : de_var de_addr v;
  so_cwd : inodes s !! cwd = Some c /\ 0 < iref c;
  so_room : 2 <= unused (inodes s) }.

(** Where the path starts. *)
Definition start_at (path : list Z) (c : inode) : Z := if hd0 path =? SLASH then ROOTINO else inum c.

Lemma wp_namex P s a v path parent name cwd c (Q : option nat * list Z -> fs_t T U -> Prop) :
  start_ok s a v cwd c -> tree_ok (sb s) (av a) P -> P (start_at path c) -> plain path -> length name = 14%nat ->
  (forall r name' s' v', cached None s' a -> tx_rep (txs s') a -> sb s' = sb s -> copy_rep (um s') v' -> only_range false de_addr DIRENT v v' ->
    match resolve (sb s) (av a) parent (start_at path c) (elems path) with
    | None => r = None /\ forall x, refs (inodes s') x = refs (inodes s) x
    | Some m => exists ip p, r = Some ip /\ inodes s' !! ip = Some p /\ live dev m p /\
        (forall x, refs (inodes s') x = refs (inodes s) x + if decide (x = m) then 1 else 0) /\
        (parent = true -> exists e, last (elems path) = Some e /\ canon name' = canon e)
    end -> Q (r, name') s') ->
  wp (namex me de_addr cwd path parent name) Q s.
Proof.
  intros [Hroot Hc Hft Hv Hvar (Hcwd & Hrc) Hu] Ht HPn Hpl Hname HQ. unfold namex. set (n := start_at path c) in *. pose proof (nd_range _ _ _ _ (Ht n HPn)) as Hn.
  assert (forall (Q : nat -> fs_t T U -> Prop), (forall ip l', got (inodes s) dev n ip l' -> Q ip (set_inodes l' s)) ->
    wp (if hd0 path =? SLASH then iget ROOTDEV ROOTINO else idup cwd) Q s) as Hstart.
  { intros Q' HQ'. unfold n, start_at in *. destruct (hd0 path =? SLASH); [|apply (wp_idup s a cwd c); [done|done|done|intros l'; apply HQ']].
    rewrite <- Hroot. apply wp_iget; [apply Hc|apply unused_room; lia|done]. }
  apply wp_bind, Hstart. intros ip l' G. destruct (got_at _ _ _ _ _ G) as (p & Hp & Hl). pose proof (got_unused _ _ _ _ _ _ G Hp) as Hun.
  apply (wp_namex_loop P a parent _ _ v path name ip p n);
    [by eapply got_cached_ok|destruct Hft; by split|done|done|done|done|done|done|done|done|lia|cbn [inodes set_inodes]; lia|].
  intros r name' s' (W1 & W2 & (v' & W3 & W3') & W4 & W5). apply (HQ r name' s' v'); [done|done|done|done|done|]. cbn [sb set_inodes inodes] in W5.
  destruct (resolve (sb s) (av a) parent n (elems path)) as [m|].
  - destruct W5 as (ip' & p' & A1 & A2 & A3 & A4 & A5). exists ip', p'. splits; [done|done|done| |done].
    intros x. rewrite A4, (got_refs _ s a n ip l' x Hc G). unfold one. lia.
  - destruct W5 as [A1 A2]. split; [done|]. intros x. rewrite A2, (got_refs _ s a n ip l' x Hc G). lia.
Qed.

(** C7.  [namex], hence [namei] and [nameiparent], resolves a path from the root
    or from the current directory: it returns the inode at which the walk along
    the elements of the path arrives, or the directory before the last element
    with that element's name, and no inode if an element is missing or stands
    below a file.  One reference to the inode returned is all that is left over:
    every other count is as before, no inode is locked, the cache agrees with
    the disk and the disk is as it was. *)
Theorem namex_correct P s a v path parent name cwd c :
  start_ok s a v cwd c -> tree_ok (sb s) (av a) P -> P (start_at path c) -> plain path -> length name = 14%nat ->
  wp (namex me de_addr cwd path parent name) (fun '(r, name') s' =>
    cached None s' a /\ tx_rep (txs s') a /\ sb s' = sb s /\
    match resolve (sb s) (av a) parent (start_at path c) (elems path) with
    | None => r = None /\ forall x, refs (inodes s') x = refs (inodes s) x
    | Some m => exists ip p, r = Some ip /\ inodes s' !! ip = Some p /\ live dev m p /\
        (forall x, refs (inodes s') x = refs (inodes s) x + if decide (x = m) then 1 else 0) /\
        (parent = true -> exists e, last (elems path) = Some e /\ canon name' = canon e)
    end) s.
Proof. intros Hs Ht HP Hpl Hname. by apply (wp_namex P s a v path parent name cwd c). Qed.
End cache.

(** ** An example: a root directory with one file *)

Definition ex_root : inode := Inode 1 1 1 sl_free 0 T_DIR 0 0 1 32 (46 :: replicate 12 0).
Definition ex_leaf : inode := Inode 0 0 0 sl_free 0 T_FILE 0 0 1 0 (replicate 13 0).
Definition ex_tree (b : Z) : blk :=
  if b =? 45 then ex_bitmap
  else if b =? 32 then store_dinode ex_leaf (store_dinode ex_root zero_blk 64) 128
  else if b =? 46 then mk_dirent [46] 1 ++ mk_dirent [97] 2 ++ replicate 992 0
  else zero_blk.

Lemma ex_tree_fs_ok : fs_ok ex_sb 2 ex_tree.
Proof.
  constructor; [done| |].
  - assert (Forall (fun b => used ex_sb ex_tree b = true) (seqZ 0 46)) as H by (apply (bool_decide_unpack _); by vm_compute).
    intros b Hb. rewrite Forall_forall in H. apply H, elem_of_seqZ. change (dstart ex_sb) with 46 in Hb. lia.
  - intros b. unfold ex_tree. destruct (b =? 45); [apply ex_bitmap_wf|]. destruct (b =? 32); [by apply store_dinode_wf, store_dinode_wf, zero_blk_wf|].
    destruct (b =? 46); [|apply zero_blk_wf]. split; [done|]. apply (bool_decide_unpack _). by vm_compute.
Qed.
Lemma ex_tree_file_ok : file_ok ex_sb ex_tree (46 :: replicate 12 0).
Proof.
  assert (forall j, 0 <= j < NSLOT -> slot ex_tree (46 :: replicate 12 0) j <> 0 -> j = 0) as Hs by exact ex_slot.
  constructor; [done| |].
  - intros j Hj H%Hs; [|done]. subst j. by vm_compute.
  - intros j j' Hj Hj' H E. rewrite (Hs j), (Hs j') by (done || congruence). done.
Qed.
Lemma ex_tree_ok : tree_ok ex_sb ex_tree (fun n => n = 1 \/ n = 2).
Proof.
  intros n Hn. destruct Hn as [-> | ->]; (split; [done|by vm_compute|by vm_compute|]).
  - intros _. assert (addrs (dnode ex_sb ex_tree 1) = 46 :: replicate 12 0) as -> by (by vm_compute). assert (isize (dnode ex_sb ex_tree 1) = 32) as Es by (by vm_compute).
    unfold nent. rewrite Es. splits; [apply ex_tree_file_ok| |done|done|done|].
    + intros bn Hbn Hlt. unfold BSIZE in Hlt. assert (bn = 0) as -> by lia. done.
    + intros k c m E Hk. change (Z.of_nat (Z.to_nat (32 / DIRENT))) with 2 in Hk. assert (k = 0 \/ k = 1) as [-> | ->] by lia; vm_compute in E; injection E as _ <-; auto.
  - intros E. by vm_compute in E.
Qed.
(** The state with the root directory as the current one. *)
Definition ex_state (sb : superblock) (f : Z -> blk) : fs_t atx view := Fs sb spin_free (ex_root :: replicate 3 ex_leaf) (ATx f ∅ ∅ ∅ 29 2 1) ex_kview.

Lemma ex_cached sb f : 1 < ninodes sb -> cached (dev := 1) 1 None (ex_state sb f) (ATx f ∅ ∅ ∅ 29 2 1).
Proof.
  intros Hsb. assert (forall j p, inodes (ex_state sb f) !! j = Some p -> j = 0%nat /\ p = ex_root \/ p = ex_leaf) as Hat.
  { intros [|j] p Hp; [left; by injection Hp as <-|right]. change (replicate 3 ex_leaf !! j = Some p) in Hp. by apply lookup_replicate in Hp as [-> _]. }
  split; [done| | | |].
  - intros j p Hp. destruct (Hat j p Hp) as [[_ ->]| ->]; done.
  - intros i j p q Hp Hq Hr (L & _). destruct (Hat i p Hp) as [[-> ->]| ->], (Hat j q Hq) as [[-> ->]| ->]; done.
  - intros j p Hp. destruct (Hat j p Hp) as [[_ ->]| ->]; done.
  - intros j p Hp Hr. destruct (Hat j p Hp) as [[_ ->]| ->]; [|done]. split; [done|]. split; [split; [done|exact Hsb]|done].
Qed.
Lemma ex_start sb f : fs_ok sb 2 f -> 1 < ninodes sb -> start_ok (dev := 1) 1 512 (ex_state sb f) (ATx f ∅ ∅ ∅ 29 2 1) ex_kview 0 ex_root.
Proof.
  intros Hf Hsb. split; [done|by apply ex_cached| |exact ex_kcopy|exact ex_de_var|done|done].
  split; [|done|done|done]. split; [done|]. unfold room. cbn [alog acap]. rewrite size_empty. change NBUF with 30. lia.
Qed.

Lemma namex_correct_witness : wp (namex 1 512 0 [47; 97] false (replicate 14 0)) (fun '(r, _) s' =>
  exists ip p, r = Some ip /\ inodes s' !! ip = Some p /\ live 1 2 p /\ refs (inodes s') 2 = 1 /\ refs (inodes s') 1 = 1) (ex_state ex_sb ex_tree).
Proof.
  pose proof (namex_correct (dev := 1) 1 512 _ (ex_state ex_sb ex_tree) (ATx ex_tree ∅ ∅ ∅ 29 2 1) ex_kview [47; 97] false (replicate 14 0) 0 ex_root (ex_start _ _ ex_tree_fs_ok eq_refl) ex_tree_ok) as H.
  plain_ops H. eapply wp_conseq; [apply H; [by left|by repeat constructor|done]|]. clear H.
  intros [r name'] s'. assert (resolve ex_sb ex_tree false 1 (elems [47; 97]) = Some 2) as E by (by vm_compute).
  change (resolve (sb (ex_state ex_sb ex_tree)) (av (ATx ex_tree ∅ ∅ ∅ 29 2 1)) false (start_at [47; 97] ex_root) (elems [47; 97])) with (resolve ex_sb ex_tree false 1 (elems [47; 97])).
  rewrite E. intros (_ & _ & _ & ip & p & H1 & H2 & H3 & H4 & _). exists ip, p. splits; [done|done|done| |]; rewrite H4; by vm_compute.
Defined.
