(* ===== verification/Mkfs.v ===== *)
(** * mkfs (src/mkfs/mkfs.c)

    The host program that writes the first disk image: the superblock, a root
    directory and the files given to it.  The image is a map from sectors to
    blocks; reading a sector that has not been written is an error, as reading
    past the end of the image file is.  An assertion that fails and an [exit(1)]
    are [Panic].  Integers on the disk are little-endian: [xint] and [xshort] are
    part of the encoding of blocks ([put32], [put16], ...). *)

From S2P Require Import Prelude Spinlock Sleeplock Block Log Tx CopyIO Fs.

Definition NINODES : Z := 200.
Definition FSSIZE : Z := 1000.
Definition nbitmap : Z := FSSIZE / (BSIZE * 8) + 1.
Definition ninodeblocks : Z := NINODES / IPB + 1.
Definition nlog_ : Z := LOGSIZE.
Definition nmeta : Z := 2 + nlog_ + ninodeblocks + nbitmap.
Definition nblocks_ : Z := FSSIZE - nmeta.

(** The image, [freeinode] and [freeblock]. *)
Record mk := Mk { img : gmap Z blk; freeinode : Z; freeblock : Z }.
Definition set_img (x : gmap Z blk) (s : mk) : mk := Mk x (freeinode s) (freeblock s).

(** The variable [sb]. *)
Definition mk_sb : superblock :=
  SuperBlock FSMAGIC FSSIZE nblocks_ NINODES nlog_ 2 (2 + nlog_) (2 + nlog_ + ninodeblocks).

Definition wsect (sec : Z) (buf : blk) : M mk unit := modify (fun s => set_img (<[sec := buf]> (img s)) s).
Definition rsect (sec : Z) : M mk blk :=
  let! s := get in
  match img s !! sec with Some d => ret d | None => panic "read" end.

Definition winode (inum : Z) (ip : inode) : M mk unit :=
  let bn := IBLOCK inum mk_sb in
  let! buf := rsect bn in
  wsect bn (store_dinode ip buf (inum mod IPB * DINODE)).
Definition rinode (inum : Z) : M mk inode :=
  let! buf := rsect (IBLOCK inum mk_sb) in
  ret (load_dinode buf (inum mod IPB * DINODE) empty_inode).

(** [freeblock++] and [freeinode++]. *)
Definition new_block : M mk Z := fun s => Ok (freeblock s) (Mk (img s) (freeinode s) (wrap32 (freeblock s + 1))).
Definition new_inode : M mk Z := fun s => Ok (freeinode s) (Mk (img s) (wrap32 (freeinode s + 1)) (freeblock s)).

Definition mk_ialloc (type : Z) : M mk Z :=
  let! inum := new_inode in
  winode inum (set_nlink 1 (set_itype type empty_inode)) ;;
  ret inum.

(** [for(i = 0; i < used; i++) buf[i/8] |= 1 << (i%8)]. *)
Fixpoint mk_bits (k : nat) (buf : blk) : blk :=
  match k with
  | O => buf
  | S k' => let buf := mk_bits k' buf in set_bit buf (Z.of_nat k')
  end.
Definition mk_balloc (used : Z) : M mk unit :=
  if negb (used <? BSIZE * 8) then panic "assert" else
  wsect (bmapstart mk_sb) (mk_bits (Z.to_nat used) zero_blk).

(** The block of [din] that holds block [fbn] of the file, allocated where it
    has none. *)
Definition mk_bmap (din : inode) (fbn : Z) : M mk (inode * Z) :=
  if fbn <? NDIRECT then
    if addr_at din fbn =? 0 then
      let! b := new_block in ret (set_addr fbn b din, b)
    else ret (din, addr_at din fbn)
  else
    let! din :=
      (if addr_at din NDIRECT =? 0 then let! b := new_block in ret (set_addr NDIRECT b din) else ret din) in
    let! indirect := rsect (addr_at din NDIRECT) in
    if get32 indirect (4 * (fbn - NDIRECT)) =? 0 then
      let! b := new_block in
      wsect (addr_at din NDIRECT) (put32 indirect (4 * (fbn - NDIRECT)) b) ;;
      ret (din, b)
    else ret (din, get32 indirect (4 * (fbn - NDIRECT))).

(** The loop of [iappend] on the bytes [p]; the value is [din] and [off]. *)
Fixpoint iappend_loop (fuel : nat) (din : inode) (off : Z) (p : list Z) : M mk (inode * Z) :=
  if negb (0 <? Z.of_nat (length p)) then ret (din, off) else
  match fuel with
  | O => nofuel
  | S fuel' =>
      let fbn := off / BSIZE in
      if negb (fbn <? MAXFILE) then panic "assert" else
      let! (din, x) := mk_bmap din fbn in
      let n1 := Z.min (Z.of_nat (length p)) ((fbn + 1) * BSIZE - off) in
      let! buf := rsect x in
      wsect x (splice buf (off - fbn * BSIZE) (take (Z.to_nat n1) p)) ;;
      iappend_loop fuel' din (wrap32 (off + n1)) (drop (Z.to_nat n1) p)
  end.
Definition iappend (inum : Z) (p : list Z) : M mk unit :=
  let! din := rinode inum in
  let! (din, off) := iappend_loop (rw_fuel (Z.of_nat (length p))) din (isize din) p in
  winode inum (set_isize off din).

(** ** main *)

(** The name under which a file is stored: without [user/] and without a
    leading underscore. *)
Definition strip_user (path : list Z) : list Z :=
  match path with
  | 117 :: 115 :: 101 :: 114 :: 47 :: rest => rest
  | _ => path
  end.
Definition short_name (path : list Z) : list Z :=
  match strip_user path with
  | 95 :: rest => rest
  | name => name
  end.

(** A file given to mkfs: its path and what the calls of [read] deliver. *)
Definition mkfile : Type := list Z * list (list Z).

Definition mk_add (rootino : Z) (file : mkfile) : M mk unit :=
  let (path, chunks) := file in
  if bool_decide (SLASH ∈ strip_user path) then panic "assert" else
  let! inum := mk_ialloc T_FILE in
  iappend rootino (mk_dirent (short_name path) inum) ;;
  for_each chunks (fun buf => iappend inum buf).

(** [struct superblock] as bytes. *)
Definition store_superblock (s : superblock) (d : blk) : blk :=
  let d := put32 d 0 (magic s) in
  let d := put32 d 4 (sb_size s) in
  let d := put32 d 8 (nblocks s) in
  let d := put32 d 12 (ninodes s) in
  let d := put32 d 16 (nlog s) in
  let d := put32 d 20 (logstart s) in
  let d := put32 d 24 (inodestart s) in
  put32 d 28 (bmapstart s).

Definition mkfs_main (files : list mkfile) : M mk unit :=
  modify (fun s => Mk (img s) (freeinode s) nmeta) ;;
  for_each (seqZ 0 FSSIZE) (fun i => wsect i zero_blk) ;;
  wsect 1 (store_superblock mk_sb zero_blk) ;;
  let! rootino := mk_ialloc T_DIR in
  if negb (rootino =? ROOTINO) then panic "assert" else
  iappend rootino (mk_dirent [46] rootino) ;;
  iappend rootino (mk_dirent [46; 46] rootino) ;;
  for_each files (mk_add rootino) ;;
  let! din := rinode rootino in
  let off := (isize din / BSIZE + 1) * BSIZE in
  winode rootino (set_isize off din) ;;
  let! used := gets freeblock in
  mk_balloc used.

(** [main], from the empty image file; [freeinode] starts at one. *)
Definition mkfs (files : list mkfile) : outcome mk unit := mkfs_main files (Mk ∅ 1 0).
