(* ===== verification/MkfsProof.v ===== *)
(** * Proofs about mkfs: blocks of files

    The blocks that the inodes own are distinct and below [freeblock], the
    blocks from [freeblock] on are zero, and a file has a block exactly where it
    has bytes.  [iappend] keeps that and appends to one file. *)

From S2P Require Import Prelude Spinlock Sleeplock Block BlockCache Log Tx CopyIO Fs FsBlock FsFile FsRead FsInode FsWrite Mkfs.

(** ** The blocks of the inodes

    [ad i] are the addresses of inode [i], for the inodes below [ni]. *)

Record owns (f : Z -> blk) (ad : Z -> list Z) (ni fb : Z) : Prop := Owns {
  ow_fb : nmeta <= fb < 2^32;
  ow_len : forall i, 1 <= i < ni -> length (ad i) = 13%nat;
  ow_wf : forall b, blk_wf (f b);
  ow_range : forall i j, 1 <= i < ni -> 0 <= j < NSLOT -> slot f (ad i) j <> 0 -> nmeta <= slot f (ad i) j < fb;
  ow_inj : forall i j i' j', 1 <= i < ni -> 0 <= j < NSLOT -> 1 <= i' < ni -> 0 <= j' < NSLOT ->
    slot f (ad i) j <> 0 -> slot f (ad i) j = slot f (ad i') j' -> i = i' /\ j = j';
  ow_zero : forall b, fb <= b -> f b = zero_blk }.

(** The contents of the files and the blocks in front of the data stay. *)
Record steady (f : Z -> blk) (ad : Z -> list Z) (ni : Z) (f' : Z -> blk) (ad' : Z -> list Z) : Prop := Steady {
  sd_content : forall i bn, 1 <= i < ni -> 0 <= bn < MAXFILE -> content f' (ad' i) bn = content f (ad i) bn;
  sd_meta : forall b, b < nmeta -> f' b = f b }.

Lemma steady_refl f ad ni : steady f ad ni f ad.
Proof. split; done. Qed.
Lemma steady_trans f ad ni f1 ad1 f2 ad2 : steady f ad ni f1 ad1 -> steady f1 ad1 ni f2 ad2 -> steady f ad ni f2 ad2.
Proof. intros [A1 A2] [B1 B2]. split; [intros; by rewrite B1, A1|intros; by rewrite B2, A2]. Qed.

(** A new block in the slot [j0] of inode [i0]. *)
Record took (i0 j0 ni : Z) (f : Z -> blk) (ad : Z -> list Z) (fb : Z) (f' : Z -> blk) (ad' : Z -> list Z) : Prop := Took {
  tk_owns : owns f' ad' ni (fb + 1);
  tk_steady : steady f ad ni f' ad';
  tk_slot : forall i j, 1 <= i < ni -> 0 <= j < NSLOT -> slot f' (ad' i) j = if decide (i = i0 /\ j = j0) then fb else slot f (ad i) j;
  tk_ad : forall i, i <> i0 -> ad' i = ad i }.

Lemma owns_add f ad ni fb f' ad' i0 j0 : owns f ad ni fb -> fb + 1 < 2^32 -> 1 <= i0 < ni -> 0 <= j0 < NSLOT -> slot f (ad i0) j0 = 0 ->
  (forall i, 1 <= i < ni -> length (ad' i) = 13%nat) -> (forall b, blk_wf (f' b)) ->
  (forall i j, 1 <= i < ni -> 0 <= j < NSLOT -> slot f' (ad' i) j = if decide (i = i0 /\ j = j0) then fb else slot f (ad i) j) ->
  (forall b, slot f (ad i0) 12 = 0 \/ slot f (ad i0) 12 <> b -> f' b = f b) -> (forall i, i <> i0 -> ad' i = ad i) ->
  took i0 j0 ni f ad fb f' ad'.
Proof.
  intros [Hfb Hlen Hwf Hr Hinj Hz] Hfb1 Hi0 Hj0 Hs0 Hlen' Hwf' Hslot Hf' Had. assert (nmeta = 46) as Em by done. assert (0 <= 12 < NSLOT) as H12 by done.
  assert (forall b, b < nmeta \/ fb <= b -> f' b = f b) as Hout.
  { intros b Hb. apply Hf'. destruct (decide (slot f (ad i0) 12 = 0)) as [|Hn]; [by left|right]. specialize (Hr i0 12 Hi0 H12 Hn). lia. }
  split; [split|split|done|done].
  - lia.
  - done.
  - done.
  - intros i j Hi Hj. rewrite Hslot by done. case_decide; [lia|]. intros Hn. specialize (Hr i j Hi Hj Hn). lia.
  - intros i j i' j' Hi Hj Hi' Hj'. rewrite !Hslot by done. repeat case_decide; intros Hn E.
    + naive_solver.
    + destruct (Hr i' j' Hi' Hj'); lia.
    + destruct (Hr i j Hi Hj); lia.
    + by apply Hinj.
  - intros b Hb. rewrite Hout by lia. apply Hz. lia.
  - intros i bn Hi Hbn. destruct (bslot_range bn Hbn) as [Hb1 Hb2]. unfold content, faddr. rewrite Hslot by done. case_decide as E.
    + destruct E as [-> ->]. rewrite Hs0, Hout, Hz by lia. by replace (fb =? 0) with false by (bool_goal; lia).
    + destruct (slot f (ad i) (bslot bn) =? 0) eqn:E0; [done|]. b2p. apply Hf'. destruct (decide (slot f (ad i0) 12 = 0)) as [|Hn]; [by left|right].
      intros E1. destruct (Hinj i0 12 i (bslot bn)); [done..|congruence].
  - intros b Hb. apply Hout. by left.
Qed.

(** ... in one of its own addresses, ... *)
Lemma took_addr f ad ni fb i0 j0 : owns f ad ni fb -> fb + 1 < 2^32 -> 1 <= i0 < ni -> 0 <= j0 < 13 -> lat (ad i0) j0 = 0 ->
  took i0 j0 ni f ad fb f (<[i0 := <[Z.to_nat j0 := fb]> (ad i0)]> ad).
Proof.
  intros HO Hfb1 Hi0 Hj0 Hs0. assert (NSLOT = 269) as EN by done. pose proof (ow_fb _ _ _ _ HO) as Hfb. assert (nmeta = 46) as Em by done.
  pose proof (ow_len _ _ _ _ HO i0 Hi0) as Hl.
  apply owns_add; [done|lia|done|lia| | |apply HO| |done|intros; by apply fn_lookup_insert_ne].
  - unfold slot. by replace (j0 <? 13) with true by (bool_goal; lia).
  - intros i Hi. destruct (decide (i = i0)) as [->|Hne]; [rewrite fn_lookup_insert, length_insert|rewrite fn_lookup_insert_ne by done]; by apply HO.
  - intros i j Hi Hj. destruct (decide (i = i0)) as [->|Hne].
    2:{ rewrite fn_lookup_insert_ne by done. by rewrite decide_False by naive_solver. }
    rewrite fn_lookup_insert. unfold slot. rewrite !lat_insert by lia.
    destruct (j <? 13) eqn:Ej; b2p; [repeat case_decide; naive_solver|]. rewrite (decide_False (P := i0 = i0 /\ j = j0)) by lia. case_decide as E12; [|done].
    subst j0. rewrite Hs0, (ow_zero _ _ _ _ HO fb), get32_zero by lia. by replace (fb =? 0) with false by (bool_goal; lia).
Qed.

(** ... or in its indirect block. *)
Lemma took_entry f ad ni fb i0 k : owns f ad ni fb -> fb + 1 < 2^32 -> 1 <= i0 < ni -> 0 <= k < NINDIRECT -> lat (ad i0) 12 <> 0 ->
  slot f (ad i0) (13 + k) = 0 -> took i0 (13 + k) ni f ad fb (<[lat (ad i0) 12 := put32 (f (lat (ad i0) 12)) (4 * k) fb]> f) ad.
Proof.
  intros HO Hfb1 Hi0 Hk Hnz Hs0. assert (NSLOT = 269) as EN by done. assert (NINDIRECT = 256) as EI by done. pose proof (ow_fb _ _ _ _ HO) as Hfb. assert (nmeta = 46) as Em by done.
  apply owns_add; [done|lia|done|lia|done|apply HO| | | |done].
  - intros b. destruct (decide (b = lat (ad i0) 12)) as [->|]; [rewrite fn_lookup_insert; apply putn_wf, HO|rewrite fn_lookup_insert_ne by done; apply HO].
  - intros i j Hi Hj. unfold slot. destruct (j <? 13) eqn:Ej; b2p; [rewrite decide_False by lia; done|].
    destruct (decide (i = i0)) as [->|Hne].
    + replace (lat (ad i0) 12 =? 0) with false by (bool_goal; done). rewrite fn_lookup_insert.
      assert (length (f (lat (ad i0) 12)) = 1024%nat) by apply (ow_wf _ _ _ _ HO). case_decide as E.
      * destruct E as [_ ->]. replace (13 + k - 13) with k by lia. rewrite get32_put32_eq by lia. apply wrap32_small. lia.
      * apply get32_put32_ne; [lia|lia|]. destruct (decide (j = 13 + k)) as [->|]; [naive_solver|lia].
    + rewrite decide_False by naive_solver. destruct (Z.eqb_spec (lat (ad i) 12) 0) as [|E0]; [done|]. rewrite fn_lookup_insert_ne; [done|].
      intros E. destruct (ow_inj _ _ _ _ HO i0 12 i 12); [done|lia|done|lia|exact Hnz|exact E|]. congruence.
  - intros b [E|E]; [done|]. rewrite fn_lookup_insert_ne; [done|]. intros Hb. by apply E.
Qed.

(** Writing a data block changes the contents of one block of one file. *)
Lemma owns_put f ad ni fb i0 bn d : owns f ad ni fb -> 1 <= i0 < ni -> 0 <= bn < MAXFILE -> faddr f (ad i0) bn <> 0 -> blk_wf d ->
  let f' := <[faddr f (ad i0) bn := d]> f in
  owns f' ad ni fb /\ (forall i j, 1 <= i < ni -> 0 <= j < NSLOT -> slot f' (ad i) j = slot f (ad i) j) /\
  (forall i b, 1 <= i < ni -> 0 <= b < MAXFILE -> content f' (ad i) b = if decide (i = i0 /\ b = bn) then d else content f (ad i) b) /\
  (forall b, b < nmeta -> f' b = f b).
Proof.
  intros HO Hi0 Hbn Hnz Hd f'. destruct (bslot_range bn Hbn) as [Hb1 Hb2]. assert (0 <= 12 < NSLOT) as H12 by done.
  pose proof HO as [Hfb Hlen Hwf Hr Hinj Hz]. pose proof (Hr i0 (bslot bn) Hi0 Hb1 Hnz) as Hx. fold (faddr f (ad i0) bn) in Hx.
  assert (forall i j, 1 <= i < ni -> 0 <= j < NSLOT -> slot f' (ad i) j = slot f (ad i) j) as Hslot.
  { intros i j Hi Hj. unfold slot. destruct (j <? 13); [done|]. destruct (Z.eqb_spec (lat (ad i) 12) 0) as [|E0]; [done|]. f_equal. unfold f'.
    rewrite fn_lookup_insert_ne; [done|]. intros E. by destruct (Hinj i0 (bslot bn) i 12 Hi0 Hb1 Hi H12 Hnz E). }
  splits; [|done| |].
  - split; [done|done| | | |].
    + intros b. unfold f'. destruct (decide (b = faddr f (ad i0) bn)) as [->|]; [by rewrite fn_lookup_insert|by rewrite fn_lookup_insert_ne].
    + intros i j Hi Hj. rewrite Hslot by done. by apply Hr.
    + intros i j i' j' Hi Hj Hi' Hj'. rewrite !Hslot by done. by apply Hinj.
    + intros b Hb. unfold f'. rewrite fn_lookup_insert_ne by lia. by apply Hz.
  - intros i b Hi Hb. destruct (bslot_range b Hb) as [Hc1 Hc2]. unfold content, faddr. rewrite Hslot by done.
    destruct (decide (i = i0 /\ b = bn)) as [[-> ->]|Hne].
    + replace (slot f (ad i0) (bslot bn) =? 0) with false by (bool_goal; done). apply fn_lookup_insert.
    + destruct (Z.eqb_spec (slot f (ad i) (bslot b)) 0) as [|E0]; [done|]. unfold f'. rewrite fn_lookup_insert_ne; [done|]. intros E.
      destruct (Hinj i0 (bslot bn) i (bslot b) Hi0 Hb1 Hi Hc1 Hnz E) as [-> E2]. apply Hne. split; [done|]. by apply bslot_inj; [lia|lia|].
  - intros b Hb. unfold f'. rewrite fn_lookup_insert_ne by lia. done.
Qed.

(** ** Blocks and sizes *)

(** A file of [size] bytes has a block where it has bytes. *)
Record filled (f : Z -> blk) (l : list Z) (size : Z) : Prop := Filled {
  fd_blocks : forall bn, 0 <= bn < MAXFILE -> faddr f l bn = 0 <-> size <= bn * BSIZE;
  fd_indirect : lat l 12 = 0 <-> size <= NDIRECT * BSIZE }.

(** The number of blocks of such a file. *)
Definition nb (size : Z) : Z :=
  let c := (size + BSIZE - 1) / BSIZE in if NDIRECT <? c then c + 1 else c.

Lemma nb_step off : 0 <= off -> off mod BSIZE = 0 -> nb (off + 1) = nb off + if off / BSIZE =? NDIRECT then 2 else 1.
Proof.
  unfold nb, BSIZE, NDIRECT. intros H0 H1. replace ((off + 1 + 1024 - 1) / 1024) with (off / 1024 + 1) by dlia.
  replace ((off + 1024 - 1) / 1024) with (off / 1024) by dlia.
  destruct (12 <? off / 1024 + 1) eqn:E1, (12 <? off / 1024) eqn:E2, (off / 1024 =? 12) eqn:E3; b2p; lia.
Qed.
Lemma nb_same off n : 0 <= off -> 0 < n -> off mod BSIZE + n <= BSIZE -> nb (off + n) = nb (off + 1).
Proof. unfold nb, BSIZE. intros H0 Hn H1. replace ((off + n + 1024 - 1) / 1024) with ((off + 1 + 1024 - 1) / 1024) by dlia. done. Qed.
Lemma nb_inside off : 0 <= off -> off mod BSIZE <> 0 -> nb (off + 1) = nb off.
Proof. unfold nb, BSIZE. intros H0 H1. replace ((off + 1 + 1024 - 1) / 1024) with ((off + 1024 - 1) / 1024) by dlia. done. Qed.
Lemma nb_mono n m : 0 <= n <= m -> nb n <= nb m.
Proof.
  unfold nb, BSIZE. intros H. assert ((n + 1024 - 1) / 1024 <= (m + 1024 - 1) / 1024) by dlia.
  destruct (NDIRECT <? _) eqn:E1, (NDIRECT <? (m + 1024 - 1) / 1024) eqn:E2; b2p; lia.
Qed.

(** The first byte of a block does not need more than the others. *)
Lemma filled_same f l off n m : 0 <= off -> off < off + n -> off < off + m -> off mod BSIZE + n <= BSIZE -> off mod BSIZE + m <= BSIZE ->
  filled f l (off + n) -> filled f l (off + m).
Proof. unfold BSIZE. intros H0 Hn Hm H1 H2 [A B]. split; [intros bn Hbn; rewrite (A bn Hbn)|rewrite B]; unfold NDIRECT, BSIZE; dlia. Qed.
Lemma filled_inside f l off : 0 <= off -> off mod BSIZE <> 0 -> filled f l off -> filled f l (off + 1).
Proof. unfold BSIZE. intros H0 Hn [A B]. split; [intros bn Hbn; rewrite (A bn Hbn)|rewrite B]; unfold NDIRECT, BSIZE; dlia. Qed.
Lemma filled_next f l f' l' off : 0 <= off -> off mod BSIZE = 0 -> filled f l off ->
  (forall bn, 0 <= bn < MAXFILE -> faddr f' l' bn = 0 <-> bn <> off / BSIZE /\ faddr f l bn = 0) ->
  (lat l' 12 = 0 <-> off / BSIZE <> NDIRECT /\ lat l 12 = 0) -> filled f' l' (off + 1).
Proof.
  unfold BSIZE. intros H0 Hn [A B] C D. split.
  - intros bn Hbn. rewrite (C bn Hbn), (A bn Hbn). unfold BSIZE. dlia.
  - rewrite D, B. unfold NDIRECT, BSIZE. dlia.
Qed.

(** ** Sectors *)

(** The image has exactly the blocks below [FSSIZE]. *)
Definition disk (s : mk) (f : Z -> blk) : Prop :=
  forall b, img s !! b = if decide (0 <= b < FSSIZE) then Some (f b) else None.

Lemma disk_put s f b d : disk s f -> 0 <= b < FSSIZE -> disk (set_img (<[b := d]> (img s)) s) (<[b := d]> f).
Proof.
  intros H Hb x. cbn. destruct (decide (x = b)) as [->|Hx].
  - by rewrite lookup_insert_eq, fn_lookup_insert, decide_True.
  - by rewrite lookup_insert_ne, fn_lookup_insert_ne by done.
Qed.
Lemma wp_wsect b d (Q : unit -> mk -> Prop) s : Q tt (set_img (<[b := d]> (img s)) s) -> wp (wsect b d) Q s.
Proof. intros H. exact H. Qed.
Lemma wp_rsect b s f (Q : blk -> mk -> Prop) : disk s f -> 0 <= b < FSSIZE -> Q (f b) s -> wp (rsect b) Q s.
Proof. intros H Hb HQ. unfold rsect, wp, bind, get. rewrite H, decide_True by done. exact HQ. Qed.
Lemma wp_new_block (Q : Z -> mk -> Prop) s : 0 <= freeblock s < 2^32 - 1 ->
  Q (freeblock s) (Mk (img s) (freeinode s) (freeblock s + 1)) -> wp new_block Q s.
Proof. intros Hb HQ. unfold wp, new_block. rewrite wrap32_small by lia. exact HQ. Qed.

(** ** iappend on the blocks *)

(** File [i0] has grown from [off] to [off'] bytes; the other files and the
    blocks in front of the data have not changed. *)
Record more (i0 ni : Z) (f : Z -> blk) (ad : Z -> list Z) (fb off : Z) (f' : Z -> blk) (ad' : Z -> list Z) (fb' off' : Z) : Prop := More {
  mo_owns : owns f' ad' ni fb';
  mo_filled : filled f' (ad' i0) off';
  mo_fb : fb' = fb + nb off' - nb off;
  mo_ad : forall i, i <> i0 -> ad' i = ad i;
  mo_slot : forall i j, 1 <= i < ni -> i <> i0 -> 0 <= j < NSLOT -> slot f' (ad i) j = slot f (ad i) j;
  mo_content : forall i bn, 1 <= i < ni -> i <> i0 -> 0 <= bn < MAXFILE -> content f' (ad i) bn = content f (ad i) bn;
  mo_meta : forall b, b < nmeta -> f' b = f b }.

Lemma more_trans i0 ni f ad fb off f1 ad1 fb1 off1 f2 ad2 fb2 off2 :
  more i0 ni f ad fb off f1 ad1 fb1 off1 -> more i0 ni f1 ad1 fb1 off1 f2 ad2 fb2 off2 -> more i0 ni f ad fb off f2 ad2 fb2 off2.
Proof.
  intros [A1 A2 A3 A4 A5 A6 A7] [B1 B2 B3 B4 B5 B6 B7]. split; [done|done|lia| | | |].
  - intros. by rewrite B4, A4.
  - intros i j Hi Hn Hj. rewrite <- A5, <- (A4 i) by done. by apply B5.
  - intros i j Hi Hn Hj. rewrite <- A6, <- (A4 i) by done. by apply B6.
  - intros. by rewrite B7, A7.
Qed.

Lemma faddr_took i0 j0 ni f ad fb f' ad' bn : took i0 j0 ni f ad fb f' ad' -> 1 <= i0 < ni -> 0 <= bn < MAXFILE ->
  faddr f' (ad' i0) bn = if decide (bslot bn = j0) then fb else faddr f (ad i0) bn.
Proof.
  intros T Hi Hbn. destruct (bslot_range bn Hbn) as [Hb _]. unfold faddr. rewrite (tk_slot _ _ _ _ _ _ _ _ T) by done.
  destruct (decide (bslot bn = j0)); [by rewrite decide_True|by rewrite decide_False by naive_solver].
Qed.
Lemma indirect_took i0 j0 ni f ad fb f' ad' : took i0 j0 ni f ad fb f' ad' -> 1 <= i0 < ni ->
  lat (ad' i0) 12 = if decide (j0 = 12) then fb else lat (ad i0) 12.
Proof.
  intros T Hi. pose proof (tk_slot _ _ _ _ _ _ _ _ T i0 12 Hi ltac:(done)) as E. change (slot f' (ad' i0) 12) with (lat (ad' i0) 12) in E. rewrite E.
  destruct (decide (j0 = 12)) as [->|]; [by rewrite decide_True|by rewrite decide_False by naive_solver].
Qed.

(** One block was enough, ... *)
Lemma more_one i0 ni f ad fb off f' ad' : took i0 (bslot (off / BSIZE)) ni f ad fb f' ad' -> 1 <= i0 < ni -> nmeta <= fb ->
  0 <= off -> off mod BSIZE = 0 -> off / BSIZE < MAXFILE -> off / BSIZE <> NDIRECT -> filled f (ad i0) off ->
  more i0 ni f ad fb off f' ad' (fb + 1) (off + 1).
Proof.
  intros T Hi Hfb H0 Hm Hmax Hnd HF. assert (nmeta = 46) as Em by done. assert (0 <= off / BSIZE) by (unfold BSIZE; dlia).
  assert (bslot (off / BSIZE) <> 12) as Hb by (apply bslot_range; lia).
  split; [apply T| | |apply T| | |apply T].
  - apply (filled_next f (ad i0)); [done..| |].
    + intros bn Hbn. rewrite (faddr_took _ _ _ _ _ _ _ _ bn T) by done. case_decide as E.
      * apply bslot_inj in E; lia.
      * split; [intros; split; [intros ->; by apply E|done]|naive_solver].
    + rewrite (indirect_took _ _ _ _ _ _ _ _ T), decide_False by done. naive_solver.
  - rewrite nb_step by done. replace (off / BSIZE =? NDIRECT) with false by (bool_goal; done). lia.
  - intros i j Hi' Hn Hj. rewrite <- (tk_ad _ _ _ _ _ _ _ _ T i Hn) at 1. rewrite (tk_slot _ _ _ _ _ _ _ _ T) by done. by rewrite decide_False by naive_solver.
  - intros i bn Hi' Hn Hj. rewrite <- (sd_content _ _ _ _ _ (tk_steady _ _ _ _ _ _ _ _ T)) by done. by rewrite (tk_ad _ _ _ _ _ _ _ _ T i Hn).
Qed.

(** ... two were taken for the first block behind the direct ones. *)
Lemma more_two i0 ni f ad fb off f1 ad1 f' ad' : took i0 12 ni f ad fb f1 ad1 -> took i0 13 ni f1 ad1 (fb + 1) f' ad' ->
  1 <= i0 < ni -> nmeta <= fb -> off = NDIRECT * BSIZE -> filled f (ad i0) off ->
  more i0 ni f ad fb off f' ad' (fb + 2) (off + 1).
Proof.
  intros T1 T2 Hi Hfb H0 HF. assert (nmeta = 46) as Em by done. assert (off / BSIZE = NDIRECT) as Eb by (subst; done).
  pose proof (tk_steady _ _ _ _ _ _ _ _ T1) as S1. pose proof (tk_steady _ _ _ _ _ _ _ _ T2) as S2. pose proof (steady_trans _ _ _ _ _ _ _ S1 S2) as S.
  split; [|  | | | | |apply S].
  - replace (fb + 2) with (fb + 1 + 1) by lia. apply T2.
  - apply (filled_next f (ad i0)); [subst; done..| |].
    + intros bn Hbn. rewrite (faddr_took _ _ _ _ _ _ _ _ bn T2), (faddr_took _ _ _ _ _ _ _ _ bn T1) by done.
      destruct (bslot_range bn Hbn) as [_ Hb]. rewrite (decide_False (P := bslot bn = 12)) by done. rewrite Eb. case_decide as E.
      * change 13 with (bslot NDIRECT) in E. apply bslot_inj in E; [|lia|done]. lia.
      * split; [intros; split; [intros ->; by apply E|done]|naive_solver].
    + rewrite (indirect_took _ _ _ _ _ _ _ _ T2), (indirect_took _ _ _ _ _ _ _ _ T1) by done. rewrite Eb, decide_False, decide_True by done. lia.
  - rewrite nb_step by (subst; done). rewrite Eb. cbn. lia.
  - intros i Hn. by rewrite (tk_ad _ _ _ _ _ _ _ _ T2 i Hn), (tk_ad _ _ _ _ _ _ _ _ T1 i Hn).
  - intros i j Hi' Hn Hj. rewrite <- (tk_ad _ _ _ _ _ _ _ _ T1 i Hn) at 1. rewrite <- (tk_ad _ _ _ _ _ _ _ _ T2 i Hn).
    rewrite (tk_slot _ _ _ _ _ _ _ _ T2), (tk_slot _ _ _ _ _ _ _ _ T1) by done. by rewrite !decide_False by naive_solver.
  - intros i bn Hi' Hn Hj. rewrite <- (sd_content _ _ _ _ _ S) by done. by rewrite (tk_ad _ _ _ _ _ _ _ _ T2 i Hn), (tk_ad _ _ _ _ _ _ _ _ T1 i Hn).
Qed.

Lemma more_none i0 ni f ad fb off : owns f ad ni fb -> 0 <= off -> off mod BSIZE <> 0 -> filled f (ad i0) off ->
  more i0 ni f ad fb off f ad fb (off + 1).
Proof.
  intros HO H0 Hm HF. split; [done|by apply filled_inside| |done..]. rewrite nb_inside by done. lia.
Qed.

(** What [mk_bmap] leaves: block [off / BSIZE] of file [i0] has an address, the
    contents are the same. *)
Record mapped (i0 ni off : Z) (f : Z -> blk) (ad : Z -> list Z) (s : mk) (din : inode) (r : inode * Z) (s' : mk)
    (f' : Z -> blk) (ad' : Z -> list Z) : Prop := Mapped {
  mp_disk : disk s' f';
  mp_ni : freeinode s' = freeinode s;
  mp_more : more i0 ni f ad (freeblock s) off f' ad' (freeblock s') (off + 1);
  mp_same : forall bn, 0 <= bn < MAXFILE -> content f' (ad' i0) bn = content f (ad i0) bn;
  mp_ret : r = (set_addrs (ad' i0) din, faddr f' (ad' i0) (off / BSIZE)) }.

Section Bmap.
  #[local] Set Default Proof Using "All".
  Context (i0 ni off : Z) (f : Z -> blk) (ad : Z -> list Z) (s : mk) (din : inode).
  Hypothesis Hdisk : disk s f.
  Hypothesis Howns : owns f ad ni (freeblock s).
  Hypothesis Hi0 : 1 <= i0 < ni.
  Hypothesis Hdin : addrs din = ad i0.
  Hypothesis Hfilled : filled f (ad i0) off.
  Hypothesis Hoff : 0 <= off.
  Hypothesis Hmax : off / BSIZE < MAXFILE.
  Hypothesis Hroom : freeblock s + nb (off + 1) - nb off <= FSSIZE.

Lemma addr_din j : addr_at din j = lat (ad i0) j.
Proof using Hdin. unfold addr_at, lat. by rewrite Hdin. Qed.
Lemma din_id : set_addrs (ad i0) din = din.
Proof using Hdin. rewrite <- Hdin. by destruct din. Qed.
Lemma din_set j b : set_addr j b din = set_addrs ((<[i0 := <[Z.to_nat j := b]> (ad i0)]> ad) i0) din.
Proof using Hdin. unfold set_addr. by rewrite fn_lookup_insert, Hdin. Qed.
Lemma faddr_zero : faddr f (ad i0) (off / BSIZE) = 0 <-> off mod BSIZE = 0.
Proof. rewrite (fd_blocks _ _ _ Hfilled) by (unfold BSIZE in *; dlia). unfold BSIZE. dlia. Qed.

Lemma mapped_old : off mod BSIZE <> 0 -> mapped i0 ni off f ad s din (din, faddr f (ad i0) (off / BSIZE)) s f ad.
Proof. intros Hm. split; [done|done|by apply more_none|done|by rewrite din_id]. Qed.

Lemma mapped_took f' ad' s' j0 : took i0 j0 ni f ad (freeblock s) f' ad' -> j0 = bslot (off / BSIZE) -> disk s' f' -> freeinode s' = freeinode s ->
  freeblock s' = freeblock s + 1 -> off mod BSIZE = 0 -> off / BSIZE <> NDIRECT ->
  mapped i0 ni off f ad s din (set_addrs (ad' i0) din, freeblock s) s' f' ad'.
Proof.
  intros T -> Hd Hn Hb Hm Hnd. pose proof (ow_fb _ _ _ _ Howns) as Hfb. assert (0 <= off / BSIZE) by (unfold BSIZE; dlia). split; [done|done| | |].
  - rewrite Hb. apply more_one; lia || done.
  - intros bn Hbn. by apply (sd_content _ _ _ _ _ (tk_steady _ _ _ _ _ _ _ _ T)).
  - by rewrite (faddr_took _ _ _ _ _ _ _ _ _ T), decide_True by (done || lia).
Qed.

Lemma room_step : off mod BSIZE = 0 -> freeblock s + (if off / BSIZE =? NDIRECT then 2 else 1) <= 1000.
Proof. intros Hm. rewrite nb_step in Hroom by done. unfold FSSIZE in Hroom. lia. Qed.

(** The block is a direct one. *)
Lemma wp_mk_direct (Q : inode * Z -> mk -> Prop) : off / BSIZE < NDIRECT ->
  (forall r s' f' ad', mapped i0 ni off f ad s din r s' f' ad' -> Q r s') -> wp (mk_bmap din (off / BSIZE)) Q s.
Proof.
  intros Ed HQ. pose proof (ow_fb _ _ _ _ Howns) as Hfb. assert (nmeta = 46) as Em by done. assert (0 <= off / BSIZE) as Hb0 by (unfold BSIZE; dlia).
  assert (bslot (off / BSIZE) = off / BSIZE) as Eb by (unfold bslot; by rewrite (proj2 (Z.ltb_lt _ _) Ed)).
  assert (faddr f (ad i0) (off / BSIZE) = lat (ad i0) (off / BSIZE)) as Ea.
  { unfold faddr, slot. rewrite Eb. unfold NDIRECT in Ed. by rewrite (proj2 (Z.ltb_lt (off / BSIZE) 13) ltac:(lia)). }
  unfold mk_bmap. rewrite (proj2 (Z.ltb_lt _ _) Ed), addr_din. destruct (Z.eqb_spec (lat (ad i0) (off / BSIZE)) 0) as [E|E].
  - assert (off mod BSIZE = 0) as Hm by (apply faddr_zero; congruence). pose proof (room_step Hm) as Hr. assert (off / BSIZE <> NDIRECT) by lia.
    replace (off / BSIZE =? NDIRECT) with false in Hr by (bool_goal; done). apply wp_bind, wp_new_block; [lia|]. apply wp_ret. rewrite din_set. eapply HQ.
    apply (mapped_took f _ _ (off / BSIZE)); [apply took_addr; unfold NDIRECT in *; lia || done|done..].
  - apply wp_ret. rewrite <- Ea. eapply HQ, mapped_old. rewrite <- faddr_zero. congruence.
Qed.

(** The first block behind them: the indirect block is taken, too. *)
Lemma wp_mk_first (Q : inode * Z -> mk -> Prop) : NDIRECT <= off / BSIZE -> lat (ad i0) 12 = 0 ->
  (forall r s' f' ad', mapped i0 ni off f ad s din r s' f' ad' -> Q r s') -> wp (mk_bmap din (off / BSIZE)) Q s.
Proof.
  intros Ed E0 HQ. pose proof (ow_fb _ _ _ _ Howns) as Hfb. assert (nmeta = 46) as Em by done. set (fb := freeblock s) in *.
  assert (off = NDIRECT * BSIZE) as Eo by (apply (fd_indirect _ _ _ Hfilled) in E0; unfold NDIRECT, BSIZE in *; dlia).
  assert (off mod BSIZE = 0) as Hm by (subst off; done). assert (off / BSIZE = NDIRECT) as Eb by (subst off; done).
  pose proof (room_step Hm) as Hr. rewrite Eb in Hr. change (NDIRECT =? NDIRECT) with true in Hr. cbn in Hr. fold fb in Hr.
  assert (took i0 12 ni f ad fb f (<[i0 := <[12%nat := fb]> (ad i0)]> ad)) as T1 by (apply (took_addr f ad ni fb i0 12); lia || done).
  set (ad1 := <[i0 := <[12%nat := fb]> (ad i0)]> ad) in *.
  assert (lat (ad1 i0) 12 = fb) as E1 by (by rewrite (indirect_took _ _ _ _ _ _ _ _ T1), decide_True).
  assert (took i0 13 ni f ad1 (fb + 1) (<[fb := put32 (f fb) 0 (fb + 1)]> f) ad1) as T2.
  { rewrite <- E1 at 2 3. apply (took_entry f ad1 ni (fb + 1) i0 0); [apply T1|lia|done|done|lia|].
    unfold slot. rewrite E1, (ow_zero _ _ _ _ Howns), get32_zero by lia. by destruct (fb =? 0). }
  unfold mk_bmap. rewrite Eb, addr_din. change (NDIRECT <? NDIRECT) with false. cbn match. replace (lat (ad i0) NDIRECT =? 0) with true by (bool_goal; done).
  apply wp_bind, wp_bind, wp_new_block; [lia|]. apply wp_ret. fold fb. rewrite (din_set NDIRECT fb). change (Z.to_nat NDIRECT) with 12%nat. fold ad1.
  change (addr_at (set_addrs (ad1 i0) din) NDIRECT) with (lat (ad1 i0) 12). rewrite E1.
  apply wp_bind, (wp_rsect _ _ f); [done|unfold FSSIZE; lia|]. rewrite (ow_zero _ _ _ _ Howns fb), get32_zero by lia. cbn match.
  apply wp_bind, wp_new_block; [cbn; lia|]. cbn [freeblock img freeinode]. apply wp_bind, wp_wsect, wp_ret. apply (HQ _ _ (<[fb := put32 (f fb) 0 (fb + 1)]> f) ad1).
  split; [rewrite (ow_zero _ _ _ _ Howns fb) by done; apply (disk_put (Mk _ _ _)); [exact Hdisk|unfold FSSIZE; lia]|done| | |].
  - cbn [freeblock set_img]. fold fb. replace (fb + 1 + 1) with (fb + 2) by lia. apply (more_two _ _ _ _ _ _ _ _ _ _ T1 T2); lia || done.
  - intros bn Hbn. by apply (sd_content _ _ _ _ _ (steady_trans _ _ _ _ _ _ _ (tk_steady _ _ _ _ _ _ _ _ T1) (tk_steady _ _ _ _ _ _ _ _ T2))).
  - by rewrite Eb, (faddr_took _ _ _ _ _ _ _ _ _ T2), decide_True by done.
Qed.

(** The block is in the indirect block that the file has. *)
Lemma wp_mk_entry (Q : inode * Z -> mk -> Prop) : NDIRECT <= off / BSIZE -> lat (ad i0) 12 <> 0 ->
  (forall r s' f' ad', mapped i0 ni off f ad s din r s' f' ad' -> Q r s') -> wp (mk_bmap din (off / BSIZE)) Q s.
Proof.
  intros Ed E0 HQ. pose proof (ow_fb _ _ _ _ Howns) as Hfb. assert (nmeta = 46) as Em by done. assert (MAXFILE = 268) as EM by done. unfold NDIRECT in Ed.
  assert (bslot (off / BSIZE) = 13 + (off / BSIZE - 12)) as Eb by (unfold bslot, NDIRECT; rewrite (proj2 (Z.ltb_ge _ _) Ed); lia).
  assert (faddr f (ad i0) (off / BSIZE) = get32 (f (lat (ad i0) 12)) (4 * (off / BSIZE - 12))) as Ea.
  { unfold faddr, slot. rewrite Eb, (proj2 (Z.ltb_ge (13 + (off / BSIZE - 12)) 13) ltac:(lia)), (proj2 (Z.eqb_neq _ _) E0). do 2 f_equal. lia. }
  pose proof (ow_range _ _ _ _ Howns i0 12 Hi0 ltac:(done) E0) as Hx. change (slot f (ad i0) 12) with (lat (ad i0) 12) in Hx.
  unfold mk_bmap. unfold NDIRECT. rewrite (proj2 (Z.ltb_ge _ _) Ed), !addr_din, (proj2 (Z.eqb_neq _ _) E0). apply wp_bind, wp_ret, wp_bind. rewrite !addr_din.
  assert (nb off <= nb (off + 1)) by (apply nb_mono; lia).
  apply (wp_rsect _ _ f); [done|unfold FSSIZE in *; lia|]. rewrite <- Ea. destruct (Z.eqb_spec (faddr f (ad i0) (off / BSIZE)) 0) as [E|E].
  - assert (off mod BSIZE = 0) as Hm by (by apply faddr_zero). pose proof (room_step Hm) as Hr.
    assert (off / BSIZE <> NDIRECT) as Hnd by (intros E1; apply E0, (fd_indirect _ _ _ Hfilled); unfold NDIRECT, BSIZE in *; dlia).
    rewrite (proj2 (Z.eqb_neq _ _) Hnd) in Hr. apply wp_bind, wp_new_block; [lia|]. apply wp_bind, wp_wsect, wp_ret. rewrite <- din_id at 1. eapply HQ.
    eapply (mapped_took _ ad _ (13 + (off / BSIZE - 12))); [apply took_entry|by rewrite Eb|apply (disk_put (Mk _ _ _))|done..].
    1-6: try done; try lia; change NINDIRECT with 256; try lia.
    1: by rewrite <- Eb. 1: exact Hdisk. unfold FSSIZE. lia.
  - apply wp_ret. eapply HQ, mapped_old. by rewrite <- faddr_zero.
Qed.

Lemma wp_mk_bmap (Q : inode * Z -> mk -> Prop) :
  (forall r s' f' ad', mapped i0 ni off f ad s din r s' f' ad' -> Q r s') -> wp (mk_bmap din (off / BSIZE)) Q s.
Proof.
  destruct (Z.lt_ge_cases (off / BSIZE) NDIRECT); [by apply wp_mk_direct|].
  destruct (Z.eq_dec (lat (ad i0) 12) 0); [by apply wp_mk_first|by apply wp_mk_entry].
Qed.

End Bmap.

(** ** The loop of iappend *)

Lemma more_refl i0 ni f ad fb off : owns f ad ni fb -> filled f (ad i0) off -> more i0 ni f ad fb off f ad fb off.
Proof. intros HO HF. split; done || lia. Qed.

(** A part of a block is written. *)
Lemma more_put i0 ni f ad fb off n d : owns f ad ni fb -> 1 <= i0 < ni -> filled f (ad i0) (off + 1) -> 0 <= off -> off / BSIZE < MAXFILE ->
  0 < n -> off mod BSIZE + n <= BSIZE -> blk_wf d ->
  more i0 ni f ad fb (off + 1) (<[faddr f (ad i0) (off / BSIZE) := d]> f) ad fb (off + n).
Proof.
  intros HO Hi HF H0 Hmax Hn Hb Hd. assert (0 <= off / BSIZE) as Hq by (unfold BSIZE; dlia).
  assert (faddr f (ad i0) (off / BSIZE) <> 0) as Hnz by (rewrite (fd_blocks _ _ _ HF) by lia; unfold BSIZE; dlia).
  destruct (owns_put f ad ni fb i0 (off / BSIZE) d) as (O1 & O2 & O3 & O4); [done|done|lia|done|done|].
  split; [done| | |done| | |done].
  - apply (filled_same f (ad i0) off 1 n) in HF; [|lia..]. destruct HF as [F1 F2]. split; [|done].
    intros bn Hbn. rewrite <- F1 by done. unfold faddr. rewrite O2; [done..|]. by apply bslot_range.
  - rewrite (nb_same off n) by done. lia.
  - intros i j Hi' Hne Hj. by apply O2.
  - intros i bn Hi' Hne Hbn. rewrite O3 by done. by rewrite decide_False by naive_solver.
Qed.

(** What it means for the bytes of the file. *)
Lemma filedata_put f ad ni fb i0 off bs o : owns f ad ni fb -> 1 <= i0 < ni -> 0 <= off -> off / BSIZE < MAXFILE -> faddr f (ad i0) (off / BSIZE) <> 0 ->
  off mod BSIZE + Z.of_nat (length bs) <= BSIZE -> Forall byte_ok bs -> 0 <= o < MAXFILE * BSIZE ->
  filedata (<[faddr f (ad i0) (off / BSIZE) := splice (f (faddr f (ad i0) (off / BSIZE))) (off mod BSIZE) bs]> f) (ad i0) o
  = overlay off bs (filedata f (ad i0)) o.
Proof.
  intros HO Hi H0 Hmax Hnz Hb Hbs Ho. assert (0 <= off / BSIZE) as Hq by (unfold BSIZE; dlia). assert (0 <= o / BSIZE < MAXFILE) as Hoq by (unfold BSIZE in *; dlia).
  assert (blk_wf (f (faddr f (ad i0) (off / BSIZE)))) as [Hl Hok] by apply HO. change (Z.to_nat BSIZE) with 1024%nat in Hl.
  destruct (owns_put f ad ni fb i0 (off / BSIZE) (splice (f (faddr f (ad i0) (off / BSIZE))) (off mod BSIZE) bs)) as (_ & _ & O3 & _); [done|done|lia|done| |].
  { apply splice_wf; [apply HO|done|]. change (Z.to_nat BSIZE) with 1024%nat. unfold BSIZE in *. dlia. }
  unfold filedata. rewrite O3 by done. case_decide as E.
  - destruct E as [_ E]. rewrite get8_splice by (unfold BSIZE in *; dlia). unfold overlay.
    assert (content f (ad i0) (o / BSIZE) = f (faddr f (ad i0) (off / BSIZE))) as -> by (unfold content; by rewrite E, (proj2 (Z.eqb_neq _ _) Hnz)).
    repeat case_decide; try (unfold BSIZE in *; dlia); try done. do 3 f_equal. unfold BSIZE in *. dlia.
  - unfold overlay. rewrite decide_False; [done|]. intros [? ?]. apply E. split; [done|]. unfold BSIZE in *. dlia.
Qed.

(** What the loop leaves after [p] was appended to file [i0] at [off]. *)
Record appended (i0 ni off : Z) (p : list Z) (f : Z -> blk) (ad : Z -> list Z) (s : mk) (s' : mk) (f' : Z -> blk) (ad' : Z -> list Z) : Prop := Appended {
  ap_disk : disk s' f';
  ap_ni : freeinode s' = freeinode s;
  ap_more : more i0 ni f ad (freeblock s) off f' ad' (freeblock s') (off + Z.of_nat (length p));
  ap_data : forall o, 0 <= o < MAXFILE * BSIZE -> filedata f' (ad' i0) o = overlay off p (filedata f (ad i0)) o }.

Lemma overlay_cong off bs g g' o : g o = g' o -> overlay off bs g o = overlay off bs g' o.
Proof. intros E. unfold overlay. by rewrite E. Qed.

Lemma appended_trans i0 ni off p1 p2 f ad s s1 f1 ad1 s2 f2 ad2 : appended i0 ni off p1 f ad s s1 f1 ad1 ->
  appended i0 ni (off + Z.of_nat (length p1)) p2 f1 ad1 s1 s2 f2 ad2 -> appended i0 ni off (p1 ++ p2) f ad s s2 f2 ad2.
Proof.
  intros [A1 A2 A3 A4] [B1 B2 B3 B4]. split; [done|congruence| |].
  - rewrite length_app, Nat2Z.inj_add, Z.add_assoc. by apply (more_trans _ _ _ _ _ _ _ _ _ _ _ _ _ _ A3).
  - intros o Ho. rewrite B4, <- overlay_app by done. by apply overlay_cong, A4.
Qed.

Lemma content_filedata f l f' l' o : (forall bn, 0 <= bn < MAXFILE -> content f' l' bn = content f l bn) -> 0 <= o < MAXFILE * BSIZE ->
  filedata f' l' o = filedata f l o.
Proof. intros H Ho. unfold filedata. rewrite H; [done|]. unfold BSIZE in *. dlia. Qed.

(** One block of it. *)
Lemma appended_step i0 ni off f ad s din r s1 f1 ad1 bs : mapped i0 ni off f ad s din r s1 f1 ad1 -> 1 <= i0 < ni -> 0 <= off -> off / BSIZE < MAXFILE ->
  bs <> [] -> off mod BSIZE + Z.of_nat (length bs) <= BSIZE -> Forall byte_ok bs -> freeblock s1 <= FSSIZE ->
  let x := faddr f1 (ad1 i0) (off / BSIZE) in
  0 <= x < FSSIZE /\
  appended i0 ni off bs f ad s (set_img (<[x := splice (f1 x) (off mod BSIZE) bs]> (img s1)) s1) (<[x := splice (f1 x) (off mod BSIZE) bs]> f1) ad1.
Proof.
  intros [M1 M2 M3 M4 _] Hi H0 Hmax Hne Hb Hbs Hroom x. assert (0 < Z.of_nat (length bs)) as Hl by (destruct bs; [done|cbn; lia]).
  assert (0 <= off / BSIZE < MAXFILE) as Hq by (unfold BSIZE in *; dlia). pose proof (mo_owns _ _ _ _ _ _ _ _ _ _ M3) as HO. pose proof (mo_filled _ _ _ _ _ _ _ _ _ _ M3) as HF.
  assert (x <> 0) as Hnz by (unfold x; rewrite (fd_blocks _ _ _ HF) by lia; unfold BSIZE; dlia).
  assert (blk_wf (splice (f1 x) (off mod BSIZE) bs)) as Hwf.
  { apply splice_wf; [apply HO|done|]. change (Z.to_nat BSIZE) with 1024%nat. unfold BSIZE in *. dlia. }
  pose proof (ow_range _ _ _ _ HO i0 _ Hi (proj1 (bslot_range _ Hq)) Hnz) as Hx. fold (faddr f1 (ad1 i0) (off / BSIZE)) in Hx. fold x in Hx.
  change nmeta with 46 in Hx. split; [lia|]. split.
  - apply disk_put; [done|lia].
  - done.
  - apply (more_trans _ _ _ _ _ _ _ _ _ _ _ _ _ _ M3). by apply more_put.
  - intros o Ho. unfold x. rewrite (filedata_put f1 ad1 ni (freeblock s1)); [|done..]. apply overlay_cong. by apply content_filedata.
Qed.

Section Loop.
  Context (i0 ni : Z).
  Hypothesis Hi0 : 1 <= i0 < ni.
  #[local] Set Default Proof Using "All".

Lemma wp_iappend_loop fuel : forall s f ad din off p (Q : inode * Z -> mk -> Prop),
  disk s f -> owns f ad ni (freeblock s) -> addrs din = ad i0 -> filled f (ad i0) off ->
  0 <= off -> off + Z.of_nat (length p) <= MAXFILE * BSIZE -> freeblock s + nb (off + Z.of_nat (length p)) - nb off <= FSSIZE ->
  (p <> [] -> off mod BSIZE + Z.of_nat (length p) <= Z.of_nat fuel * BSIZE) -> Forall byte_ok p ->
  (forall s' f' ad', appended i0 ni off p f ad s s' f' ad' -> Q (set_addrs (ad' i0) din, off + Z.of_nat (length p)) s') ->
  wp (iappend_loop fuel din off p) Q s.
Proof.
  induction fuel as [|fuel IH]; intros s f ad din off p Q Hd HO Hdin HF H0 Hmax Hroom Hfuel Hp HQ.
  all: destruct (decide (p = [])) as [->|Hne].
  1,3: apply wp_ret; cbn [length]; rewrite <- (Z.add_0_r off), <- (din_id i0 ad din Hdin); apply (HQ s f ad); split; [done|done| |];
    [rewrite Z.add_0_r; by apply more_refl|intros o Ho; unfold overlay; by rewrite decide_False by (cbn; lia)].
  all: assert (0 < Z.of_nat (length p)) as Hl by (destruct p; [done|cbn; lia]).
  all: specialize (Hfuel Hne).
  { unfold BSIZE in Hfuel. exfalso. dlia. }
  cbn [iappend_loop]. rewrite (proj2 (Z.ltb_lt _ _) Hl). assert (off / BSIZE < MAXFILE) as Hq by (unfold BSIZE in *; dlia).
  rewrite (proj2 (Z.ltb_lt _ _) Hq). cbn [negb]. destruct (chunk_spec off (Z.of_nat (length p)) Hl H0) as (Hc1 & Hc2 & Hc3 & _).
  replace (Z.min _ _) with (chunk off (Z.of_nat (length p))) by (unfold chunk, BSIZE; dlia). set (n := chunk off (Z.of_nat (length p))) in *.
  assert (Z.of_nat (length (take (Z.to_nat n) p)) = n) as Hn by (rewrite length_take; lia).
  assert (nb (off + 1) <= nb (off + Z.of_nat (length p))) by (apply nb_mono; lia).
  apply wp_bind. apply (wp_mk_bmap i0 ni off f ad s din); [done..|lia|]. intros r s1 f1 ad1 M.
  pose proof (mo_fb _ _ _ _ _ _ _ _ _ _ (mp_more _ _ _ _ _ _ _ _ _ _ _ M)) as Hb1.
  destruct (appended_step _ _ _ _ _ _ _ _ _ _ _ (take (Z.to_nat n) p) M) as [Hx HA]; [done|done|done| |lia|by apply Forall_take|lia|].
  { intros E. rewrite E in Hn. cbn in Hn. lia. }
  rewrite (mp_ret _ _ _ _ _ _ _ _ _ _ _ M). set (x := faddr f1 (ad1 i0) (off / BSIZE)) in *.
  apply wp_bind. apply (wp_rsect x s1 f1); [apply M|done|]. apply wp_bind, wp_wsect.
  replace (off - off / BSIZE * BSIZE) with (off mod BSIZE) by (unfold BSIZE; dlia). rewrite wrap32_small by (unfold MAXFILE, NDIRECT, NINDIRECT, BSIZE in *; dlia).
  pose proof (ap_more _ _ _ _ _ _ _ _ _ _ HA) as HM. rewrite Hn in HM. pose proof (mo_fb _ _ _ _ _ _ _ _ _ _ HM) as Hb2. cbn [freeblock set_img] in Hb2.
  eapply (IH _ _ ad1 (set_addrs (ad1 i0) din)); [apply HA|apply HM|done|apply HM|lia| | | |by apply Forall_drop|].
  - rewrite length_drop. lia.
  - rewrite length_drop. cbn [freeblock set_img]. replace (off + n + Z.of_nat (length p - Z.to_nat n)) with (off + Z.of_nat (length p)) by lia. lia.
  - intros Hne'. rewrite length_drop. replace (Z.of_nat (length p - Z.to_nat n)) with (Z.of_nat (length p) - n) by lia.
    destruct (fuel_step off (Z.of_nat (length p)) fuel Hl H0 Hfuel) as [E|E]; [|exact E]. fold n in E. destruct Hne'. apply nil_length_inv. rewrite length_drop. lia.
  - intros s' f' ad' HA'. pose proof (appended_trans _ _ _ _ (drop (Z.to_nat n) p) _ _ _ _ _ _ s' f' ad' HA) as HT. rewrite Hn in HT. specialize (HT HA'). rewrite take_drop in HT.
    rewrite length_drop. replace (off + n + Z.of_nat (length p - Z.to_nat n)) with (off + Z.of_nat (length p)) by lia. apply (HQ _ _ _ HT).
Qed.

End Loop.
