(* ===== verification/MkfsTheorems.v ===== *)
(** * The image that mkfs writes

    [image s f files]: the image holds the files in inodes [1], [2], ..., each
    with its blocks, and nothing else.  [mk_ialloc] adds an empty file,
    [iappend] appends to one; [mkfs_correct] says what [main] leaves: a file
    system in the sense of the kernel's [fs_ok] and [file_ok]. *)

From S2P Require Import Prelude Spinlock Sleeplock Block BlockCache Log Tx CopyIO Fs FsBlock FsFile FsRead FsInode FsWrite FsDir Mkfs MkfsProof.

(** ** Inodes of the image *)

Definition ino (f : Z -> blk) (i : Z) : inode := dinode_at mk_sb f i empty_inode.

Lemma mk_layout : layout mk_sb 2.
Proof. repeat split; vm_compute; done. Qed.
Lemma mk_iblock i : 0 <= i < NINODES -> 32 <= IBLOCK i mk_sb < 45.
Proof. intros Hi. by destruct (IBLOCK_range mk_sb 2 i mk_layout Hi). Qed.

(** Inode [i] is a file of type [t] with the bytes [data]. *)
Record holds (f : Z -> blk) (i t : Z) (data : list Z) : Prop := Holds {
  ho_type : itype (ino f i) = t;
  ho_dev : imajor (ino f i) = 0 /\ iminor (ino f i) = 0;
  ho_nlink : nlink (ino f i) = 1;
  ho_size : isize (ino f i) = Z.of_nat (length data);
  ho_max : Z.of_nat (length data) <= MAXFILE * BSIZE;
  ho_filled : filled f (addrs (ino f i)) (Z.of_nat (length data));
  ho_data : forall o, 0 <= o < MAXFILE * BSIZE -> filedata f (addrs (ino f i)) o = default 0 (data !! Z.to_nat o) }.

Definition nblocks_of (files : list (Z * list Z)) : Z := foldr (fun x n => nb (Z.of_nat (length x.2)) + n) 0 files.

Record image (s : mk) (f : Z -> blk) (files : list (Z * list Z)) : Prop := Image {
  im_disk : disk s f;
  im_ni : freeinode s = 1 + Z.of_nat (length files);
  im_max : freeinode s <= NINODES;
  im_fb : freeblock s = nmeta + nblocks_of files;
  im_owns : owns f (fun i => addrs (ino f i)) (freeinode s) (freeblock s);
  im_files : forall k t d, files !! k = Some (t, d) -> holds f (1 + Z.of_nat k) t d;
  im_types : Forall (fun x => -2^15 <= x.1 < 2^15) files;
  im_free : forall i, freeinode s <= i < NINODES -> itype (ino f i) = 0;
  im_sb : f 1 = store_superblock mk_sb zero_blk;
  im_zero : forall b, 2 <= b < 32 \/ b = 45 -> f b = zero_blk }.

(** ** Writing inodes *)

Lemma ino_meta f f' i : (forall b, b < nmeta -> f' b = f b) -> 0 <= i < NINODES -> ino f' i = ino f i.
Proof. intros H Hi. unfold ino, dinode_at. rewrite H; [done|]. pose proof (mk_iblock i Hi). change nmeta with 46. lia. Qed.

(** Blocks in front of the data do not matter to files. *)
Lemma slot_data f f' ad ni fb i j : owns f ad ni fb -> (forall b, nmeta <= b -> f' b = f b) -> 1 <= i < ni -> 0 <= j < NSLOT ->
  slot f' (ad i) j = slot f (ad i) j.
Proof.
  intros HO H Hi Hj. unfold slot. destruct (j <? 13); [done|]. destruct (Z.eqb_spec (lat (ad i) 12) 0) as [|E]; [done|].
  rewrite H; [done|]. apply (ow_range _ _ _ _ HO i 12 Hi ltac:(done) E).
Qed.
Lemma content_data f f' ad ni fb i bn : owns f ad ni fb -> (forall b, nmeta <= b -> f' b = f b) -> 1 <= i < ni -> 0 <= bn < MAXFILE ->
  content f' (ad i) bn = content f (ad i) bn.
Proof.
  intros HO H Hi Hbn. destruct (bslot_range bn Hbn) as [Hb _]. unfold content, faddr. rewrite (slot_data f f' ad ni fb) by done.
  destruct (Z.eqb_spec (slot f (ad i) (bslot bn)) 0) as [|E]; [done|]. apply H. by apply (ow_range _ _ _ _ HO i (bslot bn)).
Qed.
Lemma owns_data f f' ad ad' ni fb : owns f ad ni fb -> (forall b, nmeta <= b -> f' b = f b) -> (forall b, blk_wf (f' b)) ->
  (forall i, 1 <= i < ni -> ad' i = ad i) -> owns f' ad' ni fb.
Proof.
  intros HO H Hwf Had. pose proof (slot_data f f' ad ni fb) as Hs. destruct HO as [A B C D E F]. split; [done| |done| | |].
  - intros i Hi. rewrite Had by done. by apply B.
  - intros i j Hi Hj. rewrite Had, Hs by done. by apply D.
  - intros i j i' j' Hi Hj Hi' Hj'. rewrite !Had, !Hs by done. by apply E.
  - intros b Hb. rewrite H; [by apply F|lia].
Qed.
Lemma filled_ext f l f' l' size : (forall j, 0 <= j < NSLOT -> slot f' l' j = slot f l j) -> filled f l size -> filled f' l' size.
Proof.
  intros H [A B]. split.
  - intros bn Hbn. rewrite <- A by done. unfold faddr. rewrite H; [done|]. by apply bslot_range.
  - rewrite <- B. pose proof (H 12 ltac:(done)) as E. change (lat l' 12 = lat l 12) in E. by rewrite E.
Qed.

(** Another file is what it was. *)
Lemma holds_ext f f' i t d : ino f' i = ino f i -> (forall j, 0 <= j < NSLOT -> slot f' (addrs (ino f i)) j = slot f (addrs (ino f i)) j) ->
  (forall bn, 0 <= bn < MAXFILE -> content f' (addrs (ino f i)) bn = content f (addrs (ino f i)) bn) -> holds f i t d -> holds f' i t d.
Proof.
  intros E Hs Hc [A B C D F G H]. split; rewrite ?E; try done.
  - by apply (filled_ext f (addrs (ino f i))).
  - intros o Ho. rewrite <- H by done. by apply content_filedata.
Qed.

Definition iput_at (f : Z -> blk) (i : Z) (p : inode) : Z -> blk :=
  <[IBLOCK i mk_sb := store_dinode p (f (IBLOCK i mk_sb)) (ioff i)]> f.

Lemma ino_iput f i p n : (forall b, blk_wf (f b)) -> inode_wf p -> 0 <= i < NINODES -> 0 <= n < NINODES ->
  ino (iput_at f i p) n = if decide (n = i) then copy_disk p empty_inode else ino f n.
Proof. intros Hwf Hp Hi Hn. by apply (dinode_put mk_sb 2); [apply mk_layout|apply Hwf|..]. Qed.
Lemma iput_other f i p b : 0 <= i < NINODES -> b < 32 \/ 45 <= b -> iput_at f i p b = f b.
Proof. intros Hi Hb. pose proof (mk_iblock i Hi). unfold iput_at. apply fn_lookup_insert_ne. lia. Qed.
Lemma iput_wf f i p : (forall b, blk_wf (f b)) -> forall b, blk_wf (iput_at f i p b).
Proof.
  intros Hwf b. unfold iput_at. destruct (decide (b = IBLOCK i mk_sb)) as [->|]; [rewrite fn_lookup_insert; by apply store_dinode_wf|by rewrite fn_lookup_insert_ne].
Qed.

Lemma wp_winode i p s f (Q : unit -> mk -> Prop) : disk s f -> 0 <= i < NINODES ->
  (forall s', disk s' (iput_at f i p) -> freeinode s' = freeinode s -> freeblock s' = freeblock s -> Q tt s') -> wp (winode i p) Q s.
Proof.
  intros Hd Hi HQ. pose proof (mk_iblock i Hi). unfold winode. apply wp_bind, (wp_rsect _ s f); [done|unfold FSSIZE; lia|].
  apply wp_wsect, HQ; [|done..]. apply disk_put; [done|unfold FSSIZE; lia].
Qed.
Lemma wp_rinode i s f (Q : inode -> mk -> Prop) : disk s f -> 0 <= i < NINODES -> Q (ino f i) s -> wp (rinode i) Q s.
Proof.
  intros Hd Hi HQ. pose proof (mk_iblock i Hi). unfold rinode. apply wp_bind, (wp_rsect _ s f); [done|unfold FSSIZE; lia|]. by apply wp_ret.
Qed.

Lemma owns_addrs f ad ni fb i : owns f ad ni fb -> 1 <= i < ni -> length (ad i) = 13%nat /\ Forall (fun x => 0 <= x < 2^32) (ad i).
Proof.
  intros HO Hi. pose proof (ow_len _ _ _ _ HO i Hi) as Hl. split; [done|]. apply Forall_lookup. intros j x Hj.
  pose proof (lookup_lt_Some _ _ _ Hj). pose proof (ow_fb _ _ _ _ HO). change nmeta with 46 in *. destruct (decide (x = 0)) as [->|Hx]; [lia|].
  assert (slot f (ad i) (Z.of_nat j) = x) as E.
  { unfold slot. rewrite (proj2 (Z.ltb_lt _ _)) by lia. unfold lat. by rewrite Nat2Z.id, Hj. }
  pose proof (ow_range _ _ _ _ HO i (Z.of_nat j) Hi) as Hr. rewrite E in Hr. change nmeta with 46 in Hr. change NSLOT with 269 in Hr. lia.
Qed.

(** The addresses of the inodes after one was written. *)
Lemma owns_iput f ad ni fb i p : owns f ad ni fb -> ni <= NINODES -> 1 <= i < ni -> inode_wf p -> addrs p = ad i ->
  (forall n, 1 <= n < ni -> n <> i -> addrs (ino f n) = ad n) ->
  owns (iput_at f i p) (fun n => addrs (ino (iput_at f i p) n)) ni fb.
Proof.
  intros HO Hmax Hi Hp Hpa Had. apply (owns_data f _ ad); [done| |apply iput_wf, HO|].
  - intros b Hb. change nmeta with 46 in Hb. apply iput_other; lia.
  - intros n Hn. rewrite ino_iput by (apply HO || done || lia). case_decide as E; [by subst|by apply Had].
Qed.

Lemma nblocks_insert files k t d d' : files !! k = Some (t, d) ->
  nblocks_of (<[k := (t, d')]> files) = nblocks_of files + nb (Z.of_nat (length d')) - nb (Z.of_nat (length d)).
Proof.
  unfold nblocks_of. revert k. induction files as [|[t0 d0] files IH]; intros [|k] Hk; [done|done|injection Hk as -> ->; cbn; lia|].
  change (<[S k := (t, d')]> ((t0, d0) :: files)) with ((t0, d0) :: <[k := (t, d')]> files). cbn [foldr]. rewrite (IH k Hk). lia.
Qed.
Lemma nblocks_app files files' : nblocks_of (files ++ files') = nblocks_of files + nblocks_of files'.
Proof. unfold nblocks_of. induction files as [|x files IH]; cbn; [done|]. rewrite IH. lia. Qed.

(** The inode [i] after [p] was appended to its data. *)
Lemma holds_append f ad s s' f' ad' i ni t d p : holds f i t d -> ad i = addrs (ino f i) -> ni <= NINODES -> 1 <= i < ni ->
  appended i ni (Z.of_nat (length d)) p f ad s s' f' ad' -> Z.of_nat (length (d ++ p)) <= MAXFILE * BSIZE -> -2^15 <= t < 2^15 ->
  let q := set_isize (Z.of_nat (length (d ++ p))) (set_addrs (ad' i) (ino f i)) in
  inode_wf q /\ holds (iput_at f' i q) i t (d ++ p).
Proof.
  intros [A1 [A2 A2'] A3 A4 A5 A6 A7] Had Hni Hi [P1 P2 P3 P4] Hmax Ht q. pose proof (mo_owns _ _ _ _ _ _ _ _ _ _ P3) as HO.
  change (MAXFILE * BSIZE) with 274432 in *.
  assert (inode_wf q) as Hq by (split; unfold q; cbn [set_isize set_addrs itype imajor iminor nlink isize addrs]; rewrite ?A1, ?A2, ?A2', ?A3; try lia; by apply (owns_addrs _ _ _ _ _ HO)).
  split; [done|]. assert (ino (iput_at f' i q) i = copy_disk q empty_inode) as E by (rewrite ino_iput, decide_True by (apply HO || done || lia); done).
  assert (forall b, nmeta <= b -> iput_at f' i q b = f' b) as Hb by (intros b Hb; change nmeta with 46 in Hb; apply iput_other; lia).
  split; rewrite ?E; cbn [copy_disk q set_isize set_addrs itype imajor iminor nlink isize addrs]; try done.
  - apply (filled_ext f' (ad' i)); [intros j Hj; by apply (slot_data f' _ ad' ni (freeblock s'))|].
    rewrite length_app, Nat2Z.inj_add. apply P3.
  - intros o Ho. rewrite (content_filedata f' (ad' i)) by (try done; intros; by apply (content_data f' _ ad' ni (freeblock s'))).
    rewrite P4 by done. unfold overlay. rewrite Had. case_decide as Ec.
    + rewrite lookup_app_r by lia. do 2 f_equal. lia.
    + rewrite A7 by done. destruct (decide (o < Z.of_nat (length d))); [by rewrite lookup_app_l by lia|]. rewrite !lookup_ge_None_2; [done|rewrite length_app; lia|lia].
Qed.

(** ** iappend and ialloc on the image *)

Lemma wp_iappend s f files k t d p (Q : unit -> mk -> Prop) : image s f files -> files !! k = Some (t, d) -> Forall byte_ok p ->
  Z.of_nat (length (d ++ p)) <= MAXFILE * BSIZE -> freeblock s + nb (Z.of_nat (length (d ++ p))) - nb (Z.of_nat (length d)) <= FSSIZE ->
  (forall s' f', image s' f' (<[k := (t, d ++ p)]> files) -> Q tt s') -> wp (iappend (1 + Z.of_nat k) p) Q s.
Proof.
  intros [I1 I2 I3 I4 I5 I6 I7 I8 I9 I10] Hk Hp Hmax Hroom HQ. pose proof (lookup_lt_Some _ _ _ Hk) as Hlt. pose proof (I6 _ _ _ Hk) as Hh.
  assert (-2^15 <= t < 2^15) as Ht by exact (proj1 (Forall_lookup _ _) I7 k _ Hk).
  set (i := 1 + Z.of_nat k) in *. assert (1 <= i < freeinode s) as Hi by lia. unfold iappend. apply wp_bind, (wp_rinode i s f); [done|lia|].
  rewrite length_app, Nat2Z.inj_add in Hroom. assert (Z.of_nat (length d) + Z.of_nat (length p) <= MAXFILE * BSIZE) as Hmax' by (rewrite length_app in Hmax; lia).
  rewrite (ho_size _ _ _ _ Hh). apply wp_bind. apply (wp_iappend_loop i (freeinode s) Hi _ s f (fun n => addrs (ino f n))); [done|done|done|apply Hh|lia|done|lia| |done|].
  { intros _. apply rw_fuel_enough. lia. }
  intros s' f' ad' HA. destruct (holds_append f (fun n => addrs (ino f n)) s s' f' ad' i (freeinode s) t d p Hh) as [Hq Hh']; [done|lia|done|done|done|done|].
  destruct HA as [P1 P2 P3 P4]. rewrite length_app, Nat2Z.inj_add in Hq, Hh'.
  set (q := set_isize _ _) in *. pose proof (mo_owns _ _ _ _ _ _ _ _ _ _ P3) as HO. pose proof (mo_meta _ _ _ _ _ _ _ _ _ _ P3) as Hm.
  assert (forall n, 0 <= n < NINODES -> ino f' n = ino f n) as Ei by (intros n Hn; by apply ino_meta).
  assert (forall n, 0 <= n < NINODES -> n <> i -> ino (iput_at f' i q) n = ino f n) as En.
  { intros n Hn Hne. rewrite ino_iput, decide_False by (apply HO || done || lia). by apply Ei. }
  apply (wp_winode i q s' f'); [done|lia|]. intros s2 Hd2 Hn2 Hb2. apply (HQ s2 (iput_at f' i q)). split.
  - done.
  - rewrite length_insert. lia.
  - lia.
  - rewrite Hb2, (mo_fb _ _ _ _ _ _ _ _ _ _ P3), (nblocks_insert files k t d) by done. rewrite length_app, Nat2Z.inj_add. lia.
  - rewrite Hn2, Hb2, P2. apply (owns_iput f' ad'); [done|done|done|done|done|]. intros n Hn Hne. rewrite Ei by lia. symmetry. by apply (mo_ad _ _ _ _ _ _ _ _ _ _ P3).
  - intros k' t' d' Hk'. destruct (decide (k' = k)) as [->|Hne].
    + rewrite list_lookup_insert_eq in Hk' by done. by injection Hk' as <- <-.
    + rewrite list_lookup_insert_ne in Hk' by done. pose proof (lookup_lt_Some _ _ _ Hk'). assert (1 + Z.of_nat k' <> i) by lia.
      assert (ad' (1 + Z.of_nat k') = addrs (ino f (1 + Z.of_nat k'))) as Ea by (by apply (mo_ad _ _ _ _ _ _ _ _ _ _ P3)).
      assert (forall b, nmeta <= b -> iput_at f' i q b = f' b) as Hb by (intros b Hb; change nmeta with 46 in Hb; apply iput_other; lia).
      apply (holds_ext f); [apply En; lia| | |by apply I6]; rewrite <- Ea; intros; [rewrite (slot_data f' _ ad' (freeinode s) (freeblock s'))|rewrite (content_data f' _ ad' (freeinode s) (freeblock s'))]; try done; try lia; rewrite Ea.
      * apply (mo_slot _ _ _ _ _ _ _ _ _ _ P3); done || lia.
      * apply (mo_content _ _ _ _ _ _ _ _ _ _ P3); done || lia.
  - by apply Forall_insert.
  - intros n Hn. rewrite Hn2, P2 in Hn. rewrite En by lia. by apply I8.
  - rewrite iput_other by lia. rewrite Hm; done.
  - intros b Hb. rewrite iput_other by lia. rewrite Hm; [by apply I10|]. change nmeta with 46. lia.
Qed.

(** The slots of a file without blocks. *)
Lemma slot_empty f l j : l = replicate 13 0 -> 0 <= j -> slot f l j = 0.
Proof.
  intros -> Hj. unfold slot. change (lat (replicate 13 0) 12) with 0. destruct (j <? 13) eqn:E; [|done]. b2p. unfold lat.
  by rewrite lookup_replicate_2 by lia.
Qed.

Lemma owns_fresh f ad i fb : owns f ad i fb -> ad i = replicate 13 0 -> owns f ad (i + 1) fb.
Proof.
  intros [A B C D E F] Ei. assert (forall j, 0 <= j < NSLOT -> slot f (ad i) j = 0) as Hs by (intros; apply slot_empty; done || lia).
  split; [done| |done| | |done].
  - intros n Hn. destruct (decide (n = i)) as [->|]; [by rewrite Ei|apply B; lia].
  - intros n j Hn Hj. destruct (decide (n = i)) as [->|]; [by rewrite Hs|apply D; lia].
  - intros n j n' j' Hn Hj Hn' Hj' Hnz Heq. destruct (decide (n = i)) as [->|]; [by rewrite Hs in Hnz|].
    destruct (decide (n' = i)) as [->|]; [rewrite Heq, Hs in Hnz by done; done|]. apply E; done || lia.
Qed.
Lemma holds_empty f i t : ino f i = set_nlink 1 (set_itype t empty_inode) -> holds f i t [].
Proof.
  intros E. assert (addrs (ino f i) = replicate 13 0) as Ea by (by rewrite E). split; rewrite ?Ea, ?E; try done.
  - split; [intros bn Hbn|split; [done|by intros]]. unfold faddr. rewrite slot_empty; [|done|by apply bslot_range]. cbn. unfold BSIZE. lia.
  - intros o Ho. unfold filedata, content, faddr. rewrite slot_empty; [|done|apply bslot_range; unfold BSIZE in *; dlia]. cbn. apply get8_zero.
Qed.

Lemma wp_mk_ialloc s f files t (Q : Z -> mk -> Prop) : image s f files -> freeinode s < NINODES -> -2^15 <= t < 2^15 ->
  (forall s' f', image s' f' (files ++ [(t, [])]) -> Q (1 + Z.of_nat (length files)) s') -> wp (mk_ialloc t) Q s.
Proof.
  intros [I1 I2 I3 I4 I5 I6 I7 I8 I9 I10] Hlt Ht HQ. unfold mk_ialloc. apply wp_bind. unfold wp at 1, new_inode. change NINODES with 200 in *.
  rewrite wrap32_small by lia. set (i := freeinode s) in *. set (q := set_nlink 1 (set_itype t empty_inode)).
  assert (inode_wf q) as Hq. { split; cbn; try lia. split; [done|]. by repeat constructor. }
  assert (forall n, 0 <= n < NINODES -> ino (iput_at f i q) n = if decide (n = i) then q else ino f n) as En.
  { intros n Hn. apply ino_iput; [apply I5|done|change NINODES with 200; lia|done]. }
  change NINODES with 200 in En.
  assert (forall b, nmeta <= b -> iput_at f i q b = f b) as Hb.
  { intros b Hb. change nmeta with 46 in Hb. apply iput_other; change NINODES with 200; lia. }
  apply wp_bind, (wp_winode i q _ f); [done|change NINODES with 200; lia|]. intros s2 Hd2 Hn2 Hb2. cbn in Hn2, Hb2. apply wp_ret. rewrite I2. apply (HQ s2 (iput_at f i q)).
  assert (owns (iput_at f i q) (fun n => addrs (ino (iput_at f i q) n)) i (freeblock s)) as HO.
  { apply (owns_data f _ (fun n => addrs (ino f n))); [done|done|apply iput_wf, I5|]. intros n Hn. by rewrite En, decide_False by lia. }
  split; [done|rewrite length_app; cbn [length]; lia|change NINODES with 200; lia|rewrite Hb2, nblocks_app, I4; change (nblocks_of [(t, [])]) with 0; lia| | | | | |].
  - rewrite Hn2, Hb2. apply owns_fresh; [done|]. by rewrite En, decide_True by lia.
  - intros k t' d' Hk. apply lookup_snoc_Some in Hk as [[Hk1 Hk]|[-> [= <- <-]]].
    + apply (holds_ext f); [by rewrite En, decide_False by lia| | |by apply I6]; intros.
      * apply (slot_data f _ (fun n => addrs (ino f n)) i (freeblock s)); done || lia.
      * apply (content_data f _ (fun n => addrs (ino f n)) i (freeblock s)); done || lia.
    + replace (1 + Z.of_nat (length files)) with i by lia. apply holds_empty. by rewrite En, decide_True by lia.
  - apply Forall_app. split; [done|]. by constructor.
  - intros n Hn. change NINODES with 200 in Hn. rewrite En, decide_False by lia. apply I8; change NINODES with 200; lia.
  - by rewrite iput_other by (change NINODES with 200; lia).
  - intros b Hbb. rewrite iput_other by (change NINODES with 200; lia). by apply I10.
Qed.

(** ** main *)

Definition file_data (file : mkfile) : list Z := concat file.2.
Definition root_entries (n : Z) (files : list mkfile) : list Z :=
  concat (imap (fun k file => mk_dirent (short_name file.1) (n + Z.of_nat k)) files).

(** A file that mkfs takes. *)
Record mk_good (file : mkfile) : Prop := MkGood {
  mg_name : SLASH ∉ strip_user file.1;
  mg_path : Forall byte_ok file.1;
  mg_data : Forall byte_ok (file_data file);
  mg_size : Z.of_nat (length (file_data file)) <= MAXFILE * BSIZE }.

Lemma short_name_ok path : Forall byte_ok path -> Forall byte_ok (short_name path).
Proof.
  intros H. assert (Forall byte_ok (strip_user path)) as Hs.
  { unfold strip_user. repeat (case_match; try done). subst. by do 5 apply Forall_inv_tail in H. }
  unfold short_name. repeat (case_match; try done). subst. by apply Forall_inv_tail in Hs.
Qed.

Lemma nblocks_cons t d files : nblocks_of ((t, d) :: files) = nb (Z.of_nat (length d)) + nblocks_of files.
Proof. done. Qed.
Lemma nblocks_nil : nblocks_of [] = 0.
Proof. done. Qed.
Lemma nb_pos n : 0 <= n -> 0 <= nb n.
Proof. intros Hn. change 0 with (nb 0). by apply nb_mono. Qed.
Lemma nblocks_pos files : 0 <= nblocks_of files.
Proof. induction files as [|[t d] files IH]; [done|]. rewrite nblocks_cons. pose proof (nb_pos (Z.of_nat (length d))). lia. Qed.
Lemma nb_app (l l' : list Z) : nb (Z.of_nat (length l)) <= nb (Z.of_nat (length (l ++ l'))).
Proof. apply nb_mono. rewrite length_app. lia. Qed.
#[local] Ltac blocks H := rewrite ?nblocks_app, ?nblocks_cons, ?nblocks_app, ?nblocks_cons, ?nblocks_nil in H.

(** The loop over what [read] delivers. *)
Lemma wp_chunks chunks : forall s f i pre t d (Q : unit -> mk -> Prop), i = 1 + Z.of_nat (length pre) -> image s f (pre ++ [(t, d)]) -> Forall byte_ok (concat chunks) ->
  Z.of_nat (length (d ++ concat chunks)) <= MAXFILE * BSIZE -> nmeta + nblocks_of (pre ++ [(t, d ++ concat chunks)]) <= FSSIZE ->
  (forall s' f', image s' f' (pre ++ [(t, d ++ concat chunks)]) -> Q tt s') ->
  wp (for_each chunks (fun buf => iappend i buf)) Q s.
Proof.
  induction chunks as [|p chunks IH]; intros s f i pre t d Q -> HI Hok Hmax Hroom HQ.
  - apply wp_ret. apply (HQ s f). by rewrite app_nil_r.
  - cbn [concat for_each] in *. apply Forall_app in Hok as [Hp Hok]. rewrite app_assoc in *.
    pose proof (im_fb _ _ _ HI) as Hb. pose proof Hroom as Hr. blocks Hb. blocks Hr. pose proof (nb_app (d ++ p) (concat chunks)).
    apply wp_bind. apply (wp_iappend s f (pre ++ [(t, d)]) (length pre) t d p); [done|by apply list_lookup_middle|done|rewrite (length_app (d ++ p)) in Hmax; lia|lia|].
    intros s' f' HI'. rewrite insert_app_r_alt, Nat.sub_diag in HI' by done. by apply (IH s' f' _ pre t (d ++ p)).
Qed.

Lemma wp_mk_add file rd fs s f (Q : unit -> mk -> Prop) : image s f ((T_DIR, rd) :: fs) -> mk_good file ->
  freeinode s < NINODES -> Z.of_nat (length rd) + 16 <= MAXFILE * BSIZE ->
  let files := (T_DIR, rd ++ mk_dirent (short_name file.1) (2 + Z.of_nat (length fs))) :: fs ++ [(T_FILE, file_data file)] in
  nmeta + nblocks_of files <= FSSIZE -> (forall s' f', image s' f' files -> Q tt s') -> wp (mk_add ROOTINO file) Q s.
Proof.
  destruct file as [path chunks]. intros HI [G1 G2 G3 G4] Hmax Hrd files Hroom HQ. unfold files, file_data in *. cbn [fst snd] in *.
  unfold mk_add. rewrite bool_decide_eq_false_2 by done. apply wp_bind. eapply (wp_mk_ialloc s f _ T_FILE); [exact HI|done|done|]. intros s1 f1 HI1.
  replace (1 + Z.of_nat (length ((T_DIR, rd) :: fs))) with (2 + Z.of_nat (length fs)) by (cbn [length]; lia). set (i := 2 + Z.of_nat (length fs)) in *.
  pose proof (im_fb _ _ _ HI1) as Hb. pose proof Hroom as Hr. blocks Hb. blocks Hr. pose proof (nb_pos (Z.of_nat (length (concat chunks)))). change (nb (Z.of_nat (length []))) with 0 in Hb.
  apply wp_bind. eapply (wp_iappend s1 f1 _ 0 T_DIR rd); [exact HI1|done|apply mk_dirent_ok; by apply short_name_ok|rewrite length_app, length_mk_dirent; lia|lia|].
  intros s2 f2 HI2. by apply (wp_chunks chunks s2 f2 i ((T_DIR, rd ++ mk_dirent (short_name path) i) :: fs) T_FILE []); [unfold i; cbn [length]; lia|..].
Qed.

(** The loop over the files. *)
Lemma wp_mk_files files : forall s f rd fs (Q : unit -> mk -> Prop), image s f ((T_DIR, rd) :: fs) -> Forall mk_good files ->
  freeinode s + Z.of_nat (length files) <= NINODES -> Z.of_nat (length rd) + 16 * Z.of_nat (length files) <= MAXFILE * BSIZE ->
  let all := (T_DIR, rd ++ root_entries (2 + Z.of_nat (length fs)) files) :: fs ++ map (fun x => (T_FILE, file_data x)) files in
  nmeta + nblocks_of all <= FSSIZE -> (forall s' f', image s' f' all -> Q tt s') -> wp (for_each files (mk_add ROOTINO)) Q s.
Proof.
  induction files as [|file files IH]; intros s f rd fs Q HI Hg Hn Hrd all Hroom HQ; unfold all in *.
  - apply wp_ret. apply (HQ s f). unfold root_entries. cbn. by rewrite !app_nil_r.
  - apply Forall_cons in Hg as [Hg1 Hg]. cbn [for_each length map] in *. set (dir := mk_dirent (short_name file.1) (2 + Z.of_nat (length fs))).
    assert (root_entries (2 + Z.of_nat (length fs)) (file :: files) = dir ++ root_entries (2 + Z.of_nat (length (fs ++ [(T_FILE, file_data file)]))) files) as Er.
    { unfold root_entries. cbn [imap concat]. rewrite Z.add_0_r. f_equal. f_equal. apply imap_ext. intros k x _. cbn. f_equal. rewrite length_app. cbn. lia. }
    assert (fs ++ (T_FILE, file_data file) :: map (fun x => (T_FILE, file_data x)) files = (fs ++ [(T_FILE, file_data file)]) ++ map (fun x => (T_FILE, file_data x)) files) as Ef
      by (by rewrite <- app_assoc).
    rewrite Er, Ef, app_assoc in Hroom, HQ. pose proof Hroom as Hr. blocks Hr.
    pose proof (nblocks_pos (map (fun x => (T_FILE, file_data x)) files)). pose proof (nb_app (rd ++ dir) (root_entries (2 + Z.of_nat (length (fs ++ [(T_FILE, file_data file)]))) files)).
    apply wp_bind. apply (wp_mk_add file rd fs s f); [done|done|lia|lia|fold dir; rewrite nblocks_cons, nblocks_app, nblocks_cons; rewrite nblocks_nil; lia|]. intros s1 f1 HI1.
    pose proof (im_ni _ _ _ HI) as N0. pose proof (im_ni _ _ _ HI1) as N1. cbn [length] in N0, N1. rewrite length_app in N1. cbn [length] in N1.
    apply (IH s1 f1 _ _ Q HI1 Hg); [lia|rewrite length_app; unfold dir; rewrite length_mk_dirent; lia|done|done].
Qed.

(** The image of zeros with a superblock. *)
Lemma wp_blank s (Q : unit -> mk -> Prop) : img s = ∅ ->
  (forall s', disk s' (fun _ => zero_blk) -> freeinode s' = freeinode s -> freeblock s' = freeblock s -> Q tt s') ->
  wp (for_each (seqZ 0 FSSIZE) (fun i => wsect i zero_blk)) Q s.
Proof.
  intros Hs HQ. eapply wp_conseq.
  - apply (wp_for_each _ (fun l s' => exists n, 0 <= n <= FSSIZE /\ l = seqZ n (FSSIZE - n) /\ freeinode s' = freeinode s /\ freeblock s' = freeblock s /\
      forall b, img s' !! b = if decide (0 <= b < n) then Some zero_blk else None)).
    + intros x l s' (n & Hn & El & E1 & E2 & Hd). apply wp_wsect.
      destruct (decide (n = FSSIZE)) as [->|Hne]; [by rewrite Z.sub_diag in El|]. rewrite seqZ_cons in El by lia. injection El as -> ->.
      exists (n + 1). splits; [lia|lia| |done|done|]; [f_equal; lia|]. intros b. cbn. destruct (decide (b = n)) as [->|Hb].
      * by rewrite lookup_insert_eq, decide_True by lia.
      * rewrite lookup_insert_ne, Hd by done. repeat case_decide; lia || done.
    + exists 0. splits; [done|done|done|done|done|]. intros b. rewrite Hs, lookup_empty. by rewrite decide_False by lia.
  - intros [] s' (n & Hn & El & E1 & E2 & Hd). apply HQ; [|done..]. intros b. rewrite Hd. assert (n = FSSIZE) as ->; [|done].
    destruct (decide (n = FSSIZE)) as [|Hne]; [done|]. by rewrite seqZ_cons in El by lia.
Qed.

Lemma image_blank s : disk s (fun _ => zero_blk) -> freeinode s = 1 -> freeblock s = nmeta ->
  image (set_img (<[1 := store_superblock mk_sb zero_blk]> (img s)) s) (<[1 := store_superblock mk_sb zero_blk]> (fun _ => zero_blk)) [].
Proof.
  intros Hd Hi Hb. set (f := <[1 := _]> (fun _ => zero_blk)). assert (forall b, b <> 1 -> f b = zero_blk) as Hf by (intros b Hne; unfold f; by rewrite fn_lookup_insert_ne).
  split; cbn [freeinode freeblock set_img]; try done.
  - by apply disk_put.
  - rewrite Hi. done.
  - rewrite Hi, Hb. split; try (intros; lia).
    + done.
    + intros b. destruct (decide (b = 1)) as [->|]; [|rewrite Hf by done; apply zero_blk_wf]. unfold f. rewrite fn_lookup_insert. unfold store_superblock, put32.
      repeat apply putn_wf. apply zero_blk_wf.
    + intros b Hbb. apply Hf. change nmeta with 46 in Hbb. lia.
  - intros i Hn. rewrite Hi in Hn. pose proof (mk_iblock i ltac:(lia)). unfold ino, dinode_at. rewrite Hf by lia. unfold load_dinode. cbn [itype].
    unfold get16. cbn [getn]. by rewrite !get8_zero.
  - intros b Hbb. apply Hf. lia.
Qed.

(** The bitmap. *)
Lemma mk_bits_spec k : Z.of_nat k <= BPB -> blk_wf (mk_bits k zero_blk) /\
  forall b, 0 <= b < BPB -> bit_set (mk_bits k zero_blk) b = (b <? Z.of_nat k).
Proof.
  induction k as [|k IH]; intros Hk.
  - split; [apply zero_blk_wf|]. intros b Hb. rewrite bit_set_spec, get8_zero, Z.testbit_0_l by lia. symmetry. apply Z.ltb_ge. lia.
  - destruct IH as [Hwf IH]; [lia|]. cbn [mk_bits]. split; [by apply set_bit_wf|]. intros b Hb. rewrite set_bit_spec, IH by (done || lia).
    destruct (Z.of_nat k =? b) eqn:E1, (b <? Z.of_nat k) eqn:E2, (b <? Z.of_nat (S k)) eqn:E3; b2p; lia || done.
Qed.

(** ** The image *)

Definition root_data (files : list mkfile) : list Z := mk_dirent [46] ROOTINO ++ mk_dirent [46; 46] ROOTINO ++ root_entries 2 files.
Definition all_files (files : list mkfile) : list (Z * list Z) := (T_DIR, root_data files) :: map (fun x => (T_FILE, file_data x)) files.

Record mkfs_image (files : list mkfile) (s : mk) (f : Z -> blk) : Prop := MkfsImage {
  mi_disk : disk s f;
  mi_sb : load_superblock (f 1) = mk_sb;
  mi_log : f (logstart mk_sb) = zero_blk;
  mi_fs : fs_ok mk_sb (logstart mk_sb) f;
  mi_free : forall b, 0 <= b < FSSIZE -> used mk_sb f b = (b <? nmeta + nblocks_of (all_files files));
  mi_file_ok : forall i, 1 <= i <= 1 + Z.of_nat (length files) -> file_ok mk_sb f (addrs (ino f i));
  mi_apart : forall i j i' j', 1 <= i <= 1 + Z.of_nat (length files) -> 0 <= j < NSLOT -> 1 <= i' <= 1 + Z.of_nat (length files) -> 0 <= j' < NSLOT ->
    slot f (addrs (ino f i)) j <> 0 -> slot f (addrs (ino f i)) j = slot f (addrs (ino f i')) j' -> i = i' /\ j = j';
  mi_root : let root := ino f ROOTINO in
    itype root = T_DIR /\ nlink root = 1 /\ isize root = (Z.of_nat (length (root_data files)) / BSIZE + 1) * BSIZE /\
    filled f (addrs root) (Z.of_nat (length (root_data files))) /\
    forall o, 0 <= o < MAXFILE * BSIZE -> filedata f (addrs root) o = default 0 (root_data files !! Z.to_nat o);
  mi_files : forall k file, files !! k = Some file -> holds f (2 + Z.of_nat k) T_FILE (file_data file);
  mi_inodes : forall i, 2 + Z.of_nat (length files) <= i < NINODES -> itype (ino f i) = 0 }.

(** What mkfs can put into an image. *)
Record mk_fits (files : list mkfile) : Prop := MkFits {
  mf_good : Forall mk_good files;
  mf_inodes : 2 + Z.of_nat (length files) <= NINODES;
  mf_blocks : nmeta + nblocks_of (all_files files) <= FSSIZE }.

Section Finish.
Context (files : list mkfile) (s : mk) (f : Z -> blk) (f' : Z -> blk).
Hypothesis Hfits : mk_fits files.
Hypothesis Himage : image s f (all_files files).
Let size := Z.of_nat (length (root_data files)).
Let root := set_isize ((size / BSIZE + 1) * BSIZE) (ino f ROOTINO).
Hypothesis Hf' : f' = <[bmapstart mk_sb := mk_bits (Z.to_nat (freeblock s)) zero_blk]> (iput_at f ROOTINO root).
#[local] Set Default Proof Using "All".

Lemma fi_ni : freeinode s = 2 + Z.of_nat (length files).
Proof using Himage. rewrite (im_ni _ _ _ Himage). unfold all_files. cbn [length]. rewrite length_map. lia. Qed.

Lemma fi_root : holds f ROOTINO T_DIR (root_data files).
Proof using Himage. by apply (im_files _ _ _ Himage 0 T_DIR (root_data files)). Qed.

Lemma fi_root_wf : inode_wf root.
Proof.
  destruct fi_root as [A1 [A2 A2'] A3 A4 A5 _ _]. change (MAXFILE * BSIZE) with 274432 in A5.
  split; unfold root; cbn [set_isize itype imajor iminor nlink isize addrs]; rewrite ?A1, ?A2, ?A2', ?A3; try done.
  - subst size. unfold BSIZE. dlia.
  - apply (owns_addrs _ _ _ _ _ (im_owns _ _ _ Himage)). rewrite fi_ni. unfold ROOTINO. lia.
Qed.

Lemma fi_ino i : 0 <= i < NINODES -> ino f' i = if decide (i = ROOTINO) then root else ino f i.
Proof.
  intros Hi. transitivity (ino (iput_at f ROOTINO root) i).
  - unfold ino, dinode_at. rewrite Hf', fn_lookup_insert_ne; [done|]. pose proof (mk_iblock i Hi). change (bmapstart mk_sb) with 45. lia.
  - rewrite ino_iput; [done|apply (im_owns _ _ _ Himage)|apply fi_root_wf|done|done].
Qed.
Lemma fi_addrs i : 0 <= i < NINODES -> addrs (ino f' i) = addrs (ino f i).
Proof. intros Hi. rewrite fi_ino by done. by case_decide; subst. Qed.

Lemma fi_other b : b < 32 \/ 46 <= b -> f' b = f b.
Proof. intros Hb. rewrite Hf', fn_lookup_insert_ne by (change (bmapstart mk_sb) with 45; lia). apply iput_other; [done|lia]. Qed.
Lemma fi_data b : nmeta <= b -> f' b = f b.
Proof. intros Hb. change nmeta with 46 in Hb. apply fi_other. lia. Qed.

Lemma fi_fb : freeblock s = nmeta + nblocks_of (all_files files) /\ 46 <= freeblock s <= 1000.
Proof using Hfits Himage.
  pose proof (im_fb _ _ _ Himage) as Hb. pose proof (mf_blocks _ Hfits) as Hm. pose proof (nblocks_pos (all_files files)).
  change nmeta with 46 in *. change FSSIZE with 1000 in *. lia.
Qed.

Lemma fi_wf b : blk_wf (f' b).
Proof.
  rewrite Hf'. destruct (decide (b = bmapstart mk_sb)) as [->|]; [rewrite fn_lookup_insert|rewrite fn_lookup_insert_ne by done; apply iput_wf, (im_owns _ _ _ Himage)].
  apply mk_bits_spec. pose proof fi_fb. unfold BPB, BSIZE. lia.
Qed.

Lemma fi_used b : 0 <= b < FSSIZE -> used mk_sb f' b = (b <? freeblock s).
Proof.
  intros Hb. change FSSIZE with 1000 in Hb. pose proof fi_fb. unfold used, BBLOCK, BPB, BSIZE.
  rewrite Z.div_small, Z.mod_small by lia. change (wrap32 (0 + bmapstart mk_sb)) with (bmapstart mk_sb). rewrite Hf', fn_lookup_insert.
  destruct (mk_bits_spec (Z.to_nat (freeblock s))) as [_ E]; [unfold BPB, BSIZE; lia|]. rewrite E by (unfold BPB, BSIZE; lia). by rewrite Z2Nat.id by lia.
Qed.

Lemma fi_owns : owns f' (fun i => addrs (ino f' i)) (2 + Z.of_nat (length files)) (freeblock s).
Proof.
  pose proof (mf_inodes _ Hfits). rewrite <- fi_ni in *. apply (owns_data f _ (fun i => addrs (ino f i))); [apply Himage|apply fi_data|apply fi_wf|].
  intros i Hi. apply fi_addrs. lia.
Qed.

Lemma fi_slot i j : 1 <= i < 2 + Z.of_nat (length files) -> 0 <= j < NSLOT -> slot f' (addrs (ino f i)) j = slot f (addrs (ino f i)) j.
Proof. intros Hi Hj. rewrite <- fi_ni in Hi. by apply (slot_data f _ (fun n => addrs (ino f n)) (freeinode s) (freeblock s)); [apply Himage|apply fi_data|..]. Qed.
Lemma fi_content i bn : 1 <= i < 2 + Z.of_nat (length files) -> 0 <= bn < MAXFILE -> content f' (addrs (ino f i)) bn = content f (addrs (ino f i)) bn.
Proof. intros Hi Hj. rewrite <- fi_ni in Hi. by apply (content_data f _ (fun n => addrs (ino f n)) (freeinode s) (freeblock s)); [apply Himage|apply fi_data|..]. Qed.

Lemma image_finish s' : disk s' f' -> mkfs_image files s' f'.
Proof.
  intros Hd. pose proof fi_fb as [Eb Hb]. pose proof (mf_inodes _ Hfits) as Hn. change NINODES with 200 in Hn. pose proof fi_owns as HO.
  split; [done| | | | | | | | |].
  - rewrite fi_other, (im_sb _ _ _ Himage) by lia. by vm_compute.
  - change (logstart mk_sb) with 2. rewrite fi_other by lia. apply (im_zero _ _ _ Himage). lia.
  - split; [apply mk_layout| |apply fi_wf]. intros b Hbb. change (dstart mk_sb) with 46 in Hbb.
    rewrite fi_used by (change FSSIZE with 1000; lia). apply Z.ltb_lt. lia.
  - intros b Hbb. rewrite <- Eb. by apply fi_used.
  - intros i Hi. destruct HO as [A B C D E F]. split; [apply B; lia| |].
    + intros j Hj Hnz. pose proof (D i j ltac:(lia) Hj Hnz) as Hr. change (dstart mk_sb) with 46. change (sb_size mk_sb) with 1000. change nmeta with 46 in Hr.
      split; [lia|]. rewrite fi_used by (change FSSIZE with 1000; lia). apply Z.ltb_lt. lia.
    + intros j j' Hj Hj' Hnz E'. by destruct (E i j i j' ltac:(lia) Hj ltac:(lia) Hj' Hnz E').
  - intros i j i' j' Hi Hj Hi' Hj'. apply (ow_inj _ _ _ _ HO); done || lia.
  - cbv zeta. rewrite fi_ino, decide_True by done. destruct fi_root as [A1 A2 A3 A4 A5 A6 A7]. splits; [done|done|done| |].
    + apply (filled_ext f (addrs (ino f ROOTINO))); [|done]. intros j Hj. apply fi_slot; [unfold ROOTINO; lia|done].
    + intros o Ho. rewrite <- A7 by done. apply content_filedata; [|done]. intros bn Hbn. apply fi_content; [unfold ROOTINO; lia|done].
  - intros k file Hk. pose proof (lookup_lt_Some _ _ _ Hk). apply (holds_ext f).
    + rewrite fi_ino, decide_False; [done|unfold ROOTINO; lia|change NINODES with 200; lia].
    + intros j Hj. apply fi_slot; [lia|done].
    + intros bn Hbn. apply fi_content; [lia|done].
    + replace (2 + Z.of_nat k) with (1 + Z.of_nat (S k)) by lia. apply (im_files _ _ _ Himage). change (map (fun x => (T_FILE, file_data x)) files !! k = Some (T_FILE, file_data file)). by rewrite list_lookup_fmap, Hk.
  - intros i Hi. change NINODES with 200 in Hi. rewrite fi_ino, decide_False by (unfold ROOTINO; change NINODES with 200; lia).
    apply (im_free _ _ _ Himage). rewrite fi_ni. change NINODES with 200. lia.
Qed.
End Finish.

Lemma root_data_length files : length (root_data files) = (16 * (2 + length files))%nat.
Proof.
  assert (forall g : nat -> mkfile -> list Z, (forall k x, length (g k x) = 16%nat) -> length (concat (imap g files)) = (16 * length files)%nat) as H.
  { induction files as [|x files IH]; intros g Hg; [done|]. rewrite imap_cons. cbn [concat length]. rewrite length_app, Hg, IH; [lia|]. intros. apply Hg. }
  unfold root_data, root_entries. rewrite !length_app, !length_mk_dirent, H; [lia|]. intros. apply length_mk_dirent.
Qed.

(** The part of [main] that fills the image. *)
Lemma wp_mk_fill files s f (k : M mk unit) (Q : unit -> mk -> Prop) : mk_fits files -> image s f [(T_DIR, [])] ->
  (forall s' f', image s' f' (all_files files) -> wp k Q s') ->
  wp (iappend ROOTINO (mk_dirent [46] ROOTINO) ;; iappend ROOTINO (mk_dirent [46; 46] ROOTINO) ;; for_each files (mk_add ROOTINO) ;; k) Q s.
Proof.
  intros [Hg Hn Hroom] HI HQ. change NINODES with 200 in Hn. pose proof (im_fb _ _ _ HI) as Hb. change (nmeta + nblocks_of [(T_DIR, [])]) with 46 in Hb.
  apply wp_bind. apply (wp_iappend s f _ 0 T_DIR [] _ _ HI); [done|apply mk_dirent_ok; by repeat constructor|done|rewrite Hb; done|]. intros s1 f1 HI1.
  pose proof (im_fb _ _ _ HI1) as Hb1. match type of Hb1 with _ = ?x => assert (x = 47) as Ex by (vm_compute; done) end.
  apply wp_bind. eapply (wp_iappend s1 f1 _ 0 T_DIR (mk_dirent [46] ROOTINO)); [exact HI1|done|apply mk_dirent_ok; by repeat constructor|done|rewrite Hb1, Ex; done|]. intros s2 f2 HI2.
  pose proof (im_ni _ _ _ HI2) as Hni. apply wp_bind, (wp_mk_files files s2 f2 (mk_dirent [46] ROOTINO ++ mk_dirent [46; 46] ROOTINO) []); [exact HI2|done| | | |].
  - cbn in Hni. change NINODES with 200. lia.
  - rewrite length_app, !length_mk_dirent. change (MAXFILE * BSIZE) with 274432. lia.
  - rewrite <- app_assoc. exact Hroom.
  - rewrite <- app_assoc. exact HQ.
Qed.

Lemma mkfs_builds files : mk_fits files -> exists s f, mkfs files = Ok tt s /\ mkfs_image files s f.
Proof.
  intros Hfits. enough (wp (mkfs_main files) (fun _ s => exists f, mkfs_image files s f) (Mk ∅ 1 0)) as H.
  { rewrite wp_iff in H. destruct H as ([] & s & E & f & H). exists s, f. split; [exact E|exact H]. }
  unfold mkfs_main. apply wp_bind, wp_modify, wp_bind, wp_blank; [done|]. intros s0 Hd0 Hi0 Hb0. apply wp_bind, wp_wsect.
  pose proof (image_blank s0 Hd0 Hi0 Hb0) as HI0. apply wp_bind. eapply (wp_mk_ialloc _ _ _ T_DIR _ HI0); [cbn; by rewrite Hi0|done|]. intros s1 f1 HI1.
  change (negb (1 + Z.of_nat (length []) =? ROOTINO)) with false. cbn match. change (1 + Z.of_nat (@length (Z * list Z) [])) with ROOTINO.
  apply (wp_mk_fill files s1 f1); [done|exact HI1|].
  intros s f HI. apply wp_bind, (wp_rinode _ s f); [apply HI|done|]. rewrite (ho_size _ _ _ _ (fi_root files s f HI)).
  apply wp_bind, (wp_winode _ _ s f); [apply HI|done|]. intros s2 Hd2 _ Hb2. apply wp_bind, wp_gets. rewrite Hb2.
  destruct (fi_fb files s f Hfits HI) as [_ Hb]. unfold mk_balloc. rewrite (proj2 (Z.ltb_lt _ _)) by (unfold BSIZE; lia). cbn [negb]. apply wp_wsect.
  eexists. eapply image_finish; [done|exact HI|reflexivity|]. by apply disk_put.
Qed.


Definition ex_files : list mkfile :=
  [([117; 115; 101; 114; 47; 95; 99; 97; 116], [[127; 69; 76; 70]; [1; 2]]); ([82; 69; 65; 68; 77; 69], [replicate 600 120; replicate 600 121])].

Lemma ex_files_fit : mk_fits ex_files.
Proof.
  split; [|done|by vm_compute]. apply Forall_cons. split; [|apply Forall_cons; split; [|constructor]]; split; try done; try (cbn; set_solver).
  1,2: by repeat constructor.
  - by repeat constructor.
  - unfold file_data. cbn [snd concat]. rewrite app_nil_r. apply Forall_app. split; by apply Forall_replicate.
Defined.


(** The root directory ends with a block that it does not have for 62 files, 126
    files and so on. *)
Lemma root_holes files s f : mk_fits files -> mkfs_image files s f ->
  no_holes f (addrs (ino f ROOTINO)) (isize (ino f ROOTINO)) <-> Z.of_nat (length files) mod 64 <> 62.
Proof.
  intros Hfits HI.
  destruct (mi_root _ _ _ HI) as (_ & _ & Hs & HF & _). rewrite Hs. rewrite root_data_length in *. pose proof (mf_inodes _ Hfits) as Hn. change NINODES with 200 in Hn.
  replace (Z.of_nat (16 * (2 + length files))) with (16 * (2 + Z.of_nat (length files))) in * by lia. set (n := Z.of_nat (length files)) in *.
  assert (0 <= n) as H0 by lia. clearbody n. clear - HF Hn H0. assert (MAXFILE = 268) as EM by done. unfold BSIZE in *. split.
  - intros H Hm. apply (H (16 * (2 + n) / 1024)); [dlia|unfold BSIZE; lia|]. apply (fd_blocks _ _ _ HF); [dlia|]. unfold BSIZE. dlia.
  - intros Hm bn Hbn Hb. unfold BSIZE in Hb. rewrite (fd_blocks _ _ _ HF) by dlia. unfold BSIZE. dlia.
Qed.

(** C39.  The size of the root directory is rounded up to a multiple of the block
    size, and to the next one when it is one: the directory then ends with a
    block that it does not have.  That is the case for 62 files, 126 files and
    so on, and only for them. *)
Theorem mkfs_root_holes files : mk_fits files -> exists s f, mkfs files = Ok tt s /\ disk s f /\
  (no_holes f (addrs (ino f ROOTINO)) (isize (ino f ROOTINO)) <-> Z.of_nat (length files) mod 64 <> 62).
Proof.
  intros Hfits. destruct (mkfs_builds files Hfits) as (s & f & E & HI). exists s, f. split; [exact E|]. split; [apply HI|by apply (root_holes files s)].
Qed.

Definition ex_many : list mkfile := replicate 62 ([97], []).

Lemma mkfs_root_holes_witness : exists s f, mkfs ex_many = Ok tt s /\ disk s f /\
  ~ no_holes f (addrs (ino f ROOTINO)) (isize (ino f ROOTINO)).
Proof.
  destruct (mkfs_root_holes ex_many) as (s & f & E & Hd & Hh).
  - split; [|done|by vm_compute]. apply Forall_replicate. repeat constructor; cbn; try done. set_solver.
  - exists s, f. split; [exact E|]. split; [exact Hd|]. intros H. exact (proj1 Hh H eq_refl).
Defined.
