(* ===== verification/MkfsPath.v ===== *)
(** * From mkfs to the kernel (mkfs/mkfs.c, kernel/fs.c)

    The image that mkfs builds is a tree for [namex]: the kernel finds every file
    in the root directory by its name and reads from it the bytes that mkfs was
    given. *)

From S2P Require Import Prelude Spinlock Sleeplock Block BlockCache Log Tx CopyIO Fs FsBlock FsFile FsRead FsInode FsWrite FsExample FsTheorems FsDir FsPath Mkfs MkfsProof MkfsTheorems.

(** ** The entries of the root directory *)

Definition root_names (files : list mkfile) : list (list Z * Z) :=
  ([46], ROOTINO) :: ([46; 46], ROOTINO) :: imap (fun k (file : mkfile) => (short_name file.1, 2 + Z.of_nat k)) files.
Definition dirents (es : list (list Z * Z)) : list Z := concat (map (fun x => mk_dirent x.1 x.2) es).

Lemma root_dirents files : root_data files = dirents (root_names files).
Proof.
  unfold root_data, dirents, root_names, root_entries. cbn [map concat fst snd]. f_equal. f_equal. f_equal.
  change (map ?g ?l) with (g <$> l). rewrite fmap_imap. by apply imap_ext.
Qed.
Lemma lookup_dirents es : forall k i, (i < 16)%nat -> dirents es !! (16 * k + i)%nat = (es !! k) ≫= fun x => mk_dirent x.1 x.2 !! i.
Proof.
  induction es as [|x es IH]; intros k i Hi; [done|]. unfold dirents. cbn [map concat]. destruct k as [|k].
  - cbn [lookup list_lookup mbind option_bind]. replace (16 * 0 + i)%nat with i by lia. apply lookup_app_l. by rewrite length_mk_dirent.
  - rewrite lookup_app_r by (rewrite length_mk_dirent; lia). rewrite length_mk_dirent. replace (16 * S k + i - 16)%nat with (16 * k + i)%nat by lia. by apply IH.
Qed.

Lemma dir_find_first g c i k n : forall k0, k0 <= k < k0 + Z.of_nat n -> g k = Some (c, i) -> (forall j x, k0 <= j < k -> g j = Some x -> x.1 <> c) ->
  dir_find g c k0 n = Some (k, i).
Proof.
  induction n as [|n IH]; intros k0 Hk Hg Hfirst; [lia|]. cbn [dir_find]. destruct (decide (k0 = k)) as [->|Hne].
  - rewrite Hg. by rewrite decide_True.
  - assert (dir_find g c (k0 + 1) n = Some (k, i)) as E by (apply IH; [lia|done|intros j x Hj; apply Hfirst; lia]).
    destruct (g k0) as [[c' i']|] eqn:E0; [|done]. rewrite decide_False; [done|]. by apply (Hfirst k0 (c', i')); [lia|].
Qed.
Lemma elems_single name : SLASH ∉ name -> name <> [] -> elems name = [name].
Proof.
  intros Hs Hne. unfold elems. assert (split_at_slash name = [name]) as ->; [|by rewrite filter_cons_True].
  clear Hne. induction name as [|c name IH]; [done|]. apply not_elem_of_cons in Hs as [Hc Hs]. cbn [split_at_slash]. rewrite (proj2 (Z.eqb_neq c SLASH)) by done. by rewrite IH.
Qed.
Lemma short_no_slash path : SLASH ∉ strip_user path -> SLASH ∉ short_name path.
Proof. unfold short_name. intros H. repeat (case_match; try done). subst. by apply not_elem_of_cons in H as [_ H]. Qed.

Section Root.
Context (files : list mkfile) (s : mk) (f : Z -> blk).
Hypothesis Hfits : mk_fits files.
Hypothesis Himage : mkfs_image files s f.
#[local] Set Default Proof Using "All".
Let n := Z.of_nat (length files).

Lemma root_inum k x : root_names files !! k = Some x -> 1 <= x.2 <= 1 + n.
Proof.
  destruct k as [|[|k]]; [intros [= <-]; unfold n; cbn [snd]; change ROOTINO with 1; lia..|]. change (root_names files !! S (S k)) with (imap (fun k (file : mkfile) => (short_name file.1, 2 + Z.of_nat k)) files !! k). rewrite list_lookup_imap.
  intros (file & E & ->)%fmap_Some. apply lookup_lt_Some in E. unfold n. cbn [snd]. lia.
Qed.

Lemma root_dir_entry k : 0 <= k -> DIRENT * k + DIRENT <= MAXFILE * BSIZE ->
  dir_entry f (addrs (ino f ROOTINO)) k = (fun x => (canon x.1, x.2)) <$> root_names files !! Z.to_nat k.
Proof.
  intros Hk Hmax. pose proof (mf_inodes _ Hfits) as Hn. fold n in Hn. change NINODES with 200 in Hn. destruct (mi_root _ _ _ Himage) as (_ & _ & _ & _ & Hd). change DIRENT with 16 in *.
  assert (de_bytes f (addrs (ino f ROOTINO)) k = match root_names files !! Z.to_nat k with Some x => mk_dirent x.1 x.2 | None => replicate 16 0 end) as E.
  { apply list_eq_same_length with 16%nat; [by destruct (_ !! _); [rewrite length_mk_dirent|]|done|]. intros i y z Hi Hy Hz.
    unfold de_bytes in Hy. change DIRENT with 16 in Hy. rewrite list_lookup_fmap, lookup_seqZ_lt in Hy by lia. injection Hy as <-.
    rewrite Hd by lia. rewrite root_dirents. replace (Z.to_nat (16 * k + (0 + Z.of_nat i))) with (16 * Z.to_nat k + i)%nat by lia. rewrite lookup_dirents by done.
    destruct (root_names files !! Z.to_nat k) as [x|]; cbn; [by rewrite Hz|]. by apply lookup_replicate in Hz as [-> _]. }
  unfold dir_entry. rewrite E. destruct (root_names files !! Z.to_nat k) as [x|] eqn:Ex; [|done]. apply root_inum in Ex. rewrite entry_mk_dirent by lia. done.
Qed.

Lemma root_size : isize (ino f ROOTINO) = (16 * (2 + n) / 1024 + 1) * 1024.
Proof.
  destruct (mi_root _ _ _ Himage) as (_ & _ & -> & _). rewrite root_data_length. unfold BSIZE, n. f_equal. f_equal. f_equal. lia.
Qed.

Hypothesis Hholes : n mod 64 <> 62.

(** Every inode that mkfs gave out is a file with a link; the root directory
    leads to them. *)
Lemma image_tree : tree_ok mk_sb f (fun i => 1 <= i <= 1 + n).
Proof.
  pose proof (mf_inodes _ Hfits) as Hn. fold n in Hn. change NINODES with 200 in Hn. assert (0 <= n) as H0 by (unfold n; lia).
  intros i Hi. change (dnode mk_sb f i) with (ino f i). assert (0 <= i < ninodes mk_sb) as Hr by (change (ninodes mk_sb) with 200; lia).
  destruct (decide (i = ROOTINO)) as [->|Hne].
  - pose proof root_size as Es. destruct (mi_root _ _ _ Himage) as (A1 & A2 & _). split; change (dnode mk_sb f ROOTINO) with (ino f ROOTINO); rewrite ?A1, ?A2; [done|done|done|]. intros _. splits.
    + by apply (mi_file_ok _ _ _ Himage).
    + by apply (root_holes files s).
    + rewrite Es. dlia.
    + rewrite Es. change (MAXFILE * BSIZE) with 274432. dlia.
    + rewrite Es. change DIRENT with 16. dlia.
    + intros k c m E Hk. unfold nent in Hk. rewrite Es in Hk. change DIRENT with 16 in Hk. rewrite root_dir_entry in E; [|lia|change DIRENT with 16; change (MAXFILE * BSIZE) with 274432; dlia].
      apply fmap_Some in E as (x & Ex & [= _ ->]). by apply (root_inum (Z.to_nat k)).
  - change ROOTINO with 1 in Hne. destruct (lookup_lt_is_Some_2 files (Z.to_nat (i - 2))) as [file Hf]; [unfold n in *; lia|].
    pose proof (mi_files _ _ _ Himage _ _ Hf) as Hh. replace (2 + Z.of_nat (Z.to_nat (i - 2))) with i in Hh by lia. destruct Hh as [H1 _ H3].
    split; change (dnode mk_sb f i) with (ino f i); rewrite ?H1, ?H3; done.
Qed.

Hypothesis Hnames : NoDup ((fun x => canon x.1) <$> root_names files).

(** Each file is found in the root directory. *)
Lemma root_resolve k (file : mkfile) : files !! k = Some file -> short_name file.1 <> [] ->
  resolve mk_sb f false ROOTINO (elems (SLASH :: short_name file.1)) = Some (2 + Z.of_nat k).
Proof using Hfits Himage Hnames.
  intros Hf Hne. pose proof (mf_inodes _ Hfits) as Hn. fold n in Hn. change NINODES with 200 in Hn. assert (Z.of_nat k < n) as Hk by (unfold n; apply lookup_lt_Some in Hf; lia).
  pose proof (proj1 (Forall_lookup _ _) (mf_good _ Hfits) k file Hf) as Hg. rewrite elems_slash, elems_single by (done || by apply short_no_slash, Hg). cbn [resolve andb].
  change (dnode mk_sb f ROOTINO) with (ino f ROOTINO). rewrite (proj1 (mi_root _ _ _ Himage)). rewrite Z.eqb_refl. unfold find_num. change (dnode mk_sb f ROOTINO) with (ino f ROOTINO).
  assert (root_names files !! S (S k) = Some (short_name file.1, 2 + Z.of_nat k)) as Ek.
  { change (root_names files !! S (S k)) with (imap (fun k (file : mkfile) => (short_name file.1, 2 + Z.of_nat k)) files !! k). rewrite list_lookup_imap, Hf. done. }
  assert (forall j, 0 <= j < n + 3 -> DIRENT * j + DIRENT <= MAXFILE * BSIZE) as Hmax by (intros; change DIRENT with 16; change (MAXFILE * BSIZE) with 274432; lia).
  rewrite (dir_find_first _ _ (2 + Z.of_nat k) (2 + Z.of_nat k)); [done| | |].
  - unfold nent. rewrite root_size. change DIRENT with 16. dlia.
  - rewrite root_dir_entry by (try apply Hmax; lia). replace (Z.to_nat (2 + Z.of_nat k)) with (S (S k)) by lia. by rewrite Ek.
  - intros j x Hj Hx E. rewrite root_dir_entry in Hx by (try apply Hmax; lia). apply fmap_Some in Hx as (y & Hy & ->). cbn [fst] in E.
    assert (Z.to_nat j = S (S k)); [|lia]. eapply NoDup_lookup; [exact Hnames| |]; rewrite list_lookup_fmap; [by rewrite Hy|]. rewrite Ek. cbn. by rewrite E.
Qed.

Lemma file_readable k (file : mkfile) q : files !! k = Some file -> idev q = ROOTDEV -> dinode_at mk_sb f (2 + Z.of_nat k) q = q -> readable (dev := ROOTDEV) mk_sb f q.
Proof using Himage.
  intros Hf Hd Hq. destruct (dnode_fields _ _ _ _ Hq) as (_ & _ & E3 & E4). change (dnode mk_sb f (2 + Z.of_nat k)) with (ino f (2 + Z.of_nat k)) in *.
  destruct (mi_files _ _ _ Himage _ _ Hf) as [_ _ _ H4 H5 H6 _]. pose proof (lookup_lt_Some _ _ _ Hf). split; [done|rewrite E4; apply (mi_file_ok _ _ _ Himage); lia| |rewrite E3, H4; lia].
  rewrite E3, E4, H4. intros bn Hbn Hlt. change (MAXFILE * BSIZE) with 274432 in H5. unfold BSIZE in *. rewrite (fd_blocks _ _ _ H6) by (change MAXFILE with 268; lia). unfold BSIZE. lia.
Qed.
End Root.

(** ** The kernel reads what mkfs was given *)

Section read.
Context {T U : Type} `{!Tx ROOTDEV T} `{!CopyIO U}.
Context (me de_addr : Z).

(** What [exec] does with its path, and [open] and [read] together: resolve it,
    lock the inode, read from it. *)
Definition read_path (cwd : nat) (path : list Z) (ud dst off n : Z) : M (fs_t T U) Z :=
  let! r := namei me de_addr cwd path in
  match r with
  | None => ret (-1)
  | Some ip => ilock me ip ;; readi ip ud dst off n
  end.

Lemma wp_read_path files mks f k (file : mkfile) (s : fs_t T U) a v cwd c ud dst off n :
  mk_fits files -> mkfs_image files mks f -> Z.of_nat (length files) mod 64 <> 62 -> NoDup ((fun x => canon x.1) <$> root_names files) ->
  files !! k = Some file -> short_name file.1 <> [] -> plain (short_name file.1) ->
  start_ok me de_addr s a v cwd c -> sb s = mk_sb -> av a = f ->
  0 <= off <= Z.of_nat (length (file_data file)) -> 0 <= n -> off + n < 2^32 -> 0 <= dst -> dst + n <= 2^64 -> accessible v (truth ud) dst n ->
  wp (read_path cwd (SLASH :: short_name file.1) ud dst off n) (fun r s' => r = Z.min n (Z.of_nat (length (file_data file)) - off) /\
    exists v', copy_rep (um s') v' /\ forall i, 0 <= i < r -> v' (truth ud) (dst + i) = Some (default 0 (file_data file !! Z.to_nat (off + i)))) s.
Proof.
  intros Hfits HI Hholes Hnames Hf Hne Hpl Hs Hsb Ha Hoff Hn Hmax Hdst Hdst' Hacc. pose proof (image_tree files mks f Hfits HI Hholes) as Htree.
  pose proof (lookup_lt_Some _ _ _ Hf) as Hk. destruct (mi_files _ _ _ HI _ _ Hf) as [_ _ _ F4 F5 _ F7].
  unfold read_path, namei. apply wp_bind, wp_bind, (wp_namex me de_addr (fun i => 1 <= i <= 1 + Z.of_nat (length files)) s a v (SLASH :: short_name file.1) false _ cwd c);
    [exact Hs|by rewrite Hsb, Ha|change (start_at (SLASH :: short_name file.1) c) with 1; lia|by constructor|done|].
  intros r name' s' v' Hc Ht Hsb' Hv' Hor. change (start_at (SLASH :: short_name file.1) c) with ROOTINO.
  rewrite Hsb, Ha, (root_resolve files mks f Hfits HI Hnames k file Hf Hne). intros (ip & p & -> & Hp & (L1 & L2 & L3) & _). apply wp_ret. cbn [fst].
  assert (fs_tx s' a) as Hft by (destruct (so_tx _ _ _ _ _ _ _ Hs); split; [done|by rewrite Hsb'|done|done]). rewrite Hsb in Hsb'.
  apply wp_bind, (wp_ilock me s' a ip p); [done|done|done|done| |].
  { rewrite Hsb', L3, Ha. change (itype (dinode_at mk_sb f (2 + Z.of_nat k) p)) with (itype (dnode mk_sb f (2 + Z.of_nat k))). apply (nd_type _ _ _ _ (Htree (2 + Z.of_nat k) ltac:(cbv beta; lia))). }
  intros t q s1 Ht1 Hc1 Er En Ed Hq Hrefs. rewrite Hsb', L3, Ha in Hq. destruct (dnode_fields _ _ _ _ Hq) as (_ & _ & E3 & E4).
  change (dnode mk_sb f (2 + Z.of_nat k)) with (ino f (2 + Z.of_nat k)) in *.
  apply (wp_readi q ip a s1 v' ud dst off n).
  - destruct Hft. by split.
  - apply list_lookup_insert_eq. by eapply lookup_lt_Some.
  - cbn [sb s1]. rewrite Hsb', Ha. by apply (file_readable files mks f HI k file).
  - done.
  - lia.
  - lia.
  - done.
  - done.
  - right. apply (only_range_accessible _ _ _ _ _ _ _ _ Hor). intros i Hi. apply Hacc. destruct (_ || _); lia.
  - intros r t2 u2 v2 Ht2 Hu2 (R1 & R2 & R3 & R4). rewrite E3, F4 in *.
    rewrite (proj2 (Z.ltb_ge _ off)), (proj2 (Z.leb_gt _ (off + n))) in * by lia. cbn [orb] in *.
    assert (r = Z.min n (Z.of_nat (length (file_data file)) - off)) as ->.
    { apply R2. apply (only_range_accessible _ _ _ _ _ _ _ _ Hor). intros i Hi. apply Hacc. lia. }
    split; [done|]. exists v2. split; [done|]. intros i Hi. rewrite R3 by done. rewrite Ha, E4. rewrite F7 by (change (MAXFILE * BSIZE) with 274432 in *; lia). done.
Qed.

(** C6.  The kernel reads what mkfs was given: on the image that mkfs builds, for
    files whose names differ in their first fourteen characters, [namei] finds
    every file by the name mkfs gave it, and [ilock] and [readi] deliver its
    bytes from any offset on, up to its end. *)
Theorem mkfs_kernel_reads files k (file : mkfile) :
  mk_fits files -> Z.of_nat (length files) mod 64 <> 62 -> NoDup ((fun x => canon x.1) <$> root_names files) ->
  files !! k = Some file -> short_name file.1 <> [] -> plain (short_name file.1) ->
  exists mks f, mkfs files = Ok tt mks /\ disk mks f /\ fs_ok mk_sb (logstart mk_sb) f /\
  forall (s : fs_t T U) a v cwd c ud dst off n,
    start_ok me de_addr s a v cwd c -> sb s = mk_sb -> av a = f ->
    0 <= off <= Z.of_nat (length (file_data file)) -> 0 <= n -> off + n < 2^32 -> 0 <= dst -> dst + n <= 2^64 -> accessible v (truth ud) dst n ->
    wp (read_path cwd (SLASH :: short_name file.1) ud dst off n) (fun r s' => r = Z.min n (Z.of_nat (length (file_data file)) - off) /\
      exists v', copy_rep (um s') v' /\ forall i, 0 <= i < r -> v' (truth ud) (dst + i) = Some (default 0 (file_data file !! Z.to_nat (off + i)))) s.
Proof.
  intros Hfits Hholes Hnames Hf Hne Hpl. destruct (mkfs_builds files Hfits) as (mks & f & E & HI). exists mks, f. split; [exact E|]. split; [apply HI|]. split; [apply HI|].
  intros s a v cwd c ud dst off n Hs Hsb Ha. by apply (wp_read_path files mks f k file s a v cwd c ud dst off n).
Qed.
End read.

Lemma mkfs_kernel_reads_witness : exists mks f, mkfs ex_files = Ok tt mks /\ disk mks f /\
  wp (read_path 1 512 0 [47; 82; 69; 65; 68; 77; 69] 0 1024 599 2) (fun r s' => r = 2 /\
     exists v', copy_rep (um s') v' /\ v' false 1024 = Some 120 /\ v' false 1025 = Some 121) (ex_state mk_sb f).
Proof.
  destruct (mkfs_kernel_reads (T := atx) (U := view) 1 512 ex_files 1 ([82; 69; 65; 68; 77; 69], [replicate 600 120; replicate 600 121]) ex_files_fit) as (mks & f & E & Hd & Hf & H).
  - done.
  - apply (bool_decide_unpack _). by vm_compute.
  - done.
  - done.
  - by repeat constructor.
  - exists mks, f. split; [exact E|]. split; [exact Hd|]. clear E Hd.
    specialize (H (ex_state mk_sb f) (ATx f ∅ ∅ ∅ 29 2 1) ex_kview 0%nat ex_root 0 1024 599 2 (ex_start _ _ Hf eq_refl) eq_refl eq_refl).
    eapply wp_conseq; [apply H; clear H|].
    + by vm_compute.
    + done.
    + done.
    + done.
    + done.
    + intros i Hi. unfold ex_kview. cbn [negb truth andb]. rewrite (proj2 (Z.leb_le _ _)), (proj2 (Z.ltb_lt _ _)) by lia. done.
    + intros r s' [-> (v' & Hv & Hb)]. split; [done|]. exists v'. split; [exact Hv|]. split; [exact (Hb 0 ltac:(done))|exact (Hb 1 ltac:(done))].
Defined.
