(* ===== verification/Hart.v ===== *)
(** * A hart and the assembly of the kernel

    The registers of a hart, the instructions that kernel/swtch.S,
    kernel/trampoline.S, kernel/kernelvec.S and kernel/entry.S use, and these
    files as lists of instructions.  Virtual memory is seen through a
    translation, a parameter that stands for the hardware's page-table walk;
    machine mode uses physical addresses. *)

From S2P Require Import Prelude Riscv Memory.

(** ** Registers *)

Inductive reg :=
| Xzero | Xra | Xsp | Xgp | Xtp | Xt0 | Xt1 | Xt2 | Xs0 | Xs1
| Xa0 | Xa1 | Xa2 | Xa3 | Xa4 | Xa5 | Xa6 | Xa7
| Xs2 | Xs3 | Xs4 | Xs5 | Xs6 | Xs7 | Xs8 | Xs9 | Xs10 | Xs11
| Xt3 | Xt4 | Xt5 | Xt6.
#[global] Instance reg_eq_dec : EqDecision reg.
Proof. solve_decision. Defined.

Inductive csr :=
| Cmhartid | Cmstatus | Cmepc | Csstatus | Csip | Csie | Cmie | Csepc | Cmedeleg | Cmideleg
| Cstvec | Cmtvec | Csatp | Csscratch | Cmscratch | Cscause | Cstval | Cmcounteren | Ctime.
#[global] Instance csr_eq_dec : EqDecision csr.
Proof. solve_decision. Defined.

Inductive priv := PrivU | PrivS | PrivM.

Record hart := Hart { gpr : reg -> Z; csrs : csr -> Z; mode : priv; pc : Z }.

Definition set_gpr (r : reg) (x : Z) (h : hart) : hart :=
  Hart (if bool_decide (r = Xzero) then gpr h else <[r := wrap64 x]> (gpr h)) (csrs h) (mode h) (pc h).
Definition set_csr (c : csr) (x : Z) (h : hart) : hart := Hart (gpr h) (<[c := wrap64 x]> (csrs h)) (mode h) (pc h).
Definition set_pc (x : Z) (h : hart) : hart := Hart (gpr h) (csrs h) (mode h) x.
Definition set_mode (p : priv) (h : hart) : hart := Hart (gpr h) (csrs h) p (pc h).

(** ** The control registers: kernel/riscv.h *)

Definition MSTATUS_MPP_MASK : Z := Z.shiftl 3 11.
Definition MSTATUS_MPP_M : Z := Z.shiftl 3 11.
Definition MSTATUS_MPP_S : Z := Z.shiftl 1 11.
Definition MSTATUS_MPP_U : Z := Z.shiftl 0 11.
Definition MSTATUS_MIE : Z := Z.shiftl 1 3.
Definition SSTATUS_SPP : Z := Z.shiftl 1 8.
Definition SSTATUS_SPIE : Z := Z.shiftl 1 5.
Definition SSTATUS_UPIE : Z := Z.shiftl 1 4.
Definition SSTATUS_UIE : Z := Z.shiftl 1 0.
Definition SIE_SEIE : Z := Z.shiftl 1 9.
Definition SIE_STIE : Z := Z.shiftl 1 5.
Definition SIE_SSIE : Z := Z.shiftl 1 1.
Definition MIE_MEIE : Z := Z.shiftl 1 11.
Definition MIE_MTIE : Z := Z.shiftl 1 7.
Definition MIE_MSIE : Z := Z.shiftl 1 3.

Definition r_mhartid : M hart Z := gets (fun h => csrs h Cmhartid).
Definition r_mstatus : M hart Z := gets (fun h => csrs h Cmstatus).
Definition w_mstatus (x : Z) : M hart unit := modify (set_csr Cmstatus x).
Definition w_mepc (x : Z) : M hart unit := modify (set_csr Cmepc x).
Definition r_sstatus : M hart Z := gets (fun h => csrs h Csstatus).
Definition w_sstatus (x : Z) : M hart unit := modify (set_csr Csstatus x).
Definition r_sip : M hart Z := gets (fun h => csrs h Csip).
Definition w_sip (x : Z) : M hart unit := modify (set_csr Csip x).
Definition r_sie : M hart Z := gets (fun h => csrs h Csie).
Definition w_sie (x : Z) : M hart unit := modify (set_csr Csie x).
Definition r_mie : M hart Z := gets (fun h => csrs h Cmie).
Definition w_mie (x : Z) : M hart unit := modify (set_csr Cmie x).
Definition w_sepc (x : Z) : M hart unit := modify (set_csr Csepc x).
Definition r_sepc : M hart Z := gets (fun h => csrs h Csepc).
Definition r_medeleg : M hart Z := gets (fun h => csrs h Cmedeleg).
Definition w_medeleg (x : Z) : M hart unit := modify (set_csr Cmedeleg x).
Definition r_mideleg : M hart Z := gets (fun h => csrs h Cmideleg).
Definition w_mideleg (x : Z) : M hart unit := modify (set_csr Cmideleg x).
Definition w_stvec (x : Z) : M hart unit := modify (set_csr Cstvec x).
Definition r_stvec : M hart Z := gets (fun h => csrs h Cstvec).
Definition w_mtvec (x : Z) : M hart unit := modify (set_csr Cmtvec x).
Definition w_satp (x : Z) : M hart unit := modify (set_csr Csatp x).
Definition r_satp : M hart Z := gets (fun h => csrs h Csatp).
Definition w_sscratch (x : Z) : M hart unit := modify (set_csr Csscratch x).
Definition w_mscratch (x : Z) : M hart unit := modify (set_csr Cmscratch x).
Definition r_scause : M hart Z := gets (fun h => csrs h Cscause).
Definition r_stval : M hart Z := gets (fun h => csrs h Cstval).
Definition w_mcounteren (x : Z) : M hart unit := modify (set_csr Cmcounteren x).
Definition r_mcounteren : M hart Z := gets (fun h => csrs h Cmcounteren).
Definition r_time : M hart Z := gets (fun h => csrs h Ctime).
Definition r_sp : M hart Z := gets (fun h => gpr h Xsp).
Definition r_tp : M hart Z := gets (fun h => gpr h Xtp).
Definition w_tp (x : Z) : M hart unit := modify (set_gpr Xtp x).
Definition r_ra : M hart Z := gets (fun h => gpr h Xra).
(** There is no TLB in the model to flush. *)
Definition sfence_vma : M hart unit := ret tt.

(** ** Instructions *)

Inductive instr :=
| Sd (rs : reg) (off : Z) (base : reg)
| Ld (rd : reg) (off : Z) (base : reg)
| Addi (rd rs : reg) (imm : Z)
| Add (rd rs1 rs2 : reg)
| Mul (rd rs1 rs2 : reg)
| Li (rd : reg) (imm : Z)
| Csrrw (rd : reg) (c : csr) (rs : reg)
| Csrr (rd : reg) (c : csr)
| Csrw (c : csr) (rs : reg)
| SfenceVma
| Jr (rs : reg)
| Ret
| Sret
| Mret.

(** [sret] goes to the mode in SPP and [sepc]; SIE becomes SPIE, SPIE one and
    SPP zero.  [mret] does the same one level up. *)
Definition do_sret (h : hart) : hart :=
  let s := csrs h Csstatus in
  let s1 := Z.lor (Z.land s (Z.lnot (Z.lor SSTATUS_SPP (Z.shiftl 1 1)))) SSTATUS_SPIE in
  let s2 := if truth (Z.land s SSTATUS_SPIE) then Z.lor s1 (Z.shiftl 1 1) else s1 in
  set_mode (if truth (Z.land s SSTATUS_SPP) then PrivS else PrivU)
    (set_pc (csrs h Csepc) (set_csr Csstatus s2 h)).
Definition mpp (s : Z) : priv :=
  let f := Z.land s MSTATUS_MPP_MASK in
  if f =? MSTATUS_MPP_M then PrivM else if f =? MSTATUS_MPP_S then PrivS else PrivU.
Definition do_mret (h : hart) : hart :=
  let s := csrs h Cmstatus in
  let s1 := Z.lor (Z.land s (Z.lnot (Z.lor MSTATUS_MPP_MASK MSTATUS_MIE))) (Z.shiftl 1 7) in
  let s2 := if truth (Z.land s (Z.shiftl 1 7)) then Z.lor s1 MSTATUS_MIE else s1 in
  set_mode (mpp s) (set_pc (csrs h Cmepc) (set_csr Cmstatus s2 h)).

(** A hart and the memory. *)
Record mach := Mach { hrt : hart; ram : gmap Z Z }.
Definition set_hrt (h : hart) (s : mach) : mach := Mach h (ram s).
Definition set_ram (m : gmap Z Z) (s : mach) : mach := Mach (hrt s) m.

Section exec.
(** [tr satp va]: the physical address of [va] under the page table of [satp],
    [None] for a page fault. *)
Context (tr : Z -> Z -> option Z).

Definition translate (h : hart) (va : Z) : option Z :=
  match mode h with PrivM => Some va | _ => tr (csrs h Csatp) va end.

Definition exec1 (i : instr) (s : mach) : option mach :=
  let h := hrt s in
  match i with
  | Sd rs off base =>
      a ← translate h (wrap64 (gpr h base + off)); Some (set_ram (store64 (ram s) a (gpr h rs)) s)
  | Ld rd off base =>
      a ← translate h (wrap64 (gpr h base + off)); Some (set_hrt (set_gpr rd (load64 (ram s) a) h) s)
  | Addi rd rs imm => Some (set_hrt (set_gpr rd (gpr h rs + imm) h) s)
  | Add rd rs1 rs2 => Some (set_hrt (set_gpr rd (gpr h rs1 + gpr h rs2) h) s)
  | Mul rd rs1 rs2 => Some (set_hrt (set_gpr rd (gpr h rs1 * gpr h rs2) h) s)
  | Li rd imm => Some (set_hrt (set_gpr rd imm h) s)
  | Csrrw rd c rs => Some (set_hrt (set_gpr rd (csrs h c) (set_csr c (gpr h rs) h)) s)
  | Csrr rd c => Some (set_hrt (set_gpr rd (csrs h c) h) s)
  | Csrw c rs => Some (set_hrt (set_csr c (gpr h rs) h) s)
  | SfenceVma => Some s
  | Jr rs => Some (set_hrt (set_pc (gpr h rs) h) s)
  | Ret => Some (set_hrt (set_pc (gpr h Xra) h) s)
  | Sret => Some (set_hrt (do_sret h) s)
  | Mret => Some (set_hrt (do_mret h) s)
  end.

Fixpoint run (l : list instr) (s : mach) : option mach :=
  match l with
  | [] => Some s
  | i :: l' => s' ← exec1 i s; run l' s'
  end.

Lemma run_cons i l s : run (i :: l) s = s' ← exec1 i s; run l s'.
Proof. done. Qed.

Lemma run_app l1 l2 s : run (l1 ++ l2) s = s' ← run l1 s; run l2 s'.
Proof. revert s. induction l1 as [|i l IH]; intros s; [done|]. simpl. destruct (exec1 i s); simpl; [apply IH|done]. Qed.
End exec.

(** ** kernel/swtch.S *)

Definition swtch : list instr := [
  Sd Xra 0 Xa0; Sd Xsp 8 Xa0; Sd Xs0 16 Xa0; Sd Xs1 24 Xa0; Sd Xs2 32 Xa0; Sd Xs3 40 Xa0; Sd Xs4 48 Xa0;
  Sd Xs5 56 Xa0; Sd Xs6 64 Xa0; Sd Xs7 72 Xa0; Sd Xs8 80 Xa0; Sd Xs9 88 Xa0; Sd Xs10 96 Xa0; Sd Xs11 104 Xa0;
  Ld Xra 0 Xa1; Ld Xsp 8 Xa1; Ld Xs0 16 Xa1; Ld Xs1 24 Xa1; Ld Xs2 32 Xa1; Ld Xs3 40 Xa1; Ld Xs4 48 Xa1;
  Ld Xs5 56 Xa1; Ld Xs6 64 Xa1; Ld Xs7 72 Xa1; Ld Xs8 80 Xa1; Ld Xs9 88 Xa1; Ld Xs10 96 Xa1; Ld Xs11 104 Xa1;
  Ret].

(** ** kernel/trampoline.S *)

Definition uservec : list instr := [
  Csrrw Xa0 Csscratch Xa0;
  Sd Xra 40 Xa0; Sd Xsp 48 Xa0; Sd Xgp 56 Xa0; Sd Xtp 64 Xa0; Sd Xt0 72 Xa0; Sd Xt1 80 Xa0; Sd Xt2 88 Xa0;
  Sd Xs0 96 Xa0; Sd Xs1 104 Xa0; Sd Xa1 120 Xa0; Sd Xa2 128 Xa0; Sd Xa3 136 Xa0; Sd Xa4 144 Xa0; Sd Xa5 152 Xa0;
  Sd Xa6 160 Xa0; Sd Xa7 168 Xa0; Sd Xs2 176 Xa0; Sd Xs3 184 Xa0; Sd Xs4 192 Xa0; Sd Xs5 200 Xa0; Sd Xs6 208 Xa0;
  Sd Xs7 216 Xa0; Sd Xs8 224 Xa0; Sd Xs9 232 Xa0; Sd Xs10 240 Xa0; Sd Xs11 248 Xa0; Sd Xt3 256 Xa0; Sd Xt4 264 Xa0;
  Sd Xt5 272 Xa0; Sd Xt6 280 Xa0;
  Csrr Xt0 Csscratch; Sd Xt0 112 Xa0;
  Ld Xsp 8 Xa0; Ld Xtp 32 Xa0; Ld Xt0 16 Xa0; Ld Xt1 0 Xa0;
  Csrw Csatp Xt1; SfenceVma; Jr Xt0].

Definition userret : list instr := [
  Csrw Csatp Xa1; SfenceVma; Ld Xt0 112 Xa0; Csrw Csscratch Xt0;
  Ld Xra 40 Xa0; Ld Xsp 48 Xa0; Ld Xgp 56 Xa0; Ld Xtp 64 Xa0; Ld Xt0 72 Xa0; Ld Xt1 80 Xa0; Ld Xt2 88 Xa0;
  Ld Xs0 96 Xa0; Ld Xs1 104 Xa0; Ld Xa1 120 Xa0; Ld Xa2 128 Xa0; Ld Xa3 136 Xa0; Ld Xa4 144 Xa0; Ld Xa5 152 Xa0;
  Ld Xa6 160 Xa0; Ld Xa7 168 Xa0; Ld Xs2 176 Xa0; Ld Xs3 184 Xa0; Ld Xs4 192 Xa0; Ld Xs5 200 Xa0; Ld Xs6 208 Xa0;
  Ld Xs7 216 Xa0; Ld Xs8 224 Xa0; Ld Xs9 232 Xa0; Ld Xs10 240 Xa0; Ld Xs11 248 Xa0; Ld Xt3 256 Xa0; Ld Xt4 264 Xa0;
  Ld Xt5 272 Xa0; Ld Xt6 280 Xa0;
  Csrrw Xa0 Csscratch Xa0; Sret].

(** ** kernel/kernelvec.S: before and after the call of [kerneltrap] *)

Definition kernelvec_save : list instr := [
  Addi Xsp Xsp (-256);
  Sd Xra 0 Xsp; Sd Xsp 8 Xsp; Sd Xgp 16 Xsp; Sd Xtp 24 Xsp; Sd Xt0 32 Xsp; Sd Xt1 40 Xsp; Sd Xt2 48 Xsp;
  Sd Xs0 56 Xsp; Sd Xs1 64 Xsp; Sd Xa0 72 Xsp; Sd Xa1 80 Xsp; Sd Xa2 88 Xsp; Sd Xa3 96 Xsp; Sd Xa4 104 Xsp;
  Sd Xa5 112 Xsp; Sd Xa6 120 Xsp; Sd Xa7 128 Xsp; Sd Xs2 136 Xsp; Sd Xs3 144 Xsp; Sd Xs4 152 Xsp; Sd Xs5 160 Xsp;
  Sd Xs6 168 Xsp; Sd Xs7 176 Xsp; Sd Xs8 184 Xsp; Sd Xs9 192 Xsp; Sd Xs10 200 Xsp; Sd Xs11 208 Xsp;
  Sd Xt3 216 Xsp; Sd Xt4 224 Xsp; Sd Xt5 232 Xsp; Sd Xt6 240 Xsp].
Definition kernelvec_restore : list instr := [
  Ld Xra 0 Xsp; Ld Xsp 8 Xsp; Ld Xgp 16 Xsp; Ld Xt0 32 Xsp; Ld Xt1 40 Xsp; Ld Xt2 48 Xsp;
  Ld Xs0 56 Xsp; Ld Xs1 64 Xsp; Ld Xa0 72 Xsp; Ld Xa1 80 Xsp; Ld Xa2 88 Xsp; Ld Xa3 96 Xsp; Ld Xa4 104 Xsp;
  Ld Xa5 112 Xsp; Ld Xa6 120 Xsp; Ld Xa7 128 Xsp; Ld Xs2 136 Xsp; Ld Xs3 144 Xsp; Ld Xs4 152 Xsp; Ld Xs5 160 Xsp;
  Ld Xs6 168 Xsp; Ld Xs7 176 Xsp; Ld Xs8 184 Xsp; Ld Xs9 192 Xsp; Ld Xs10 200 Xsp; Ld Xs11 208 Xsp;
  Ld Xt3 216 Xsp; Ld Xt4 224 Xsp; Ld Xt5 232 Xsp; Ld Xt6 240 Xsp;
  Addi Xsp Xsp 256; Sret].
Definition kernelvec (tr : Z -> Z -> option Z) (kerneltrap : mach -> option mach) (s : mach) : option mach :=
  s1 ← run tr kernelvec_save s; s2 ← kerneltrap s1; run tr kernelvec_restore s2.

Definition timervec : list instr := [
  Csrrw Xa0 Cmscratch Xa0; Sd Xa1 0 Xa0; Sd Xa2 8 Xa0; Sd Xa3 16 Xa0;
  Ld Xa1 32 Xa0; Ld Xa2 40 Xa0; Ld Xa3 0 Xa1; Add Xa3 Xa3 Xa2; Sd Xa3 0 Xa1;
  Li Xa1 2; Csrw Csip Xa1;
  Ld Xa3 16 Xa0; Ld Xa2 8 Xa0; Ld Xa1 0 Xa0; Csrrw Xa0 Cmscratch Xa0; Mret].

(** ** kernel/entry.S, up to the call of [start]; [stack0] is a symbol. *)
Definition entry (stack0 : Z) : list instr := [
  Li Xsp stack0; Li Xa0 (1024 * 4); Csrr Xa1 Cmhartid; Addi Xa1 Xa1 1; Mul Xa0 Xa0 Xa1; Add Xsp Xsp Xa0].
