(* ===== verification/HartProof.v ===== *)
(** * Saving and restoring registers

    What the assembly promises to the C code: a trap from user space and the
    return from it preserve every user register, [swtch] preserves the
    callee-saved ones, [kernelvec] all but [tp], and [timervec] all. *)

From S2P Require Import Prelude Riscv Memory Hart.

(** ** Blocks of stores and of loads *)

Definition sds (base : reg) (l : list (reg * Z)) : list instr := (fun '(r, o) => Sd r o base) <$> l.
Definition lds (base : reg) (l : list (reg * Z)) : list instr := (fun '(r, o) => Ld r o base) <$> l.

Definition saves (g : reg -> Z) (b : Z) (l : list (reg * Z)) (m : gmap Z Z) : gmap Z Z :=
  foldl (fun m '(r, o) => store64 m (b + o) (g r)) m l.
Definition loadregs (m : gmap Z Z) (b : Z) (l : list (reg * Z)) (h : hart) : hart :=
  foldl (fun h '(r, o) => set_gpr r (load64 m (b + o)) h) h l.

(** The slots follow each other from offset [k] on. *)
Fixpoint spaced (k : Z) (l : list (reg * Z)) : Prop :=
  match l with
  | [] => True
  | (_, o) :: l' => k <= o /\ spaced (o + 8) l'
  end.

Lemma spaced_weaken k k' l : k' <= k -> spaced k l -> spaced k' l.
Proof. destruct l as [|[r o] l]; simpl; [done|]. intros ? [? ?]. split; [lia|done]. Qed.

Lemma spaced_ge k l r o : spaced k l -> (r, o) ∈ l -> k <= o.
Proof.
  revert k. induction l as [|[r' o'] l IH]; intros k Hs Hin; [by apply not_elem_of_nil in Hin|].
  destruct Hs as [? Hs]. apply elem_of_cons in Hin as [[= -> ->]|Hin]; [done|]. apply IH in Hs; [lia|done].
Qed.

Lemma saves_out g b l m x :
  (forall r o, (r, o) ∈ l -> ~ (b + o <= x < b + o + 8)) -> load8 (saves g b l m) x = load8 m x.
Proof.
  revert m. induction l as [|[r o] l IH]; intros m H; [done|]. cbn [saves foldl]. fold (saves g b l (store64 m (b + o) (g r))).
  rewrite IH by (intros r' o' Hin; apply (H r' o'); by right). apply load8_store64_ne. apply (H r o). by left.
Qed.

Lemma saves_lookup g b l m k r o : spaced k l -> (r, o) ∈ l -> load64 (saves g b l m) (b + o) = wrap64 (g r).
Proof.
  revert k m. induction l as [|[r' o'] l IH]; intros k m Hs Hin; [by apply not_elem_of_nil in Hin|].
  destruct Hs as [_ Hs]. cbn [saves foldl]. fold (saves g b l (store64 m (b + o') (g r'))).
  apply elem_of_cons in Hin as [[= -> ->]|Hin]; [|by eapply IH].
  rewrite <- (load64_store64_eq m (b + o') (g r')). apply load64_ext. intros x Hx. apply saves_out.
  intros r o Hin. eapply spaced_ge in Hin; [|done]. lia.
Qed.

Lemma saves_other g b l m a :
  (forall r o, (r, o) ∈ l -> b + o + 8 <= a \/ a + 8 <= b + o) -> load64 (saves g b l m) a = load64 m a.
Proof. intros H. apply load64_ext. intros x Hx. apply saves_out. intros r o Hin. apply H in Hin. lia. Qed.

Lemma gpr_set_gpr r x h r' : gpr (set_gpr r x h) r' = if decide (r = r' /\ r <> Xzero) then wrap64 x else gpr h r'.
Proof.
  unfold set_gpr. cbn [gpr]. case_bool_decide as E; case_decide as D; try done; [by destruct D| |].
  - destruct D as [-> _]. apply fn_lookup_insert.
  - apply fn_lookup_insert_ne. intros ->. by destruct D.
Qed.

Lemma set_gpr_eq r x h : r <> Xzero -> 0 <= x < 2^64 -> gpr (set_gpr r x h) r = x.
Proof. intros. rewrite gpr_set_gpr, decide_True by done. by apply wrap64_small. Qed.
Lemma set_gpr_ne r x h r' : r <> r' -> gpr (set_gpr r x h) r' = gpr h r'.
Proof. intros H. rewrite gpr_set_gpr, decide_False; [done|]. by intros [? _]. Qed.

Lemma exec_ld tr rd off base h m a :
  translate tr h (wrap64 (gpr h base + off)) = Some a ->
  exec1 tr (Ld rd off base) (Mach h m) = Some (Mach (set_gpr rd (load64 m a) h) m).
Proof. intros H. cbn [exec1 hrt ram]. by rewrite H. Qed.
Lemma exec_sd tr rs off base h m a :
  translate tr h (wrap64 (gpr h base + off)) = Some a ->
  exec1 tr (Sd rs off base) (Mach h m) = Some (Mach h (store64 m a (gpr h rs))).
Proof. intros H. cbn [exec1 hrt ram]. by rewrite H. Qed.

Lemma loadregs_cons m b r o l h : loadregs m b ((r, o) :: l) h = loadregs m b l (set_gpr r (load64 m (b + o)) h).
Proof. done. Qed.

Lemma loadregs_csrs m b l h : csrs (loadregs m b l h) = csrs h.
Proof. revert h. induction l as [|[r o] l IH]; intros h; [done|]. by rewrite loadregs_cons, IH. Qed.
Lemma loadregs_mode m b l h : mode (loadregs m b l h) = mode h.
Proof. revert h. induction l as [|[r o] l IH]; intros h; [done|]. by rewrite loadregs_cons, IH. Qed.

Lemma loadregs_other m b l h r : r ∉ l.*1 -> gpr (loadregs m b l h) r = gpr h r.
Proof.
  revert h. induction l as [|[r' o] l IH]; intros h Hr; [done|]. rewrite loadregs_cons, IH by set_solver.
  rewrite gpr_set_gpr, decide_False; [done|]. intros [-> _]. set_solver.
Qed.

Lemma loadregs_lookup m b l h r o :
  NoDup l.*1 -> (r, o) ∈ l -> r <> Xzero -> gpr (loadregs m b l h) r = wrap64 (load64 m (b + o)).
Proof.
  revert h. induction l as [|[r' o'] l IH]; intros h Hnd Hin Hz; [by apply not_elem_of_nil in Hin|].
  cbn [fmap list_fmap fst] in Hnd. apply NoDup_cons in Hnd as [Hni Hnd]. rewrite loadregs_cons.
  apply elem_of_cons in Hin as [[= -> ->]|Hin].
  - rewrite loadregs_other by done.
    by rewrite gpr_set_gpr, decide_True.
  - by apply IH.
Qed.

Section run.
Context (tr : Z -> Z -> option Z).

Lemma run_sds base l h m b :
  (forall r o, (r, o) ∈ l -> translate tr h (wrap64 (gpr h base + o)) = Some (b + o)) ->
  run tr (sds base l) (Mach h m) = Some (Mach h (saves (gpr h) b l m)).
Proof.
  revert m. induction l as [|[r o] l IH]; intros m H; [done|]. cbn [sds fmap list_fmap run exec1 hrt ram].
  rewrite (H r o) by (by left). simpl. apply IH. intros r' o' Hin. apply (H r'). by right.
Qed.

Lemma run_lds base l h m b :
  (forall r o, (r, o) ∈ l -> translate tr h (wrap64 (gpr h base + o)) = Some (b + o)) ->
  (forall o, (base, o) ∈ l -> wrap64 (load64 m (b + o)) = gpr h base) ->
  run tr (lds base l) (Mach h m) = Some (Mach (loadregs m b l h) m).
Proof.
  revert h. induction l as [|[r o] l IH]; intros h H Hb; [done|]. cbn [lds fmap list_fmap run exec1 hrt ram].
  rewrite (H r o) by (by left). cbn [mbind option_bind set_hrt ram]. set (h' := set_gpr r (load64 m (b + o)) h).
  assert (gpr h' base = gpr h base) as Eb.
  { unfold h'. rewrite gpr_set_gpr. case_decide as D; [|done]. destruct D as [-> _]. apply Hb. by left. }
  apply IH.
  - intros r' o' Hin. rewrite Eb. apply (H r'). by right.
  - intros o' Hin. rewrite Eb. apply Hb. by right.
Qed.
End run.

(** ** Traps from user space *)

Definition ulist : list (reg * Z) := [
  (Xra, 40); (Xsp, 48); (Xgp, 56); (Xtp, 64); (Xt0, 72); (Xt1, 80); (Xt2, 88); (Xs0, 96); (Xs1, 104);
  (Xa1, 120); (Xa2, 128); (Xa3, 136); (Xa4, 144); (Xa5, 152); (Xa6, 160); (Xa7, 168); (Xs2, 176); (Xs3, 184);
  (Xs4, 192); (Xs5, 200); (Xs6, 208); (Xs7, 216); (Xs8, 224); (Xs9, 232); (Xs10, 240); (Xs11, 248);
  (Xt3, 256); (Xt4, 264); (Xt5, 272); (Xt6, 280)].

(** The field of [struct trapframe] for a register (kernel/proc.h). *)
Definition tf_slot (r : reg) : Z :=
  match r with
  | Xzero => 0 | Xra => 40 | Xsp => 48 | Xgp => 56 | Xtp => 64 | Xt0 => 72 | Xt1 => 80 | Xt2 => 88 | Xs0 => 96 | Xs1 => 104
  | Xa0 => 112 | Xa1 => 120 | Xa2 => 128 | Xa3 => 136 | Xa4 => 144 | Xa5 => 152 | Xa6 => 160 | Xa7 => 168
  | Xs2 => 176 | Xs3 => 184 | Xs4 => 192 | Xs5 => 200 | Xs6 => 208 | Xs7 => 216 | Xs8 => 224 | Xs9 => 232 | Xs10 => 240
  | Xs11 => 248 | Xt3 => 256 | Xt4 => 264 | Xt5 => 272 | Xt6 => 280
  end.

Lemma ulist_slot r : r <> Xzero -> r <> Xa0 -> (r, tf_slot r) ∈ ulist.
Proof. destruct r; intros ? ?; try done; apply (bool_decide_unpack _); by vm_compute. Qed.

Lemma ulist_spaced : spaced 40 ulist.
Proof. simpl. lia. Qed.

Lemma ulist_range r o : (r, o) ∈ ulist -> 40 <= o < 288 /\ (o < 112 \/ 120 <= o) /\ (o + 8 <= 112 \/ 120 <= o) /\ o + 8 <= 288.
Proof.
  intros H. assert (Forall (fun p => 40 <= p.2 < 288 /\ (p.2 < 112 \/ 120 <= p.2) /\ (p.2 + 8 <= 112 \/ 120 <= p.2) /\ p.2 + 8 <= 288) ulist) as HF
    by (apply (bool_decide_unpack _); by vm_compute).
  rewrite Forall_forall in HF. by apply (HF (r, o)).
Qed.

Lemma ulist_nodup : NoDup ulist.*1.
Proof. apply (bool_decide_unpack _). by vm_compute. Qed.

Lemma ulist_no_a0 : Xa0 ∉ ulist.*1.
Proof. apply (bool_decide_unpack _). by vm_compute. Qed.

Definition words (h : hart) : Prop := (forall r, 0 <= gpr h r < 2^64) /\ (forall c, 0 <= csrs h c < 2^64).

Lemma set_gpr_words r x h : words h -> words (set_gpr r x h).
Proof.
  intros [Hg Hc]. split; [|done]. intros r'. rewrite gpr_set_gpr. case_decide; [|done]. unfold wrap64. apply Z.mod_pos_bound. lia.
Qed.

Section trap.
Context (tr : Z -> Z -> option Z).

(** [tf] is the physical page that the page table [us] maps at TRAPFRAME. *)
Definition maps_tf (us tf : Z) : Prop := forall o, 0 <= o < PGSIZE -> tr us (TRAPFRAME + o) = Some (tf + o).

Lemma tf_wrap o : 0 <= o < PGSIZE -> wrap64 (TRAPFRAME + o) = TRAPFRAME + o.
Proof. intros H. unfold PGSIZE in *. apply wrap64_small. change TRAPFRAME with 274877898752. lia. Qed.

Lemma tf_translate h us tf base o :
  maps_tf us tf -> csrs h Csatp = us -> mode h = PrivS -> gpr h base = TRAPFRAME -> 0 <= o < PGSIZE ->
  translate tr h (wrap64 (gpr h base + o)) = Some (tf + o).
Proof. intros Hm Hs Hmo Hb Ho. unfold translate. rewrite Hmo, Hb, Hs, tf_wrap by done. by apply Hm. Qed.

(** What the trampoline leaves for [usertrap]. *)
Record entered (h : hart) (m : gmap Z Z) (tf : Z) (h1 : hart) (m1 : gmap Z Z) : Prop := {
  en_saved : forall r, r <> Xzero -> load64 m1 (tf + tf_slot r) = gpr h r;
  en_frame : forall x, ~ (tf + 40 <= x < tf + 288) -> load8 m1 x = load8 m x;
  en_sp : gpr h1 Xsp = load64 m (tf + 8);
  en_tp : gpr h1 Xtp = load64 m (tf + 32);
  en_pc : pc h1 = load64 m (tf + 16);
  en_satp : csrs h1 Csatp = load64 m tf;
  en_mode : mode h1 = mode h;
}.

Lemma uservec_run h m us tf :
  maps_tf us tf -> words h -> mem_wf m -> mode h = PrivS -> csrs h Csatp = us -> csrs h Csscratch = TRAPFRAME ->
  exists h1 m1, run tr uservec (Mach h m) = Some (Mach h1 m1) /\ entered h m tf h1 m1.
Proof.
  intros Hm [Hg Hc] Hw Hmo Hs Hsc.
  set (h0 := set_gpr Xa0 TRAPFRAME (set_csr Csscratch (gpr h Xa0) h)).
  assert (forall r, r <> Xa0 -> gpr h0 r = gpr h r) as G0.
  { intros r Hr. unfold h0. rewrite gpr_set_gpr, decide_False; [done|]. intros [E _]. by apply Hr. }
  assert (gpr h0 Xa0 = TRAPFRAME) as A0 by (unfold h0; by rewrite gpr_set_gpr, decide_True).
  assert (csrs h0 Csscratch = gpr h Xa0) as S0 by (unfold h0; cbn; rewrite fn_lookup_insert; by apply wrap64_small).
  set (m0 := saves (gpr h0) tf ulist m). set (h2 := set_gpr Xt0 (gpr h Xa0) h0).
  set (m1 := store64 m0 (tf + 112) (gpr h Xa0)). set (kl := [(Xsp, 8); (Xtp, 32); (Xt0, 16); (Xt1, 0)] : list (reg * Z)).
  assert (Forall (fun p => 0 <= p.2 <= 32 /\ p.1 <> Xa0) kl) as Hkl by (apply (bool_decide_unpack _); by vm_compute).
  rewrite Forall_forall in Hkl. assert (gpr h2 Xa0 = TRAPFRAME /\ gpr h2 Xt0 = gpr h Xa0) as [A2 T2].
  { unfold h2. rewrite !gpr_set_gpr. split; [done|]. rewrite decide_True by done. by apply wrap64_small. }
  exists (set_pc (gpr (loadregs m1 tf kl h2) Xt0) (set_csr Csatp (gpr (loadregs m1 tf kl h2) Xt1) (loadregs m1 tf kl h2))), m1. split.
  - change uservec with ([Csrrw Xa0 Csscratch Xa0] ++ sds Xa0 ulist ++ [Csrr Xt0 Csscratch; Sd Xt0 112 Xa0] ++ lds Xa0 kl ++
      [Csrw Csatp Xt1; SfenceVma; Jr Xt0]).
    rewrite run_app. cbn [run exec1 hrt mbind option_bind]. rewrite Hsc. fold h0. unfold set_hrt. cbn [ram].
    rewrite run_app, (run_sds tr _ _ _ _ tf).
    2: { intros r o Hin%ulist_range. by eapply tf_translate; [done|done|done|done|unfold PGSIZE; lia]. }
    cbn [mbind option_bind]. rewrite run_app. cbn [run exec1 hrt ram mbind option_bind]. unfold set_hrt. cbn [hrt ram]. rewrite S0. fold m0 h2.
    rewrite (tf_translate h2 us tf) by (done || (unfold PGSIZE; lia)). cbn [mbind option_bind]. unfold set_ram. cbn [hrt ram]. rewrite T2. fold m1.
    rewrite run_app, (run_lds tr _ _ _ _ tf); [done| |].
    + intros r o Hin%Hkl. eapply tf_translate; [done|done|done|done|]. simpl in Hin. unfold PGSIZE. lia.
    + by intros o [_ ?]%Hkl.
  - assert (NoDup kl.*1) as Hkn by (apply (bool_decide_unpack _); by vm_compute).
    assert (forall o, 0 <= o <= 32 -> load64 m1 (tf + o) = load64 m (tf + o)) as Hk.
    { intros o Ho. unfold m1, m0. rewrite load64_store64_ne by lia. apply saves_other. intros r o' Hin%ulist_range. lia. }
    assert (forall r o, (r, o) ∈ kl -> r <> Xzero -> 0 <= o <= 32 -> gpr (loadregs m1 tf kl h2) r = load64 m (tf + o)) as HL.
    { intros r o Hin Hz Ho. rewrite (loadregs_lookup _ _ _ _ r o), Hk by done. by apply wrap64_small, load64_range. }
    constructor.
    + intros r Hz. destruct (decide (r = Xa0)) as [->|Ha].
      * unfold m1. change (tf_slot Xa0) with 112. rewrite load64_store64_eq. by apply wrap64_small.
      * pose proof (ulist_slot r Hz Ha) as Hin. unfold m1. rewrite load64_store64_ne by (apply ulist_range in Hin; lia).
        unfold m0. rewrite (saves_lookup _ _ _ _ 40 r) by first [exact ulist_spaced|exact Hin]. rewrite G0 by done. by apply wrap64_small.
    + intros x Hx. unfold m1, m0. rewrite load8_store64_ne by lia. apply saves_out. intros r o Hin%ulist_range. lia.
    + apply (HL Xsp 8); [by repeat constructor|done|lia].
    + apply (HL Xtp 32); [by repeat constructor|done|lia].
    + apply (HL Xt0 16); [by repeat constructor|done|lia].
    + unfold set_pc, set_csr. cbn [csrs]. rewrite fn_lookup_insert. rewrite (HL Xt1 0) by first [by repeat constructor|lia|done]. rewrite Z.add_0_r.
      by apply wrap64_small, load64_range.
    + unfold set_pc, set_csr. cbn [mode]. by rewrite loadregs_mode.
Qed.

(** What the return to user space makes of a trapframe. *)
Record left (h2 : hart) (m2 : gmap Z Z) (us tf : Z) (h3 : hart) : Prop := {
  lf_regs : forall r, r <> Xzero -> gpr h3 r = load64 m2 (tf + tf_slot r);
  lf_pc : pc h3 = csrs h2 Csepc;
  lf_mode : mode h3 = if truth (Z.land (csrs h2 Csstatus) SSTATUS_SPP) then PrivS else PrivU;
  lf_satp : csrs h3 Csatp = us;
  lf_scratch : csrs h3 Csscratch = TRAPFRAME;
}.

Lemma userret_run h m us tf :
  maps_tf us tf -> words h -> mem_wf m -> mode h = PrivS -> gpr h Xa0 = TRAPFRAME -> gpr h Xa1 = us ->
  exists h3, run tr userret (Mach h m) = Some (Mach h3 m) /\ left h m us tf h3.
Proof.
  intros Hm [Hg Hc] Hw Hmo Ha0 Ha1. assert (0 <= us < 2^64) as Hus by (rewrite <- Ha1; apply Hg).
  set (h0 := set_csr Csatp us h). set (v := load64 m (tf + 112)). assert (0 <= v < 2^64) as Hv by (by apply load64_range).
  assert (csrs h0 Csatp = us) as S0 by (unfold h0, set_csr; cbn [csrs]; rewrite fn_lookup_insert; by apply wrap64_small).
  set (h1 := set_csr Csscratch v (set_gpr Xt0 v h0)). set (h2 := loadregs m tf ulist h1).
  assert (gpr h1 Xa0 = TRAPFRAME) as A1 by (unfold h1, h0; cbn [gpr set_csr]; rewrite gpr_set_gpr; done).
  assert (csrs h1 Csatp = us) as S1 by done.
  assert (csrs h1 Csscratch = v) as C1 by (unfold h1, set_csr; cbn [csrs]; rewrite fn_lookup_insert; by apply wrap64_small).
  assert (csrs h2 = csrs h1) as E2 by apply loadregs_csrs.
  assert (gpr h2 Xa0 = TRAPFRAME) as A2 by (unfold h2; rewrite loadregs_other by apply ulist_no_a0; done).
  set (h3 := set_gpr Xa0 v (set_csr Csscratch TRAPFRAME h2)).
  exists (do_sret h3). split.
  - change userret with ([Csrw Csatp Xa1; SfenceVma; Ld Xt0 112 Xa0; Csrw Csscratch Xt0] ++ lds Xa0 ulist ++ [Csrrw Xa0 Csscratch Xa0; Sret]).
    rewrite run_app. cbn [run exec1 hrt mbind option_bind]. unfold set_hrt. cbn [hrt ram]. rewrite Ha1. fold h0.
    rewrite (tf_translate h0 us tf) by (done || (unfold PGSIZE; lia)). cbn [mbind option_bind hrt ram]. fold v.
    replace (gpr (set_gpr Xt0 v h0) Xt0) with v by (rewrite gpr_set_gpr, decide_True by done; symmetry; by apply wrap64_small).
    fold h1. rewrite run_app, (run_lds tr _ _ _ _ tf).
    + cbn [run exec1 hrt mbind option_bind]. fold h2. rewrite A2, E2, C1. done.
    + intros r o Hin%ulist_range. by eapply tf_translate; [done|done|done|done|unfold PGSIZE; lia].
    + intros o Hin. destruct ulist_no_a0. by apply (list_elem_of_fmap_2 fst) in Hin.
  - constructor.
    + intros r Hz. change (gpr (do_sret h3)) with (gpr h3). unfold h3. rewrite gpr_set_gpr. case_decide as D.
      * destruct D as [<- _]. by apply wrap64_small.
      * destruct (decide (r = Xa0)) as [->|Hr]; [by destruct D|]. change (gpr (set_csr Csscratch TRAPFRAME h2)) with (gpr h2).
        unfold h2. rewrite (loadregs_lookup _ _ _ _ r (tf_slot r)) by first [exact ulist_nodup|by apply ulist_slot|exact Hz].
        by apply wrap64_small, load64_range.
    + unfold do_sret, h3. cbn. change (csrs h2 Csepc = csrs h Csepc). by rewrite E2.
    + unfold do_sret, set_mode. cbn [mode]. change (csrs h3 Csstatus) with (csrs h2 Csstatus). by rewrite E2.
    + change (csrs h2 Csatp = us). by rewrite E2.
    + done.
Qed.

End trap.

(** ** Context switches *)

Definition clist : list (reg * Z) := [
  (Xra, 0); (Xsp, 8); (Xs0, 16); (Xs1, 24); (Xs2, 32); (Xs3, 40); (Xs4, 48); (Xs5, 56); (Xs6, 64); (Xs7, 72);
  (Xs8, 80); (Xs9, 88); (Xs10, 96); (Xs11, 104)].

Lemma clist_facts : spaced 0 clist /\ NoDup clist.*1 /\ Forall (fun p => 0 <= p.2 /\ p.2 + 8 <= 112 /\ p.1 <> Xa0 /\ p.1 <> Xa1 /\ p.1 <> Xzero) clist.
Proof. split; [simpl; lia|]. split; apply (bool_decide_unpack _); by vm_compute. Qed.

Section swtch.
Context (tr : Z -> Z -> option Z).

(** [struct context] at [c]: kernel memory is mapped one to one. *)
Definition maps_ctx (h : hart) (c : Z) : Prop :=
  0 <= c /\ c + 112 <= 2^64 /\ mode h = PrivS /\ forall o, 0 <= o < 112 -> tr (csrs h Csatp) (c + o) = Some (c + o).

(** After [swtch(old, new)]: the callee-saved registers are in [old], and
    have the values of [new]. *)
Record switched (h : hart) (m : gmap Z Z) (old new : Z) (h1 : hart) (m1 : gmap Z Z) : Prop := {
  sw_saved : forall r o, (r, o) ∈ clist -> load64 m1 (old + o) = gpr h r;
  sw_loaded : forall r o, (r, o) ∈ clist -> gpr h1 r = load64 m (new + o);
  sw_pc : pc h1 = load64 m new;
  sw_frame : forall x, ~ (old <= x < old + 112) -> load8 m1 x = load8 m x;
}.

Lemma ctx_translate h c base r o :
  maps_ctx h c -> gpr h base = c -> (r, o) ∈ clist -> translate tr h (wrap64 (gpr h base + o)) = Some (c + o).
Proof.
  intros (H0 & H1 & Hmo & Ht) Hb Hin. destruct clist_facts as (_ & _ & HF). rewrite Forall_forall in HF.
  destruct (HF _ Hin) as (? & ? & _). simpl in *. unfold translate. rewrite Hmo, Hb, wrap64_small by lia. apply Ht. lia.
Qed.

Lemma swtch_run h m old new :
  words h -> mem_wf m -> gpr h Xa0 = old -> gpr h Xa1 = new -> maps_ctx h old -> maps_ctx h new ->
  old + 112 <= new \/ new + 112 <= old ->
  exists h1 m1, run tr swtch (Mach h m) = Some (Mach h1 m1) /\ switched h m old new h1 m1.
Proof.
  intros [Hg Hc] Hw H0 H1 Ho Hn Hd. destruct clist_facts as (Hsp & Hnd & HF). rewrite Forall_forall in HF.
  set (m1 := saves (gpr h) old clist m). set (h1 := loadregs m1 new clist h).
  assert (forall r o, (r, o) ∈ clist -> load64 m1 (new + o) = load64 m (new + o)) as Hnew.
  { intros r o Hin. apply saves_other. intros r' o' Hin'. destruct (HF _ Hin) as (? & ? & _), (HF _ Hin') as (? & ? & _). simpl in *. lia. }
  assert (forall r o, (r, o) ∈ clist -> gpr h1 r = load64 m (new + o)) as Hld.
  { intros r o Hin. unfold h1. rewrite (loadregs_lookup _ _ _ _ r o) by (exact Hnd || exact Hin || apply (HF _ Hin)).
    rewrite (Hnew r o Hin). by apply wrap64_small, load64_range. }
  exists (set_pc (gpr h1 Xra) h1), m1. split.
  - change swtch with (sds Xa0 clist ++ lds Xa1 clist ++ [Ret]). rewrite run_app, (run_sds tr _ _ _ _ old).
    2: { intros r o Hin. by eapply ctx_translate. }
    cbn [mbind option_bind]. rewrite run_app, (run_lds tr _ _ _ _ new); [done| |].
    + intros r o Hin. by eapply ctx_translate.
    + intros o Hin. destruct (HF _ Hin) as (_ & _ & _ & ? & _). done.
  - constructor.
    + intros r o Hin. unfold m1. rewrite (saves_lookup _ _ _ _ 0 r o) by (exact Hsp || exact Hin). by apply wrap64_small.
    + done.
    + change (gpr h1 Xra = load64 m new). rewrite <- (Z.add_0_r new). apply Hld. by left.
    + intros x Hx. apply saves_out. intros r o Hin. destruct (HF _ Hin) as (? & ? & _). simpl in *. lia.
Qed.

(** A kernel thread that called [swtch] and is switched to again later
    continues where it was, with all its callee-saved registers, whatever ran
    in between, as long as its context was not overwritten. *)
Theorem swtch_resumes h m old new :
  words h -> mem_wf m -> gpr h Xa0 = old -> gpr h Xa1 = new -> maps_ctx h old -> maps_ctx h new ->
  old + 112 <= new \/ new + 112 <= old ->
  exists h1 m1, run tr swtch (Mach h m) = Some (Mach h1 m1) /\ switched h m old new h1 m1 /\
    forall h2 m2 c, words h2 -> mem_wf m2 -> gpr h2 Xa0 = c -> gpr h2 Xa1 = old -> maps_ctx h2 c -> maps_ctx h2 old ->
      c + 112 <= old \/ old + 112 <= c -> (forall x, old <= x < old + 112 -> load8 m2 x = load8 m1 x) ->
      exists h3 m3, run tr swtch (Mach h2 m2) = Some (Mach h3 m3) /\ pc h3 = gpr h Xra /\
        forall r, r ∈ [Xra; Xsp; Xs0; Xs1; Xs2; Xs3; Xs4; Xs5; Xs6; Xs7; Xs8; Xs9; Xs10; Xs11] -> gpr h3 r = gpr h r.
Proof.
  intros Hh Hw H0 H1 Ho Hn Hd. destruct (swtch_run h m old new) as (h1 & m1 & E & S1); try done.
  exists h1, m1. split; [done|]. split; [done|]. intros h2 m2 c Hh2 Hw2 Hc Hold Hmc Hmo Hdc Hsame.
  destruct (swtch_run h2 m2 c old) as (h3 & m3 & E3 & S3); try done. exists h3, m3. split; [done|].
  destruct clist_facts as (_ & _ & HF). rewrite Forall_forall in HF.
  assert (forall r o, (r, o) ∈ clist -> load64 m2 (old + o) = gpr h r) as Hload.
  { intros r o Hin. rewrite <- (sw_saved _ _ _ _ _ _ S1 r o Hin). apply load64_ext. intros x Hx. apply Hsame.
    destruct (HF _ Hin) as (? & ? & _). simpl in *. lia. }
  split.
  - rewrite (sw_pc _ _ _ _ _ _ S3), <- (Z.add_0_r old). apply Hload. by left.
  - intros r Hr. change ((fun r => r ∈ clist.*1) r) in Hr. apply list_elem_of_fmap in Hr as ([r' o] & -> & Hin).
    cbn [fst]. rewrite (sw_loaded _ _ _ _ _ _ S3 r' o Hin). by apply Hload.
Qed.
End swtch.

(** ** Interrupts in the kernel *)

Definition klist : list (reg * Z) := [
  (Xra, 0); (Xsp, 8); (Xgp, 16); (Xtp, 24); (Xt0, 32); (Xt1, 40); (Xt2, 48); (Xs0, 56); (Xs1, 64); (Xa0, 72); (Xa1, 80);
  (Xa2, 88); (Xa3, 96); (Xa4, 104); (Xa5, 112); (Xa6, 120); (Xa7, 128); (Xs2, 136); (Xs3, 144); (Xs4, 152); (Xs5, 160);
  (Xs6, 168); (Xs7, 176); (Xs8, 184); (Xs9, 192); (Xs10, 200); (Xs11, 208); (Xt3, 216); (Xt4, 224); (Xt5, 232); (Xt6, 240)].
(** [tp] is not restored. *)
Definition krestore : list (reg * Z) := filter (fun p => p.1 <> Xtp) klist.

Lemma klist_facts : spaced 0 klist /\ Forall (fun p => 0 <= p.2 /\ p.2 + 8 <= 248) klist.
Proof. split; [simpl; lia|]. apply (bool_decide_unpack _). by vm_compute. Qed.

Lemma krestore_facts : NoDup krestore.*1 /\ Forall (fun p => p ∈ klist /\ p.1 <> Xzero /\ p.1 <> Xtp) krestore /\ (Xsp, 8) ∈ krestore /\
  (forall r, r <> Xzero -> r <> Xtp -> exists o, (r, o) ∈ krestore).
Proof.
  split; [|split; [|split]]; [apply (bool_decide_unpack _); by vm_compute..|].
  intros r Hz Ht. assert (r ∈ krestore.*1) as ([r' o] & -> & Hin)%list_elem_of_fmap; [|by exists o].
  destruct r; try done; apply (bool_decide_unpack _); by vm_compute.
Qed.

Section kernelvec.
Context (tr : Z -> Z -> option Z) (kerneltrap : mach -> option mach).

(** What [kernelvec] relies on: the C function returns with the stack pointer,
    the page table and the frame as they were. *)
Definition returns_to (b : Z) (s1 s2 : mach) : Prop :=
  gpr (hrt s2) Xsp = b /\ mode (hrt s2) = PrivS /\ csrs (hrt s2) Csatp = csrs (hrt s1) Csatp /\ words (hrt s2) /\ mem_wf (ram s2) /\
  forall x, b <= x < b + 256 -> load8 (ram s2) x = load8 (ram s1) x.

Definition maps_frame (h : hart) (b : Z) : Prop :=
  0 <= b /\ b + 256 < 2^64 /\ mode h = PrivS /\ forall o, 0 <= o < 256 -> tr (csrs h Csatp) (b + o) = Some (b + o).

Lemma frame_translate h b r o :
  0 <= b -> b + 256 < 2^64 -> mode h = PrivS -> (forall o, 0 <= o < 256 -> tr (csrs h Csatp) (b + o) = Some (b + o)) ->
  gpr h Xsp = b -> (r, o) ∈ klist -> translate tr h (wrap64 (gpr h Xsp + o)) = Some (b + o).
Proof.
  intros H0 H1 Hmo Ht Hb Hin. destruct klist_facts as (_ & HF). rewrite Forall_forall in HF.
  destruct (HF _ Hin) as (? & ?). simpl in *. unfold translate. rewrite Hmo, Hb, wrap64_small by lia. apply Ht. lia.
Qed.

(** The state in which [kerneltrap] is called. *)
Definition kv_saved (h : hart) (m : gmap Z Z) (b : Z) : mach :=
  let h0 := set_gpr Xsp b h in Mach h0 (saves (gpr h0) b klist m).

Lemma kernelvec_save_run h m b :
  words h -> maps_frame h b -> gpr h Xsp = b + 256 -> run tr kernelvec_save (Mach h m) = Some (kv_saved h m b).
Proof.
  intros Hh (H0 & H1 & Hmo & Ht) Hsp. change kernelvec_save with ([Addi Xsp Xsp (-256)] ++ sds Xsp klist).
  rewrite run_app. cbn [run exec1 hrt mbind option_bind]. unfold set_hrt. cbn [ram]. rewrite Hsp.
  replace (b + 256 + -256) with b by lia. apply run_sds. intros r o Hin.
  eapply frame_translate; try done. rewrite gpr_set_gpr, decide_True by done. apply wrap64_small. lia.
Qed.

(** An interrupt in the kernel is transparent: when [kerneltrap] returns,
    [kernelvec] continues the interrupted code with every register but [tp]
    as it was. *)
Theorem kernelvec_transparent h m b s2 :
  words h -> maps_frame h b -> gpr h Xsp = b + 256 -> kerneltrap (kv_saved h m b) = Some s2 -> returns_to b (kv_saved h m b) s2 ->
  exists s3, kernelvec tr kerneltrap (Mach h m) = Some s3 /\ pc (hrt s3) = csrs (hrt s2) Csepc /\ ram s3 = ram s2 /\
    (forall r, r <> Xzero -> r <> Xtp -> gpr (hrt s3) r = gpr h r) /\ gpr (hrt s3) Xtp = gpr (hrt s2) Xtp.
Proof.
  intros Hh Hf Hsp Ek (Esp & Emo & Esa & Hh2 & Hw2 & Hfr). unfold kernelvec. rewrite (kernelvec_save_run h m b) by done.
  cbn [mbind option_bind]. rewrite Ek. cbn [mbind option_bind]. destruct Hf as (H0 & H1 & Hmo & Ht). destruct s2 as [h2 m2]. cbn [hrt ram] in *.
  destruct klist_facts as [Hspc HF], krestore_facts as (Hnd & HR & Hin8 & Hall). rewrite Forall_forall in HF, HR.
  set (h0 := set_gpr Xsp b h) in *.
  assert (gpr h0 Xsp = b) as E0 by (unfold h0; rewrite gpr_set_gpr, decide_True by done; apply wrap64_small; lia).
  assert (forall r o, (r, o) ∈ klist -> load64 m2 (b + o) = gpr h0 r) as Hld.
  { intros r o Hin. rewrite (load64_ext (saves (gpr h0) b klist m)).
    - rewrite (saves_lookup _ _ _ _ 0 r o) by (exact Hspc || exact Hin). apply wrap64_small. by apply (set_gpr_words Xsp b).
    - intros x Hx. apply Hfr. destruct (HF _ Hin). simpl in *. lia. }
  set (h3 := loadregs m2 b krestore h2).
  assert (forall r o, (r, o) ∈ krestore -> gpr h3 r = gpr h0 r) as H3.
  { intros r o Hin. destruct (HR _ Hin) as (Hk & Hz & _). unfold h3.
    rewrite (loadregs_lookup _ _ _ _ r o) by (exact Hnd || exact Hin || exact Hz). rewrite (Hld r o Hk).
    apply wrap64_small. by apply (set_gpr_words Xsp b). }
  exists (Mach (do_sret (set_gpr Xsp (b + 256) h3)) m2). split; [|split; [|split; [done|split]]].
  - change kernelvec_restore with (lds Xsp krestore ++ [Addi Xsp Xsp 256; Sret]). rewrite run_app, (run_lds tr _ _ _ _ b).
    + cbn [mbind option_bind run exec1 hrt]. unfold set_hrt. cbn [ram hrt]. fold h3. by rewrite (H3 Xsp 8), E0 by done.
    + intros r o Hin. destruct (HR _ Hin) as (Hk & _). eapply frame_translate; try done. by rewrite Esa.
    + intros o Hin. destruct (HR _ Hin) as (Hk & _). rewrite (Hld _ _ Hk), E0, Esp. apply wrap64_small. lia.
  - change (csrs h3 Csepc = csrs h2 Csepc). unfold h3. by rewrite loadregs_csrs.
  - intros r Hz Ht'. change (gpr (set_gpr Xsp (b + 256) h3) r = gpr h r). rewrite gpr_set_gpr. case_decide as D.
    + destruct D as [<- _]. rewrite Hsp. apply wrap64_small. lia.
    + destruct (Hall r Hz Ht') as [o Ho]. rewrite (H3 r o Ho). unfold h0. rewrite gpr_set_gpr, decide_False; [done|].
      intros [E _]. by apply D.
  - change (gpr (set_gpr Xsp (b + 256) h3) Xtp = gpr h2 Xtp). rewrite gpr_set_gpr, decide_False by (by intros [? _]).
    apply loadregs_other. apply (bool_decide_unpack _). by vm_compute.
Qed.
End kernelvec.

(** The machine-mode timer interrupt is invisible to the code it
    interrupts: [timervec] leaves every register and [mscratch] as they were,
    moves the hart's [mtimecmp] on by the interval, posts a supervisor software
    interrupt, and changes no memory but its scratch area. *)
Theorem timervec_transparent tr h m :
  let sc := csrs h Cmscratch in
  let mtimecmp := load64 m (sc + 32) in
  words h -> mem_wf m -> mode h = PrivM -> sc + 48 <= 2^64 ->
  mtimecmp + 8 <= sc \/ sc + 48 <= mtimecmp ->
  exists h' m', run tr timervec (Mach h m) = Some (Mach h' m') /\ pc h' = csrs h Cmepc /\ mode h' = mpp (csrs h Cmstatus) /\
    (forall r, r <> Xzero -> gpr h' r = gpr h r) /\ csrs h' Cmscratch = sc /\ csrs h' Csip = 2 /\
    load64 m' mtimecmp = wrap64 (load64 m mtimecmp + load64 m (sc + 40)) /\
    (forall x, ~ (sc <= x < sc + 24) -> ~ (mtimecmp <= x < mtimecmp + 8) -> load8 m' x = load8 m x).
Proof.
  intros sc mt [Hg Hc] Hw Hmo Hsc Hd. assert (0 <= sc < 2^64) as Hsr by apply Hc. assert (0 <= mt < 2^64) as Hmr by (by apply load64_range).
  set (v := load64 m mt + load64 m (sc + 40)).
  set (m1 := store64 (store64 (store64 m sc (gpr h Xa1)) (sc + 8) (gpr h Xa2)) (sc + 16) (gpr h Xa3)).
  assert (load64 m1 (sc + 32) = mt /\ load64 m1 (sc + 40) = load64 m (sc + 40) /\ load64 m1 mt = load64 m mt) as (E1 & E2 & E3).
  { unfold m1. rewrite !load64_store64_ne by lia. done. }
  set (m2 := store64 m1 mt (wrap64 v)).
  assert (load64 m2 (sc + 16) = gpr h Xa3 /\ load64 m2 (sc + 8) = gpr h Xa2 /\ load64 m2 sc = gpr h Xa1) as (F3 & F2 & F1).
  { unfold m2. rewrite !load64_store64_ne by lia. unfold m1. split; [|split].
    - rewrite load64_store64_eq. by apply wrap64_small.
    - rewrite load64_store64_ne, load64_store64_eq by lia. by apply wrap64_small.
    - rewrite !load64_store64_ne, load64_store64_eq by lia. by apply wrap64_small. }
  set (h1 := set_gpr Xa0 sc (set_csr Cmscratch (gpr h Xa0) h)).
  set (h2 := set_gpr Xa3 (load64 m mt) (set_gpr Xa2 (load64 m (sc + 40)) (set_gpr Xa1 mt h1))).
  set (h3 := set_csr Csip 2 (set_gpr Xa1 2 (set_gpr Xa3 v h2))).
  set (h4 := set_gpr Xa1 (gpr h Xa1) (set_gpr Xa2 (gpr h Xa2) (set_gpr Xa3 (gpr h Xa3) h3))).
  set (h5 := set_gpr Xa0 (gpr h Xa0) (set_csr Cmscratch sc h4)).
  assert (forall h o, mode h = PrivM -> gpr h Xa0 = sc -> 0 <= o <= 40 -> translate tr h (wrap64 (gpr h Xa0 + o)) = Some (sc + o)) as Htr.
  { intros h' o E E' Ho. unfold translate. rewrite E, E', wrap64_small by lia. done. }
  assert (gpr h1 Xa0 = sc) as A1 by (apply set_gpr_eq; [done|lia]).
  assert (forall r, r <> Xa0 -> gpr h1 r = gpr h r) as G1 by (intros r Hr; unfold h1; by rewrite set_gpr_ne).
  exists (do_mret h5), m2. split.
  - unfold timervec. rewrite run_cons. change (exec1 tr (Csrrw Xa0 Cmscratch Xa0) (Mach h m)) with (Some (Mach h1 m)). cbn [mbind option_bind].
    rewrite run_cons, (exec_sd _ _ _ _ _ _ (sc + 0)) by (apply Htr; (done || lia)). cbn [mbind option_bind].
    rewrite run_cons, (exec_sd _ _ _ _ _ _ (sc + 8)) by (apply Htr; (done || lia)). cbn [mbind option_bind].
    rewrite run_cons, (exec_sd _ _ _ _ _ _ (sc + 16)) by (apply Htr; (done || lia)). cbn [mbind option_bind].
    rewrite !G1, Z.add_0_r by done. fold m1.
    rewrite run_cons, (exec_ld _ _ _ _ _ _ (sc + 32)) by (apply Htr; (done || lia)). cbn [mbind option_bind]. rewrite E1.
    rewrite run_cons, (exec_ld _ _ _ _ _ _ (sc + 40)) by (apply Htr; [done|by rewrite set_gpr_ne|lia]). cbn [mbind option_bind]. rewrite E2.
    rewrite run_cons, (exec_ld _ _ _ _ _ _ mt).
    2: { unfold translate. cbn [mode]. change (mode _) with (mode h). rewrite Hmo, set_gpr_ne, set_gpr_eq, Z.add_0_r, wrap64_small by (done || lia). done. }
    cbn [mbind option_bind]. rewrite E3. fold h2. rewrite run_cons.
    replace (exec1 tr (Add Xa3 Xa3 Xa2) (Mach h2 m1)) with (Some (Mach (set_gpr Xa3 v h2) m1)).
    2: { unfold exec1. cbn [hrt]. unfold h2 at 2 3. rewrite set_gpr_eq, set_gpr_ne, set_gpr_eq by first [done|by apply load64_range]. done. }
    cbn [mbind option_bind].
    rewrite run_cons, (exec_sd _ _ _ _ _ _ mt).
    2: { unfold translate. change (mode _) with (mode h). unfold h2. rewrite Hmo, !set_gpr_ne, set_gpr_eq, Z.add_0_r, wrap64_small by (done || lia). done. }
    cbn [mbind option_bind]. rewrite gpr_set_gpr, decide_True by done. fold m2.
    rewrite run_cons. change (exec1 tr (Li Xa1 2) ?x) with (Some (Mach (set_gpr Xa1 2 (hrt x)) (ram x))). cbn [mbind option_bind hrt ram].
    rewrite run_cons. replace (exec1 tr (Csrw Csip Xa1) (Mach (set_gpr Xa1 2 (set_gpr Xa3 v h2)) m2)) with (Some (Mach h3 m2)).
    2: { unfold exec1. cbn [hrt]. by rewrite set_gpr_eq. }
    cbn [mbind option_bind].
    assert (gpr h3 Xa0 = sc) as A3.
    { change (gpr h3) with (gpr (set_gpr Xa1 2 (set_gpr Xa3 v h2))). unfold h2. by rewrite !set_gpr_ne. }
    rewrite run_cons, (exec_ld _ _ _ _ _ _ (sc + 16)) by (apply Htr; (done || lia)). cbn [mbind option_bind]. rewrite F3.
    rewrite run_cons, (exec_ld _ _ _ _ _ _ (sc + 8)) by (apply Htr; [done|by rewrite set_gpr_ne|lia]). cbn [mbind option_bind]. rewrite F2.
    rewrite run_cons, (exec_ld _ _ _ _ _ _ (sc + 0)) by (apply Htr; [done|by rewrite !set_gpr_ne|lia]). cbn [mbind option_bind].
    rewrite Z.add_0_r, F1. fold h4. cbn [run exec1 mbind option_bind hrt]. unfold set_hrt. cbn [hrt ram].
    replace (csrs h4 Cmscratch) with (gpr h Xa0).
    2: { change (csrs h4 Cmscratch) with (csrs h1 Cmscratch). unfold h1, set_csr. cbn [csrs set_gpr]. rewrite fn_lookup_insert. symmetry. by apply wrap64_small. }
    by replace (gpr h4 Xa0) with sc.
  - split; [done|]. split; [done|]. split; [|split; [|split; [|split]]].
    + intros r Hz. change (gpr h5 r = gpr h r). unfold h5. destruct (decide (r = Xa0)) as [->|?]; [by apply set_gpr_eq|].
      rewrite set_gpr_ne by done. change (gpr h4 r = gpr h r). unfold h4.
      destruct (decide (r = Xa1)) as [->|?]; [by apply set_gpr_eq|]. rewrite set_gpr_ne by done.
      destruct (decide (r = Xa2)) as [->|?]; [by apply set_gpr_eq|]. rewrite set_gpr_ne by done.
      destruct (decide (r = Xa3)) as [->|?]; [by apply set_gpr_eq|]. rewrite set_gpr_ne by done.
      change (gpr h3 r) with (gpr (set_gpr Xa1 2 (set_gpr Xa3 v h2)) r). unfold h2. rewrite !set_gpr_ne by done. by apply G1.
    + change (<[Cmscratch := wrap64 sc]> (csrs h4) Cmscratch = sc). rewrite fn_lookup_insert. by apply wrap64_small.
    + done.
    + unfold m2. rewrite load64_store64_eq. unfold wrap64. by rewrite Z.mod_mod.
    + intros x Hx Hx'. unfold m2, m1. by rewrite !load8_store64_ne by lia.
Qed.

(** ** A concrete hart *)

(** User page table 1 maps TRAPFRAME to 0x80100000; page table 2 is the
    kernel's, which maps everything one to one. *)
Definition ex_tr (satp va : Z) : option Z :=
  if satp =? 1 then if (TRAPFRAME <=? va) && (va <? TRAMPOLINE) then Some (0x80100000 + (va - TRAPFRAME)) else None
  else Some va.
Definition ex_user : hart := Hart (fun _ => 7) (fun c => match c with Csatp => 1 | Csscratch => TRAPFRAME | _ => 0 end) PrivS 0.
Definition ex_kernel : hart :=
  Hart (fun r => match r with Xsp => 0x80200100 | Xa0 => 0x80001000 | Xa1 => 0x80002000 | _ => 9 end)
       (fun c => match c with Csatp => 2 | Cmscratch => 0x80003000 | _ => 0 end) PrivS 0.
Definition ex_machine : hart := set_mode PrivM ex_kernel.

Lemma ex_words : words ex_user /\ words ex_kernel /\ words ex_machine.
Proof. by split; [|split]; split; intros []. Qed.

Lemma empty_wf : mem_wf ∅.
Proof. intros a. unfold load8. by rewrite lookup_empty. Qed.

Lemma ex_maps_tf : maps_tf ex_tr 1 0x80100000.
Proof.
  intros o Ho. unfold ex_tr. cbn [Z.eqb Pos.eqb]. replace (_ && _) with true.
  - f_equal. lia.
  - symmetry. unfold PGSIZE in Ho. apply andb_true_intro. split; [apply Z.leb_le; lia|]. apply Z.ltb_lt.
    change TRAMPOLINE with (TRAPFRAME + 4096). lia.
Qed.


Lemma ex_maps_ctx c : 0 <= c -> c + 112 <= 2^64 -> maps_ctx ex_tr ex_kernel c.
Proof. by intros. Qed.

Lemma swtch_resumes_witness : exists h1 m1, run ex_tr swtch (Mach ex_kernel ∅) = Some (Mach h1 m1) /\ gpr h1 Xs0 = 0.
Proof.
  destruct (swtch_resumes ex_tr ex_kernel ∅ 0x80001000 0x80002000 (proj1 (proj2 ex_words)) empty_wf eq_refl eq_refl
    ltac:(by apply ex_maps_ctx) ltac:(by apply ex_maps_ctx) ltac:(by left)) as (h1 & m1 & E & S1 & _).
  exists h1, m1. split; [exact E|]. rewrite (sw_loaded _ _ _ _ _ _ S1 Xs0 16 ltac:(by repeat constructor)). reflexivity.
Defined.

Lemma ex_returns : returns_to 0x80200000 (kv_saved ex_kernel ∅ 0x80200000) (kv_saved ex_kernel ∅ 0x80200000).
Proof.
  split; [done|]. split; [done|]. split; [done|]. split; [apply set_gpr_words, ex_words|]. split; [|done].
  unfold kv_saved. cbn [ram]. generalize (gpr (set_gpr Xsp 0x80200000 ex_kernel)). intros g. generalize empty_wf.
  generalize (∅ : gmap Z Z). induction klist as [|[r o] l IH]; intros m Hm; [done|]. apply IH. by apply store64_wf.
Qed.

Lemma kernelvec_transparent_witness : exists s3, kernelvec ex_tr Some (Mach ex_kernel ∅) = Some s3 /\ gpr (hrt s3) Xsp = 0x80200100.
Proof.
  destruct (kernelvec_transparent ex_tr Some ex_kernel ∅ 0x80200000 (kv_saved ex_kernel ∅ 0x80200000) (proj1 (proj2 ex_words))
    ltac:(done) eq_refl eq_refl ex_returns) as (s3 & E & _ & _ & Hr & _).
  exists s3. split; [exact E|]. exact (Hr Xsp ltac:(done) ltac:(done)).
Defined.

Lemma ex_mtime : load64 (store64 ∅ 0x80003020 0x2004000) (0x80003000 + 32) = 0x2004000.
Proof. by vm_compute. Qed.

Lemma timervec_transparent_witness : exists h' m',
  run ex_tr timervec (Mach ex_machine (store64 ∅ 0x80003020 0x2004000)) = Some (Mach h' m') /\ csrs h' Csip = 2.
Proof.
  destruct (timervec_transparent ex_tr ex_machine (store64 ∅ 0x80003020 0x2004000) (proj2 (proj2 ex_words))
    (store64_wf _ _ _ empty_wf) eq_refl ltac:(done)) as (h' & m' & E & _ & _ & _ & _ & Hs & _).
  { change (csrs ex_machine Cmscratch) with 0x80003000. rewrite ex_mtime. by left. }
  exists h', m'. by split.
Defined.
