(* ===== verification/Boot.v ===== *)
(** * Boot in machine mode and the interrupt controller

    kernel/start.c, which runs in machine mode on every hart before [main],
    and kernel/plic.c.  Device registers are cells of the memory. *)

From S2P Require Import Prelude Riscv Memory Hart.

Definition on_hart {A} (c : M hart A) : M mach A := zoom hrt set_hrt c.
Definition mload64 (a : Z) : M mach Z := gets (fun s => load64 (ram s) a).
Definition mstore64 (a v : Z) : M mach unit := modify (fun s => set_ram (store64 (ram s) a v) s).
Definition mload32 (a : Z) : M mach Z := gets (fun s => loadn 4 (ram s) a).
Definition mstore32 (a v : Z) : M mach unit := modify (fun s => set_ram (storen 4 (ram s) a v) s).

(** ** kernel/memlayout.h: the CLINT and the PLIC *)

Definition CLINT_MTIMECMP (hartid : Z) : Z := CLINT + 0x4000 + 8 * hartid.
Definition CLINT_MTIME : Z := CLINT + 0xBFF8.
Definition PLIC_PRIORITY : Z := PLIC + 0x0.
Definition PLIC_PENDING : Z := PLIC + 0x1000.
Definition PLIC_MENABLE (hart : Z) : Z := PLIC + 0x2000 + hart * 0x100.
Definition PLIC_SENABLE (hart : Z) : Z := PLIC + 0x2080 + hart * 0x100.
Definition PLIC_MPRIORITY (hart : Z) : Z := PLIC + 0x200000 + hart * 0x2000.
Definition PLIC_SPRIORITY (hart : Z) : Z := PLIC + 0x201000 + hart * 0x2000.
Definition PLIC_MCLAIM (hart : Z) : Z := PLIC + 0x200004 + hart * 0x2000.
Definition PLIC_SCLAIM (hart : Z) : Z := PLIC + 0x201004 + hart * 0x2000.

(** ** kernel/start.c *)

Section start.
(** Addresses of [main], [timervec] and the array [mscratch0]. *)
Context (main timervec_addr mscratch0 : Z).

Definition timerinit : M mach unit :=
  let! hid := on_hart r_mhartid in
  let id := s32 hid in
  let interval := 1000000 in
  let! now := mload64 CLINT_MTIME in
  mstore64 (CLINT_MTIMECMP id) (now + interval) ;;
  let scratch := mscratch0 + 8 * (32 * id) in
  mstore64 (scratch + 8 * 4) (CLINT_MTIMECMP id) ;;
  mstore64 (scratch + 8 * 5) interval ;;
  on_hart (w_mscratch scratch) ;;
  on_hart (w_mtvec timervec_addr) ;;
  (let! x := on_hart r_mstatus in on_hart (w_mstatus (Z.lor x MSTATUS_MIE))) ;;
  (let! x := on_hart r_mie in on_hart (w_mie (Z.lor x MIE_MTIE))).

Definition start : M mach unit :=
  let! x := on_hart r_mstatus in
  let x := Z.land x (Z.lnot MSTATUS_MPP_MASK) in
  let x := Z.lor x MSTATUS_MPP_S in
  on_hart (w_mstatus x) ;;
  on_hart (w_mepc main) ;;
  on_hart (w_satp 0) ;;
  on_hart (w_medeleg 0xffff) ;;
  on_hart (w_mideleg 0xffff) ;;
  (let! x := on_hart r_sie in on_hart (w_sie (Z.lor (Z.lor (Z.lor x SIE_SEIE) SIE_STIE) SIE_SSIE))) ;;
  timerinit ;;
  let! id := on_hart r_mhartid in
  on_hart (w_tp (s32 id)) ;;
  on_hart (modify do_mret).
End start.

(** ** kernel/plic.c *)

Definition cpuid : M hart Z := let! x := r_tp in ret (s32 x).

Definition plicinit : M mach unit :=
  mstore32 (PLIC + UART0_IRQ * 4) 1 ;;
  mstore32 (PLIC + VIRTIO0_IRQ * 4) 1.
Definition plicinithart : M mach unit :=
  let! hart := on_hart cpuid in
  mstore32 (PLIC_SENABLE hart) (Z.lor (Z.shiftl 1 UART0_IRQ) (Z.shiftl 1 VIRTIO0_IRQ)) ;;
  mstore32 (PLIC_SPRIORITY hart) 0.
Definition plic_claim : M mach Z :=
  let! hart := on_hart cpuid in
  let! irq := mload32 (PLIC_SCLAIM hart) in
  ret (s32 irq).
Definition plic_complete (irq : Z) : M mach unit :=
  let! hart := on_hart cpuid in
  mstore32 (PLIC_SCLAIM hart) irq.

(** ** What [start] sets up *)

Definition has_bit (x i : Z) : Prop := Z.testbit x i = true.

Lemma has_bit_lor x y i : 0 <= i -> has_bit y i -> has_bit (Z.lor x y) i.
Proof. unfold has_bit. intros Hi H. rewrite Z.lor_spec, H. apply orb_true_r. Qed.

Lemma has_bit_lor_l x y i : 0 <= i -> has_bit x i -> has_bit (Z.lor x y) i.
Proof. unfold has_bit. intros Hi H. by rewrite Z.lor_spec, H. Qed.

Lemma has_bit_wrap x i : 0 <= i < 64 -> has_bit x i -> has_bit (wrap64 x) i.
Proof. unfold has_bit, wrap64. intros Hi H. by rewrite Z.mod_pow2_bits_low by lia. Qed.

Lemma mpp_supervisor x :
  mpp (wrap64 (Z.lor (wrap64 (Z.lor (Z.land x (Z.lnot MSTATUS_MPP_MASK)) MSTATUS_MPP_S)) MSTATUS_MIE)) = PrivS.
Proof.
  unfold mpp. replace (Z.land _ MSTATUS_MPP_MASK) with MSTATUS_MPP_S; [done|]. symmetry. apply Z.bits_inj'. intros i Hi.
  change MSTATUS_MPP_MASK with (Z.lor (2^11) (2^12)). change MSTATUS_MPP_S with (2^11). change MSTATUS_MIE with (2^3). unfold wrap64.
  rewrite Z.land_spec, (Z.lor_spec (2^11)). destruct (decide (i = 11)) as [->|H11].
  { rewrite Z.mod_pow2_bits_low, Z.lor_spec, Z.mod_pow2_bits_low, Z.lor_spec, Z.pow2_bits_true by lia. by rewrite !orb_true_r. }
  destruct (decide (i = 12)) as [->|H12].
  { rewrite Z.mod_pow2_bits_low, Z.lor_spec, Z.mod_pow2_bits_low, Z.lor_spec, Z.land_spec, Z.lnot_spec, Z.lor_spec by lia.
    rewrite (Z.pow2_bits_true 12), !Z.pow2_bits_false by lia. rewrite orb_true_r. cbn. by rewrite andb_false_r. }
  rewrite (Z.pow2_bits_false 11), (Z.pow2_bits_false 12) by lia. apply andb_false_r.
Qed.

Lemma wp_on_gets {A} (f : hart -> A) (Q : A -> mach -> Prop) h m : Q (f h) (Mach h m) -> wp (on_hart (gets f)) Q (Mach h m).
Proof. done. Qed.
Lemma wp_on_modify f (Q : unit -> mach -> Prop) h m : Q tt (Mach (f h) m) -> wp (on_hart (modify f)) Q (Mach h m).
Proof. done. Qed.
Lemma wp_mload64 a (Q : Z -> mach -> Prop) h m : Q (load64 m a) (Mach h m) -> wp (mload64 a) Q (Mach h m).
Proof. done. Qed.
Lemma wp_mstore64 a v (Q : unit -> mach -> Prop) h m : Q tt (Mach h (store64 m a v)) -> wp (mstore64 a v) Q (Mach h m).
Proof. done. Qed.

Lemma csrs_set_csr c x h c' : csrs (set_csr c x h) c' = if decide (c = c') then wrap64 x else csrs h c'.
Proof. unfold set_csr. cbn [csrs]. case_decide as E; [subst; apply fn_lookup_insert|by apply fn_lookup_insert_ne]. Qed.

Ltac hart_step :=
  lazymatch goal with
  | |- wp (bind _ _) _ _ => apply wp_bind
  | |- wp (on_hart (modify _)) _ _ => apply wp_on_modify
  | |- wp (on_hart (w_mstatus _)) _ _ => apply wp_on_modify
  | |- wp (on_hart (w_mepc _)) _ _ => apply wp_on_modify
  | |- wp (on_hart (w_satp _)) _ _ => apply wp_on_modify
  | |- wp (on_hart (w_medeleg _)) _ _ => apply wp_on_modify
  | |- wp (on_hart (w_mideleg _)) _ _ => apply wp_on_modify
  | |- wp (on_hart (w_sie _)) _ _ => apply wp_on_modify
  | |- wp (on_hart (w_mie _)) _ _ => apply wp_on_modify
  | |- wp (on_hart (w_mscratch _)) _ _ => apply wp_on_modify
  | |- wp (on_hart (w_mtvec _)) _ _ => apply wp_on_modify
  | |- wp (on_hart (w_tp _)) _ _ => apply wp_on_modify
  | |- wp (on_hart _) _ _ => apply wp_on_gets
  | |- wp (mload64 _) _ _ => apply wp_mload64
  | |- wp (mstore64 _ _) _ _ => apply wp_mstore64
  end.
Ltac hart_steps := repeat hart_step.

Ltac csr_simp :=
  repeat match goal with
  | |- context [decide (?a = ?b :> csr)] =>
      first [rewrite (decide_True (P := a = b)) by done | rewrite (decide_False (P := a = b)) by done]
  end.

Lemma csrs_do_mret h c : c <> Cmstatus -> csrs (do_mret h) c = csrs h c.
Proof. intros Hc. unfold do_mret, set_mode, set_pc. cbn [csrs]. by rewrite csrs_set_csr, decide_False. Qed.

Ltac csr_read h' :=
  rewrite ?csrs_do_mret by done; unfold h'; change (csrs (set_gpr ?r ?x ?h)) with (csrs h); rewrite !csrs_set_csr; csr_simp.

Section correct.
Context (main tv mscratch0 : Z).

(** [start] leaves the hart in supervisor mode at [main], paging off,
    exceptions and interrupts delegated and enabled, its id in [tp], the
    machine timer armed one interval ahead, and the scratch area that
    [timervec] reads filled in. *)
Theorem start_correct s id :
  csrs (hrt s) Cmhartid = id -> 0 <= id < 8 -> 0 <= main < 2^64 -> 0 <= tv < 2^64 ->
  CLINT + 0x10000 <= mscratch0 < 2^32 ->
  wp (start main tv mscratch0) (fun _ s' =>
    let h := hrt s' in let sc := csrs h Cmscratch in
    mode h = PrivS /\ pc h = main /\ gpr h Xtp = id /\ csrs h Csatp = 0 /\
    csrs h Cmedeleg = 0xffff /\ csrs h Cmideleg = 0xffff /\ csrs h Cmtvec = tv /\
    has_bit (csrs h Csie) 9 /\ has_bit (csrs h Csie) 5 /\ has_bit (csrs h Csie) 1 /\ has_bit (csrs h Cmie) 7 /\
    sc = mscratch0 + 256 * id /\
    load64 (ram s') (sc + 32) = CLINT_MTIMECMP id /\ load64 (ram s') (sc + 40) = 1000000 /\
    load64 (ram s') (CLINT_MTIMECMP id) = wrap64 (load64 (ram s) CLINT_MTIME + 1000000) /\
    (forall x, ~ (CLINT_MTIMECMP id <= x < CLINT_MTIMECMP id + 8) -> ~ (sc + 32 <= x < sc + 48) -> load8 (ram s') x = load8 (ram s) x)) s.
Proof.
  intros Hid Hr Hm Ht Hsc. assert (s32 id = id) as Es by (apply s32_small; lia).
  destruct s as [h m]. cbn [hrt ram] in *. unfold start, timerinit.
  hart_steps. cbn [hrt ram]. rewrite !csrs_set_csr. csr_simp. rewrite Hid, Es.
  set (x := Z.lor (Z.land (csrs h Cmstatus) (Z.lnot MSTATUS_MPP_MASK)) MSTATUS_MPP_S).
  replace (mscratch0 + 8 * (32 * id)) with (mscratch0 + 256 * id) by lia.
  set (sc := mscratch0 + 256 * id). set (h' := set_gpr _ _ _). assert (wrap64 sc = sc) as Esc by (apply wrap64_small; unfold sc, CLINT in *; lia).
  assert (csrs (do_mret h') Cmscratch = sc) as E1 by (csr_read h'; done).
  assert (csrs h' Cmstatus = wrap64 (Z.lor (wrap64 x) MSTATUS_MIE)) as E2 by (csr_read h'; done).
  assert (csrs h' Cmepc = main) as E3 by (csr_read h'; by apply wrap64_small).
  assert (CLINT_MTIMECMP id + 8 <= sc /\ 0 <= CLINT_MTIMECMP id < 2^64) as [Hd Hc] by (unfold sc, CLINT_MTIMECMP, CLINT in *; lia).
  rewrite E1. cbn zeta. change (8 * 4) with 32. change (8 * 5) with 40. splits; try done.
  - change (mode (do_mret h')) with (mpp (csrs h' Cmstatus)). rewrite E2. apply mpp_supervisor.
  - change (gpr h' Xtp = id). unfold h', set_gpr. cbn [gpr]. rewrite bool_decide_false by done.
    rewrite fn_lookup_insert. apply wrap64_small. lia.
  - csr_read h'. by apply wrap64_small.
  - csr_read h'. apply has_bit_wrap; [lia|]. by apply has_bit_lor_l, has_bit_lor_l, has_bit_lor.
  - csr_read h'. apply has_bit_wrap; [lia|]. by apply has_bit_lor_l, has_bit_lor.
  - csr_read h'. apply has_bit_wrap; [lia|]. by apply has_bit_lor.
  - csr_read h'. apply has_bit_wrap; [lia|]. by apply has_bit_lor.
  - rewrite load64_store64_ne, load64_store64_eq by lia. by apply wrap64_small.
  - rewrite load64_store64_eq. done.
  - rewrite !load64_store64_ne, load64_store64_eq by lia. done.
  - intros y Hy Hy'. by rewrite !load8_store64_ne by lia.
Qed.
End correct.

Lemma ex_boot_hart : csrs (Hart (fun _ => 0) (fun c => match c with Cmhartid => 2 | _ => 0 end) PrivM 0) Cmhartid = 2.
Proof. done. Qed.

Lemma start_correct_witness :
  wp (start 0x80000100 0x80000200 0x80001000)
     (fun _ s' => mode (hrt s') = PrivS /\ gpr (hrt s') Xtp = 2)
     (Mach (Hart (fun _ => 0) (fun c => match c with Cmhartid => 2 | _ => 0 end) PrivM 0) ∅).
Proof.
  eapply wp_conseq.
  - apply (start_correct 0x80000100 0x80000200 0x80001000 (Mach _ ∅) 2 ex_boot_hart); unfold CLINT; lia.
  - intros _ s' (H1 & _ & H2 & _). by split.
Defined.
