(* ===== verification/Proc.v ===== *)
(** * Processes (kernel/proc.c)

    The process table, its locks, and one hart that runs the kernel code: the
    process it runs, its interrupt nesting and its registers.  The routines
    that need files or the file system ([userinit], [fork], [exit],
    [forkret]) are in [Kernel].

    A routine that gives up the processor is cut at the call of [swtch]:
    [sched] is what happens before it, and the part after it runs when the
    scheduler has picked the process again. *)

From S2P Require Import Prelude Riscv Memory Spinlock Kalloc Vm Hart.

Definition NPROC : Z := 64.
Definition NCPU : Z := 8.
Definition NOFILE : Z := 16.

(** ** kernel/proc.h *)

Inductive procstate := UNUSED | SLEEPING | RUNNABLE | RUNNING | ZOMBIE.
#[global] Instance procstate_eq_dec : EqDecision procstate.
Proof. solve_decision. Defined.

(** What a process can sleep on: an address of the kernel.  [wait] uses the
    process itself; the other channels are told apart by their addresses. *)
Inductive wchan := ChProc (i : nat) | ChAddr (a : Z).
#[global] Instance wchan_eq_dec : EqDecision wchan.
Proof. solve_decision. Defined.

(** [chan], [parent], [cwd] and the entries of [ofile] are pointers: [None] is
    the null pointer. *)
Record proc := Proc {
  plock : spin; pstate : procstate; parent : option nat; chan : option wchan; killed : Z; xstate : Z; pid : Z;
  kstack : Z; psz : Z; pagetable : Z; trapframe : Z; context : list Z;
  ofile : list (option nat); cwd : option nat; pname : list Z;
}.

Definition set_plock (x : spin) (p : proc) : proc :=
  Proc x (pstate p) (parent p) (chan p) (killed p) (xstate p) (pid p) (kstack p) (psz p) (pagetable p) (trapframe p) (context p) (ofile p) (cwd p) (pname p).
Definition set_pstate (x : procstate) (p : proc) : proc :=
  Proc (plock p) x (parent p) (chan p) (killed p) (xstate p) (pid p) (kstack p) (psz p) (pagetable p) (trapframe p) (context p) (ofile p) (cwd p) (pname p).
Definition set_parent (x : option nat) (p : proc) : proc :=
  Proc (plock p) (pstate p) x (chan p) (killed p) (xstate p) (pid p) (kstack p) (psz p) (pagetable p) (trapframe p) (context p) (ofile p) (cwd p) (pname p).
Definition set_chan (x : option wchan) (p : proc) : proc :=
  Proc (plock p) (pstate p) (parent p) x (killed p) (xstate p) (pid p) (kstack p) (psz p) (pagetable p) (trapframe p) (context p) (ofile p) (cwd p) (pname p).
Definition set_killed (x : Z) (p : proc) : proc :=
  Proc (plock p) (pstate p) (parent p) (chan p) x (xstate p) (pid p) (kstack p) (psz p) (pagetable p) (trapframe p) (context p) (ofile p) (cwd p) (pname p).
Definition set_xstate (x : Z) (p : proc) : proc :=
  Proc (plock p) (pstate p) (parent p) (chan p) (killed p) x (pid p) (kstack p) (psz p) (pagetable p) (trapframe p) (context p) (ofile p) (cwd p) (pname p).
Definition set_pid (x : Z) (p : proc) : proc :=
  Proc (plock p) (pstate p) (parent p) (chan p) (killed p) (xstate p) x (kstack p) (psz p) (pagetable p) (trapframe p) (context p) (ofile p) (cwd p) (pname p).
Definition set_kstack (x : Z) (p : proc) : proc :=
  Proc (plock p) (pstate p) (parent p) (chan p) (killed p) (xstate p) (pid p) x (psz p) (pagetable p) (trapframe p) (context p) (ofile p) (cwd p) (pname p).
Definition set_psz (x : Z) (p : proc) : proc :=
  Proc (plock p) (pstate p) (parent p) (chan p) (killed p) (xstate p) (pid p) (kstack p) x (pagetable p) (trapframe p) (context p) (ofile p) (cwd p) (pname p).
Definition set_pagetable (x : Z) (p : proc) : proc :=
  Proc (plock p) (pstate p) (parent p) (chan p) (killed p) (xstate p) (pid p) (kstack p) (psz p) x (trapframe p) (context p) (ofile p) (cwd p) (pname p).
Definition set_trapframe (x : Z) (p : proc) : proc :=
  Proc (plock p) (pstate p) (parent p) (chan p) (killed p) (xstate p) (pid p) (kstack p) (psz p) (pagetable p) x (context p) (ofile p) (cwd p) (pname p).
Definition set_context (x : list Z) (p : proc) : proc :=
  Proc (plock p) (pstate p) (parent p) (chan p) (killed p) (xstate p) (pid p) (kstack p) (psz p) (pagetable p) (trapframe p) x (ofile p) (cwd p) (pname p).
Definition set_ofile (x : list (option nat)) (p : proc) : proc :=
  Proc (plock p) (pstate p) (parent p) (chan p) (killed p) (xstate p) (pid p) (kstack p) (psz p) (pagetable p) (trapframe p) (context p) x (cwd p) (pname p).
Definition set_cwd (x : option nat) (p : proc) : proc :=
  Proc (plock p) (pstate p) (parent p) (chan p) (killed p) (xstate p) (pid p) (kstack p) (psz p) (pagetable p) (trapframe p) (context p) (ofile p) x (pname p).
Definition set_pname (x : list Z) (p : proc) : proc :=
  Proc (plock p) (pstate p) (parent p) (chan p) (killed p) (xstate p) (pid p) (kstack p) (psz p) (pagetable p) (trapframe p) (context p) (ofile p) (cwd p) x.

(** A process structure as the loader leaves it: zero. *)
Definition proc0 : proc :=
  Proc spin_free UNUSED None None 0 0 0 0 0 0 0 (replicate 14 0) (replicate (Z.to_nat NOFILE) None) None (replicate 16 0).

(** The process table and the hart: [cnoff], [cintena] and [cproc] are the
    fields of its [struct cpu]. *)
Record pst := PSt {
  procs : list proc; nextpid : Z; pid_lock : spin; initproc : option nat;
  cnoff : Z; cintena : bool; cproc : option nat; chart : hart; km : kst;
}.

Definition set_procs (x : list proc) (s : pst) : pst :=
  PSt x (nextpid s) (pid_lock s) (initproc s) (cnoff s) (cintena s) (cproc s) (chart s) (km s).
Definition set_nextpid (x : Z) (s : pst) : pst :=
  PSt (procs s) x (pid_lock s) (initproc s) (cnoff s) (cintena s) (cproc s) (chart s) (km s).
Definition set_pid_lock (x : spin) (s : pst) : pst :=
  PSt (procs s) (nextpid s) x (initproc s) (cnoff s) (cintena s) (cproc s) (chart s) (km s).
Definition set_initproc (x : option nat) (s : pst) : pst :=
  PSt (procs s) (nextpid s) (pid_lock s) x (cnoff s) (cintena s) (cproc s) (chart s) (km s).
Definition set_cproc (x : option nat) (s : pst) : pst :=
  PSt (procs s) (nextpid s) (pid_lock s) (initproc s) (cnoff s) (cintena s) x (chart s) (km s).
Definition set_cintena (x : bool) (s : pst) : pst :=
  PSt (procs s) (nextpid s) (pid_lock s) (initproc s) (cnoff s) x (cproc s) (chart s) (km s).
Definition set_chart (x : hart) (s : pst) : pst :=
  PSt (procs s) (nextpid s) (pid_lock s) (initproc s) (cnoff s) (cintena s) (cproc s) x (km s).
Definition set_km (x : kst) (s : pst) : pst :=
  PSt (procs s) (nextpid s) (pid_lock s) (initproc s) (cnoff s) (cintena s) (cproc s) (chart s) x.

Definition on_km {A} (c : M kst A) : M pst A := zoom km set_km c.
Definition on_chart {A} (c : M hart A) : M pst A := zoom chart set_chart c.

(** The hart's [struct cpu] and [sstatus], for [push_off] and [pop_off]. *)
Definition get_cpu (s : pst) : cpu := Cpu (cnoff s) (cintena s) (csrs (chart s) Csstatus).
Definition set_cpu (c : cpu) (s : pst) : pst :=
  PSt (procs s) (nextpid s) (pid_lock s) (initproc s) (noff c) (intena c) (cproc s) (set_csr Csstatus (sstatus c) (chart s)) (km s).
Definition on_ccpu {A} (c : M cpu A) : M pst A := zoom get_cpu set_cpu c.

Definition proc_at (s : pst) (i : nat) : proc := default proc0 (procs s !! i).
Definition get_proc (i : nat) : M pst proc := gets (fun s => proc_at s i).
Definition upd_proc (i : nat) (f : proc -> proc) : M pst unit :=
  modify (fun s => set_procs (<[i := f (proc_at s i)]> (procs s)) s).

(** [acquire] and [release] of a lock, with their interrupt nesting. *)
Definition lk_acquire (g : pst -> spin) (p : spin -> pst -> pst) : M pst unit :=
  on_ccpu push_off ;; spin_acquire g p.
Definition lk_release (g : pst -> spin) (p : spin -> pst -> pst) : M pst unit :=
  spin_release g p ;; on_ccpu pop_off.
Definition set_proc_lock (i : nat) (x : spin) (s : pst) : pst := set_procs (<[i := set_plock x (proc_at s i)]> (procs s)) s.
Definition pacquire (i : nat) : M pst unit := lk_acquire (fun s => plock (proc_at s i)) (set_proc_lock i).
Definition prelease (i : nat) : M pst unit := lk_release (fun s => plock (proc_at s i)) (set_proc_lock i).
Definition pholding (i : nat) : M pst bool := gets (fun s => sheld (plock (proc_at s i)) && smine (plock (proc_at s i))).

(** A null pointer that is followed ends in [kerneltrap]. *)
Definition deref {A} (p : option A) : M pst A := match p with Some x => ret x | None => panic "kerneltrap" end.

Definition table : list nat := seq 0 (Z.to_nat NPROC).

(** ** Small routines *)

Definition cpuid : M pst Z := let! x := on_chart r_tp in ret (s32 x).

Definition myproc : M pst (option nat) :=
  on_ccpu push_off ;;
  let! p := gets cproc in
  on_ccpu pop_off ;;
  ret p.
(** [myproc()] where the result is followed. *)
Definition cur : M pst nat := let! p := myproc in deref p.

Definition allocpid : M pst Z :=
  lk_acquire pid_lock set_pid_lock ;;
  let! pid := gets nextpid in
  modify (fun s => set_nextpid (s32 (nextpid s + 1)) s) ;;
  lk_release pid_lock set_pid_lock ;;
  ret pid.

Section proc.
(** The end of the kernel image, the address of the trampoline page and that
    of [forkret]: symbols of the linker.  [kobj] is the address of the kernel
    object that a copy routine is given a pointer to. *)
Context (kend trampoline forkret_addr kobj : Z).

(** [copyout] from and [copyin] to an object of the kernel that is modelled
    outside of the byte memory: its bytes are at [kobj] for the call. *)
Definition copyout_obj (pt dst : Z) (bs : list Z) : M pst Z := on_km (
  modify (fun s => set_mem (storebytes (mem s) kobj bs) s) ;;
  copyout pt dst kobj (Z.of_nat (length bs))).
Definition copyin_obj (pt : Z) (old : list Z) (src len : Z) : M pst (Z * list Z) := on_km (
  modify (fun s => set_mem (storebytes (mem s) kobj old) s) ;;
  let! r := copyin pt kobj src len in
  let! bs := gets (fun s => loadbytes (mem s) kobj (length old)) in
  ret (r, bs)).

Definition either_copyout (user_dst dst : Z) (src : list Z) : M pst Z :=
  let! p := cur in
  if truth user_dst then let! pr := get_proc p in copyout_obj (pagetable pr) dst src
  else on_km (modify (fun s => set_mem (storebytes (mem s) dst src) s)) ;; ret 0.

Definition either_copyin (dst : list Z) (user_src src len : Z) : M pst (Z * list Z) :=
  let! p := cur in
  if truth user_src then let! pr := get_proc p in copyin_obj (pagetable pr) dst src len
  else let! bs := on_km (gets (fun s => loadbytes (mem s) src (Z.to_nat len))) in ret (0, bs ++ drop (Z.to_nat len) dst).

(** ** Page tables of processes *)

Definition proc_pagetable (i : nat) : M pst Z :=
  let! pt := on_km uvmcreate in
  if pt =? 0 then ret 0 else
  let! r := on_km (mappages pt TRAMPOLINE PGSIZE trampoline (Z.lor PTE_R PTE_X)) in
  if r <? 0 then on_km (uvmfree kend pt 0) ;; ret 0 else
  let! p := get_proc i in
  let! r := on_km (mappages pt TRAPFRAME PGSIZE (trapframe p) (Z.lor PTE_R PTE_W)) in
  if r <? 0 then
    on_km (uvmunmap kend pt TRAMPOLINE 1 false) ;;
    on_km (uvmfree kend pt 0) ;;
    ret 0
  else ret pt.

Definition proc_freepagetable (pt sz : Z) : M pst unit :=
  on_km (uvmunmap kend pt TRAMPOLINE 1 false) ;;
  on_km (uvmunmap kend pt TRAPFRAME 1 false) ;;
  on_km (uvmfree kend pt sz).

(** ** Allocation *)

Definition freeproc (i : nat) : M pst unit :=
  let! p := get_proc i in
  (if truth (trapframe p) then on_km (kfree kend (trapframe p)) else ret tt) ;;
  upd_proc i (set_trapframe 0) ;;
  let! p := get_proc i in
  (if truth (pagetable p) then proc_freepagetable (pagetable p) (psz p) else ret tt) ;;
  upd_proc i (set_pagetable 0) ;;
  upd_proc i (set_psz 0) ;;
  upd_proc i (set_pid 0) ;;
  upd_proc i (set_parent None) ;;
  upd_proc i (fun p => set_pname (<[O := 0]> (pname p)) p) ;;
  upd_proc i (set_chan None) ;;
  upd_proc i (set_killed 0) ;;
  upd_proc i (set_xstate 0) ;;
  upd_proc i (set_pstate UNUSED).

(** The search of [allocproc]: the slot is returned with its lock held. *)
Fixpoint find_unused (l : list nat) : M pst (option nat) :=
  match l with
  | [] => ret None
  | i :: l' =>
      pacquire i ;;
      let! p := get_proc i in
      if decide (pstate p = UNUSED) then ret (Some i)
      else prelease i ;; find_unused l'
  end.

Definition allocproc : M pst (option nat) :=
  let! f := find_unused table in
  match f with
  | None => ret None
  | Some i =>
      let! n := allocpid in
      upd_proc i (set_pid n) ;;
      let! tf := on_km kalloc in
      upd_proc i (set_trapframe tf) ;;
      if tf =? 0 then prelease i ;; ret None else
      let! pt := proc_pagetable i in
      upd_proc i (set_pagetable pt) ;;
      if pt =? 0 then freeproc i ;; prelease i ;; ret None else
      upd_proc i (fun p => set_context (forkret_addr :: wrap64 (kstack p + PGSIZE) :: replicate 12 0) p) ;;
      ret (Some i)
  end.

Definition growproc (n : Z) : M pst Z :=
  let! i := cur in
  let! p := get_proc i in
  let sz := wrap32 (psz p) in
  if 0 <? n then
    let! r := on_km (uvmalloc kend (pagetable p) sz (wrap32 (sz + n))) in
    let sz := wrap32 r in
    if sz =? 0 then ret (-1) else upd_proc i (set_psz sz) ;; ret 0
  else if n <? 0 then
    let! r := on_km (uvmdealloc kend (pagetable p) sz (wrap32 (sz + n))) in
    upd_proc i (set_psz (wrap32 r)) ;; ret 0
  else upd_proc i (set_psz sz) ;; ret 0.

(** [procinit]; [kpt] is the kernel's page table, which the final
    [kvminithart] installs. *)
Definition procinit (kpt : Z) : M pst unit :=
  modify (set_pid_lock spin_free) ;;
  for_each table (fun i =>
    upd_proc i (set_plock spin_free) ;;
    let! pa := on_km kalloc in
    if pa =? 0 then panic "kalloc" else
    let va := KSTACK (Z.of_nat i) in
    on_km (kvmmap kpt va pa PGSIZE (Z.lor PTE_R PTE_W)) ;;
    upd_proc i (set_kstack va)) ;;
  on_chart (w_satp (MAKE_SATP kpt)) ;;
  on_chart sfence_vma.

(** ** The scheduler *)

(** [sched] up to [swtch]; the value is [intena] to be restored after it. *)
Definition sched : M pst bool :=
  let! i := cur in
  let! h := pholding i in
  if negb h then panic "sched p->lock" else
  let! n := gets cnoff in
  if negb (n =? 1) then panic "sched locks" else
  let! p := get_proc i in
  if decide (pstate p = RUNNING) then panic "sched running" else
  let! on := on_ccpu intr_get in
  if (on : bool) then panic "sched interruptible" else
  gets cintena.
Definition sched_return (intena : bool) : M pst unit := modify (set_cintena intena).

Definition yield : M pst bool :=
  let! i := cur in
  pacquire i ;;
  upd_proc i (set_pstate RUNNABLE) ;;
  sched.
Definition yield_return (i : nat) (intena : bool) : M pst unit :=
  sched_return intena ;;
  prelease i.

(** One round of the loop of [scheduler] for process [i], up to [swtch]
    ([true]) or to its end ([false]), and what it does when the process has
    switched back. *)
Definition scheduler_try (i : nat) : M pst bool :=
  pacquire i ;;
  let! p := get_proc i in
  if decide (pstate p = RUNNABLE) then
    upd_proc i (set_pstate RUNNING) ;;
    modify (set_cproc (Some i)) ;;
    ret true
  else prelease i ;; ret false.
Definition scheduler_back (i : nat) : M pst unit :=
  modify (set_cproc None) ;;
  prelease i.

(** The loop of [scheduler].  [run i] is what process [i] does from the switch
    to it until it switches back; the value is the sequence of processes run. *)
Fixpoint scheduler_loop (run : nat -> M pst unit) (l : list nat) : M pst (list nat) :=
  match l with
  | [] => ret []
  | i :: l' =>
      let! sw := scheduler_try i in
      (if (sw : bool) then run i ;; scheduler_back i else ret tt) ;;
      let! ran := scheduler_loop run l' in
      ret (if (sw : bool) then i :: ran else ran)
  end.
(** One pass of [for(;;)]; [wfi] waits for an interrupt. *)
Definition scheduler_pass (run : nat -> M pst unit) : M pst (list nat) :=
  on_ccpu intr_on ;;
  let! ran := scheduler_loop run table in
  (if decide (ran = []) then on_ccpu intr_on else ret tt) ;;
  ret ran.

(** ** Sleeping and waking *)

(** A lock that [sleep] is called with: the process's own, or another one
    given by its [acquire] and [release]. *)
Inductive slk := OwnLock | OtherLock (acq rel : M pst unit).

(** [sleep] up to [swtch] and from there on. *)
Definition sleep_mark (i : nat) (ch : wchan) : M pst bool :=
  upd_proc i (set_chan (Some ch)) ;;
  upd_proc i (set_pstate SLEEPING) ;;
  sched.
Definition sleep_enter (ch : wchan) (lk : slk) : M pst bool :=
  let! i := cur in
  match lk with OwnLock => ret tt | OtherLock acq rel => pacquire i ;; rel end ;;
  sleep_mark i ch.
Definition sleep_return (i : nat) (lk : slk) (intena : bool) : M pst unit :=
  sched_return intena ;;
  upd_proc i (set_chan None) ;;
  match lk with OwnLock => ret tt | OtherLock acq rel => prelease i ;; acq end.

Definition wakeup (ch : wchan) : M pst unit :=
  for_each table (fun i =>
    pacquire i ;;
    let! p := get_proc i in
    (if decide (pstate p = SLEEPING /\ chan p = Some ch) then upd_proc i (set_pstate RUNNABLE) else ret tt) ;;
    prelease i).

Definition wakeup1 (i : nat) : M pst unit :=
  let! h := pholding i in
  if negb h then panic "wakeup1" else
  let! p := get_proc i in
  if decide (chan p = Some (ChProc i) /\ pstate p = SLEEPING) then upd_proc i (set_pstate RUNNABLE) else ret tt.

Fixpoint kill_loop (l : list nat) (n : Z) : M pst Z :=
  match l with
  | [] => ret (-1)
  | i :: l' =>
      pacquire i ;;
      let! p := get_proc i in
      if pid p =? n then
        upd_proc i (set_killed 1) ;;
        (if decide (pstate p = SLEEPING) then upd_proc i (set_pstate RUNNABLE) else ret tt) ;;
        prelease i ;;
        ret 0
      else prelease i ;; kill_loop l' n
  end.
Definition kill (n : Z) : M pst Z := kill_loop table n.

(** ** Parents and children *)

Definition reparent (p : nat) : M pst unit :=
  for_each table (fun i =>
    let! pp := get_proc i in
    if decide (parent pp = Some p) then
      pacquire i ;;
      let! ip := gets initproc in
      upd_proc i (set_parent ip) ;;
      prelease i
    else ret tt).

(** [int] as its bytes in memory. *)
Definition int_bytes (x : Z) : list Z := (fun k => Z.shiftr (wrap32 x) (8 * k) mod 256) <$> [0; 1; 2; 3].

(** The scan of [wait]: [inl r] is the value returned, with the locks given
    back; [inr havekids] is the end of the table. *)
Fixpoint wait_scan (l : list nat) (p : nat) (addr : Z) (havekids : bool) : M pst (Z + bool) :=
  match l with
  | [] => ret (inr havekids)
  | i :: l' =>
      let! np := get_proc i in
      if decide (parent np = Some p) then
        pacquire i ;;
        let! np := get_proc i in
        if decide (pstate np = ZOMBIE) then
          let! pr := get_proc p in
          let! r := (if truth addr then copyout_obj (pagetable pr) addr (int_bytes (xstate np)) else ret 0) in
          if r <? 0 then prelease i ;; prelease p ;; ret (inl (-1)) else
          freeproc i ;;
          prelease i ;;
          prelease p ;;
          ret (inl (pid np))
        else prelease i ;; wait_scan l' p addr true
      else wait_scan l' p addr havekids
  end.

(** One iteration of the loop of [wait]: [inl r] returns, [inr intena] has
    gone to sleep. *)
Definition wait_round (p : nat) (addr : Z) : M pst (Z + bool) :=
  let! r := wait_scan table p addr false in
  match r with
  | inl r => ret (inl r)
  | inr havekids =>
      let! pr := get_proc p in
      if negb havekids || truth (killed pr) then prelease p ;; ret (inl (-1))
      else let! ie := sleep_enter (ChProc p) OwnLock in ret (inr ie)
  end.
Definition wait (addr : Z) : M pst (Z + bool) :=
  let! p := cur in
  pacquire p ;;
  wait_round p addr.
Definition wait_again (p : nat) (addr : Z) (intena : bool) : M pst (Z + bool) :=
  sleep_return p OwnLock intena ;;
  wait_round p addr.
End proc.

(** A routine that sleeps returns [Asleep] with what it keeps across the
    sleep. *)
Inductive susp (X A : Type) := Done (a : A) | Asleep (x : X).
Arguments Done {X A} a.
Arguments Asleep {X A} x.

(** ** procdump: the lines it prints *)

Definition state_name (x : procstate) : string :=
  match x with
  | UNUSED => "unused" | SLEEPING => "sleep " | RUNNABLE => "runble" | RUNNING => "run   " | ZOMBIE => "zombie"
  end.
Definition procdump (s : pst) : list (Z * string * list Z) :=
  omap (fun p => if decide (pstate p = UNUSED) then None else Some (pid p, state_name (pstate p), pname p)) (procs s).
