(* ===== verification/ProcProof.v ===== *)
(** * The process table

    Lemmas on the locks and the table, then what [wakeup], [kill], [yield],
    [sleep] and the scheduler do. *)

From S2P Require Import Prelude Riscv Memory Spinlock Kalloc Vm Hart Proc.

(** ** The hart *)

Definition cpu_ok (s : pst) : Prop := cpu_inv (get_cpu s) /\ 0 <= csrs (chart s) Csstatus < 2^64.

(** Everything but the table and the interrupt state is the same. *)
Record same_rest (s s' : pst) : Prop := {
  sr_nextpid : nextpid s' = nextpid s;
  sr_pid_lock : pid_lock s' = pid_lock s;
  sr_initproc : initproc s' = initproc s;
  sr_cproc : cproc s' = cproc s;
  sr_km : km s' = km s;
}.

Lemma same_rest_refl s : same_rest s s.
Proof. done. Qed.
Lemma same_rest_trans s1 s2 s3 : same_rest s1 s2 -> same_rest s2 s3 -> same_rest s1 s3.
Proof. intros [] []. constructor; congruence. Qed.

Lemma get_set_cpu c s : 0 <= sstatus c < 2^64 -> get_cpu (set_cpu c s) = c.
Proof.
  intros H. destruct c as [n e x]. unfold get_cpu, set_cpu, set_csr. cbn [cnoff cintena chart csrs noff intena sstatus] in *.
  rewrite fn_lookup_insert, wrap64_small by done. done.
Qed.

Lemma wp_push s (Q : unit -> pst -> Prop) :
  cpu_ok s ->
  (forall s', procs s' = procs s -> same_rest s s' -> cnoff s' = cnoff s + 1 -> cpu_ok s' ->
     (cnoff s <> 0 -> cintena s' = cintena s) -> get_cpu s' = pushed (get_cpu s) -> Q tt s') ->
  wp (on_ccpu push_off) Q s.
Proof.
  intros [Hc Hr] HQ. apply wp_zoom. eapply wp_run; [apply push_off_run|]. pose proof (pushed_inv _ Hc) as Hp.
  assert (get_cpu (set_cpu (pushed (get_cpu s)) s) = pushed (get_cpu s)) as E by (apply get_set_cpu; apply Hp).
  apply HQ; try done.
  - split; [by rewrite E|]. rewrite <- E in Hp. apply Hp.
  - intros Hn. unfold pushed. cbn [cintena set_cpu intena noff get_cpu]. by rewrite (proj2 (Z.eqb_neq _ _) Hn).
Qed.

Lemma wp_pop s (Q : unit -> pst -> Prop) :
  cpu_ok s -> 0 < cnoff s ->
  (forall s', procs s' = procs s -> same_rest s s' -> cnoff s' = cnoff s - 1 -> cpu_ok s' -> cintena s' = cintena s ->
     get_cpu s' = popped (get_cpu s) -> Q tt s') ->
  wp (on_ccpu pop_off) Q s.
Proof.
  intros [Hc Hr] Hn HQ. apply wp_zoom. eapply wp_run; [by apply pop_off_run|]. pose proof (popped_inv _ Hc Hn) as Hp.
  assert (get_cpu (set_cpu (popped (get_cpu s)) s) = popped (get_cpu s)) as E by (apply get_set_cpu; apply Hp).
  apply HQ; try done. split; [by rewrite E|]. rewrite <- E in Hp. apply Hp.
Qed.

Definition spin_mine : spin := Spin true true.

Lemma wp_pacquire s i (Q : unit -> pst -> Prop) :
  cpu_ok s -> plock (proc_at s i) = spin_free ->
  (forall s', procs s' = <[i := set_plock spin_mine (proc_at s i)]> (procs s) -> same_rest s s' ->
     cnoff s' = cnoff s + 1 -> cpu_ok s' -> (cnoff s <> 0 -> cintena s' = cintena s) -> get_cpu s' = pushed (get_cpu s) -> Q tt s') ->
  wp (pacquire i) Q s.
Proof.
  intros Hc Hl HQ. unfold pacquire, lk_acquire. apply wp_bind. apply wp_push; [done|]. intros s1 Hp [] Hn Hc1 Hie Eg.
  assert (proc_at s1 i = proc_at s i) as Ep by (unfold proc_at; by rewrite Hp).
  apply wp_spin_acquire; [by rewrite Ep|]. apply HQ; try done.
  unfold set_proc_lock. cbn [procs set_procs]. by rewrite Ep, Hp.
Qed.

Lemma wp_prelease s i (Q : unit -> pst -> Prop) :
  cpu_ok s -> 0 < cnoff s -> plock (proc_at s i) = spin_mine ->
  (forall s', procs s' = <[i := set_plock spin_free (proc_at s i)]> (procs s) -> same_rest s s' ->
     cnoff s' = cnoff s - 1 -> cpu_ok s' -> cintena s' = cintena s -> get_cpu s' = popped (get_cpu s) -> Q tt s') ->
  wp (prelease i) Q s.
Proof.
  intros Hc Hn Hl HQ. unfold prelease, lk_release. apply wp_bind. apply wp_spin_release; [done|].
  apply wp_pop; [done|done|]. intros s1 Hp [] Hn1 Hc1 Hie Eg. by apply HQ.
Qed.

Lemma wp_cur s i (Q : nat -> pst -> Prop) :
  cpu_ok s -> cproc s = Some i ->
  (forall s', procs s' = procs s -> same_rest s s' -> cnoff s' = cnoff s -> cpu_ok s' -> (cnoff s <> 0 -> cintena s' = cintena s) ->
     csrs (chart s') Csstatus = csrs (chart s) Csstatus -> Q i s') ->
  wp cur Q s.
Proof.
  intros Hc Hi HQ. unfold cur, myproc. apply wp_bind, wp_bind. apply wp_push; [done|]. intros s1 Hp1 R1 Hn1 Hc1 Hie1 E1.
  assert (0 <= cnoff s) by apply Hc. apply wp_bind, wp_gets. apply wp_bind. apply wp_pop; [done|lia|].
  intros s2 Hp2 R2 Hn2 Hc2 Hie2 E2. apply wp_ret. rewrite (sr_cproc _ _ R1), Hi. apply wp_ret. apply HQ.
  - congruence.
  - by eapply same_rest_trans.
  - lia.
  - done.
  - intros ?. rewrite Hie2. by apply Hie1.
  - change (csrs (chart s2) Csstatus) with (sstatus (get_cpu s2)). rewrite E2, E1. by apply push_pop, Hc.
Qed.

(** ** The table between operations *)

Definition unlocked (s : pst) : Prop := length (procs s) = Z.to_nat NPROC /\ Forall (fun p => plock p = spin_free) (procs s).

Lemma unlocked_at s i : unlocked s -> plock (proc_at s i) = spin_free.
Proof.
  intros [_ H]. unfold proc_at. destruct (procs s !! i) as [p|] eqn:E; [|done]. by eapply Forall_lookup_1 in H.
Qed.

Lemma proc_at_lookup s i p : procs s !! i = Some p -> proc_at s i = p.
Proof. unfold proc_at. by intros ->. Qed.

Lemma proc_at_insert s s' i p : procs s' = <[i := p]> (procs s) -> (i < length (procs s))%nat -> proc_at s' i = p.
Proof. intros E H. unfold proc_at. by rewrite E, list_lookup_insert_eq. Qed.

Lemma proc_at_insert_ne s s' i j p : procs s' = <[i := p]> (procs s) -> i <> j -> proc_at s' j = proc_at s j.
Proof. intros E H. unfold proc_at. by rewrite E, list_lookup_insert_ne. Qed.

Lemma set_plock_id x p : plock p = x -> set_plock x p = p.
Proof. intros <-. by destruct p. Qed.

Lemma set_plock_twice x y p : set_plock x (set_plock y p) = set_plock x p.
Proof. by destruct p. Qed.

(** A test and an update of one process under its lock. *)
Definition locked_update (i : nat) (P : proc -> Prop) `{!forall p, Decision (P p)} (f : proc -> proc) : M pst unit :=
  pacquire i ;;
  let! p := get_proc i in
  (if decide (P p) then upd_proc i f else ret tt) ;;
  prelease i.

Lemma wp_locked_update s i (P : proc -> Prop) `{!forall p, Decision (P p)} (f : proc -> proc) (Q : unit -> pst -> Prop) :
  cpu_ok s -> (i < length (procs s))%nat -> plock (proc_at s i) = spin_free ->
  (forall x p, P (set_plock x p) <-> P p) -> (forall x p, f (set_plock x p) = set_plock x (f p)) ->
  (forall s', procs s' = <[i := if decide (P (proc_at s i)) then f (proc_at s i) else proc_at s i]> (procs s) -> same_rest s s' ->
     cnoff s' = cnoff s -> cpu_ok s' -> (cnoff s <> 0 -> cintena s' = cintena s) -> Q tt s') ->
  wp (locked_update i P f) Q s.
Proof.
  intros Hc Hi Hl HP Hf HQ. unfold locked_update. assert (0 <= cnoff s) by apply Hc.
  apply wp_bind. apply wp_pacquire; [done|done|]. intros s1 E1 R1 N1 C1 IE1 _. apply wp_bind, wp_gets.
  rewrite (proc_at_insert s s1 i _ E1 Hi). rewrite (decide_ext _ _ _ _ (HP spin_mine (proc_at s i))). set (p := proc_at s i) in *.
  assert (length (procs s1) = length (procs s)) as L1 by (by rewrite E1, length_insert).
  apply wp_bind. eapply (wp_conseq _ (fun _ s2 => procs s2 = <[i := set_plock spin_mine (if decide (P p) then f p else p)]> (procs s) /\ same_rest s s2 /\
    cnoff s2 = cnoff s + 1 /\ cpu_ok s2 /\ cintena s2 = cintena s1)).
  - destruct (decide (P p)).
    + apply wp_modify. split; [|split; [by destruct R1|done]]. cbn [procs set_procs]. rewrite (proc_at_insert s s1 i _ E1 Hi), E1, list_insert_insert_eq. by rewrite Hf.
    + apply wp_ret. done.
  - intros [] s2 (E2 & R2 & N2 & C2 & IE2). apply wp_prelease; [done|lia| |].
    + by rewrite (proc_at_insert s s2 i _ E2 Hi).
    + intros s3 E3 R3 N3 C3 IE3 _. apply HQ.
      * rewrite E3, (proc_at_insert s s2 i _ E2 Hi), E2, list_insert_insert_eq. f_equal.
        rewrite set_plock_twice. destruct (decide (P p)); [rewrite <- Hf|]; by rewrite set_plock_id.
      * by eapply same_rest_trans.
      * lia.
      * done.
      * intros ?. rewrite IE3, IE2. by apply IE1.
Qed.

(** The same for every process of the table. *)
Lemma wp_locked_updates s (P : nat -> proc -> Prop) `{!forall i p, Decision (P i p)} (f : nat -> proc -> proc) (Q : unit -> pst -> Prop) :
  cpu_ok s -> unlocked s -> (forall i x p, P i (set_plock x p) <-> P i p) -> (forall i x p, f i (set_plock x p) = set_plock x (f i p)) ->
  (forall s', procs s' = imap (fun i p => if decide (P i p) then f i p else p) (procs s) -> same_rest s s' -> cnoff s' = cnoff s -> cpu_ok s' ->
     (cnoff s <> 0 -> cintena s' = cintena s) -> Q tt s') ->
  wp (for_each table (fun i => locked_update i (P i) (f i))) Q s.
Proof.
  intros Hc Hu HP Hf HQ. pose proof Hu as [Hlen _]. set (g := fun i p => if decide (P i p) then f i p else p).
  eapply wp_conseq; [apply (wp_for_each _ (fun rest s' => exists k, rest = drop k table /\ (k <= 64)%nat /\
     (forall j, procs s' !! j = if decide (j < k)%nat then g j <$> procs s !! j else procs s !! j) /\
     same_rest s s' /\ cnoff s' = cnoff s /\ cpu_ok s' /\ (cnoff s <> 0 -> cintena s' = cintena s)))|].
  - intros i rest s1 (k & E & Hk & Hp & R & N & C & IE).
    assert (table !! k = Some i) as Hi by (rewrite <- (Nat.add_0_r k), <- lookup_drop, <- E; done).
    unfold table in Hi. apply lookup_seq in Hi as [-> Hk2]. change (Z.to_nat NPROC) with 64%nat in Hk2. rewrite Nat.add_0_l in *.
    assert (proc_at s1 k = proc_at s k) as Ek by (unfold proc_at; rewrite Hp, decide_False by lia; done).
    destruct (lookup_lt_is_Some_2 (procs s) k) as [p Hpk]; [rewrite Hlen; change (Z.to_nat NPROC) with 64%nat; lia|].
    assert (procs s1 !! k = Some p) as Hp1 by (rewrite Hp, decide_False by lia; done).
    apply wp_locked_update; try done.
    + by eapply lookup_lt_Some.
    + rewrite Ek. by apply unlocked_at.
    + intros s2 E2 R2 N2 C2 IE2. exists (S k). split; [|split; [lia|split]].
      * change (seq 0 (Z.to_nat NPROC)) with table in E. rewrite (drop_S table k k) in E by (unfold table; apply lookup_seq; done). congruence.
      * intros j. rewrite E2, (proc_at_lookup _ _ _ Hp1). fold (g k p). destruct (decide (j = k)) as [->|Hne].
        -- rewrite list_lookup_insert_eq by (by eapply lookup_lt_Some). rewrite decide_True by lia. by rewrite Hpk.
        -- rewrite list_lookup_insert_ne by done. rewrite Hp. destruct (decide (j < k)%nat), (decide (j < S k)%nat); (done || lia).
      * split; [by eapply same_rest_trans|]. split; [lia|]. split; [done|]. intros ?. rewrite IE2 by lia. by apply IE.
  - exists O. split; [done|]. split; [lia|]. split; [done|]. split; [done|]. split; [done|]. split; [done|]. done.
  - intros [] s1 (k & E & Hk & Hp & R & N & C & IE). apply HQ; try done. apply list_eq. intros j. rewrite Hp, list_lookup_imap.
    assert (k = 64)%nat as ->. { apply (f_equal length) in E. rewrite length_drop in E. change (length table) with 64%nat in E. simpl in E. lia. }
    case_decide as Hj; [by destruct (procs s !! j)|]. rewrite lookup_ge_None_2; [done|]. rewrite Hlen. change (Z.to_nat NPROC) with 64%nat. lia.
Qed.

(** ** wakeup *)

Definition woken (ch : wchan) (p : proc) : proc :=
  if decide (pstate p = SLEEPING /\ chan p = Some ch) then set_pstate RUNNABLE p else p.

Lemma wp_wakeup s ch (Q : unit -> pst -> Prop) :
  cpu_ok s -> unlocked s ->
  (forall s', procs s' = woken ch <$> procs s -> same_rest s s' -> cnoff s' = cnoff s -> cpu_ok s' ->
     (cnoff s <> 0 -> cintena s' = cintena s) -> Q tt s') ->
  wp (wakeup ch) Q s.
Proof.
  intros Hc Hu HQ. unfold wakeup.
  apply (wp_locked_updates s (fun _ p => pstate p = SLEEPING /\ chan p = Some ch) (fun _ => set_pstate RUNNABLE)); try done.
  intros s' E. apply HQ. etrans; [exact E|]. apply (imap_const (woken ch)).
Qed.

Lemma woken_not_asleep ch p : ~ (pstate (woken ch p) = SLEEPING /\ chan (woken ch p) = Some ch).
Proof. unfold woken. case_decide as D; [|done]. by intros [? _]. Qed.

(** ** Giving up the processor *)

Lemma wp_sched s i (Q : bool -> pst -> Prop) :
  cpu_ok s -> cproc s = Some i -> plock (proc_at s i) = spin_mine -> cnoff s = 1 -> pstate (proc_at s i) <> RUNNING ->
  (forall s', procs s' = procs s -> same_rest s s' -> cnoff s' = 1 -> cpu_ok s' -> Q (cintena s) s') ->
  wp sched Q s.
Proof.
  intros Hc Hi Hl Hn Hr HQ. unfold sched. apply wp_bind. eapply wp_cur; [done|done|]. intros s1 E1 R1 N1 C1 IE1 S1.
  assert (proc_at s1 i = proc_at s i) as Ep by (unfold proc_at; by rewrite E1).
  apply wp_bind, wp_gets. rewrite Ep, Hl. cbn [sheld smine spin_mine andb negb]. apply wp_bind, wp_gets. rewrite N1, Hn. cbn [Z.eqb Pos.eqb negb].
  apply wp_bind, wp_gets. rewrite Ep, decide_False by done. apply wp_bind. apply wp_zoom. apply wp_gets.
  rewrite intr_get_spec. unfold intr_enabled. destruct C1 as [(_ & _ & Hoff) Hrange]. rewrite Hoff by (cbn [noff get_cpu]; lia).
  assert (get_cpu (set_cpu (get_cpu s1) s1) = get_cpu s1) as Eg by (by apply get_set_cpu).
  apply wp_gets. cbn [cintena set_cpu intena get_cpu]. rewrite IE1 by lia. apply HQ; try done.
  - by destruct R1.
  - cbn [cnoff set_cpu noff get_cpu]. lia.
  - split; [rewrite Eg; split; [cbn [noff get_cpu]; lia|split; [done|done]]|].
    change (csrs (chart (set_cpu (get_cpu s1) s1)) Csstatus) with (sstatus (get_cpu (set_cpu (get_cpu s1) s1))). by rewrite Eg.
Qed.

(** [rel] releases a lock outside of the table in state [s1]. *)
Definition releases (rel : M pst unit) (s1 : pst) : Prop := forall Q : unit -> pst -> Prop,
  (forall s2, procs s2 = procs s1 -> same_rest s1 s2 -> cnoff s2 = cnoff s1 - 1 -> cpu_ok s2 -> cintena s2 = cintena s1 -> Q tt s2) -> wp rel Q s1.


(** ** The scheduler *)

(** The table while process [i] runs or is about to: its lock is this hart's,
    the others are free. *)
Record running (i : nat) (s : pst) : Prop := {
  rn_cpu : cpu_ok s;
  rn_noff : cnoff s = 1;
  rn_cproc : cproc s = Some i;
  rn_len : length (procs s) = Z.to_nat NPROC;
  rn_mine : plock (proc_at s i) = spin_mine;
  rn_free : forall j, j <> i -> plock (proc_at s j) = spin_free;
}.

(** What the scheduler relies on: a process comes back with its lock held and
    does not take [RUNNABLE] away from another one. *)
Definition comes_back (run : nat -> M pst unit) : Prop := forall i s, running i s -> pstate (proc_at s i) = RUNNING ->
  wp (run i) (fun _ s' => running i s' /\ forall j, j <> i -> pstate (proc_at s j) = RUNNABLE -> pstate (proc_at s' j) = RUNNABLE) s.

Record idle (s : pst) : Prop := {
  id_cpu : cpu_ok s;
  id_noff : cnoff s = 0;
  id_unlocked : unlocked s;
}.

Lemma wp_scheduler_step (run : nat -> M pst unit) s i (Q : bool -> pst -> Prop) :
  comes_back run -> idle s -> (i < Z.to_nat NPROC)%nat ->
  (forall s', idle s' -> (forall j, j <> i -> pstate (proc_at s j) = RUNNABLE -> pstate (proc_at s' j) = RUNNABLE) ->
     Q (bool_decide (pstate (proc_at s i) = RUNNABLE)) s') ->
  wp (let! sw := scheduler_try i in (if (sw : bool) then run i ;; scheduler_back i else ret tt) ;; ret sw) Q s.
Proof.
  intros Hrun [Hc Hn Hu] Hi HQ. assert (i < length (procs s))%nat as Hil by (destruct Hu as [-> _]; done).
  unfold scheduler_try. apply wp_bind, wp_bind. apply wp_pacquire; [done|by apply unlocked_at|]. intros s1 E1 R1 N1 C1 _ _.
  pose proof (proc_at_insert s s1 i _ E1 Hil) as P1. assert (forall j, i <> j -> proc_at s1 j = proc_at s j) as O1.
  { intros j Hj. by eapply proc_at_insert_ne. }
  assert (length (procs s1) = Z.to_nat NPROC) as L1 by (rewrite E1, length_insert; apply Hu).
  apply wp_bind, wp_gets. rewrite P1. cbn [pstate set_plock]. destruct (decide (pstate (proc_at s i) = RUNNABLE)) as [Hr|Hr].
  - rewrite bool_decide_true in HQ by done. apply wp_bind, wp_modify. apply wp_bind, wp_modify. apply wp_ret.
    set (s2 := set_cproc _ _).
    assert (procs s2 = <[i := set_pstate RUNNING (set_plock spin_mine (proc_at s i))]> (procs s)) as E2.
    { change (procs s2) with (<[i := set_pstate RUNNING (proc_at s1 i)]> (procs s1)). by rewrite P1, E1, list_insert_insert_eq. }
    apply wp_bind, wp_bind. eapply wp_conseq; [apply (Hrun i s2)|].
    + constructor; try done.
      * change (cnoff s2) with (cnoff s1). lia.
      * by rewrite E2, length_insert, (proj1 Hu).
      * by rewrite (proc_at_insert s s2 i _ E2 Hil).
      * intros j Hj. rewrite (proc_at_insert_ne s s2 i j _ E2) by done. by apply unlocked_at.
    + by rewrite (proc_at_insert s s2 i _ E2 Hil).
    + intros [] s3 [[C3 N3 K3 L3 M3 F3] Hkeep]. unfold scheduler_back. apply wp_bind, wp_modify.
      apply wp_prelease; [done|cbn; lia|done|]. intros s4 E4 R4 N4 C4 _ _. cbn [procs set_cproc] in E4.
      apply wp_ret. apply HQ.
      * constructor; [done|rewrite N4; cbn; lia|]. split; [by rewrite E4, length_insert|]. apply Forall_lookup_2. intros j p Hp.
        rewrite E4 in Hp. destruct (decide (i = j)) as [->|Hne].
        -- rewrite list_lookup_insert_eq in Hp by (rewrite L3; done). by injection Hp as <-.
        -- rewrite list_lookup_insert_ne in Hp by done. rewrite <- (proc_at_lookup s3 j p Hp). by apply F3.
      * intros j Hj Hrj. unfold proc_at. rewrite E4, list_lookup_insert_ne by done. apply Hkeep; [done|].
        by rewrite (proc_at_insert_ne s s2 i j _ E2).
  - rewrite bool_decide_false in HQ by done. apply wp_bind. apply wp_prelease; [done|lia|by rewrite P1|].
    intros s2 E2 R2 N2 C2 _ _. apply wp_ret. apply wp_bind, wp_ret, wp_ret.
    assert (procs s2 = procs s) as E.
    { rewrite E2, P1, E1, list_insert_insert_eq. apply list_insert_id. cbn.
      destruct (lookup_lt_is_Some_2 _ _ Hil) as [p Hp]. rewrite Hp, (proc_at_lookup _ _ _ Hp). f_equal. symmetry.
      rewrite set_plock_twice. apply set_plock_id. rewrite <- (proc_at_lookup _ _ _ Hp). by apply unlocked_at. }
    apply HQ.
    + constructor; [done|lia|]. unfold unlocked. by rewrite E.
    + intros j _ Hj. unfold proc_at. by rewrite E.
Qed.

Lemma wp_scheduler_loop (run : nat -> M pst unit) l : forall s (Q : list nat -> pst -> Prop),
  comes_back run -> idle s -> NoDup l -> (forall i, i ∈ l -> (i < Z.to_nat NPROC)%nat) ->
  (forall ran s', idle s' -> ran `sublist_of` l -> (forall i, i ∈ l -> pstate (proc_at s i) = RUNNABLE -> i ∈ ran) -> Q ran s') ->
  wp (scheduler_loop run l) Q s.
Proof.
  induction l as [|i l IH]; intros s Q Hrun Hid Hnd Hl HQ.
  { apply wp_ret. apply HQ; [done|constructor|]. intros i Hi. by apply not_elem_of_nil in Hi. }
  apply NoDup_cons in Hnd as [Hni Hnd]. cbn [scheduler_loop].
  assert (wp (let! sw := (let! sw := scheduler_try i in (if (sw : bool) then run i ;; scheduler_back i else ret tt) ;; ret sw) in
     let! ran := scheduler_loop run l in ret (if (sw : bool) then i :: ran else ran)) Q s) as H.
  2: { unfold wp in *. revert H. unfold bind, ret. destruct (scheduler_try i s) as [sw s1| | |]; try done.
       destruct sw; [|done]. destruct (run i s1) as [[] s2| | |]; try done. by destruct (scheduler_back i s2) as [[] ?| | |]. }
  apply wp_bind. apply (wp_scheduler_step run); [done|done|apply Hl; by left|]. intros s1 Hid1 Hk.
  apply wp_bind. apply IH; [done|done|done|by intros; apply Hl; right|]. intros ran s2 Hid2 Hsub Hall. apply wp_ret. apply HQ; [done| |].
  - case_bool_decide; by constructor.
  - intros j [->|Hj]%elem_of_cons Hr; [rewrite bool_decide_true by done; by left|].
    assert (j ∈ ran) by (apply Hall; [done|apply Hk; [by intros ->|done]]). case_bool_decide; [by right|done].
Qed.

Lemma wp_intr_on s (Q : unit -> pst -> Prop) :
  idle s -> (forall s', idle s' -> procs s' = procs s -> Q tt s') -> wp (on_ccpu intr_on) Q s.
Proof.
  intros [[(Hn & Hs & Hi) Hr] H0 Hu] HQ. apply wp_zoom, wp_modify.
  set (x := Z.lor (sstatus (get_cpu s)) SSTATUS_SIE). assert (0 <= x < 2^64) as Hx.
  { assert (0 <= x) by (apply Z.lor_nonneg; split; [apply Hr|done]). split; [done|].
    apply bits_bound; [lia|done|]. intros i Hl. unfold x. rewrite intr_on_bits, (testbit_above _ i 64) by lia.
    apply Z.eqb_neq. lia. }
  assert (get_cpu (set_cpu (set_sstatus x (get_cpu s)) s) = set_sstatus x (get_cpu s)) as Eg by (by apply get_set_cpu).
  apply HQ; [|done]. constructor; [|done|done]. split.
  - rewrite Eg. split; [done|]. split; [done|]. cbn [noff set_sstatus get_cpu]. lia.
  - change (csrs (chart (set_cpu (set_sstatus x (get_cpu s)) s)) Csstatus) with (sstatus (get_cpu (set_cpu (set_sstatus x (get_cpu s)) s))).
    by rewrite Eg.
Qed.

(** C28. The scheduler is fair: one pass over the table runs every process that
    was runnable when the pass began, each process at most once, and leaves
    all locks free. *)
Theorem scheduler_fair (run : nat -> M pst unit) s :
  comes_back run -> idle s ->
  wp (scheduler_pass run) (fun ran s' => NoDup ran /\ unlocked s' /\
    forall i, (i < Z.to_nat NPROC)%nat -> pstate (proc_at s i) = RUNNABLE -> i ∈ ran) s.
Proof.
  intros Hrun Hid. unfold scheduler_pass. apply wp_bind. apply wp_intr_on; [done|]. intros s1 Hid1 E1.
  apply wp_bind. apply (wp_scheduler_loop run); [done|done|apply NoDup_seq| |].
  { intros i Hi. apply elem_of_seq in Hi. lia. }
  intros ran s2 Hid2 Hsub Hall. apply wp_bind.
  apply (wp_conseq _ (fun _ s' => unlocked s')); [destruct (decide (ran = []));
    [apply wp_intr_on; [done|]; intros s3 Hid3 _; apply Hid3|apply wp_ret; apply Hid2]|].
  intros [] s3 Hu. apply wp_ret. split; [|split; [done|]].
  - eapply sublist_NoDup; [apply NoDup_seq|exact Hsub].
  - intros i Hi Hr. apply Hall; [apply elem_of_seq; lia|]. unfold proc_at. by rewrite E1.
Qed.

(** ** Processes that only compute *)

(** A process that returns to user space, is interrupted by the timer there
    and yields. *)
Definition compute (i : nat) : M pst unit := prelease i ;; let! _ := yield in ret tt.

Lemma compute_comes_back : comes_back compute.
Proof.
  intros i s [Hc Hn Hp Hl Hm Hf] Hr. unfold compute. destruct (decide (i < length (procs s))%nat) as [Hil|Hil].
  2: { unfold proc_at in Hm. rewrite lookup_ge_None_2 in Hm by lia. done. }
  apply wp_bind. apply wp_prelease; [done|lia|done|]. intros s1 E1 R1 N1 C1 _ _.
  pose proof (proc_at_insert s s1 i _ E1 Hil) as P1. unfold yield. apply wp_bind, wp_bind.
  eapply (wp_cur s1 i); [done|by rewrite (sr_cproc _ _ R1)|]. intros s2 E2 R2 N2 C2 _ _.
  assert (proc_at s2 i = set_plock spin_free (proc_at s i)) as P2 by (unfold proc_at at 1; rewrite E2; exact P1).
  apply wp_bind. apply wp_pacquire; [done|by rewrite P2|]. intros s3 E3 R3 N3 C3 _ _.
  rewrite P2, E2, E1, list_insert_insert_eq, set_plock_twice in E3. apply wp_bind, wp_modify. set (s4 := set_procs _ s3).
  assert (procs s4 = <[i := set_pstate RUNNABLE (set_plock spin_mine (proc_at s i))]> (procs s)) as E4.
  { change (procs s4) with (<[i := set_pstate RUNNABLE (proc_at s3 i)]> (procs s3)).
    rewrite (proc_at_insert s s3 i _ E3 Hil), E3. by rewrite list_insert_insert_eq. }
  assert (cproc s4 = Some i) as K4 by (change (cproc s4) with (cproc s3); destruct R1, R2, R3; congruence).
  eapply (wp_sched s4 i); try done.
  - by rewrite (proc_at_insert s s4 i _ E4 Hil).
  - change (cnoff s4) with (cnoff s3). lia.
  - by rewrite (proc_at_insert s s4 i _ E4 Hil).
  - intros s5 E5 R5 N5 C5. apply wp_ret. split; [constructor|].
    + done.
    + done.
    + by rewrite (sr_cproc _ _ R5).
    + by rewrite E5, E4, length_insert.
    + rewrite E4 in E5. by rewrite (proc_at_insert s s5 i _ E5 Hil).
    + intros j Hj. rewrite E4 in E5. rewrite (proc_at_insert_ne s s5 i j _ E5) by done. by apply Hf.
    + intros j Hj Hrj. rewrite E4 in E5. by rewrite (proc_at_insert_ne s s5 i j _ E5).
Qed.

(** Two runnable processes on an idle hart. *)
Definition ex_pst : pst :=
  PSt (set_pstate RUNNABLE proc0 :: set_pstate RUNNABLE proc0 :: replicate 62 proc0) 3 spin_free (Some 0%nat) 0 false None
      (Hart (fun _ => 0) (fun _ => 0) PrivS 0) (Kst ∅ (Kmem spin_free 0)).

Lemma ex_idle : idle ex_pst.
Proof.
  constructor; [|done|].
  - split; [|done]. split; [done|]. split; [done|]. cbn. lia.
  - split; [done|]. by repeat constructor.
Qed.

Lemma scheduler_fair_witness : wp (scheduler_pass compute) (fun ran _ => 0%nat ∈ ran /\ 1%nat ∈ ran) ex_pst.
Proof.
  eapply wp_conseq; [exact (scheduler_fair compute ex_pst compute_comes_back ex_idle)|].
  intros ran s' (_ & _ & H). split; (apply H; [apply Nat.ltb_lt; reflexivity|reflexivity]).
Defined.


(** A process about to sleep with a lock of another component held. *)
Definition ex_sleeper : pst :=
  PSt (set_pstate RUNNING proc0 :: replicate 63 proc0) 3 spin_free (Some 0%nat) 1 true (Some 0%nat)
      (Hart (fun _ => 0) (fun _ => 0) PrivS 0) (Kst ∅ (Kmem spin_free 0)).

Lemma ex_sleeper_ok : cpu_ok ex_sleeper /\ unlocked ex_sleeper.
Proof. split; [|split; [done|by repeat constructor]]. split; [|done]. split; [done|]. by split. Qed.

Lemma pop_releases s1 : cpu_ok s1 -> 0 < cnoff s1 -> releases (on_ccpu pop_off) s1.
Proof. intros Hc Hn Q HQ. apply wp_pop; [done|done|]. intros s2 E R N C IE _. by apply HQ. Qed.


(** ** kill *)

Definition slain (p : proc) : proc :=
  if decide (pstate p = SLEEPING) then set_pstate RUNNABLE (set_killed 1 p) else set_killed 1 p.

Lemma wp_kill_loop s n l : forall (Q : Z -> pst -> Prop),
  cpu_ok s -> unlocked s -> forall k, l = seq k (Z.to_nat NPROC - k) ->
  (forall i p s', (k <= i)%nat -> procs s !! i = Some p -> pid p = n -> (forall j q, (k <= j < i)%nat -> procs s !! j = Some q -> pid q <> n) ->
     procs s' = <[i := slain p]> (procs s) -> same_rest s s' -> cnoff s' = cnoff s -> cpu_ok s' -> Q 0 s') ->
  (forall s', (forall j q, (k <= j)%nat -> procs s !! j = Some q -> pid q <> n) -> procs s' = procs s -> same_rest s s' -> cnoff s' = cnoff s -> cpu_ok s' -> Q (-1) s') ->
  wp (kill_loop l n) Q s.
Proof.
  revert s. induction l as [|i l IH]; intros s Q Hc Hu k El Hfound Hnone.
  { apply wp_ret. apply Hnone; try done. intros j q Hj Hq. apply lookup_lt_Some in Hq. destruct Hu as [Hlen _].
    apply (f_equal length) in El. rewrite length_seq in El. cbn [length] in El. rewrite Hlen in Hq. lia. }
  assert (k < Z.to_nat NPROC)%nat as Hk. { apply (f_equal length) in El. rewrite length_seq in El. cbn [length] in El. lia. }
  replace (Z.to_nat NPROC - k)%nat with (S (Z.to_nat NPROC - S k)) in El by lia. injection El as -> El.
  assert (k < length (procs s))%nat as Hkl by (destruct Hu as [-> _]; done). assert (0 <= cnoff s) by apply Hc.
  destruct (lookup_lt_is_Some_2 _ _ Hkl) as [p Hp]. pose proof (proc_at_lookup _ _ _ Hp) as Ep.
  cbn [kill_loop]. apply wp_bind. apply wp_pacquire; [done|by apply unlocked_at|]. intros s1 E1 R1 N1 C1 _ _.
  pose proof (proc_at_insert s s1 k _ E1 Hkl) as P1. rewrite Ep in P1, E1. apply wp_bind, wp_gets. rewrite P1. cbn [pid set_plock].
  assert (plock p = spin_free) as Hpl by (rewrite <- Ep; by apply unlocked_at).
  destruct (pid p =? n) eqn:En; b2p.
  - apply wp_bind, wp_modify. set (s2 := set_procs _ s1).
    assert (procs s2 = <[k := set_killed 1 (set_plock spin_mine p)]> (procs s)) as E2.
    { change (procs s2) with (<[k := set_killed 1 (proc_at s1 k)]> (procs s1)). by rewrite P1, E1, list_insert_insert_eq. }
    apply wp_bind. apply (wp_conseq _ (fun _ s3 => procs s3 = <[k := set_plock spin_mine (slain p)]> (procs s) /\ same_rest s s3 /\
      cnoff s3 = cnoff s + 1 /\ cpu_ok s3)).
    + unfold slain. cbn [pstate set_plock]. destruct (decide (pstate p = SLEEPING)).
      * apply wp_modify. split; [|split; [by destruct R1|done]].
        change (<[k := set_pstate RUNNABLE (proc_at s2 k)]> (procs s2) = <[k := set_plock spin_mine (set_pstate RUNNABLE (set_killed 1 p))]> (procs s)).
        by rewrite (proc_at_insert s s2 k _ E2 Hkl), E2, list_insert_insert_eq.
      * apply wp_ret. split; [by rewrite E2|]. split; [by destruct R1|done].
    + intros [] s3 (E3 & R3 & N3 & C3). apply wp_bind. apply wp_prelease; [done|lia|by rewrite (proc_at_insert s s3 k _ E3 Hkl)|].
      intros s4 E4 R4 N4 C4 _ _. apply wp_ret. apply (Hfound k p); try done; [lia| |by eapply same_rest_trans|lia].
      rewrite E4, (proc_at_insert s s3 k _ E3 Hkl), E3, list_insert_insert_eq, set_plock_twice. f_equal.
      apply set_plock_id. unfold slain. by case_decide.
  - apply wp_bind. apply wp_prelease; [done|lia|by rewrite P1|]. intros s2 E2 R2 N2 C2 _ _.
    assert (procs s2 = procs s) as E.
    { rewrite E2, P1, E1, list_insert_insert_eq, set_plock_twice, set_plock_id by done. by apply list_insert_id. }
    apply (IH s2 _ C2) with (k := S k); [unfold unlocked; by rewrite E|done| |]; rewrite E.
    + intros j q s3 Hj Hq Hn Hlow E3 R3 N3 C3. apply (Hfound j q s3); try done; [lia| |by eapply same_rest_trans; [|done]; eapply same_rest_trans|lia].
      intros j' q' Hj' Hq'. destruct (decide (j' = k)) as [->|]; [congruence|]. apply (Hlow j' q'); [lia|done].
    + intros s3 Hall E3 R3 N3 C3. apply Hnone; try done; [|by eapply same_rest_trans; [|done]; eapply same_rest_trans|lia].
      intros j q Hj Hq. destruct (decide (j = k)) as [->|]; [congruence|]. apply (Hall j q); [lia|done].
Qed.

(** [kill(pid)] marks the first entry of the table with that pid as killed,
    wakes it if it sleeps, and returns 0; it returns -1 and changes nothing
    when there is none.  The state of the entry is not looked at. *)
Theorem kill_correct s n :
  cpu_ok s -> unlocked s ->
  wp (kill n) (fun r s' => same_rest s s' /\
    ((r = 0 /\ exists i p, procs s !! i = Some p /\ pid p = n /\ (forall j q, (j < i)%nat -> procs s !! j = Some q -> pid q <> n) /\
        procs s' = <[i := slain p]> (procs s)) \/
     (r = -1 /\ (forall j q, procs s !! j = Some q -> pid q <> n) /\ procs s' = procs s))) s.
Proof.
  intros Hc Hu. apply (wp_kill_loop s n table) with (k := O); try done.
  - intros i p s' _ Hp Hn Hlow E R _ _. split; [done|]. left. split; [done|]. exists i, p. split; [done|]. split; [done|]. split; [|done].
    intros j q Hj. apply Hlow. lia.
  - intros s' Hall E R _ _. split; [done|]. right. split; [done|]. split; [|done]. intros j q. apply Hall. lia.
Qed.

Lemma kill_correct_witness : wp (kill 7) (fun r s' => procs s' = procs ex_sleeper /\ r = -1) ex_sleeper.
Proof.
  eapply wp_conseq; [exact (kill_correct ex_sleeper 7 (proj1 ex_sleeper_ok) (proj2 ex_sleeper_ok))|].
  intros r s' (_ & [(_ & i & p & Hp & Hn & _)|(-> & _ & E)]); [|by split]. exfalso.
  assert (Forall (fun q => pid q = 0) (procs ex_sleeper)) as HF by (by repeat constructor).
  eapply Forall_lookup_1 in HF; [|exact Hp]. rewrite Hn in HF. discriminate HF.
Defined.

(** ** A free entry that was killed *)

(** Process 0 runs, the other entries are free, and there are eight free pages. *)
Definition ex_pages : list Z := (fun k => 0x80100000 + 4096 * k) <$> [0; 1; 2; 3; 4; 5; 6; 7].
Fixpoint ex_links (l : list Z) (m : gmap Z Z) : gmap Z Z :=
  match l with
  | [] => m
  | p :: l' => ex_links l' (store64 m p (default 0 (head l')))
  end.
Definition ex_boot : pst :=
  PSt (set_pid 1 (set_pstate RUNNING proc0) :: replicate 63 proc0) 2 spin_free (Some 0%nat) 0 false (Some 0%nat)
      (Hart (fun _ => 0) (fun _ => 0) PrivS 0) (Kst (ex_links ex_pages ∅) (Kmem spin_free 0x80100000)).

(** The test on the outcomes of the two calls. *)
Definition born_killed (o : outcome pst Z) (alloc : pst -> outcome pst (option nat)) : bool :=
  match o with
  | Ok 0 s1 =>
      match alloc s1 with
      | Ok (Some i) s2 => (killed (proc_at s2 i) =? 1) && (pid (proc_at s2 i) =? 2) && (i =? 1)%nat
      | _ => false
      end
  | _ => false
  end.

Lemma born_killed_true o alloc : born_killed o alloc = true -> exists s1 s2,
  o = Ok 0 s1 /\ alloc s1 = Ok (Some 1%nat) s2 /\ killed (proc_at s2 1) = 1 /\ pid (proc_at s2 1) = 2.
Proof.
  unfold born_killed. destruct o as [r s1| | |]; try done. destruct r; try done.
  destruct (alloc s1) as [[i|] s2| | |] eqn:E; try done. rewrite !andb_true_iff, Nat.eqb_eq, !Z.eqb_eq. intros [[? ?] ->].
  by exists s1, s2.
Qed.

Lemma ex_born_killed : born_killed (kill 0 ex_boot) (allocproc 0x80010000 0x80008000 0x80001000) = true.
Proof. vm_compute. reflexivity. Qed.

