(* ===== verification/UserCall.v ===== *)
(** * A process in a system call

    The state in which the kernel runs on behalf of a process, and the copy of
    one byte from and to its memory. *)

From S2P Require Import Prelude Riscv Memory Spinlock Kalloc Vm PageTable VmMap UserVm VmCopy VmExample Hart Proc ProcProof.

Definition is_byte (b : Z) : Prop := 0 <= b < 256.

(** What the process sees at its virtual address [va]. *)
Definition ubyte (m : gmap Z Z) (t : ptree) (va : Z) : option Z := load8 m <$> upa m t va.
Definition user_bytes (m : gmap Z Z) (t : ptree) (addr : Z) (bs : list Z) : Prop :=
  forall j b, bs !! j = Some b -> ubyte m t (addr + Z.of_nat j) = Some b.

Section call.
Context (kend kobj : Z) (Hend : 0 < kend).

(** Process [i] runs, with address space [t] over the pages [D]; no lock of
    the table is held, and the object at [kobj] is memory of the kernel. *)
Record call_ok (i : nat) (l : list Z) (t : ptree) (D : list Z) (s : pst) : Prop := {
  co_cpu : cpu_ok s;
  co_unlocked : unlocked s;
  co_cur : cproc s = Some i;
  co_pt : pagetable (proc_at s i) = root t;
  co_user : user_ok kend (km s) l t D;
  co_buf : kernel_buf l t D kobj 1;
}.

Lemma call_ok_same i l t D s s' :
  call_ok i l t D s -> procs s' = procs s -> same_rest s s' -> cpu_ok s' -> call_ok i l t D s'.
Proof.
  intros [] E [] ?. constructor; try done; try congruence.
  - unfold unlocked. by rewrite E.
  - unfold proc_at. by rewrite E.
Qed.

Lemma call_ok_woken i l t D s s' ch :
  call_ok i l t D s -> procs s' = woken ch <$> procs s -> same_rest s s' -> cpu_ok s' -> call_ok i l t D s'.
Proof.
  intros [? [Hlen Hl] ? Hpt] E [] ?. constructor; try done; try congruence.
  - split; rewrite E; [by rewrite length_fmap|]. apply Forall_fmap. eapply Forall_impl; [done|]. intros p Hp. cbn. unfold woken. by case_decide.
  - rewrite <- Hpt. unfold proc_at. rewrite E, list_lookup_fmap. destruct (procs s !! i) as [p|]; [|done]. cbn. unfold woken. by case_decide.
Qed.

Lemma call_ok_km i l t D s m : call_ok i l t D s -> user_ok kend m l t D -> call_ok i l t D (set_km m s).
Proof. intros [] ?. by constructor. Qed.

(** *** One byte in and out *)

Lemma upa_range m t va a : upa m t va = Some a -> 0 <= va < MAXVA.
Proof. unfold upa, page_pa. case_decide; [done|]. done. Qed.

Lemma kobj_not_user i l t D s va : call_ok i l t D s -> upa (mem (km s)) t va <> Some kobj.
Proof.
  intros [? ? ? ? HU Hb] E. destruct (upa_in kend _ _ _ _ _ _ HU E) as (p & Hp & Hin). apply (Hb p kobj); [|lia|done].
  by apply elem_of_app; left.
Qed.

Lemma upa_leaf m m' t : (forall va, leaf m' t va = leaf m t va) -> forall va, upa m' t va = upa m t va.
Proof. intros H va. unfold upa, page_pa. by rewrite H. Qed.

(** The object at [kobj] is written. *)
Lemma kobj_store i l t D s b :
  call_ok i l t D s ->
  user_ok kend (set_mem (store8 (mem (km s)) kobj b) (km s)) l t D /\
  (forall va, leaf (store8 (mem (km s)) kobj b) t va = leaf (mem (km s)) t va).
Proof.
  intros [? ? ? ? HU Hb]. destruct (user_ok_write kend (km s) (store8 (mem (km s)) kobj b) l t D HU) as (H1 & H2 & _); [| |done].
  - apply store8_wf. apply HU.
  - intros q x Hq Hx. apply load8_store8_ne. intros ->. apply (Hb q x); [|lia|done]. apply elem_of_app. by right.
Qed.

(** Memory [m'] differs from [m] at [kobj] only, as far as the process and the
    kernel can tell. *)
Definition scratch (l : list Z) (t : ptree) (D : list Z) (m m' : kst) : Prop :=
  user_ok kend m' l t D /\ (forall va, leaf (mem m') t va = leaf (mem m) t va) /\
  forall a, a <> kobj -> load8 (mem m') a = load8 (mem m) a.

Lemma wp_copyin1 i l t D s va b (Q : Z * list Z -> pst -> Prop) :
  call_ok i l t D s -> ubyte (mem (km s)) t va = Some b ->
  (forall m', scratch l t D (km s) m' -> Q (0, [b]) (set_km m' s)) ->
  wp (copyin_obj kobj (root t) [0] va 1) Q s.
Proof using Hend.
  intros Hc Hb HQ. destruct (kobj_store _ _ _ _ _ 0 Hc) as [HU1 Hl1]. pose proof (co_buf _ _ _ _ _ Hc) as Hk.
  apply fmap_Some in Hb as (a & Ha & ->). pose proof (upa_range _ _ _ _ Ha). pose proof (kobj_not_user _ _ _ _ _ va Hc) as Hne.
  unfold copyin_obj. apply wp_zoom. apply wp_bind, wp_modify. cbn [storebytes]. apply wp_bind.
  eapply wp_conseq; [apply (wp_copyin kend Hend _ l t D); [done|change MAXVA with (2^38) in *; lia|lia|done]|].
  intros r m' (HU2 & Hl2 & Hm2 & Hr). cbn [mem set_mem] in *. apply wp_bind, wp_gets, wp_ret.
  destruct Hr as [[-> Hr]|[_ (j & Hj & Hj2)]].
  - destruct (Hr 0 ltac:(lia)) as (a' & Ha' & Hv). rewrite (upa_leaf _ _ _ Hl1), Z.add_0_r in *. replace a' with a in * by congruence.
    cbn [loadbytes length]. rewrite Hv, load8_store8_ne by congruence. apply HQ. split; [done|]. split; [intros; by rewrite Hl2|].
    intros x Hx. rewrite Hm2 by lia. by apply load8_store8_ne.
  - rewrite (upa_leaf _ _ _ Hl1) in Hj2. replace j with 0 in * by lia. rewrite Z.add_0_r in Hj2. congruence.
Qed.

Lemma wp_copyout1 i l t D s va a b (Q : Z -> pst -> Prop) :
  call_ok i l t D s -> is_byte b -> upa (mem (km s)) t va = Some a ->
  (forall m', user_ok kend m' l t D -> (forall va, leaf (mem m') t va = leaf (mem (km s)) t va) ->
     load8 (mem m') a = b -> (forall x, x <> kobj -> x <> a -> load8 (mem m') x = load8 (mem (km s)) x) ->
     Q 0 (set_km m' s)) ->
  wp (copyout_obj kobj (root t) va [b]) Q s.
Proof using Hend.
  intros Hc Hbyte Ha HQ. destruct (kobj_store _ _ _ _ _ b Hc) as [HU1 Hl1]. pose proof (co_buf _ _ _ _ _ Hc) as Hk.
  pose proof (upa_range _ _ _ _ Ha). pose proof (kobj_not_user _ _ _ _ _ va Hc) as Hne.
  unfold copyout_obj. apply wp_zoom. apply wp_bind, wp_modify. cbn [storebytes length].
  eapply wp_conseq; [apply (wp_copyout kend Hend _ l t D); [done|change MAXVA with (2^38) in *; lia|lia|]|].
  { intros p x Hp. apply Hk. apply elem_of_app. by left. }
  intros r m' (HU2 & Hl2 & Hm2 & Hr). cbn [mem set_mem] in *. destruct Hr as [[-> Hr]|[_ (j & Hj & Hj2)]].
  - destruct (Hr 0 ltac:(lia)) as (a' & Ha' & Hv). rewrite (upa_leaf _ _ _ Hl1), Z.add_0_r in *. replace a' with a in * by congruence.
    apply HQ; [done|intros; by rewrite Hl2| |].
    + rewrite Hv, load8_store8_eq. unfold wrap8. by apply Z.mod_small.
    + intros x Hx1 Hx2. rewrite Hm2; [by apply load8_store8_ne|]. intros j Hj. replace j with 0 by lia.
      rewrite (upa_leaf _ _ _ Hl1), Z.add_0_r. congruence.
  - rewrite (upa_leaf _ _ _ Hl1) in Hj2. replace j with 0 in * by lia. rewrite Z.add_0_r in Hj2. congruence.
Qed.

Lemma user_bytes_scratch i l t D s m' addr bs :
  call_ok i l t D s -> scratch l t D (km s) m' -> user_bytes (mem (km s)) t addr bs -> user_bytes (mem m') t addr bs.
Proof.
  intros Hc (_ & Hl & Hm) Hb j b Hj. specialize (Hb j b Hj). unfold ubyte in *. rewrite (upa_leaf _ _ _ Hl).
  apply fmap_Some in Hb as (a & Ha & ->). rewrite Ha. cbn. f_equal. apply Hm. intros ->. by eapply kobj_not_user.
Qed.

Lemma user_bytes_tail m t addr b bs : user_bytes m t addr (b :: bs) -> user_bytes m t (addr + 1) bs.
Proof. intros H j x Hj. rewrite <- (H (S j) x Hj). f_equal. lia. Qed.

Lemma ubyte_wrap m t va b : ubyte m t va = Some b -> wrap64 va = va.
Proof.
  intros (a & Ha & _)%fmap_Some. apply upa_range in Ha. change MAXVA with (2^38) in Ha. apply wrap64_small. lia.
Qed.
End call.

Arguments co_cpu {_ _ _ _ _ _ _} _.
Arguments co_unlocked {_ _ _ _ _ _ _} _.
Arguments co_cur {_ _ _ _ _ _ _} _.
Arguments co_pt {_ _ _ _ _ _ _} _.
Arguments co_user {_ _ _ _ _ _ _} _.
Arguments co_buf {_ _ _ _ _ _ _} _.

(** ** A process with one page of memory *)

Definition pp_pst : pst :=
  PSt (set_pagetable (root ex_tree) (set_pstate RUNNING proc0) :: replicate 63 proc0) 3 spin_free (Some 0%nat) 0 true (Some 0%nat)
      (Hart (fun _ => 0) (fun _ => 0) PrivS 0) ex_state.

Lemma pp_call_ok : call_ok ex_end KERNBASE 0 ex_free ex_tree ex_data pp_pst.
Proof.
  constructor; [| |reflexivity|reflexivity|exact ex_user_ok|].
  - split; [|done]. split; [done|]. by split.
  - split; [done|by repeat constructor].
  - intros q b Hq Hb [H1 _]. assert (Forall (fun q => KERNBASE + 1 <= q) (ex_data ++ pt_pages ex_tree ++ ex_free)) as HF.
    { rewrite VmExample.ex_pages. by repeat constructor. }
    pose proof (proj1 (Forall_forall _ _) HF q Hq) as Hge. cbn beta in Hge. lia.
Qed.

Lemma pp_upa va : 0 <= va < PGSIZE -> upa ex_mem ex_tree va = Some (ex_page 3 + va).
Proof.
  intros Hva. unfold upa, page_pa. rewrite decide_True by (change MAXVA with (2^38); unfold PGSIZE in *; lia).
  rewrite ex_leaf by (change MAXVA with (2^38); unfold PGSIZE in *; lia). rewrite decide_True by lia. cbn [fmap option_fmap option_map].
  replace (va mod PGSIZE) with va by (unfold PGSIZE in *; dlia). done.
Qed.

Lemma pp_bytes : user_bytes ex_mem ex_tree 16 (load8 ex_mem <$> [ex_page 3 + 16; ex_page 3 + 17; ex_page 3 + 18]).
Proof.
  intros j b Hj. unfold ubyte. destruct j as [|[|[|j]]]; [| | |done].
  all: rewrite pp_upa by (unfold PGSIZE; lia); by injection Hj as <-.
Qed.
