(* ===== verification/Console.v ===== *)
(** * The console (kernel/uart.c, kernel/printf.c, kernel/console.c)

    The drivers of the serial line and of the console, and the kernel's
    [printf].  The 16550a itself is a parameter: what reading and writing its
    registers does ([ReadReg], [WriteReg]).  Its registers are locations of
    the memory, so both act on the memory state.  A loop that polls the device
    is bounded by [spins].

    [cst] is the state these files see: their variables and the process
    table. *)

From S2P Require Import Prelude Riscv Memory Spinlock Sleeplock Kalloc Vm Hart Proc.

(** The characters of a string literal. *)
Definition chars (s : string) : list Z := (fun c => Z.of_N (Ascii.N_of_ascii c)) <$> String.list_ascii_of_string s.

(** ** Registers of the UART (kernel/uart.c) *)

Definition RHR : Z := 0.
Definition THR : Z := 0.
Definition IER : Z := 1.
Definition IER_TX_ENABLE : Z := Z.shiftl 1 0.
Definition IER_RX_ENABLE : Z := Z.shiftl 1 1.
Definition FCR : Z := 2.
Definition FCR_FIFO_ENABLE : Z := Z.shiftl 1 0.
Definition FCR_FIFO_CLEAR : Z := Z.shiftl 3 1.
Definition ISR : Z := 2.
Definition LCR : Z := 3.
Definition LCR_EIGHT_BITS : Z := Z.shiftl 3 0.
Definition LCR_BAUD_LATCH : Z := Z.shiftl 1 7.
Definition LSR : Z := 5.
Definition LSR_RX_READY : Z := Z.shiftl 1 0.
Definition LSR_TX_IDLE : Z := Z.shiftl 1 5.
Definition UART_TX_BUF_SIZE : Z := 32.

(** ** kernel/console.c: constants *)

Definition BACKSPACE : Z := 0x100.
Definition C (x : Z) : Z := x - 64.
Definition INPUT_BUF : Z := 128.
Definition CONSOLE : Z := 1.

(** ** The variables of the three files *)

Record con := Con {
  cons_lock : spin; cons_buf : list Z; cons_r : Z; cons_w : Z; cons_e : Z;
  uart_tx_lock : spin; uart_tx_buf : list Z; uart_tx_w : Z; uart_tx_r : Z;
  pr_lock : spin; pr_locking : Z; panicked : Z;
}.
Definition set_cons_lock (x : spin) (c : con) : con :=
  Con x (cons_buf c) (cons_r c) (cons_w c) (cons_e c) (uart_tx_lock c) (uart_tx_buf c) (uart_tx_w c) (uart_tx_r c) (pr_lock c) (pr_locking c) (panicked c).
(** [cons.buf] and the three indices. *)
Definition set_cons (b : list Z) (r w e : Z) (c : con) : con :=
  Con (cons_lock c) b r w e (uart_tx_lock c) (uart_tx_buf c) (uart_tx_w c) (uart_tx_r c) (pr_lock c) (pr_locking c) (panicked c).
Definition set_cons_r (r : Z) (c : con) : con := set_cons (cons_buf c) r (cons_w c) (cons_e c) c.
Definition set_cons_w (w : Z) (c : con) : con := set_cons (cons_buf c) (cons_r c) w (cons_e c) c.
Definition set_cons_e (e : Z) (c : con) : con := set_cons (cons_buf c) (cons_r c) (cons_w c) e c.
Definition set_uart_tx_lock (x : spin) (c : con) : con :=
  Con (cons_lock c) (cons_buf c) (cons_r c) (cons_w c) (cons_e c) x (uart_tx_buf c) (uart_tx_w c) (uart_tx_r c) (pr_lock c) (pr_locking c) (panicked c).
Definition set_uart (b : list Z) (w r : Z) (c : con) : con :=
  Con (cons_lock c) (cons_buf c) (cons_r c) (cons_w c) (cons_e c) (uart_tx_lock c) b w r (pr_lock c) (pr_locking c) (panicked c).
Definition set_pr_lock (x : spin) (c : con) : con :=
  Con (cons_lock c) (cons_buf c) (cons_r c) (cons_w c) (cons_e c) (uart_tx_lock c) (uart_tx_buf c) (uart_tx_w c) (uart_tx_r c) x (pr_locking c) (panicked c).
Definition set_pr_locking (x : Z) (c : con) : con :=
  Con (cons_lock c) (cons_buf c) (cons_r c) (cons_w c) (cons_e c) (uart_tx_lock c) (uart_tx_buf c) (uart_tx_w c) (uart_tx_r c) (pr_lock c) x (panicked c).
Definition set_panicked (x : Z) (c : con) : con :=
  Con (cons_lock c) (cons_buf c) (cons_r c) (cons_w c) (cons_e c) (uart_tx_lock c) (uart_tx_buf c) (uart_tx_w c) (uart_tx_r c) (pr_lock c) (pr_locking c) x.

Record cst := CSt { cc : con; cps : pst }.
Definition set_cc (x : con) (s : cst) : cst := CSt x (cps s).
Definition set_cps (x : pst) (s : cst) : cst := CSt (cc s) x.
Definition on_cc {A} (c : M con A) : M cst A := zoom cc set_cc c.
Definition on_ps {A} (c : M pst A) : M cst A := zoom cps set_cps c.

Definition c_acquire (g : con -> spin) (p : spin -> con -> con) : M cst unit := on_ps (on_ccpu push_off) ;; on_cc (spin_acquire g p).
Definition c_release (g : con -> spin) (p : spin -> con -> con) : M cst unit := on_cc (spin_release g p) ;; on_ps (on_ccpu pop_off).

(** [sleep(ch, lk)] up to [swtch], and from there on. *)
Definition c_sleep (ch : wchan) (g : con -> spin) (p : spin -> con -> con) : M cst bool :=
  let! i := on_ps cur in
  on_ps (pacquire i) ;;
  c_release g p ;;
  on_ps (sleep_mark i ch).
Definition c_sleep_return (i : nat) (g : con -> spin) (p : spin -> con -> con) (intena : bool) : M cst unit :=
  on_ps (sched_return intena) ;;
  on_ps (upd_proc i (set_chan None)) ;;
  on_ps (prelease i) ;;
  c_acquire g p.

(** ** Numbers as text (kernel/printf.c) *)

(** [digits[d]]. *)
Definition digits (d : Z) : Z := if d <? 10 then 48 + d else 87 + d.

(** The [do] loop of [printint]; [buf] has sixteen cells. *)
Fixpoint printint_digits (fuel : nat) (x base : Z) : list Z :=
  match fuel with
  | O => []
  | S fuel' => digits (x mod base) :: (if x / base =? 0 then [] else printint_digits fuel' (x / base) base)
  end.
(** The characters [printint] prints, last first, as they are in [buf]. *)
Definition printint_buf (xx base : Z) (sign : bool) : list Z :=
  let neg := sign && (xx <? 0) in
  printint_digits 16 (wrap32 (if neg then - xx else xx)) base ++ (if neg then [45] else []).
Definition printint_chars (xx base : Z) (sign : bool) : list Z := reverse (printint_buf xx base sign).

(** The sixteen digits of [printptr]. *)
Fixpoint printptr_digits (k : nat) (x : Z) : list Z :=
  match k with
  | O => []
  | S k' => digits (Z.shiftr x 60) :: printptr_digits k' (wrap64 (Z.shiftl x 4))
  end.
Definition printptr_chars (x : Z) : list Z := [48; 120] ++ printptr_digits 16 x.

(** The variadic arguments.  A null [char *] is [VStr None]. *)
Inductive va := VInt (x : Z) | VPtr (x : Z) | VStr (s : option (list Z)).

(** A string up to its null character. *)
Fixpoint upto_nul (s : list Z) : list Z :=
  match s with
  | [] => []
  | c :: s' => if c =? 0 then [] else c :: upto_nul s'
  end.

(** What the directive [%c] prints and the arguments left; [None] where the
    argument has not the type the directive names, which is undefined. *)
Definition printf_arg (c : Z) (ap : list va) : option (list Z * list va) :=
  if c =? 100 then match ap with VInt x :: ap => Some (printint_chars x 10 true, ap) | _ => None end
  else if c =? 120 then match ap with VInt x :: ap => Some (printint_chars x 16 true, ap) | _ => None end
  else if c =? 112 then match ap with VPtr x :: ap => Some (printptr_chars x, ap) | _ => None end
  else if c =? 115 then
    match ap with
    | VStr (Some s) :: ap => Some (upto_nul s, ap)
    | VStr None :: ap => Some (chars "(null)", ap)
    | _ => None
    end
  else if c =? 37 then Some ([37], ap)
  else Some ([37; c], ap).

Section console.
Context (ReadReg : Z -> M kst Z) (WriteReg : Z -> Z -> M kst unit) (spins : nat).
(** Addresses of [cons.r], of [uart_tx_r] and of staged kernel objects. *)
Context (cons_r_addr uart_tx_r_addr kobj : Z).

Definition rd (r : Z) : M cst Z := on_ps (on_km (ReadReg r)).
Definition wr (r v : Z) : M cst unit := on_ps (on_km (WriteReg r (v mod 256))).

Definition tx_acquire : M cst unit := c_acquire uart_tx_lock set_uart_tx_lock.
Definition tx_release : M cst unit := c_release uart_tx_lock set_uart_tx_lock.

(** ** kernel/uart.c *)

Definition uartinit : M cst unit :=
  wr IER 0x00 ;;
  wr LCR LCR_BAUD_LATCH ;;
  wr 0 0x03 ;;
  wr 1 0x00 ;;
  wr LCR LCR_EIGHT_BITS ;;
  wr FCR (Z.lor FCR_FIFO_ENABLE FCR_FIFO_CLEAR) ;;
  wr IER (Z.lor IER_TX_ENABLE IER_RX_ENABLE) ;;
  on_cc (modify (set_uart_tx_lock spin_free)).

(** The buffer holds at most [UART_TX_BUF_SIZE] - 1 characters. *)
Fixpoint uartstart_loop (fuel : nat) : M cst unit :=
  let! u := on_cc get in
  if uart_tx_w u =? uart_tx_r u then ret tt else
  let! lsr := rd LSR in
  if Z.land lsr LSR_TX_IDLE =? 0 then ret tt else
  match fuel with
  | O => nofuel
  | S fuel' =>
      let c := default 0 (uart_tx_buf u !! Z.to_nat (uart_tx_r u)) in
      on_cc (modify (set_uart (uart_tx_buf u) (uart_tx_w u) ((uart_tx_r u + 1) mod UART_TX_BUF_SIZE))) ;;
      on_ps (wakeup (ChAddr uart_tx_r_addr)) ;;
      wr THR c ;;
      uartstart_loop fuel'
  end.
Definition uartstart : M cst unit := uartstart_loop (Z.to_nat UART_TX_BUF_SIZE).

(** One round of the loop of [uartputc], with [uart_tx_lock] held. *)
Definition uartputc_try (c : Z) : M cst (susp bool unit) :=
  let! u := on_cc get in
  if (uart_tx_w u + 1) mod UART_TX_BUF_SIZE =? uart_tx_r u then
    let! ie := c_sleep (ChAddr uart_tx_r_addr) uart_tx_lock set_uart_tx_lock in
    ret (Asleep ie)
  else
    on_cc (modify (set_uart (<[Z.to_nat (uart_tx_w u) := c mod 256]> (uart_tx_buf u))
      ((uart_tx_w u + 1) mod UART_TX_BUF_SIZE) (uart_tx_r u))) ;;
    uartstart ;;
    tx_release ;;
    ret (Done tt).
Definition uartputc (c : Z) : M cst (susp bool unit) :=
  tx_acquire ;;
  let! u := on_cc get in
  if truth (panicked u) then block else uartputc_try c.
Definition uartputc_again (me : nat) (c : Z) (intena : bool) : M cst (susp bool unit) :=
  c_sleep_return me uart_tx_lock set_uart_tx_lock intena ;;
  uartputc_try c.

Fixpoint wait_idle (fuel : nat) : M cst unit :=
  match fuel with
  | O => nofuel
  | S fuel' => let! lsr := rd LSR in if Z.land lsr LSR_TX_IDLE =? 0 then wait_idle fuel' else ret tt
  end.
Definition uartputc_sync (c : Z) : M cst unit :=
  on_ps (on_ccpu push_off) ;;
  let! u := on_cc get in
  if truth (panicked u) then block else
  wait_idle spins ;;
  wr THR c ;;
  on_ps (on_ccpu pop_off).

Definition uartgetc : M cst Z :=
  let! lsr := rd LSR in
  if truth (Z.land lsr 0x01) then rd RHR else ret (-1).

(** ** kernel/console.c and kernel/printf.c *)

Definition consputc (c : Z) : M cst unit :=
  if c =? BACKSPACE then uartputc_sync 8 ;; uartputc_sync 32 ;; uartputc_sync 8
  else uartputc_sync c.
Definition cputs (s : list Z) : M cst unit := for_each s consputc.

(** The loop of [printf] over the format. *)
Fixpoint printf_loop (fmt : list Z) (ap : list va) : M cst unit :=
  match fmt with
  | [] => ret tt
  | c :: fmt' =>
      if c =? 0 then ret tt else
      if negb (c =? 37) then consputc c ;; printf_loop fmt' ap else
      match fmt' with
      | [] => ret tt
      | c :: fmt'' =>
          if c =? 0 then ret tt else
          match printf_arg c ap with
          | None => block
          | Some (s, ap) => cputs s ;; printf_loop fmt'' ap
          end
      end
  end.
Definition printf (fmt : list Z) (ap : list va) : M cst unit :=
  let! u := on_cc get in
  let locking := truth (pr_locking u) in
  (if locking then c_acquire pr_lock set_pr_lock else ret tt) ;;
  printf_loop fmt ap ;;
  (if locking then c_release pr_lock set_pr_lock else ret tt).

(** [panic] of kernel/printf.c: what it prints before it spins. *)
Definition kpanic (s : list Z) : M cst unit :=
  on_cc (modify (set_pr_locking 0)) ;;
  printf (chars "panic: ") [] ;;
  printf s [] ;;
  printf [10] [] ;;
  on_cc (modify (set_panicked 1)) ;;
  block.

Definition printfinit : M cst unit :=
  on_cc (modify (set_pr_lock spin_free)) ;;
  on_cc (modify (set_pr_locking 1)).

Definition co_acquire : M cst unit := c_acquire cons_lock set_cons_lock.
Definition co_release : M cst unit := c_release cons_lock set_cons_lock.

(** [consolewrite] from index [i] on, holding [cons.lock].  When [uartputc]
    sleeps the value is the index and what the return of [sleep] needs. *)
Fixpoint consolewrite_loop (fuel : nat) (user_src src n i : Z) : M cst (susp (Z * Z * bool) Z) :=
  if negb (i <? n) then co_release ;; ret (Done i) else
  match fuel with
  | O => nofuel
  | S fuel' =>
      let! (r, bs) := on_ps (either_copyin kobj [0] user_src (wrap64 (src + i)) 1) in
      if r =? -1 then co_release ;; ret (Done i) else
      let c := default 0 (head bs) in
      let! r := uartputc c in
      match r with
      | Asleep ie => ret (Asleep (i, c, ie))
      | Done _ => consolewrite_loop fuel' user_src src n (i + 1)
      end
  end.
Definition consolewrite (user_src src n : Z) : M cst (susp (Z * Z * bool) Z) :=
  co_acquire ;;
  consolewrite_loop (Z.to_nat n) user_src src n 0.

Definition consolewrite_again (me : nat) (user_src src n i c : Z) (intena : bool) : M cst (susp (Z * Z * bool) Z) :=
  let! r := uartputc_again me c intena in
  match r with
  | Asleep ie => ret (Asleep (i, c, ie))
  | Done _ => consolewrite_loop (Z.to_nat n) user_src src n (i + 1)
  end.

(** [consoleread] from the test of its outer loop on, holding [cons.lock].
    When it sleeps the value is [dst], [n] and what [sleep] needs. *)
Definition consoleread_done (n target : Z) : M cst (susp (Z * Z * bool) Z) :=
  co_release ;;
  ret (Done (s32 (target - n))).
Fixpoint consoleread_loop (fuel : nat) (user_dst dst n target : Z) : M cst (susp (Z * Z * bool) Z) :=
  if negb (0 <? n) then consoleread_done n target else
  let! u := on_cc get in
  if cons_r u =? cons_w u then
    let! i := on_ps cur in
    let! p := on_ps (get_proc i) in
    if truth (killed p) then co_release ;; ret (Done (-1)) else
    let! ie := c_sleep (ChAddr cons_r_addr) cons_lock set_cons_lock in
    ret (Asleep (dst, n, ie))
  else
  match fuel with
  | O => nofuel
  | S fuel' =>
      let c := default 0 (cons_buf u !! Z.to_nat (cons_r u mod INPUT_BUF)) in
      on_cc (modify (set_cons_r (wrap32 (cons_r u + 1)))) ;;
      if c =? C 68 then
        (if n <? target then on_cc (modify (fun u => set_cons_r (wrap32 (cons_r u - 1)) u)) else ret tt) ;;
        consoleread_done n target
      else
      let! r := on_ps (either_copyout kobj user_dst dst [c]) in
      if r =? -1 then consoleread_done n target else
      if c =? 10 then consoleread_done (n - 1) target
      else consoleread_loop fuel' user_dst (wrap64 (dst + 1)) (n - 1) target
  end.
Definition consoleread (user_dst dst n : Z) : M cst (susp (Z * Z * bool) Z) :=
  co_acquire ;;
  consoleread_loop (Z.to_nat n) user_dst dst n (wrap32 n).
Definition consoleread_again (me : nat) (user_dst dst n target : Z) (intena : bool) : M cst (susp (Z * Z * bool) Z) :=
  c_sleep_return me cons_lock set_cons_lock intena ;;
  consoleread_loop (Z.to_nat n) user_dst dst n target.

(** [procdump] (kernel/proc.c): one line for each process in use. *)
Definition procdump_print : M cst unit :=
  printf [10] [] ;;
  let! s := on_ps get in
  for_each (procdump s) (fun l =>
    printf (chars "%d %s %s") [VInt (fst (fst l)); VStr (Some (chars (snd (fst l)))); VStr (Some (snd l))] ;;
    printf [10] []).

(** The loop of [C('U')]; at most [INPUT_BUF] characters are being edited. *)
Fixpoint kill_line (fuel : nat) : M cst unit :=
  let! u := on_cc get in
  if (cons_e u =? cons_w u) || (default 0 (cons_buf u !! Z.to_nat (wrap32 (cons_e u - 1) mod INPUT_BUF)) =? 10) then ret tt else
  match fuel with
  | O => nofuel
  | S fuel' =>
      on_cc (modify (set_cons_e (wrap32 (cons_e u - 1)))) ;;
      consputc BACKSPACE ;;
      kill_line fuel'
  end.
Definition erase : M cst unit :=
  let! u := on_cc get in
  if cons_e u =? cons_w u then ret tt else
  on_cc (modify (set_cons_e (wrap32 (cons_e u - 1)))) ;;
  consputc BACKSPACE.
(** The [default] case. *)
Definition input (c : Z) : M cst unit :=
  let! u := on_cc get in
  if negb (c =? 0) && (wrap32 (cons_e u - cons_r u) <? INPUT_BUF) then
    let c := if c =? 13 then 10 else c in
    consputc c ;;
    on_cc (modify (fun u => set_cons (<[Z.to_nat (cons_e u mod INPUT_BUF) := c mod 256]> (cons_buf u)) (cons_r u) (cons_w u) (wrap32 (cons_e u + 1)) u)) ;;
    let! u := on_cc get in
    if (c =? 10) || (c =? C 68) || (cons_e u =? wrap32 (cons_r u + INPUT_BUF)) then
      on_cc (modify (fun u => set_cons_w (cons_e u) u)) ;;
      on_ps (wakeup (ChAddr cons_r_addr))
    else ret tt
  else ret tt.
Definition consoleintr (c : Z) : M cst unit :=
  co_acquire ;;
  (if c =? C 80 then procdump_print
   else if c =? C 85 then kill_line (Z.to_nat INPUT_BUF)
   else if (c =? C 72) || (c =? 0x7f) then erase
   else input c) ;;
  co_release.

Definition consoleinit : M cst unit :=
  on_cc (modify (set_cons_lock spin_free)) ;;
  uartinit.

(** The loop of [uartintr] that reads the characters that have arrived. *)
Fixpoint uartintr_loop (fuel : nat) : M cst unit :=
  match fuel with
  | O => nofuel
  | S fuel' =>
      let! c := uartgetc in
      if c =? -1 then ret tt else consoleintr c ;; uartintr_loop fuel'
  end.
Definition uartintr : M cst unit :=
  uartintr_loop spins ;;
  tx_acquire ;;
  uartstart ;;
  tx_release.
End console.
