(* ===== verification/ConsoleProof.v ===== *)
(** * The console

    What the line discipline of [consoleintr] does, and what happens when a
    process writes to the console faster than the line can send. *)

From S2P Require Import Prelude Riscv Memory Ring Spinlock Kalloc Vm PageTable VmMap UserVm VmCopy VmExample Hart Proc ProcProof UserCall Console.

Lemma panics_first {S A B} (c : M S A) (k : A -> M S B) msg s : panics c msg s -> panics (bind c k) msg s.
Proof. unfold panics, bind. by intros ->. Qed.
Lemma panics_zoom {S T A} (g : S -> T) (p : T -> S -> S) (c : M T A) msg s : panics c msg (g s) -> panics (zoom g p c) msg s.
Proof. unfold panics, zoom. by intros ->. Qed.

Section console.
Context (kend kobj : Z) (Hend : 0 < kend).
Abbreviation call_ok := (call_ok kend kobj).

Lemma wp_on_ps {A} (c : M pst A) (Q : A -> cst -> Prop) u s : wp c (fun a s' => Q a (CSt u s')) s -> wp (on_ps c) Q (CSt u s).
Proof. intros H. by apply wp_zoom. Qed.
Lemma wp_on_cc_get (Q : con -> cst -> Prop) u s : Q u (CSt u s) -> wp (on_cc get) Q (CSt u s).
Proof. done. Qed.

Lemma wp_c_acquire i l t D u s g p (Q : unit -> cst -> Prop) :
  call_ok i l t D s -> g u = spin_free ->
  (forall s', call_ok i l t D s' -> procs s' = procs s -> same_rest s s' -> cnoff s' = cnoff s + 1 -> Q tt (CSt (p spin_mine u) s')) ->
  wp (c_acquire g p) Q (CSt u s).
Proof.
  intros Hc Hl HQ. unfold c_acquire. apply wp_bind, wp_on_ps. apply wp_push; [apply (co_cpu Hc)|]. intros s' Hp Hr Hn Hok _ _.
  apply wp_zoom. apply wp_spin_acquire; [done|]. apply HQ; try done. by eapply call_ok_same.
Qed.

Lemma wp_c_release u s g p (Q : unit -> cst -> Prop) :
  cpu_ok s -> 0 < cnoff s -> g u = spin_mine ->
  (forall s', cpu_ok s' -> procs s' = procs s -> same_rest s s' -> cnoff s' = cnoff s - 1 -> Q tt (CSt (p spin_free u) s')) ->
  wp (c_release g p) Q (CSt u s).
Proof.
  intros Hc Hn Hl HQ. unfold c_release. apply wp_bind, wp_zoom. apply wp_spin_release; [done|]. apply (wp_on_ps _ _ (p spin_free u) s).
  apply wp_pop; [done|done|]. intros s' Hp Hr Hn' Hok _ _. by apply HQ.
Qed.

(** A process that holds another lock than its own cannot switch away. *)
Lemma sched_locks s i : cpu_ok s -> cproc s = Some i -> plock (proc_at s i) = spin_mine -> cnoff s <> 1 -> panics sched "sched locks" s.
Proof.
  intros Hc Hi Hl Hn. unfold sched. apply panics_bind. eapply wp_cur; [done|done|]. intros s1 E1 R1 N1 C1 _ _.
  apply panics_bind, wp_gets. assert (proc_at s1 i = proc_at s i) as -> by (unfold proc_at; by rewrite E1). rewrite Hl. cbn [sheld smine spin_mine andb negb].
  apply panics_bind, wp_gets. rewrite N1, (proj2 (Z.eqb_neq _ _) Hn). done.
Qed.

Lemma c_sleep_panics i l t D u s ch g p :
  call_ok i l t D s -> (i < Z.to_nat NPROC)%nat -> 1 < cnoff s -> g u = spin_mine ->
  panics (c_sleep ch g p) "sched locks" (CSt u s).
Proof.
  intros Hc Hi Hn Hg. assert (i < length (procs s))%nat as Hil by (rewrite (proj1 (co_unlocked Hc)); done).
  unfold c_sleep. apply panics_bind, wp_on_ps. eapply wp_cur; [apply (co_cpu Hc)|apply (co_cur Hc)|]. intros s1 E1 R1 N1 C1 _ _.
  assert (proc_at s1 i = proc_at s i) as Ep by (unfold proc_at; by rewrite E1).
  apply panics_bind, wp_on_ps. apply wp_pacquire; [done|rewrite Ep; apply unlocked_at, (co_unlocked Hc)|]. intros s2 E2 R2 N2 C2 _ _. rewrite Ep, E1 in E2.
  apply panics_bind. apply wp_c_release; [done|lia|done|]. intros s3 C3 E3 R3 N3. apply panics_zoom. cbn [cps].
  unfold sleep_mark. apply panics_bind, wp_modify. apply panics_bind, wp_modify.
  assert (procs s3 !! i = Some (set_plock spin_mine (proc_at s i))) as Hp by (by rewrite E3, E2, list_lookup_insert_eq).
  assert (i < length (procs s3))%nat as Hil3 by (by eapply lookup_lt_Some).
  apply (sched_locks _ i); [done| | |].
  - change (cproc s3 = Some i). by rewrite (sr_cproc _ _ R3), (sr_cproc _ _ R2), (sr_cproc _ _ R1), (co_cur Hc).
  - unfold proc_at, set_procs. cbn [procs]. rewrite !list_lookup_insert_eq by (by rewrite ?length_insert). cbn. by rewrite Hp.
  - cbn. lia.
Qed.

Section write.
Context (ReadReg : Z -> M kst Z) (WriteReg : Z -> Z -> M kst unit) (uart_tx_r_addr : Z).

(** C40. A [write] to the console panics with "sched locks" as soon as the
    transmit buffer of the UART is full: [uartputc] sleeps with [uart_tx_lock],
    but [consolewrite] still holds [cons.lock], and [sched] accepts no other
    lock than the process's own. *)
Theorem consolewrite_full_panics i l t D u s src n b :
  call_ok i l t D s -> (i < Z.to_nat NPROC)%nat -> cons_lock u = spin_free -> uart_tx_lock u = spin_free -> panicked u = 0 ->
  (uart_tx_w u + 1) mod UART_TX_BUF_SIZE = uart_tx_r u ->
  0 < n -> ubyte (mem (km s)) t src = Some b ->
  panics (consolewrite ReadReg WriteReg uart_tx_r_addr kobj 1 src n) "sched locks" (CSt u s).
Proof using Hend.
  intros Hc Hi Hcl Htl Hpa Hfull Hn Hb. assert (0 <= cnoff s) by apply (co_cpu Hc). unfold consolewrite, co_acquire.
  apply panics_bind. eapply wp_c_acquire; [done|done|]. intros s1 C1 E1 R1 N1. replace (Z.to_nat n) with (S (Z.to_nat (n - 1))) by lia. cbn [consolewrite_loop].
  rewrite (proj2 (Z.ltb_lt 0 n)) by lia. cbn [negb]. rewrite Z.add_0_r, (ubyte_wrap _ _ _ _ Hb).
  apply panics_bind, wp_on_ps. unfold either_copyin. apply wp_bind. eapply wp_cur; [apply (co_cpu C1)|apply (co_cur C1)|]. intros s2 E2 R2 N2 C2 _ _.
  assert (call_ok i l t D s2) as Hc2 by (by eapply call_ok_same). cbn [truth Z.eqb Pos.eqb negb]. apply wp_bind, wp_gets. rewrite (co_pt Hc2).
  eapply (wp_copyin1 kend kobj Hend); [done|by rewrite (sr_km _ _ R2), (sr_km _ _ R1)|]. intros m' Hm.
  cbn [Z.eqb Pos.eqb head default]. apply panics_first. unfold uartputc, tx_acquire.
  apply panics_bind. eapply wp_c_acquire; [apply call_ok_km; [done|apply Hm]|done|]. intros s3 C3 E3 R3 N3. cbn in N3.
  apply panics_bind, wp_on_cc_get. cbn [panicked set_uart_tx_lock set_cons_lock]. rewrite Hpa. cbn [truth Z.eqb negb].
  unfold uartputc_try. apply panics_bind, wp_on_cc_get. cbn [uart_tx_w uart_tx_r set_uart_tx_lock set_cons_lock].
  rewrite (proj2 (Z.eqb_eq _ _) Hfull). apply panics_first. eapply c_sleep_panics; [done|done|lia|done].
Qed.
End write.

(** ** Line editing *)

(** The lines that may be read, and the line being edited. *)
Record cons_rep (u : con) (ready edit : list Z) : Prop := {
  cr_len : Z.of_nat (length (cons_buf u)) = INPUT_BUF;
  cr_r : 0 <= cons_r u < 2^32;
  cr_w : 0 <= cons_w u < 2^32;
  cr_e : 0 <= cons_e u < 2^32;
  cr_chars : ring INPUT_BUF (cons_buf u) (cons_r u) (wrap32 (cons_e u - cons_r u)) = ready ++ edit;
  cr_ready : wrap32 (cons_w u - cons_r u) = Z.of_nat (length ready);
  cr_total : wrap32 (cons_e u - cons_r u) = Z.of_nat (length ready) + Z.of_nat (length edit);
  cr_max : Z.of_nat (length ready) + Z.of_nat (length edit) <= INPUT_BUF;
  cr_line : Forall (fun c => c <> 10) edit;
}.

(** What a character does to them. *)
Definition typed (c : Z) (x : list Z * list Z) : list Z * list Z :=
  let (ready, edit) := x in
  if c =? C 85 then (ready, [])
  else if (c =? C 72) || (c =? 0x7f) then (ready, take (length edit - 1) edit)
  else if negb (c =? 0) && (Z.of_nat (length ready) + Z.of_nat (length edit) <? INPUT_BUF) then
    let c := if c =? 13 then 10 else c in
    if (c =? 10) || (c =? C 68) || (Z.of_nat (length ready) + Z.of_nat (length edit) + 1 =? INPUT_BUF) then (ready ++ edit ++ [c], [])
    else (ready, edit ++ [c])
  else (ready, edit).

Lemma edit_empty u ready edit : cons_rep u ready edit -> cons_e u =? cons_w u = bool_decide (edit = []).
Proof.
  intros [_ ? ? ? _ Hr Ht Hm _]. unfold wrap32, INPUT_BUF in *. case_bool_decide as E.
  - subst edit. cbn [length] in *. apply Z.eqb_eq. dlia.
  - apply Z.eqb_neq. intros Ee. apply E, length_zero_iff_nil. rewrite Ee in Ht. dlia.
Qed.

Lemma edit_last u ready edit c : cons_rep u ready (edit ++ [c]) ->
  default 0 (cons_buf u !! Z.to_nat (wrap32 (cons_e u - 1) mod INPUT_BUF)) = c.
Proof.
  intros [_ ? ? ? Hc Hr Ht Hm _]. rewrite length_app in *. cbn [length] in *.
  replace (wrap32 (cons_e u - cons_r u)) with (Z.of_nat (length ready + length edit) + 1) in Hc by lia.
  rewrite ring_snoc, app_assoc in Hc by (done || lia). apply app_inj_2 in Hc as [_ [= Hc]]; [|done]. rewrite <- Hc. unfold ring_at. do 3 f_equal.
  unfold wrap32, INPUT_BUF in *. dlia.
Qed.

(** The last character of the line is taken back. *)
Lemma unedit_rep u ready edit c : cons_rep u ready (edit ++ [c]) -> cons_rep (set_cons_e (wrap32 (cons_e u - 1)) u) ready edit.
Proof.
  intros [? ? ? ? Hc Hr Ht Hm Hf]. rewrite length_app in *. cbn [length] in *.
  assert (wrap32 (wrap32 (cons_e u - 1) - cons_r u) = Z.of_nat (length ready) + Z.of_nat (length edit)) as E by (unfold wrap32, INPUT_BUF in *; dlia).
  constructor; cbn [cons_buf cons_r cons_w cons_e set_cons_e set_cons]; try done.
  - unfold wrap32. dlia.
  - rewrite E. replace (wrap32 (cons_e u - cons_r u)) with (Z.of_nat (length ready) + Z.of_nat (length edit) + 1) in Hc by lia.
    rewrite ring_snoc, app_assoc in Hc by (done || lia). by apply app_inj_2 in Hc as [? _].
  - unfold INPUT_BUF in *. lia.
  - by apply Forall_app in Hf as [? _].
Qed.

(** A character is added. *)
Definition put_char (c : Z) (u : con) : con :=
  set_cons (<[Z.to_nat (cons_e u mod INPUT_BUF) := c]> (cons_buf u)) (cons_r u) (cons_w u) (wrap32 (cons_e u + 1)) u.

Lemma put_char_total u ready edit c : cons_rep u ready edit -> Z.of_nat (length ready) + Z.of_nat (length edit) < INPUT_BUF ->
  wrap32 (wrap32 (cons_e u + 1) - cons_r u) = Z.of_nat (length ready) + Z.of_nat (length edit) + 1 /\
  ring INPUT_BUF (cons_buf (put_char c u)) (cons_r u) (Z.of_nat (length ready) + Z.of_nat (length edit) + 1) = ready ++ edit ++ [c].
Proof.
  intros [Hl ? ? ? Hc Hr Ht Hm _] Hlt. split; [unfold wrap32, INPUT_BUF in *; dlia|]. cbn [cons_buf put_char set_cons].
  replace (cons_e u mod INPUT_BUF) with ((cons_r u + (Z.of_nat (length ready) + Z.of_nat (length edit))) mod INPUT_BUF) by (unfold wrap32, INPUT_BUF in *; dlia).
  rewrite ring_push by (done || lia). by rewrite <- Ht, Hc, app_assoc.
Qed.

Lemma put_char_rep u ready edit c : cons_rep u ready edit -> c <> 10 -> Z.of_nat (length ready) + Z.of_nat (length edit) < INPUT_BUF ->
  cons_rep (put_char c u) ready (edit ++ [c]).
Proof.
  intros H Hc Hlt. destruct (put_char_total u ready edit c H Hlt) as [E Er]. destruct H. constructor; cbn [cons_r cons_w cons_e put_char set_cons]; try done.
  - cbn. by rewrite length_insert.
  - unfold wrap32. dlia.
  - by rewrite E, Er.
  - rewrite E, length_app. cbn [length]. lia.
  - rewrite length_app. cbn [length]. lia.
  - apply Forall_app. split; [done|]. by repeat constructor.
Qed.

Lemma put_commit_rep u ready edit c : cons_rep u ready edit -> Z.of_nat (length ready) + Z.of_nat (length edit) < INPUT_BUF ->
  cons_rep (set_cons_w (cons_e (put_char c u)) (put_char c u)) (ready ++ edit ++ [c]) [].
Proof.
  intros H Hlt. destruct (put_char_total u ready edit c H Hlt) as [E Er]. destruct H. constructor; cbn [cons_buf cons_r cons_w cons_e put_char set_cons set_cons_w]; try done.
  - by rewrite length_insert.
  - unfold wrap32. dlia.
  - unfold wrap32. dlia.
  - rewrite E, app_nil_r. exact Er.
  - rewrite E, !length_app. cbn [length]. lia.
  - rewrite E, !length_app. cbn [length]. lia.
  - rewrite !length_app. cbn [length]. lia.
Qed.

Section edit.
Context (ReadReg : Z -> M kst Z) (WriteReg : Z -> Z -> M kst unit) (spins : nat) (cons_r_addr : Z).
(** The transmitter is idle whenever it is asked, and takes what it is given. *)
Context (Hspins : (0 < spins)%nat).
Context (Hread : forall m, exists v, ReadReg LSR m = Ok v m /\ Z.land v LSR_TX_IDLE <> 0).
Context (Hwrite : forall v m, exists m', WriteReg THR v m = Ok tt m').

(** What echoing leaves alone. *)
Record echoed (s s' : pst) : Prop := {
  eh_procs : procs s' = procs s;
  eh_noff : cnoff s' = cnoff s;
  eh_cpu : cpu_ok s';
}.

Lemma wp_uartputc_sync c u s (Q : unit -> cst -> Prop) :
  cpu_ok s -> panicked u = 0 -> (forall s', echoed s s' -> Q tt (CSt u s')) -> wp (uartputc_sync ReadReg WriteReg spins c) Q (CSt u s).
Proof using Hspins Hread Hwrite.
  intros Hc Hp HQ. assert (0 <= cnoff s) by apply Hc. unfold uartputc_sync. apply wp_bind, wp_on_ps. apply wp_push; [done|]. intros s1 E1 R1 N1 C1 _ _.
  apply wp_bind, wp_on_cc_get. rewrite Hp. cbn [truth Z.eqb negb]. destruct spins as [|n]; [lia|]. cbn [wait_idle].
  destruct (Hread (km s1)) as (v & Hv & Hidle). destruct (Hwrite (c mod 256) (km s1)) as (m' & Hm).
  apply wp_bind, wp_bind, wp_on_ps, wp_zoom. eapply wp_run; [exact Hv|]. rewrite (proj2 (Z.eqb_neq _ _) Hidle). apply wp_ret.
  apply wp_bind, wp_on_ps, wp_zoom. eapply wp_run; [exact Hm|]. apply wp_on_ps. apply wp_pop; [done|cbn; lia|].
  intros s2 E2 R2 N2 C2 _ _. apply HQ. constructor; [by rewrite E2|cbn in N2; lia|done].
Qed.

Lemma wp_consputc c u s (Q : unit -> cst -> Prop) :
  cpu_ok s -> panicked u = 0 -> (forall s', echoed s s' -> Q tt (CSt u s')) -> wp (consputc ReadReg WriteReg spins c) Q (CSt u s).
Proof using Hspins Hread Hwrite.
  intros Hc Hp HQ. unfold consputc. case_match; [|by apply wp_uartputc_sync].
  apply wp_bind, wp_uartputc_sync; [done|done|]. intros s1 [E1 N1 C1]. apply wp_bind, wp_uartputc_sync; [done|done|]. intros s2 [E2 N2 C2].
  apply wp_uartputc_sync; [done|done|]. intros s3 [E3 N3 C3]. apply HQ. constructor; congruence.
Qed.

Lemma wp_erase u s ready edit (Q : unit -> cst -> Prop) :
  cpu_ok s -> panicked u = 0 -> cons_rep u ready edit ->
  (forall e s', let u' := set_cons_e e u in cons_rep u' ready (take (length edit - 1) edit) -> echoed s s' -> Q tt (CSt u' s')) ->
  wp (erase ReadReg WriteReg spins) Q (CSt u s).
Proof using Hspins Hread Hwrite.
  intros Hc Hp Hr HQ. unfold erase. apply wp_bind, wp_on_cc_get. rewrite (edit_empty _ _ _ Hr). case_bool_decide as E.
  - subst edit. apply wp_ret. replace u with (set_cons_e (cons_e u) u) by (by destruct u). apply HQ; [by destruct u|done].
  - destruct edit as [|c edit _] using rev_ind; [done|]. rewrite length_app, take_app_le, take_ge in HQ by (cbn; lia).
    apply wp_bind, wp_zoom, wp_modify. apply wp_consputc; [done|done|]. intros s' Hs. apply HQ; [by eapply unedit_rep|done].
Qed.

Lemma wp_kill_line ready : forall fuel edit u s (Q : unit -> cst -> Prop),
  cpu_ok s -> panicked u = 0 -> cons_rep u ready edit -> (length edit <= fuel)%nat ->
  (forall e s', let u' := set_cons_e e u in cons_rep u' ready [] -> echoed s s' -> Q tt (CSt u' s')) ->
  wp (kill_line ReadReg WriteReg spins fuel) Q (CSt u s).
Proof using Hspins Hread Hwrite.
  induction fuel as [|fuel IH]; intros edit u s Q Hc Hp Hr Hf HQ; cbn [kill_line]; apply wp_bind, wp_on_cc_get; rewrite (edit_empty _ _ _ Hr).
  all: destruct edit as [|c edit _] using rev_ind; [rewrite bool_decide_true by done; cbn [orb]; apply wp_ret;
    replace u with (set_cons_e (cons_e u) u) by (by destruct u); apply HQ; [by destruct u|done]|rewrite length_app in Hf; cbn [length] in Hf; try lia].
  rewrite bool_decide_false by (by destruct edit). rewrite (edit_last _ _ _ _ Hr). cbn [orb].
  assert (c <> 10) as Hne by (destruct Hr as [_ _ _ _ _ _ _ _ Hl]; apply Forall_app in Hl as [_ Hl]; by apply Forall_cons in Hl as [? _]).
  rewrite (proj2 (Z.eqb_neq _ _) Hne). apply wp_bind, wp_zoom, wp_modify. apply wp_bind, wp_consputc; [done|done|]. intros s1 [E1 N1 C1]. cbn [cps] in E1, N1.
  eapply IH; [done|done|by eapply unedit_rep|lia|]. intros e s' u' Hr' [E2 N2 C2]. apply (HQ e); [by destruct u|]. constructor; congruence.
Qed.

(** Readers are woken when a line is complete. *)
Definition completes (c : Z) (x : list Z * list Z) : bool := negb (bool_decide (fst (typed c x) = fst x)).

Lemma wp_input c u s ready edit (Q : unit -> cst -> Prop) :
  cpu_ok s -> unlocked s -> panicked u = 0 -> cons_rep u ready edit -> 0 <= c < 256 ->
  (c =? C 85) = false -> (c =? C 72) || (c =? 0x7f) = false ->
  (forall b w e s', let u' := set_cons b (cons_r u) w e u in let x := typed c (ready, edit) in
     cons_rep u' (fst x) (snd x) -> cpu_ok s' -> unlocked s' -> cnoff s' = cnoff s ->
     procs s' = (if completes c (ready, edit) then woken (ChAddr cons_r_addr) <$> procs s else procs s) -> Q tt (CSt u' s')) ->
  wp (input ReadReg WriteReg spins cons_r_addr c) Q (CSt u s).
Proof using Hspins Hread Hwrite.
  intros Hc Hu Hp Hr Hb H1 H2 HQ. unfold completes, typed in HQ. rewrite H1, H2 in HQ. unfold input. apply wp_bind, wp_on_cc_get.
  rewrite (cr_total _ _ _ Hr). case_match eqn:Hgo.
  2:{ apply wp_ret. cbn [fst snd] in HQ. rewrite bool_decide_true in HQ by done. replace u with (set_cons (cons_buf u) (cons_r u) (cons_w u) (cons_e u) u) by (by destruct u).
      by apply HQ; [destruct u| | | |]. }
  apply andb_prop in Hgo as [_ Hlt%Z.ltb_lt]. set (c' := if c =? 13 then 10 else c) in *. assert (c' mod 256 = c') as Em by (unfold c'; destruct (c =? 13); [reflexivity|by apply Z.mod_small]).
  apply wp_bind, wp_consputc; [done|done|]. intros s1 [E1 N1 C1]. cbn [cps] in E1, N1. apply wp_bind, wp_zoom, wp_modify. cbn [cc set_cc]. fold (put_char (c' mod 256) u). rewrite Em.
  apply wp_bind, wp_on_cc_get. destruct (put_char_total u ready edit c' Hr Hlt) as [Et _].
  assert ((cons_e (put_char c' u) =? wrap32 (cons_r (put_char c' u) + INPUT_BUF)) = (Z.of_nat (length ready) + Z.of_nat (length edit) + 1 =? INPUT_BUF)) as ->.
  { destruct Hr. cbn [cons_e cons_r put_char set_cons]. apply eq_true_iff_eq. rewrite !Z.eqb_eq. unfold wrap32, INPUT_BUF in *. split; intros ?; dlia. }
  assert (unlocked s1) as Hu1 by (unfold unlocked; by rewrite E1).
  destruct ((c' =? 10) || (c' =? C 68) || (Z.of_nat (length ready) + Z.of_nat (length edit) + 1 =? INPUT_BUF)) eqn:Hdone; cbn [fst snd] in HQ.
  - rewrite bool_decide_false in HQ. 2:{ intros E. apply (f_equal length) in E. rewrite !length_app in E. cbn in E. lia. }
    apply wp_bind, wp_zoom, wp_modify. apply wp_on_ps. apply wp_wakeup; [done|done|]. intros s2 E2 R2 N2 C2 _.
    cbn [cps set_cc] in E2, N2. apply HQ; [by eapply put_commit_rep|done| |lia|by rewrite E2, E1]. destruct Hu1 as [Hl Hf]. split; rewrite E2; [by rewrite length_fmap|].
    apply Forall_fmap. eapply Forall_impl; [done|]. intros p Hpl. cbn. unfold woken. by case_decide.
  - apply wp_ret. rewrite bool_decide_true in HQ by done. apply HQ; try done. apply put_char_rep; [done| |done].
    apply orb_false_elim in Hdone as [[Hn _]%orb_false_elim _]. by apply Z.eqb_neq in Hn.
Qed.

End edit.
End console.

(** ** A console *)

Definition ex_con : con := Con spin_free (replicate 128 0) 0 0 0 spin_free (replicate 32 0) 31 0 spin_free 1 0.

Lemma consolewrite_full_panics_witness :
  panics (consolewrite (fun _ => ret 0) (fun _ _ => ret tt) 8192 KERNBASE 1 16 40) "sched locks" (CSt ex_con pp_pst).
Proof.
  apply (consolewrite_full_panics ex_end KERNBASE ex_end_pos (fun _ => ret 0) (fun _ _ => ret tt) 8192 0 ex_free ex_tree ex_data ex_con pp_pst 16 40 (load8 ex_mem (ex_page 3 + 16)));
    [exact pp_call_ok|apply Nat.ltb_lt; reflexivity|reflexivity|reflexivity|reflexivity|reflexivity|lia|].
  unfold ubyte. change (mem (km pp_pst)) with ex_mem. rewrite pp_upa; [reflexivity|unfold PGSIZE; lia].
Defined.

Lemma ex_con_rep : cons_rep ex_con [] [].
Proof. by constructor. Qed.
Lemma pp_ok : cpu_ok pp_pst /\ unlocked pp_pst.
Proof. split; apply pp_call_ok. Qed.

