(* ===== verification/Uprintf.v ===== *)
(** * The user library: input and output (user/printf.c, ulib.c)

    [printf] and [gets] as programs that make system calls, one call for each
    character, and what they print and read. *)

From ITree Require Import ITree ITreeFacts Events.State Events.StateFacts.
From S2P Require Import Prelude Memory Console Ulib Usys.
Local Open Scope uprog_scope.

(** ** printf.c *)

(** [char c]. *)
Definition putc (fd c : Z) : uprog unit := do _ := write_ fd [wrap8 c] in Ret tt.
Fixpoint putcs (fd : Z) (l : list Z) : uprog unit :=
  match l with
  | [] => Ret tt
  | c :: l' => putc fd c ,, putcs fd l'
  end.

(** [digits[d]]: the letters are capital. *)
Definition udigits (d : Z) : Z := if d <? 10 then 48 + d else 55 + d.

(** The [do] loop of [printint]; [buf] has sixteen cells. *)
Fixpoint uprintint_digits (fuel : nat) (x base : Z) : list Z :=
  match fuel with
  | O => []
  | S fuel' => udigits (x mod base) :: (if x / base =? 0 then [] else uprintint_digits fuel' (x / base) base)
  end.
Definition uprintint_buf (xx base : Z) (sgn : bool) : list Z :=
  let neg := sgn && (xx <? 0) in
  uprintint_digits 16 (wrap32 (if neg then - xx else xx)) base ++ (if neg then [45] else []).
Definition uprintint_chars (xx base : Z) (sgn : bool) : list Z := reverse (uprintint_buf xx base sgn).
Definition uprintint (fd xx base : Z) (sgn : bool) : uprog unit := putcs fd (uprintint_chars (s32 xx) base sgn).

Fixpoint uprintptr_digits (k : nat) (x : Z) : list Z :=
  match k with
  | O => []
  | S k' => udigits (Z.shiftr x 60) :: uprintptr_digits k' (wrap64 (Z.shiftl x 4))
  end.
Definition uprintptr (fd x : Z) : uprog unit := putcs fd ([48; 120] ++ uprintptr_digits 16 x).

(** The variadic arguments; a null [char *] is [UStr None].  An argument that is
    missing or of another type is undefined in C; it is read as zero here. *)
Inductive uarg := UInt (x : Z) | UStr (s : option (list Z)).
Definition va_int (ap : list uarg) : Z * list uarg :=
  match ap with UInt x :: ap => (x, ap) | _ :: ap => (0, ap) | [] => (0, []) end.
Definition va_str (ap : list uarg) : list Z * list uarg :=
  match ap with UStr (Some s) :: ap => (s, ap) | _ :: ap => (chars "(null)", ap) | [] => (chars "(null)", []) end.

(** The directive [%c]. *)
Definition directive (fd c : Z) (ap : list uarg) : uprog (list uarg) :=
  if c =? 100 then let (x, ap) := va_int ap in uprintint fd x 10 true ,, Ret ap
  else if c =? 108 then let (x, ap) := va_int ap in uprintint fd x 10 false ,, Ret ap
  else if c =? 120 then let (x, ap) := va_int ap in uprintint fd x 16 false ,, Ret ap
  else if c =? 112 then let (x, ap) := va_int ap in uprintptr fd x ,, Ret ap
  else if c =? 115 then let (s, ap) := va_str ap in putcs fd s ,, Ret ap
  else if c =? 99 then let (x, ap) := va_int ap in putc fd x ,, Ret ap
  else if c =? 37 then putc fd c ,, Ret ap
  else putc fd 37 ,, putc fd c ,, Ret ap.

(** [percent] is [state == '%']. *)
Fixpoint vprintf (fd : Z) (fmt : list Z) (percent : bool) (ap : list uarg) : uprog unit :=
  match fmt with
  | [] => Ret tt
  | c :: fmt' =>
      if percent then do ap := directive fd c ap in vprintf fd fmt' false ap
      else if c =? 37 then vprintf fd fmt' true ap
      else putc fd c ,, vprintf fd fmt' false ap
  end.
Definition fprintf (fd : Z) (fmt : string) (ap : list uarg) : uprog unit := vprintf fd (chars fmt) false ap.
Definition uprintf (fmt : string) (ap : list uarg) : uprog unit := vprintf 1 (chars fmt) false ap.

(** ** gets and stat (ulib.c) *)

(** [gets(buf, max)]; the value is the string that is left in [buf]. *)
Definition gets_body (max : Z) (buf : list Z) : uprog (list Z + list Z) :=
  if Z.of_nat (length buf) + 1 <? max then
    do (cc, b) := read_ 0 1 in
    if cc <? 1 then Ret (inr buf) else
    let c := default 0 (head b) in
    if (c =? 10) || (c =? 13) then Ret (inr (buf ++ [c])) else Ret (inl (buf ++ [c]))
  else Ret (inr buf).
Definition ugets (max : Z) : uprog (list Z) := ITree.iter (gets_body max) [].

Definition ustat_call (n : list Z) : uprog (Z * ustat) :=
  do fd := open_ n 0 in
  if fd <? 0 then Ret (-1, UStat 0 0 0) else
  do (r, st) := ITree.trigger (Sfstat fd) in
  close_ fd ,, Ret (r, st).

(** ** What is printed *)

(** The environment after the characters [l] have been written to [fd]. *)
Definition emit (fd : Z) (l : list Z) (s : env) : env := set_outs (outs s ++ ((fun c => (fd, [wrap8 c])) <$> l)) s.

Definition shown (c : Z) (ap : list uarg) : list Z * list uarg :=
  if c =? 100 then let (x, ap) := va_int ap in (uprintint_chars (s32 x) 10 true, ap)
  else if c =? 108 then let (x, ap) := va_int ap in (uprintint_chars (s32 x) 10 false, ap)
  else if c =? 120 then let (x, ap) := va_int ap in (uprintint_chars (s32 x) 16 false, ap)
  else if c =? 112 then let (x, ap) := va_int ap in ([48; 120] ++ uprintptr_digits 16 x, ap)
  else if c =? 115 then va_str ap
  else if c =? 99 then let (x, ap) := va_int ap in ([x], ap)
  else if c =? 37 then ([37], ap)
  else ([37; c], ap).

(** The text that a format and its arguments stand for. *)
Fixpoint format (fmt : list Z) (ap : list uarg) : list Z :=
  match fmt with
  | [] => []
  | c :: fmt' =>
      if c =? 37 then
        match fmt' with
        | [] => []
        | d :: fmt'' => let (l, ap) := shown d ap in l ++ format fmt'' ap
        end
      else c :: format fmt' ap
  end.

(** Printing is the output of that text, character by character. *)
Lemma putcs_app fd l k : eutt eq (putcs fd (l ++ k)) (putcs fd l ,, putcs fd k).
Proof.
  induction l as [|c l IH]; cbn [app putcs]; [by rewrite bind_ret_l|]. rewrite bind_bind. apply eutt_eq_bind. intros _. exact IH.
Qed.
Lemma putcs_one fd c : eutt eq (putcs fd [c]) (putc fd c).
Proof. cbn [putcs]. rewrite <- (bind_ret_r (putc fd c)) at 2. apply eutt_eq_bind. intros []. reflexivity. Qed.

Lemma directive_text fd c ap : eutt eq (directive fd c ap) (putcs fd (fst (shown c ap)) ,, Ret (snd (shown c ap))).
Proof.
  unfold directive, shown. repeat case_match; cbn [fst snd]; try reflexivity; try (by rewrite putcs_one).
  - apply Z.eqb_eq in H5 as ->. by rewrite putcs_one.
  - change [37; c] with ([37] ++ [c]). rewrite putcs_app, bind_bind, putcs_one. apply eutt_eq_bind. intros _. by rewrite putcs_one.
Qed.

Lemma vprintf_text fd fmt : forall ap,
  eutt eq (vprintf fd fmt false ap) (putcs fd (format fmt ap)) /\
  eutt eq (vprintf fd fmt true ap) (putcs fd (match fmt with [] => [] | d :: fmt' => let (l, ap) := shown d ap in l ++ format fmt' ap end)).
Proof.
  induction fmt as [|c fmt IH]; intros ap; cbn [vprintf format]; [split; reflexivity|]. split.
  - destruct (c =? 37); [apply IH|]. cbn [putcs]. apply eutt_eq_bind. intros _. apply IH.
  - rewrite directive_text, bind_bind. destruct (shown c ap) as [l ap']. cbn [fst snd]. rewrite putcs_app. apply eutt_eq_bind. intros _.
    rewrite bind_ret_l. apply IH.
Qed.
Lemma fprintf_text fd fmt ap : eutt eq (fprintf fd fmt ap) (putcs fd (format (chars fmt) ap)).
Proof. apply vprintf_text. Qed.

Lemma emit_nil fd s : emit fd [] s = s.
Proof. unfold emit. cbn. rewrite app_nil_r. by destruct s. Qed.
Lemma emit_app fd k l s : emit fd (k ++ l) s = emit fd l (emit fd k s).
Proof. unfold emit. cbn. by rewrite fmap_app, app_assoc. Qed.

Section run.
Context (other : sysE ~> Monads.stateT env (itree stopE)).
#[local] Abbreviation run := (run other).

Lemma run_putc fd c s : eutt eq (run (putc fd c) s) (Ret (emit fd [c] s, tt)).
Proof. eapply run_seq; [apply run_write|]. apply run_ret. Qed.

Lemma run_putcs fd l : forall s, eutt eq (run (putcs fd l) s) (Ret (emit fd l s, tt)).
Proof.
  induction l as [|c l IH]; intros s; cbn [putcs]; [by rewrite emit_nil; apply run_ret|].
  eapply run_seq; [apply run_putc|]. rewrite IH. by rewrite (emit_app fd [c] l).
Qed.

Lemma run_fprintf fd fmt ap s : eutt eq (run (fprintf fd fmt ap) s) (Ret (emit fd (format (chars fmt) ap) s, tt)).
Proof. rewrite <- run_putcs. apply run_proper, fprintf_text. Qed.
Lemma run_uprintf fmt ap s : eutt eq (run (uprintf fmt ap) s) (Ret (emit 1 (format (chars fmt) ap) s, tt)).
Proof. apply run_fprintf. Qed.

(** ** gets *)

(** The first line of [l], with its end, but at most [k] characters. *)
Fixpoint line (k : nat) (l : list Z) : list Z :=
  match k, l with
  | S k', c :: l' => c :: (if (c =? 10) || (c =? 13) then [] else line k' l')
  | _, _ => []
  end.

Lemma read_one s l c : read_size s 1 (c :: l) = 1%nat.
Proof. unfold read_size. destruct (sizes s) as [|k ks]; cbn; lia. Qed.
End run.

(** The environment after [k] characters have been read one by one. *)
Definition took (k j : nat) (l : list Z) (s : env) : env := Env (files s) (<[0 := drop k l]> (fds s)) (outs s) (drop j (sizes s)).

Lemma run_read1 other c l s : fds s !! 0 = Some (c :: l) -> eutt eq (run other (read_ 0 1) s) (Ret (took 1 1 (c :: l) s, (1, [c]))).
Proof. intros H. rewrite (run_read _ _ _ _ _ H), read_one. unfold took. by destruct (sizes s). Qed.
Lemma run_read_eof other s : fds s !! 0 = Some [] -> eutt eq (run other (read_ 0 1) s) (Ret (took 0 1 [] s, (0, []))).
Proof.
  intros H. rewrite (run_read _ _ _ _ _ H). assert (read_size s 1 [] = 0%nat) as -> by (unfold read_size; cbn; lia).
  unfold took. by destruct (sizes s).
Qed.

Lemma run_gets_loop other max k : forall l buf s, fds s !! 0 = Some l -> Z.of_nat (length buf) + Z.of_nat k + 1 = max ->
  exists j, eutt eq (run other (ITree.iter (gets_body max) buf) s) (Ret (took (length (line k l)) j l s, buf ++ line k l)).
Proof.
  induction k as [|k IH]; intros l buf s Hfd Hmax.
  { exists 0%nat. apply run_iter. unfold gets_body. rewrite (proj2 (Z.ltb_ge _ _)) by lia. eapply run_seq; [apply run_ret|].
    rewrite run_ret. cbn. unfold took. rewrite app_nil_r, drop_0. rewrite insert_id by done. by destruct s. }
  destruct l as [|c l]; [|destruct ((c =? 10) || (c =? 13)) eqn:Hc].
  - exists 1%nat. apply run_iter. unfold gets_body. rewrite (proj2 (Z.ltb_lt _ _)) by lia. rewrite bind_bind.
    eapply run_seq; [by apply run_read_eof|]. eapply run_seq; [apply run_ret|]. rewrite run_ret. cbn [line length]. by rewrite app_nil_r.
  - exists 1%nat. apply run_iter. unfold gets_body. rewrite (proj2 (Z.ltb_lt _ _)) by lia. rewrite bind_bind.
    eapply run_seq; [by apply run_read1|]. change (1 <? 1) with false. cbn [head default from_option id]. rewrite Hc.
    eapply run_seq; [apply run_ret|]. rewrite run_ret. cbn [line]. by rewrite Hc.
  - destruct (IH l (buf ++ [c]) (took 1 1 (c :: l) s)) as [j Hj]; [cbn; apply lookup_insert_eq|rewrite length_app; cbn; lia|]. exists (S j).
    apply run_iter. unfold gets_body at 1. rewrite (proj2 (Z.ltb_lt _ _)) by lia. rewrite bind_bind.
    eapply run_seq; [by apply run_read1|]. change (1 <? 1) with false. cbn [head default from_option id]. rewrite Hc.
    eapply run_seq; [apply run_ret|]. rewrite Hj. cbn [line length]. rewrite Hc. unfold took. cbn [files fds outs sizes].
    rewrite insert_insert_eq, drop_drop, <- app_assoc. done.
Qed.

(** ** Numbers *)

(** The value of digits written last first. *)
Definition value (base : Z) (l : list Z) : Z := foldr (fun c n => n * base + (if c <=? 57 then c - 48 else c - 55)) 0 l.

Lemma udigits_value d : 0 <= d < 16 -> (if udigits d <=? 57 then udigits d - 48 else udigits d - 55) = d.
Proof. intros H. unfold udigits. destruct (d <? 10) eqn:E; b2p; case_match; b2p; lia. Qed.

Lemma value_cons base c l : value base (c :: l) = value base l * base + (if c <=? 57 then c - 48 else c - 55).
Proof. done. Qed.
Lemma uprintint_S k x base : uprintint_digits (S k) x base =
  udigits (x mod base) :: (if x / base =? 0 then [] else uprintint_digits k (x / base) base).
Proof. done. Qed.

Lemma uprintint_value base k : 2 <= base <= 16 -> forall x, 0 <= x < base ^ Z.of_nat (S k) ->
  value base (uprintint_digits (S k) x base) = x /\ (length (uprintint_digits (S k) x base) <= S k)%nat.
Proof.
  intros Hb. induction k as [|k IH]; intros x Hx.
  - cbn [uprintint_digits]. change (Z.of_nat 1) with 1 in Hx. rewrite Z.pow_1_r in Hx. rewrite Z.div_small, Z.mod_small by lia.
    cbn. rewrite udigits_value by lia. lia.
  - rewrite Nat2Z.inj_succ, Z.pow_succ_r in Hx by lia. rewrite uprintint_S. destruct (x / base =? 0) eqn:E.
    + cbn [value foldr length]. b2p. rewrite udigits_value by (pose proof (Z.mod_pos_bound x base); lia).
      pose proof (Z.div_mod x base). split; lia.
    + destruct (IH (x / base)) as [IH1 IH2]; [split; [apply Z.div_pos; lia|apply Z.div_lt_upper_bound; lia]|].
      rewrite value_cons. cbn [length]. rewrite IH1, udigits_value by (pose proof (Z.mod_pos_bound x base); lia).
      pose proof (Z.div_mod x base). split; lia.
Qed.

Lemma uprintint_fuel base k j : 2 <= base -> forall x, 0 <= x < base ^ Z.of_nat (S k) ->
  uprintint_digits (S k + j) x base = uprintint_digits (S k) x base.
Proof.
  intros Hb. induction k as [|k IH]; intros x Hx.
  - change (Z.of_nat 1) with 1 in Hx. rewrite Z.pow_1_r in Hx. cbn [Nat.add]. rewrite !uprintint_S. by rewrite Z.div_small by lia.
  - rewrite Nat2Z.inj_succ, Z.pow_succ_r in Hx by lia. change (S (S k) + j)%nat with (S (S k + j)). rewrite !uprintint_S.
    rewrite IH; [done|]. split; [apply Z.div_pos; lia|apply Z.div_lt_upper_bound; lia].
Qed.

Lemma uprintint_digit fuel : forall x, 0 <= x -> Forall is_digit (uprintint_digits fuel x 10).
Proof.
  induction fuel as [|fuel IH]; intros x Hx; [constructor|]. rewrite uprintint_S. constructor.
  - unfold is_digit, udigits. pose proof (Z.mod_pos_bound x 10). case_match; b2p; lia.
  - destruct (_ =? _); [constructor|]. apply IH, Z.div_pos; lia.
Qed.

Lemma decimal_reverse l : Forall is_digit l -> decimal 0 (reverse l) = value 10 l.
Proof.
  intros Hl. induction Hl as [|c l Hc Hl IH]; [done|]. rewrite value_cons, reverse_cons. unfold decimal in *. rewrite foldl_app, IH. cbn.
  unfold is_digit in Hc. rewrite (proj2 (Z.leb_le c 57)) by lia. lia.
Qed.

(** Decimal digits of a 32-bit number. *)
Lemma uprintint_10 x : 0 <= x < 2^32 -> uprintint_digits 16 x 10 = uprintint_digits 10 x 10.
Proof. intros H. apply (uprintint_fuel 10 9 6 ltac:(lia)). split; [lia|]. eapply Z.lt_trans; [apply H|done]. Qed.

(** What [printf] prints for [%d] never overruns the sixteen characters of
    [buf], whatever the number; and [atoi] reads a number that is not negative
    back as it was. *)
Theorem atoi_printint n fuel m s : - 2^31 <= n < 2^31 -> is_cstr m s (uprintint_chars n 10 true) -> (11 < fuel)%nat ->
  (length (uprintint_buf n 10 true) <= 11)%nat /\ (0 <= n -> atoi fuel m s = Some n).
Proof.
  intros Hn Hs Hf. assert (length (uprintint_buf n 10 true) <= 11)%nat as Hlen.
  { unfold uprintint_buf. rewrite length_app, uprintint_10 by apply wrap32_range.
    destruct (uprintint_value 10 9 ltac:(lia) (wrap32 (if true && (n <? 0) then - n else n))) as [_ H].
    - pose proof (wrap32_range (if true && (n <? 0) then - n else n)). split; [lia|]. eapply Z.lt_trans; [apply H|done].
    - case_match; cbn [length]; lia. }
  split; [done|]. intros Hn0. assert (uprintint_buf n 10 true = uprintint_digits 10 n 10) as E.
  { unfold uprintint_buf. rewrite (proj2 (Z.ltb_ge n 0)) by lia. cbn [andb]. by rewrite wrap32_small, app_nil_r, uprintint_10 by lia. }
  assert (Forall is_digit (uprintint_digits 10 n 10)) as Hd by (by apply uprintint_digit).
  assert (decimal 0 (uprintint_chars n 10 true) = n) as Hv.
  { unfold uprintint_chars. rewrite E, decimal_reverse by done. apply (uprintint_value 10 9); [lia|]. split; [lia|]. eapply Z.lt_trans; [apply Hn|done]. }
  transitivity (Some (decimal 0 (uprintint_chars n 10 true))); [|by rewrite Hv]. apply atoi_spec; [done| | |lia|rewrite Hv; lia].
  - unfold uprintint_chars. rewrite length_reverse. lia.
  - unfold uprintint_chars. rewrite E. by apply Forall_reverse.
Qed.

Definition ex_num : gmap Z Z := <[100 := 52]> (<[101 := 50]> ∅).
Lemma atoi_printint_witness : is_cstr ex_num 100 (uprintint_chars 42 10 true) /\ atoi 20 ex_num 100 = Some 42.
Proof.
  assert (is_cstr ex_num 100 (uprintint_chars 42 10 true)) as Hs.
  { change (uprintint_chars 42 10 true) with [52; 50]. by rewrite !is_cstr_cons, is_cstr_nil. }
  split; [exact Hs|]. exact (proj2 (atoi_printint 42 20 ex_num 100 ltac:(lia) Hs ltac:(lia)) ltac:(lia)).
Defined.
