(* ===== verification/Virtio.v ===== *)
(** * The disk driver (kernel/virtio_disk.c, kernel/virtio.h)

    The variables of the driver are a record; the pages shared with the device
    ([disk.pages]) are its fields [desc], [avail_idx], [avail], [used_id] and
    [used_elems].  The device is a parameter: [R_read] and [R_write] are its
    registers, and what it writes to the used ring and to the status bytes is
    the state the driver finds when it runs again.  [virtio_disk_rw] is cut
    where it sleeps. *)

From S2P Require Import Prelude Riscv Memory Spinlock Sleeplock Kalloc Vm Block Hart Proc.

(** ** kernel/virtio.h *)

Definition VIRTIO_MMIO_MAGIC_VALUE : Z := 0x000.
Definition VIRTIO_MMIO_VERSION : Z := 0x004.
Definition VIRTIO_MMIO_DEVICE_ID : Z := 0x008.
Definition VIRTIO_MMIO_VENDOR_ID : Z := 0x00c.
Definition VIRTIO_MMIO_DEVICE_FEATURES : Z := 0x010.
Definition VIRTIO_MMIO_DRIVER_FEATURES : Z := 0x020.
Definition VIRTIO_MMIO_GUEST_PAGE_SIZE : Z := 0x028.
Definition VIRTIO_MMIO_QUEUE_SEL : Z := 0x030.
Definition VIRTIO_MMIO_QUEUE_NUM_MAX : Z := 0x034.
Definition VIRTIO_MMIO_QUEUE_NUM : Z := 0x038.
Definition VIRTIO_MMIO_QUEUE_PFN : Z := 0x040.
Definition VIRTIO_MMIO_QUEUE_NOTIFY : Z := 0x050.
Definition VIRTIO_MMIO_INTERRUPT_STATUS : Z := 0x060.
Definition VIRTIO_MMIO_INTERRUPT_ACK : Z := 0x064.
Definition VIRTIO_MMIO_STATUS : Z := 0x070.
Definition VIRTIO_CONFIG_S_ACKNOWLEDGE : Z := 1.
Definition VIRTIO_CONFIG_S_DRIVER : Z := 2.
Definition VIRTIO_CONFIG_S_DRIVER_OK : Z := 4.
Definition VIRTIO_CONFIG_S_FEATURES_OK : Z := 8.
Definition VIRTIO_BLK_F_RO : Z := 5.
Definition VIRTIO_BLK_F_SCSI : Z := 7.
Definition VIRTIO_BLK_F_CONFIG_WCE : Z := 11.
Definition VIRTIO_BLK_F_MQ : Z := 12.
Definition VIRTIO_F_ANY_LAYOUT : Z := 27.
Definition VIRTIO_RING_F_INDIRECT_DESC : Z := 28.
Definition VIRTIO_RING_F_EVENT_IDX : Z := 29.
Definition NUM : Z := 8.
Definition VRING_DESC_F_NEXT : Z := 1.
Definition VRING_DESC_F_WRITE : Z := 2.
Definition VIRTIO_BLK_T_IN : Z := 0.
Definition VIRTIO_BLK_T_OUT : Z := 1.

Record VRingDesc := VDesc { vaddr : Z; vlen : Z; vflags : Z; vnext : Z }.
Definition vdesc0 : VRingDesc := VDesc 0 0 0 0.
Definition set_vaddr (x : Z) (d : VRingDesc) : VRingDesc := VDesc x (vlen d) (vflags d) (vnext d).

(** ** struct disk; [binfo] is [info], [bdisk] the field [disk] of each buffer *)

Record vdisk := VDisk {
  desc : list VRingDesc; avail_idx : Z; avail : list Z; used_id : Z; used_elems : list Z;
  dfree : list Z; used_idx : Z; binfo : list (option nat * Z); vdisk_lock : spin; bdisk : list Z;
}.
Definition set_desc (x : list VRingDesc) (d : vdisk) : vdisk :=
  VDisk x (avail_idx d) (avail d) (used_id d) (used_elems d) (dfree d) (used_idx d) (binfo d) (vdisk_lock d) (bdisk d).
Definition set_avail (i : Z) (x : list Z) (d : vdisk) : vdisk :=
  VDisk (desc d) i x (used_id d) (used_elems d) (dfree d) (used_idx d) (binfo d) (vdisk_lock d) (bdisk d).
Definition set_dfree (x : list Z) (d : vdisk) : vdisk :=
  VDisk (desc d) (avail_idx d) (avail d) (used_id d) (used_elems d) x (used_idx d) (binfo d) (vdisk_lock d) (bdisk d).
Definition set_used_idx (x : Z) (d : vdisk) : vdisk :=
  VDisk (desc d) (avail_idx d) (avail d) (used_id d) (used_elems d) (dfree d) x (binfo d) (vdisk_lock d) (bdisk d).
Definition set_binfo (x : list (option nat * Z)) (d : vdisk) : vdisk :=
  VDisk (desc d) (avail_idx d) (avail d) (used_id d) (used_elems d) (dfree d) (used_idx d) x (vdisk_lock d) (bdisk d).
Definition set_vdisk_lock (x : spin) (d : vdisk) : vdisk :=
  VDisk (desc d) (avail_idx d) (avail d) (used_id d) (used_elems d) (dfree d) (used_idx d) (binfo d) x (bdisk d).
Definition set_bdisk (x : list Z) (d : vdisk) : vdisk :=
  VDisk (desc d) (avail_idx d) (avail d) (used_id d) (used_elems d) (dfree d) (used_idx d) (binfo d) (vdisk_lock d) x.

(** The driver and the process table. *)
Record vst := VSt { vd : vdisk; vps : pst }.
Definition set_vd (x : vdisk) (s : vst) : vst := VSt x (vps s).
Definition set_vps (x : pst) (s : vst) : vst := VSt (vd s) x.
Definition on_vd {A} (c : M vdisk A) : M vst A := zoom vd set_vd c.
Definition on_vp {A} (c : M pst A) : M vst A := zoom vps set_vps c.

Definition vd_acquire : M vst unit := on_vp (on_ccpu push_off) ;; on_vd (spin_acquire vdisk_lock set_vdisk_lock).
Definition vd_release : M vst unit := on_vd (spin_release vdisk_lock set_vdisk_lock) ;; on_vp (on_ccpu pop_off).
Definition vd_sleep (ch : wchan) : M vst bool :=
  let! i := on_vp cur in
  on_vp (pacquire i) ;;
  vd_release ;;
  on_vp (sleep_mark i ch).
Definition vd_sleep_return (i : nat) (intena : bool) : M vst unit :=
  on_vp (sched_return intena) ;;
  on_vp (upd_proc i (set_chan None)) ;;
  on_vp (prelease i) ;;
  vd_acquire.

Definition desc_at (d : vdisk) (i : Z) : VRingDesc := default vdesc0 (desc d !! Z.to_nat i).
Definition free_at (d : vdisk) (i : Z) : Z := default 0 (dfree d !! Z.to_nat i).
Definition info_at (d : vdisk) (i : Z) : option nat * Z := default (None, 0) (binfo d !! Z.to_nat i).
Definition upd_desc (i : Z) (f : VRingDesc -> VRingDesc) : M vst unit :=
  on_vd (modify (fun d => set_desc (<[Z.to_nat i := f (desc_at d i)]> (desc d)) d)).
Definition put_free (i x : Z) : M vst unit := on_vd (modify (fun d => set_dfree (<[Z.to_nat i := x]> (dfree d)) d)).
Definition upd_info (i : Z) (f : option nat * Z -> option nat * Z) : M vst unit :=
  on_vd (modify (fun d => set_binfo (<[Z.to_nat i := f (info_at d i)]> (binfo d)) d)).
Definition put_bdisk (b : nat) (x : Z) : M vst unit := on_vd (modify (fun d => set_bdisk (<[b := x]> (bdisk d)) d)).

Section virtio.
Context (R_read : Z -> M kst Z) (R_write : Z -> Z -> M kst unit).
(** Addresses: of the pages, of [disk.free], of the status bytes, of a buffer
    and of its data, and of [buf0] on the kernel stack; the kernel's page table. *)
Context (pages_addr free_addr : Z) (status_addr : Z -> Z) (buf_addr buf_data : nat -> Z).
Context (buf0_addr kernel_pagetable : Z).

Definition rreg (r : Z) : M vst Z := on_vp (on_km (R_read (VIRTIO0 + r))).
Definition wreg (r x : Z) : M vst unit := on_vp (on_km (R_write (VIRTIO0 + r) (wrap32 x))).

Definition clear (x bit : Z) : Z := Z.land x (Z.lnot (Z.shiftl 1 bit)).

Definition virtio_disk_init : M vst unit :=
  on_vd (modify (set_vdisk_lock spin_free)) ;;
  let! magic := rreg VIRTIO_MMIO_MAGIC_VALUE in
  if negb (magic =? 0x74726976) then panic "could not find virtio disk" else
  let! version := rreg VIRTIO_MMIO_VERSION in
  if negb (version =? 1) then panic "could not find virtio disk" else
  let! device := rreg VIRTIO_MMIO_DEVICE_ID in
  if negb (device =? 2) then panic "could not find virtio disk" else
  let! vendor := rreg VIRTIO_MMIO_VENDOR_ID in
  if negb (vendor =? 0x554d4551) then panic "could not find virtio disk" else
  let status := VIRTIO_CONFIG_S_ACKNOWLEDGE in
  wreg VIRTIO_MMIO_STATUS status ;;
  let status := Z.lor status VIRTIO_CONFIG_S_DRIVER in
  wreg VIRTIO_MMIO_STATUS status ;;
  let! features := rreg VIRTIO_MMIO_DEVICE_FEATURES in
  wreg VIRTIO_MMIO_DRIVER_FEATURES
    (foldl clear features [VIRTIO_BLK_F_RO; VIRTIO_BLK_F_SCSI; VIRTIO_BLK_F_CONFIG_WCE; VIRTIO_BLK_F_MQ;
       VIRTIO_F_ANY_LAYOUT; VIRTIO_RING_F_EVENT_IDX; VIRTIO_RING_F_INDIRECT_DESC]) ;;
  let status := Z.lor status VIRTIO_CONFIG_S_FEATURES_OK in
  wreg VIRTIO_MMIO_STATUS status ;;
  let status := Z.lor status VIRTIO_CONFIG_S_DRIVER_OK in
  wreg VIRTIO_MMIO_STATUS status ;;
  wreg VIRTIO_MMIO_GUEST_PAGE_SIZE PGSIZE ;;
  wreg VIRTIO_MMIO_QUEUE_SEL 0 ;;
  let! max := rreg VIRTIO_MMIO_QUEUE_NUM_MAX in
  if max =? 0 then panic "virtio disk has no queue 0" else
  if max <? NUM then panic "virtio disk max queue too short" else
  wreg VIRTIO_MMIO_QUEUE_NUM NUM ;;
  let n := Z.to_nat NUM in
  on_vd (modify (fun d => VDisk (replicate n vdesc0) 0 (replicate n 0) 0 (replicate n 0)
    (dfree d) (used_idx d) (binfo d) (vdisk_lock d) (bdisk d))) ;;
  wreg VIRTIO_MMIO_QUEUE_PFN (Z.shiftr pages_addr 12) ;;
  on_vd (modify (set_dfree (replicate n 1))).

(** The first free descriptor among [l]. *)
Fixpoint find_free (d : vdisk) (l : list Z) : option Z :=
  match l with
  | [] => None
  | i :: l' => if truth (free_at d i) then Some i else find_free d l'
  end.
Definition alloc_desc : M vst Z :=
  let! d := on_vd get in
  match find_free d (seqZ 0 NUM) with
  | Some i => put_free i 0 ;; ret i
  | None => ret (-1)
  end.

Definition free_desc (i : Z) : M vst unit :=
  if NUM <=? i then panic "virtio_disk_intr 1" else
  let! d := on_vd get in
  if truth (free_at d i) then panic "virtio_disk_intr 2" else
  upd_desc i (set_vaddr 0) ;;
  put_free i 1 ;;
  on_vp (wakeup (ChAddr free_addr)).

(** A chain has at most [NUM] descriptors. *)
Fixpoint free_chain_loop (fuel : nat) (i : Z) : M vst unit :=
  match fuel with
  | O => nofuel
  | S fuel' =>
      free_desc i ;;
      let! d := on_vd get in
      if truth (Z.land (vflags (desc_at d i)) VRING_DESC_F_NEXT) then free_chain_loop fuel' (vnext (desc_at d i))
      else ret tt
  end.
Definition free_chain (i : Z) : M vst unit := free_chain_loop (Z.to_nat NUM) i.

(** [alloc3_desc]: with [k] descriptors to go and [idx] those allocated. *)
Fixpoint alloc3_loop (k : nat) (idx : list Z) : M vst (option (list Z)) :=
  match k with
  | O => ret (Some idx)
  | S k' =>
      let! i := alloc_desc in
      if i <? 0 then for_each idx free_desc ;; ret None else alloc3_loop k' (idx ++ [i])
  end.
Definition alloc3_desc : M vst (option (list Z)) := alloc3_loop 3 [].

(** [virtio_disk_rw] from the formatting of the descriptors to the notification. *)
Definition rw_submit (i0 i1 i2 : Z) (b : nat) (blockno : Z) (write : bool) : M vst unit :=
  let sector := wrap32 (blockno * (BSIZE / 512)) in
  on_vp (on_km (modify (fun s => set_mem (storen 4 (mem s) buf0_addr (if write then VIRTIO_BLK_T_OUT else VIRTIO_BLK_T_IN)) s))) ;;
  on_vp (on_km (modify (fun s => set_mem (storen 4 (mem s) (buf0_addr + 4) 0) s))) ;;
  on_vp (on_km (kstore64 (buf0_addr + 8) sector)) ;;
  let! pa := on_vp (on_km (kvmpa kernel_pagetable buf0_addr)) in
  upd_desc i0 (fun _ => VDesc pa 16 VRING_DESC_F_NEXT i1) ;;
  upd_desc i1 (fun _ => VDesc (buf_data b) BSIZE (Z.lor (if write then 0 else VRING_DESC_F_WRITE) VRING_DESC_F_NEXT) i2) ;;
  upd_info i0 (fun x => (fst x, 0)) ;;
  upd_desc i2 (fun _ => VDesc (status_addr i0) 1 VRING_DESC_F_WRITE 0) ;;
  put_bdisk b 1 ;;
  upd_info i0 (fun x => (Some b, snd x)) ;;
  on_vd (modify (fun d => set_avail (wrap16 (avail_idx d + 1)) (<[Z.to_nat (avail_idx d mod NUM) := i0]> (avail d)) d)) ;;
  wreg VIRTIO_MMIO_QUEUE_NOTIFY 0.

(** The last part: waiting for the interrupt, and freeing the chain. *)
Definition rw_wait (i0 : Z) (b : nat) : M vst (susp bool unit) :=
  let! d := on_vd get in
  if default 0 (bdisk d !! b) =? 1 then
    let! ie := vd_sleep (ChAddr (buf_addr b)) in
    ret (Asleep ie)
  else
    upd_info i0 (fun x => (None, snd x)) ;;
    free_chain i0 ;;
    vd_release ;;
    ret (Done tt).

(** What [virtio_disk_rw] waits for: free descriptors, or the device. *)
Inductive rw_point := NeedDesc | NeedDone (i0 : Z).

Definition rw_start (b : nat) (blockno : Z) (write : bool) : M vst (susp (rw_point * bool) unit) :=
  let! r := alloc3_desc in
  match r with
  | Some [i0; i1; i2] =>
      rw_submit i0 i1 i2 b blockno write ;;
      let! r := rw_wait i0 b in
      ret (match r with Done a => Done a | Asleep ie => Asleep (NeedDone i0, ie) end)
  | _ =>
      let! ie := vd_sleep (ChAddr free_addr) in
      ret (Asleep (NeedDesc, ie))
  end.
Definition virtio_disk_rw (b : nat) (blockno : Z) (write : bool) : M vst (susp (rw_point * bool) unit) :=
  vd_acquire ;;
  rw_start b blockno write.
Definition virtio_disk_rw_again (me : nat) (b : nat) (blockno : Z) (write : bool) (at_ : rw_point) (intena : bool)
    : M vst (susp (rw_point * bool) unit) :=
  vd_sleep_return me intena ;;
  match at_ with
  | NeedDesc => rw_start b blockno write
  | NeedDone i0 =>
      let! r := rw_wait i0 b in
      ret (match r with Done a => Done a | Asleep ie => Asleep (NeedDone i0, ie) end)
  end.

(** The loop of [virtio_disk_intr]: fewer than [NUM] requests are completed
    and not yet seen. *)
Fixpoint intr_loop (fuel : nat) : M vst unit :=
  let! d := on_vd get in
  if used_idx d mod NUM =? used_id d mod NUM then ret tt else
  match fuel with
  | O => nofuel
  | S fuel' =>
      let id := default 0 (used_elems d !! Z.to_nat (used_idx d)) in
      if truth (snd (info_at d id)) then panic "virtio_disk_intr status" else
      let! b := on_vp (deref (fst (info_at d id))) in
      put_bdisk b 0 ;;
      on_vp (wakeup (ChAddr (buf_addr b))) ;;
      on_vd (modify (set_used_idx ((used_idx d + 1) mod NUM))) ;;
      intr_loop fuel'
  end.
Definition virtio_disk_intr : M vst unit :=
  vd_acquire ;;
  intr_loop (Z.to_nat NUM) ;;
  (let! st := rreg VIRTIO_MMIO_INTERRUPT_STATUS in wreg VIRTIO_MMIO_INTERRUPT_ACK (Z.land st 0x3)) ;;
  vd_release.
End virtio.
