(* ===== verification/File.v ===== *)
(** * Files and pipes (kernel/file.c and kernel/pipe.c)

    The state of the kernel above the file system: the table of open files,
    the pipes, the clock, [forkret]'s [first], the console and the disk driver.
    The file system's user memory is the process table of [Proc]: the copy
    routines act on the memory of the current process.

    A routine that sleeps returns [Asleep] with what it keeps across the
    sleep; the routine named [..._again] continues it. *)

From S2P Require Import Prelude Riscv Memory Spinlock Sleeplock Kalloc Vm Block BlockCache Log Tx CopyIO Fs Hart Proc Console Virtio.

Definition NFILE : Z := 100.
Definition NDEV : Z := 10.
Definition PIPESIZE : Z := 512.

(** ** kernel/file.h *)

Inductive fdtype := FD_NONE | FD_PIPE | FD_INODE | FD_DEVICE.
#[global] Instance fdtype_eq_dec : EqDecision fdtype.
Proof. solve_decision. Defined.

Record file := File {
  ftype : fdtype; fref : Z; freadable : Z; fwritable : Z; fpipe : Z; fip : option nat; foff : Z; fmajor : Z;
}.
Definition file0 : file := File FD_NONE 0 0 0 0 None 0 0.

Definition set_ftype (x : fdtype) (f : file) : file := File x (fref f) (freadable f) (fwritable f) (fpipe f) (fip f) (foff f) (fmajor f).
Definition set_fref (x : Z) (f : file) : file := File (ftype f) x (freadable f) (fwritable f) (fpipe f) (fip f) (foff f) (fmajor f).
Definition set_frw (r w : Z) (f : file) : file := File (ftype f) (fref f) r w (fpipe f) (fip f) (foff f) (fmajor f).
Definition set_fpipe (x : Z) (f : file) : file := File (ftype f) (fref f) (freadable f) (fwritable f) x (fip f) (foff f) (fmajor f).
Definition set_fip (x : option nat) (f : file) : file := File (ftype f) (fref f) (freadable f) (fwritable f) (fpipe f) x (foff f) (fmajor f).
Definition set_foff (x : Z) (f : file) : file := File (ftype f) (fref f) (freadable f) (fwritable f) (fpipe f) (fip f) x (fmajor f).
Definition set_fmajor (x : Z) (f : file) : file := File (ftype f) (fref f) (freadable f) (fwritable f) (fpipe f) (fip f) (foff f) x.

(** ** kernel/pipe.c: struct pipe *)

Record pipe := Pipe { pi_lock : spin; pi_data : list Z; nread : Z; nwrite : Z; readopen : Z; writeopen : Z }.

Definition set_pi_lock (x : spin) (p : pipe) : pipe := Pipe x (pi_data p) (nread p) (nwrite p) (readopen p) (writeopen p).
Definition set_readopen (x : Z) (p : pipe) : pipe := Pipe (pi_lock p) (pi_data p) (nread p) (nwrite p) x (writeopen p).
Definition set_writeopen (x : Z) (p : pipe) : pipe := Pipe (pi_lock p) (pi_data p) (nread p) (nwrite p) (readopen p) x.

(** [pi->nwrite == pi->nread + PIPESIZE] and [pi->nread == pi->nwrite]. *)
Definition pipe_full (p : pipe) : bool := nwrite p =? wrap32 (nread p + PIPESIZE).
Definition pipe_empty (p : pipe) : bool := nread p =? nwrite p.
(** [pi->data[pi->nwrite++ % PIPESIZE] = ch] *)
Definition pipe_put (ch : Z) (p : pipe) : pipe :=
  Pipe (pi_lock p) (<[Z.to_nat (nwrite p mod PIPESIZE) := ch]> (pi_data p)) (nread p) (wrap32 (nwrite p + 1)) (readopen p) (writeopen p).
(** [ch = pi->data[pi->nread++ % PIPESIZE]] *)
Definition pipe_next (p : pipe) : Z := default 0 (pi_data p !! Z.to_nat (nread p mod PIPESIZE)).
Definition pipe_get (p : pipe) : pipe :=
  Pipe (pi_lock p) (pi_data p) (wrap32 (nread p + 1)) (nwrite p) (readopen p) (writeopen p).

(** The addresses of [pi->nread] and [pi->nwrite]: after the lock (24 bytes)
    and the data. *)
Definition ch_nread (pi : Z) : wchan := ChAddr (pi + 24 + PIPESIZE).
Definition ch_nwrite (pi : Z) : wchan := ChAddr (pi + 24 + PIPESIZE + 4).

Section kern.
Context {T : Type} `{!TxOps T}.

Record kern := Kern {
  kfs : fs_t T pst; ft_lock : spin; files : list file; pipes : gmap Z pipe; ticks : Z; tickslock : spin; first : Z; kcon : con; kdisk : vdisk;
}.
Definition set_kfs (x : fs_t T pst) (k : kern) : kern := Kern x (ft_lock k) (files k) (pipes k) (ticks k) (tickslock k) (first k) (kcon k) (kdisk k).
Definition set_ft_lock (x : spin) (k : kern) : kern := Kern (kfs k) x (files k) (pipes k) (ticks k) (tickslock k) (first k) (kcon k) (kdisk k).
Definition set_files (x : list file) (k : kern) : kern := Kern (kfs k) (ft_lock k) x (pipes k) (ticks k) (tickslock k) (first k) (kcon k) (kdisk k).
Definition set_pipes (x : gmap Z pipe) (k : kern) : kern := Kern (kfs k) (ft_lock k) (files k) x (ticks k) (tickslock k) (first k) (kcon k) (kdisk k).
Definition set_ticks (x : Z) (k : kern) : kern := Kern (kfs k) (ft_lock k) (files k) (pipes k) x (tickslock k) (first k) (kcon k) (kdisk k).
Definition set_tickslock (x : spin) (k : kern) : kern := Kern (kfs k) (ft_lock k) (files k) (pipes k) (ticks k) x (first k) (kcon k) (kdisk k).
Definition set_first (x : Z) (k : kern) : kern := Kern (kfs k) (ft_lock k) (files k) (pipes k) (ticks k) (tickslock k) x (kcon k) (kdisk k).
Definition set_kcon (x : con) (k : kern) : kern := Kern (kfs k) (ft_lock k) (files k) (pipes k) (ticks k) (tickslock k) (first k) x (kdisk k).
Definition set_kdisk (x : vdisk) (k : kern) : kern := Kern (kfs k) (ft_lock k) (files k) (pipes k) (ticks k) (tickslock k) (first k) (kcon k) x.

Definition on_fs {A} (c : M (fs_t T pst) A) : M kern A := zoom kfs set_kfs c.
Definition on_p {A} (c : M pst A) : M kern A := on_fs (on_um c).
(** The console, with the process table. *)
Definition on_con {A} (c : M cst A) : M kern A :=
  zoom (fun k => CSt (kcon k) (um (kfs k))) (fun x k => set_kcon (cc x) (set_kfs (set_um (cps x) (kfs k)) k)) c.
(** The disk driver, with the process table. *)
Definition on_disk {A} (c : M vst A) : M kern A :=
  zoom (fun k => VSt (kdisk k) (um (kfs k))) (fun x k => set_kdisk (vd x) (set_kfs (set_um (vps x) (kfs k)) k)) c.

Definition k_acquire (g : kern -> spin) (p : spin -> kern -> kern) : M kern unit := on_p (on_ccpu push_off) ;; spin_acquire g p.
Definition k_release (g : kern -> spin) (p : spin -> kern -> kern) : M kern unit := spin_release g p ;; on_p (on_ccpu pop_off).
Definition ft_acquire : M kern unit := k_acquire ft_lock set_ft_lock.
Definition ft_release : M kern unit := k_release ft_lock set_ft_lock.

Definition file_at (k : kern) (f : nat) : file := default file0 (files k !! f).
Definition get_file (f : nat) : M kern file := gets (fun k => file_at k f).
Definition upd_file (f : nat) (g : file -> file) : M kern unit :=
  modify (fun k => set_files (<[f := g (file_at k f)]> (files k)) k).

Definition pipe0 : pipe := Pipe spin_free (replicate (Z.to_nat PIPESIZE) 0) 0 0 0 0.
Definition pipe_at (k : kern) (pi : Z) : pipe := default pipe0 (pipes k !! pi).
Definition get_pipe (pi : Z) : M kern pipe := gets (fun k => pipe_at k pi).
Definition upd_pipe (pi : Z) (g : pipe -> pipe) : M kern unit :=
  modify (fun k => set_pipes (<[pi := g (pipe_at k pi)]> (pipes k)) k).
Definition set_pipe_lock (pi : Z) (x : spin) (k : kern) : kern := set_pipes (<[pi := set_pi_lock x (pipe_at k pi)]> (pipes k)) k.
Definition pi_acquire (pi : Z) : M kern unit := k_acquire (fun k => pi_lock (pipe_at k pi)) (set_pipe_lock pi).
Definition pi_release (pi : Z) : M kern unit := k_release (fun k => pi_lock (pipe_at k pi)) (set_pipe_lock pi).

(** The pid of the current process, for the sleep locks of inodes. *)
Definition mypid : M kern Z := on_p (let! i := cur in let! p := get_proc i in ret (pid p)).
Definition myproc_ : M kern (nat * proc) := on_p (let! i := cur in let! p := get_proc i in ret (i, p)).

(** [sleep(ch, lk)] with [rel] the release of [lk], and its return. *)
Definition k_sleep (ch : wchan) (rel : M kern unit) : M kern bool :=
  let! i := on_p cur in
  on_p (pacquire i) ;;
  rel ;;
  on_p (sleep_mark i ch).
Definition k_sleep_return (i : nat) (acq : M kern unit) (intena : bool) : M kern unit :=
  on_p (sched_return intena) ;;
  on_p (upd_proc i (set_chan None)) ;;
  on_p (prelease i) ;;
  acq.

(** In the view of one process, a call that sleeps does not return. *)
Definition wait_for {X A} (r : susp X A) : M kern A := match r with Done a => ret a | Asleep _ => block end.

(** Linker symbols and addresses of kernel objects, as in [Proc]; [de_addr] is
    the address of the [struct dirent] on the kernel stack. *)
Context (kend trampoline forkret_addr kobj de_addr : Z).
#[local] Instance kern_copy_ops : CopyOps pst := {|
  CopyIO.either_copyout := Proc.either_copyout kobj;
  CopyIO.either_copyin := Proc.either_copyin kobj;
  kread a n := on_km (gets (fun s => loadbytes (mem s) a n));
  kwrite a bs := on_km (modify (fun s => set_mem (storebytes (mem s) a bs) s));
|}.

Definition begin_op : M kern unit := on_fs (on_tx tx_begin_op).
Definition end_op : M kern unit := on_fs (on_tx tx_end_op).

(** ** kernel/pipe.c *)

Definition pipeclose (pi writable : Z) : M kern unit :=
  pi_acquire pi ;;
  (if truth writable then upd_pipe pi (set_writeopen 0) ;; on_p (wakeup (ch_nread pi))
   else upd_pipe pi (set_readopen 0) ;; on_p (wakeup (ch_nwrite pi))) ;;
  let! p := get_pipe pi in
  if (readopen p =? 0) && (writeopen p =? 0) then
    pi_release pi ;;
    on_p (on_km (kfree kend pi)) ;;
    modify (fun k => set_pipes (delete pi (pipes k)) k)
  else pi_release pi.

(** The end of [pipewrite] after [i] bytes. *)
Definition pipewrite_done (pi i : Z) : M kern (susp (Z * bool) Z) :=
  on_p (wakeup (ch_nread pi)) ;;
  pi_release pi ;;
  ret (Done i).
(** The loop from byte [i] on; the fuel is the number of bytes left. *)
Fixpoint pipewrite_loop (fuel : nat) (me : nat) (pi addr n i : Z) : M kern (susp (Z * bool) Z) :=
  if negb (i <? n) then pipewrite_done pi i else
  match fuel with
  | O => nofuel
  | S fuel' =>
      let! p := get_pipe pi in
      let! pr := on_p (get_proc me) in
      if pipe_full p then
        if (readopen p =? 0) || truth (killed pr) then pi_release pi ;; ret (Done (-1))
        else
          on_p (wakeup (ch_nread pi)) ;;
          let! ie := k_sleep (ch_nwrite pi) (pi_release pi) in
          ret (Asleep (i, ie))
      else
        let! (r, bs) := on_p (copyin_obj kobj (pagetable pr) [0] (wrap64 (addr + i)) 1) in
        if r =? -1 then pipewrite_done pi i else
        upd_pipe pi (pipe_put (default 0 (head bs))) ;;
        pipewrite_loop fuel' me pi addr n (i + 1)
  end.
Definition pipewrite (pi addr n : Z) : M kern (susp (Z * bool) Z) :=
  let! me := on_p cur in
  pi_acquire pi ;;
  pipewrite_loop (Z.to_nat n) me pi addr n 0.
Definition pipewrite_again (me : nat) (pi addr n i : Z) (intena : bool) : M kern (susp (Z * bool) Z) :=
  k_sleep_return me (pi_acquire pi) intena ;;
  pipewrite_loop (Z.to_nat (n - i)) me pi addr n i.

(** The copy loop of [piperead]; the fuel is the number of bytes left. *)
Fixpoint piperead_copy (fuel : nat) (me : nat) (pi addr n i : Z) : M kern Z :=
  if negb (i <? n) then ret i else
  match fuel with
  | O => nofuel
  | S fuel' =>
      let! p := get_pipe pi in
      if pipe_empty p then ret i else
      let ch := pipe_next p in
      upd_pipe pi pipe_get ;;
      let! pr := on_p (get_proc me) in
      let! r := on_p (copyout_obj kobj (pagetable pr) (wrap64 (addr + i)) [ch]) in
      if r =? -1 then ret i else piperead_copy fuel' me pi addr n (i + 1)
  end.
(** [piperead] from the test of the waiting loop on. *)
Definition piperead_wait (me : nat) (pi addr n : Z) : M kern (susp bool Z) :=
  let! p := get_pipe pi in
  let! pr := on_p (get_proc me) in
  if pipe_empty p && truth (writeopen p) then
    if truth (killed pr) then pi_release pi ;; ret (Done (-1))
    else let! ie := k_sleep (ch_nread pi) (pi_release pi) in ret (Asleep ie)
  else
    let! i := piperead_copy (Z.to_nat n) me pi addr n 0 in
    on_p (wakeup (ch_nwrite pi)) ;;
    pi_release pi ;;
    ret (Done i).
Definition piperead (pi addr n : Z) : M kern (susp bool Z) :=
  let! me := on_p cur in
  pi_acquire pi ;;
  piperead_wait me pi addr n.
Definition piperead_again (me : nat) (pi addr n : Z) (intena : bool) : M kern (susp bool Z) :=
  k_sleep_return me (pi_acquire pi) intena ;;
  piperead_wait me pi addr n.

(** ** kernel/file.c *)

(** [devsw[major].read] and [.write]: [None] is a null pointer. *)
Context (devsw_read devsw_write : Z -> option (Z -> Z -> Z -> M kern Z)).

Definition fileinit : M kern unit := modify (set_ft_lock spin_free).

Fixpoint filealloc_scan (l : list file) (i : nat) : option nat :=
  match l with
  | [] => None
  | f :: l' => if fref f =? 0 then Some i else filealloc_scan l' (S i)
  end.
Definition filealloc : M kern (option nat) :=
  ft_acquire ;;
  let! l := gets files in
  match filealloc_scan l 0 with
  | Some i => upd_file i (set_fref 1) ;; ft_release ;; ret (Some i)
  | None => ft_release ;; ret None
  end.

Definition filedup (f : nat) : M kern nat :=
  ft_acquire ;;
  let! ff := get_file f in
  if fref ff <? 1 then panic "filedup" else
  upd_file f (fun x => set_fref (s32 (fref x + 1)) x) ;;
  ft_release ;;
  ret f.

(** A null [struct inode *] that is followed. *)
Definition fderef {A} (p : option A) : M kern A := match p with Some x => ret x | None => panic "kerneltrap" end.

Definition fileclose (f : nat) : M kern unit :=
  ft_acquire ;;
  let! ff := get_file f in
  if fref ff <? 1 then panic "fileclose" else
  upd_file f (fun x => set_fref (fref x - 1) x) ;;
  let! ff := get_file f in
  if 0 <? fref ff then ft_release else
  upd_file f (set_fref 0) ;;
  upd_file f (set_ftype FD_NONE) ;;
  ft_release ;;
  match ftype ff with
  | FD_PIPE => pipeclose (fpipe ff) (fwritable ff)
  | FD_INODE | FD_DEVICE =>
      begin_op ;;
      let! ip := fderef (fip ff) in
      let! me := mypid in
      on_fs (iput me ip) ;;
      end_op
  | FD_NONE => ret tt
  end.

(** [struct stat] in memory; [pad] is what the stack holds in the four bytes
    of padding before [size]. *)
Definition stat_bytes (pad : list Z) (st : stat) : list Z :=
  put32 (replicate 4 0) 0 (st_dev st) ++ put32 (replicate 4 0) 0 (st_ino st) ++
  put16 (replicate 2 0) 0 (st_type st) ++ put16 (replicate 2 0) 0 (st_nlink st) ++ pad ++
  put32 (replicate 4 0) 0 (st_size st) ++ put32 (replicate 4 0) 0 (Z.shiftr (st_size st) 32).

Definition filestat (pad : list Z) (f : nat) (addr : Z) : M kern Z :=
  let! pr := myproc_ in
  let! ff := get_file f in
  match ftype ff with
  | FD_INODE | FD_DEVICE =>
      let! ip := fderef (fip ff) in
      let! me := mypid in
      on_fs (ilock me ip) ;;
      let! st := on_fs (stati ip) in
      on_fs (iunlock me ip) ;;
      let! r := on_p (copyout_obj kobj (pagetable (snd pr)) addr (stat_bytes pad st)) in
      if r <? 0 then ret (-1) else ret 0
  | _ => ret (-1)
  end.

Definition fileread (f : nat) (addr n : Z) : M kern Z :=
  let! ff := get_file f in
  if freadable ff =? 0 then ret (-1) else
  match ftype ff with
  | FD_PIPE => let! r := piperead (fpipe ff) addr n in wait_for r
  | FD_DEVICE =>
      if (fmajor ff <? 0) || (NDEV <=? fmajor ff) then ret (-1) else
      match devsw_read (fmajor ff) with
      | None => ret (-1)
      | Some read => read 1 addr n
      end
  | FD_INODE =>
      let! ip := fderef (fip ff) in
      let! me := mypid in
      on_fs (ilock me ip) ;;
      let! ff := get_file f in
      let! r := on_fs (readi ip 1 addr (foff ff) (wrap32 n)) in
      (if 0 <? r then upd_file f (fun x => set_foff (wrap32 (foff x + r)) x) else ret tt) ;;
      on_fs (iunlock me ip) ;;
      ret r
  | FD_NONE => panic "fileread"
  end.

(** [max] of [filewrite]. *)
Definition filewrite_max : Z := (MAXOPBLOCKS - 1 - 1 - 2) / 2 * BSIZE.

(** The loop of [filewrite] on an inode; the fuel is the number of chunks. *)
Fixpoint filewrite_loop (fuel : nat) (f ip : nat) (addr n i : Z) : M kern Z :=
  if negb (i <? n) then ret i else
  match fuel with
  | O => nofuel
  | S fuel' =>
      let n1 := if filewrite_max <? n - i then filewrite_max else n - i in
      begin_op ;;
      let! me := mypid in
      on_fs (ilock me ip) ;;
      let! ff := get_file f in
      let! r := on_fs (writei ip 1 (wrap64 (addr + i)) (foff ff) n1) in
      (if 0 <? r then upd_file f (fun x => set_foff (wrap32 (foff x + r)) x) else ret tt) ;;
      on_fs (iunlock me ip) ;;
      end_op ;;
      if r <? 0 then ret i else
      if negb (r =? n1) then panic "short filewrite" else
      filewrite_loop fuel' f ip addr n (i + r)
  end.
Definition filewrite_fuel (n : Z) : nat := Z.to_nat (n / filewrite_max + 1).

Definition filewrite (f : nat) (addr n : Z) : M kern Z :=
  let! ff := get_file f in
  if fwritable ff =? 0 then ret (-1) else
  match ftype ff with
  | FD_PIPE => let! r := pipewrite (fpipe ff) addr n in wait_for r
  | FD_DEVICE =>
      if (fmajor ff <? 0) || (NDEV <=? fmajor ff) then ret (-1) else
      match devsw_write (fmajor ff) with
      | None => ret (-1)
      | Some write => write 1 addr n
      end
  | FD_INODE =>
      let! ip := fderef (fip ff) in
      let! i := filewrite_loop (filewrite_fuel n) f ip addr n 0 in
      ret (if i =? n then n else -1)
  | FD_NONE => panic "filewrite"
  end.

(** [pipealloc] (kernel/pipe.c): the two files on success.  [bad] frees what
    was allocated so far. *)
Definition pipealloc_bad (pi : Z) (f0 f1 : option nat) : M kern (option (nat * nat)) :=
  (if truth pi then on_p (on_km (kfree kend pi)) else ret tt) ;;
  match f0 with Some f => fileclose f | None => ret tt end ;;
  match f1 with Some f => fileclose f | None => ret tt end ;;
  ret None.
Definition pipealloc : M kern (option (nat * nat)) :=
  let! f0 := filealloc in
  match f0 with
  | None => pipealloc_bad 0 None None
  | Some f0 =>
      let! f1 := filealloc in
      match f1 with
      | None => pipealloc_bad 0 (Some f0) None
      | Some f1 =>
          let! pi := on_p (on_km kalloc) in
          if pi =? 0 then pipealloc_bad 0 (Some f0) (Some f1) else
          modify (fun k => set_pipes (<[pi := Pipe spin_free (replicate (Z.to_nat PIPESIZE) 5) 0 0 1 1]> (pipes k)) k) ;;
          upd_file f0 (set_ftype FD_PIPE) ;;
          upd_file f0 (set_frw 1 0) ;;
          upd_file f0 (set_fpipe pi) ;;
          upd_file f1 (set_ftype FD_PIPE) ;;
          upd_file f1 (set_frw 0 1) ;;
          upd_file f1 (set_fpipe pi) ;;
          ret (Some (f0, f1))
      end
  end.
End kern.
Arguments kern T : clear implicits.
