(* ===== verification/PipeProof.v ===== *)
(** * Pipes

    A pipe holds a queue of bytes.  First the ring buffer of [struct pipe]
    as a queue, and the history of a pipe under any interleaving of readers
    and writers; then what [pipewrite] and [piperead] do. *)

From S2P Require Import Prelude Riscv Memory Ring Spinlock Kalloc Vm PageTable VmMap UserVm VmCopy VmExample Block BlockCache Log Tx CopyIO Fs Hart Proc ProcProof UserCall Console Virtio File.

(** ** The queue of a pipe *)

Definition pipe_queue (p : pipe) : list Z := ring PIPESIZE (pi_data p) (nread p) (wrap32 (nwrite p - nread p)).
Record pipe_rep (p : pipe) (q : list Z) : Prop := {
  pr_len : Z.of_nat (length (pi_data p)) = PIPESIZE;
  pr_nread : 0 <= nread p < 2^32;
  pr_nwrite : 0 <= nwrite p < 2^32;
  pr_queue : pipe_queue p = q;
  pr_max : Z.of_nat (length q) <= PIPESIZE;
}.

Lemma pipe_rep_count p q : pipe_rep p q -> wrap32 (nwrite p - nread p) = Z.of_nat (length q).
Proof. intros [_ _ _ <- _]. unfold pipe_queue. rewrite length_ring; [done|done|]. unfold wrap32. dlia. Qed.

Lemma pipe_full_spec p q : pipe_rep p q -> pipe_full p = true <-> Z.of_nat (length q) = PIPESIZE.
Proof.
  intros H. pose proof (pipe_rep_count p q H) as Hc. destruct H. unfold pipe_full. rewrite Z.eqb_eq.
  unfold wrap32, PIPESIZE in *. split; intros E; dlia.
Qed.

Lemma pipe_empty_spec p q : pipe_rep p q -> pipe_empty p = true <-> q = [].
Proof.
  intros H. pose proof (pipe_rep_count p q H) as Hc. destruct H as [_ ? ? Hq _]. unfold pipe_empty. rewrite Z.eqb_eq. split.
  - intros E. apply length_zero_iff_nil. rewrite E, Z.sub_diag in Hc. change (wrap32 0) with 0 in Hc. lia.
  - intros ->. unfold wrap32 in *. simpl in Hc. dlia.
Qed.

Lemma pipe_512 : (PIPESIZE | 2^32).
Proof. by exists (2^23). Qed.

Lemma pipe_put_rep p q ch : pipe_rep p q -> pipe_full p = false -> pipe_rep (pipe_put ch p) (q ++ [ch]).
Proof.
  intros H Hf. pose proof (pipe_rep_count p q H) as Hc. pose proof (pipe_full_spec p q H) as Hfs. destruct H as [Hl Hr Hw Hq Hm].
  assert (Z.of_nat (length q) < PIPESIZE) as Hlt. { destruct (decide (Z.of_nat (length q) = PIPESIZE)) as [E|]; [|lia]. apply Hfs in E. congruence. }
  constructor; cbn [pi_data nread nwrite pipe_put].
  - by rewrite length_insert.
  - done.
  - unfold wrap32. dlia.
  - unfold pipe_queue. cbn [pi_data nread nwrite pipe_put].
    replace (wrap32 (wrap32 (nwrite p + 1) - nread p)) with (Z.of_nat (length q) + 1).
    2:{ rewrite <- Hc. unfold wrap32, PIPESIZE in *. dlia. }
    replace (Z.to_nat (nwrite p mod PIPESIZE)) with (Z.to_nat ((nread p + Z.of_nat (length q)) mod PIPESIZE)).
    2:{ rewrite <- Hc. f_equal. unfold wrap32, PIPESIZE in *. dlia. }
    rewrite ring_push by (done || lia). rewrite <- Hc. fold (pipe_queue p). by rewrite Hq.
  - rewrite length_app. simpl. lia.
Qed.

Lemma pipe_get_rep p ch q : pipe_rep p (ch :: q) -> pipe_next p = ch /\ pipe_rep (pipe_get p) q.
Proof.
  intros H. pose proof (pipe_rep_count _ _ H) as Hc. destruct H as [Hl Hr Hw Hq Hm]. unfold pipe_queue in Hq. rewrite Hc in Hq.
  cbn [length] in Hq, Hm, Hc. rewrite ring_pop in Hq by (done || lia). injection Hq as E1 E2. split; [done|].
  constructor; cbn [pi_data nread nwrite pipe_get]; try done.
  - unfold wrap32. dlia.
  - unfold pipe_queue. cbn [pi_data nread nwrite pipe_get].
    replace (wrap32 (nwrite p - wrap32 (nread p + 1))) with (Z.of_nat (S (length q)) - 1).
    2:{ rewrite <- Hc. unfold wrap32 in *. dlia. }
    unfold wrap32 at 1. by rewrite (ring_start_mod PIPESIZE ltac:(done) (2^32) _ _ _ pipe_512 ltac:(done)).
  - lia.
Qed.

(** ** The history of a pipe *)

(** The pipe with the bytes written to it and read from it so far.  A writer
    puts a byte when the pipe is not full, a reader takes one when it is not
    empty, as in the loops of [pipewrite] and [piperead]; either end may be
    closed and the lock changes hands. *)
Inductive pipe_step : pipe * list Z * list Z -> pipe * list Z * list Z -> Prop :=
| step_write p w r ch : pipe_full p = false -> pipe_step (p, w, r) (pipe_put ch p, w ++ [ch], r)
| step_read p w r : pipe_empty p = false -> pipe_step (p, w, r) (pipe_get p, w, r ++ [pipe_next p])
| step_close_read p w r : pipe_step (p, w, r) (set_readopen 0 p, w, r)
| step_close_write p w r : pipe_step (p, w, r) (set_writeopen 0 p, w, r)
| step_lock p w r x : pipe_step (p, w, r) (set_pi_lock x p, w, r).

Definition new_pipe : pipe := Pipe spin_free (replicate (Z.to_nat PIPESIZE) 5) 0 0 1 1.

Lemma pipe_step_rep p w r p' w' r' q :
  pipe_step (p, w, r) (p', w', r') -> pipe_rep p q -> w = r ++ q ->
  exists q', pipe_rep p' q' /\ w' = r' ++ q'.
Proof.
  intros H Hp ->. inversion H; subst.
  - exists (q ++ [ch]). split; [by apply pipe_put_rep|]. by rewrite app_assoc.
  - destruct q as [|c q].
    + assert (pipe_empty p = true) by (by eapply pipe_empty_spec). congruence.
    + destruct (pipe_get_rep _ _ _ Hp) as [-> Hq]. exists q. split; [done|]. by rewrite <- app_assoc.
  - exists q. split; [by destruct Hp|done].
  - exists q. split; [by destruct Hp|done].
  - exists q. split; [by destruct Hp|done].
Qed.

Definition pipe_hist (x : pipe * list Z * list Z) : Prop := exists q, pipe_rep (x.1.1) q /\ x.1.2 = x.2 ++ q.

Lemma pipe_history x : rtc pipe_step (new_pipe, [], []) x -> pipe_hist x.
Proof.
  revert x. apply rtc_ind_r.
  - exists []. split; [|done]. by constructor.
  - intros [[p1 w1] r1] [[p2 w2] r2] _ Hs (q & Hp & E). by eapply pipe_step_rep.
Qed.



(** ** A process in a system call *)

Section pipe.
Context {T : Type} (kend kobj : Z) (Hend : 0 < kend).
Abbreviation kern := (kern T).
Abbreviation call_ok := (call_ok kend kobj).

Definition ps (k : kern) : pst := um (kfs k).
Definition set_ps (s : pst) (k : kern) : kern := set_kfs (set_um s (kfs k)) k.

Lemma wp_on_p {A} (c : M pst A) (Q : A -> kern -> Prop) k : wp c (fun a s => Q a (set_ps s k)) (ps k) -> wp (on_p c) Q k.
Proof. intros H. by do 2 apply wp_zoom. Qed.

Lemma wp_on_p_gets {A} (f : pst -> A) (Q : A -> kern -> Prop) k : Q (f (ps k)) k -> wp (on_p (gets f)) Q k.
Proof. intros H. apply wp_on_p, wp_gets. by destruct k as [[]]. Qed.


(** *** The lock of a pipe *)

Lemma pipe_at_insert (k : kern) pi p : pipe_at (set_pipes (<[pi := p]> (pipes k)) k) pi = p.
Proof. unfold pipe_at. cbn [pipes set_pipes]. by rewrite lookup_insert_eq. Qed.

Lemma pipe_at_lock pi x (k : kern) : pipe_at (set_pipe_lock pi x k) pi = set_pi_lock x (pipe_at k pi).
Proof. apply pipe_at_insert. Qed.
Lemma pipe_at_ps pi s (k : kern) : pipe_at (set_ps s k) pi = pipe_at k pi.
Proof. done. Qed.

Lemma set_pi_lock_rep x p q : pipe_rep p q -> pipe_rep (set_pi_lock x p) q.
Proof. by intros []. Qed.

Lemma wp_pi_acquire i l t D k pi (Q : unit -> kern -> Prop) :
  call_ok i l t D (ps k) -> pi_lock (pipe_at k pi) = spin_free ->
  (forall s, call_ok i l t D s -> procs s = procs (ps k) -> same_rest (ps k) s -> cnoff s = cnoff (ps k) + 1 ->
     Q tt (set_pipe_lock pi spin_mine (set_ps s k))) ->
  wp (pi_acquire pi) Q k.
Proof.
  intros Hc Hl HQ. unfold pi_acquire, k_acquire. apply wp_bind, wp_on_p. apply wp_push; [apply Hc|]. intros s Hp Hr Hn Hok _ _.
  apply wp_spin_acquire; [done|]. apply HQ; try done. by eapply call_ok_same.
Qed.

Lemma wp_pi_release i l t D k pi (Q : unit -> kern -> Prop) :
  call_ok i l t D (ps k) -> 0 < cnoff (ps k) -> pi_lock (pipe_at k pi) = spin_mine ->
  (forall s, call_ok i l t D s -> procs s = procs (ps k) -> same_rest (ps k) s -> cnoff s = cnoff (ps k) - 1 ->
     Q tt (set_ps s (set_pipe_lock pi spin_free k))) ->
  wp (pi_release pi) Q k.
Proof.
  intros Hc Hn Hl HQ. unfold pi_release, k_release. apply wp_bind. apply wp_spin_release; [done|]. apply wp_on_p.
  apply wp_pop; [apply Hc|done|]. intros s Hp Hr Hn' Hok _ _. apply HQ; try done. by eapply call_ok_same.
Qed.

Lemma wp_k_wakeup i l t D k ch (Q : unit -> kern -> Prop) :
  call_ok i l t D (ps k) ->
  (forall s, call_ok i l t D s -> procs s = woken ch <$> procs (ps k) -> same_rest (ps k) s -> cnoff s = cnoff (ps k) ->
     Q tt (set_ps s k)) ->
  wp (on_p (wakeup ch)) Q k.
Proof.
  intros Hc HQ. apply wp_on_p. apply wp_wakeup; [apply Hc|apply Hc|]. intros s Hp Hr Hn Hok _. apply HQ; try done. by eapply call_ok_woken.
Qed.

(** The state of a call on a pipe, with its lock held. *)
Record in_pipe (i : nat) (l : list Z) (t : ptree) (D : list Z) (pi : Z) (q : list Z) (k : kern) : Prop := {
  ip_call : call_ok i l t D (ps k);
  ip_noff : 0 < cnoff (ps k);
  ip_lock : pi_lock (pipe_at k pi) = spin_mine;
  ip_rep : pipe_rep (pipe_at k pi) q;
}.

(** Between [k] and [k'] the process table and the memory other than [kobj]
    are as they were. *)
Record quiet (k k' : kern) : Prop := {
  qu_procs : procs (ps k') = procs (ps k);
  qu_noff : cnoff (ps k') = cnoff (ps k);
  qu_mem : forall a, a <> kobj -> load8 (mem (km (ps k'))) a = load8 (mem (km (ps k))) a;
}.

Lemma quiet_trans k1 k2 k3 : quiet k1 k2 -> quiet k2 k3 -> quiet k1 k3.
Proof. intros [] []. constructor; try congruence. intros a Ha. rewrite qu_mem1 by done. by apply qu_mem0. Qed.

Lemma not_full p q : pipe_rep p q -> Z.of_nat (length q) < PIPESIZE -> pipe_full p = false.
Proof. intros H Hl. destruct (pipe_full p) eqn:E; [|done]. apply (pipe_full_spec _ _ H) in E. lia. Qed.

Lemma wp_pipewrite_loop i l t D pi addr n bs : forall j q k (Q : susp (Z * bool) Z -> kern -> Prop),
  in_pipe i l t D pi q k -> user_bytes (mem (km (ps k))) t (addr + j) bs -> n = j + Z.of_nat (length bs) ->
  Z.of_nat (length q) + Z.of_nat (length bs) <= PIPESIZE ->
  (forall k', in_pipe i l t D pi (q ++ bs) k' -> quiet k k' -> wp (pipewrite_done pi n) Q k') ->
  wp (pipewrite_loop kobj (length bs) i pi addr n j) Q k.
Proof using Hend.
  induction bs as [|b bs IH]; intros j q k Q Hk Hb Hn Hq HQ; cbn [length pipewrite_loop] in *.
  { rewrite (proj2 (Z.ltb_ge j n)) by lia. replace n with j in * by lia. apply HQ; [by rewrite app_nil_r|done]. }
  rewrite (proj2 (Z.ltb_lt j n)) by lia. cbn [negb]. apply wp_bind, wp_gets. apply wp_bind, wp_on_p_gets.
  destruct Hk as [Hc Hno Hl Hr]. rewrite (not_full _ _ Hr) by lia. rewrite (co_pt Hc).
  pose proof (Hb O b eq_refl) as Hb0. rewrite Z.add_0_r in Hb0. rewrite (ubyte_wrap _ _ _ _ Hb0).
  apply wp_bind. apply wp_on_p. eapply (wp_copyin1 kend kobj Hend); [done|done|]. intros m' Hm. cbn [Z.eqb Pos.eqb]. apply wp_bind, wp_modify. cbn [head default].
  eapply IH.
  - constructor.
    + apply call_ok_km; [done|apply Hm].
    + done.
    + rewrite pipe_at_insert. done.
    + rewrite pipe_at_insert. apply pipe_put_rep; [done|]. apply (not_full _ q); [done|lia].
  - rewrite Z.add_assoc. cbn. eapply user_bytes_scratch; [done|done|]. by eapply user_bytes_tail.
  - lia.
  - rewrite length_app. cbn [length]. lia.
  - intros k' Hk' Hqu. rewrite <- app_assoc in Hk'. apply HQ; [done|]. eapply quiet_trans; [|done]. constructor; [done|done|apply Hm].
Qed.

Lemma wp_pipewrite_done i l t D pi q n k (Q : susp (Z * bool) Z -> kern -> Prop) :
  in_pipe i l t D pi q k ->
  (forall k', call_ok i l t D (ps k') -> pi_lock (pipe_at k' pi) = spin_free -> pipe_rep (pipe_at k' pi) q ->
     procs (ps k') = woken (ch_nread pi) <$> procs (ps k) -> cnoff (ps k') = cnoff (ps k) - 1 -> km (ps k') = km (ps k) -> Q (Done n) k') ->
  wp (pipewrite_done pi n) Q k.
Proof.
  intros [Hc Hno Hl Hr] HQ. unfold pipewrite_done. apply wp_bind. eapply wp_k_wakeup; [done|]. intros s1 C1 E1 R1 N1.
  apply wp_bind. eapply wp_pi_release; [done|cbn; lia|done|]. intros s2 C2 E2 R2 N2. apply wp_ret. apply HQ.
  - done.
  - by rewrite pipe_at_ps, pipe_at_lock.
  - rewrite pipe_at_ps, pipe_at_lock. by apply set_pi_lock_rep.
  - etrans; [exact E2|exact E1].
  - cbn in *. lia.
  - etrans; [exact (sr_km _ _ R2)|exact (sr_km _ _ R1)].
Qed.

(** [pipewrite(pi, addr, n)] with room for the [n] bytes appends exactly
    the [n] bytes that the process has at [addr] to the queue of the pipe, in
    order, wakes every reader that sleeps on the pipe, releases the lock and
    returns [n]; it changes no other memory. *)
Theorem pipewrite_correct i l t D pi addr bs q (k : kern) :
  call_ok i l t D (ps k) -> pi_lock (pipe_at k pi) = spin_free -> pipe_rep (pipe_at k pi) q ->
  user_bytes (mem (km (ps k))) t addr bs -> Z.of_nat (length q) + Z.of_nat (length bs) <= PIPESIZE ->
  wp (pipewrite kobj pi addr (Z.of_nat (length bs))) (fun r k' =>
    r = Done (Z.of_nat (length bs)) /\ pipe_rep (pipe_at k' pi) (q ++ bs) /\ pi_lock (pipe_at k' pi) = spin_free /\
    procs (ps k') = woken (ch_nread pi) <$> procs (ps k) /\ cnoff (ps k') = cnoff (ps k) /\ call_ok i l t D (ps k') /\
    forall a, a <> kobj -> load8 (mem (km (ps k'))) a = load8 (mem (km (ps k))) a) k.
Proof using Hend.
  intros Hc Hl Hr Hb Hq. unfold pipewrite. apply wp_bind, wp_on_p. eapply wp_cur; [apply Hc|apply Hc|]. intros s1 E1 R1 N1 C1 _ _.
  assert (call_ok i l t D s1) as Hc1 by (by eapply call_ok_same). apply wp_bind. eapply wp_pi_acquire; [exact Hc1|done|].
  intros s2 C2 E2 R2 N2. cbn [ps set_ps um set_um kfs set_kfs] in *. rewrite Nat2Z.id. eapply (wp_pipewrite_loop i l t D pi addr _ bs 0 q).
  - constructor; [done|cbn; destruct Hc as [[(? & _ & _) _]]; cbn in *; lia| |].
    + by rewrite pipe_at_lock.
    + rewrite pipe_at_lock. by apply set_pi_lock_rep.
  - rewrite Z.add_0_r. cbn. by rewrite (sr_km _ _ R2), (sr_km _ _ R1).
  - lia.
  - done.
  - intros k' Hk' [Qp Qn Qm]. eapply wp_pipewrite_done; [done|]. intros k2 Hc2 Hl2 Hr2 Ep En Em. cbn in Qp, Qn, Qm.
    split; [done|]. split; [done|]. split; [done|]. split; [congruence|]. split; [lia|]. split; [done|].
    intros a Ha. rewrite Em, Qm by done. by rewrite (sr_km _ _ R2), (sr_km _ _ R1).
Qed.

(** *** piperead *)

(** [k'] is [k] with the bytes [bs] delivered to the process at [va]. *)
Record delivered (t : ptree) (va : Z) (bs : list Z) (k k' : kern) : Prop := {
  dv_procs : procs (ps k') = procs (ps k);
  dv_noff : cnoff (ps k') = cnoff (ps k);
  dv_leaf : forall a, leaf (mem (km (ps k'))) t a = leaf (mem (km (ps k))) t a;
  dv_bytes : user_bytes (mem (km (ps k'))) t va bs;
  dv_rest : forall a, a <> kobj -> (forall j, 0 <= j < Z.of_nat (length bs) -> upa (mem (km (ps k))) t (va + j) <> Some a) ->
    load8 (mem (km (ps k'))) a = load8 (mem (km (ps k))) a;
}.

Lemma delivered_nil t va k : delivered t va [] k k.
Proof. by constructor. Qed.

(** One byte, then the others. *)
Lemma delivered_cons i l t D va a b bs k m1 k2 (k1 := set_ps (set_km m1 (ps k)) k) :
  call_ok i l t D (ps k) -> upa (mem (km (ps k))) t va = Some a -> load8 (mem m1) a = b ->
  (forall x, leaf (mem m1) t x = leaf (mem (km (ps k))) t x) ->
  (forall x, x <> kobj -> x <> a -> load8 (mem m1) x = load8 (mem (km (ps k))) x) ->
  delivered t (va + 1) bs k1 k2 -> delivered t va (b :: bs) k k2.
Proof.
  intros Hc Ha Hb Hl Hm [Ep En El Eb Er]. cbn in *. assert (a <> kobj) as Hak. { intros ->. by eapply kobj_not_user. }
  assert (forall j, 0 <= j -> upa (mem m1) t (va + 1 + j) <> Some a) as Hlater.
  { intros j Hj E. rewrite (upa_leaf _ _ _ Hl) in E. pose proof (upa_inj kend _ _ _ _ _ _ _ (co_user Hc) Ha E). lia. }
  constructor; cbn; try done.
  - intros x. by rewrite El, Hl.
  - intros [|j] x Hx.
    + injection Hx as ->. rewrite Z.add_0_r. unfold ubyte. rewrite (upa_leaf _ _ _ El), (upa_leaf _ _ _ Hl), Ha. cbn. f_equal.
      rewrite Er; [done|done|]. intros j Hj. apply Hlater. lia.
    + cbn in Hx. rewrite <- (Eb j x Hx). f_equal. lia.
  - intros x Hx Hd. rewrite Er; [apply Hm; [done|]|done|].
    + intros ->. apply (Hd 0); [cbn; lia|]. by rewrite Z.add_0_r.
    + intros j Hj. rewrite (upa_leaf _ _ _ Hl). specialize (Hd (j + 1)). replace (va + (j + 1)) with (va + 1 + j) in Hd by lia. apply Hd. cbn. lia.
Qed.

Lemma wp_piperead_copy i l t D pi addr n : forall fuel j q k (Q : Z -> kern -> Prop),
  in_pipe i l t D pi q k -> Forall is_byte q -> n - j = Z.of_nat fuel ->
  (forall x, 0 <= x < Z.of_nat (min fuel (length q)) -> upa (mem (km (ps k))) t (addr + j + x) <> None) ->
  (forall k', in_pipe i l t D pi (drop fuel q) k' -> delivered t (addr + j) (take fuel q) k k' ->
     Q (j + Z.of_nat (min fuel (length q))) k') ->
  wp (piperead_copy kobj fuel i pi addr n j) Q k.
Proof using Hend.
  induction fuel as [|fuel IH]; intros j q k Q Hk Hby Hn Hd HQ; cbn [piperead_copy].
  { rewrite (proj2 (Z.ltb_ge j n)) by lia. apply wp_ret. replace j with (j + Z.of_nat (min 0 (length q))) at 1 by (simpl; lia). apply HQ; [done|apply delivered_nil]. }
  rewrite (proj2 (Z.ltb_lt j n)) by lia. cbn [negb]. apply wp_bind, wp_gets. destruct q as [|b q].
  { assert (pipe_empty (pipe_at k pi) = true) as -> by (eapply pipe_empty_spec; [apply Hk|done]). apply wp_ret.
    replace j with (j + Z.of_nat (min (S fuel) (length (@nil Z)))) at 1 by (simpl; lia). apply HQ; [done|apply delivered_nil]. }
  assert (pipe_empty (pipe_at k pi) = false) as ->.
  { destruct (pipe_empty _) eqn:E; [|done]. eapply pipe_empty_spec in E; [|apply Hk]. done. }
  destruct Hk as [Hc Hno Hl Hr]. destruct (pipe_get_rep _ _ _ Hr) as [-> Hr']. apply Forall_cons in Hby as [Hb Hby].
  apply wp_bind, wp_modify. apply wp_bind, wp_on_p_gets.
  destruct (upa (mem (km (ps k))) t (addr + j)) as [a|] eqn:Ha; [|exfalso; apply (Hd 0); [cbn; lia|by rewrite Z.add_0_r]].
  pose proof (upa_range _ _ _ _ Ha) as Hrange. change MAXVA with (2^38) in Hrange. rewrite (wrap64_small (addr + j)) by lia.
  change (ps (set_pipes ?x k)) with (ps k). rewrite (co_pt Hc). apply wp_bind. apply wp_on_p. eapply (wp_copyout1 kend kobj Hend); [exact Hc|done|exact Ha|]. intros m' HU' Hl' Hv Hm'. cbn [Z.eqb Pos.eqb].
  eapply IH; [|done|lia| |].
  - constructor.
    + by apply call_ok_km.
    + done.
    + change (pipe_at _ pi) with (pipe_at (set_pipes (<[pi := pipe_get (pipe_at k pi)]> (pipes k)) k) pi). by rewrite pipe_at_insert.
    + change (pipe_at _ pi) with (pipe_at (set_pipes (<[pi := pipe_get (pipe_at k pi)]> (pipes k)) k) pi). by rewrite pipe_at_insert.
  - intros x Hx. change (upa (mem m') t (addr + (j + 1) + x) <> None). rewrite (upa_leaf _ _ _ Hl'). replace (addr + (j + 1) + x) with (addr + j + (x + 1)) by lia. apply Hd. cbn. lia.
  - intros k' Hk' Hdv. replace (j + 1 + Z.of_nat (min fuel (length q))) with (j + Z.of_nat (min (S fuel) (length (b :: q)))) by (cbn [length Nat.min]; lia).
    apply HQ; [done|]. cbn [take]. eapply (delivered_cons i l t D _ a); [done|done|done|done|done|]. rewrite Z.add_assoc in Hdv. destruct Hdv. by constructor.
Qed.

(** [piperead(pi, addr, n)] on a pipe that holds the bytes [q], or whose
    writers are all gone, takes the first [n] bytes of the queue, or all of it
    if there are fewer, and stores them in order at [addr] in the process's
    memory, which is otherwise unchanged; it wakes every writer that sleeps on
    the pipe, releases the lock and returns the number of bytes. *)
Theorem piperead_correct i l t D pi addr (n : nat) q (k : kern) :
  call_ok i l t D (ps k) -> pi_lock (pipe_at k pi) = spin_free -> pipe_rep (pipe_at k pi) q -> Forall is_byte q ->
  q <> [] \/ writeopen (pipe_at k pi) = 0 ->
  (forall x, 0 <= x < Z.of_nat (min n (length q)) -> upa (mem (km (ps k))) t (addr + x) <> None) ->
  wp (piperead kobj pi addr (Z.of_nat n)) (fun r k' =>
    r = Done (Z.of_nat (min n (length q))) /\ pipe_rep (pipe_at k' pi) (drop n q) /\ pi_lock (pipe_at k' pi) = spin_free /\
    user_bytes (mem (km (ps k'))) t addr (take n q) /\
    (forall a, a <> kobj -> (forall j, 0 <= j < Z.of_nat (length (take n q)) -> upa (mem (km (ps k))) t (addr + j) <> Some a) ->
       load8 (mem (km (ps k'))) a = load8 (mem (km (ps k))) a) /\
    procs (ps k') = woken (ch_nwrite pi) <$> procs (ps k) /\ cnoff (ps k') = cnoff (ps k) /\ call_ok i l t D (ps k')) k.
Proof using Hend.
  intros Hc Hl Hr Hby Hq Hd. unfold piperead. apply wp_bind, wp_on_p. eapply wp_cur; [apply Hc|apply Hc|]. intros s1 E1 R1 N1 C1 _ _.
  assert (call_ok i l t D s1) as Hc1 by (by eapply call_ok_same). apply wp_bind. eapply wp_pi_acquire; [exact Hc1|done|].
  intros s2 C2 E2 R2 N2. cbn [ps set_ps um set_um kfs set_kfs] in *. unfold piperead_wait. apply wp_bind, wp_gets. apply wp_bind, wp_on_p_gets.
  assert (km s2 = km (um (kfs k))) as Em by (by rewrite (sr_km _ _ R2), (sr_km _ _ R1)). rewrite pipe_at_lock, pipe_at_ps, pipe_at_ps.
  assert (pipe_empty (set_pi_lock spin_mine (pipe_at k pi)) && truth (writeopen (set_pi_lock spin_mine (pipe_at k pi))) = false) as ->.
  { apply andb_false_iff. destruct Hq as [Hq|Hq]; [left|right; cbn; by rewrite Hq]. destruct (pipe_empty _) eqn:E; [|done].
    by apply (pipe_empty_spec _ q) in E; [|apply set_pi_lock_rep]. }
  apply wp_bind. rewrite Nat2Z.id. eapply (wp_piperead_copy i l t D pi addr _ n 0 q); [|done|lia| |].
  - constructor; [done|cbn; destruct Hc as [[(? & _ & _) _]]; cbn in *; lia| |].
    + by rewrite pipe_at_lock.
    + rewrite pipe_at_lock. by apply set_pi_lock_rep.
  - intros x Hx. cbn. rewrite Em, Z.add_0_r. by apply Hd.
  - intros k3 [C3 O3 L3 P3] [Dp Dn Dl Db Dr]. rewrite Z.add_0_r, Z.add_0_l in *. cbn in Dp, Dn, Dl, Dr. rewrite Em in Dr.
    apply wp_bind. eapply wp_k_wakeup; [done|]. intros s4 C4 E4 R4 N4. apply wp_bind. eapply wp_pi_release; [done|cbn; lia|done|].
    intros s5 C5 E5 R5 N5. apply wp_ret. assert (km s5 = km (ps k3)) as Em5 by (etrans; [exact (sr_km _ _ R5)|exact (sr_km _ _ R4)]).
    split; [done|]. rewrite pipe_at_ps, pipe_at_lock. split; [by apply set_pi_lock_rep|]. split; [done|].
    change (ps (set_ps s5 ?k)) with s5. rewrite Em5. split; [done|]. split; [done|]. split; [|split; [|done]].
    + etrans; [exact E5|]. etrans; [exact E4|]. by rewrite Dp, E2, E1.
    + cbn in *. lia.
Qed.
End pipe.

(** ** A process with a pipe *)

Definition con0 : con := Con spin_free [] 0 0 0 spin_free [] 0 0 spin_free 0 0.
Definition vdisk0 : vdisk := VDisk [] 0 [] 0 [] [] 0 [] spin_free [].
Definition pp_kern (p : pipe) : kern unit :=
  Kern (Fs (SuperBlock 0 0 0 0 0 0 0 0) spin_free [] tt pp_pst) spin_free [] {[ 4096 := p ]} 0 spin_free 1 con0 vdisk0.

Lemma new_pipe_rep : pipe_rep new_pipe [].
Proof. by constructor. Qed.

Lemma pipewrite_correct_witness :
  wp (pipewrite KERNBASE 4096 16 3) (fun r k' => r = Done 3 /\
    pipe_queue (pipe_at k' 4096) = load8 ex_mem <$> [ex_page 3 + 16; ex_page 3 + 17; ex_page 3 + 18]) (pp_kern new_pipe).
Proof.
  pose proof (pipewrite_correct ex_end KERNBASE ex_end_pos 0 ex_free ex_tree ex_data 4096 16 _ [] (pp_kern new_pipe)
    pp_call_ok eq_refl new_pipe_rep pp_bytes ltac:(done)) as H.
  eapply wp_conseq; [exact H|]. clear H. intros r k' (Hr & Hp & _). split; [exact Hr|exact (pr_queue _ _ Hp)].
Defined.

Lemma two_bytes_rep : pipe_rep (pipe_put 66 (pipe_put 65 new_pipe)) [65; 66].
Proof. apply (pipe_put_rep _ [65]); [|done]. apply (pipe_put_rep _ []); [exact new_pipe_rep|done]. Qed.

Lemma piperead_correct_witness :
  wp (piperead KERNBASE 4096 16 8) (fun r k' => r = Done 2 /\ user_bytes (mem (km (ps k'))) ex_tree 16 [65; 66] /\
    pipe_queue (pipe_at k' 4096) = []) (pp_kern (pipe_put 66 (pipe_put 65 new_pipe))).
Proof.
  pose proof (piperead_correct ex_end KERNBASE ex_end_pos 0 ex_free ex_tree ex_data 4096 16 8 [65; 66] (pp_kern (pipe_put 66 (pipe_put 65 new_pipe)))
    pp_call_ok eq_refl two_bytes_rep) as H.
  eapply wp_conseq; [apply H|].
  - repeat constructor; lia.
  - left. discriminate.
  - intros x Hx. change (mem (km (ps (pp_kern _)))) with ex_mem. rewrite pp_upa; [discriminate|]. cbn in Hx. unfold PGSIZE. lia.
  - clear H. intros r k' (Hr & Hp & _ & Hb & _). split; [exact Hr|]. split; [exact Hb|exact (pr_queue _ _ Hp)].
Defined.
