(* ===== verification/Kernel.v ===== *)
(** * Processes and files (kernel/proc.c, second part)

    The routines of kernel/proc.c that use the file system: [userinit],
    [fork] and [exit]. *)

From S2P Require Import Prelude Riscv Memory Spinlock Sleeplock Kalloc Vm Block BlockCache Log Tx CopyIO Fs Hart Proc Console Virtio File.

(** ** struct trapframe: offsets of its fields (kernel/proc.h) *)

Definition TF_KERNEL_SATP : Z := 0.
Definition TF_KERNEL_SP : Z := 8.
Definition TF_KERNEL_TRAP : Z := 16.
Definition TF_EPC : Z := 24.
Definition TF_KERNEL_HARTID : Z := 32.
Definition TF_SP : Z := 48.
Definition TF_A0 : Z := 112.
Definition TF_A1 : Z := 120.
Definition TF_A7 : Z := 168.
Definition TF_SIZE : Z := 288.

(** [safestrcpy] into the array [s], with [k] = [n] - 1. *)
Fixpoint safestrcpy_l (k : nat) (s t : list Z) : list Z :=
  match k with
  | O => <[O := 0]> s
  | S k' =>
      match s with
      | [] => []
      | _ :: s' => hd0 t :: (if hd0 t =? 0 then <[O := 0]> s' else safestrcpy_l k' s' (tail t))
      end
  end.
Definition setname (t : list Z) (p : proc) : proc := set_pname (safestrcpy_l 15 (pname p) t) p.

Definition initcode : list Z := [
  0x17; 0x05; 0x00; 0x00; 0x13; 0x05; 0x45; 0x02;
  0x97; 0x05; 0x00; 0x00; 0x93; 0x85; 0x35; 0x02;
  0x93; 0x08; 0x70; 0x00; 0x73; 0x00; 0x00; 0x00;
  0x93; 0x08; 0x20; 0x00; 0x73; 0x00; 0x00; 0x00;
  0xef; 0xf0; 0x9f; 0xff; 0x2f; 0x69; 0x6e; 0x69;
  0x74; 0x00; 0x00; 0x24; 0x00; 0x00; 0x00; 0x00;
  0x00; 0x00; 0x00; 0x00].
(** The bytes of "initcode". *)
Definition initcode_name : list Z := [105; 110; 105; 116; 99; 111; 100; 101].

Section kernel.
Context {T : Type} `{!TxOps T}.
Context (kend trampoline forkret_addr kobj de_addr : Z).
#[local] Existing Instance kern_copy_ops.
Abbreviation kern := (kern T).
Abbreviation allocproc_ := (allocproc kend trampoline forkret_addr).
Abbreviation fileclose_ := (fileclose kend).

(** Accesses to a trapframe. *)
Definition tf_load (p : proc) (o : Z) : M kern Z := on_p (on_km (kload64 (trapframe p + o))).
Definition tf_store (p : proc) (o v : Z) : M kern unit := on_p (on_km (kstore64 (trapframe p + o) v)).

(** [initcode_addr]: where the array is. *)
Definition userinit (initcode_addr : Z) : M kern unit :=
  let! r := on_p allocproc_ in
  let! i := on_p (deref r) in
  on_p (modify (set_initproc (Some i))) ;;
  let! p := on_p (get_proc i) in
  on_p (on_km (uvminit (pagetable p) initcode_addr (Z.of_nat (length initcode)))) ;;
  on_p (upd_proc i (set_psz PGSIZE)) ;;
  tf_store p TF_EPC 0 ;;
  tf_store p TF_SP PGSIZE ;;
  on_p (upd_proc i (setname initcode_name)) ;;
  let! d := on_fs (namei (CopyOps0 := kern_copy_ops kobj) (pid p) de_addr 0 [SLASH]) in
  on_p (upd_proc i (set_cwd d)) ;;
  on_p (upd_proc i (set_pstate RUNNABLE)) ;;
  on_p (prelease i).

(** The loop of [fork] over the open files. *)
Definition fork_files (i np : nat) : M kern unit :=
  for_each (seq 0 (Z.to_nat NOFILE)) (fun fd =>
    let! p := on_p (get_proc i) in
    match mjoin (ofile p !! fd) with
    | None => ret tt
    | Some f =>
        let! g := filedup f in
        on_p (upd_proc np (fun q => set_ofile (<[fd := Some g]> (ofile q)) q))
    end).

Definition fork : M kern Z :=
  let! i := on_p cur in
  let! r := on_p allocproc_ in
  match r with
  | None => ret (-1)
  | Some np =>
      let! p := on_p (get_proc i) in
      let! q := on_p (get_proc np) in
      let! r := on_p (on_km (uvmcopy kend (pagetable p) (pagetable q) (psz p))) in
      if r <? 0 then on_p (freeproc kend np) ;; on_p (prelease np) ;; ret (-1) else
      on_p (upd_proc np (set_psz (psz p))) ;;
      on_p (upd_proc np (set_parent (Some i))) ;;
      on_p (on_km (kmemmove (trapframe q) (trapframe p) TF_SIZE)) ;;
      tf_store q TF_A0 0 ;;
      fork_files i np ;;
      let! c := on_p (deref (cwd p)) in
      let! c := on_fs (idup c) in
      on_p (upd_proc np (set_cwd (Some c))) ;;
      on_p (upd_proc np (setname (pname p))) ;;
      let! q := on_p (get_proc np) in
      on_p (upd_proc np (set_pstate RUNNABLE)) ;;
      on_p (prelease np) ;;
      ret (pid q)
  end.

(** The loop of [exit] over the open files. *)
Definition exit_files (i : nat) : M kern unit :=
  for_each (seq 0 (Z.to_nat NOFILE)) (fun fd =>
    let! p := on_p (get_proc i) in
    match mjoin (ofile p !! fd) with
    | None => ret tt
    | Some f =>
        fileclose_ f ;;
        on_p (upd_proc i (fun q => set_ofile (<[fd := None]> (ofile q)) q))
    end).

(** The second half of [exit]: handing the process over to its parent, up to
    the final [swtch]. *)
Definition exit_tail (i : nat) (status : Z) : M pst bool :=
  let! init := gets initproc in
  let! init := deref init in
  pacquire init ;;
  wakeup1 init ;;
  prelease init ;;
  pacquire i ;;
  let! p := get_proc i in
  prelease i ;;
  let! op := deref (parent p) in
  pacquire op ;;
  pacquire i ;;
  reparent i ;;
  wakeup1 op ;;
  upd_proc i (set_xstate status) ;;
  upd_proc i (set_pstate ZOMBIE) ;;
  prelease op ;;
  sched.

(** [exit] up to [swtch], from which it never returns. *)
Definition exit (status : Z) : M kern bool :=
  let! i := on_p cur in
  let! init := on_p (gets initproc) in
  if decide (init = Some i) then panic "init exiting" else
  exit_files i ;;
  begin_op ;;
  let! p := on_p (get_proc i) in
  let! c := on_p (deref (cwd p)) in
  on_fs (iput (pid p) c) ;;
  end_op ;;
  on_p (upd_proc i (set_cwd None)) ;;
  on_p (exit_tail i status).
End kernel.
