(* ===== verification/ProcLife.v ===== *)
(** * The end of a process (kernel/proc.c, kernel/vm.c: exit, wait, freeproc)

    [exit] hands the process over to its parent as a zombie; [wait] finds it,
    delivers its status and gives back all its memory. *)

From S2P Require Import Prelude Riscv Memory Spinlock Kalloc Vm PageTable VmMap UserVm UvmCopy VmFree VmCopy VmExample Hart Proc ProcProof UserCall Block BlockCache Log Tx CopyIO Fs Console Virtio File Kernel.

(** ** The table, entry by entry *)

(** Entry [j] of the table is [g j] of what it was. *)
Definition tab (s : pst) (g : nat -> proc -> proc) (s' : pst) : Prop := forall j, procs s' !! j = g j <$> procs s !! j.
Definition upd_at (i : nat) (h : proc -> proc) (g : nat -> proc -> proc) : nat -> proc -> proc := fun j p => if decide (j = i) then h (g j p) else g j p.

(** The hart goes on as before. *)
Record stays (s s' : pst) : Prop := Stays {
  st_rest : same_rest s s';
  st_noff : cnoff s' = cnoff s;
  st_cpu : cpu_ok s';
  st_intena : cnoff s <> 0 -> cintena s' = cintena s }.

Lemma stays_trans s1 s2 s3 : stays s1 s2 -> stays s2 s3 -> stays s1 s3.
Proof. intros [R1 N1 C1 I1] [R2 N2 C2 I2]. split; [by eapply same_rest_trans|lia|done|]. intros H. rewrite I2 by lia. by apply I1. Qed.

Lemma tab_refl s s' : procs s' = procs s -> tab s (fun _ p => p) s'.
Proof. intros E j. rewrite E. by destruct (procs s !! j). Qed.
Lemma tab_at s g s' i : (i < length (procs s))%nat -> tab s g s' -> proc_at s' i = g i (proc_at s i).
Proof. intros Hi H. unfold proc_at. rewrite H. destruct (lookup_lt_is_Some_2 _ _ Hi) as [p ->]. done. Qed.
Lemma tab_length s g s' : tab s g s' -> length (procs s') = length (procs s).
Proof.
  intros H. destruct (decide (length (procs s') <= length (procs s))%nat) as [Hle|Hle].
  - destruct (decide (length (procs s) <= length (procs s'))%nat) as [|Hn]; [lia|]. exfalso.
    destruct (lookup_lt_is_Some_2 (procs s) (length (procs s')) ltac:(lia)) as [p Hp]. pose proof (H (length (procs s'))) as E. rewrite Hp, lookup_ge_None_2 in E by done. done.
  - exfalso. destruct (lookup_lt_is_Some_2 (procs s') (length (procs s)) ltac:(lia)) as [p Hp]. pose proof (H (length (procs s))) as E.
    rewrite Hp, (lookup_ge_None_2 (procs s)) in E by done. done.
Qed.
Lemma tab_upd s g s1 i h s2 : (i < length (procs s))%nat -> tab s g s1 -> procs s2 = <[i := h (proc_at s1 i)]> (procs s1) -> tab s (upd_at i h g) s2.
Proof.
  intros Hi H E j. rewrite E. unfold upd_at. rewrite (tab_at s g s1 i Hi H). destruct (decide (j = i)) as [->|Hne].
  - rewrite list_lookup_insert_eq by (by rewrite (tab_length s g)). unfold proc_at. by destruct (lookup_lt_is_Some_2 _ _ Hi) as [p ->].
  - rewrite list_lookup_insert_ne by done. apply H.
Qed.
Lemma tab_same s g s1 s2 : tab s g s1 -> procs s2 = procs s1 -> tab s g s2.
Proof. intros H E j. by rewrite E. Qed.
Lemma tab_ext s g g' s' : tab s g s' -> (forall j p, procs s !! j = Some p -> g j p = g' j p) -> tab s g' s'.
Proof. intros H E j. rewrite H. destruct (procs s !! j) as [p|] eqn:Hp; [|done]. cbn. by rewrite (E j p). Qed.

Lemma wp_upd i h s (Q : unit -> pst -> Prop) : Q tt (set_procs (<[i := h (proc_at s i)]> (procs s)) s) -> wp (upd_proc i h) Q s.
Proof. intros H. by apply wp_modify. Qed.

(** ** reparent *)

Definition adopted (i : nat) (init : option nat) (p : proc) : proc := if decide (parent p = Some i) then set_parent init p else p.

Lemma wp_reparent_one s i k (Q : unit -> pst -> Prop) : cpu_ok s -> (k < length (procs s))%nat ->
  (parent (proc_at s k) = Some i -> plock (proc_at s k) = spin_free) ->
  (forall s', procs s' = <[k := adopted i (initproc s) (proc_at s k)]> (procs s) -> stays s s' -> Q tt s') ->
  wp (let! pp := get_proc k in
      if decide (parent pp = Some i) then pacquire k ;; let! ip := gets initproc in upd_proc k (set_parent ip) ;; prelease k else ret tt) Q s.
Proof.
  intros Hc Hk Hfree HQ. apply wp_bind, wp_gets. unfold adopted in HQ. destruct (decide (parent (proc_at s k) = Some i)) as [Hp|Hp].
  2:{ apply wp_ret, HQ; [|by split]. unfold proc_at. destruct (lookup_lt_is_Some_2 _ _ Hk) as [p E]. rewrite E. symmetry. by apply list_insert_id. }
  assert (0 <= cnoff s) by apply Hc. apply wp_bind, wp_pacquire; [done|by apply Hfree|]. intros s1 E1 R1 N1 C1 IE1 _.
  apply wp_bind, wp_gets, wp_bind, wp_upd. rewrite (sr_initproc _ _ R1), (proc_at_insert s s1 k _ E1 Hk). set (s2 := set_procs _ s1).
  assert (procs s2 = <[k := set_parent (initproc s) (set_plock spin_mine (proc_at s k))]> (procs s)) as E2 by (unfold s2; cbn [procs set_procs]; by rewrite E1, list_insert_insert_eq).
  apply wp_prelease; [done|cbn [cnoff set_procs s2]; lia|by rewrite (proc_at_insert s s2 k _ E2 Hk)|]. intros s3 E3 R3 N3 C3 IE3 _. apply HQ.
  - rewrite E3, (proc_at_insert s s2 k _ E2 Hk), E2, list_insert_insert_eq. f_equal. specialize (Hfree Hp). destruct (proc_at s k). cbn in Hfree. by subst.
  - split; [eapply same_rest_trans; [exact R1|]; by destruct R3|cbn in N3; lia|done|]. intros Hn. rewrite IE3. by apply IE1.
Qed.

Lemma wp_reparent s i (Q : unit -> pst -> Prop) : cpu_ok s -> length (procs s) = Z.to_nat NPROC ->
  (forall j p, procs s !! j = Some p -> parent p = Some i -> plock p = spin_free) ->
  (forall s', tab s (fun _ => adopted i (initproc s)) s' -> stays s s' -> Q tt s') -> wp (reparent i) Q s.
Proof.
  intros Hc Hlen Hfree HQ. unfold reparent. change (Z.to_nat NPROC) with 64%nat in Hlen.
  eapply wp_conseq; [apply (wp_for_each _ (fun rest s' => exists k, rest = drop k table /\ (k <= 64)%nat /\
    tab s (fun j p => if decide (j < k)%nat then adopted i (initproc s) p else p) s' /\ stays s s'))|].
  - intros j rest s1 (k & E & Hk & Ht & Hs). assert (table !! k = Some j) as Hj by (rewrite <- (Nat.add_0_r k), <- lookup_drop, <- E; done).
    unfold table in Hj. apply lookup_seq in Hj as [-> Hk2]. change (Z.to_nat NPROC) with 64%nat in Hk2. rewrite Nat.add_0_l in *.
    assert (proc_at s1 k = proc_at s k) as Ek by (rewrite (tab_at s _ s1 k) by (done || lia); cbv beta; by rewrite decide_False by lia).
    destruct (lookup_lt_is_Some_2 (procs s) k ltac:(lia)) as [p Hp]. rewrite <- (tab_length s _ s1 Ht) in Hlen.
    apply wp_reparent_one; [apply Hs|lia|rewrite Ek, (proc_at_lookup _ _ _ Hp); by apply (Hfree k)|]. intros s2 E2 Hs2. exists (S k). split; [|split; [lia|split]].
    + change (seq 0 (Z.to_nat NPROC)) with table in E. rewrite (drop_S table k k) in E by (unfold table; apply lookup_seq; done). congruence.
    + rewrite (sr_initproc _ _ (st_rest _ _ Hs)) in E2. eapply tab_ext; [eapply (tab_upd s _ s1 k (adopted i (initproc s))); [by eapply lookup_lt_Some|done|exact E2]|].
      intros j q _. unfold upd_at. destruct (decide (j = k)) as [->|Hne]; [by rewrite decide_False, decide_True by lia|].
      destruct (decide (j < k)%nat); [by rewrite decide_True by lia|by rewrite decide_False by lia].
    + by eapply stays_trans.
  - exists O. split; [done|]. split; [lia|]. split; [by apply tab_refl|by split].
  - intros [] s1 (k & E & Hk & Ht & Hs). apply HQ; [|done]. eapply tab_ext; [exact Ht|]. intros j p Hj. apply lookup_lt_Some in Hj.
    assert (k = 64)%nat as ->; [|by rewrite decide_True by lia]. apply (f_equal length) in E. rewrite length_drop in E. change (length table) with 64%nat in E. cbn in E. lia.
Qed.

(** ** Locks and wakeups of one entry *)

Lemma wp_wakeup1 s i (Q : unit -> pst -> Prop) : (i < length (procs s))%nat -> plock (proc_at s i) = spin_mine ->
  (forall s', procs s' = <[i := woken (ChProc i) (proc_at s i)]> (procs s) -> set_procs (procs s') s = s' -> Q tt s') -> wp (wakeup1 i) Q s.
Proof.
  intros Hi Hl HQ. unfold wakeup1. apply wp_bind, wp_gets. rewrite Hl. cbn [sheld smine spin_mine andb negb]. apply wp_bind, wp_gets. unfold woken in HQ.
  destruct (decide (chan (proc_at s i) = Some (ChProc i) /\ pstate (proc_at s i) = SLEEPING)) as [[D1 D2]|D].
  - apply wp_upd, HQ; [|done]. by rewrite decide_True.
  - apply wp_ret, HQ; [|by destruct s]. rewrite decide_False by tauto. unfold proc_at. destruct (lookup_lt_is_Some_2 _ _ Hi) as [p E]. rewrite E. symmetry. by apply list_insert_id.
Qed.

(** [exit] finds nothing locked but what it takes itself. *)
Record exiting (i op init : nat) (s : pst) : Prop := Exiting {
  ex_cpu : cpu_ok s;
  ex_noff : cnoff s = 0;
  ex_unlocked : unlocked s;
  ex_cur : cproc s = Some i;
  ex_range : (i < Z.to_nat NPROC)%nat /\ (op < Z.to_nat NPROC)%nat /\ (init < Z.to_nat NPROC)%nat;
  ex_init : initproc s = Some init /\ init <> i;
  ex_parent : parent (proc_at s i) = Some op /\ op <> i /\ parent (proc_at s op) <> Some i }.

(** What becomes of entry [j]. *)
Definition exited (i op init : nat) (status : Z) (j : nat) (p : proc) : proc :=
  if decide (j = i) then set_pstate ZOMBIE (set_xstate status (set_plock spin_mine p)) else
  let p := if decide (j = init) then woken (ChProc init) p else p in
  let p := adopted i (Some init) p in
  if decide (j = op) then woken (ChProc op) p else p.

Lemma woken_fields ch p : parent (woken ch p) = parent p /\ plock (woken ch p) = plock p /\ chan (woken ch p) = chan p.
Proof. unfold woken. by case_decide. Qed.
Lemma adopted_fields i x p : plock (adopted i x p) = plock p /\ pstate (adopted i x p) = pstate p.
Proof. unfold adopted. by case_decide. Qed.

(** A lock is taken and given back around [wakeup1]. *)
Lemma wp_wake s i (Q : unit -> pst -> Prop) : cpu_ok s -> (i < length (procs s))%nat -> plock (proc_at s i) = spin_free ->
  (forall s', procs s' = <[i := woken (ChProc i) (proc_at s i)]> (procs s) -> stays s s' -> Q tt s') ->
  forall {A} (k : M pst A) (Q' : A -> pst -> Prop), (forall s', Q tt s' -> wp k Q' s') -> wp (pacquire i ;; wakeup1 i ;; prelease i ;; k) Q' s.
Proof.
  intros Hc Hi Hl HQ A k Q' Hk. assert (0 <= cnoff s) by apply Hc. apply wp_bind, wp_pacquire; [done|done|]. intros s1 E1 R1 N1 C1 IE1 _.
  pose proof (proc_at_insert s s1 i _ E1 Hi) as P1. apply wp_bind, wp_wakeup1; [by rewrite E1, length_insert|by rewrite P1|]. rewrite P1. intros s2 E2 <-.
  rewrite E1, list_insert_insert_eq in E2. set (s2' := set_procs (procs s2) s1). pose proof (proc_at_insert s s2' i _ E2 Hi) as P2.
  apply wp_bind, wp_prelease; [done|cbn [cnoff set_procs s2']; lia|rewrite P2; by destruct (woken_fields (ChProc i) (set_plock spin_mine (proc_at s i))) as (_ & -> & _)|].
  intros s3 E3 R3 N3 C3 IE3 _. apply Hk, HQ.
  - rewrite E3, P2. cbn [procs set_procs s2']. rewrite E2, list_insert_insert_eq. f_equal. unfold woken. destruct (proc_at s i) eqn:Ep. cbn in Hl. subst. cbn. by case_decide.
  - split; [eapply same_rest_trans; [exact R1|]; by destruct R3|cbn in N3; lia|done|]. intros Hn. rewrite IE3. by apply IE1.
Qed.

(** A lock is taken to read one field. *)
Lemma wp_peek s i {A} (k : proc -> M pst A) (Q : A -> pst -> Prop) : cpu_ok s -> (i < length (procs s))%nat -> plock (proc_at s i) = spin_free ->
  (forall s', procs s' = procs s -> stays s s' -> wp (k (set_plock spin_mine (proc_at s i))) Q s') ->
  wp (pacquire i ;; let! p := get_proc i in prelease i ;; k p) Q s.
Proof.
  intros Hc Hi Hl HQ. assert (0 <= cnoff s) by apply Hc. apply wp_bind, wp_pacquire; [done|done|]. intros s1 E1 R1 N1 C1 IE1 _.
  pose proof (proc_at_insert s s1 i _ E1 Hi) as P1. apply wp_bind, wp_gets. apply wp_bind, wp_prelease; [done|lia|by rewrite P1|]. intros s2 E2 R2 N2 C2 IE2 _.
  rewrite P1. apply HQ.
  - rewrite E2, P1, E1, list_insert_insert_eq, set_plock_twice, set_plock_id by done. unfold proc_at. destruct (lookup_lt_is_Some_2 _ _ Hi) as [p E]. rewrite E. by apply list_insert_id.
  - split; [by eapply same_rest_trans|lia|done|]. intros Hn. rewrite IE2. by apply IE1.
Qed.

Lemma tab_comp s g s1 h s2 : tab s g s1 -> tab s1 h s2 -> tab s (fun j p => h j (g j p)) s2.
Proof. intros H1 H2 j. rewrite H2, H1. by destruct (procs s !! j). Qed.

(** The first half of [exit_tail]: the locks of the parent and of the process
    are held. *)
Definition with_locks (i op init : nat) : nat -> proc -> proc :=
  upd_at i (set_plock spin_mine) (upd_at op (set_plock spin_mine) (upd_at init (woken (ChProc init)) (fun _ p => p))).

Lemma with_locks_fields i op init j p : parent (with_locks i op init j p) = parent p /\ (j <> i -> j <> op -> plock (with_locks i op init j p) = plock p).
Proof. unfold with_locks, upd_at. destruct (woken_fields (ChProc init) p) as (A & B & _). repeat case_decide; subst; cbn; (split; [done|]); intros; done. Qed.

Lemma wp_exit_locks s i op init {A} (k : nat -> M pst A) (Q : A -> pst -> Prop) : exiting i op init s ->
  (forall s', tab s (with_locks i op init) s' -> same_rest s s' -> cnoff s' = 2 -> cpu_ok s' -> wp (k op) Q s') ->
  wp (let! init := gets initproc in let! init := deref init in
      pacquire init ;; wakeup1 init ;; prelease init ;;
      pacquire i ;; let! p := get_proc i in prelease i ;;
      let! op := deref (parent p) in pacquire op ;; pacquire i ;; k op) Q s.
Proof.
  intros [Hc Hn Hu Hi (Ri & Rop & Rin) [Hin Hne1] (Hpar & Hne2 & Hacyc)] HQ. pose proof Hu as [Hlen _].
  assert (forall j, plock (proc_at s j) = spin_free) as Hf by (intros j; by apply unlocked_at).
  assert (i < length (procs s) /\ op < length (procs s) /\ init < length (procs s))%nat as (Li & Lop & Lin) by lia.
  apply wp_bind, wp_gets. rewrite Hin. apply wp_bind, wp_ret.
  eapply (wp_wake s init (fun _ s1 => procs s1 = <[init := woken (ChProc init) (proc_at s init)]> (procs s) /\ stays s s1)); [done|done|done|by auto|]. intros s1 [E1 S1].
  pose proof (tab_upd s _ s init (woken (ChProc init)) s1 Lin (tab_refl s s eq_refl) E1) as T1. set (g1 := upd_at init _ _) in T1.
  assert (forall j p, parent (g1 j p) = parent p /\ plock (g1 j p) = plock p) as G1. { intros j p. unfold g1, upd_at. case_decide; [|done]. by destruct (woken_fields (ChProc init) p) as (? & ? & _). }
  assert (forall j, (j < length (procs s))%nat -> parent (proc_at s1 j) = parent (proc_at s j) /\ plock (proc_at s1 j) = spin_free) as F1.
  { intros j Hj. rewrite (tab_at s g1 s1 j Hj T1), <- (Hf j). apply G1. }
  pose proof (tab_length _ _ _ T1) as L1. apply wp_peek; [apply S1|lia|by apply F1|]. intros s2 E2 S2. cbn [parent set_plock]. rewrite (proj1 (F1 i Li)), Hpar. apply wp_bind, wp_ret.
  pose proof (tab_same _ _ _ _ T1 E2) as T2. assert (forall j, proc_at s2 j = proc_at s1 j) as P2 by (intros j; unfold proc_at; by rewrite E2).
  destruct (stays_trans _ _ _ S1 S2) as [R2 N2 C2 _]. rewrite Hn in N2.
  apply wp_bind, wp_pacquire; [done|rewrite P2; by apply F1|]. intros s3 E3 R3 N3 C3 _ _. pose proof (tab_upd s g1 s2 op (set_plock spin_mine) s3 Lop T2 E3) as T3.
  apply wp_bind, wp_pacquire; [done|rewrite (tab_at s _ s3 i Li T3); unfold upd_at; rewrite decide_False by done; rewrite (proj2 (G1 _ _)); apply Hf|]. intros s4 E4 R4 N4 C4 _ _.
  apply HQ; [exact (tab_upd s _ s3 i (set_plock spin_mine) s4 Li T3 E4)| |lia|done]. do 2 (eapply same_rest_trans; [done|]). done.
Qed.

(** The table after both halves. *)
Lemma exited_tab i op init status s s' : exiting i op init s ->
  tab s (upd_at op (set_plock spin_free) (upd_at i (set_pstate ZOMBIE) (upd_at i (set_xstate status) (upd_at op (woken (ChProc op))
    (fun j p => adopted i (Some init) (with_locks i op init j p)))))) s' -> tab s (exited i op init status) s'.
Proof.
  intros [_ _ Hu _ _ [_ Hne1] (Hpar & Hne2 & _)] T. eapply tab_ext; [exact T|]. intros j p Hp. pose proof (proc_at_lookup s j p Hp) as Pj. pose proof (unlocked_at s j Hu) as Hl. rewrite Pj in Hl.
  unfold upd_at at 1 2 3 4. unfold exited, with_locks, upd_at. destruct (decide (j = i)) as [->|Hji].
  - rewrite !(decide_False (P := i = op)), !(decide_False (P := i = init)) by done. unfold adopted. rewrite decide_False; [done|]. cbn. rewrite <- Pj, Hpar. congruence.
  - destruct (decide (j = op)) as [->|Hj]; [|by case_decide].
    destruct (decide (op = init)); unfold adopted, woken; destruct p; cbn in Hl; subst; cbn; repeat (case_decide; cbn); try done; tauto.
Qed.

Lemma wp_exit_tail s i op init status (Q : bool -> pst -> Prop) : exiting i op init s ->
  (forall ie s', tab s (exited i op init status) s' -> same_rest s s' -> cnoff s' = 1 -> cpu_ok s' -> Q ie s') -> wp (exit_tail i status) Q s.
Proof.
  intros Hex HQ. pose proof Hex as [_ _ Hu Hi (Ri & Rop & Rin) [Hin Hne1] (Hpar & Hne2 & Hacyc)]. pose proof Hu as [Hlen _].
  assert (i < length (procs s) /\ op < length (procs s))%nat as (Li & Lop) by lia. apply (wp_exit_locks s i op init); [done|]. intros s4 T4 R4 N4 C4.
  pose proof (tab_length _ _ _ T4) as L4. assert (initproc s4 = Some init) as Hin4 by (by rewrite (sr_initproc _ _ R4)). apply wp_bind, wp_reparent; [done|lia| |].
  { intros j q Hj Hq. pose proof (T4 j) as Ej. rewrite Hj in Ej. symmetry in Ej. apply fmap_Some in Ej as (p & Hp & ->). pose proof (proc_at_lookup s j p Hp) as Pj.
    destruct (with_locks_fields i op init j p) as [A B]. rewrite A in Hq. rewrite B; [rewrite <- Pj; by apply unlocked_at|intros ->; congruence|intros ->; congruence]. }
  intros s5 T5 [R5 N5 C5 _]. rewrite Hin4 in T5. pose proof (tab_comp _ _ _ _ _ T4 T5) as T5'. pose proof (tab_length _ _ _ T5') as L5.
  assert (forall p, plock (adopted i (Some init) (with_locks i op init op p)) = spin_mine) as Gop.
  { intros p. rewrite (proj1 (adopted_fields _ _ _)). unfold with_locks, upd_at. by rewrite decide_False, decide_True by done. }
  apply wp_bind, wp_wakeup1; [lia|by rewrite (tab_at s _ s5 op Lop T5'), Gop|].
  intros s6 E6 R6. pose proof (tab_upd s _ s5 op _ s6 Lop T5' E6) as T6. apply wp_bind, wp_upd. set (s7 := set_procs _ s6).
  pose proof (tab_upd s _ s6 i (set_xstate status) s7 Li T6 eq_refl) as T7. apply wp_bind, wp_upd. set (s8 := set_procs _ s7).
  pose proof (tab_upd s _ s7 i (set_pstate ZOMBIE) s8 Li T7 eq_refl) as T8. assert (cnoff s8 = 2 /\ cproc s8 = cproc s5 /\ cpu_ok s8 /\ same_rest s5 s8) as (N8 & P8 & C8 & R8).
  { unfold s8, s7. rewrite <- R6. cbn. splits; [lia|done|done|done]. }
  apply wp_bind, wp_prelease; [done|lia| |].
  { rewrite (tab_at s _ s8 op Lop T8). unfold upd_at at 1 2 3. rewrite !(decide_False (P := op = i)), decide_True by done. by rewrite (proj1 (proj2 (woken_fields _ _))). }
  intros s9 E9 R9 N9 C9 _ _. pose proof (exited_tab i op init status s s9 Hex (tab_upd s _ s8 op (set_plock spin_free) s9 Lop T8 E9)) as T9.
  assert (cproc s9 = Some i) as Hc9 by (rewrite (sr_cproc _ _ R9), P8, (sr_cproc _ _ R5), (sr_cproc _ _ R4); done).
  pose proof (tab_at s _ s9 i Li T9) as P9. unfold exited in P9. rewrite decide_True in P9 by done.
  apply (wp_sched s9 i); [done|done|by rewrite P9|lia|by rewrite P9|]. intros s' E' R' N' C'. apply HQ; [by eapply tab_same| |done|done].
  repeat (eapply same_rest_trans; [done|]). done.
Qed.

(** ** freeproc *)

Section free.
Context (kend : Z) (Hend : 0 < kend).

(** The memory of a process: its address space [t] over the pages [D], with the
    trampoline and its trapframe mapped above it. *)
Record pspace (m : kst) (l : list Z) (t : ptree) (D : list Z) (p : proc) : Prop := PSpace {
  ps_user : uvinv kend m l t D;
  ps_root : pagetable p = root t;
  ps_size : 0 <= psz p <= TRAPFRAME /\ Z.of_nat (length D) = pgs (psz p);
  ps_tramp : exists tr, leaf_maps (leaf (mem m) t TRAMPOLINE) tr;
  ps_frame : leaf_maps (leaf (mem m) t TRAPFRAME) (trapframe p) /\ valid_page kend (trapframe p) /\ trapframe p ∉ D ++ pt_pages t ++ l }.

Definition pages_of (t : ptree) (D : list Z) (p : proc) : list Z := trapframe p :: D ++ pt_pages t.

Lemma uvinv_unmap s l t D a x s' : uvinv kend s l t D -> TRAPFRAME <= a -> unmap_post kend s l t a [x] false s' -> uvinv kend s' l t D.
Proof.
  intros (HI & [Hmap Hno] & Hnd & Hv & Hlen) Ha (HI' & Hl & _). assert (TRAPFRAME < MAXVA) by done.
  assert (forall va, 0 <= va < TRAPFRAME -> leaf (mem s') t va = leaf (mem s) t va) as E by (intros va Hva; rewrite Hl by lia; unfold cleared; by rewrite decide_False by lia).
  split; [done|]. split; [split|by split; [|split]].
  - intros k p Hk. rewrite E; [by apply Hmap|]. pose proof (lookup_lt_Some _ _ _ Hk). unfold PGSIZE in *. lia.
  - intros va Hva. rewrite E; [by apply Hno|]. unfold PGSIZE in *. lia.
Qed.

Lemma wp_unmap_one s l t D a x (Q : unit -> kst -> Prop) : uvinv kend s l t D -> TRAPFRAME <= a -> page_aligned a -> a + PGSIZE <= MAXVA -> leaf_maps (leaf (mem s) t a) x ->
  (forall s', uvinv kend s' l t D -> (forall va, 0 <= va < MAXVA -> leaf (mem s') t va = cleared (leaf (mem s) t) a 1 va) ->
     unchanged_outside (pt_pages t ++ l) (mem s) (mem s') -> Q tt s') -> wp (uvmunmap kend (root t) a 1 false) Q s.
Proof using Hend.
  intros HU Ha Hal Hm Hx HQ. assert (0 < TRAPFRAME) by done. eapply wp_conseq; [apply (wp_uvmunmap kend Hend s l t a [x] false); [apply HU|done|lia|cbn; lia| |done]|].
  - intros [|k] p Hk; [|done]. injection Hk as <-. by rewrite Z.add_0_r.
  - intros [] s' HP. apply HQ; [by eapply uvinv_unmap|apply HP|apply HP].
Qed.

Lemma wp_proc_freepagetable s l t D sz tf (Q : unit -> pst -> Prop) : uvinv kend (km s) l t D -> 0 <= sz <= TRAPFRAME -> Z.of_nat (length D) = pgs sz ->
  (exists tr, leaf_maps (leaf (mem (km s)) t TRAMPOLINE) tr) -> leaf_maps (leaf (mem (km s)) t TRAPFRAME) tf ->
  (forall m l', l' ≡ₚ D ++ pt_pages t ++ l -> kinv kend m l' -> unchanged_outside (D ++ pt_pages t ++ l) (mem (km s)) (mem m) -> Q tt (set_km m s)) ->
  wp (proc_freepagetable kend (root t) sz) Q s.
Proof using Hend.
  intros HU Hsz Hlen [tr Htr] Htf HQ. assert (TRAMPOLINE = TRAPFRAME + PGSIZE) as Etr by done. assert (TRAMPOLINE + PGSIZE = MAXVA) as Emax by done. assert (PGSIZE = 4096) as EP by done.
  assert (0 < TRAPFRAME) by done. apply wp_bind, wp_zoom, (wp_unmap_one (km s) l t D TRAMPOLINE tr); [done|lia|done|lia|done|]. intros m1 HU1 L1 U1.
  apply wp_bind, wp_zoom, (wp_unmap_one m1 l t D TRAPFRAME tf); [done|lia|done|lia| |]. { rewrite L1 by lia. unfold cleared. by rewrite decide_False by lia. }
  intros m2 HU2 L2 U2. apply wp_zoom. eapply wp_conseq; [apply (wp_uvmfree kend Hend m2 l t D sz); [done|done|done|]|].
  - intros va Hva. rewrite L2 by lia. unfold cleared. case_decide; [done|]. rewrite L1 by lia. unfold cleared. by rewrite decide_True by lia.
  - intros [] m3 (l' & HP & HK & U3). apply (HQ m3 l'); [done|done|]. intros a Ha. rewrite U3 by done.
    assert (forall p, p ∈ pt_pages t ++ l -> ~ in_page p a) as Ha' by (intros p Hp; apply Ha; set_solver). rewrite U2, U1 by done. done.
Qed.

(** What [freeproc] leaves of an entry. *)
Definition emptied (p : proc) : proc :=
  set_pstate UNUSED (set_xstate 0 (set_killed 0 (set_chan None (set_pname (<[O := 0]> (pname p)) (set_parent None (set_pid 0 (set_psz 0 (set_pagetable 0 (set_trapframe 0 p))))))))).

Lemma proc_at_in i p L s : (i < length L)%nat -> proc_at (set_procs (<[i := p]> L) s) i = p.
Proof. intros Hi. unfold proc_at. cbn [procs set_procs]. by rewrite list_lookup_insert_eq. Qed.
Lemma wp_upd_in i h p L s (Q : unit -> pst -> Prop) : (i < length L)%nat -> Q tt (set_procs (<[i := h p]> L) s) -> wp (upd_proc i h) Q (set_procs (<[i := p]> L) s).
Proof.
  intros Hi H. apply wp_upd. rewrite proc_at_in by done. cbn [procs set_procs]. by rewrite list_insert_insert_eq.
Qed.

Lemma wp_freeproc s i p l t D (Q : unit -> pst -> Prop) : procs s !! i = Some p -> pspace (km s) l t D p ->
  (forall m l', l' ≡ₚ pages_of t D p ++ l -> kinv kend m l' -> unchanged_outside (pages_of t D p ++ l) (mem (km s)) (mem m) ->
     Q tt (set_procs (<[i := emptied p]> (procs s)) (set_km m s))) -> wp (freeproc kend i) Q s.
Proof using Hend.
  intros Hi [HU Hroot [Hsz Hlen] Htr (Htf & Hv & Hn)] HQ. pose proof (lookup_lt_Some _ _ _ Hi) as Hlt.
  assert (truth (trapframe p) = true) as Et by (apply truth_true; by eapply valid_page_nonzero).
  assert (truth (root t) = true) as Er. { apply truth_true. eapply valid_page_nonzero; [done|]. apply HU. apply elem_of_pt_pages. by left. }
  unfold freeproc. apply wp_bind, wp_gets. rewrite (proc_at_lookup _ _ _ Hi), Et. apply wp_bind, wp_zoom, (wp_kfree_user kend Hend _ l t D); [done|done|done|]. intros m1 HU1 L1 O1.
  apply wp_bind, wp_upd. cbn [procs set_km]. rewrite (proc_at_lookup (set_km m1 s) i p Hi). apply wp_bind, wp_gets. rewrite proc_at_in by done. cbn [pagetable psz set_trapframe].
  rewrite Hroot, Er. apply wp_bind, (wp_proc_freepagetable _ (trapframe p :: l) t D (psz p) (trapframe p)); [exact HU1|done|done|cbn [km set_procs set_km]; by setoid_rewrite L1|by rewrite L1|].
  intros m l' HP HK HO. change (set_km m (set_procs ?x ?y)) with (set_procs x (set_km m y)). do 8 (apply wp_bind, wp_upd_in; [done|]). apply wp_upd_in; [done|]. apply (HQ m l'); [|done|].
  - unfold pages_of. rewrite HP. solve_Permutation.
  - intros a Ha. unfold pages_of in Ha. cbn [km set_procs set_km] in HO. rewrite HO, O1; [done|apply Ha; set_solver|]. intros q Hq. apply Ha. set_solver.
Qed.

(** ** wait *)

Context (kobj : Z).

(** The part of [wait_scan] that has found a zombie. *)
Definition reap (i p : nat) (addr : Z) (np : proc) : M pst (Z + bool) :=
  let! pr := get_proc p in
  let! r := (if truth addr then copyout_obj kobj (pagetable pr) addr (int_bytes (xstate np)) else ret 0) in
  if r <? 0 then prelease i ;; prelease p ;; ret (inl (-1)) else
  freeproc kend i ;;
  prelease i ;;
  prelease p ;;
  ret (inl (pid np)).

Definition child (p : nat) (q : proc) : Prop := parent q = Some p.
#[global] Instance child_dec p q : Decision (child p q).
Proof. unfold child. apply _. Defined.

Lemma wp_wait_scan p addr s l : forall havekids (Q : Z + bool -> pst -> Prop), cpu_ok s -> (forall j, j ∈ l -> (j < length (procs s))%nat) ->
  (forall j q, procs s !! j = Some q -> child p q -> plock q = spin_free) ->
  (forall i l1 l2, l = l1 ++ i :: l2 -> child p (proc_at s i) -> pstate (proc_at s i) = ZOMBIE -> (forall j, j ∈ l1 -> child p (proc_at s j) -> pstate (proc_at s j) <> ZOMBIE) ->
     forall s', procs s' = <[i := set_plock spin_mine (proc_at s i)]> (procs s) -> same_rest s s' -> cnoff s' = cnoff s + 1 -> cpu_ok s' -> (cnoff s <> 0 -> cintena s' = cintena s) ->
     wp (reap i p addr (set_plock spin_mine (proc_at s i))) Q s') ->
  (forall s', (forall j, j ∈ l -> child p (proc_at s j) -> pstate (proc_at s j) <> ZOMBIE) -> procs s' = procs s -> stays s s' ->
     Q (inr (havekids || bool_decide (Exists (fun j => child p (proc_at s j)) l))) s') ->
  wp (wait_scan kend kobj l p addr havekids) Q s.
Proof.
  revert s. induction l as [|i l IH]; intros s hk Q Hc Hlen Hfree Hz HQ; cbn [wait_scan].
  { apply wp_ret. replace hk with (hk || bool_decide (Exists (fun j => child p (proc_at s j)) [])) by (rewrite bool_decide_false by (by intros ?%Exists_nil); apply orb_false_r).
    apply HQ; [|done|by split]. intros j Hj. by apply not_elem_of_nil in Hj. }
  apply wp_bind, wp_gets. pose proof (Hlen i ltac:(by left)) as Hi. destruct (decide (parent (proc_at s i) = Some p)) as [Hp|Hp].
  - assert (plock (proc_at s i) = spin_free) as Hl. { destruct (lookup_lt_is_Some_2 _ _ Hi) as [q Hq]. rewrite (proc_at_lookup _ _ _ Hq) in *. by apply (Hfree i). }
    assert (0 <= cnoff s) by apply Hc. apply wp_bind, wp_pacquire; [done|done|]. intros s1 E1 R1 N1 C1 IE1 _. apply wp_bind, wp_gets. rewrite (proc_at_insert s s1 i _ E1 Hi).
    change (pstate (set_plock spin_mine (proc_at s i))) with (pstate (proc_at s i)). destruct (decide (pstate (proc_at s i) = ZOMBIE)) as [Hzo|Hzo].
    { apply (Hz i [] l); [done|done|done| |done|done|done|done|done]. intros j Hj. by apply not_elem_of_nil in Hj. }
    apply wp_bind, wp_prelease; [done|lia|by rewrite (proc_at_insert s s1 i _ E1 Hi)|]. intros s2 E2 R2 N2 C2 IE2 _.
    assert (procs s2 = procs s) as E2'. { rewrite E2, (proc_at_insert s s1 i _ E1 Hi), E1, list_insert_insert_eq, set_plock_twice, set_plock_id by done. unfold proc_at. destruct (lookup_lt_is_Some_2 _ _ Hi) as [q Hq]. rewrite Hq. by apply list_insert_id. }
    assert (stays s s2) as S2 by (split; [by eapply same_rest_trans|lia|done|intros; rewrite IE2; by apply IE1]).
    assert (forall j, proc_at s2 j = proc_at s j) as P2 by (intros j; unfold proc_at; by rewrite E2').
    apply IH; [done|rewrite E2'; intros j Hj; apply Hlen; by right|by rewrite E2'| |].
    + setoid_rewrite P2. intros i2 l1 l2 -> Hc2 Hz2 Hfirst s3 E3 R3 N3 C3 IE3. rewrite E2' in E3. apply (Hz i2 (i :: l1) l2); [done|done|done| |done|by eapply same_rest_trans; [apply S2|]|lia|done|].
      * intros j [->|Hj]%elem_of_cons; [done|by apply Hfirst].
      * intros Hn. rewrite IE3 by lia. by apply S2.
    + intros s3 Hno E3 S3. cbn [orb]. assert (hk || bool_decide (Exists (fun j => child p (proc_at s j)) (i :: l)) = true) as Ek by (rewrite bool_decide_true by (by left); apply orb_true_r).
      rewrite <- Ek. apply HQ; [|congruence|by eapply stays_trans]. intros j [->|Hj]%elem_of_cons; [done|]. rewrite <- P2. by apply Hno.
  - apply IH; [done|intros j Hj; apply Hlen; by right|done| |].
    + intros i2 l1 l2 -> Hc2 Hz2 Hfirst. apply (Hz i2 (i :: l1) l2); [done|done|done|]. intros j [->|Hj]%elem_of_cons; [done|by apply Hfirst].
    + intros s3 Hno E3 S3. replace (bool_decide (Exists _ l)) with (bool_decide (Exists (fun j => child p (proc_at s j)) (i :: l))).
      * apply HQ; [|done|done]. intros j [->|Hj]%elem_of_cons; [done|by apply Hno].
      * apply bool_decide_ext. rewrite Exists_cons. unfold child at 1. tauto.
Qed.

(** *** Memory of parent and child *)

Lemma free_valid m l q : kinv kend m l -> q ∈ l -> valid_page kend q.
Proof. intros (_ & _ & _ & H) Hq. by eapply freelist_rep_valid. Qed.

Lemma user_ok_frame m l t D m' l' : user_ok kend m l t D -> kinv kend m' l' -> NoDup (D ++ pt_pages t ++ l') ->
  (forall q b, q ∈ pt_pages t -> in_page q b -> load8 (mem m') b = load8 (mem m) b) -> user_ok kend m' l' t D /\ forall va, leaf (mem m') t va = leaf (mem m) t va.
Proof. intros [HU Htop] HK Hnd He. destruct (uvinv_frame kend _ _ _ _ _ _ HU HK Hnd He) as [HU' Hl]. split; [|done]. split; [done|]. intros va Hva. rewrite Hl. by apply Htop. Qed.
Lemma pspace_frame m l t D p m' : pspace m l t D p -> kinv kend m' l ->
  (forall q b, q ∈ pt_pages t -> in_page q b -> load8 (mem m') b = load8 (mem m) b) -> pspace m' l t D p.
Proof.
  intros [HU Hr Hs Htr Htf] HK He. destruct (uvinv_frame kend _ _ _ _ _ _ HU HK (proj1 (proj2 (proj2 HU))) He) as [HU' Hl].
  split; [done|done|done|by setoid_rewrite Hl|by rewrite Hl].
Qed.

(** *** The copy of the status *)

Lemma storebytes_out bs : forall m a x, x < a \/ a + Z.of_nat (length bs) <= x -> load8 (storebytes m a bs) x = load8 m x.
Proof. induction bs as [|b bs IH]; intros m a x Hx; [done|]. cbn [storebytes length] in *. rewrite IH by lia. apply load8_store8_ne. lia. Qed.
Lemma storebytes_in bs : forall m a j b, bs !! j = Some b -> is_byte b -> load8 (storebytes m a bs) (a + Z.of_nat j) = b.
Proof.
  induction bs as [|c bs IH]; intros m a j b Hj Hb; [done|]. cbn [storebytes]. destruct j as [|j].
  - injection Hj as ->. rewrite storebytes_out by lia. rewrite Z.add_0_r, load8_store8_eq. by apply wrap8_small.
  - replace (a + Z.of_nat (S j)) with (a + 1 + Z.of_nat j) by lia. by apply IH.
Qed.
Lemma storebytes_wf bs : forall m a, mem_wf m -> mem_wf (storebytes m a bs).
Proof. induction bs as [|b bs IH]; intros m a Hm; [done|]. by apply IH, store8_wf. Qed.

Lemma wp_copyout_obj s l t D va bs (Q : Z -> pst -> Prop) : user_ok kend (km s) l t D -> kernel_buf l t D kobj (Z.of_nat (length bs)) -> Forall is_byte bs -> 0 <= va < 2^64 ->
  (forall r m', user_ok kend m' l t D -> (forall a, (forall p, p ∈ D -> ~ in_page p a) -> a < kobj \/ kobj + Z.of_nat (length bs) <= a -> load8 (mem m') a = load8 (mem (km s)) a) ->
     (r = 0 /\ user_bytes (mem m') t va bs \/ r = -1 /\ exists i, 0 <= i < Z.of_nat (length bs) /\ upa (mem (km s)) t (va + i) = None) -> Q r (set_km m' s)) ->
  wp (copyout_obj kobj (root t) va bs) Q s.
Proof using Hend.
  intros HU Hbuf Hbs Hva HQ. unfold copyout_obj. apply wp_zoom, wp_bind, wp_modify. set (m1 := storebytes (mem (km s)) kobj bs).
  destruct (user_ok_write kend (km s) m1 l t D HU) as (HU1 & Hl1 & _); [apply storebytes_wf, HU| |].
  { intros q b Hq Hb. apply storebytes_out. destruct (decide (kobj <= b < kobj + Z.of_nat (length bs))); [|lia]. exfalso. apply (Hbuf q b); [apply elem_of_app; by right|done|done]. }
  eapply wp_conseq; [apply (wp_copyout kend Hend _ l t D); [exact HU1|done|lia|intros p b Hp; apply Hbuf; apply elem_of_app; by left]|].
  intros r m' (HU2 & Hl2 & Hm2 & Hr). cbn [mem set_mem] in *. apply HQ; [done| |].
  - intros a Ha Hk. rewrite Hm2; [by apply storebytes_out|]. intros i Hi E. destruct (upa_in kend _ _ _ _ _ _ HU1 E) as (p & Hp & Hin). by apply (Ha p Hp).
  - destruct Hr as [[-> Hr]|[-> (i & Hi & Hu)]]; [left; split; [done|]|right; split; [done|exists i; split; [done|by rewrite <- (upa_leaf _ _ _ Hl1)]]].
    intros j b Hj. pose proof (lookup_lt_Some _ _ _ Hj). destruct (Hr (Z.of_nat j) ltac:(lia)) as (a & Ha & Hv). unfold ubyte. rewrite (upa_leaf _ _ _ Hl2), Ha. cbn. f_equal. rewrite Hv.
    apply storebytes_in; [done|]. eapply Forall_lookup_1 in Hbs; done.
Qed.

(** The memory of a parent [pp] and its child [ci]. *)
Record family (m : kst) (l : list Z) (tp : ptree) (Dp : list Z) (tc : ptree) (Dc : list Z) (pp ci : proc) : Prop := Family {
  fm_parent : user_ok kend m l tp Dp;
  fm_root : pagetable pp = root tp;
  fm_child : pspace m l tc Dc ci;
  fm_apart : NoDup (Dp ++ pt_pages tp ++ pages_of tc Dc ci ++ l);
  fm_buf : forall q b, q ∈ Dp ++ pt_pages tp ++ pages_of tc Dc ci ++ l -> kobj <= b < kobj + 4 -> ~ in_page q b }.

Lemma family_valid m l tp Dp tc Dc pp ci q : family m l tp Dp tc Dc pp ci -> q ∈ Dp ++ pt_pages tp ++ pages_of tc Dc ci ++ l -> valid_page kend q.
Proof.
  intros [[((_ & _ & _ & Hv) & _ & _ & HvD & _) _] _ [((HK & _ & _ & Hvc) & _ & _ & HvDc & _) _ _ _ (_ & Htf & _)] _ _]. rewrite Forall_forall in HvD, HvDc.
  unfold pages_of. rewrite !elem_of_app, elem_of_cons, elem_of_app. intros [H|[H|[[->|[H|H]]|H]]]; [by apply HvD|by apply Hv|done|by apply HvDc|by apply Hvc|by eapply free_valid].
Qed.
Lemma family_outside m l tp Dp tc Dc pp ci q b : family m l tp Dp tc Dc pp ci -> q ∈ Dp ++ pt_pages tp -> in_page q b -> forall q', q' ∈ pages_of tc Dc ci ++ l -> ~ in_page q' b.
Proof.
  intros HF Hq Hb q' Hq' Hb'. pose proof (fm_apart _ _ _ _ _ _ _ _ HF) as Hnd. rewrite app_assoc in Hnd. apply NoDup_app in Hnd as (_ & Hd & _).
  apply (Hd q Hq). replace q with q'; [done|]. apply (in_page_disjoint q' q b); [..|done|done]; eapply family_valid; try done; rewrite app_assoc; apply elem_of_app; auto.
Qed.

(** The status is copied: parent and child keep their memory. *)
Lemma family_copied m l tp Dp tc Dc pp ci m' : family m l tp Dp tc Dc pp ci -> user_ok kend m' l tp Dp ->
  (forall a, (forall q, q ∈ Dp -> ~ in_page q a) -> a < kobj \/ kobj + 4 <= a -> load8 (mem m') a = load8 (mem m) a) -> family m' l tp Dp tc Dc pp ci.
Proof.
  intros HF HU He. pose proof HF as [_ Hr Hc Hnd Hbuf]. split; [done|done| |done|done]. apply (pspace_frame m); [done|apply HU|]. intros q b Hq Hb.
  assert (q ∈ pages_of tc Dc ci ++ l) as Hq' by (unfold pages_of; rewrite elem_of_app, elem_of_cons, elem_of_app; auto). apply He.
  - intros q2 Hq2 Hb2. eapply family_outside; [exact HF|apply elem_of_app; by left|exact Hb2|exact Hq'|done].
  - destruct (decide (kobj <= b < kobj + 4)) as [Hk|]; [|lia]. exfalso. apply (Hbuf q b); [|done|done]. rewrite !elem_of_app. rewrite elem_of_app in Hq'. tauto.
Qed.

(** The child is freed: the parent keeps its memory. *)
Lemma family_freed m l tp Dp tc Dc pp ci m' l' addr bs : family m l tp Dp tc Dc pp ci -> l' ≡ₚ pages_of tc Dc ci ++ l -> kinv kend m' l' ->
  unchanged_outside (pages_of tc Dc ci ++ l) (mem m) (mem m') -> user_ok kend m' l' tp Dp /\ (user_bytes (mem m) tp addr bs -> user_bytes (mem m') tp addr bs).
Proof.
  intros HF HP HK HO. pose proof HF as [HU Hr Hc Hnd Hbuf]. assert (forall q b, q ∈ Dp ++ pt_pages tp -> in_page q b -> load8 (mem m') b = load8 (mem m) b) as He.
  { intros q b Hq Hb. apply HO. by eapply family_outside. }
  destruct (user_ok_frame m l tp Dp m' l' HU HK) as [HU' Hl]; [by rewrite HP|intros q b Hq; apply He; apply elem_of_app; by right|]. split; [done|].
  intros Hbs j b Hj. specialize (Hbs j b Hj). unfold ubyte in *. rewrite (upa_leaf _ _ _ Hl). apply fmap_Some in Hbs as (a & Ha & ->). rewrite Ha. cbn. f_equal.
  destruct (upa_in kend _ _ _ _ _ _ HU Ha) as (q & Hq & Hin). apply (He q); [apply elem_of_app; by left|done].
Qed.

(** *** Reaping *)

Lemma wp_unlock2 s i p ci pp x (Q : Z + bool -> pst -> Prop) : cpu_ok s -> cnoff s = 2 -> i <> p -> procs s !! i = Some ci -> procs s !! p = Some pp ->
  plock ci = spin_mine -> plock pp = spin_mine ->
  (forall s', procs s' = <[p := set_plock spin_free pp]> (<[i := set_plock spin_free ci]> (procs s)) -> same_rest s s' -> cnoff s' = 0 -> cpu_ok s' -> Q x s') ->
  wp (prelease i ;; prelease p ;; ret x) Q s.
Proof.
  intros Hc Hn Hip Hi Hp Hl1 Hl2 HQ. apply wp_bind, wp_prelease; [done|lia|by rewrite (proc_at_lookup _ _ _ Hi)|]. rewrite (proc_at_lookup _ _ _ Hi). intros s1 E1 R1 N1 C1 _ _.
  assert (proc_at s1 p = pp) as P1 by (apply proc_at_lookup; by rewrite E1, list_lookup_insert_ne). apply wp_bind, wp_prelease; [done|lia|by rewrite P1|]. intros s2 E2 R2 N2 C2 _ _.
  apply wp_ret, HQ; [by rewrite E2, P1, E1|by eapply same_rest_trans|lia|done].
Qed.

Lemma int_bytes_ok x : Forall is_byte (int_bytes x).
Proof. unfold int_bytes. apply Forall_fmap, Forall_forall. intros k _. cbn. apply Z.mod_pos_bound. lia. Qed.

(** A child that has been reaped. *)
Record reaped (l : list Z) (tp : ptree) (Dp : list Z) (tc : ptree) (Dc : list Z) (p i : nat) (ci : proc) (addr : Z) (s s' : pst) : Prop := Reaped {
  re_table : procs s' = <[i := set_plock spin_free (emptied ci)]> (procs s);
  re_rest : same_rest (set_km (km s') s) s' /\ cnoff s' = 0 /\ cpu_ok s';
  re_status : truth addr = true -> user_bytes (mem (km s')) tp addr (int_bytes (xstate ci));
  re_pages : exists l', l' ≡ₚ pages_of tc Dc ci ++ l /\ user_ok kend (km s') l' tp Dp }.

Lemma wp_reap s0 s l tp Dp tc Dc i p ci pp addr (Q : Z + bool -> pst -> Prop) : cpu_ok s -> cnoff s = 2 -> i <> p ->
  procs s0 !! i = Some ci -> procs s0 !! p = Some pp -> plock ci = spin_free -> plock pp = spin_free -> same_rest s0 s ->
  procs s = <[i := set_plock spin_mine ci]> (<[p := set_plock spin_mine pp]> (procs s0)) -> family (km s) l tp Dp tc Dc pp ci -> 0 <= addr < 2^64 ->
  (forall s', reaped l tp Dp tc Dc p i ci addr s0 s' -> Q (inl (pid ci)) s') ->
  (forall s', truth addr = true -> (exists k, 0 <= k < 4 /\ upa (mem (km s0)) tp (addr + k) = None) -> procs s' = procs s0 -> same_rest (set_km (km s') s0) s' -> cnoff s' = 0 -> cpu_ok s' ->
     family (km s') l tp Dp tc Dc pp ci -> Q (inl (-1)) s') ->
  wp (reap i p addr (set_plock spin_mine ci)) Q s.
Proof using Hend.
  intros Hc Hn Hip Hi Hp Hl1 Hl2 HR0 Hs HF Haddr Hok Hbad. pose proof (lookup_lt_Some _ _ _ Hi) as Li. pose proof (lookup_lt_Some _ _ _ Hp) as Lp.
  assert (procs s !! i = Some (set_plock spin_mine ci)) as Hi1 by (rewrite Hs; apply list_lookup_insert_eq; by rewrite length_insert).
  assert (procs s !! p = Some (set_plock spin_mine pp)) as Hp1 by (rewrite Hs, list_lookup_insert_ne by done; by apply list_lookup_insert_eq).
  assert (forall x, <[p := pp]> (<[i := x]> (procs s)) = <[i := x]> (procs s0)) as Hback.
  { intros x. rewrite Hs, list_insert_insert_eq, list_insert_insert_ne by done. f_equal. rewrite list_insert_insert_eq. by apply list_insert_id. }
  unfold reap. apply wp_bind, wp_gets. rewrite (proc_at_lookup _ _ _ Hp1). cbn [pagetable set_plock xstate pid]. rewrite (fm_root _ _ _ _ _ _ _ _ HF). apply wp_bind.
  assert (forall m', family m' l tp Dp tc Dc pp ci -> (truth addr = true -> user_bytes (mem m') tp addr (int_bytes (xstate ci))) ->
    wp (freeproc kend i ;; prelease i ;; prelease p ;; ret (inl (pid ci))) Q (set_km m' s)) as Hfree.
  { intros m' HF' Hst. apply wp_bind, (wp_freeproc _ i (set_plock spin_mine ci) l tc Dc); [exact Hi1|by destruct (fm_child _ _ _ _ _ _ _ _ HF')|]. intros m l' HP HK HO.
    destruct (family_freed m' l tp Dp tc Dc pp ci m l' addr (int_bytes (xstate ci)) HF' HP HK HO) as [HU Hb].
    apply (wp_unlock2 _ i p (emptied (set_plock spin_mine ci)) (set_plock spin_mine pp)); [done|done|done|apply list_lookup_insert_eq; by eapply lookup_lt_Some|cbn [procs set_procs set_km]; by rewrite list_lookup_insert_ne|done|done|].
    intros s' E' R' N' C'. rewrite set_plock_twice, set_plock_id in E' by done. cbn [procs set_procs set_km] in E'. rewrite list_insert_insert_eq, Hback in E'. apply Hok. split.
    - by rewrite E'.
    - split; [|done]. destruct R', HR0. split; cbn in *; congruence.
    - rewrite (sr_km _ _ R'). auto.
    - exists l'. split; [done|]. by rewrite (sr_km _ _ R'). }
  destruct (truth addr) eqn:Et.
  2:{ apply wp_ret. change (0 <? 0) with false. cbn match. replace s with (set_km (km s) s) by (by destruct s). by apply Hfree. }
  eapply (wp_copyout_obj s l tp Dp addr (int_bytes (xstate ci))); [apply HF| |apply int_bytes_ok|done|].
  { intros q b Hq Hb. apply (fm_buf _ _ _ _ _ _ _ _ HF q b); [|exact Hb]. rewrite !elem_of_app in *. tauto. }
  intros r m' HU He Hr. pose proof (family_copied _ _ _ _ _ _ _ _ _ HF HU He) as HF'. destruct Hr as [[-> Hb]|[-> (k & Hk & Hu)]]; [change (0 <? 0) with false; cbn match; by apply Hfree|].
  change (-1 <? 0) with true. cbn match. apply (wp_unlock2 _ i p (set_plock spin_mine ci) (set_plock spin_mine pp)); [done|done|done|done|done|done|done|].
  intros s' E' R' N' C'. rewrite !set_plock_twice, !set_plock_id in E' by done. cbn [procs set_km] in E'. rewrite Hback, list_insert_id in E' by done. apply Hbad; [done| |done| |done|done|].
  - exists k. split; [exact Hk|]. by rewrite <- (sr_km _ _ HR0).
  - destruct R', HR0. split; cbn in *; congruence.
  - by rewrite (sr_km _ _ R').
Qed.

(** *** The result of [wait] *)

Definition zombie (p : nat) (q : proc) : Prop := child p q /\ pstate q = ZOMBIE.

(** The memory that [wait] relies on: that of process [p] and, given by [fam],
    that of its zombies. *)
Definition families (fam : nat -> ptree * list Z) (s : pst) (l : list Z) (tp : ptree) (Dp : list Z) (p : nat) (pp : proc) : Prop :=
  forall i ci, procs s !! i = Some ci -> zombie p ci -> family (km s) l tp Dp (fam i).1 (fam i).2 pp ci.

Inductive waited (fam : nat -> ptree * list Z) (l : list Z) (tp : ptree) (Dp : list Z) (p : nat) (pp : proc) (addr : Z) (s : pst) : Z + bool -> pst -> Prop :=
| waited_reaped i ci s' : procs s !! i = Some ci -> zombie p ci -> (forall j q, (j < i)%nat -> procs s !! j = Some q -> ~ zombie p q) ->
    reaped l tp Dp (fam i).1 (fam i).2 p i ci addr s s' -> waited fam l tp Dp p pp addr s (inl (pid ci)) s'
| waited_fault i ci k s' : procs s !! i = Some ci -> zombie p ci -> truth addr = true -> 0 <= k < 4 -> upa (mem (km s)) tp (addr + k) = None ->
    procs s' = procs s -> same_rest (set_km (km s') s) s' -> cnoff s' = 0 -> cpu_ok s' -> waited fam l tp Dp p pp addr s (inl (-1)) s'
| waited_none s' : (forall j q, procs s !! j = Some q -> ~ zombie p q) -> (forall j q, procs s !! j = Some q -> ~ child p q) \/ killed pp <> 0 ->
    procs s' = procs s -> same_rest s s' -> cnoff s' = 0 -> cpu_ok s' -> waited fam l tp Dp p pp addr s (inl (-1)) s'
| waited_asleep j q ie s' : (forall j q, procs s !! j = Some q -> ~ zombie p q) -> procs s !! j = Some q -> child p q -> killed pp = 0 ->
    procs s' = <[p := set_pstate SLEEPING (set_chan (Some (ChProc p)) (set_plock spin_mine pp))]> (procs s) -> same_rest s s' -> cnoff s' = 1 -> cpu_ok s' ->
    waited fam l tp Dp p pp addr s (inr ie) s'.

Lemma table_in s j : length (procs s) = Z.to_nat NPROC -> (j < length (procs s))%nat <-> j ∈ table.
Proof. intros H. unfold table. rewrite elem_of_seq, H. lia. Qed.

Lemma wp_sleep_own s p (Q : bool -> pst -> Prop) : cpu_ok s -> cproc s = Some p -> cnoff s = 1 -> (p < length (procs s))%nat -> plock (proc_at s p) = spin_mine ->
  (forall ie s', procs s' = <[p := set_pstate SLEEPING (set_chan (Some (ChProc p)) (proc_at s p))]> (procs s) -> same_rest s s' -> cnoff s' = 1 -> cpu_ok s' -> Q ie s') ->
  wp (sleep_enter (ChProc p) OwnLock) Q s.
Proof.
  intros Hc Hp Hn Hlt Hl HQ. unfold sleep_enter. apply wp_bind. eapply wp_cur; [done|done|]. intros s1 E1 R1 N1 C1 _ _. apply wp_bind, wp_ret. unfold sleep_mark.
  apply wp_bind, wp_upd. replace (proc_at s1 p) with (proc_at s p) by (unfold proc_at; by rewrite E1). rewrite E1. apply wp_bind, wp_upd_in; [done|]. set (s2 := set_procs _ s1).
  assert (proc_at s2 p = set_pstate SLEEPING (set_chan (Some (ChProc p)) (proc_at s p))) as P2 by (by apply proc_at_in).
  apply (wp_sched s2 p); [done|unfold s2; cbn; by rewrite (sr_cproc _ _ R1)|by rewrite P2|unfold s2; cbn; lia|by rewrite P2|]. intros s3 E3 R3 N3 C3. apply HQ; [by rewrite E3| |done|done].
  eapply same_rest_trans; [exact R1|]. by destruct R3.
Qed.

Lemma wp_wait_round fam s0 s l tp Dp p pp addr : unlocked s0 -> procs s0 !! p = Some pp -> ~ child p pp -> families fam s0 l tp Dp p pp -> 0 <= addr < 2^64 ->
  procs s = <[p := set_plock spin_mine pp]> (procs s0) -> same_rest s0 s -> cproc s0 = Some p -> cnoff s = 1 -> cpu_ok s ->
  wp (wait_round kend kobj p addr) (waited fam l tp Dp p pp addr s0) s.
Proof using Hend.
  intros [Hlen Hun] Hp Hnp Hfam Haddr Hs HR Hcur Hn Hc. pose proof (lookup_lt_Some _ _ _ Hp) as Lp. rewrite Forall_forall in Hun.
  assert (forall j, j <> p -> proc_at s j = proc_at s0 j) as Pj by (intros j Hj; by eapply proc_at_insert_ne).
  assert (proc_at s p = set_plock spin_mine pp) as Pp by (by eapply proc_at_insert).
  assert (forall j q, procs s0 !! j = Some q -> child p q -> j <> p /\ proc_at s j = q) as Hch.
  { intros j q Hj Hq. assert (j <> p) as Hne by (intros ->; congruence). split; [done|]. rewrite Pj by done. by apply proc_at_lookup. }
  assert (forall j, child p (proc_at s j) -> (j < length (procs s0))%nat -> exists q, procs s0 !! j = Some q /\ child p q /\ proc_at s j = q /\ j <> p) as Hback.
  { intros j Hq Hj. assert (j <> p) as Hne by (intros ->; by rewrite Pp in Hq). destruct (lookup_lt_is_Some_2 _ _ Hj) as [q Eq]. exists q. rewrite Pj in * by done. rewrite (proc_at_lookup _ _ _ Eq) in *. done. }
  unfold wait_round. apply wp_bind, wp_wait_scan.
  - done.
  - intros j Hj. rewrite Hs, length_insert. by apply table_in.
  - intros j q Hj Hq. rewrite Hs in Hj. destruct (decide (j = p)) as [->|Hne].
    + rewrite list_lookup_insert_eq in Hj by done. by injection Hj as <-.
    + rewrite list_lookup_insert_ne in Hj by done. apply Hun. by eapply list_elem_of_lookup_2.
  - intros i l1 l2 Etab Hci Hz Hfirst s1 E1 R1 N1 C1 _.
    assert (table !! length l1 = Some i) as Hil by (rewrite Etab; by apply list_lookup_middle). unfold table in Hil. apply lookup_seq in Hil as [Ei Li]. rewrite Nat.add_0_l in Ei.
    destruct (Hback i Hci ltac:(lia)) as (ci & Hi & Hcc & Pi & Hip). rewrite Pi in *. pose proof (Hfam i ci Hi (conj Hcc Hz)) as HF.
    eapply (wp_reap s0 s1 l tp Dp (fam i).1 (fam i).2 i p ci pp addr); [done|lia|done|done|done|apply Hun; by eapply list_elem_of_lookup_2|apply Hun; by eapply list_elem_of_lookup_2|by eapply same_rest_trans|by rewrite E1, Hs| |done| |].
    + by rewrite (sr_km _ _ R1), (sr_km _ _ HR).
    + intros s' Hre. cbn match. apply wp_ret. eapply (waited_reaped _ _ _ _ _ _ _ _ i); [done|by split| |done].
      intros j q Hj Hq [Hqc Hqz]. destruct (Hch j q Hq Hqc) as [_ Pq]. apply (Hfirst j); [|by rewrite Pq|by rewrite Pq].
      apply list_elem_of_lookup_2 with j. assert (table !! j = Some j) as Htj by (unfold table; apply lookup_seq; lia). rewrite Etab, lookup_app_l in Htj by lia. done.
    + intros s' Ht (k & Hk & Hu) E' R' N' C' _. cbn match. apply wp_ret. by eapply (waited_fault _ _ _ _ _ _ _ _ i ci k).
  - intros s1 Hno E1 [R1 N1 C1 _]. cbn match. assert (proc_at s1 p = set_plock spin_mine pp) as P1 by (rewrite <- Pp; unfold proc_at; by rewrite E1).
    assert (forall j q, procs s0 !! j = Some q -> ~ zombie p q) as Hnz.
    { intros j q Hj [Hq Hz]. destruct (Hch j q Hj Hq) as [_ Pq]. apply (Hno j); [apply (table_in s0); [done|by eapply lookup_lt_Some]|by rewrite Pq|by rewrite Pq]. }
    apply wp_bind, wp_gets. rewrite P1. cbn [killed set_plock orb]. destruct (decide (Exists (fun j => child p (proc_at s j)) table /\ killed pp = 0)) as [[Hex Hk]|Hor].
    + rewrite bool_decide_true by done. rewrite Hk. cbn [negb orb truth]. apply Exists_exists in Hex as (j & Hj & Hq). apply (table_in s0) in Hj; [|done]. destruct (Hback j Hq Hj) as (q & Hjq & Hcq & _).
      change (truth 0) with false. cbn match. apply wp_bind, (wp_sleep_own s1 p); [done|by rewrite (sr_cproc _ _ R1), (sr_cproc _ _ HR)|lia|by rewrite E1, Hs, length_insert|by rewrite P1|].
      intros ie s2 E2 R2 N2 C2. apply wp_ret. eapply (waited_asleep _ _ _ _ _ _ _ _ j q); [done|done|done|done| |by eapply same_rest_trans; [|eapply same_rest_trans]|done|done].
      by rewrite E2, P1, E1, Hs, list_insert_insert_eq.
    + assert (negb (bool_decide (Exists (fun j => child p (proc_at s j)) table)) || truth (killed pp) = true) as ->.
      { destruct (decide (Exists (fun j => child p (proc_at s j)) table)) as [He|He]; [rewrite bool_decide_true by done|by rewrite bool_decide_false]. apply truth_true. tauto. }
      apply wp_bind, wp_prelease; [done|lia|by rewrite P1|]. intros s2 E2 R2 N2 C2 _ _. apply wp_ret. apply waited_none; [done| | |by eapply same_rest_trans; [|eapply same_rest_trans]|lia|done].
      * destruct (decide (killed pp = 0)) as [Hk|]; [left|by right]. intros j q Hj Hq. apply Hor. split; [|done]. apply Exists_exists. exists j. destruct (Hch j q Hj Hq) as [_ Pq].
        split; [apply (table_in s0); [done|by eapply lookup_lt_Some]|by rewrite Pq].
      * rewrite E2, P1, E1, Hs, list_insert_insert_eq, set_plock_twice, set_plock_id by (apply Hun; by eapply list_elem_of_lookup_2). by apply list_insert_id.
Qed.

(** C26.  [wait] of a process in a system call never panics.  If a child is a
    zombie, the first one in the table is reaped: its pid is returned, its exit
    status is in the memory of the parent, its entry is free and every page it
    had is back on the free list; a bad address leaves everything as it was.
    Without children, or if the process has been killed, [wait] returns -1.
    Otherwise the process sleeps on itself, with its own lock and no other. *)
Theorem wait_correct fam s l tp Dp p pp addr : cpu_ok s -> cnoff s = 0 -> unlocked s -> cproc s = Some p -> procs s !! p = Some pp -> ~ child p pp ->
  families fam s l tp Dp p pp -> 0 <= addr < 2^64 -> wp (wait kend kobj addr) (waited fam l tp Dp p pp addr s) s.
Proof using Hend.
  intros Hc Hn Hu Hcur Hp Hnp Hfam Haddr. unfold wait. apply wp_bind. eapply wp_cur; [done|done|]. intros s1 E1 R1 N1 C1 _ _.
  assert (proc_at s1 p = pp) as P1 by (apply proc_at_lookup; by rewrite E1). pose proof (unlocked_at s p Hu) as Hl. rewrite (proc_at_lookup _ _ _ Hp) in Hl.
  apply wp_bind, wp_pacquire; [done|by rewrite P1|]. intros s2 E2 R2 N2 C2 _ _. apply (wp_wait_round fam s s2); [done|done|done|done|done|by rewrite E2, P1, E1|by eapply same_rest_trans|done|lia|done].
Qed.

(** *** From exit to wait *)

(** The child exits while its parent sleeps in [wait], the scheduler lets the
    parent run, and [wait] goes on. *)
Definition handshake (i op : nat) (status addr : Z) (ie : bool) : M pst (Z + bool) :=
  let! _ := exit_tail i status in
  scheduler_back i ;;
  let! ran := scheduler_try op in
  if (ran : bool) then wait_again kend kobj op addr ie else ret (inr false).

Lemma wp_handover s i op status ie {A} (k e : M pst A) (Q : A -> pst -> Prop) init : exiting i op init s -> pstate (proc_at s op) = SLEEPING -> chan (proc_at s op) = Some (ChProc op) ->
  (forall s', tab s (upd_at op (fun p => set_chan None (set_pstate RUNNING (set_plock spin_mine p))) (upd_at i (set_plock spin_free) (exited i op init status))) s' ->
     same_rest (set_cproc (Some op) s) s' -> cnoff s' = 1 -> cpu_ok s' -> wp k Q s') ->
  wp (let! _ := exit_tail i status in scheduler_back i ;; let! ran := scheduler_try op in
      if (ran : bool) then sleep_return op OwnLock ie ;; k else e) Q s.
Proof.
  intros Hex Hst Hch HQ. pose proof Hex as [_ _ Hu _ (Ri & Rop & _) _ (Hpar & Hne & _)]. pose proof Hu as [Hlen _]. assert (i < length (procs s) /\ op < length (procs s))%nat as [Li Lop] by lia.
  apply wp_bind, (wp_exit_tail s i op init status); [done|]. intros ie' s1 T1 R1 N1 C1. pose proof (tab_at s _ s1 i Li T1) as Pi. unfold exited in Pi. rewrite decide_True in Pi by done.
  unfold scheduler_back. apply wp_bind, wp_bind, wp_modify, wp_prelease; [exact C1|cbn; lia|unfold proc_at in *; cbn [procs set_cproc]; by rewrite Pi|]. intros s2 E2 R2 N2 C2 _ _.
  pose proof (tab_upd s _ s1 i (set_plock spin_free) s2 Li T1 E2) as T2. pose proof (tab_at s _ s2 op Lop T2) as Pop.
  assert (plock (proc_at s2 op) = spin_free /\ pstate (proc_at s2 op) = RUNNABLE) as [Fop Sop].
  { rewrite Pop. unfold upd_at. rewrite decide_False by done. unfold exited. rewrite decide_False, (decide_True (P := op = op)) by done. pose proof (unlocked_at s op Hu) as Hl.
    destruct (decide (op = init)) as [<-|]; unfold adopted, woken; destruct (proc_at s op); cbn in *; subst; repeat (case_decide; cbn); try done; tauto. }
  unfold scheduler_try. apply wp_bind, wp_bind, wp_pacquire; [done|done|]. intros s3 E3 R3 N3 C3 _ _. pose proof (tab_upd s _ s2 op (set_plock spin_mine) s3 Lop T2 E3) as T3.
  pose proof (tab_length _ _ _ T2) as L2. rewrite <- L2 in Lop. apply wp_bind, wp_gets. rewrite (proc_at_insert s2 s3 op _ E3 Lop). rewrite decide_True by done. apply wp_bind, wp_upd, wp_bind, wp_modify, wp_ret. cbn match.
  set (s4 := set_cproc _ _). rewrite L2 in Lop. pose proof (tab_upd s _ s3 op (set_pstate RUNNING) s4 Lop T3 eq_refl) as T4.
  unfold sleep_return, sched_return. apply wp_bind, wp_bind, wp_modify, wp_bind, wp_upd, wp_ret. set (s5 := set_procs _ _). apply (HQ s5).
  - eapply tab_ext; [exact (tab_upd s _ (set_cintena ie s4) op (set_chan None) s5 Lop T4 eq_refl)|]. intros j p _. unfold upd_at. by case_decide.
  - destruct R1, R2, R3. split; cbn in *; congruence.
  - unfold s5, s4. cbn in *. lia.
  - exact C3.
Qed.

(** A family is that of the entries' memory. *)
Lemma family_fields m l tp Dp tc Dc pp ci pp' ci' : family m l tp Dp tc Dc pp ci -> pagetable pp' = pagetable pp -> pagetable ci' = pagetable ci -> psz ci' = psz ci ->
  trapframe ci' = trapframe ci -> family m l tp Dp tc Dc pp' ci'.
Proof.
  intros [H1 H2 [A B C D E] H4 H5] Ep Ec Es Et. unfold pages_of in *. split; [done|congruence| |unfold pages_of; by rewrite Et|unfold pages_of; by rewrite Et]. split; [done|congruence|by rewrite Es|done|by rewrite Et].
Qed.

Lemma exited_fields i op init status j p : let q := exited i op init status j p in
  pagetable q = pagetable p /\ psz q = psz p /\ trapframe q = trapframe p /\ pid q = pid p /\ (j <> i -> plock q = plock p /\ (pstate q = ZOMBIE -> pstate p = ZOMBIE)) /\
  (j <> i -> parent q = if decide (parent p = Some i) then Some init else parent p).
Proof. cbv zeta. unfold exited, adopted, woken. destruct p. repeat (case_decide; cbn); splits; intros; try done; try tauto; split; done. Qed.

(** The table when the parent has come back: only the parent is locked, and the
    exited process is its only zombie. *)
Definition after_exit (i op init : nat) (status : Z) : nat -> proc -> proc :=
  upd_at op (fun p => set_chan None (set_pstate RUNNING p)) (upd_at i (set_plock spin_free) (exited i op init status)).

Lemma after_exit_fields i op init status j p : plock p = spin_free -> let q := after_exit i op init status j p in
  plock q = spin_free /\ pagetable q = pagetable p /\ psz q = psz p /\ trapframe q = trapframe p /\ pid q = pid p /\ (j <> i -> pstate q = ZOMBIE -> pstate p = ZOMBIE) /\
  (j <> i -> parent q = if decide (parent p = Some i) then Some init else parent p).
Proof.
  intros Hl. cbv zeta. destruct (exited_fields i op init status j p) as (A & B & C & D & E & F). unfold after_exit, upd_at. destruct (decide (j = i)) as [->|Hne].
  - repeat case_decide; cbn; splits; done.
  - destruct (E Hne) as [E1 E2]. repeat case_decide; cbn; splits; try done; congruence.
Qed.

Lemma after_exit_at i op init status s s0 j q : unlocked s -> tab s (after_exit i op init status) s0 -> procs s0 !! j = Some q ->
  exists p, procs s !! j = Some p /\ plock p = spin_free /\ q = after_exit i op init status j p.
Proof.
  intros [_ Hf] T Hj. rewrite T in Hj. apply fmap_Some in Hj as (p & Hp & ->). exists p. splits; [done| |done]. rewrite Forall_forall in Hf. apply Hf. by eapply list_elem_of_lookup_2.
Qed.
Lemma after_exit_unlocked i op init status s s0 : unlocked s -> tab s (after_exit i op init status) s0 -> unlocked s0.
Proof.
  intros Hu T. split; [rewrite (tab_length _ _ _ T); apply Hu|]. apply Forall_forall. intros q Hq. apply list_elem_of_lookup in Hq as [j Hj].
  destruct (after_exit_at _ _ _ _ _ _ _ _ Hu T Hj) as (p & Hp & Hl & ->). by apply after_exit_fields.
Qed.
Lemma after_exit_child i op init status ci : op <> i -> parent ci = Some op -> zombie op (after_exit i op init status i ci) /\ xstate (after_exit i op init status i ci) = status.
Proof. intros Hne Hp. unfold zombie, child, after_exit, upd_at, exited. by rewrite !(decide_False (P := i = op)), !(decide_True (P := i = i)) by done. Qed.
Lemma after_exit_only i op init status s s0 j q : exiting i op init s ->
  (forall j q, procs s !! j = Some q -> j <> i -> pstate q = ZOMBIE -> parent q <> Some op /\ parent q <> Some i) ->
  tab s (after_exit i op init status) s0 -> procs s0 !! j = Some q -> zombie op q -> j = i.
Proof.
  intros Hex Hzomb T Hj [Hq1 Hq2]. destruct (after_exit_at _ _ _ _ _ _ _ _ (ex_unlocked _ _ _ _ Hex) T Hj) as (p & Hp & Hl & ->). destruct (decide (j = i)) as [|Hji]; [done|exfalso].
  destruct (after_exit_fields i op init status j p Hl) as (_ & _ & _ & _ & _ & G1 & G2). unfold child in Hq1. rewrite (G2 Hji) in Hq1. destruct (Hzomb j p Hp Hji (G1 Hji Hq2)) as [Z1 Z2]. by rewrite decide_False in Hq1.
Qed.
(** The same table with the lock of the parent held. *)
Lemma after_exit_locked i op init status s s1 pp : unlocked s -> op <> i -> procs s !! op = Some pp ->
  tab s (upd_at op (fun p => set_chan None (set_pstate RUNNING (set_plock spin_mine p))) (upd_at i (set_plock spin_free) (exited i op init status))) s1 ->
  exists L, tab s (after_exit i op init status) (set_procs L s1) /\ L !! op = Some (after_exit i op init status op pp) /\ procs s1 = <[op := set_plock spin_mine (after_exit i op init status op pp)]> L.
Proof.
  intros Hu Hne Hpp T1. pose proof (lookup_lt_Some _ _ _ Hpp) as Lop. set (g := after_exit i op init status). set (L := <[op := g op pp]> (procs s1)). exists L.
  assert (op < length (procs s1))%nat as L1 by (by rewrite (tab_length _ _ _ T1)). pose proof (T1 op) as E1. rewrite Hpp in E1. split; [|split].
  - intros j. cbn [procs set_procs]. unfold L. destruct (decide (j = op)) as [->|Hj]; [rewrite list_lookup_insert_eq by done; by rewrite Hpp|]. rewrite list_lookup_insert_ne by done. rewrite (T1 j).
    unfold g, after_exit, upd_at. by destruct (procs s !! j); cbn [fmap option_fmap option_map]; rewrite ?(decide_False (P := j = op)).
  - by apply list_lookup_insert_eq.
  - unfold L. rewrite list_insert_insert_eq. symmetry. apply list_insert_id. rewrite E1. unfold g, after_exit, upd_at. cbn [fmap option_fmap option_map]. by rewrite !(decide_True (P := op = op)), !(decide_False (P := op = i)) by done.
Qed.

(** C25.  An exit status reaches the parent: when a process exits while its parent
    sleeps in [wait], the parent is made runnable, and when the scheduler has
    switched to it [wait] returns the pid of the child, with the status in the
    memory of the parent.  The entry of the child is free, all its pages are on
    the free list, its own children belong to [init], and no lock is left. *)
Theorem exit_reaches_parent s i op init status addr ie l tp Dp tc Dc : exiting i op init s ->
  pstate (proc_at s op) = SLEEPING -> chan (proc_at s op) = Some (ChProc op) -> parent (proc_at s op) <> Some op ->
  (forall j q, procs s !! j = Some q -> j <> i -> pstate q = ZOMBIE -> parent q <> Some op /\ parent q <> Some i) ->
  family (km s) l tp Dp tc Dc (proc_at s op) (proc_at s i) -> 0 <= addr < 2^64 -> (truth addr = true -> forall k, 0 <= k < 4 -> upa (mem (km s)) tp (addr + k) <> None) ->
  wp (handshake i op status addr ie) (fun r s' => r = inl (pid (proc_at s i)) /\
    (truth addr = true -> user_bytes (mem (km s')) tp addr (int_bytes status)) /\ pstate (proc_at s' i) = UNUSED /\
    (exists l', l' ≡ₚ pages_of tc Dc (proc_at s i) ++ l /\ user_ok kend (km s') l' tp Dp) /\
    (forall j q, procs s !! j = Some q -> parent q = Some i -> parent (proc_at s' j) = Some init) /\ unlocked s') s.
Proof using Hend.
  intros Hex Hst Hch Hself Hzomb HF Haddr Hacc. pose proof Hex as [_ _ Hu _ (Ri & Rop & _) [_ Hne0] (Hpar & Hne & Hnc)]. pose proof Hu as [Hlen _].
  unfold handshake, wait_again. apply (wp_handover s i op status ie _ _ _ init); [done|done|done|]. intros s1 T1 R1 N1 C1.
  destruct (lookup_lt_is_Some_2 (procs s) op) as [pp Hpp]; [lia|]. destruct (lookup_lt_is_Some_2 (procs s) i) as [ci Hci]; [lia|].
  rewrite (proc_at_lookup _ _ _ Hpp), (proc_at_lookup _ _ _ Hci) in *. destruct (after_exit_locked i op init status s s1 pp Hu Hne Hpp T1) as (L & T0 & HL & E1).
  set (s0 := set_procs L s1) in *. set (g := after_exit i op init status) in *. destruct (after_exit_child i op init status ci Hne Hpar) as [Hz Hx]. fold g in Hz, Hx.
  assert (forall j p, procs s !! j = Some p -> procs s0 !! j = Some (g j p)) as Hat by (intros j p Hj; by rewrite T0, Hj). pose proof (unlocked_at s) as Hfree.
  assert (forall j p, procs s !! j = Some p -> plock p = spin_free) as Hf by (intros j p Hj; rewrite <- (proc_at_lookup _ _ _ Hj); by apply Hfree).
  pose proof (fun j p Hj => after_exit_fields i op init status j p (Hf j p Hj)) as Hg. cbv zeta in Hg. fold g in Hg. pose proof (fun j q => after_exit_only i op init status s s0 j q Hex Hzomb T0) as Honly.
  assert (km s0 = km s) as Ekm by exact (sr_km _ _ R1). pose proof (after_exit_unlocked i op init status s s0 Hu T0) as Hu0.
  eapply wp_conseq; [eapply (wp_wait_round (fun _ => (tc, Dc)) s0 s1 l tp Dp op (g op pp) addr)|].
  - done.
  - done.
  - unfold child. destruct (Hg op pp Hpp) as (_ & _ & _ & _ & _ & _ & G2). rewrite G2 by done. by rewrite decide_False.
  - intros j q Hj Hq. pose proof (Honly j q Hj Hq) as ->. rewrite (Hat i ci Hci) in Hj. injection Hj as <-. rewrite Ekm. eapply family_fields; [exact HF|by apply (Hg op pp Hpp)|by apply (Hg i ci Hci)..].
  - done.
  - done.
  - by destruct s1.
  - unfold s0. cbn. by rewrite (sr_cproc _ _ R1).
  - done.
  - done.
  - intros r s' Hw. destruct Hw as [j q s' Hj Hq _ [E' (R' & N' & C') Hb (l' & HP & HU)]|j q k s' Hj Hq Ht Hk Hnone _ _ _ _|s' Hno _ _ _ _ _|j q ie' s' Hno _ _ _ _ _ _ _].
    + pose proof (Honly j q Hj Hq) as ->. rewrite (Hat i ci Hci) in Hj. injection Hj as <-. rewrite Hx in Hb. destruct (Hg i ci Hci) as (_ & G1 & G2 & G3 & G4 & _). cbn [fst snd] in *.
      pose proof (lookup_lt_Some _ _ _ (Hat i ci Hci)) as L0. splits; [by rewrite G4|done|by rewrite (proc_at_insert s0 s' i _ E')| | |].
      * exists l'. unfold pages_of in *. by rewrite <- G3.
      * intros j q Hq1 Hq2. assert (j <> i) as Hji by (intros ->; congruence). rewrite (proc_at_insert_ne s0 s' i j _ E') by done. rewrite (proc_at_lookup _ _ _ (Hat j q Hq1)).
        destruct (Hg j q Hq1) as (_ & _ & _ & _ & _ & _ & G). rewrite G by done. by rewrite decide_True.
      * destruct Hu0 as [Hl0 Hf0]. split; rewrite E'; [by rewrite length_insert|]. by apply Forall_insert.
    + exfalso. apply (Hacc Ht k Hk). by rewrite <- Ekm.
    + exfalso. apply (Hno i (g i ci)); [by apply Hat|done].
    + exfalso. apply (Hno i (g i ci)); [by apply Hat|done].
Qed.
End free.

(** ** An example: a parent with one page and a child without *)

Definition lp (k : Z) : Z := PHYSTOP - 16 * PGSIZE + k * PGSIZE.

(** A page table with one path from its root. *)
Definition path_tree (r a b i2 i1 : Z) : ptree := PTree r {[ i2 := a ]} {[ (i2, i1) := b ]}.

Lemma path_pages r a b i2 i1 : pt_pages (path_tree r a b i2 i1) = [r; a; b].
Proof. unfold pt_pages, path_tree. cbn. by rewrite !map_to_list_singleton. Qed.
Lemma path_rep m r a b i2 i1 : 0 <= i2 < 256 -> 0 <= i1 < 512 ->
  (forall k, 0 <= k < 512 -> load64 m (r + 8 * k) = if decide (k = i2) then Z.lor (PA2PTE a) PTE_V else 0) ->
  (forall k, 0 <= k < 512 -> load64 m (a + 8 * k) = if decide (k = i1) then Z.lor (PA2PTE b) PTE_V else 0) -> pt_rep m (path_tree r a b i2 i1).
Proof.
  intros H2 H1 Hr Ha. unfold path_tree. split; [|split; [|split; [|split]]]; cbn [l0 l1 root].
  - intros k Hk. specialize (Hr k Hk). cbv beta. destruct (decide (k = i2)) as [->|Hne]; [by rewrite lookup_singleton_eq|rewrite lookup_singleton_ne by congruence; by rewrite Hr].
  - intros i p [<- <-]%lookup_singleton_Some k Hk. specialize (Ha k Hk). cbv beta. destruct (decide (k = i1)) as [->|Hne]; [by rewrite lookup_singleton_eq|rewrite lookup_singleton_ne by congruence; by rewrite Ha].
  - intros i j q [[= <- <-] <-]%lookup_singleton_Some. rewrite lookup_singleton_eq. eauto.
  - intros i p [<- <-]%lookup_singleton_Some. done.
  - intros i j q [[= <- <-] <-]%lookup_singleton_Some. done.
Qed.
Lemma path_leaf m r a b i2 i1 va : leaf m (path_tree r a b i2 i1) va = if decide ((i2, i1) = (PX 2 va, PX 1 va)) then load64 m (b + 8 * PX 0 va) else 0.
Proof.
  unfold leaf, pte_addr, path_tree. cbn [l0]. destruct (decide _) as [E|E]; [rewrite <- E; by rewrite lookup_singleton_eq|by rewrite lookup_singleton_ne].
Qed.

(** The page tables, the trapframe [lp 7] of the child, one free page [lp 8]. *)
Definition lf_mem : gmap Z Z :=
  store64 (store64 (store64 (store64 (store64 (store64 (store64 (store64 ∅
    (lp 0) (Z.lor (PA2PTE (lp 1)) PTE_V))
    (lp 1) (Z.lor (PA2PTE (lp 2)) PTE_V))
    (lp 2) (pte_entry (lp 3) PTE_USER))
    (lp 4 + 8 * 255) (Z.lor (PA2PTE (lp 5)) PTE_V))
    (lp 5 + 8 * 511) (Z.lor (PA2PTE (lp 6)) PTE_V))
    (lp 6 + 8 * 510) (pte_entry (lp 7) (Z.lor PTE_R PTE_W)))
    (lp 6 + 8 * 511) (pte_entry KERNBASE (Z.lor PTE_R PTE_X)))
    (lp 8) 0.
Definition lf_kst : kst := Kst lf_mem (Kmem spin_free (lp 8)).
Definition lf_parent : ptree := path_tree (lp 0) (lp 1) (lp 2) 0 0.
Definition lf_child : ptree := path_tree (lp 4) (lp 5) (lp 6) 255 511.

Lemma lf_valid k : 0 <= k < 16 -> valid_page (lp 0) (lp k).
Proof. intros Hk. unfold valid_page, page_aligned, lp. change PHYSTOP with (557056 * PGSIZE). unfold PGSIZE. dlia. Qed.
Lemma lf_wf : mem_wf lf_mem.
Proof. unfold lf_mem. repeat apply store64_wf. intros a. vm_compute. done. Qed.
Lemma lf_nodup ns : NoDup ns -> NoDup (lp <$> ns).
Proof. apply NoDup_fmap_2. intros i j. unfold lp, PGSIZE. lia. Qed.
Lemma lf_kinv : kinv (lp 0) lf_kst [lp 8].
Proof. split; [done|]. split; [exact lf_wf|]. split; [apply NoDup_singleton|]. split; [done|]. split; [apply lf_valid; lia|]. by vm_compute. Qed.

Lemma lf_entry r i v : (r, i, v) ∈ [(lp 0, 0, Z.lor (PA2PTE (lp 1)) PTE_V); (lp 1, 0, Z.lor (PA2PTE (lp 2)) PTE_V); (lp 4, 255, Z.lor (PA2PTE (lp 5)) PTE_V); (lp 5, 511, Z.lor (PA2PTE (lp 6)) PTE_V)] ->
  forall k, 0 <= k < 512 -> load64 lf_mem (r + 8 * k) = if decide (k = i) then v else 0.
Proof.
  rewrite !elem_of_cons, elem_of_nil. intros [[= -> -> ->]|[[= -> -> ->]|[[= -> -> ->]|[[= -> -> ->]|[]]]]] k Hk;
    (destruct (decide (k = _)) as [->|Hne]; [by vm_compute|unfold lf_mem; rewrite !load64_store64_ne by (unfold lp, PGSIZE; lia); done]).
Qed.
Lemma lf_leaf2 k : 0 <= k < 512 -> load64 lf_mem (lp 2 + 8 * k) = if decide (k = 0) then pte_entry (lp 3) PTE_USER else 0.
Proof. intros Hk. destruct (decide (k = 0)) as [->|Hne]; [by vm_compute|unfold lf_mem; rewrite !load64_store64_ne by (unfold lp, PGSIZE; lia); done]. Qed.
Lemma lf_leaf6 k : 0 <= k < 510 -> load64 lf_mem (lp 6 + 8 * k) = 0.
Proof. intros Hk. unfold lf_mem. rewrite !load64_store64_ne by (unfold lp, PGSIZE; lia). done. Qed.

Lemma lf_vinv t : t = lf_parent \/ t = lf_child -> vinv (lp 0) lf_kst [lp 8] t.
Proof.
  intros Ht. assert (pt_rep lf_mem t) as Hrep by (destruct Ht as [-> | ->]; (apply path_rep; [lia|lia|apply lf_entry; set_solver|apply lf_entry; set_solver])).
  split; [exact lf_kinv|]. split; [done|]. split.
  - destruct Ht as [-> | ->]; unfold lf_parent, lf_child; rewrite path_pages; [apply (lf_nodup [0; 1; 2; 8])|apply (lf_nodup [4; 5; 6; 8])]; apply (bool_decide_unpack _); by vm_compute.
  - intros p. destruct Ht as [-> | ->]; unfold lf_parent, lf_child; rewrite path_pages, !elem_of_cons, elem_of_nil; intros [->|[->|[->|[]]]]; apply lf_valid; lia.
Qed.

Lemma lf_parent_ok : user_ok (lp 0) lf_kst [lp 8] lf_parent [lp 3].
Proof.
  assert (forall va, 0 <= va < MAXVA -> leaf lf_mem lf_parent va = if decide (va < PGSIZE) then pte_entry (lp 3) PTE_USER else 0) as Hl.
  { intros va Hva. unfold lf_parent. rewrite path_leaf. pose proof (PX_decompose va) as Hd. change MAXVA with (2^38) in Hva. specialize (Hd ltac:(lia)).
    pose proof (PX_range 2 va ltac:(lia)). pose proof (PX_range 1 va ltac:(lia)). pose proof (PX_range 0 va ltac:(lia)). rewrite lf_leaf2 by done. unfold PGSIZE in *.
    destruct (decide ((0, 0) = (PX 2 va, PX 1 va))) as [[= E2 E1]|Hne], (decide (va < 4096)) as [Hp|Hp]; [rewrite decide_True by dlia|rewrite decide_False by dlia| |]; try done.
    exfalso. apply Hne. f_equal; dlia. }
  split; [split; [apply lf_vinv; by left|split; [split|split; [|split]]]|].
  - intros [|k] p [= <-]. change (mem lf_kst) with lf_mem. rewrite Hl by done. rewrite decide_True by done. apply (leaf_maps_entry (lp 0) ltac:(done)); [apply lf_valid; lia|by vm_compute|by vm_compute].
  - intros va Hva. rewrite TRAPFRAME_val in Hva. cbn in Hva. change (mem lf_kst) with lf_mem. rewrite Hl by (change MAXVA with (2^38); unfold PGSIZE in *; lia). by rewrite decide_False by (unfold PGSIZE in *; lia).
  - unfold lf_parent. rewrite path_pages. apply (lf_nodup [3; 0; 1; 2; 8]). apply (bool_decide_unpack _). by vm_compute.
  - apply Forall_singleton, lf_valid. lia.
  - done.
  - intros va Hva. rewrite TRAPFRAME_val in Hva. change (mem lf_kst) with lf_mem. rewrite Hl by lia. by rewrite decide_False by (unfold PGSIZE; lia).
Qed.

Definition lf_dad : proc := set_pagetable (lp 0) (set_pid 1 (set_chan (Some (ChProc 0)) (set_pstate SLEEPING proc0))).
Definition lf_son : proc := set_trapframe (lp 7) (set_pagetable (lp 4) (set_pid 2 (set_parent (Some 0%nat) (set_pstate RUNNING proc0)))).
Definition lf_pst : pst :=
  PSt (lf_dad :: lf_son :: replicate 62 proc0) 3 spin_free (Some 0%nat) 0 true (Some 1%nat) (Hart (fun _ => 0) (fun _ => 0) PrivS 0) lf_kst.

Lemma lf_tops : leaf lf_mem lf_child TRAMPOLINE = pte_entry KERNBASE (Z.lor PTE_R PTE_X) /\ leaf lf_mem lf_child TRAPFRAME = pte_entry (lp 7) (Z.lor PTE_R PTE_W).
Proof. split; by vm_compute. Qed.
Lemma lf_child_ok : pspace (lp 0) lf_kst [lp 8] lf_child [] lf_son.
Proof.
  split; [split; [apply lf_vinv; by right|split; [split|split; [|split]]]|done|by vm_compute| |].
  - done.
  - intros va Hva. change (mem lf_kst) with lf_mem. unfold lf_child. rewrite path_leaf. rewrite TRAPFRAME_val in Hva. cbn in Hva. pose proof (PX_decompose va ltac:(lia)) as Hd.
    case_decide as E; [|done]. injection E as E2 E1. pose proof (PX_range 0 va ltac:(lia)). rewrite lf_leaf6; [done|]. unfold PGSIZE in Hd. dlia.
  - unfold lf_child. rewrite path_pages. apply (lf_nodup [4; 5; 6; 8]). apply (bool_decide_unpack _). by vm_compute.
  - done.
  - done.
  - exists KERNBASE. change (mem lf_kst) with lf_mem. rewrite (proj1 lf_tops). split; [by vm_compute|]. split; by vm_compute.
  - change (mem lf_kst) with lf_mem. rewrite (proj2 lf_tops). split; [apply (leaf_maps_entry (lp 0) ltac:(done)); [apply lf_valid; lia|by vm_compute|by vm_compute]|]. split; [apply lf_valid; lia|].
    unfold lf_child. rewrite path_pages. change (trapframe lf_son) with (lp 7). pose proof (lf_nodup [7; 4; 5; 6; 8]) as H. apply NoDup_cons in H as [H _]; [exact H|]. apply (bool_decide_unpack _). by vm_compute.
Qed.

Lemma lf_family : family (lp 0) 0 lf_kst [lp 8] lf_parent [lp 3] lf_child [] lf_dad lf_son.
Proof.
  split; [exact lf_parent_ok|done|exact lf_child_ok| |].
  - unfold lf_parent, lf_child, pages_of. rewrite !path_pages. apply (lf_nodup [3; 0; 1; 2; 7; 4; 5; 6; 8]). apply (bool_decide_unpack _). by vm_compute.
  - intros q b Hq Hb. unfold lf_parent, lf_child, pages_of in Hq. rewrite !path_pages in Hq. unfold in_page. assert (Forall (fun q => 4 <= q) ([lp 3] ++ [lp 0; lp 1; lp 2] ++ (trapframe lf_son :: [] ++ [lp 4; lp 5; lp 6]) ++ [lp 8])) as HF by (by repeat constructor).
    rewrite Forall_forall in HF. specialize (HF q Hq). lia.
Qed.
Lemma lf_exiting : exiting 1 0 0 lf_pst.
Proof.
  split; [|done|split; [done|by repeat constructor]|done|split; [|split]; apply Nat.ltb_lt; done|done|done].
  split; [split; [done|split; [done|cbn; lia]]|done].
Qed.
Lemma lf_upa k : 0 <= k < 4 -> upa (mem lf_kst) lf_parent (16 + k) <> None.
Proof.
  intros Hk. assert (Forall (fun k => upa (mem lf_kst) lf_parent (16 + k) <> None) (seqZ 0 4)) as H by (repeat constructor; by vm_compute).
  rewrite Forall_forall in H. apply H, elem_of_seqZ. lia.
Qed.

Lemma exit_reaches_parent_witness : wp (handshake (lp 0) 0 1 0 7 16 true) (fun r s' => r = inl 2 /\
  user_bytes (mem (km s')) lf_parent 16 [7; 0; 0; 0] /\ pstate (proc_at s' 1) = UNUSED) lf_pst.
Proof.
  eapply wp_conseq; [apply (exit_reaches_parent (lp 0) ltac:(done) 0 lf_pst 1 0 0 7 16 true [lp 8] lf_parent [lp 3] lf_child [])|].
  - exact lf_exiting.
  - done.
  - done.
  - done.
  - intros j q Hj Hne Hz. destruct j as [|[|j]]; [by injection Hj as <-|done|]. change (replicate 62 proc0 !! j = Some q) in Hj. apply lookup_replicate in Hj as [-> _]. done.
  - exact lf_family.
  - done.
  - intros _. exact lf_upa.
  - intros r s' (-> & Hb & Hs & _). split; [done|]. split; [by apply Hb|done].
Defined.

Lemma wait_correct_witness : wp (wait (lp 0) 0 16) (fun r s' => r = inl (-1)) (set_cproc (Some 1%nat) lf_pst).
Proof.
  eapply wp_conseq; [apply (wait_correct (lp 0) ltac:(done) 0 (fun _ => (lf_child, [])) _ [lp 8] lf_child [] 1 lf_son 16)|].
  - apply lf_exiting.
  - done.
  - apply lf_exiting.
  - done.
  - done.
  - done.
  - intros i ci Hi [Hc _]. destruct i as [|[|i]]; [by injection Hi as <-|by injection Hi as <-|]. change (replicate 62 proc0 !! i = Some ci) in Hi. apply lookup_replicate in Hi as [-> _]. done.
  - done.
  - intros r s' Hw. destruct Hw as [i ci s' Hi [Hc _] _ _|i ci k s' Hi [Hc _] _ _ _ _ _ _ _|s'|j q ie s' _ Hj Hc]; [exfalso..|done|exfalso].
    all: match goal with H : procs _ !! ?i = Some ?c |- _ => destruct i as [|[|i]]; [by injection H as <-|by injection H as <-|]; change (replicate 62 proc0 !! i = Some c) in H; by apply lookup_replicate in H as [-> _] end.
Defined.
