(* ===== verification/ProcBirth.v ===== *)
(** * The birth of a process (kernel/proc.c: proc_pagetable, allocproc)

    [allocproc] takes a free entry of the table and builds its address space:
    the page of the trapframe, and a page table with nothing but the
    trampoline and the trapframe.  When memory runs out everything is given
    back.  [fork] and [userinit] start from here. *)

From S2P Require Import Prelude Riscv Memory Spinlock Kalloc Vm PageTable VmMap UserVm UvmCopy VmFree VmCopy Hart Proc ProcProof UserCall Block BlockCache Log Tx CopyIO Fs Console Virtio File Kernel ProcLife.

(** ** An empty page table *)

Section birth.
Context (kend : Z) (Hend : 0 < kend).

Definition bare (p : Z) : ptree := PTree p ∅ ∅.

Lemma bare_pages p : pt_pages (bare p) = [p].
Proof. unfold pt_pages. cbn. by rewrite !map_to_list_empty. Qed.
Lemma bare_leaf m p va : leaf m (bare p) va = 0.
Proof. unfold leaf, pte_addr. cbn. by rewrite lookup_empty. Qed.

Lemma bare_uvinv m l p : kinv kend m l -> valid_page kend p -> p ∉ l -> (forall a, in_page p a -> load8 (mem m) a = 0) -> uvinv kend m l (bare p) [].
Proof.
  intros HK Hp Hn Hz. split; [split; [done|split; [|split]]|split; [|split; [|split]]].
  - split; [|split; [|split; [|split]]]; cbn [bare root l1 l0].
    + intros i Hi. rewrite lookup_empty. replace (load64 (mem m) (p + 8 * i)) with 0; [done|]. symmetry. apply loadn_zero. intros b Hb. apply Hz. apply (entry_in_page p i); [done|lia].
    + intros i q Hq. by rewrite lookup_empty in Hq.
    + intros i j q Hq. by rewrite lookup_empty in Hq.
    + intros i q Hq. by rewrite lookup_empty in Hq.
    + intros i j q Hq. by rewrite lookup_empty in Hq.
  - rewrite bare_pages. apply NoDup_cons. split; [done|apply HK].
  - intros q. rewrite bare_pages. by intros ->%list_elem_of_singleton.
  - split; [intros k q Hk; by rewrite lookup_nil in Hk|]. intros va _. by rewrite bare_leaf.
  - rewrite bare_pages. apply NoDup_cons. split; [done|apply HK].
  - done.
  - done.
Qed.

Lemma wp_uvmcreate m l (Q : Z -> kst -> Prop) : kinv kend m l -> (l = [] -> Q 0 m) ->
  (forall p l' m', l = p :: l' -> uvinv kend m' l' (bare p) [] -> unchanged_outside [p] (mem m) (mem m') -> Q p m') -> wp uvmcreate Q m.
Proof using Hend.
  intros HK Hnil HQ. unfold uvmcreate. apply wp_bind, (wp_kalloc kend Hend m l); [done|intros ->; by apply wp_ret, Hnil|]. intros p l' m1 -> HK1 Hp Hn Hm.
  pose proof (valid_page_nonzero kend Hend p Hp). replace (p =? 0) with false by lia. apply wp_bind, wp_modify, wp_ret. apply (HQ p l'); [done| |].
  - apply bare_uvinv; [|done|done|].
    + apply (kinv_ext kend m1); [done|apply memset_wf, HK1| |done]. intros q a Hq Ha. cbn. rewrite load8_memset. rewrite decide_False; [done|]. intros Ha'. apply Hn.
      replace p with q; [done|]. apply (in_page_disjoint q p a); [|apply Hp|done|done]. destruct HK1 as (_ & _ & _ & Hf). by eapply freelist_rep_valid.
    + intros a Ha. cbn. rewrite load8_memset. by rewrite decide_True.
  - intros a Ha. specialize (Ha p ltac:(by left)). cbn. rewrite load8_memset, decide_False by done. rewrite Hm. by rewrite decide_False.
Qed.

(** ** The trampoline and the trapframe *)

(** A page mapped above the user memory. *)
Lemma uvinv_top m l t m' l' t' D a e : uvinv kend m l t D -> evolves kend m l t m' l' t' -> page_aligned a -> TRAPFRAME <= a ->
  (forall va, 0 <= va < MAXVA -> leaf (mem m') t' va = if decide (va / PGSIZE = a / PGSIZE) then e else leaf (mem m) t va) -> uvinv kend m' l' t' D.
Proof.
  intros (HI & [Hmap Hno] & Hnd & Hv & Hlen) (HI' & _ & HP & _) Ha Hta Hl.
  assert (forall va, 0 <= va < TRAPFRAME -> leaf (mem m') t' va = leaf (mem m) t va) as E.
  { intros va Hva. rewrite TRAPFRAME_val in *. rewrite Hl by (change MAXVA with (2^38); lia). unfold page_aligned, PGSIZE in *. by rewrite decide_False by dlia. }
  split; [done|]. split; [split|split; [by rewrite HP|done]].
  - intros k p Hk. pose proof (lookup_lt_Some _ _ _ Hk). rewrite E; [by apply Hmap|]. unfold PGSIZE in *. lia.
  - intros va Hva. rewrite E; [by apply Hno|]. unfold PGSIZE in *. lia.
Qed.

Lemma wp_map_top m l t D a pa perm (Q : Z -> kst -> Prop) : uvinv kend m l t D -> page_aligned a -> TRAPFRAME <= a -> a + PGSIZE <= MAXVA ->
  page_aligned pa -> 0 <= pa < 2^55 -> 0 <= perm < 1024 -> pte_has (leaf (mem m) t a) PTE_V = false ->
  (forall m' t', uvinv kend m' [] t' D -> evolves kend m l t m' [] t' -> (forall va, 0 <= va < MAXVA -> leaf (mem m') t' va = leaf (mem m) t va) -> (length l <= 2)%nat -> Q (-1) m') ->
  (forall m' l' t', uvinv kend m' l' t' D -> evolves kend m l t m' l' t' ->
     (forall va, 0 <= va < MAXVA -> leaf (mem m') t' va = if decide (va / PGSIZE = a / PGSIZE) then pte_entry pa perm else leaf (mem m) t va) -> (length l <= length l' + 2)%nat -> Q 0 m') ->
  wp (mappages (root t) a PGSIZE pa perm) Q m.
Proof using Hend.
  intros HU Ha Hta HaM Hpa Hpar Hperm Hfree Hfail Hok. assert (0 < TRAPFRAME) by done. apply (wp_mappages_page kend Hend m l t a pa perm); [apply HU|done|lia|done|done|done|done|done| |].
  - intros m' t' Hev Hl Hn. apply (Hfail m' t'); [|done|done|done]. by eapply uvinv_evolves.
  - intros m' l' t' Hev Hl Hn. apply (Hok m' l' t'); [|done|done|done]. by apply (uvinv_top m l t m' l' t' D a (pte_entry pa perm)).
Qed.

(** ** The address space of a new process *)

Lemma outside_trans P P1 P2 m m1 m2 : unchanged_outside P1 m m1 -> unchanged_outside P2 m1 m2 -> P1 ⊆ P -> P2 ⊆ P -> unchanged_outside P m m2.
Proof. intros U1 U2 S1 S2 a Ha. rewrite U2, U1; [done|..]; intros p Hp; apply Ha; auto. Qed.

Context (trampoline forkret_addr : Z) (Htr : page_aligned trampoline /\ 0 <= trampoline < 2^55).

(** From the free pages [l] of [m]: no user memory, the trampoline and the
    trapframe [tf]. *)
Record newspace (m : kst) (l : list Z) (tf : Z) (m' : kst) (l' : list Z) (t : ptree) : Prop := NewSpace {
  ns_user : uvinv kend m' l' t [];
  ns_pages : pt_pages t ++ l' ≡ₚ l;
  ns_tramp : leaf (mem m') t TRAMPOLINE = pte_entry trampoline (Z.lor PTE_R PTE_X);
  ns_frame : leaf (mem m') t TRAPFRAME = pte_entry tf (Z.lor PTE_R PTE_W);
  ns_same : unchanged_outside l (mem m) (mem m');
  ns_room : (length l <= length l' + 5)%nat }.

(** Everything is given back. *)
Definition gave_back (m : kst) (l : list Z) (m' : kst) : Prop := exists l', kinv kend m' l' /\ l' ≡ₚ l /\ unchanged_outside l (mem m) (mem m').

Lemma wp_undo_space m l m1 l1 t (Q : unit -> kst -> Prop) : uvinv kend m1 l1 t [] -> pt_pages t ++ l1 ≡ₚ l -> unchanged_outside l (mem m) (mem m1) ->
  (forall va, TRAPFRAME <= va < MAXVA -> pte_has (leaf (mem m1) t va) PTE_V = false) -> (forall m', gave_back m l m' -> Q tt m') -> wp (uvmfree kend (root t) 0) Q m1.
Proof using Hend.
  intros HU HP U1 Htop HQ. eapply wp_conseq; [apply (wp_uvmfree kend Hend m1 l1 t [] 0); [done|done|done|done]|]. intros [] m' (l' & HP' & HK & U2). apply HQ. exists l'. cbn [app] in HP'. split; [done|].
  split; [by rewrite HP'|]. eapply outside_trans; [exact U1|exact U2|done|]. intros p. cbn [app]. by rewrite HP.
Qed.

Lemma wp_proc_pagetable s i l tf (Q : Z -> pst -> Prop) : kinv kend (km s) l -> trapframe (proc_at s i) = tf -> valid_page kend tf ->
  (forall m, gave_back (km s) l m -> (length l <= 5)%nat -> Q 0 (set_km m s)) ->
  (forall m l' t, newspace (km s) l tf m l' t -> Q (root t) (set_km m s)) -> wp (proc_pagetable kend trampoline i) Q s.
Proof using Hend Htr.
  intros HK Etf Htf Hfail HQ. assert (TRAMPOLINE = TRAPFRAME + PGSIZE) as Etr by done. assert (TRAMPOLINE + PGSIZE = MAXVA) as Emax by done. assert (PGSIZE = 4096) as EP by done. assert (0 < TRAPFRAME) by done.
  assert (page_aligned TRAMPOLINE /\ page_aligned TRAPFRAME) as [Ha1 Ha2] by done. destruct (valid_page_entry kend Hend tf Htf) as [Htfa _].
  assert (0 <= tf < 2^55) as Htfr by (destruct Htf as [_ ?]; change PHYSTOP with 0x88000000 in *; lia).
  unfold proc_pagetable. apply wp_bind, wp_zoom, (wp_uvmcreate _ l); [done|intros ->; apply wp_ret, Hfail; [by exists []|cbn; lia]|]. intros p l1 m1 -> HU1 U1.
  assert (p =? 0 = false) as ->. { apply Z.eqb_neq. apply (valid_page_nonzero kend Hend). apply HU1. rewrite bare_pages. by left. }
  change p with (root (bare p)) at 1. apply wp_bind, wp_zoom, (wp_map_top m1 l1 (bare p) [] TRAMPOLINE trampoline); [done|done|lia|lia|apply Htr|apply Htr|done|by rewrite bare_leaf| |].
  { intros m2 t2 HU2 (_ & R2 & P2 & U2) L2 N2. cbn [Z.ltb Z.compare]. rewrite bare_pages, app_nil_r in P2. change p with (root (bare p)). rewrite <- R2. apply wp_bind, wp_zoom, (wp_undo_space (km s) (p :: l1) m2 [] t2).
    - done.
    - by rewrite app_nil_r.
    - eapply outside_trans; [exact U1|exact U2|set_solver|]. rewrite bare_pages. set_solver.
    - intros va Hva. rewrite L2 by lia. by rewrite bare_leaf.
    - intros m3 HG. apply wp_ret, Hfail; [done|cbn; lia]. }
  intros m2 l2 t2 HU2 (_ & R2 & P2 & U2) L2 N2. rewrite bare_pages in P2, U2. cbn [Z.ltb Z.compare app] in P2, U2 |- *. apply wp_bind, wp_gets. change (proc_at (set_km m2 (set_km m1 s)) i) with (proc_at s i). rewrite Etf.
  assert (unchanged_outside (p :: l1) (mem (km s)) (mem m2)) as U2' by (eapply outside_trans; [exact U1|exact U2|set_solver|done]).
  change p with (root (bare p)). rewrite <- R2. apply wp_bind, wp_zoom, (wp_map_top m2 l2 t2 [] TRAPFRAME tf); [done|done|lia|lia|done|done|done| | |].
  { rewrite L2 by lia. rewrite decide_False by (rewrite Etr, EP; rewrite TRAPFRAME_val; dlia). by rewrite bare_leaf. }
  { intros m3 t3 HU3 (_ & R3 & P3 & U3) L3 N3. cbn [Z.ltb Z.compare]. rewrite app_nil_r in P3. rewrite <- R3. assert (leaf_maps (leaf (mem m3) t3 TRAMPOLINE) trampoline) as Hlm.
    { rewrite L3, L2, decide_True by (done || lia). destruct Htr. destruct (pte_entry_facts trampoline (Z.lor PTE_R PTE_X)) as (_ & E1 & E2 & E3); [done|lia|done|]. split; [done|]. rewrite E2. by split. }
    apply wp_bind, wp_zoom, (wp_unmap_one kend Hend m3 [] t3 [] TRAMPOLINE trampoline); [done|lia|done|lia|done|]. intros m4 HU4 L4 U4.
    apply wp_bind, wp_zoom, (wp_undo_space (km s) (p :: l1) m4 [] t3); [done|by rewrite app_nil_r, P3| | |].
    - eapply outside_trans; [eapply outside_trans; [exact U2'|exact U3|done|]|exact U4|done|]; intros q; rewrite ?app_nil_r, ?P3, P2; done.
    - intros va Hva. rewrite L4 by lia. unfold cleared. case_decide; [done|]. rewrite L3, L2 by lia. rewrite decide_False by (rewrite Etr, TRAPFRAME_val, EP in *; dlia). by rewrite bare_leaf.
    - intros m5 HG. apply wp_ret, Hfail; [done|cbn; lia]. }
  intros m3 l3 t3 HU3 (_ & R3 & P3 & U3) L3 N3. cbn [Z.ltb Z.compare]. rewrite <- R3. apply wp_ret, (HQ m3 l3). split; [done|by rewrite P3| | | |cbn; lia].
  - rewrite L3, decide_False, L2, decide_True by (done || lia || rewrite Etr, EP, TRAPFRAME_val; dlia). done.
  - by rewrite L3, decide_True by (done || lia).
  - eapply outside_trans; [exact U2'|exact U3|done|]. intros q. by rewrite P2.
Qed.

(** ** A free entry and a process id *)

Lemma proc_at_id s i : (i < length (procs s))%nat -> <[i := proc_at s i]> (procs s) = procs s.
Proof. intros Hi. unfold proc_at. destruct (lookup_lt_is_Some_2 _ _ Hi) as [p E]. rewrite E. by apply list_insert_id. Qed.

Lemma wp_find_unused l : forall s (Q : option nat -> pst -> Prop), cpu_ok s -> (forall j, j ∈ l -> (j < length (procs s))%nat /\ plock (proc_at s j) = spin_free) ->
  (forall s', (forall j, j ∈ l -> pstate (proc_at s j) <> UNUSED) -> procs s' = procs s -> stays s s' -> Q None s') ->
  (forall i s', i ∈ l -> pstate (proc_at s i) = UNUSED -> procs s' = <[i := set_plock spin_mine (proc_at s i)]> (procs s) -> same_rest s s' -> cnoff s' = cnoff s + 1 -> cpu_ok s' -> Q (Some i) s') ->
  wp (find_unused l) Q s.
Proof using.
  induction l as [|i l IH]; intros s Q Hc Hl Hno HQ; cbn [find_unused].
  { apply wp_ret, Hno; [|done|by split]. intros j Hj. by apply not_elem_of_nil in Hj. }
  destruct (Hl i ltac:(by left)) as [Hi Hf]. assert (0 <= cnoff s) by apply Hc. apply wp_bind, wp_pacquire; [done|done|]. intros s1 E1 R1 N1 C1 IE1 _.
  pose proof (proc_at_insert s s1 i _ E1 Hi) as P1. apply wp_bind, wp_gets. rewrite P1. change (pstate (set_plock spin_mine (proc_at s i))) with (pstate (proc_at s i)).
  destruct (decide (pstate (proc_at s i) = UNUSED)) as [Hu|Hu]. { apply wp_ret, HQ; [by left|done|done|done|done|done]. }
  apply wp_bind, wp_prelease; [done|lia|by rewrite P1|]. intros s2 E2 R2 N2 C2 IE2 _.
  assert (procs s2 = procs s) as E2' by (by rewrite E2, P1, E1, list_insert_insert_eq, set_plock_twice, set_plock_id, proc_at_id).
  assert (stays s s2) as S2 by (split; [by eapply same_rest_trans|lia|done|intros; rewrite IE2; by apply IE1]).
  assert (forall j, proc_at s2 j = proc_at s j) as P2 by (intros j; unfold proc_at; by rewrite E2'). apply IH; [done|..].
  - intros j Hj. rewrite E2', P2. apply Hl. by right.
  - intros s3 Hn E3 S3. apply Hno; [|congruence|by eapply stays_trans]. intros j [->|Hj]%elem_of_cons; [done|]. rewrite <- P2. by apply Hn.
  - intros j s3 Hj Hju E3 R3 N3 C3. rewrite P2 in Hju, E3. rewrite E2' in E3. apply HQ; [by right|done|done|by eapply same_rest_trans; [apply S2|]|rewrite N3, (st_noff _ _ S2); lia|done].
Qed.

(** What [allocproc] leaves alone. *)
Record others (s s' : pst) : Prop := Others {
  ot_pid_lock : pid_lock s' = pid_lock s;
  ot_initproc : initproc s' = initproc s;
  ot_cproc : cproc s' = cproc s }.

Lemma others_trans s1 s2 s3 : others s1 s2 -> others s2 s3 -> others s1 s3.
Proof. intros [] []. split; congruence. Qed.
Lemma rest_others s s' : same_rest s s' -> others s s'.
Proof. by intros []. Qed.

Lemma wp_allocpid s (Q : Z -> pst -> Prop) : cpu_ok s -> pid_lock s = spin_free ->
  (forall s', procs s' = procs s -> nextpid s' = s32 (nextpid s + 1) -> others s s' -> km s' = km s -> cnoff s' = cnoff s -> cpu_ok s' -> Q (nextpid s) s') -> wp allocpid Q s.
Proof.
  intros Hc Hl HQ. assert (0 <= cnoff s) by apply Hc. unfold allocpid, lk_acquire, lk_release. apply wp_bind, wp_bind, wp_push; [done|]. intros s1 E1 [A1 B1 D1 F1 G1] N1 C1 _ _.
  apply wp_spin_acquire; [congruence|]. apply wp_bind, wp_gets, wp_bind, wp_modify, wp_bind, wp_bind, wp_spin_release; [done|].
  apply wp_pop; [done|cbn; lia|]. intros s2 E2 [A2 B2 D2 F2 G2] N2 C2 _ _. cbn in A2, B2, D2, F2, G2, N2, E2. apply wp_ret. cbn. rewrite A1. apply HQ; [congruence|congruence|split; [by rewrite B2, Hl|congruence..]|congruence|lia|done].
Qed.

(** ** allocproc *)

(** [freeproc] of an entry that has a trapframe and no page table. *)
Lemma wp_freeproc_bare s i p l (Q : unit -> pst -> Prop) : procs s !! i = Some p -> kinv kend (km s) l -> valid_page kend (trapframe p) -> trapframe p ∉ l -> pagetable p = 0 ->
  (forall m, kinv kend m (trapframe p :: l) -> unchanged_outside [trapframe p] (mem (km s)) (mem m) -> Q tt (set_procs (<[i := emptied p]> (procs s)) (set_km m s))) -> wp (freeproc kend i) Q s.
Proof using Hend.
  intros Hi HK Hv Hn Hpt HQ. pose proof (lookup_lt_Some _ _ _ Hi) as Hlt. assert (truth (trapframe p) = true) as Et by (apply truth_true; by eapply valid_page_nonzero).
  unfold freeproc. apply wp_bind, wp_gets. rewrite (proc_at_lookup _ _ _ Hi), Et. apply wp_bind, wp_zoom, (wp_kfree kend Hend _ l); [done|done|done|]. intros m HK' HO.
  apply wp_bind, wp_upd. cbn [procs set_km]. rewrite (proc_at_lookup (set_km m s) i p Hi). apply wp_bind, wp_gets. rewrite proc_at_in by done. cbn [pagetable psz set_trapframe]. rewrite Hpt.
  apply wp_bind, wp_ret. do 8 (apply wp_bind, wp_upd_in; [done|]). apply wp_upd_in; [done|]. apply HQ; [done|]. intros a Ha. apply HO, Ha. by left.
Qed.

(** The entry that [allocproc] returns. *)
Definition fresh (p : proc) (n tf pt : Z) : proc :=
  set_context (forkret_addr :: wrap64 (kstack p + PGSIZE) :: replicate 12 0) (set_pagetable pt (set_trapframe tf (set_pid n p))).

Record born (s : pst) (l : list Z) (i : nat) (p : proc) (tf : Z) (l' : list Z) (t : ptree) (s' : pst) : Prop := Born {
  bn_entry : procs s !! i = Some p /\ pstate p = UNUSED;
  bn_procs : procs s' = <[i := fresh (set_plock spin_mine p) (nextpid s) tf (root t)]> (procs s);
  bn_user : uvinv kend (km s') l' t [];
  bn_pages : tf :: pt_pages t ++ l' ≡ₚ l;
  bn_tramp : leaf (mem (km s')) t TRAMPOLINE = pte_entry trampoline (Z.lor PTE_R PTE_X);
  bn_frame : leaf (mem (km s')) t TRAPFRAME = pte_entry tf (Z.lor PTE_R PTE_W);
  bn_same : unchanged_outside l (mem (km s)) (mem (km s'));
  bn_pid : nextpid s' = s32 (nextpid s + 1);
  bn_room : (length l <= length l' + 6)%nat;
  bn_rest : others s s' /\ cnoff s' = cnoff s + 1 /\ cpu_ok s' }.

(** No process was made: entries in use are as they were, and so is memory. *)
Record refused (s : pst) (l : list Z) (s' : pst) : Prop := Refused {
  rf_procs : forall j, procs s' !! j = procs s !! j \/
    exists q q', procs s !! j = Some q /\ procs s' !! j = Some q' /\ pstate q = UNUSED /\ pstate q' = UNUSED /\ plock q' = spin_free;
  rf_mem : gave_back (km s) l (km s');
  rf_rest : others s s' /\ cnoff s' = cnoff s /\ cpu_ok s' }.

Lemma refused_insert s s' i p q : procs s !! i = Some p -> pstate p = UNUSED -> pstate q = UNUSED -> plock q = spin_free -> procs s' = <[i := q]> (procs s) ->
  forall j, procs s' !! j = procs s !! j \/
    exists q q', procs s !! j = Some q /\ procs s' !! j = Some q' /\ pstate q = UNUSED /\ pstate q' = UNUSED /\ plock q' = spin_free.
Proof.
  intros Hi Hp Hq Hl E j. rewrite E. destruct (decide (j = i)) as [->|Hne]; [right|left; by apply list_lookup_insert_ne].
  exists p, q. rewrite list_lookup_insert_eq by (by eapply lookup_lt_Some). done.
Qed.

(** Releasing the entry [i] of a table in which nothing else changed. *)
Lemma wp_refuse s0 s i p q l (Q : unit -> pst -> Prop) : procs s0 !! i = Some p -> pstate p = UNUSED -> pstate q = UNUSED -> plock q = spin_mine -> procs s = <[i := q]> (procs s0) ->
  gave_back (km s0) l (km s) -> others s0 s -> cnoff s = cnoff s0 + 1 -> 0 <= cnoff s0 -> cpu_ok s -> (forall s', refused s0 l s' -> Q tt s') -> wp (prelease i) Q s.
Proof.
  intros Hi Hp Hq Hl E HG HO HN H0 HC HQ. pose proof (lookup_lt_Some _ _ _ Hi) as Hlt. pose proof (proc_at_insert s0 s i _ E Hlt) as P.
  apply wp_prelease; [done|lia|by rewrite P|]. intros s' E' R' N' C' _ _. apply HQ. split.
  - eapply (refused_insert s0 s' i p (set_plock spin_free q)); [done|done|done|done|]. by rewrite E', P, E, list_insert_insert_eq.
  - by rewrite (sr_km _ _ R').
  - split; [eapply others_trans; [done|by apply rest_others]|split; [lia|done]].
Qed.

Lemma set_procs_eta s L : procs s = L -> s = set_procs L s.
Proof. intros <-. by destruct s. Qed.

Lemma wp_allocproc s l (Q : option nat -> pst -> Prop) : cpu_ok s -> unlocked s -> pid_lock s = spin_free -> kinv kend (km s) l ->
  (forall s', refused s l s' -> (forall j q, procs s !! j = Some q -> pstate q <> UNUSED) \/ (length l <= 6)%nat -> Q None s') ->
  (forall i p tf l' t s', born s l i p tf l' t s' -> Q (Some i) s') -> wp (allocproc kend trampoline forkret_addr) Q s.
Proof using Hend Htr.
  intros Hc Hu Hpl HK Hno HQ. assert (0 <= cnoff s) as Hn0 by apply Hc. pose proof Hu as [Hlen _]. unfold allocproc. apply wp_bind, wp_find_unused; [done| | |].
  { intros j Hj. split; [by apply (table_in s)|by apply unlocked_at]. }
  { intros s' Hnone E [R N C _]. apply wp_ret, Hno.
    - split; [intros j; left; by rewrite E| |by split; [apply rest_others|]]. exists l. by rewrite (sr_km _ _ R).
    - left. intros j q Hq. rewrite <- (proc_at_lookup _ _ _ Hq). apply Hnone, (table_in s); [done|by eapply lookup_lt_Some]. }
  intros i s1 Hi Hst E1 R1 N1 C1. apply (table_in s) in Hi; [|done]. destruct (lookup_lt_is_Some_2 _ _ Hi) as [p Hp]. rewrite (proc_at_lookup _ _ _ Hp) in *. pose proof (unlocked_at s i Hu) as Hl. rewrite (proc_at_lookup _ _ _ Hp) in Hl.
  apply wp_bind, wp_allocpid; [done|by rewrite (sr_pid_lock _ _ R1)|]. intros s2 E2 I2 O2 K2 N2 C2. rewrite (sr_nextpid _ _ R1) in *. rewrite E1 in E2. pose proof (others_trans _ _ _ (rest_others _ _ R1) O2) as O2'.
  rewrite (sr_km _ _ R1) in K2. rewrite (set_procs_eta s2 _ E2). apply wp_bind, wp_upd_in; [done|]. set (n := nextpid s) in *. set (p1 := set_plock spin_mine p) in *.
  apply wp_bind, wp_zoom, (wp_kalloc kend Hend _ l); [cbn; by rewrite K2| |].
  { intros ->. apply wp_bind. change (set_km ?x (set_procs ?y ?z)) with (set_procs y (set_km x z)). apply wp_upd_in; [done|]. cbn [Z.eqb]. apply wp_bind. eapply (wp_refuse s _ i p _ []); [done|done| | |done| |by destruct O2'| |done|done|].
    - done.
    - done.
    - cbn. rewrite K2. by exists [].
    - cbn. lia.
    - intros s' Hr. apply wp_ret, Hno; [done|right; cbn; lia]. }
  intros tf l1 m1 -> HK1 Htf Hn1 Hm1. change (set_km ?x (set_procs ?y ?z)) with (set_procs y (set_km x z)). apply wp_bind, wp_upd_in; [done|]. pose proof (valid_page_nonzero kend Hend tf Htf). replace (tf =? 0) with false by lia.
  set (p2 := set_trapframe tf _). set (s3 := set_procs _ _). assert (proc_at s3 i = p2) as P3 by (by apply proc_at_in).
  assert (unchanged_outside [tf] (mem (km s)) (mem m1)) as U1. { intros a Ha. rewrite <- K2, Hm1. rewrite decide_False; [by cbn; rewrite K2|]. apply Ha. by left. }
  apply wp_bind, (wp_proc_pagetable s3 i l1 tf); [done|by rewrite P3|done| |].
  - intros m (l2 & HK2 & HP2 & U2) Nr. change (set_km m s3) with (set_procs (<[i := p2]> (procs s)) (set_km m (set_km m1 s2))). apply wp_bind, wp_upd_in; [done|]. cbn [Z.eqb]. set (p3 := set_pagetable 0 p2).
    apply wp_bind, (wp_freeproc_bare _ i p3 l2).
    + cbn [procs set_procs]. by rewrite list_lookup_insert_eq.
    + done.
    + done.
    + change (trapframe p3) with tf. by rewrite HP2.
    + done.
    + intros m3 HK3 U3. change (trapframe p3) with tf in *. cbn [procs set_procs]. rewrite list_insert_insert_eq. apply wp_bind. eapply (wp_refuse s _ i p _ (tf :: l1)); [done|done| | |done| |by destruct O2'| |done|done|].
      * done.
      * done.
      * exists (tf :: l2). split; [done|]. split; [by rewrite HP2|]. cbn [km set_procs set_km]. eapply (outside_trans (tf :: l1)); [eapply (outside_trans (tf :: l1)); [exact U1|exact U2|set_solver|set_solver]|exact U3|set_solver|set_solver].
      * cbn. lia.
      * intros s' Hr. apply wp_ret, Hno; [done|right; cbn; lia].
  - intros m l2 t [HU HP Ltr Ltf U2 Nr]. change (set_km m s3) with (set_procs (<[i := p2]> (procs s)) (set_km m (set_km m1 s2))). apply wp_bind, wp_upd_in; [done|].
    assert (root t =? 0 = false) as ->. { apply Z.eqb_neq, (valid_page_nonzero kend Hend). apply HU. apply elem_of_pt_pages. by left. }
    apply wp_bind, wp_upd_in; [done|]. apply wp_ret. apply (HQ i p tf l2 t). split; [done|done|done|by rewrite HP|done|done| |done|cbn; lia|].
    + cbn [km set_procs set_km]. eapply outside_trans; [exact U1|exact U2| |]; set_solver.
    + split; [by destruct O2'|]. cbn. split; [lia|done].
Qed.
End birth.
