(* ===== verification/Fork.v ===== *)
(** * fork (kernel/proc.c)

    The child of a process: a copy of its memory and of its registers, its
    open files and its directory, in a free entry of the table.  A failure
    leaves everything as it was. *)

From S2P Require Import Prelude Riscv Memory Spinlock Kalloc Vm PageTable VmMap UserVm UvmCopy VmFree VmCopy Hart Proc ProcProof UserCall Block BlockCache Log Tx CopyIO Fs Console Virtio File PipeProof Kernel ProcLife ProcBirth.

(** ** The memory of parent and child *)

Lemma pte_flag v f : 0 <= f < 1024 -> pte_has v f = pte_has (PTE_FLAGS v) f.
Proof.
  intros Hf. unfold pte_has, PTE_FLAGS. rewrite <- Z.land_assoc. do 2 f_equal. rewrite Z.land_comm. change 0x3FF with (Z.ones 10). rewrite Z.land_ones by lia. symmetry. apply Z.mod_small. lia.
Qed.

Section space.
Context (kend : Z) (Hend : 0 < kend).

(** The parent while the child's pages are made from the free ones. *)
Lemma parent_frame m l t D p tf m' l' tn : pspace kend m l t D p -> unchanged_outside l (mem m) (mem m') -> uvinv kend m' l' tn [] -> tf :: pt_pages tn ++ l' ≡ₚ l ->
  uvinv kend m' l' t D /\ NoDup (D ++ pt_pages t ++ pt_pages tn ++ l') /\ (forall va, leaf (mem m') t va = leaf (mem m) t va) /\
  forall q b, q ∈ trapframe p :: D ++ pt_pages t -> in_page q b -> load8 (mem m') b = load8 (mem m) b.
Proof.
  intros [HU _ _ _ (_ & Htf & Hn)] Hu HUn HP. pose proof HU as ((HK & _ & _ & Hv) & _ & Hnd & HvD & _). rewrite Forall_forall in HvD.
  assert (forall q b, q ∈ trapframe p :: D ++ pt_pages t -> in_page q b -> load8 (mem m') b = load8 (mem m) b) as Hkeep.
  { intros q b Hq Hb. apply Hu. intros q' Hq' Hb'. assert (valid_page kend q /\ q ∉ l) as [Hvq Hql].
    { apply elem_of_cons in Hq as [->|Hq]; [split; [done|]; rewrite !elem_of_app in Hn; tauto|]. split; [apply elem_of_app in Hq as [Hq|Hq]; [by apply HvD|by apply Hv]|].
      rewrite (assoc_L (++)) in Hnd. apply NoDup_app in Hnd as (_ & Hd & _). by apply Hd. }
    apply Hql. replace q with q'; [done|]. apply (in_page_disjoint q' q b); [|apply Hvq|done|done]. by apply (free_valid kend m l q'). }
  assert (NoDup (D ++ pt_pages t ++ tf :: pt_pages tn ++ l')) as Hnd' by (by rewrite HP).
  assert (NoDup (tf :: D ++ pt_pages t ++ pt_pages tn ++ l')) as [_ Hnd2]%NoDup_cons by (revert Hnd'; apply NoDup_Permutation_proper; solve_Permutation).
  destruct (uvinv_frame kend m m' l l' t D HU) as [HU' Hl]; [apply HUn| | |].
  - assert (NoDup (pt_pages tn ++ D ++ pt_pages t ++ l')) as (_ & _ & ?)%NoDup_app; [|done]. revert Hnd2. apply NoDup_Permutation_proper. solve_Permutation.
  - intros q b Hq. apply Hkeep. right. apply elem_of_app. by right.
  - done.
Qed.

(** The user memory is that of the pages [D]. *)
Lemma ubyte_keep m l t D m' va : uvinv kend m l t D -> (forall va, leaf (mem m') t va = leaf (mem m) t va) -> 0 <= va < TRAPFRAME ->
  (forall q b, q ∈ D -> in_page q b -> load8 (mem m') b = load8 (mem m) b) -> ubyte (mem m') t va = ubyte (mem m) t va.
Proof.
  intros (_ & [Hmap Hno] & _) Hl Hva Hb. pose proof TRAPFRAME_val as HT. unfold ubyte, upa, page_pa. rewrite Hl. rewrite !decide_True by (change MAXVA with (2^38); lia).
  destruct (decide (va < Z.of_nat (length D) * PGSIZE)) as [Hlt|Hge]; [|by rewrite Hno by lia]. assert (Z.to_nat (va / PGSIZE) < length D)%nat as Hk by (unfold PGSIZE in *; dlia).
  destruct (lookup_lt_is_Some_2 _ _ Hk) as [q Hq]. destruct (Hmap _ _ Hq) as (HV & _ & HP). replace (Z.of_nat (Z.to_nat (va / PGSIZE)) * PGSIZE) with (va - va mod PGSIZE) in * by (unfold PGSIZE; dlia).
  rewrite !(leaf_page _ _ (va - va mod PGSIZE) va) in * by (change MAXVA with (2^38) in *; unfold PGSIZE in *; dlia || (split; dlia)). rewrite HV, HP. cbn [andb].
  destruct (pte_has (leaf (mem m) t va) PTE_U); [|done]. cbn. f_equal. apply (Hb q); [by eapply list_elem_of_lookup_2|]. unfold in_page, PGSIZE. dlia.
Qed.

(** After [uvmcopy] both see the same bytes. *)
Lemma copied_ubyte m0 l0 t tn D m l t' D' va : uvinv kend m0 l0 t D -> copied kend m0 l0 t tn D m l t' D' -> length D' = length D -> 0 <= va < TRAPFRAME ->
  ubyte (mem m) t' va = ubyte (mem m0) t va.
Proof.
  intros (_ & [Hmap Hno] & _) (HU & _ & _ & _ & _ & Hc) Hlen Hva. pose proof HU as (_ & [Hmap' Hno'] & _). pose proof TRAPFRAME_val as HT.
  unfold ubyte, upa, page_pa. rewrite !decide_True by (change MAXVA with (2^38); lia). destruct (decide (va < Z.of_nat (length D) * PGSIZE)) as [Hlt|Hge].
  2:{ rewrite Hno, Hno' by (rewrite ?Hlen; lia). done. }
  assert (Z.to_nat (va / PGSIZE) < length D')%nat as Hk by (rewrite Hlen; unfold PGSIZE in *; dlia). destruct (lookup_lt_is_Some_2 _ _ Hk) as [p Hp].
  destruct (Hc _ _ Hp) as (q & Hq & Hfl & Hb). destruct (Hmap' _ _ Hp) as (HV' & _ & HP'), (Hmap _ _ Hq) as (HV & _ & HP). replace (Z.of_nat (Z.to_nat (va / PGSIZE)) * PGSIZE) with (va - va mod PGSIZE) in * by (unfold PGSIZE; dlia).
  rewrite !(leaf_page _ _ (va - va mod PGSIZE) va) in * by (change MAXVA with (2^38) in *; unfold PGSIZE in *; dlia || (split; dlia)). rewrite HV, HV', HP, HP'. cbn [andb].
  rewrite (pte_flag _ PTE_U), Hfl, <- pte_flag by done. destruct (pte_has (leaf (mem m0) t va) PTE_U); [|done]. cbn. f_equal. apply Hb. unfold PGSIZE. dlia.
Qed.
End space.

(** ** The child's address space and registers *)

Lemma load8_storen_zero n : forall m a b, a <= b < a + Z.of_nat n -> load8 (storen n m a 0) b = 0.
Proof.
  induction n as [|n IH]; intros m a b Hb; [lia|]. cbn [storen]. change (0 / 256) with 0. destruct (decide (b = a)) as [->|Hne]; [|apply IH; lia].
  rewrite load8_storen_ne by lia. by rewrite load8_store8_eq.
Qed.

(** The trapframe at [tf] becomes that of [p], with 0 in [a0]. *)
Definition fork_frame (tf tp : Z) (m : kst) : kst :=
  set_mem (store64 (memmove (mem m) tf tp TF_SIZE) (tf + TF_A0) 0) m.

Lemma fork_frame_out tf tp m a : mem_wf (mem m) -> ~ in_page tf a -> load8 (mem (fork_frame tf tp m)) a = load8 (mem m) a.
Proof.
  intros Hw Ha. unfold fork_frame, in_page, PGSIZE, TF_SIZE, TF_A0 in *. cbn [mem set_mem]. rewrite load8_store64_ne by lia. rewrite load8_memmove by (done || lia). by rewrite decide_False by lia.
Qed.
Lemma fork_frame_in tf tp m o : mem_wf (mem m) -> 0 <= o < TF_SIZE ->
  load8 (mem (fork_frame tf tp m)) (tf + o) = if decide (TF_A0 <= o < TF_A0 + 8) then 0 else load8 (mem m) (tp + o).
Proof.
  intros Hw Ho. unfold fork_frame, TF_SIZE, TF_A0 in *. cbn [mem set_mem]. case_decide as Hd.
  - apply (load8_storen_zero 8). lia.
  - rewrite load8_store64_ne by lia. rewrite load8_memmove by (done || lia). rewrite decide_True by lia. f_equal. lia.
Qed.
Lemma fork_frame_wf tf tp m : mem_wf (mem m) -> mem_wf (mem (fork_frame tf tp m)).
Proof. intros Hw. apply store64_wf, memmove_wf; [done|]. unfold TF_SIZE. lia. Qed.

Section child.
Context (kend trampoline : Z) (Hend : 0 < kend) (Htr : page_aligned trampoline /\ 0 <= trampoline < 2^55).

(** A kernel page is not accessible. *)
Lemma kernel_entry pa perm : page_aligned pa -> 0 <= pa < 2^55 -> perm = Z.lor PTE_R PTE_X \/ perm = Z.lor PTE_R PTE_W ->
  leaf_maps (pte_entry pa perm) pa /\ pte_has (pte_entry pa perm) PTE_U = false.
Proof.
  intros Ha Hr Hp. destruct (pte_entry_facts pa perm) as (_ & E1 & E2 & E3); [done|lia|by destruct Hp as [->| ->]|]. rewrite (pte_flag _ PTE_U) by done. unfold leaf_maps. rewrite E1, E2, E3.
  by destruct Hp as [->| ->].
Qed.

Record childspace (m0 : kst) (l : list Z) (t : ptree) (p : proc) (tf : Z) (m : kst) (l' : list Z) (t' : ptree) (D' : list Z) : Prop := ChildSpace {
  cs_user : user_ok kend m l' t' D';
  cs_frame : leaf_maps (leaf (mem m) t' TRAPFRAME) tf;
  cs_tramp : leaf_maps (leaf (mem m) t' TRAMPOLINE) trampoline;
  cs_pages : tf :: D' ++ pt_pages t' ++ l' ≡ₚ l;
  cs_same : unchanged_outside l (mem m0) (mem m);
  cs_bytes : forall va, 0 <= va < TRAPFRAME -> ubyte (mem m) t' va = ubyte (mem m0) t va;
  cs_regs : forall o, 0 <= o < TF_SIZE -> load8 (mem m) (tf + o) = if decide (TF_A0 <= o < TF_A0 + 8) then 0 else load8 (mem m0) (trapframe p + o) }.

Context (m0 : kst) (l : list Z) (t : ptree) (D : list Z) (p : proc) (Hp : pspace kend m0 l t D p).
Context (tf : Z) (m1 : kst) (l1 : list Z) (tn : ptree) (HUn : uvinv kend m1 l1 tn []) (HP : tf :: pt_pages tn ++ l1 ≡ₚ l) (Hsame : unchanged_outside l (mem m0) (mem m1)).
Context (Ltr : leaf (mem m1) tn TRAMPOLINE = pte_entry trampoline (Z.lor PTE_R PTE_X)) (Ltf : leaf (mem m1) tn TRAPFRAME = pte_entry tf (Z.lor PTE_R PTE_W)).

Lemma tf_valid : valid_page kend tf /\ 0 <= tf < 2^55.
Proof using Hp HP Hend.
  assert (valid_page kend tf) as Hv. { apply (free_valid kend m0 l); [apply Hp|]. rewrite <- HP. by left. }
  split; [done|]. destruct Hv as [_ ?]. change PHYSTOP with 0x88000000 in *. lia.
Qed.

Lemma copied_tops m2 l2 t2 D2 : copied kend m1 l1 t tn D m2 l2 t2 D2 ->
  leaf_maps (leaf (mem m2) t2 TRAPFRAME) tf /\ leaf_maps (leaf (mem m2) t2 TRAMPOLINE) trampoline /\ forall va, TRAPFRAME <= va < MAXVA -> pte_has (leaf (mem m2) t2 va) PTE_U = false.
Proof using Hp HP Hend Ltr Ltf Htr.
  intros (_ & _ & _ & _ & Ht & _). destruct tf_valid as [[Ha _] Hr]. destruct (kernel_entry tf (Z.lor PTE_R PTE_W)) as [A1 A2]; [done|done|by right|]. destruct Htr. destruct (kernel_entry trampoline (Z.lor PTE_R PTE_X)) as [B1 B2]; [done|done|by left|].
  rewrite !Ht, Ltr, Ltf by done. splits; [done|done|]. intros va Hva. rewrite Ht by done. destruct (decide (va < TRAMPOLINE)) as [Hlt|Hge].
  - rewrite (leaf_page _ _ va TRAPFRAME), Ltf; [done|rewrite TRAPFRAME_val in *; lia|done|]. rewrite TRAPFRAME_val in *. change TRAMPOLINE with (2^38 - 4096) in Hlt. unfold PGSIZE. dlia.
  - rewrite (leaf_page _ _ va TRAMPOLINE), Ltr; [done|rewrite TRAPFRAME_val in *; lia|done|]. change MAXVA with (2^38) in Hva. change TRAMPOLINE with (2^38 - 4096) in *. unfold PGSIZE. dlia.
Qed.

Lemma copied_nodup m2 l2 t2 D2 : copied kend m1 l1 t tn D m2 l2 t2 D2 -> tf :: D2 ++ pt_pages t2 ++ l2 ≡ₚ l /\ tf ∉ D2 ++ pt_pages t2 ++ l2.
Proof using Hp HP.
  intros (_ & _ & HP2 & _). assert (tf :: D2 ++ pt_pages t2 ++ l2 ≡ₚ l) as E by (by rewrite HP2, HP). split; [done|].
  assert (NoDup l) as Hnd by (apply Hp). rewrite <- E in Hnd. by apply NoDup_cons in Hnd as [? _].
Qed.

Lemma child_space m2 l2 t2 D2 : copied kend m1 l1 t tn D m2 l2 t2 D2 -> length D2 = length D -> childspace m0 l t p tf (fork_frame tf (trapframe p) m2) l2 t2 D2.
Proof using Type*.
  intros HC Hlen. destruct (copied_tops _ _ _ _ HC) as (Tf & Tr & Hno). destruct (copied_nodup _ _ _ _ HC) as [HP2 Htf]. destruct tf_valid as [Hv Hr].
  destruct (parent_frame kend m0 l t D p tf m1 l1 tn Hp Hsame HUn HP) as (HUo & Hd & Hl & Hkeep). pose proof HC as (HU2 & _ & _ & U2 & _). assert (mem_wf (mem m2)) as Hw by apply HU2.
  pose proof (fun a => fork_frame_out tf (trapframe p) m2 a Hw) as Hout. rewrite !not_elem_of_app in Htf.
  destruct (uvinv_write kend m2 (fork_frame tf (trapframe p) m2) l2 t2 D2 tf HU2 Hv) as [HU3 Hl3]; [rewrite not_elem_of_app; tauto|done|by apply fork_frame_wf|exact Hout|].
  assert (user_ok kend (fork_frame tf (trapframe p) m2) l2 t2 D2) as HO by (split; [done|]; intros va Hva; rewrite Hl3; by apply Hno). split; [done|by rewrite Hl3|by rewrite Hl3|done| | |].
  - intros a Ha. rewrite Hout by (apply Ha; rewrite <- HP; by left). rewrite U2, Hsame; [done|done|]. intros q Hq. apply Ha. rewrite <- HP. by right.
  - intros va Hva. rewrite (ubyte_keep kend m2 l2 t2 D2 _ va HU2 Hl3 Hva), (copied_ubyte kend m1 l1 t tn D m2 l2 t2 D2 va HUo HC Hlen Hva).
    + apply (ubyte_keep kend m0 l t D); [apply Hp|done|done|]. intros q b Hq. apply Hkeep. right. apply elem_of_app. by left.
    + intros q b Hq Hb. apply Hout. intros Hb'. apply (proj1 Htf). replace tf with q; [done|]. apply (in_page_disjoint q tf b); [|apply Hv|done|done].
      destruct HU2 as (_ & _ & _ & HvD & _). rewrite Forall_forall in HvD. by apply HvD.
  - intros o Ho. rewrite fork_frame_in by done. case_decide; [done|]. destruct Hp as [_ _ _ _ (_ & Hvp & Hnp)].
    assert (in_page (trapframe p) (trapframe p + o)) as Hin by (unfold in_page, TF_SIZE, PGSIZE in *; lia). rewrite U2; [apply (Hkeep (trapframe p)); [by left|done]|].
    intros q Hq Hin'. rewrite !not_elem_of_app in Hnp. apply (proj2 (proj2 Hnp)). rewrite <- HP. right. replace (trapframe p) with q; [done|]. apply (in_page_disjoint q (trapframe p) (trapframe p + o)); [|apply Hvp|done|done].
    apply elem_of_app in Hq as [Hq|Hq]; [by apply HUn|]. by apply (free_valid kend m1 l1); [apply HUn|].
Qed.
End child.

(** ** The open files *)

(** How many descriptors in [L] are of the open file [f]. *)
Definition refs_to (f : nat) (L : list (option nat)) : Z := Z.of_nat (length (filter (fun o => o = Some f) L)).
(** The table of open files with a reference more for each descriptor in [L]. *)
Definition dup_refs (L : list (option nat)) (fs : list file) : list file := imap (fun f x => set_fref (fref x + refs_to f L) x) fs.

Lemma refs_to_snoc f L o : refs_to f (L ++ [o]) = refs_to f L + (if decide (o = Some f) then 1 else 0).
Proof. unfold refs_to. rewrite filter_app, length_app, filter_cons, filter_nil. case_decide; cbn; lia. Qed.
Lemma refs_to_bound f L : 0 <= refs_to f L <= Z.of_nat (length L).
Proof. unfold refs_to. pose proof (length_filter (fun o => o = Some f) L). lia. Qed.

Lemma set_fref_id x : set_fref (fref x) x = x.
Proof. by destruct x. Qed.
Lemma dup_refs_nil fs : dup_refs [] fs = fs.
Proof. apply list_eq. intros f. unfold dup_refs. rewrite list_lookup_imap. destruct (fs !! f) as [x|]; [|done]. cbn. by rewrite Z.add_0_r, set_fref_id. Qed.
Lemma dup_refs_none L fs : dup_refs (L ++ [None]) fs = dup_refs L fs.
Proof. unfold dup_refs. apply list_eq. intros f. rewrite !list_lookup_imap. destruct (fs !! f) as [x|]; [|done]. cbn. rewrite refs_to_snoc, decide_False by done. by rewrite Z.add_0_r. Qed.
Lemma dup_refs_some L fs f x : dup_refs L fs !! f = Some x -> dup_refs (L ++ [Some f]) fs = <[f := set_fref (fref x + 1) x]> (dup_refs L fs).
Proof.
  intros Hx. apply list_eq. intros g. destruct (decide (g = f)) as [->|Hne].
  - rewrite list_lookup_insert_eq by (by eapply lookup_lt_Some). unfold dup_refs in *. rewrite list_lookup_imap in *. destruct (fs !! f) as [y|]; [|done]. cbn in *. injection Hx as <-.
    rewrite refs_to_snoc, decide_True by done. cbn. by rewrite Z.add_assoc.
  - rewrite list_lookup_insert_ne by done. unfold dup_refs. rewrite !list_lookup_imap. destruct (fs !! g) as [y|]; [|done]. cbn. rewrite refs_to_snoc, decide_False by congruence. by rewrite Z.add_0_r.
Qed.

Section files.
Context {T : Type} `{!TxOps T}.
Abbreviation kern := (kern T).

Lemma set_ft_lock_id (k : kern) : ft_lock k = spin_free -> set_ft_lock spin_free k = k.
Proof. destruct k. cbn. by intros ->. Qed.

Lemma wp_filedup (k : kern) f (Q : nat -> kern -> Prop) : cpu_ok (ps k) -> ft_lock k = spin_free -> 1 <= fref (file_at k f) < 2^31 - 1 ->
  (forall s, procs s = procs (ps k) -> same_rest (ps k) s -> cnoff s = cnoff (ps k) -> cpu_ok s ->
     Q f (set_files (<[f := set_fref (fref (file_at k f) + 1) (file_at k f)]> (files k)) (set_ps s k))) -> wp (filedup f) Q k.
Proof.
  intros Hc Hl Hf HQ. assert (0 <= cnoff (ps k)) by apply Hc. unfold filedup, ft_acquire, ft_release, k_acquire, k_release. apply wp_bind, wp_bind, wp_on_p, wp_push; [done|]. intros s1 E1 R1 N1 C1 _ _.
  apply wp_spin_acquire; [done|]. apply wp_bind, wp_gets. change (file_at (set_ft_lock _ (set_ps s1 k)) f) with (file_at k f). replace (fref (file_at k f) <? 1) with false by lia.
  apply wp_bind, wp_modify, wp_bind, wp_bind, wp_spin_release; [done|]. apply wp_on_p, wp_pop; [done|cbn; lia|]. intros s2 E2 R2 N2 C2 _ _. apply wp_ret. cbn in E2, N2.
  assert (same_rest (ps k) s2) as R by (eapply same_rest_trans; [exact R1|exact R2]). specialize (HQ s2 ltac:(congruence) R ltac:(lia) C2).
  change (file_at (set_ft_lock _ (set_ps s1 k)) f) with (file_at k f). rewrite s32_small by lia. rewrite <- (set_ft_lock_id k Hl) in HQ at 4. exact HQ.
Qed.

Lemma wp_fork_files (k : kern) i np p ch (Q : unit -> kern -> Prop) : cpu_ok (ps k) -> ft_lock k = spin_free -> procs (ps k) !! i = Some p -> procs (ps k) !! np = Some ch -> i <> np ->
  length (ofile p) = Z.to_nat NOFILE -> ofile ch = replicate (Z.to_nat NOFILE) None -> (forall f, Some f ∈ ofile p -> 1 <= fref (file_at k f) /\ fref (file_at k f) + NOFILE < 2^31) ->
  (forall s, procs s = <[np := set_ofile (ofile p) ch]> (procs (ps k)) -> same_rest (ps k) s -> cnoff s = cnoff (ps k) -> cpu_ok s -> Q tt (set_files (dup_refs (ofile p) (files k)) (set_ps s k))) ->
  wp (fork_files i np) Q k.
Proof.
  intros Hc Hl Hi Hnp Hne Hlen Hch Hf HQ. change (Z.to_nat NOFILE) with 16%nat in *. pose proof (lookup_lt_Some _ _ _ Hnp) as Lnp. set (L := ofile p) in *.
  set (inv := fun (rest : list nat) (k' : kern) => exists j s, rest = drop j (seq 0 16) /\ (j <= 16)%nat /\ k' = set_files (dup_refs (take j L) (files k)) (set_ps s k) /\
    procs s = <[np := set_ofile (take j L ++ replicate (16 - j) None) ch]> (procs (ps k)) /\ same_rest (ps k) s /\ cnoff s = cnoff (ps k) /\ cpu_ok s).
  eapply wp_conseq; [apply (wp_for_each _ inv)|].
  - intros fd rest k1 (j & s & Er & Hj & -> & Es & Rs & Ns & Cs). assert (seq 0 16 !! j = Some fd) as Hfd by (rewrite <- (Nat.add_0_r j), <- lookup_drop, <- Er; done).
    apply lookup_seq in Hfd as [-> Hj2]. rewrite Nat.add_0_l in *. destruct (lookup_lt_is_Some_2 L j ltac:(lia)) as [o Ho]. pose proof (take_S_r L j o Ho) as Et.
    assert (rest = drop (S j) (seq 0 16)) as Er' by (rewrite (drop_S (seq 0 16) j j) in Er by (by apply lookup_seq); congruence).
    assert (replicate (16 - j) (@None nat) = None :: replicate (16 - S j) None) as Erep by (replace (16 - j)%nat with (S (16 - S j)) by lia; done).
    apply wp_bind, wp_on_p_gets. change (ps (set_files _ (set_ps s k))) with s. rewrite (proc_at_lookup s i p) by (by rewrite Es, list_lookup_insert_ne). fold L. rewrite Ho. cbn [mjoin option_join]. destruct o as [f|].
    + assert (Some f ∈ L) as HfL by (by eapply list_elem_of_lookup_2). destruct (Hf f HfL) as [Hf1 Hf2]. assert (exists x, files k !! f = Some x) as [x Hx].
      { unfold file_at in Hf1. destruct (files k !! f) as [x|]; [by exists x|]. cbn in Hf1. lia. }
      pose proof (refs_to_bound f (take j L)) as Hb. rewrite length_take in Hb. unfold file_at in Hf1, Hf2. rewrite Hx in Hf1, Hf2. cbn [default id] in Hf1, Hf2. change NOFILE with 16 in Hf2.
      set (x1 := set_fref (fref x + refs_to f (take j L)) x). assert (dup_refs (take j L) (files k) !! f = Some x1) as Hx1 by (unfold dup_refs; rewrite list_lookup_imap, Hx; done).
      set (k1 := set_files _ (set_ps s k)). assert (file_at k1 f = x1) as Ef by (unfold file_at, k1; cbn [files set_files]; by rewrite Hx1).
      apply wp_bind, wp_filedup; [done|done|rewrite Ef; cbn; lia|]. intros s2 E2 R2 N2 C2. rewrite Ef. apply wp_on_p, wp_upd. change (ps (set_files _ (set_ps s2 k1))) with s2. set (s3 := set_procs _ s2).
      exists (S j), s3. splits; [done|lia| | |eapply same_rest_trans; [exact Rs|]; by destruct R2|by unfold s3; cbn; rewrite N2|done].
      * rewrite Et. rewrite (dup_refs_some _ _ f x1 Hx1). done.
      * change (ps k1) with s in E2. rewrite Es in E2. unfold s3. cbn [procs set_procs]. rewrite (proc_at_insert (ps k) s2 np _ E2 Lnp), E2, list_insert_insert_eq. cbn [ofile set_ofile].
        rewrite Erep, Et, <- (assoc_L (++)), insert_app_r_alt by (rewrite length_take; lia). rewrite length_take, Nat.min_l, Nat.sub_diag by lia. done.
    + apply wp_ret. exists (S j), s. splits; [done|lia| | |done|done|done].
      * by rewrite Et, dup_refs_none.
      * by rewrite Es, Erep, Et, <- (assoc_L (++)).
  - exists O, (ps k). splits; [done|lia| | |done|done|done].
    + rewrite take_0, dup_refs_nil. by destruct k as [[]].
    + cbn [take app]. rewrite Nat.sub_0_r, <- Hch. symmetry. rewrite list_insert_id; [done|]. rewrite Hnp. by destruct ch.
  - intros [] k1 (j & s & Er & Hj & -> & Es & Rs & Ns & Cs). assert (j = 16)%nat as -> by (apply (f_equal length) in Er; rewrite length_drop, length_seq in Er; cbn in Er; lia).
    rewrite take_ge in * by lia. cbn [Nat.sub replicate] in Es. rewrite app_nil_r in Es. by apply HQ.
Qed.
End files.

(** ** fork *)

(** An entry of the table that is not in use, as [freeproc] and the loader leave
    it. *)
Definition vacant (q : proc) : Prop := psz q = 0 /\ ofile q = replicate (Z.to_nat NOFILE) None.

Section fork.
Context {T : Type} `{!TxOps T}.
Context (kend trampoline forkret_addr : Z) (Hend : 0 < kend) (Htr : page_aligned trampoline /\ 0 <= trampoline < 2^55).
Abbreviation kern := (kern T).

(** Process [i] = [p] calls [fork]: its address space is [t] over the pages [D],
    its directory [c], and [l] are the free pages. *)
Record forking (k : kern) (i : nat) (p : proc) (l : list Z) (t : ptree) (D : list Z) (c : nat) : Prop := Forking {
  fk_cpu : cpu_ok (ps k);
  fk_unlocked : unlocked (ps k);
  fk_locks : pid_lock (ps k) = spin_free /\ ft_lock k = spin_free /\ ic_lock (kfs k) = spin_free;
  fk_self : cproc (ps k) = Some i /\ procs (ps k) !! i = Some p /\ pstate p <> UNUSED;
  fk_space : pspace kend (km (ps k)) l t D p;
  fk_files : length (ofile p) = Z.to_nat NOFILE /\ forall f, Some f ∈ ofile p -> 1 <= fref (file_at k f) /\ fref (file_at k f) + NOFILE < 2^31;
  fk_cwd : cwd p = Some c;
  fk_vacant : forall j q, procs (ps k) !! j = Some q -> pstate q = UNUSED -> vacant q }.

(** The entry of the child, made from the free entry [q]. *)
Definition child_of (i : nat) (p q : proc) (n tf pt : Z) : proc :=
  Proc spin_free RUNNABLE (Some i) (chan q) (killed q) (xstate q) n (kstack q) (psz p) pt tf
    (forkret_addr :: wrap64 (kstack q + PGSIZE) :: replicate 12 0) (ofile p) (cwd p) (safestrcpy_l 15 (pname q) (pname p)).

Record forked (k : kern) (i : nat) (p : proc) (l : list Z) (t : ptree) (c : nat) (np : nat) (q : proc) (tf : Z) (l' : list Z) (t' : ptree) (D' : list Z) (k' : kern) : Prop := Forked {
  fd_entry : procs (ps k) !! np = Some q /\ pstate q = UNUSED;
  fd_procs : procs (ps k') = <[np := child_of i p q (nextpid (ps k)) tf (root t')]> (procs (ps k));
  fd_space : pspace kend (km (ps k')) l' t' D' (child_of i p q (nextpid (ps k)) tf (root t'));
  fd_child : childspace kend trampoline (km (ps k)) l t p tf (km (ps k')) l' t' D';
  fd_files : files k' = dup_refs (ofile p) (files k);
  fd_inodes : inodes (kfs k') = <[c := set_iref (iref (inode_at (kfs k) c) + 1) (inode_at (kfs k) c)]> (inodes (kfs k));
  fd_pid : nextpid (ps k') = s32 (nextpid (ps k) + 1);
  fd_rest : others (ps k) (ps k') /\ cnoff (ps k') = cnoff (ps k) /\ cpu_ok (ps k');
  fd_locks : ft_lock k' = spin_free /\ ic_lock (kfs k') = spin_free }.

(** What [fork] does when the child's memory is there. *)
Definition fork_finish (i np : nat) (p q : proc) : M kern Z :=
  on_p (upd_proc np (set_psz (psz p))) ;;
  on_p (upd_proc np (set_parent (Some i))) ;;
  on_p (on_km (kmemmove (trapframe q) (trapframe p) TF_SIZE)) ;;
  tf_store q TF_A0 0 ;;
  fork_files i np ;;
  let! c := on_p (deref (cwd p)) in
  let! c := on_fs (idup c) in
  on_p (upd_proc np (set_cwd (Some c))) ;;
  on_p (upd_proc np (setname (pname p))) ;;
  let! q := on_p (get_proc np) in
  on_p (upd_proc np (set_pstate RUNNABLE)) ;;
  on_p (prelease np) ;;
  ret (pid q).

Lemma refused_start s s1 l s' : procs s1 = procs s -> same_rest s s1 -> cnoff s1 = cnoff s -> refused kend s1 l s' -> refused kend s l s'.
Proof. intros E R N [H1 H2 (H3 & H4 & H5)]. rewrite E, (sr_km _ _ R), N in *. split; [done|done|]. split; [eapply others_trans; [apply rest_others; exact R|done]|done]. Qed.

Lemma wp_in_ps {A} (c : M pst A) (Q : A -> kern -> Prop) s k : wp c (fun a s' => Q a (set_ps s' k)) s -> wp (on_p c) Q (set_ps s k).
Proof. intros H. by apply wp_on_p. Qed.

Lemma wp_fork_idup (s : fs_t T pst) c (Q : nat -> fs_t T pst -> Prop) : ic_lock s = spin_free ->
  Q c (set_inodes (<[c := set_iref (iref (inode_at s c) + 1) (inode_at s c)]> (inodes s)) s) -> wp (idup c) Q s.
Proof.
  intros Hl HQ. unfold idup. apply wp_bind, wp_spin_acquire; [done|]. apply wp_bind, wp_modify, wp_bind, wp_spin_release; [done|]. apply wp_ret.
  destruct s. cbn in *. by subst.
Qed.

Lemma fork_finish_spec (k k1 : kern) i p l t D c np q tf l1 tn m2 l2 t2 D2 : forking k i p l t D c ->
  procs (ps k) !! np = Some q -> pstate q = UNUSED -> np <> i -> uvinv kend (km (ps k1)) l1 tn [] -> tf :: pt_pages tn ++ l1 ≡ₚ l -> unchanged_outside l (mem (km (ps k))) (mem (km (ps k1))) ->
  leaf (mem (km (ps k1))) tn TRAMPOLINE = pte_entry trampoline (Z.lor PTE_R PTE_X) -> leaf (mem (km (ps k1))) tn TRAPFRAME = pte_entry tf (Z.lor PTE_R PTE_W) ->
  copied kend (km (ps k1)) l1 t tn D m2 l2 t2 D2 -> length D2 = length D ->
  k1 = set_ps (ps k1) k -> procs (ps k1) = <[np := fresh forkret_addr (set_plock spin_mine q) (nextpid (ps k)) tf (root tn)]> (procs (ps k)) ->
  nextpid (ps k1) = s32 (nextpid (ps k) + 1) -> others (ps k) (ps k1) -> cnoff (ps k1) = cnoff (ps k) + 1 -> cpu_ok (ps k1) ->
  wp (fork_finish i np p (fresh forkret_addr (set_plock spin_mine q) (nextpid (ps k)) tf (root tn)))
     (fun r k' => r = nextpid (ps k) /\ forked k i p l t c np q tf l2 t2 D2 k') (set_ps (set_km m2 (ps k1)) k1).
Proof using Hend Htr.
  intros Hfk Hq Hqu Hne HUn HP Hsame Ltr Ltf HC HD Ek1 E1 I1 O1 N1 C1. pose proof Hfk as [Hc Hu (Hpl & Hfl & Hil) (Hcur & Hi & Hst) Hsp [Hlen Hf] Hcwd Hvac]. pose proof (lookup_lt_Some _ _ _ Hq) as Lnp. assert (0 <= cnoff (ps k)) by apply Hc.
  set (q1 := fresh _ _ _ _ _) in *. rewrite Ek1. set (s1 := ps k1) in *. clearbody s1. clear k1 Ek1. cbn [ps set_ps] in *. destruct (Hvac np q Hq Hqu) as [Hq0 Hqf].
  change (set_ps (set_km m2 _) (set_ps s1 k)) with (set_ps (set_km m2 s1) k). rewrite (set_procs_eta s1 _ E1). change (set_km m2 (set_procs ?L ?s)) with (set_procs L (set_km m2 s)). unfold fork_finish.
  do 2 (apply wp_bind, wp_in_ps, wp_upd_in; [done|]). change (trapframe q1) with tf.
  apply wp_bind, wp_in_ps, wp_zoom, wp_modify. apply wp_bind, wp_in_ps, wp_zoom, wp_modify. set (q2 := set_parent _ _). set (m3 := set_mem (store64 _ _ _) _).
  assert (m3 = fork_frame tf (trapframe p) m2) as Em3 by done. clearbody m3.
  pose proof (child_space kend trampoline Hend Htr _ _ _ _ _ Hsp tf _ l1 tn HUn HP Hsame Ltr Ltf m2 l2 t2 D2 HC HD) as HCS. rewrite <- Em3 in HCS. clear Em3.
  set (s3 := set_km m3 _). assert (procs s3 = <[np := q2]> (procs (ps k))) as E3 by done. assert (cpu_ok s3) as C3 by exact C1. assert (cnoff s3 = cnoff s1 /\ nextpid s3 = nextpid s1 /\ km s3 = m3) as (N3 & I3 & K3) by done.
  assert (others (ps k) s3) as O3 by (by destruct O1). clearbody s3. apply wp_bind, (wp_fork_files _ i np p q2).
  - exact C3.
  - done.
  - change (ps (set_ps s3 k)) with s3. by rewrite E3, list_lookup_insert_ne.
  - change (ps (set_ps s3 k)) with s3. by rewrite E3, list_lookup_insert_eq.
  - done.
  - done.
  - exact Hqf.
  - exact Hf.
  - change (ps (set_ps s3 k)) with s3. intros s4 E4 R4 N4 C4. rewrite E3, list_insert_insert_eq in E4. change (files (set_ps s3 k)) with (files k). set (k4 := set_files (dup_refs (ofile p) (files k)) k). change (set_files _ _) with (set_ps s4 k4).
    rewrite Hcwd. apply wp_bind, wp_in_ps, wp_ret. apply wp_bind, wp_zoom, wp_fork_idup; [done|]. set (inos := <[c := _]> (inodes _)). set (k5 := set_kfs (set_inodes inos (kfs k)) k4). change (set_kfs _ _) with (set_ps s4 k5).
    rewrite (set_procs_eta s4 _ E4). do 2 (apply wp_bind, wp_in_ps, wp_upd_in; [done|]). apply wp_bind, wp_in_ps, wp_gets. rewrite proc_at_in by done.
    apply wp_bind, wp_in_ps, wp_upd_in; [done|]. apply wp_bind, wp_in_ps, wp_prelease; [done|cbn; lia|by rewrite proc_at_in|]. rewrite proc_at_in by done. cbn [procs set_procs]. rewrite list_insert_insert_eq.
    intros s6 E6 R6 N6 C6 _ _. apply wp_ret. split; [done|]. set (ch := child_of i p q (nextpid (ps k)) tf (root t2)).
    assert (procs s6 = <[np := ch]> (procs (ps k))) as E6'.
    { rewrite E6. f_equal. unfold ch, child_of, q2, q1, fresh, setname. destruct HC as (_ & -> & _). destruct q. cbn in *. by rewrite Hcwd. }
    assert (km s6 = m3) as K6 by (rewrite (sr_km _ _ R6); cbn; by rewrite (sr_km _ _ R4)). split; change (ps (set_ps s6 k5)) with s6; rewrite ?K6.
    + done.
    + done.
    + destruct Hsp as [_ _ [Hsz Hpg] _ _]. destruct (copied_nodup kend _ _ _ _ _ (fk_space _ _ _ _ _ _ _ Hfk) tf _ l1 tn HP _ _ _ _ HC) as [_ Hn]. destruct (tf_valid kend Hend _ _ _ _ _ (fk_space _ _ _ _ _ _ _ Hfk) tf l1 tn HP) as [Hv _].
      destruct HCS as [[HU3 _] Lf Lt _ _ _ _]. split; [exact HU3|done|split; [exact Hsz|by rewrite HD]|by exists trampoline|]. split; [exact Lf|split; [exact Hv|exact Hn]].
    + done.
    + done.
    + done.
    + rewrite (sr_nextpid _ _ R6). cbn. by rewrite (sr_nextpid _ _ R4), I3.
    + split; [|split; [cbn in N6; lia|done]]. eapply others_trans; [exact O3|]. eapply others_trans; [apply rest_others; exact R4|]. destruct R6. by split.
    + done.
Qed.

(** C12.  [fork] never panics.  Either it returns the pid of a new process, whose
    memory holds the same bytes at the same addresses with the same
    permissions on pages of its own, whose registers are those of the parent
    with 0 in [a0], and which has the parent's open files and directory, each
    with a reference more; nothing but free pages has been written, so the
    parent and every other process keep their memory.  Or it returns -1 and
    everything is as it was: entries in use, files, and all free pages. *)
Theorem fork_correct (k : kern) i p l t D c : forking k i p l t D c ->
  wp (fork kend trampoline forkret_addr) (fun r k' =>
    (r = nextpid (ps k) /\ exists np q tf l' t' D', forked k i p l t c np q tf l' t' D' k') \/
    (r = -1 /\ refused kend (ps k) l (ps k') /\ k' = set_ps (ps k') k)) k.
Proof using Hend Htr.
  intros Hfk. pose proof Hfk as [Hc Hu (Hpl & Hfl & Hil) (Hcur & Hi & Hst) Hsp _ _ Hvac]. assert (kinv kend (km (ps k)) l) as HK by apply Hsp.
  unfold fork. apply wp_bind, wp_on_p. eapply wp_cur; [done|done|]. intros s1 E1 R1 N1 C1 _ _. pose proof (sr_km _ _ R1) as K1.
  apply wp_bind, wp_in_ps, (wp_allocproc kend Hend trampoline forkret_addr Htr s1 l); [done|by split; rewrite E1; apply Hu|by rewrite (sr_pid_lock _ _ R1)|by rewrite K1| |].
  { intros s2 Hr _. apply wp_ret. right. split; [done|]. split; [by eapply refused_start|done]. }
  intros np q tf l1 tn s2 [[Hq Hqu] E2 HUn HP Ltr Ltf Hsame I2 _ (O2 & N2 & C2)]. rewrite E1 in Hq, E2. rewrite K1 in Hsame. rewrite (sr_nextpid _ _ R1) in *. rewrite N1 in N2. pose proof (others_trans _ _ _ (rest_others _ _ R1) O2) as O2'. clear O2.
  set (q1 := fresh _ _ _ _ _) in E2. assert (np <> i) as Hne by (intros ->; congruence). pose proof (lookup_lt_Some _ _ _ Hq) as Lnp.
  apply wp_bind, wp_in_ps, wp_gets. rewrite (proc_at_lookup s2 i p) by (by rewrite E2, list_lookup_insert_ne). apply wp_bind, wp_in_ps, wp_gets. rewrite (proc_at_lookup s2 np q1) by (by rewrite E2, list_lookup_insert_eq).
  destruct (parent_frame kend _ _ _ _ _ tf _ l1 tn Hsp Hsame HUn HP) as (HUo & Hd & _). pose proof Hsp as [_ Hroot [Hsz Hpg] _ _]. rewrite Hroot. change (pagetable q1) with (root tn).
  apply wp_bind, wp_in_ps, wp_zoom. eapply wp_conseq; [apply (wp_uvmcopy kend Hend (km s2) l1 t tn D HUo HUn Hd (psz p)); [done|lia]|]. intros r m2 [(-> & l2 & t2 & D2 & HC & HD)|(-> & l2 & t2 & HC)]; cbn [Z.ltb Z.compare].
  - eapply wp_conseq; [eapply (fork_finish_spec k (set_ps s2 k) i p l t D c np q tf l1 tn m2 l2 t2 D2); done|]. intros r k' [-> Hf]. left. split; [done|]. by exists np, q, tf, l2, t2, D2.
  - destruct (copied_tops kend trampoline Hend Htr _ _ _ _ _ Hsp tf _ l1 tn HP Ltr Ltf _ _ _ _ HC) as (Tf & Tr & _). destruct (copied_nodup kend _ _ _ _ _ Hsp tf _ l1 tn HP _ _ _ _ HC) as [HP2 Hn].
    destruct (tf_valid kend Hend _ _ _ _ _ Hsp tf l1 tn HP) as [Hv _]. pose proof HC as (HU2 & Hr2 & _ & U2 & _). destruct (Hvac np q Hq Hqu) as [Hq0 _].
    assert (pspace kend m2 l2 t2 [] q1) as Hsp2. { split; [exact HU2|by rewrite Hr2|by cbn; rewrite Hq0|by exists trampoline|]. split; [exact Tf|split; [exact Hv|exact Hn]]. }
    apply wp_bind, wp_in_ps, (wp_freeproc kend Hend _ np q1 l2 t2 []); [by cbn [procs set_km]; rewrite E2, list_lookup_insert_eq|exact Hsp2|]. intros m3 l3 HP3 HK3 U3. cbn [procs set_km km]. rewrite E2, list_insert_insert_eq.
    apply wp_bind, wp_in_ps, (wp_refuse kend (ps k) _ np q (emptied q1) l); [done|done|done|done|done| |by destruct O2'|exact N2|apply Hc|exact C2|].
    + exists l3. unfold pages_of in HP3. change (trapframe q1) with tf in HP3. cbn [app] in HP3, HP2. cbn [km set_procs set_km]. assert (l3 ≡ₚ l) as Hl3 by (by rewrite HP3). split; [exact HK3|]. split; [exact Hl3|].
      eapply (outside_trans l); [exact Hsame| |done|done]. eapply (outside_trans l); [exact U2|exact U3| |]; intros x; [rewrite <- HP; by right|]. unfold pages_of. change (trapframe q1) with tf. cbn [app]. by rewrite HP2.
    + intros s' Hr. apply wp_ret. right. by split.
Qed.
End fork.

(** ** An example: a process with a page and an open file *)

(** Memory from a list of words. *)
Definition words (E : list (Z * Z)) : gmap Z Z := foldr (fun e m => store64 m e.1 e.2) ∅ E.

Lemma words_zero E a : Forall (fun e => e.1 + 8 <= a \/ a + 8 <= e.1) E -> load64 (words E) a = 0.
Proof. induction 1 as [|e E He _ IH]; [done|]. cbn [words foldr]. rewrite load64_store64_ne by lia. exact IH. Qed.
Lemma words_wf E : mem_wf (words E).
Proof. induction E as [|e E IH]; [|by apply store64_wf]. intros a. by vm_compute. Qed.

(** The page tables, the page [lp 3] at address 0, the trapframe [lp 6], and
    the free pages from [lp 7] on. *)
Definition fk_words : list (Z * Z) :=
  [(lp 0, Z.lor (PA2PTE (lp 1)) PTE_V); (lp 0 + 8 * 255, Z.lor (PA2PTE (lp 4)) PTE_V); (lp 1, Z.lor (PA2PTE (lp 2)) PTE_V); (lp 2, pte_entry (lp 3) PTE_USER);
   (lp 4 + 8 * 511, Z.lor (PA2PTE (lp 5)) PTE_V); (lp 5 + 8 * 510, pte_entry (lp 6) (Z.lor PTE_R PTE_W)); (lp 5 + 8 * 511, pte_entry KERNBASE (Z.lor PTE_R PTE_X));
   (lp 3 + 8, 42); (lp 6 + TF_EPC, 20); (lp 6 + TF_A0, 7)] ++
  [(lp 7, lp 8); (lp 8, lp 9); (lp 9, lp 10); (lp 10, lp 11); (lp 11, lp 12); (lp 12, lp 13); (lp 13, lp 14); (lp 14, 0)].
Definition fk_mem : gmap Z Z := words fk_words.
Definition fk_kst : kst := Kst fk_mem (Kmem spin_free (lp 7)).
Definition fk_free : list Z := [lp 7; lp 8; lp 9; lp 10; lp 11; lp 12; lp 13; lp 14].
Definition fk_tree : ptree := PTree (lp 0) (<[0 := lp 1]> {[255 := lp 4]}) (<[(0, 0) := lp 2]> {[(255, 511) := lp 5]}).

Lemma fk_pages : pt_pages fk_tree ≡ₚ [lp 0; lp 1; lp 4; lp 2; lp 5].
Proof. unfold pt_pages, fk_tree. cbn [root l1 l0]. rewrite !map_to_list_insert, !map_to_list_singleton by done. done. Qed.

#[local] Ltac fk_zero := apply (words_zero fk_words); unfold fk_words; cbn [app]; repeat (apply Forall_cons_2; [cbn [fst]; unfold lp, PGSIZE, TF_EPC, TF_A0; dlia|]); apply Forall_nil_2.

Lemma fk_rep : pt_rep fk_mem fk_tree.
Proof.
  split; [|split; [|split; [|split]]]; unfold fk_tree; cbn [l0 l1 root].
  - intros k Hk. cbv beta. destruct (decide (k = 0)) as [->|H0]; [by vm_compute|]. rewrite lookup_insert_ne by done. destruct (decide (k = 255)) as [->|H1]; [by vm_compute|]. rewrite lookup_singleton_ne by done.
    assert (load64 fk_mem (lp 0 + 8 * k) = 0) as ->; [fk_zero|done].
  - intros i p Hi k Hk. cbv beta. apply lookup_insert_Some in Hi as [[<- <-]|[_ [<- <-]%lookup_singleton_Some]].
    + destruct (decide (k = 0)) as [->|H0]; [by vm_compute|]. rewrite lookup_insert_ne, lookup_singleton_ne by congruence. assert (load64 fk_mem (lp 1 + 8 * k) = 0) as ->; [fk_zero|done].
    + destruct (decide (k = 511)) as [->|H0]; [by vm_compute|]. rewrite lookup_insert_ne, lookup_singleton_ne by congruence. assert (load64 fk_mem (lp 4 + 8 * k) = 0) as ->; [fk_zero|done].
  - intros i j q Hi. apply lookup_insert_Some in Hi as [[[= <- <-] <-]|[_ [[= <- <-] <-]%lookup_singleton_Some]]; by eexists.
  - intros i p Hi. apply lookup_insert_Some in Hi as [[<- <-]|[_ [<- <-]%lookup_singleton_Some]]; lia.
  - intros i j q Hi. apply lookup_insert_Some in Hi as [[[= <- <-] <-]|[_ [[= <- <-] <-]%lookup_singleton_Some]]; lia.
Qed.

Lemma fk_leaf va : 0 <= va < TRAPFRAME -> leaf fk_mem fk_tree va = if decide (va < PGSIZE) then pte_entry (lp 3) PTE_USER else 0.
Proof.
  intros Hva. rewrite TRAPFRAME_val in Hva. pose proof (PX_decompose va ltac:(lia)) as Hd. pose proof (PX_range 2 va ltac:(lia)). pose proof (PX_range 1 va ltac:(lia)). pose proof (PX_range 0 va ltac:(lia)).
  unfold leaf, pte_addr, fk_tree. cbn [l0]. unfold PGSIZE in *. destruct (decide ((0, 0) = (PX 2 va, PX 1 va))) as [E|E].
  - rewrite <- E, lookup_insert_eq. cbn [fmap option_fmap option_map]. injection E as E2 E1. destruct (decide (va < 4096)) as [Hp|Hp].
    + replace (PX 0 va) with 0 by dlia. by vm_compute.
    + fk_zero.
  - rewrite lookup_insert_ne by done. rewrite (decide_False (P := va < 4096)); [|intros ?; apply E; f_equal; dlia]. destruct (decide ((255, 511) = (PX 2 va, PX 1 va))) as [E'|E']; [|by rewrite lookup_singleton_ne].
    rewrite <- E', lookup_singleton_eq. cbn [fmap option_fmap option_map]. injection E' as E2 E1. assert (PX 0 va < 510) by dlia. fk_zero.
Qed.

Lemma fk_kinv : kinv (lp 0) fk_kst fk_free.
Proof.
  split; [done|]. split; [apply words_wf|]. split; [apply (lf_nodup [7; 8; 9; 10; 11; 12; 13; 14]); apply (bool_decide_unpack _); by vm_compute|].
  assert (forall k h l, 7 <= k < 15 -> h = lp k -> freelist_rep (lp 0) fk_mem (load64 fk_mem (lp k)) l -> freelist_rep (lp 0) fk_mem h (lp k :: l)) as Hc by (intros k h l Hk -> H; split; [done|split; [apply lf_valid; lia|done]]).
  unfold fk_free. repeat (apply Hc; [lia|by vm_compute|]). by vm_compute.
Qed.
Lemma fk_nodup : NoDup (lp 6 :: [lp 3] ++ pt_pages fk_tree ++ fk_free).
Proof. rewrite fk_pages. apply (lf_nodup [6; 3; 0; 1; 4; 2; 5; 7; 8; 9; 10; 11; 12; 13; 14]). apply (bool_decide_unpack _). by vm_compute. Qed.
Lemma fk_uvinv : uvinv (lp 0) fk_kst fk_free fk_tree [lp 3].
Proof.
  pose proof fk_nodup as [_ Hnd]%NoDup_cons. split; [split; [exact fk_kinv|split; [exact fk_rep|split]]|split; [split|split; [exact Hnd|split]]].
  - by apply NoDup_app in Hnd as (_ & _ & ?).
  - intros p. rewrite fk_pages, !elem_of_cons, elem_of_nil. intros [->|[->|[->|[->|[->|[]]]]]]; apply lf_valid; lia.
  - intros [|k] p [= <-]. change (mem fk_kst) with fk_mem. rewrite fk_leaf by done. rewrite decide_True by done. apply (leaf_maps_entry (lp 0) ltac:(done)); [apply lf_valid; lia|by vm_compute|by vm_compute].
  - intros va Hva. cbn in Hva. change (mem fk_kst) with fk_mem. rewrite fk_leaf by (unfold PGSIZE in *; lia). by rewrite decide_False by (unfold PGSIZE in *; lia).
  - apply Forall_singleton, lf_valid. lia.
  - done.
Qed.

Definition fk_proc : proc :=
  Proc spin_free RUNNING (Some 0%nat) None 0 0 1 0 4096 (lp 0) (lp 6) [] (Some 0%nat :: replicate 15 None) (Some 0%nat) (replicate 16 0).
Definition fk_pst : pst :=
  PSt (fk_proc :: replicate 63 proc0) 2 spin_free (Some 0%nat) 0 true (Some 0%nat) (Hart (fun _ => 0) (fun _ => 0) PrivS 0) fk_kst.
Definition fk_kern : kern unit :=
  Kern (Fs (SuperBlock 0 0 0 0 0 0 0 0) spin_free [empty_inode] tt fk_pst) spin_free [set_fref 1 file0] ∅ 0 spin_free 1 con0 vdisk0.

Lemma fk_pspace : pspace (lp 0) fk_kst fk_free fk_tree [lp 3] fk_proc.
Proof.
  split; [exact fk_uvinv|done|by vm_compute| |].
  - exists KERNBASE. replace (leaf _ _ _) with (pte_entry KERNBASE (Z.lor PTE_R PTE_X)) by (by vm_compute). by apply (kernel_entry KERNBASE); [..|left].
  - replace (leaf _ _ _) with (pte_entry (lp 6) (Z.lor PTE_R PTE_W)) by (by vm_compute). split; [apply (kernel_entry (lp 6)); [done|done|by right]|]. split; [apply lf_valid; lia|]. by pose proof fk_nodup as [? _]%NoDup_cons.
Qed.
Lemma fk_forking : forking (lp 0) fk_kern 0 fk_proc fk_free fk_tree [lp 3] 0.
Proof.
  split; [split; [split; [done|split; [done|cbn; lia]]|done]|split; [done|by repeat constructor]|done|done|exact fk_pspace|split; [done|]|done|].
  - intros f Hf. cbn [ofile fk_proc] in Hf. apply elem_of_cons in Hf as [[= ->]|Hf]; [by vm_compute|]. by apply elem_of_replicate in Hf as [? _].
  - intros [|j] q Hq Hu; [by injection Hq as <-|]. change (replicate 63 proc0 !! j = Some q) in Hq. by apply lookup_replicate in Hq as [-> _].
Qed.

Definition ok_value {S A} (o : outcome S A) : option A := match o with Ok a _ => Some a | _ => None end.
Lemma wp_value {S A} (c : M S A) (Q : A -> S -> Prop) s a : wp c Q s -> ok_value (c s) = Some a -> wp c (fun r s' => r = a /\ Q r s') s.
Proof. unfold wp. destruct (c s); [|done..]. intros H [= ->]. done. Qed.

Lemma fk_value : ok_value (fork (lp 0) KERNBASE 0x80001000 fk_kern) = Some 2.
Proof. by vm_compute. Qed.
Lemma fk_byte : ubyte fk_mem fk_tree 8 = Some 42.
Proof. by vm_compute. Qed.

Lemma fork_correct_witness : wp (fork (lp 0) KERNBASE 0x80001000) (fun r k' => r = 2 /\ files k' = [set_fref 2 file0] /\
  exists np t', pid (proc_at (ps k') np) = 2 /\ pagetable (proc_at (ps k') np) = root t' /\ ubyte (mem (km (ps k'))) t' 8 = Some 42) fk_kern.
Proof.
  eapply wp_conseq; [apply (wp_value _ _ _ 2 (fork_correct (lp 0) KERNBASE 0x80001000 ltac:(done) ltac:(done) fk_kern 0 fk_proc fk_free fk_tree [lp 3] 0 fk_forking) fk_value)|].
  intros r k' [-> [(_ & np & q & tf & l' & t' & D' & [[Hq _] Ep _ Hc Hfi _ _ _ _])|[? _]]]; [|done]. split; [done|]. split; [by rewrite Hfi|].
  exists np, t'. apply lookup_lt_Some in Hq. rewrite (proc_at_insert _ _ np _ Ep Hq). split; [done|]. split; [done|]. rewrite (cs_bytes _ _ _ _ _ _ _ _ _ _ _ Hc) by done. exact fk_byte.
Defined.
