(* ===== verification/VirtioProof.v ===== *)
(** * The disk driver and its device

    Processes that call [virtio_disk_rw], the interrupts that call
    [virtio_disk_intr] and the device take turns in any order.  No descriptor
    is lost or used twice, nothing panics, and a process that comes back from
    [virtio_disk_rw] finds its transfer done. *)

From S2P Require Import Prelude Riscv Memory Spinlock Kalloc Vm PageTable VmMap UserVm Block Hart Proc ProcProof UserCall Console Virtio ProcLife Fork.

(** ** The process table under the driver *)

(** Process [c] on the processor, [n] locks held, none of them of a process. *)
Record held (n : Z) (c : option nat) (p : pst) : Prop := Held {
  hd_cpu : cpu_ok p; hd_unlocked : unlocked p; hd_noff : cnoff p = n; hd_cproc : cproc p = c }.

Lemma held_same n n' c p p' : held n c p -> procs p' = procs p -> same_rest p p' -> cnoff p' = n' -> cpu_ok p' -> held n' c p'.
Proof. intros [] E R N C. split; [done|by unfold unlocked; rewrite E|done|by rewrite (sr_cproc _ _ R)]. Qed.

Section ops.
Context (d : vdisk).
Lemma wp_on_vp {A} (c : M pst A) (Q : A -> vst -> Prop) p : wp c (fun a p' => Q a (VSt d p')) p -> wp (on_vp c) Q (VSt d p).
Proof. intros H. by apply wp_zoom. Qed.
Lemma wp_on_vd_get (Q : vdisk -> vst -> Prop) p : Q d (VSt d p) -> wp (on_vd get) Q (VSt d p).
Proof. done. Qed.
Lemma wp_on_vd_modify (f : vdisk -> vdisk) (Q : unit -> vst -> Prop) p : Q tt (VSt (f d) p) -> wp (on_vd (modify f)) Q (VSt d p).
Proof. done. Qed.

Lemma wp_vd_acquire n c p (Q : unit -> vst -> Prop) : held n c p -> vdisk_lock d = spin_free ->
  (forall p', held (n + 1) c p' -> km p' = km p -> Q tt (VSt (set_vdisk_lock spin_mine d) p')) -> wp vd_acquire Q (VSt d p).
Proof.
  intros H Hl HQ. unfold vd_acquire. apply wp_bind, wp_on_vp, wp_push; [apply H|]. intros p' E R N C _ _. apply wp_zoom, wp_spin_acquire; [done|].
  apply (HQ p'); [apply (held_same n _ _ p); [done|done|done|rewrite N, (hd_noff _ _ _ H); lia|done]|by destruct R].
Qed.
Lemma wp_vd_release n c p (Q : unit -> vst -> Prop) : held n c p -> 0 < n -> vdisk_lock d = spin_mine ->
  (forall p', held (n - 1) c p' -> km p' = km p -> Q tt (VSt (set_vdisk_lock spin_free d) p')) -> wp vd_release Q (VSt d p).
Proof.
  intros H Hn Hl HQ. unfold vd_release. apply wp_bind, wp_zoom, wp_spin_release; [done|]. apply wp_zoom, wp_pop; [apply H|cbn; rewrite (hd_noff _ _ _ H); lia|]. intros p' E R N C _ _.
  apply (HQ p'); [apply (held_same n _ _ p); [done|done|done|rewrite N; cbn; rewrite (hd_noff _ _ _ H); lia|done]|by destruct R].
Qed.
Lemma wp_v_wakeup ch n c p (Q : unit -> vst -> Prop) : held n c p -> (forall p', held n c p' -> km p' = km p -> Q tt (VSt d p')) -> wp (on_vp (wakeup ch)) Q (VSt d p).
Proof.
  intros H HQ. apply wp_on_vp, wp_wakeup; [apply H|apply H|]. intros p' E R N C _. destruct H as [Hc [Hl Hf] Hn Hp].
  apply HQ; [|by destruct R]. split; [done| |by rewrite N|by rewrite (sr_cproc _ _ R)]. split; rewrite E; [by rewrite length_fmap|].
  apply Forall_fmap. eapply Forall_impl; [exact Hf|]. intros q Hq. cbn. unfold woken. by case_decide.
Qed.

(** Sleeping, and what is left to do when a process has come back. *)
Lemma wp_vd_sleep ch i p (Q : bool -> vst -> Prop) : held 1 (Some i) p -> (i < Z.to_nat NPROC)%nat -> vdisk_lock d = spin_mine ->
  (forall ie p', km p' = km p -> Q ie (VSt (set_vdisk_lock spin_free d) p')) -> wp (vd_sleep ch) Q (VSt d p).
Proof.
  intros [Hc Hu Hn Hp] Hi Hl HQ. assert (i < length (procs p))%nat as Hil by (destruct Hu as [-> _]; done). unfold vd_sleep. apply wp_bind, wp_on_vp. eapply wp_cur; [done|done|]. intros p1 E1 R1 N1 C1 _ _.
  assert (proc_at p1 i = proc_at p i) as Ep by (unfold proc_at; by rewrite E1). apply wp_bind, wp_on_vp, wp_pacquire; [done|rewrite Ep; by apply unlocked_at|]. intros p2 E2 R2 N2 C2 _ _. rewrite Ep, E1 in E2.
  apply wp_bind. unfold vd_release. apply wp_bind, wp_zoom, wp_spin_release; [done|]. apply wp_zoom. cbn [vps set_vd]. apply wp_pop; [done|lia|]. intros p3 E3 R3 N3 C3 _ _.
  apply wp_zoom. cbn [vps set_vps set_vd]. unfold sleep_mark. apply wp_bind, wp_modify, wp_bind, wp_modify. rewrite E2 in E3. set (p5 := set_procs _ _).
  assert (procs p5 = <[i := set_pstate SLEEPING (set_chan (Some ch) (set_plock spin_mine (proc_at p i)))]> (procs p)) as E5.
  { unfold p5. cbn [procs set_procs]. rewrite (proc_at_insert p p3 i _ E3 Hil). rewrite (proc_at_insert p (set_procs _ p3) i (set_chan (Some ch) (set_plock spin_mine (proc_at p i)))); [by rewrite E3, !list_insert_insert_eq|cbn; by rewrite E3, list_insert_insert_eq|done]. }
  eapply (wp_sched p5 i); [exact C3|cbn; by rewrite (sr_cproc _ _ R3), (sr_cproc _ _ R2), (sr_cproc _ _ R1)|by rewrite (proc_at_insert p p5 i _ E5 Hil)|cbn; lia|by rewrite (proc_at_insert p p5 i _ E5 Hil)|].
  intros p6 _ R6 _ _. apply HQ. rewrite (sr_km _ _ R6). cbn. by rewrite (sr_km _ _ R3), (sr_km _ _ R2), (sr_km _ _ R1).
Qed.

Lemma wp_vd_sleep_return i ie p (Q : unit -> vst -> Prop) : running i p -> cpu_ok (set_cintena ie p) -> (i < Z.to_nat NPROC)%nat -> vdisk_lock d = spin_free ->
  (forall p', held 1 (Some i) p' -> km p' = km p -> Q tt (VSt (set_vdisk_lock spin_mine d) p')) -> wp (vd_sleep_return i ie) Q (VSt d p).
Proof.
  intros [Hc Hn Hp Hl Hm Hf] Hie Hi Hlk HQ. assert (i < length (procs p))%nat as Hil by (by rewrite Hl). unfold vd_sleep_return. apply wp_bind, wp_on_vp, wp_modify, wp_bind, wp_on_vp, wp_modify. set (p2 := set_procs _ _).
  assert (procs p2 = <[i := set_chan None (proc_at p i)]> (procs p)) as E2 by done. apply wp_bind, wp_on_vp, wp_prelease; [exact Hie|cbn; lia|by rewrite (proc_at_insert p p2 i _ E2 Hil)|].
  intros p3 E3 R3 N3 C3 _ _. rewrite (proc_at_insert p p2 i _ E2 Hil), E2, list_insert_insert_eq in E3. change (cnoff p2) with (cnoff p) in N3.
  apply (wp_vd_acquire 0 (Some i)); [|done|intros p4 H4 K4; apply HQ; [done|by rewrite K4, (sr_km _ _ R3)]]. split; [done| |lia|by rewrite (sr_cproc _ _ R3)].
  split; [by rewrite E3, length_insert|]. apply Forall_lookup_2. intros j q Hq. rewrite E3 in Hq. destruct (decide (i = j)) as [->|Hne].
  - rewrite list_lookup_insert_eq in Hq by done. by injection Hq as <-.
  - rewrite list_lookup_insert_ne in Hq by done. rewrite <- (proc_at_lookup p j q Hq). by apply Hf.
Qed.
End ops.

(** ** Descriptors *)

Definition sized (d : vdisk) : Prop := length (desc d) = Z.to_nat NUM /\ length (avail d) = Z.to_nat NUM /\ length (used_elems d) = Z.to_nat NUM /\ length (dfree d) = Z.to_nat NUM /\ length (binfo d) = Z.to_nat NUM.
Definition is_free (d : vdisk) (i : Z) : Prop := truth (free_at d i) = true.

#[export] Instance is_free_dec d i : Decision (is_free d i) := ltac:(unfold is_free; apply _).

Definition take (i : Z) (d : vdisk) : vdisk := set_dfree (<[Z.to_nat i := 0]> (dfree d)) d.
Definition give (i : Z) (d : vdisk) : vdisk :=
  set_dfree (<[Z.to_nat i := 1]> (dfree d)) (set_desc (<[Z.to_nat i := set_vaddr 0 (desc_at d i)]> (desc d)) d).

Lemma sized_take i d : sized d -> sized (take i d).
Proof. intros (?&?&?&?&?). unfold sized. cbn. by rewrite length_insert. Qed.
Lemma sized_give i d : sized d -> sized (give i d).
Proof. intros (?&?&?&?&?). unfold sized. cbn. by rewrite !length_insert. Qed.

Lemma default_insert {A} (x y : A) (l : list A) i j : (Z.to_nat i < length l)%nat -> 0 <= i -> 0 <= j -> default y (<[Z.to_nat i := x]> l !! Z.to_nat j) = if decide (j = i) then x else default y (l !! Z.to_nat j).
Proof. intros Hi H1 H2. case_decide as E; [subst; by rewrite list_lookup_insert_eq|]. by rewrite list_lookup_insert_ne by lia. Qed.

Lemma free_take i j d : sized d -> 0 <= i < NUM -> 0 <= j -> free_at (take i d) j = if decide (j = i) then 0 else free_at d j.
Proof. intros (_&_&_&H&_) Hi Hj. apply default_insert; [rewrite H; unfold NUM in *; lia|lia|done]. Qed.
Lemma free_give i j d : sized d -> 0 <= i < NUM -> 0 <= j -> free_at (give i d) j = if decide (j = i) then 1 else free_at d j.
Proof. intros (_&_&_&H&_) Hi Hj. apply default_insert; [rewrite H; unfold NUM in *; lia|lia|done]. Qed.
Lemma desc_give i j d : sized d -> 0 <= i < NUM -> 0 <= j -> desc_at (give i d) j = if decide (j = i) then set_vaddr 0 (desc_at d i) else desc_at d j.
Proof. intros (H&_) Hi Hj. apply default_insert; [rewrite H; unfold NUM in *; lia|lia|done]. Qed.

Lemma find_free_spec d l : match find_free d l with Some i => i ∈ l /\ is_free d i | None => Forall (fun i => ~ is_free d i) l end.
Proof.
  induction l as [|j l IH]; [apply Forall_nil_2|]. cbn [find_free]. destruct (truth (free_at d j)) eqn:E; [split; [by left|done]|]. destruct (find_free d l).
  - destruct IH. split; [by right|done].
  - apply Forall_cons. split; [unfold is_free; congruence|done].
Qed.

Section descriptors.
Context (free_addr : Z) (n : Z) (c : option nat).
Abbreviation alloc3_desc := (alloc3_desc free_addr).
Abbreviation free_desc := (free_desc free_addr).

Lemma wp_alloc_desc d p (Q : Z -> vst -> Prop) : (forall i, 0 <= i < NUM -> is_free d i -> Q i (VSt (take i d) p)) -> ((forall i, 0 <= i < NUM -> ~ is_free d i) -> Q (-1) (VSt d p)) -> wp alloc_desc Q (VSt d p).
Proof.
  intros H1 H2. unfold alloc_desc. apply wp_bind, wp_on_vd_get. pose proof (find_free_spec d (seqZ 0 NUM)) as H. destruct (find_free d (seqZ 0 NUM)) as [i|].
  - destruct H as [Hi%elem_of_seqZ Hf]. apply wp_bind, wp_on_vd_modify, wp_ret. apply H1; [lia|done].
  - apply wp_ret, H2. intros i Hi. rewrite Forall_forall in H. apply H, elem_of_seqZ. lia.
Qed.

Lemma wp_free_desc d p i (Q : unit -> vst -> Prop) : held n c p -> 0 <= i < NUM -> ~ is_free d i -> (forall p', held n c p' -> km p' = km p -> Q tt (VSt (give i d) p')) -> wp (free_desc i) Q (VSt d p).
Proof.
  intros Hh Hi Hf HQ. unfold free_desc. replace (NUM <=? i) with false by lia. apply wp_bind, wp_on_vd_get. unfold is_free in Hf. destruct (truth (free_at d i)); [done|].
  apply wp_bind, wp_on_vd_modify, wp_bind, wp_on_vd_modify. by apply (wp_v_wakeup _ _ n c p).
Qed.

(** Taken descriptors that are given back: nothing that counts has changed. *)
Record undone (d d' : vdisk) : Prop := Undone {
  ud_free : forall i, 0 <= i < NUM -> is_free d' i <-> is_free d i;
  ud_desc : forall i, 0 <= i < NUM -> ~ is_free d i -> desc_at d' i = desc_at d i;
  ud_rest : exists x y, length x = length (desc d) /\ length y = length (dfree d) /\ d' = set_dfree y (set_desc x d) }.

Lemma undone_give d d' i : sized d -> 0 <= i < NUM -> is_free d i -> undone (take i d) d' -> undone d (give i d').
Proof.
  intros Hs Hi Hf [H1 H2 (x & y & Hx & Hy & ->)]. assert (sized (set_dfree y (set_desc x (take i d)))) as Hs' by (destruct Hs as (?&?&?&?&?); unfold sized; cbn in *; rewrite length_insert in Hy; by rewrite Hx, Hy). split.
  - intros j Hj. unfold is_free. rewrite free_give by (done || lia). case_decide as E; [subst; split; done|]. fold (is_free (set_dfree y (set_desc x (take i d))) j). rewrite H1 by done. unfold is_free. rewrite free_take by (done || lia). by rewrite decide_False.
  - intros j Hj Hn. rewrite desc_give by (done || lia). rewrite decide_False by congruence. rewrite H2; [done|done|]. unfold is_free. rewrite free_take by (done || lia). by rewrite decide_False by congruence.
  - exists (<[Z.to_nat i := set_vaddr 0 (desc_at (set_dfree y (set_desc x (take i d))) i)]> x), (<[Z.to_nat i := 1]> y). unfold take in Hx, Hy. cbn [desc dfree set_dfree] in Hx, Hy. rewrite !length_insert in *. done.
Qed.
Lemma give_comm i j d : 0 <= i < NUM -> 0 <= j < NUM -> sized d -> i <> j -> give i (give j d) = give j (give i d).
Proof.
  intros Hi Hj Hs Hne. unfold give at 1 3. rewrite !desc_give by (done || lia). rewrite !decide_False by done. destruct d. unfold give, set_dfree, set_desc. cbn.
  f_equal; apply list_insert_insert_ne; lia.
Qed.
Lemma undone_refl d : undone d d.
Proof. split; [done|done|]. exists (desc d), (dfree d). by destruct d. Qed.

Lemma take_not_free i d : sized d -> 0 <= i < NUM -> ~ is_free (take i d) i.
Proof. intros Hs Hi. unfold is_free. rewrite free_take by (done || lia). by rewrite decide_True. Qed.
Lemma take_keeps i j d : sized d -> 0 <= i < NUM -> 0 <= j < NUM -> is_free (take i d) j -> is_free d j /\ j <> i.
Proof. intros Hs Hi Hj. unfold is_free. rewrite free_take by (done || lia). by case_decide. Qed.

Lemma wp_alloc3_desc d p (Q : option (list Z) -> vst -> Prop) : sized d -> held n c p ->
  (forall i0 i1 i2, NoDup [i0; i1; i2] -> Forall (fun i => 0 <= i < NUM /\ is_free d i) [i0; i1; i2] -> Q (Some [i0; i1; i2]) (VSt (take i2 (take i1 (take i0 d))) p)) ->
  (forall d' p', undone d d' -> held n c p' -> km p' = km p -> Q None (VSt d' p')) -> wp alloc3_desc Q (VSt d p).
Proof.
  intros Hs Hh H1 H2. unfold alloc3_desc, alloc3_loop. apply wp_bind, wp_alloc_desc; [|intros _; apply wp_bind, wp_ret, wp_ret, H2; [apply undone_refl|done|done]].
  intros i0 Hi0 Hf0. replace (i0 <? 0) with false by lia. pose proof (sized_take i0 d Hs) as Hs1. apply wp_bind, wp_alloc_desc.
  - intros i1 Hi1 Hf1. replace (i1 <? 0) with false by lia. pose proof (sized_take i1 _ Hs1) as Hs2. apply wp_bind, wp_alloc_desc.
    + intros i2 Hi2 Hf2. replace (i2 <? 0) with false by lia. apply wp_ret. cbn [app]. destruct (take_keeps i0 i1 d) as [Hf1' Hn1]; [done..|]. destruct (take_keeps i1 i2 (take i0 d)) as [Hf2' Hn2]; [done..|]. destruct (take_keeps i0 i2 d) as [Hf2'' Hn3]; [done..|].
      apply H1; [|by repeat (apply Forall_cons_2; [done|]); apply Forall_nil_2]. repeat (apply NoDup_cons_2; [set_solver|]). apply NoDup_nil_2.
    + intros _. apply wp_bind. cbn [app for_each Z.ltb Z.compare]. apply wp_bind, wp_free_desc; [done|done| |].
      * intros Hx. apply (take_keeps i1 i0) in Hx as [Hx _]; [|done..]. by apply take_not_free in Hx.
      * intros p1 Hh1 K1. apply wp_bind, wp_free_desc; [done|done| |].
        -- unfold is_free. rewrite free_give by (done || lia). rewrite decide_False by (intros ->; by apply take_not_free in Hf1). by apply take_not_free.
        -- intros p2 Hh2 K2. apply wp_ret, wp_ret. apply H2; [|done|congruence]. destruct (take_keeps i0 i1 d) as [Hf1' Hn1]; [done..|]. rewrite give_comm by done.
           apply undone_give; [done..|]. apply undone_give; [done..|]. apply undone_refl.
  - intros _. apply wp_bind. cbn [app for_each Z.ltb Z.compare]. apply wp_bind, wp_free_desc; [done|done|by apply take_not_free|].
    intros p1 Hh1 K1. apply wp_ret, wp_ret. apply H2; [|done|done]. apply undone_give; [done..|]. apply undone_refl.
Qed.
End descriptors.

(** ** Requests *)

(** A request: its descriptors, the buffer, the direction, the address of the
    header, and the number of transfers that the device had done by then. *)
Record req := Req { q0 : Z; q1 : Z; q2 : Z; qb : nat; qw : bool; qh : Z; qm : nat }.
Definition chain_of (r : req) : list Z := [q0 r; q1 r; q2 r].
Definition chains (R : list req) : list Z := R ≫= chain_of.

Lemma nodup3 (a b c : Z) : NoDup [a; b; c] -> b <> a /\ c <> a /\ c <> b.
Proof. rewrite !NoDup_cons. set_solver. Qed.

Lemma forall_perm {A} (P : A -> Prop) l l' : Forall P l -> l ≡ₚ l' -> Forall P l'.
Proof. by intros H <-. Qed.

(** [a] is a ring with the heads of [R] from [i] on. *)
Definition ring (a : list Z) (i : Z) (R : list req) : Prop := forall k r, R !! k = Some r -> a !! Z.to_nat ((i + Z.of_nat k) mod NUM) = Some (q0 r).

Lemma ring_add a i R r x : ring a i R -> length a = Z.to_nat NUM -> (length R < 8)%nat -> 0 <= i -> x mod NUM = (i + Z.of_nat (length R)) mod NUM -> ring (<[Z.to_nat (x mod NUM) := q0 r]> a) i (R ++ [r]).
Proof.
  intros H Ha HR Hi Hx k r' Hk. rewrite Hx. unfold NUM in *. apply lookup_app_Some in Hk as [Hk|[Hle [Hk <-]%list_lookup_singleton_Some]].
  - pose proof (lookup_lt_Some _ _ _ Hk). rewrite list_lookup_insert_ne by dlia. by apply H.
  - replace k with (length R) by lia. rewrite list_lookup_insert_eq; [done|]. rewrite Ha. dlia.
Qed.
Lemma used_ring_pop a i i' R r : ring a i (r :: R) -> 0 <= i -> 0 <= i' -> i' mod NUM = (i + 1) mod NUM -> a !! Z.to_nat (i mod NUM) = Some (q0 r) /\ ring a i' R.
Proof.
  intros H Hi Hi' Ei. split; [rewrite <- (Z.add_0_r i); by apply (H 0%nat)|]. intros k r' Hk. rewrite <- (H (S k) r' Hk). do 2 f_equal. unfold NUM in *. dlia.
Qed.

Section system.
Context (R_read : Z -> M kst Z) (R_write : Z -> Z -> M kst unit).
Context (free_addr : Z) (status_addr : Z -> Z) (buf_addr buf_data : nat -> Z) (kernel_pagetable kend : Z) (Hend : 0 < kend).
(** Registers answer, and accesses to them do not write to memory. *)
Context (Hread : forall a k, exists x, R_read a k = Ok x k) (Hwrite : forall a x k, R_write a x k = Ok tt k).

Definition data_flags (w : bool) : Z := Z.lor (if w then 0 else VRING_DESC_F_WRITE) VRING_DESC_F_NEXT.
Record formatted (d : vdisk) (r : req) : Prop := Formatted {
  fm_0 : desc_at d (q0 r) = VDesc (qh r) 16 VRING_DESC_F_NEXT (q1 r);
  fm_1 : desc_at d (q1 r) = VDesc (buf_data (qb r)) BSIZE (data_flags (qw r)) (q2 r);
  fm_2 : desc_at d (q2 r) = VDesc (status_addr (q0 r)) 1 VRING_DESC_F_WRITE 0;
  fm_i : info_at d (q0 r) = (Some (qb r), 0) }.

Definition submitted (r : req) (d : vdisk) : vdisk :=
  VDisk (<[Z.to_nat (q2 r) := VDesc (status_addr (q0 r)) 1 VRING_DESC_F_WRITE 0]> (<[Z.to_nat (q1 r) := VDesc (buf_data (qb r)) BSIZE (data_flags (qw r)) (q2 r)]> (<[Z.to_nat (q0 r) := VDesc (qh r) 16 VRING_DESC_F_NEXT (q1 r)]> (desc d))))
    (wrap16 (avail_idx d + 1)) (<[Z.to_nat (avail_idx d mod NUM) := q0 r]> (avail d)) (used_id d) (used_elems d) (dfree d) (used_idx d)
    (<[Z.to_nat (q0 r) := (Some (qb r), 0)]> (binfo d)) (vdisk_lock d) (<[qb r := 1]> (bdisk d)).

(** The header of a request, on the stack of the process. *)
Record header (k : kst) (a : Z) (bn : Z) (w : bool) : Prop := Header {
  h_type : loadn 4 (mem k) a = (if w then VIRTIO_BLK_T_OUT else VIRTIO_BLK_T_IN);
  h_reserved : loadn 4 (mem k) (a + 4) = 0;
  h_sector : load64 (mem k) (a + 8) = wrap32 (bn * (BSIZE / 512)) }.

(** The kernel stack with [a] is mapped to [pa] in the kernel's page table. *)
Record stack_at (a pa : Z) (k : kst) : Prop := StackAt {
  st_high : PHYSTOP <= a /\ a + 16 <= MAXVA;
  st_map : exists l t, vinv kend k l t /\ root t = kernel_pagetable /\ pte_has (leaf (mem k) t a) PTE_V = true /\ wrap64 (PTE2PA (leaf (mem k) t a) + a mod PGSIZE) = pa }.

Lemma wp_kvmpa a pa k (Q : Z -> kst -> Prop) : stack_at a pa k -> Q pa k -> wp (kvmpa kernel_pagetable a) Q k.
Proof using Hend.
  intros [[Ha1 Ha2] (l & t & HI & <- & HV & Hpa)] HQ. unfold kvmpa. apply wp_bind. eapply wp_run; [apply (walk_noalloc kend Hend k l t a HI); change PHYSTOP with 0x88000000 in *; lia|].
  unfold leaf in *. destruct (pte_addr t a) as [e|] eqn:E; [|by vm_compute in HV]. change (default 0 (Some e)) with e. pose proof (pte_addr_nonzero kend Hend k l t a e HI E) as He. rewrite (proj2 (Z.eqb_neq e 0) He).
  apply wp_bind, wp_gets. rewrite HV. cbn [negb]. apply wp_ret. by rewrite Hpa.
Qed.

Lemma stack_write a pa k k' : stack_at a pa k -> kmem k' = kmem k -> mem_wf (mem k') -> (forall b, ~ (a <= b < a + 16) -> load8 (mem k') b = load8 (mem k) b) -> stack_at a pa k'.
Proof using Hend.
  intros [Hh (l & t & HI & Hr & HV & Hpa)] Hk Hw Ho. split; [done|]. exists l, t. destruct (vinv_mem_ext kend k k' l t Hk Hw) as [HI' Hl]; [|done|by rewrite Hl].
  intros q b Hq Hb. apply Ho. assert (valid_page kend q) as [Ha' Hr'] by (destruct HI as (HK & _ & _ & Hv); apply elem_of_app in Hq as [Hq|Hq]; [by apply Hv|eapply freelist_rep_valid; [apply HK|done]]).
  destruct Hh as [Hh _]. clear -Ha' Hr' Hb Hh. unfold in_page, page_aligned, PGSIZE in *. change PHYSTOP with (557056 * 4096) in *. dlia.
Qed.

(** The stores of the header. *)
Definition put_header (a bn : Z) (w : bool) (k : kst) : kst :=
  set_mem (store64 (storen 4 (storen 4 (mem k) a (if w then VIRTIO_BLK_T_OUT else VIRTIO_BLK_T_IN)) (a + 4) 0) (a + 8) (wrap32 (bn * (BSIZE / 512)))) k.
Lemma put_header_spec a bn w k : header (put_header a bn w k) a bn w.
Proof.
  assert (forall m v b, b + 4 <= a + 8 -> loadn 4 (store64 m (a + 8) v) b = loadn 4 m b) as H1 by (intros m v b Hb; apply loadn_ext; intros e He; apply load8_store64_ne; lia).
  split; cbn [put_header mem set_mem].
  - rewrite H1 by lia. rewrite (loadn_ext 4 (storen 4 (mem k) a (if w then VIRTIO_BLK_T_OUT else VIRTIO_BLK_T_IN)) _ a) by (intros e He; apply load8_storen_ne; lia). rewrite loadn_storen. by destruct w.
  - rewrite H1 by lia. by rewrite loadn_storen.
  - rewrite load64_store64_eq. apply wrap64_small. pose proof (wrap32_range (bn * (BSIZE / 512))). lia.
Qed.
Lemma put_header_stack a pa bn w k : stack_at a pa k -> stack_at a pa (put_header a bn w k).
Proof using Hend.
  intros H. apply (stack_write a pa k); [done|done| |].
  - apply store64_wf, storen_wf, storen_wf. destruct H as [_ (l & t & HI & _)]. apply HI.
  - intros b Hb. cbn [put_header mem set_mem]. rewrite load8_store64_ne, !load8_storen_ne by lia. done.
Qed.

Lemma wp_rw_submit d p n c i0 i1 i2 b bn w a pa m (Q : unit -> vst -> Prop) : sized d -> Forall (fun i => 0 <= i < NUM) [i0; i1; i2] -> held n c p -> stack_at a pa (km p) ->
  (forall p', held n c p' -> header (km p') a bn w -> Q tt (VSt (submitted (Req i0 i1 i2 b w pa m) d) p')) ->
  wp (rw_submit R_write status_addr buf_data a kernel_pagetable i0 i1 i2 b bn w) Q (VSt d p).
Proof using Hend Hwrite.
  intros Hs Hr Hh Hst HQ. unfold rw_submit. do 3 apply wp_bind, wp_on_vp, wp_zoom, wp_modify. set (k3 := set_mem (store64 _ _ _) _). change k3 with (put_header a bn w (km p)). clear k3.
  set (p3 := set_km (put_header _ _ _ _) _). assert (held n c p3) as Hh3 by (by destruct Hh). assert (km p3 = put_header a bn w (km p)) as K3 by done. clearbody p3.
  apply wp_bind, wp_on_vp, wp_zoom, (wp_kvmpa a pa); [rewrite K3; by apply put_header_stack|]. replace (set_km (km p3) p3) with p3 by (by destruct p3).
  assert (Q tt (VSt (submitted (Req i0 i1 i2 b w pa m) d) p3)) as H by (apply HQ; [done|rewrite K3; apply put_header_spec]). clear HQ.
  destruct d as [ds ai av ui ue df ux bi lk bd]. unfold submitted in H. cbn [q0 q1 q2 qb qw qh desc avail_idx avail used_id used_elems dfree used_idx binfo vdisk_lock bdisk] in H.
  do 7 (apply wp_bind, wp_on_vd_modify; unfold info_at, set_binfo, set_bdisk, set_avail, set_desc; cbn [desc avail_idx avail used_id used_elems dfree used_idx binfo vdisk_lock bdisk]).
  apply wp_on_vp, wp_zoom. eapply wp_run; [apply Hwrite|]. replace (set_km (km p3) p3) with p3 by (by destruct p3). apply Forall_cons in Hr as [H0 _]. destruct Hs as (_ & _ & _ & _ & Hb). cbn [binfo] in Hb.
  rewrite default_insert by (unfold NUM in *; lia). rewrite decide_True by done. rewrite list_insert_insert_eq. exact H.
Qed.

Definition freed (r : req) (d : vdisk) : vdisk := give (q2 r) (give (q1 r) (give (q0 r) d)).
Lemma wp_free_chain d p n c r (Q : unit -> vst -> Prop) : sized d -> NoDup (chain_of r) -> Forall (fun i => 0 <= i < NUM /\ ~ is_free d i) (chain_of r) -> desc_at d (q0 r) = VDesc (qh r) 16 VRING_DESC_F_NEXT (q1 r) ->
  desc_at d (q1 r) = VDesc (buf_data (qb r)) BSIZE (data_flags (qw r)) (q2 r) -> desc_at d (q2 r) = VDesc (status_addr (q0 r)) 1 VRING_DESC_F_WRITE 0 -> held n c p ->
  (forall p', held n c p' -> Q tt (VSt (freed r d) p')) -> wp (free_chain free_addr (q0 r)) Q (VSt d p).
Proof.
  intros Hs Hnd Hr F0 F1 F2 Hh HQ. unfold chain_of in *. apply Forall_cons in Hr as [[Hr0 Hf0] Hr]. apply Forall_cons in Hr as [[Hr1 Hf1] Hr]. apply Forall_cons in Hr as [[Hr2 Hf2] _].
  assert (q1 r <> q0 r /\ q2 r <> q0 r /\ q2 r <> q1 r) as (N1 & N2 & N3) by exact (nodup3 _ _ _ Hnd). pose proof (sized_give (q0 r) d Hs) as Hs1. pose proof (sized_give (q1 r) _ Hs1) as Hs2.
  unfold free_chain. change (Z.to_nat NUM) with 8%nat. cbn [free_chain_loop]. unfold is_free in *.
  apply wp_bind, (wp_free_desc _ n c); [done|done|done|]. intros p1 Hh1 _. apply wp_bind, wp_on_vd_get. rewrite desc_give, decide_True, F0 by (done || lia). cbn [vnext vflags set_vaddr]. change (truth (Z.land VRING_DESC_F_NEXT _)) with true. cbv iota.
  apply wp_bind, (wp_free_desc _ n c); [done|done|unfold is_free; rewrite free_give, decide_False by (done || lia); done|]. intros p2 Hh2 _. apply wp_bind, wp_on_vd_get. rewrite desc_give, decide_True, desc_give, decide_False, F1 by (done || lia).
  cbn [vnext vflags set_vaddr]. replace (truth (Z.land (data_flags (qw r)) _)) with true by (by destruct (qw r)). cbv iota.
  apply wp_bind, (wp_free_desc _ n c); [done|done|unfold is_free; rewrite !free_give, !decide_False by (done || lia); done|]. intros p3 Hh3 _. apply wp_bind, wp_on_vd_get.
  rewrite desc_give, decide_True, !desc_give, !decide_False, F2 by (done || lia). cbn [vflags set_vaddr]. change (truth (Z.land VRING_DESC_F_WRITE _)) with false. cbv iota. apply wp_ret. by apply HQ.
Qed.

(** ** The device *)

(** What it does for a chain: it reads the header, and transfers [x_len] bytes
    from memory, or to memory. *)
Record xfer := Xfer { x_hdr : Z; x_addr : Z; x_len : Z; x_in : bool }.
Definition xfer_of (d : vdisk) (i : Z) : xfer :=
  let d0 := desc_at d i in let d1 := desc_at d (vnext d0) in
  Xfer (vaddr d0) (vaddr d1) (vlen d1) (truth (Z.land (vflags d1) VRING_DESC_F_WRITE)).
(** The status of success, at the address in the third descriptor. *)
Definition dev_status (a : Z) (d : vdisk) : vdisk :=
  set_binfo (imap (fun j x => if status_addr (Z.of_nat j) =? a then (fst x, 0) else x) (binfo d)) d.
Definition dev_used (i : Z) (d : vdisk) : vdisk :=
  VDisk (desc d) (avail_idx d) (avail d) (wrap16 (used_id d + 1)) (<[Z.to_nat (used_id d mod NUM) := i]> (used_elems d)) (dfree d) (used_idx d) (binfo d) (vdisk_lock d) (bdisk d).
Definition dev_finish (i : Z) (d : vdisk) : vdisk :=
  dev_used i (dev_status (vaddr (desc_at d (vnext (desc_at d (vnext (desc_at d i)))))) d).

(** ** The system *)

(** A process in [virtio_disk_rw]: where it sleeps, its header and the address
    of that for the device; [w_mark] is the number of transfers that were done when
    its request was made. *)
Record waiter := Waiter { w_me : nat; w_buf : nat; w_block : Z; w_write : bool; w_at : rw_point; w_ie : bool; w_stack : Z; w_hdr : Z; w_mark : nat }.
Record vsys := VSys { drv : vdisk; dev_idx : Z; dev_flight : list Z; dev_log : list xfer; waiting : list waiter }.

(** [w] after it has come back with [r], when [n] transfers were done. *)
Definition settle (n : nat) (w : waiter) (r : susp (rw_point * bool) unit) : list waiter :=
  match r with
  | Done _ => []
  | Asleep (pt, ie) => [Waiter (w_me w) (w_buf w) (w_block w) (w_write w) pt ie (w_stack w) (w_hdr w)
      (match w_at w with NeedDesc => n | NeedDone _ => w_mark w end)]
  end.

Definition rw_call (w : waiter) : M vst (susp (rw_point * bool) unit) :=
  virtio_disk_rw R_write free_addr status_addr buf_addr buf_data (w_stack w) kernel_pagetable (w_buf w) (w_block w) (w_write w).
Definition rw_resume (w : waiter) : M vst (susp (rw_point * bool) unit) :=
  virtio_disk_rw_again R_write free_addr status_addr buf_addr buf_data (w_stack w) kernel_pagetable (w_me w) (w_buf w) (w_block w) (w_write w) (w_at w) (w_ie w).

(** A process that may call, and one that the scheduler has switched to. *)
Record may_call (s : vsys) (w : waiter) (p : pst) : Prop := MayCall {
  mc_at : w_at w = NeedDesc; mc_held : held 0 (Some (w_me w)) p; mc_me : (w_me w < Z.to_nat NPROC)%nat; mc_stack : stack_at (w_stack w) (w_hdr w) (km p);
  mc_new : w_buf w ∉ w_buf <$> waiting s; mc_buf : (w_buf w < length (bdisk (drv s)))%nat }.
Record switched_to (w : waiter) (p : pst) : Prop := SwitchedTo {
  sw_running : running (w_me w) p; sw_ie : cpu_ok (set_cintena (w_ie w) p); sw_me : (w_me w < Z.to_nat NPROC)%nat; sw_stack : stack_at (w_stack w) (w_hdr w) (km p) }.

Inductive vstep : vsys -> vsys -> Prop :=
| v_call s w p r d' p' : may_call s w p -> rw_call w (VSt (drv s) p) = Ok r (VSt d' p') ->
    vstep s (VSys d' (dev_idx s) (dev_flight s) (dev_log s) (waiting s ++ settle (length (dev_log s)) w r))
| v_back s W1 w W2 p r d' p' : waiting s = W1 ++ w :: W2 -> switched_to w p -> rw_resume w (VSt (drv s) p) = Ok r (VSt d' p') ->
    vstep s (VSys d' (dev_idx s) (dev_flight s) (dev_log s) (W1 ++ settle (length (dev_log s)) w r ++ W2))
| v_intr s n c p d' p' : held n c p -> virtio_disk_intr R_read R_write buf_addr (VSt (drv s) p) = Ok tt (VSt d' p') ->
    vstep s (VSys d' (dev_idx s) (dev_flight s) (dev_log s) (waiting s))
| v_take s i : dev_idx s <> avail_idx (drv s) -> avail (drv s) !! Z.to_nat (dev_idx s mod NUM) = Some i ->
    vstep s (VSys (drv s) (wrap16 (dev_idx s + 1)) (dev_flight s ++ [i]) (dev_log s) (waiting s))
| v_finish s l1 i l2 : dev_flight s = l1 ++ i :: l2 ->
    vstep s (VSys (dev_finish i (drv s)) (dev_idx s) (l1 ++ l2) (dev_log s ++ [xfer_of (drv s) i]) (waiting s)).

(** ** The invariant *)

Definition key (r : req) : Z * nat * bool * Z * nat := (q0 r, qb r, qw r, qh r, qm r).
Definition asked (w : waiter) : option (Z * nat * bool * Z * nat) :=
  match w_at w with NeedDone i => Some (i, w_buf w, w_write w, w_hdr w, w_mark w) | NeedDesc => None end.
Definition transfer (r : req) : xfer := Xfer (qh r) (buf_data (qb r)) BSIZE (negb (qw r)).

#[local] Set Default Proof Using "All".

(** The requests [R]: in the available ring, in the device, in the used ring, and done. *)
Record core (d : vdisk) (j : Z) (fl : list Z) (lg : list xfer) (W : list waiter) (R A F U D : list req) : Prop := Core {
  co_all : R ≡ₚ A ++ F ++ U ++ D;
  co_sized : sized d;
  co_nodup : NoDup (chains R);
  co_range : Forall (fun i => 0 <= i < NUM) (chains R);
  co_free : forall i, 0 <= i < NUM -> is_free d i <-> i ∉ chains R;
  co_fmt : Forall (formatted d) R;
  co_avail : ring (avail d) j A /\ avail_idx d = wrap16 (j + Z.of_nat (length A)) /\ 0 <= j < 2^16;
  co_flight : fl = q0 <$> F;
  co_used : ring (used_elems d) (used_idx d) U /\ used_id d mod NUM = (used_idx d + Z.of_nat (length U)) mod NUM /\ 0 <= used_idx d < NUM;
  co_busy : Forall (fun r => bdisk d !! qb r = Some 1) (A ++ F ++ U);
  co_done : Forall (fun r => bdisk d !! qb r = Some 0) D;
  co_wait : key <$> R ≡ₚ omap asked W;
  co_bufs : NoDup (w_buf <$> W) /\ Forall (fun w => (w_buf w < length (bdisk d))%nat) W;
  co_log : Forall (fun r => transfer r ∈ drop (qm r) lg) (U ++ D);
  co_mark : Forall (fun r => (qm r <= length lg)%nat) R }.

Lemma core_lock x d j fl lg W R A F U D : core d j fl lg W R A F U D -> core (set_vdisk_lock x d) j fl lg W R A F U D.
Proof. intros []. split; try done. eapply Forall_impl; [exact co_fmt0|]. by intros r []. Qed.

(** At most two requests fit into eight descriptors. *)
Lemma chains_length (R : list req) : length (chains R) = (3 * length R)%nat.
Proof. unfold chains. induction R as [|r R IH]; [done|]. rewrite bind_cons, length_app, IH. cbn. lia. Qed.
Lemma core_count d j fl lg W R A F U D : core d j fl lg W R A F U D ->
  (length (filter (is_free d) (seqZ 0 NUM)) + 3 * length (omap asked W) = Z.to_nat NUM)%nat.
Proof.
  intros []. rewrite <- co_wait0, length_fmap, <- chains_length, <- length_app. change (Z.to_nat NUM) with (length (seqZ 0 NUM)). apply Permutation_length, NoDup_Permutation.
  - apply NoDup_app. split; [apply NoDup_filter, NoDup_seqZ|]. split; [|done]. intros i [Hi Hr%elem_of_seqZ]%list_elem_of_filter. apply co_free0; [lia|done].
  - apply NoDup_seqZ.
  - intros i. rewrite elem_of_app, list_elem_of_filter, elem_of_seqZ. split.
    + intros [[_ ?]|Hi]; [done|]. rewrite Forall_forall in co_range0. apply co_range0 in Hi. lia.
    + intros Hi. destruct (decide (i ∈ chains R)) as [H|H]; [by right|left]. split; [by apply co_free0|done].
Qed.
Lemma core_few d j fl lg W R A F U D : core d j fl lg W R A F U D -> (length (A ++ F ++ U ++ D) <= 2)%nat.
Proof. intros H. pose proof (core_count _ _ _ _ _ _ _ _ _ _ H) as Hc. destruct H. rewrite <- co_wait0, length_fmap, co_all0 in Hc. change (Z.to_nat NUM) with 8%nat in Hc. lia. Qed.

(** *** The moves of the device *)

Lemma core_take d j fl lg W R A F U D i : core d j fl lg W R A F U D -> j <> avail_idx d -> avail d !! Z.to_nat (j mod NUM) = Some i ->
  exists A' F', core d (wrap16 (j + 1)) (fl ++ [i]) lg W R A' F' U D.
Proof.
  intros HC Hj Hi. pose proof (core_few _ _ _ _ _ _ _ _ _ _ HC) as Hfew. rewrite !length_app in Hfew. destruct HC as [Hall Hsz Hnd Hrg Hfr Hfm (Hr & Ha & Hj') Hfl Hus Hb Hdn Hw Hbf Hlg Hm].
  destruct A as [|r A]; [cbn in Ha; rewrite Z.add_0_r, wrap16_small in Ha by done; congruence|]. destruct (used_ring_pop (avail d) j (wrap16 (j + 1)) A r) as [E Hr']; [done|lia|apply wrap16_range|unfold wrap16, NUM; dlia|].
  assert (i = q0 r) as -> by congruence. exists A, (F ++ [r]). split; try done.
  - rewrite Hall. solve_Permutation.
  - split; [done|]. split; [|apply wrap16_range]. rewrite Ha. cbn [length]. unfold wrap16. dlia.
  - by rewrite Hfl, fmap_app.
  - eapply forall_perm; [exact Hb|solve_Permutation].
Qed.

Lemma formatted_ext d d' r : (forall i, i ∈ chain_of r -> desc_at d' i = desc_at d i) -> info_at d' (q0 r) = info_at d (q0 r) -> formatted d r -> formatted d' r.
Proof. intros H1 H2 [E0 E1 E2 E3]. unfold chain_of in H1. split; [rewrite <- E0|rewrite <- E1|rewrite <- E2|by rewrite H2]; apply H1; set_solver. Qed.

Lemma status_kept a d i b : info_at d i = (Some b, 0) -> info_at (dev_status a d) i = (Some b, 0).
Proof.
  unfold info_at. cbn [dev_status binfo set_binfo]. rewrite list_lookup_imap. destruct (binfo d !! Z.to_nat i) as [e|]; [|done]. cbn. intros ->. by destruct (_ =? _).
Qed.
Lemma formatted_finish d r i : formatted d r -> formatted (dev_finish i d) r.
Proof. intros Hf. apply (formatted_ext d); [done| |done]. rewrite (fm_i _ _ Hf). apply status_kept, Hf. Qed.
Lemma xfer_formatted d r : formatted d r -> xfer_of d (q0 r) = transfer r.
Proof. intros [E0 E1 _ _]. unfold xfer_of. rewrite E0. cbn [vnext]. rewrite E1. unfold transfer. cbn. by destruct (qw r). Qed.

Lemma core_finish d j lg W R A F U D l1 i l2 : core d j (l1 ++ i :: l2) lg W R A F U D ->
  exists F' U', core (dev_finish i d) j (l1 ++ l2) (lg ++ [xfer_of d i]) W R A F' U' D.
Proof.
  intros HC. pose proof (core_few _ _ _ _ _ _ _ _ _ _ HC) as Hfew. rewrite !length_app in Hfew. destruct HC as [Hall Hsz Hnd Hrg Hfr Hfm Hav Hfl (Hr & Hu & Hu') Hb Hdn Hw Hbf Hlg Hm].
  symmetry in Hfl. apply fmap_app_inv in Hfl as (F1 & F2' & -> & Hfl & ->). symmetry in Hfl. apply fmap_cons_inv in Hfl as (r & F2 & -> & -> & ->).
  assert (formatted d r) as Hf by (rewrite Forall_forall in Hfm; apply Hfm; rewrite Hall; set_solver). assert (qm r <= length lg)%nat as Hmr by (rewrite Forall_forall in Hm; apply Hm; rewrite Hall; set_solver).
  exists (F1 ++ F2), (U ++ [r]). split; try done.
  - rewrite Hall. solve_Permutation.
  - destruct Hsz as (?&?&?&?&?). unfold sized. cbn. by rewrite length_insert, length_imap.
  - eapply Forall_impl; [exact Hfm|]. intros r'. apply formatted_finish.
  - by rewrite fmap_app.
  - cbn [used_elems used_idx used_id dev_finish dev_used dev_status set_binfo]. split; [|split; [|done]].
    + apply ring_add; [done|apply Hsz|lia|lia|done].
    + rewrite length_app. cbn [length]. unfold wrap16, NUM in *. dlia.
  - eapply forall_perm; [exact Hb|solve_Permutation].
  - eapply forall_perm; [apply (Forall_app_2 _ [r] (U ++ D))|solve_Permutation].
    + apply Forall_singleton. rewrite (xfer_formatted _ _ Hf). rewrite drop_app_le by done. apply elem_of_app. right. by left.
    + eapply Forall_impl; [exact Hlg|]. intros r' Hr'. rewrite drop_app. apply elem_of_app. by left.
  - eapply Forall_impl; [exact Hm|]. intros r' Hr'. cbn in *. rewrite length_app. lia.
Qed.

(** *** The interrupt *)

Lemma asked_bufs W : ((fun k => k.1.1.1.2) <$> omap asked W) `sublist_of` (w_buf <$> W).
Proof.
  induction W as [|w W IH]; [done|]. cbn [omap list_omap fmap list_fmap]. unfold asked at 1. destruct (w_at w); cbn [fmap list_fmap fst snd]; [by apply sublist_cons|by apply sublist_skip].
Qed.
Lemma core_distinct d j fl lg W R A F U D : core d j fl lg W R A F U D -> NoDup (qb <$> R) /\ Forall (fun r => (qb r < length (bdisk d))%nat) R.
Proof.
  intros HC. pose proof (co_wait _ _ _ _ _ _ _ _ _ _ HC) as Hw. destruct (co_bufs _ _ _ _ _ _ _ _ _ _ HC) as [Hn Hl]. assert (qb <$> R ≡ₚ (fun k => k.1.1.1.2) <$> omap asked W) as E by (rewrite <- Hw, <- list_fmap_compose; done).
  split; [rewrite E; eapply sublist_NoDup; [done|apply asked_bufs]|]. apply Forall_forall. intros r Hr. assert (qb r ∈ w_buf <$> W) as Hq.
  { eapply elem_of_sublist; [|apply asked_bufs]. rewrite <- E. by apply list_elem_of_fmap_2. }
  apply list_elem_of_fmap in Hq as (w & -> & Hw'). rewrite Forall_forall in Hl. by apply Hl.
Qed.

Definition seen (r : req) (d : vdisk) : vdisk := set_used_idx ((used_idx d + 1) mod NUM) (set_bdisk (<[qb r := 0]> (bdisk d)) d).

Lemma core_seen d j fl lg W R A F r U D : core d j fl lg W R A F (r :: U) D -> core (seen r d) j fl lg W R A F U (D ++ [r]).
Proof.
  intros HC. destruct (core_distinct _ _ _ _ _ _ _ _ _ _ HC) as [Hq Hql]. destruct HC as [Hall Hsz Hnd Hrg Hfr Hfm Hav Hfl (Hr & Hu & Hu') Hb Hdn Hw [Hbf Hbl] Hlg Hm].
  assert (NoDup (qb <$> (r :: A ++ F ++ U ++ D))) as [Hne _]%NoDup_cons by (assert (r :: A ++ F ++ U ++ D ≡ₚ R) as -> by (rewrite Hall; solve_Permutation); exact Hq).
  assert (forall l x, l ⊆ A ++ F ++ U ++ D -> Forall (fun r => bdisk d !! qb r = Some x) l -> Forall (fun r' => bdisk (seen r d) !! qb r' = Some x) l) as Hkeep.
  { intros l x Hl H. apply Forall_forall. intros r' Hr'. cbn. rewrite list_lookup_insert_ne; [by rewrite Forall_forall in H; apply H|]. intros E. apply Hne. rewrite E. apply list_elem_of_fmap_2. by apply Hl. }
  split; try done.
  - rewrite Hall. solve_Permutation.
  - eapply Forall_impl; [exact Hfm|]. intros r' Hr'. by apply (formatted_ext d).
  - cbn. unfold NUM in *. split; [|split; [|dlia]]; [|cbn [length] in Hu; dlia]. apply (used_ring_pop _ (used_idx d) ((used_idx d + 1) mod 8) U r) in Hr; [apply Hr|lia|dlia|unfold NUM; dlia].
  - apply Hkeep; [set_solver|]. apply (Forall_app _ [r] (A ++ F ++ U)). eapply forall_perm; [exact Hb|solve_Permutation].
  - apply Forall_app. split; [by apply Hkeep; [set_solver|]|]. apply Forall_singleton. cbn. apply list_lookup_insert_eq. rewrite Forall_forall in Hql. apply Hql. rewrite Hall. set_solver.
  - split; [done|]. cbn. by rewrite length_insert.
  - eapply forall_perm; [exact Hlg|solve_Permutation].
Qed.

Lemma wp_intr_loop j fl lg W R A F n c U : forall fuel d D p (Q : unit -> vst -> Prop), core d j fl lg W R A F U D -> (length U <= fuel)%nat -> held n c p ->
  (forall d' p', core d' j fl lg W R A F [] (D ++ U) -> vdisk_lock d' = vdisk_lock d -> held n c p' -> Q tt (VSt d' p')) -> wp (intr_loop buf_addr fuel) Q (VSt d p).
Proof.
  induction U as [|r U IH]; intros fuel d D p Q HC Hf Hh HQ; pose proof (co_used _ _ _ _ _ _ _ _ _ _ HC) as (Hr & Hu & Hu').
  - destruct fuel; cbn [intr_loop]; apply wp_bind, wp_on_vd_get; cbn in Hu; rewrite Z.add_0_r in Hu; rewrite (proj2 (Z.eqb_eq _ _) (eq_sym Hu)); apply wp_ret, HQ; rewrite ?app_nil_r; done.
  - pose proof (core_few _ _ _ _ _ _ _ _ _ _ HC) as Hfew. rewrite !length_app in Hfew. cbn [length] in *. destruct fuel as [|fuel]; [lia|]. cbn [intr_loop]. apply wp_bind, wp_on_vd_get.
    replace (used_idx d mod NUM =? used_id d mod NUM) with false by (symmetry; apply Z.eqb_neq; rewrite Hu; unfold NUM in *; dlia).
    destruct (used_ring_pop _ _ (used_idx d + 1) _ _ Hr) as [E _]; [lia|lia|done|]. rewrite Z.mod_small in E by done. rewrite E. change (default 0 (Some (q0 r))) with (q0 r).
    assert (formatted d r) as [_ _ _ Hi] by (pose proof (co_fmt _ _ _ _ _ _ _ _ _ _ HC) as H; rewrite Forall_forall in H; apply H; rewrite (co_all _ _ _ _ _ _ _ _ _ _ HC); set_solver).
    rewrite Hi. cbn [truth fst snd Z.eqb negb]. apply wp_bind, wp_on_vp, wp_ret. apply wp_bind, wp_on_vd_modify. apply wp_bind, (wp_v_wakeup _ _ n c); [done|]. intros p' Hh' _. apply wp_bind, wp_on_vd_modify.
    apply (IH fuel (seen r d) (D ++ [r])); [by apply core_seen|lia|done|]. intros d' p'' HC' Hl' Hh''. apply HQ; [by rewrite <- app_assoc in HC'|done|done].
Qed.

Lemma wp_virtio_disk_intr d j fl lg W R A F U D n c p (Q : unit -> vst -> Prop) : core d j fl lg W R A F U D -> vdisk_lock d = spin_free -> held n c p ->
  (forall d' p', core d' j fl lg W R A F [] (D ++ U) -> vdisk_lock d' = spin_free -> Q tt (VSt d' p')) -> wp (virtio_disk_intr R_read R_write buf_addr) Q (VSt d p).
Proof.
  intros HC Hl Hh HQ. assert (0 <= n) as Hn by (rewrite <- (hd_noff _ _ _ Hh); apply (hd_cpu _ _ _ Hh)). unfold virtio_disk_intr. apply wp_bind, (wp_vd_acquire _ n c); [done|done|]. intros p1 Hh1 _.
  pose proof (core_few _ _ _ _ _ _ _ _ _ _ HC) as Hfew. rewrite !length_app in Hfew.
  apply wp_bind, (wp_intr_loop j fl lg W R A F (n + 1) c U _ _ D); [by apply core_lock|change (Z.to_nat NUM) with 8%nat; lia|done|]. intros d2 p2 HC2 Hl2 Hh2.
  apply wp_bind, wp_bind, wp_on_vp, wp_zoom. destruct (Hread (VIRTIO0 + VIRTIO_MMIO_INTERRUPT_STATUS) (km p2)) as [st Hst]. eapply wp_run; [exact Hst|]. replace (set_km (km p2) p2) with p2 by (by destruct p2).
  apply wp_on_vp, wp_zoom. eapply wp_run; [apply Hwrite|]. replace (set_km (km p2) p2) with p2 by (by destruct p2).
  apply (wp_vd_release _ (n + 1) c); [done|lia|done|]. intros p3 Hh3 _. apply HQ; [by apply core_lock|done].
Qed.

(** *** A new request *)

Lemma submitted_formatted d r : sized d -> NoDup (chain_of r) -> Forall (fun i => 0 <= i < NUM) (chain_of r) -> formatted (submitted r d) r.
Proof.
  intros (Hd&_&_&_&Hi) (N1 & N2 & N3)%nodup3 Hr. unfold chain_of in Hr. rewrite !Forall_cons in Hr. destruct Hr as (H0 & H1 & H2 & _). unfold NUM in *.
  split; unfold desc_at, info_at; cbn [submitted desc binfo]; rewrite !default_insert by (rewrite ?length_insert; lia); repeat case_decide; congruence.
Qed.
Lemma submitted_others d r i : sized d -> Forall (fun i => 0 <= i < NUM) (chain_of r) -> 0 <= i -> i ∉ chain_of r -> desc_at (submitted r d) i = desc_at d i /\ info_at (submitted r d) i = info_at d i.
Proof.
  intros (Hd&_&_&_&Hi) Hr Hi0 Hn. unfold chain_of in *. rewrite !Forall_cons in Hr. destruct Hr as (H0 & H1 & H2 & _). unfold NUM in *.
  unfold desc_at, info_at; cbn [submitted desc binfo]. rewrite !default_insert by (rewrite ?length_insert; lia). rewrite !decide_False by set_solver. done.
Qed.

Definition taken (r : req) (d : vdisk) : vdisk := take (q2 r) (take (q1 r) (take (q0 r) d)).
Lemma taken_free r d i : sized d -> Forall (fun i => 0 <= i < NUM) (chain_of r) -> 0 <= i -> is_free (taken r d) i <-> is_free d i /\ i ∉ chain_of r.
Proof.
  intros Hs Hr Hi. unfold chain_of in *. rewrite !Forall_cons in Hr. destruct Hr as (H0 & H1 & H2 & _). unfold is_free, taken. rewrite !free_take by (try apply sized_take; try apply sized_take; done || lia).
  repeat case_decide; subst; rewrite ?not_elem_of_cons; cbn; intuition (try done; set_solver).
Qed.

Lemma core_apart d j fl lg W1 w W2 R A F U D : core d j fl lg (W1 ++ w :: W2) R A F U D -> asked w = None -> w_buf w ∉ qb <$> R /\ (w_buf w < length (bdisk d))%nat.
Proof.
  intros HC Ha. pose proof (co_wait _ _ _ _ _ _ _ _ _ _ HC) as Hw. destruct (co_bufs _ _ _ _ _ _ _ _ _ _ HC) as [Hn Hl]. split; [|rewrite Forall_app, Forall_cons in Hl; by apply Hl].
  assert (qb <$> R ≡ₚ (fun k => k.1.1.1.2) <$> omap asked (W1 ++ W2)) as ->. { rewrite omap_app in Hw. cbn [omap list_omap] in Hw. rewrite Ha in Hw. rewrite omap_app, <- Hw, <- list_fmap_compose. done. }
  intros H. apply (elem_of_sublist _ (w_buf <$> W1 ++ W2)) in H; [|apply asked_bufs]. rewrite fmap_app in *. cbn [fmap list_fmap] in Hn. apply NoDup_app in Hn as (_ & H1 & [H2 _]%NoDup_cons).
  apply elem_of_app in H as [H|H]; [|done]. apply (H1 _ H). by left.
Qed.

Lemma core_submit d j fl lg W1 w W2 R A F U D r w' : core d j fl lg (W1 ++ w :: W2) R A F U D -> asked w = None -> NoDup (chain_of r) -> Forall (fun i => 0 <= i < NUM /\ is_free d i) (chain_of r) ->
  qb r = w_buf w -> qm r = length lg -> w_buf w' = w_buf w -> asked w' = Some (key r) -> core (submitted r (taken r d)) j fl lg (W1 ++ w' :: W2) (r :: R) (A ++ [r]) F U D.
Proof.
  intros HC Hat Hn Hcf Eb Em Ew Ek. pose proof (core_few _ _ _ _ _ _ _ _ _ _ HC) as Hfew. rewrite !length_app in Hfew. destruct (core_apart _ _ _ _ _ _ _ _ _ _ _ _ HC Hat) as [Hq Hql]. rewrite <- Eb in Hq, Hql.
  destruct HC as [Hall Hsz Hnd Hrg Hfr Hfm (Hav & Hai & Hj) Hfl Hus Hb Hdn Hw [Hbf Hbl] Hlg Hm].
  assert (Forall (fun i => 0 <= i < NUM) (chain_of r)) as Hcr by (eapply Forall_impl; [exact Hcf|]; by intros i []). assert (sized (taken r d)) as Hsz' by (by do 3 apply sized_take).
  assert (forall i, i ∈ chain_of r -> i ∉ chains R) as Hdis. { intros i Hi. rewrite Forall_forall in Hcf. destruct (Hcf i Hi) as [Hi' Hif]. by apply Hfr. }
  assert (forall l x, l ⊆ R -> Forall (fun r => bdisk d !! qb r = Some x) l -> Forall (fun r' => bdisk (submitted r (taken r d)) !! qb r' = Some x) l) as Hkeep.
  { intros l x Hl H. apply Forall_forall. intros r' Hr'. cbn. rewrite list_lookup_insert_ne; [by rewrite Forall_forall in H; apply H|]. intros E. apply Hq. rewrite E. apply list_elem_of_fmap_2. by apply Hl. }
  split; try done.
  - rewrite Hall. solve_Permutation.
  - destruct Hsz' as (?&?&?&?&?). unfold sized. cbn [submitted desc avail used_elems dfree binfo]. by rewrite !length_insert.
  - unfold chains. rewrite bind_cons. by apply NoDup_app.
  - unfold chains. rewrite bind_cons. by apply Forall_app.
  - intros i Hi. change (is_free (taken r d) i <-> i ∉ chains (r :: R)). rewrite taken_free by (done || lia). unfold chains. rewrite bind_cons, elem_of_app. rewrite (Hfr i Hi). unfold chains. tauto.
  - apply Forall_cons. split; [by apply submitted_formatted|]. apply Forall_forall. intros r' Hr'. rewrite Forall_forall in Hfm. assert (forall i, i ∈ chain_of r' -> 0 <= i /\ i ∉ chain_of r) as Hi.
    { intros i Hi. assert (i ∈ chains R) as Hc by (apply list_elem_of_bind; eauto). rewrite Forall_forall in Hrg. split; [apply Hrg in Hc; lia|]. intros H. by apply (Hdis i). }
    apply (formatted_ext d); [intros i Hii; apply (submitted_others (taken r d) r i Hsz' Hcr); apply (Hi i Hii)|destruct (Hi (q0 r')) as [Ha Hb']; [by left|]; apply (submitted_others (taken r d) r _ Hsz' Hcr Ha Hb')|by apply Hfm].
  - cbn [submitted avail avail_idx]. change (avail_idx (taken r d)) with (avail_idx d). change (avail (taken r d)) with (avail d). rewrite length_app. cbn [length]. split; [|split; [unfold wrap16 in *; rewrite Hai; dlia|done]].
    apply ring_add; [done|apply Hsz|lia|lia|rewrite Hai; unfold wrap16, NUM; dlia].
  - rewrite <- (app_assoc A). apply (forall_perm _ ([r] ++ A ++ F ++ U)); [|solve_Permutation]. apply Forall_app. split; [apply Forall_singleton; cbn; by apply list_lookup_insert_eq|]. apply Hkeep; [rewrite Hall; set_solver|done].
  - apply Hkeep; [rewrite Hall; set_solver|done].
  - cbn [fmap list_fmap]. change (list_fmap _ _ key R) with (key <$> R). rewrite Hw, !omap_app. cbn [omap list_omap]. rewrite Ek, Hat. solve_Permutation.
  - rewrite fmap_app in *. cbn [fmap list_fmap] in *. rewrite Ew. split; [done|]. cbn [submitted bdisk]. change (bdisk (taken r d)) with (bdisk d). rewrite length_insert. rewrite Forall_app, Forall_cons in *. by rewrite Ew.
  - apply Forall_cons. split; [lia|done].
Qed.

Lemma chains_in r R i : r ∈ R -> i ∈ chain_of r -> i ∈ chains R.
Proof. intros. apply list_elem_of_bind. eauto. Qed.

Lemma core_undone d d' j fl lg W R A F U D : core d j fl lg W R A F U D -> undone d d' -> core d' j fl lg W R A F U D.
Proof.
  intros [Hall Hsz Hnd Hrg Hfr Hfm Hav Hfl Hus Hb Hdn Hw Hbf Hlg Hm] [H1 H2 (x & y & Hx & Hy & ->)]. split; try done.
  - destruct Hsz as (?&?&?&?&?). unfold sized. cbn. by rewrite Hx, Hy.
  - intros i Hi. rewrite H1 by done. by apply Hfr.
  - apply Forall_forall. intros r Hr. rewrite Forall_forall in Hfm. rewrite Forall_forall in Hrg. apply (formatted_ext d); [|done|by apply Hfm]. intros i Hi. pose proof (chains_in r R i Hr Hi) as Hc. apply H2; [by apply Hrg|]. intros H. by apply Hfr in H; [|apply Hrg].
Qed.

(** *** A request that is done *)

Lemma core_asked d j fl lg W1 w W2 R A F U D i : core d j fl lg (W1 ++ w :: W2) R A F U D -> w_at w = NeedDone i -> exists r R', R ≡ₚ r :: R' /\ asked w = Some (key r) /\ q0 r = i /\ key <$> R' ≡ₚ omap asked (W1 ++ W2).
Proof.
  intros HC Hat. pose proof (co_wait _ _ _ _ _ _ _ _ _ _ HC) as Hw. rewrite omap_app in Hw. cbn [omap list_omap] in Hw. unfold asked at 2 in Hw. rewrite Hat in Hw.
  assert ((i, w_buf w, w_write w, w_hdr w, w_mark w) ∈ key <$> R) as Hk by (rewrite Hw; set_solver). apply list_elem_of_fmap in Hk as (r & Hk & Hr). apply elem_of_Permutation in Hr as [R' HR]. exists r, R'.
  split; [done|]. split; [unfold asked; by rewrite Hat, Hk|]. split; [by injection Hk|]. rewrite HR in Hw. cbn [fmap list_fmap] in Hw. rewrite omap_app. rewrite Hk in Hw. apply (Permutation_cons_inv (a := key r)). rewrite Hw. solve_Permutation.
Qed.

Definition released (r : req) (d : vdisk) : vdisk := freed r (set_binfo (<[Z.to_nat (q0 r) := (None, snd (info_at d (q0 r)))]> (binfo d)) d).

Lemma freed_spec r d : sized d -> NoDup (chain_of r) -> Forall (fun i => 0 <= i < NUM) (chain_of r) -> sized (freed r d) /\ binfo (freed r d) = binfo d /\
  (forall i, 0 <= i -> is_free (freed r d) i <-> is_free d i \/ i ∈ chain_of r) /\ (forall i, 0 <= i -> i ∉ chain_of r -> desc_at (freed r d) i = desc_at d i).
Proof.
  intros Hs Hn Hr. unfold chain_of in *. rewrite !Forall_cons in Hr. destruct Hr as (H0 & H1 & H2 & _). pose proof (sized_give (q0 r) d Hs) as Hs1. pose proof (sized_give (q1 r) _ Hs1) as Hs2. unfold freed. splits.
  - by apply sized_give.
  - done.
  - intros i Hi. unfold is_free. rewrite !free_give by (done || lia). rewrite !elem_of_cons, elem_of_nil. repeat case_decide; subst; cbn; intuition congruence.
  - intros i Hi Hni. rewrite !not_elem_of_cons in Hni. rewrite !desc_give by (done || lia). rewrite !decide_False by tauto. done.
Qed.

Lemma core_release d j fl lg W1 w W2 R R' A F U D1 r D2 : core d j fl lg (W1 ++ w :: W2) R A F U (D1 ++ r :: D2) -> R ≡ₚ r :: R' -> key <$> R' ≡ₚ omap asked (W1 ++ W2) ->
  core (released r d) j fl lg (W1 ++ W2) R' A F U (D1 ++ D2).
Proof.
  intros [Hall Hsz Hnd Hrg Hfr Hfm Hav Hfl Hus Hb Hdn Hw [Hbf Hbl] Hlg Hm] HR HW. assert (chains R ≡ₚ chain_of r ++ chains R') as Hch by (unfold chains; by rewrite HR, bind_cons).
  rewrite Hch in Hnd, Hrg. apply NoDup_app in Hnd as (Hn1 & Hn2 & Hn3). apply Forall_app in Hrg as [Hr1 Hr2]. rewrite HR in Hfm, Hm. apply Forall_cons in Hfm as [_ Hfm]. apply Forall_cons in Hm as [_ Hm].
  set (d1 := set_binfo (<[Z.to_nat (q0 r) := (None, snd (info_at d (q0 r)))]> (binfo d)) d). assert (sized d1) as Hs1 by (destruct Hsz as (?&?&?&?&?); unfold sized; cbn; by rewrite length_insert). destruct (freed_spec r d1 Hs1 Hn1 Hr1) as (Hs2 & Eb & Hf2 & Hd2). split; try done.
  - apply (Permutation_cons_inv (a := r)). rewrite <- HR, Hall. solve_Permutation.
  - intros i Hi. change (released r d) with (freed r d1). rewrite Hf2 by lia. change (is_free d1 i) with (is_free d i). rewrite (Hfr i Hi), Hch, elem_of_app. destruct (decide (i ∈ chain_of r)) as [Hc|Hc]; [|tauto]. pose proof (Hn2 i Hc). tauto.
  - rewrite Forall_forall in Hfm. rewrite Forall_forall in Hr2. apply Forall_forall. intros r' Hr'. assert (forall i, i ∈ chain_of r' -> 0 <= i /\ i ∉ chain_of r) as Hi. { intros i Hi. pose proof (chains_in r' R' i Hr' Hi) as Hc. split; [apply Hr2 in Hc; lia|]. intros H. by apply (Hn2 i). }
    apply (formatted_ext d); [intros i Hii; destruct (Hi i Hii); change (released r d) with (freed r d1); by rewrite Hd2| |by apply Hfm]. unfold info_at. change (released r d) with (freed r d1). rewrite Eb. cbn [binfo set_binfo d1]. destruct (Hi (q0 r')) as [Ha Hb']; [by left|]. rewrite list_lookup_insert_ne; [done|]. intros E. apply Hb'. rewrite Forall_forall in Hr1. assert (q0 r' = q0 r) as ->; [|by left].
    assert (0 <= q0 r) by (apply Hr1; by left). lia.
  - eapply (Forall_app _ [r]), forall_perm; [exact Hdn|solve_Permutation].
  - rewrite fmap_app in *. cbn [fmap list_fmap] in Hbf. rewrite Forall_app, Forall_cons in Hbl. split; [|apply Forall_app; split; apply Hbl].
    apply NoDup_app in Hbf as (H1 & H2 & [H3 H4]%NoDup_cons). apply NoDup_app. split; [done|]. split; [|done]. intros z Hz Hz'. apply (H2 z Hz). by right.
  - apply (Forall_app _ [r]). eapply forall_perm; [exact Hlg|solve_Permutation].
Qed.

(** *** [virtio_disk_rw] *)

Lemma core_rename d j fl lg W1 w w' W2 R A F U D : core d j fl lg (W1 ++ w :: W2) R A F U D -> asked w' = asked w -> w_buf w' = w_buf w -> core d j fl lg (W1 ++ w' :: W2) R A F U D.
Proof.
  intros [] Ea Ew. split; try done; [rewrite co_wait0, !omap_app; cbn [omap list_omap]; by rewrite Ea|]. rewrite !fmap_app in *. cbn [fmap list_fmap] in *. rewrite !Forall_app, !Forall_cons in *. by rewrite Ew.
Qed.

(** What [virtio_disk_rw] promises when it comes back, or sleeps. *)
Definition came_back (lg : list xfer) (w : waiter) (r : susp (rw_point * bool) unit) (p : pst) : Prop :=
  match r with
  | Done _ => w_at w <> NeedDesc /\ Xfer (w_hdr w) (buf_data (w_buf w)) BSIZE (negb (w_write w)) ∈ drop (w_mark w) lg
  | Asleep (NeedDone _, _) => w_at w = NeedDesc -> header (km p) (w_stack w) (w_block w) (w_write w)
  | Asleep (NeedDesc, _) => w_at w = NeedDesc
  end.

Lemma wp_rw_wait d j fl lg W1 w W2 R A F U D i p (Q : susp bool unit -> vst -> Prop) : core d j fl lg (W1 ++ w :: W2) R A F U D -> w_at w = NeedDone i ->
  held 1 (Some (w_me w)) p -> (w_me w < Z.to_nat NPROC)%nat -> vdisk_lock d = spin_mine ->
  (forall ie p', km p' = km p -> Q (Asleep ie) (VSt (set_vdisk_lock spin_free d) p')) ->
  (bdisk d !! w_buf w <> Some 1 -> forall d' p' R' D', core d' j fl lg (W1 ++ W2) R' A F U D' -> vdisk_lock d' = spin_free -> came_back lg w (Done tt) p' -> Q (Done tt) (VSt d' p')) ->
  wp (rw_wait free_addr buf_addr i (w_buf w)) Q (VSt d p).
Proof.
  intros HC Hat Hh Hme Hl H1 H2. unfold rw_wait. apply wp_bind, wp_on_vd_get. destruct (default 0 (bdisk d !! w_buf w) =? 1) eqn:Eb; [apply wp_bind, (wp_vd_sleep _ _ (w_me w)); [done|done|done|intros ie p' K; by apply wp_ret, H1]|].
  assert (bdisk d !! w_buf w <> Some 1) as Hnb by (intros E; by rewrite E in Eb). destruct (core_asked _ _ _ _ _ _ _ _ _ _ _ _ i HC Hat) as (r & R' & HR & Ha & <- & HW). unfold asked in Ha. rewrite Hat in Ha. injection Ha as Ebuf Ew Eh Em.
  assert (r ∈ D) as HD. { assert (r ∈ R) as Hr by (rewrite HR; by left). rewrite (co_all _ _ _ _ _ _ _ _ _ _ HC), !app_assoc, elem_of_app in Hr. destruct Hr as [Hr|]; [|done]. pose proof (co_busy _ _ _ _ _ _ _ _ _ _ HC) as Hb. rewrite Forall_forall in Hb. destruct Hnb. rewrite Ebuf. apply Hb. by rewrite app_assoc. }
  apply list_elem_of_split in HD as (D1 & D2 & ->). pose proof (core_release _ _ _ _ _ _ _ _ _ _ _ _ _ _ _ HC HR HW) as HC'.
  assert (came_back lg w (Done tt) p) as Hcb. { split; [by rewrite Hat|]. pose proof (co_log _ _ _ _ _ _ _ _ _ _ HC) as Hg. rewrite Forall_forall in Hg. rewrite Ebuf, Ew, Eh, Em. apply (Hg r). set_solver. }
  destruct HC as [_ Hsz Hnd Hrg Hfr Hfm _ _ _ _ _ _ _ _ _]. assert (formatted d r) as [F0 F1 F2 Fi] by (rewrite Forall_forall in Hfm; apply Hfm; rewrite HR; by left).
  assert (forall i, i ∈ chain_of r -> i ∈ chains R) as Hin by (intros i; apply chains_in; rewrite HR; by left). assert (NoDup (chain_of r)) as Hn by (unfold chains in Hnd; rewrite HR, bind_cons in Hnd; by apply NoDup_app in Hnd as [? _]).
  apply wp_bind, wp_on_vd_modify. set (d1 := set_binfo _ d). apply wp_bind, (wp_free_chain d1 p 1 (Some (w_me w)) r); [|done| |done|done|done|done|].
  - destruct Hsz as (?&?&?&?&?). unfold sized. cbn. by rewrite length_insert.
  - apply Forall_forall. intros i Hi%Hin. rewrite Forall_forall in Hrg. pose proof (Hrg i Hi) as Hi'. split; [done|]. change (is_free d1 i) with (is_free d i). intros H. by apply (Hfr i Hi') in H.
  - intros p1 Hh1. apply wp_bind, (wp_vd_release _ 1 (Some (w_me w))); [done|lia|done|]. intros p2 Hh2 _. apply wp_ret. eapply (H2 Hnb); [|done|exact Hcb]. by apply core_lock.
Qed.

Lemma wp_rw_start d j fl lg W1 w W2 R A F U D p (Q : susp (rw_point * bool) unit -> vst -> Prop) : core d j fl lg (W1 ++ w :: W2) R A F U D -> w_at w = NeedDesc ->
  held 1 (Some (w_me w)) p -> (w_me w < Z.to_nat NPROC)%nat -> stack_at (w_stack w) (w_hdr w) (km p) -> vdisk_lock d = spin_mine ->
  (forall r d' p' R' A', core d' j fl lg (W1 ++ settle (length lg) w r ++ W2) R' A' F U D -> vdisk_lock d' = spin_free -> came_back lg w r p' -> Q r (VSt d' p')) ->
  wp (rw_start R_write free_addr status_addr buf_addr buf_data (w_stack w) kernel_pagetable (w_buf w) (w_block w) (w_write w)) Q (VSt d p).
Proof.
  intros HC Hat Hh Hme Hst Hl HQ. assert (asked w = None) as Ea by (unfold asked; by rewrite Hat). unfold rw_start. apply wp_bind, (wp_alloc3_desc free_addr 1 (Some (w_me w))); [apply HC|done| |].
  - intros i0 i1 i2 Hn Hf. set (r := Req i0 i1 i2 (w_buf w) (w_write w) (w_hdr w) (length lg)). change (take i2 (take i1 (take i0 d))) with (taken r d).
    set (w1 := Waiter (w_me w) (w_buf w) (w_block w) (w_write w) (NeedDone i0) false (w_stack w) (w_hdr w) (length lg)).
    assert (core (submitted r (taken r d)) j fl lg (W1 ++ w1 :: W2) (r :: R) (A ++ [r]) F U D) as HC1 by (eapply core_submit; done).
    apply wp_bind, (wp_rw_submit _ _ 1 (Some (w_me w)) i0 i1 i2 (w_buf w) (w_block w) (w_write w) (w_stack w) (w_hdr w) (length lg)); [by do 3 apply sized_take; apply HC|eapply Forall_impl; [exact Hf|]; by intros i []|done|done|].
    intros p1 Hh1 Hhd. fold r. apply wp_bind, (wp_rw_wait _ j fl lg W1 w1 W2 _ _ _ _ _ i0 p1 _ HC1); [done|done|done|done| |].
    + intros ie p2 K2. apply wp_ret. eapply HQ; [|done|]; [|intros _; by rewrite K2]. cbn [settle app]. rewrite Hat. eapply core_lock, core_rename; [exact HC1|done|done].
    + intros Hnb. destruct Hnb. pose proof (co_busy _ _ _ _ _ _ _ _ _ _ HC1) as Hb. rewrite Forall_forall in Hb. apply (Hb r). set_solver.
  - intros d' p' Hu Hh' Hk. apply wp_bind, (wp_vd_sleep _ _ (w_me w)); [done|done| |].
    + destruct Hu as [_ _ (x & y & _ & _ & ->)]. done.
    + intros ie p2 K2. apply wp_ret. eapply HQ; [|done|done]. cbn [settle app]. rewrite Hat. eapply core_lock, core_rename; [by eapply core_undone|unfold asked; by rewrite Hat|done].
Qed.

(** ** Every state that is reached *)

Definition sys_ok (s : vsys) : Prop := vdisk_lock (drv s) = spin_free /\ exists R A F U D, core (drv s) (dev_idx s) (dev_flight s) (dev_log s) (waiting s) R A F U D.

Lemma core_join d j fl lg W R A F U D w : core d j fl lg W R A F U D -> asked w = None -> w_buf w ∉ w_buf <$> W -> (w_buf w < length (bdisk d))%nat -> core d j fl lg (W ++ [w]) R A F U D.
Proof.
  intros [] Ea Hn Hl. destruct co_bufs0 as [Hb1 Hb2]. split; try done; [rewrite omap_app; cbn [omap list_omap]; by rewrite Ea, app_nil_r|]. rewrite fmap_app. split; [|by apply Forall_app; split; [|apply Forall_singleton]].
  apply NoDup_app. split; [done|]. split; [|apply NoDup_singleton]. intros z Hz Hz'. apply list_elem_of_singleton in Hz' as ->. done.
Qed.

Lemma wp_rw_call s w p : sys_ok s -> may_call s w p -> wp (rw_call w) (fun r s' =>
  sys_ok (VSys (vd s') (dev_idx s) (dev_flight s) (dev_log s) (waiting s ++ settle (length (dev_log s)) w r)) /\ came_back (dev_log s) w r (vps s')) (VSt (drv s) p).
Proof.
  intros [Hl (R & A & F & U & D & HC)] [Hat Hh Hme Hst Hnew Hbuf]. assert (asked w = None) as Ea by (unfold asked; by rewrite Hat). unfold rw_call, virtio_disk_rw. apply wp_bind, (wp_vd_acquire _ 0 (Some (w_me w))); [done|done|]. intros p1 Hh1 K1.
  eapply (wp_rw_start _ (dev_idx s) (dev_flight s) (dev_log s) (waiting s) w []); [by apply core_lock, core_join; [exact HC|..]|done|done|done|by rewrite K1|done|]. intros r d' p' R' A' HC' Hl' Hcb.
  rewrite app_nil_r in HC'. split; [|exact Hcb]. split; [done|]. by exists R', A', F, U, D.
Qed.

Lemma wp_rw_resume s W1 w W2 p : sys_ok s -> waiting s = W1 ++ w :: W2 -> switched_to w p -> wp (rw_resume w) (fun r s' =>
  sys_ok (VSys (vd s') (dev_idx s) (dev_flight s) (dev_log s) (W1 ++ settle (length (dev_log s)) w r ++ W2)) /\ came_back (dev_log s) w r (vps s')) (VSt (drv s) p).
Proof.
  intros [Hl (R & A & F & U & D & HC)] HW [Hr Hie Hme Hst]. rewrite HW in HC. unfold rw_resume, virtio_disk_rw_again. apply wp_bind, (wp_vd_sleep_return _ (w_me w)); [done|done|done|done|]. intros p1 Hh1 K1. destruct (w_at w) as [|i] eqn:Hat.
  - eapply (wp_rw_start _ (dev_idx s) (dev_flight s) (dev_log s) W1 w W2); [by apply core_lock|done|done|done|by rewrite K1|done|]. intros r d' p' R' A' HC' Hl' Hcb. split; [|exact Hcb]. split; [done|]. by exists R', A', F, U, D.
  - apply wp_bind. eapply (wp_rw_wait _ (dev_idx s) (dev_flight s) (dev_log s) W1 w W2 _ _ _ _ _ i); [by apply core_lock|done|done|done|done| |].
    + intros ie p2 _. apply wp_ret. split; [|by intros ?; congruence]. split; [done|]. exists R, A, F, U, D. do 2 apply core_lock. cbn [settle app]. rewrite Hat. eapply core_rename; [exact HC| |done]. unfold asked. cbn. by rewrite Hat.
    + intros _ d' p' R' D' HC' Hl' Hcb. apply wp_ret. split; [|exact Hcb]. split; [done|]. by exists R', A, F, U, D'.
Qed.

Lemma wp_intr s n c p : sys_ok s -> held n c p -> wp (virtio_disk_intr R_read R_write buf_addr) (fun _ s' =>
  sys_ok (VSys (vd s') (dev_idx s) (dev_flight s) (dev_log s) (waiting s)) /\
  (dev_idx s = avail_idx (drv s) -> dev_flight s = [] -> forall w i, w ∈ waiting s -> w_at w = NeedDone i -> bdisk (vd s') !! w_buf w = Some 0)) (VSt (drv s) p).
Proof.
  intros [Hl (R & A & F & U & D & HC)] Hh. eapply wp_virtio_disk_intr; [exact HC|done|done|]. intros d' p' HC' Hl'. split; [split; [done|]; by exists R, A, F, [], (D ++ U)|].
  intros Hj Hfl w i Hw Hat. apply list_elem_of_split in Hw as (W1 & W2 & HW). cbn [drv dev_idx dev_flight dev_log waiting vd] in *. rewrite HW in HC'. destruct (core_asked _ _ _ _ _ _ _ _ _ _ _ _ i HC' Hat) as (r & R' & HR & Ha & _ & _).
  unfold asked in Ha. rewrite Hat in Ha. injection Ha as _ -> _ _ _. pose proof (core_few _ _ _ _ _ _ _ _ _ _ HC') as Hfew. destruct HC' as [Hall _ _ _ _ _ (_ & Hai & Hj') Hf _ _ Hdn _ _ _ _]. destruct HC as [_ _ _ _ _ _ (_ & Hai0 & _) _ _ _ _ _ _ _ _].
  assert (F = []) as -> by (rewrite Hfl in Hf; by destruct F). assert (A = []) as ->. { destruct A as [|r0 A]; [done|]. exfalso. rewrite Hai0 in Hj. rewrite !length_app in Hfew. cbn [length] in *. unfold wrap16 in Hj. dlia. }
  rewrite Forall_forall in Hdn. apply Hdn. cbn in Hall. rewrite <- Hall, HR. by left.
Qed.

Lemma sys_ok_step s s' : sys_ok s -> vstep s s' -> sys_ok s'.
Proof.
  intros Hs Hstep. destruct Hstep as [s w p r d' p' Hmc E|s W1 w W2 p r d' p' HW Hsw E|s n c p d' p' Hh E|s i Hj Hi|s l1 i l2 Hfl].
  - pose proof (wp_rw_call s w p Hs Hmc) as H. unfold wp in H. rewrite E in H. apply H.
  - pose proof (wp_rw_resume s W1 w W2 p Hs HW Hsw) as H. unfold wp in H. rewrite E in H. apply H.
  - pose proof (wp_intr s n c p Hs Hh) as H. unfold wp in H. rewrite E in H. apply H.
  - destruct Hs as [Hl (R & A & F & U & D & HC)]. split; [done|]. destruct (core_take _ _ _ _ _ _ _ _ _ _ i HC Hj Hi) as (A' & F' & HC'). by exists R, A', F', U, D.
  - destruct Hs as [Hl (R & A & F & U & D & HC)]. split; [done|]. rewrite Hfl in HC. destruct (core_finish _ _ _ _ _ _ _ _ _ _ _ _ HC) as (F' & U' & HC'). by exists R, A, F', U', D.
Qed.

(** *** The start *)

Lemma rreg_run r d p : exists x, rreg R_read r (VSt d p) = Ok x (VSt d p).
Proof. destruct (Hread (VIRTIO0 + r) (km p)) as [x E]. exists x. unfold rreg, on_vp, on_km, zoom. cbn [vps]. rewrite E. by destruct p. Qed.
Lemma wreg_run r x d p : wreg R_write r x (VSt d p) = Ok tt (VSt d p).
Proof. unfold wreg, on_vp, on_km, zoom. cbn [vps]. rewrite Hwrite. by destruct p. Qed.
Lemma bind_run {S A B} (c : M S A) (k : A -> M S B) s a s' : c s = Ok a s' -> bind c k s = k a s'.
Proof. unfold bind. by intros ->. Qed.

Definition started (d : vdisk) : vdisk :=
  let n := Z.to_nat NUM in VDisk (replicate n vdesc0) 0 (replicate n 0) 0 (replicate n 0) (replicate n 1) (used_idx d) (binfo d) spin_free (bdisk d).

Lemma init_started pages d p d' p' : virtio_disk_init R_read R_write pages (VSt d p) = Ok tt (VSt d' p') -> d' = started d.
Proof.
  unfold virtio_disk_init. rewrite (bind_run _ _ _ tt (VSt (set_vdisk_lock spin_free d) p)) by done.
  do 4 (match goal with |- bind (rreg R_read ?r) _ ?s = _ -> _ => destruct (rreg_run r (vd s) (vps s)) as [? E]; cbn [vd vps] in E; rewrite (bind_run _ _ _ _ _ E); clear E end; destruct (negb _); [done|]).
  rewrite (bind_run _ _ _ _ _ (wreg_run _ _ _ _)), (bind_run _ _ _ _ _ (wreg_run _ _ _ _)). destruct (rreg_run VIRTIO_MMIO_DEVICE_FEATURES (set_vdisk_lock spin_free d) p) as [features E]. rewrite (bind_run _ _ _ _ _ E). clear E.
  do 5 rewrite (bind_run _ _ _ _ _ (wreg_run _ _ _ _)). destruct (rreg_run VIRTIO_MMIO_QUEUE_NUM_MAX (set_vdisk_lock spin_free d) p) as [mx E]. rewrite (bind_run _ _ _ _ _ E). clear E.
  destruct (_ =? _); [done|]. destruct (_ <? _); [done|]. rewrite (bind_run _ _ _ _ _ (wreg_run _ _ _ _)). erewrite bind_run by reflexivity. unfold set_vd. cbn [vps vd]. rewrite (bind_run _ _ _ _ _ (wreg_run _ _ _ _)). by intros [= <- <-].
Qed.

Lemma sys_ok_start d : length (binfo d) = Z.to_nat NUM -> used_idx d = 0 -> sys_ok (VSys (started d) 0 [] [] []).
Proof.
  intros Hb Hu. split; [done|]. exists [], [], [], [], []. split; try done; try apply Forall_nil_2; try apply NoDup_nil_2.
  - intros i Hi. split; [intros _; apply not_elem_of_nil|]. intros _. unfold is_free, free_at. cbn [drv started dfree]. rewrite lookup_replicate_2 by (unfold NUM in *; lia). done.
  - split; [by intros k r|]. cbn. by rewrite Hu.
  - split; [apply NoDup_nil_2|apply Forall_nil_2].
Qed.

(** C17. The disk driver.  From [virtio_disk_init] on, let processes call
    [virtio_disk_rw], sleep in it and be switched to again, let interrupts call
    [virtio_disk_intr], and let the device take chains from the available ring
    and finish them in any order.  In every state that is reached, each of the
    eight descriptors is free or in the chain of one request; a call
    returns or sleeps, and never panics; a process that sleeps for the device
    has left the header of its request on its stack; a process that returns
    finds that since it made its request the device has transferred its buffer, in
    the direction that it asked for; and an interrupt that finds the device idle
    has marked every request as done, so that no process waits for ever. *)
Theorem virtio_correct pages d0 p0 d p s : length (binfo d0) = Z.to_nat NUM -> used_idx d0 = 0 ->
  virtio_disk_init R_read R_write pages (VSt d0 p0) = Ok tt (VSt d p) -> rtc vstep (VSys d 0 [] [] []) s ->
  (length (filter (is_free (drv s)) (seqZ 0 NUM)) + 3 * length (omap asked (waiting s)) = Z.to_nat NUM)%nat /\
  (forall w p, may_call s w p -> wp (rw_call w) (fun r s' => came_back (dev_log s) w r (vps s')) (VSt (drv s) p)) /\
  (forall w p, w ∈ waiting s -> switched_to w p -> wp (rw_resume w) (fun r s' => came_back (dev_log s) w r (vps s')) (VSt (drv s) p)) /\
  (forall n c p, held n c p -> wp (virtio_disk_intr R_read R_write buf_addr) (fun _ s' =>
     dev_idx s = avail_idx (drv s) -> dev_flight s = [] -> forall w i, w ∈ waiting s -> w_at w = NeedDone i -> bdisk (vd s') !! w_buf w = Some 0) (VSt (drv s) p)).
Proof.
  intros Hb Hu Hinit Hsteps. apply init_started in Hinit as ->. assert (sys_ok s) as Hs.
  { pose proof (sys_ok_start d0 Hb Hu) as H0. revert H0. induction Hsteps; [done|]. intros H0. eapply IHHsteps, sys_ok_step; done. }
  splits.
  - destruct Hs as [_ (R & A & F & U & D & HC)]. by apply core_count in HC.
  - intros w q Hw. eapply wp_conseq; [by apply wp_rw_call|]. by intros r s' [_ ?].
  - intros w q (W1 & W2 & HW)%list_elem_of_split Hsw. eapply wp_conseq; [by apply (wp_rw_resume s W1 w W2)|]. by intros r s' [_ ?].
  - intros n c q Hh. eapply wp_conseq; [by apply (wp_intr s n c)|]. by intros _ s' [_ ?].
Qed.
End system.

(** ** An example: a block is read *)

Definition vx_read (a : Z) : M kst Z := ret (
  if a =? VIRTIO0 + VIRTIO_MMIO_MAGIC_VALUE then 0x74726976 else if a =? VIRTIO0 + VIRTIO_MMIO_VERSION then 1
  else if a =? VIRTIO0 + VIRTIO_MMIO_DEVICE_ID then 2 else if a =? VIRTIO0 + VIRTIO_MMIO_VENDOR_ID then 0x554d4551
  else if a =? VIRTIO0 + VIRTIO_MMIO_QUEUE_NUM_MAX then 1024 else 0).
Definition vx_write (a x : Z) : M kst unit := ret tt.
Definition vx_status (i : Z) : Z := 1000 + 16 * i.
Definition vx_data (b : nat) : Z := 2000 + 1024 * Z.of_nat b.
Definition vx_buf (b : nat) : Z := 5000 + Z.of_nat b.

Definition vx_d0 : vdisk := VDisk [] 0 [] 0 [] [] 0 (replicate 8 (None, 0)) spin_free [0; 0].
Definition vx_back : pst :=
  PSt (set_plock spin_mine fk_proc :: replicate 63 proc0) 2 spin_free (Some 0%nat) 1 true (Some 0%nat) (Hart (fun _ => 0) (fun _ => 0) PrivS 0) fk_kst.
Definition vx_w (pt : rw_point) : waiter := Waiter 0 0 7 false pt false (TRAPFRAME + 100) (lp 6 + 100) 0.
Abbreviation vx_call := (rw_call vx_write 3000 vx_status vx_buf vx_data (lp 0)).
Abbreviation vx_resume := (rw_resume vx_write 3000 vx_status vx_buf vx_data (lp 0)).

(** The state that a call leaves. *)
Definition left_in {S A} (o : outcome S A) (s : S) : S := match o with Ok _ s' => s' | _ => s end.
Lemma ok_left {S A} (o : outcome S A) s a : ok_value o = Some a -> o = Ok a (left_in o s).
Proof. destruct o; [|done..]. by intros [= ->]. Qed.
Lemma ok_step {A} (c : M vst A) s a : ok_value (c s) = Some a -> c s = Ok a (VSt (vd (left_in (c s) s)) (vps (left_in (c s) s))).
Proof. intros H. rewrite (ok_left _ s _ H) at 1. by destruct (left_in (c s) s). Qed.

Definition vx_t0 : vst := VSt (started vx_d0) fk_pst.
Definition vx_t1 : vst := left_in (vx_call (vx_w NeedDesc) vx_t0) vx_t0.
Definition vx_t3 : vst := VSt (dev_finish vx_status 0 (vd vx_t1)) fk_pst.
Definition vx_t4 : vst := left_in (virtio_disk_intr vx_read vx_write vx_buf vx_t3) vx_t3.
Definition vx_sys : vsys := VSys (vd vx_t4) 1 [] [xfer_of (vd vx_t1) 0] [vx_w (NeedDone 0)].

Lemma vx_stack : stack_at (lp 0) (lp 0) (TRAPFRAME + 100) (lp 6 + 100) fk_kst.
Proof. split; [by vm_compute|]. exists fk_free, fk_tree. split; [apply fk_uvinv|]. split; [done|]. split; by vm_compute. Qed.
Lemma vx_held : held 0 (Some 0%nat) fk_pst.
Proof. destruct fk_forking as [Hc Hu _ _ _ _ _ _]. by split. Qed.

Lemma vx_value1 : ok_value (vx_call (vx_w NeedDesc) vx_t0) = Some (Asleep (NeedDone 0, false)).
Proof. by vm_compute. Qed.
Lemma vx_ran1 : vx_call (vx_w NeedDesc) vx_t0 = Ok (Asleep (NeedDone 0, false)) (VSt (vd vx_t1) (vps vx_t1)).
Proof. exact (ok_step (vx_call (vx_w NeedDesc)) vx_t0 _ vx_value1). Qed.
Lemma vx_value4 : ok_value (virtio_disk_intr vx_read vx_write vx_buf vx_t3) = Some tt.
Proof. by vm_compute. Qed.
Lemma vx_ran4 : virtio_disk_intr vx_read vx_write vx_buf vx_t3 = Ok tt (VSt (vd vx_t4) (vps vx_t4)).
Proof. exact (ok_step (virtio_disk_intr vx_read vx_write vx_buf) vx_t3 _ vx_value4). Qed.
Lemma vx_avail : avail_idx (vd vx_t1) = 1 /\ avail (vd vx_t1) !! 0%nat = Some 0.
Proof. split; by vm_compute. Qed.

Abbreviation vx_step := (vstep vx_read vx_write 3000 vx_status vx_buf vx_data (lp 0) (lp 0)).
Lemma vx_reached : rtc vx_step (VSys (started vx_d0) 0 [] [] []) vx_sys.
Proof.
  assert (vx_step (VSys (started vx_d0) 0 [] [] []) (VSys (vd vx_t1) 0 [] [] [vx_w (NeedDone 0)])) as H1.
  { apply (v_call _ _ _ _ _ _ _ _ (VSys (started vx_d0) 0 [] [] []) (vx_w NeedDesc) fk_pst (Asleep (NeedDone 0, false)) (vd vx_t1) (vps vx_t1)); [|exact vx_ran1]. split; [done|exact vx_held|by apply Nat.ltb_lt|exact vx_stack|apply not_elem_of_nil|cbn; lia]. }
  assert (vx_step (VSys (vd vx_t1) 0 [] [] [vx_w (NeedDone 0)]) (VSys (vd vx_t1) 1 [0] [] [vx_w (NeedDone 0)])) as H2.
  { destruct vx_avail as [E1 E2]. apply (v_take _ _ _ _ _ _ _ _ (VSys (vd vx_t1) 0 [] [] [vx_w (NeedDone 0)]) 0); [cbn [dev_idx drv]; by rewrite E1|exact E2]. }
  set (d3 := dev_finish vx_status 0 (vd vx_t1)).
  assert (vx_step (VSys (vd vx_t1) 1 [0] [] [vx_w (NeedDone 0)]) (VSys d3 1 [] [xfer_of (vd vx_t1) 0] [vx_w (NeedDone 0)])) as H3 by exact (v_finish _ _ _ _ _ _ _ _ (VSys (vd vx_t1) 1 [0] [] [vx_w (NeedDone 0)]) [] 0 [] eq_refl).
  assert (vx_step (VSys d3 1 [] [xfer_of (vd vx_t1) 0] [vx_w (NeedDone 0)]) vx_sys) as H4 by exact (v_intr _ _ _ _ _ _ _ _ (VSys d3 1 [] [xfer_of (vd vx_t1) 0] [vx_w (NeedDone 0)]) 0 (Some 0%nat) fk_pst (vd vx_t4) (vps vx_t4) vx_held vx_ran4).
  eapply rtc_l, rtc_l, rtc_l, rtc_once; [exact H1|exact H2|exact H3|exact H4].
Qed.

Lemma vx_switched : switched_to (lp 0) (lp 0) (vx_w (NeedDone 0)) vx_back.
Proof.
  assert (cpu_ok vx_back) as Hc by (split; [split; [cbn; lia|done]|done]). split; [split; try done|exact Hc|by apply Nat.ltb_lt|exact vx_stack].
  intros [|j] Hj; [done|]. unfold proc_at. change (plock (default proc0 (replicate 63 proc0 !! j)) = spin_free). destruct (replicate 63 proc0 !! j) as [q|] eqn:E; [|done]. by apply lookup_replicate in E as [-> _].
Qed.
Lemma vx_inited : exists p, virtio_disk_init vx_read vx_write 0x80010000 (VSt vx_d0 fk_pst) = Ok tt (VSt (started vx_d0) p).
Proof.
  assert (ok_value (virtio_disk_init vx_read vx_write 0x80010000 (VSt vx_d0 fk_pst)) = Some tt) as H by (by vm_compute). pose proof (ok_step (virtio_disk_init vx_read vx_write 0x80010000) (VSt vx_d0 fk_pst) tt H) as E.
  pose proof (init_started vx_read vx_write 3000 vx_status vx_buf vx_data (lp 0) (lp 0) ltac:(done) (fun a k => ex_intro _ _ eq_refl) (fun a x k => eq_refl) _ _ _ _ _ E) as Ed. rewrite Ed in E. eexists. exact E.
Qed.
Lemma vx_value5 : ok_value (vx_resume (vx_w (NeedDone 0)) (VSt (vd vx_t4) vx_back)) = Some (Done tt).
Proof. by vm_compute. Qed.

Lemma virtio_correct_witness : wp (vx_resume (vx_w (NeedDone 0))) (fun r _ => r = Done tt /\ Xfer (lp 6 + 100) 2000 BSIZE true ∈ dev_log vx_sys) (VSt (drv vx_sys) vx_back).
Proof.
  destruct vx_inited as [p Hp]. destruct (virtio_correct vx_read vx_write 3000 vx_status vx_buf vx_data (lp 0) (lp 0) ltac:(done) (fun a k => ex_intro _ _ eq_refl) (fun a x k => eq_refl) 0x80010000 vx_d0 fk_pst (started vx_d0) p vx_sys eq_refl eq_refl Hp vx_reached) as (_ & _ & H & _).
  eapply wp_conseq; [exact (wp_value _ _ _ (Done tt) (H (vx_w (NeedDone 0)) vx_back ltac:(by left) vx_switched) vx_value5)|]. intros r s' [-> [_ Hx]]. split; [done|exact Hx].
Defined.
