(* ===== verification/Syscall.v ===== *)
(** * System call arguments and process calls (kernel/syscall.c, kernel/sysproc.c)

    Arguments are read from the trapframe of the current process.  Strings
    are copied to a buffer of the kernel, whose address is a parameter. *)

From S2P Require Import Prelude Riscv Memory Spinlock Sleeplock Kalloc Vm Block BlockCache Log Tx CopyIO Fs Hart Proc Console Virtio File Kernel.

Definition MAXPATH : Z := 128.
Definition MAXARG : Z := 32.

(** The C string at [a], of less than [n] characters. *)
Fixpoint cstring (n : nat) (m : gmap Z Z) (a : Z) : list Z :=
  match n with
  | O => []
  | S n' => if load8 m a =? 0 then [] else load8 m a :: cstring n' m (a + 1)
  end.

Section syscall.
Context {T : Type} `{!TxOps T}.
Abbreviation kern := (kern T).

(** ** kernel/syscall.c *)

(** The value stored through [ip], or [None] for -1. *)
Definition fetchaddr (kobj addr : Z) : M kern (option Z) :=
  let! (_, p) := myproc_ in
  if (psz p <=? addr) || (psz p <? wrap64 (addr + 8)) then ret None else
  let! (r, bs) := on_p (copyin_obj kobj (pagetable p) (replicate 8 0) addr 8) in
  if negb (r =? 0) then ret None else ret (Some (load64 (storebytes ∅ 0 bs) 0)).

Definition fetchstr (addr buf max : Z) : M kern Z :=
  let! (_, p) := myproc_ in
  let! err := on_p (on_km (copyinstr (pagetable p) buf addr max)) in
  if err <? 0 then ret err else
  let! m := on_p (on_km (gets mem)) in
  match strlen (Z.to_nat max) m buf with
  | Some n => ret n
  | None => nofuel
  end.

Definition argraw (n : Z) : M kern Z :=
  let! (_, p) := myproc_ in
  if (0 <=? n) && (n <=? 5) then tf_load p (TF_A0 + 8 * n) else panic "argraw".
(** [argint] and [argaddr] always return 0. *)
Definition argint (n : Z) : M kern Z := let! x := argraw n in ret (s32 x).
Definition argaddr (n : Z) : M kern Z := argraw n.
Definition argstr (n buf max : Z) : M kern Z :=
  let! addr := argaddr n in
  fetchstr addr buf max.
(** [argstr] and the string it leaves in the buffer; [None] for -1. *)
Definition argpath (n buf max : Z) : M kern (option (list Z)) :=
  let! r := argstr n buf max in
  if r <? 0 then ret None else
  let! m := on_p (on_km (gets mem)) in
  ret (Some (cstring (Z.to_nat max) m buf)).

(** The numbers of the system calls (kernel/syscall.h). *)
Inductive sysno :=
| SYS_fork | SYS_exit | SYS_wait | SYS_pipe | SYS_read | SYS_kill | SYS_exec | SYS_fstat | SYS_chdir | SYS_dup
| SYS_getpid | SYS_sbrk | SYS_sleep | SYS_uptime | SYS_open | SYS_write | SYS_mknod | SYS_unlink | SYS_link
| SYS_mkdir | SYS_close.
Definition sysno_of (n : Z) : option sysno :=
  [SYS_fork; SYS_exit; SYS_wait; SYS_pipe; SYS_read; SYS_kill; SYS_exec; SYS_fstat; SYS_chdir; SYS_dup;
   SYS_getpid; SYS_sbrk; SYS_sleep; SYS_uptime; SYS_open; SYS_write; SYS_mknod; SYS_unlink; SYS_link;
   SYS_mkdir; SYS_close] !! Z.to_nat (n - 1).

(** [syscall], with the table of handlers and [printf]. *)
Definition syscall (syscalls : sysno -> M kern Z) (printf : list Z -> list va -> M kern unit) : M kern unit :=
  let! (i, p) := myproc_ in
  let! a7 := tf_load p TF_A7 in
  let num := s32 a7 in
  match (if 0 <? num then sysno_of num else None) with
  | Some n =>
      let! r := syscalls n in
      tf_store p TF_A0 (wrap64 r)
  | None =>
      printf (chars "%d %s: unknown sys call %d" ++ [10]) [VInt (pid p); VStr (Some (pname p)); VInt num] ;;
      tf_store p TF_A0 (wrap64 (-1))
  end.

(** ** kernel/sysproc.c *)

Context (kend trampoline forkret_addr kobj : Z) (ticks_addr : Z).

Definition sys_exit : M kern Z :=
  let! n := argint 0 in
  exit kend n ;;
  block.

Definition sys_getpid : M kern Z := let! (_, p) := myproc_ in ret (pid p).

Definition sys_fork : M kern Z := fork kend trampoline forkret_addr.

(** [wait] sleeps until a child has exited. *)
Definition sys_wait : M kern Z :=
  let! p := argaddr 0 in
  let! r := on_p (wait kend kobj p) in
  match r with inl r => ret r | inr _ => block end.

Definition sys_sbrk : M kern Z :=
  let! n := argint 0 in
  let! (_, p) := myproc_ in
  let addr := s32 (psz p) in
  let! r := on_p (growproc kend n) in
  if r <? 0 then ret (-1) else ret addr.

Definition tl_acquire : M kern unit := k_acquire tickslock set_tickslock.
Definition tl_release : M kern unit := k_release tickslock set_tickslock.

(** The loop of [sys_sleep] from its test on. *)
Definition sys_sleep_wait (n ticks0 : Z) : M kern (susp bool Z) :=
  let! t := gets ticks in
  if wrap32 (t - ticks0) <? wrap32 n then
    let! (_, p) := myproc_ in
    if truth (killed p) then tl_release ;; ret (Done (-1))
    else let! ie := k_sleep (ChAddr ticks_addr) tl_release in ret (Asleep ie)
  else tl_release ;; ret (Done 0).
Definition sys_sleep : M kern (susp (Z * Z * bool) Z) :=
  let! n := argint 0 in
  tl_acquire ;;
  let! ticks0 := gets ticks in
  let! r := sys_sleep_wait n ticks0 in
  ret (match r with Done a => Done a | Asleep ie => Asleep (n, ticks0, ie) end).
Definition sys_sleep_again (me : nat) (n ticks0 : Z) (intena : bool) : M kern (susp (Z * Z * bool) Z) :=
  k_sleep_return me tl_acquire intena ;;
  let! r := sys_sleep_wait n ticks0 in
  ret (match r with Done a => Done a | Asleep ie => Asleep (n, ticks0, ie) end).

Definition sys_kill : M kern Z :=
  let! n := argint 0 in
  on_p (kill n).

Definition sys_uptime : M kern Z :=
  tl_acquire ;;
  let! t := gets ticks in
  tl_release ;;
  ret t.
End syscall.
