(* ===== verification/Initcode.v ===== *)
(** * The first process (user/initcode.S; kernel/proc.c: userinit)

    [userinit] puts the bytes of [initcode] in the memory of the first process.
    They are the machine code of user/initcode.S: executed from address 0,
    they call [exec("/init", argv)], and if that returns they call [exit] for
    ever. *)

From S2P Require Import Prelude Riscv Memory Spinlock Kalloc Vm PageTable VmMap UserVm UvmCopy VmFree VmCopy Hart HartProof Proc ProcProof UserCall Block BlockCache Log Tx CopyIO Fs FsExample Console Virtio File PipeProof Kernel ProcLife ProcBirth Fork Syscall.

(** ** Machine code *)

(** The instructions of initcode.S, and how they are encoded. *)
Inductive uinstr := Uauipc (rd : reg) (imm : Z) | Uaddi (rd rs : reg) (imm : Z) | Ujal (rd : reg) (off : Z) | Uecall.

Definition reg_names : list reg :=
  [Xzero; Xra; Xsp; Xgp; Xtp; Xt0; Xt1; Xt2; Xs0; Xs1; Xa0; Xa1; Xa2; Xa3; Xa4; Xa5; Xa6; Xa7;
   Xs2; Xs3; Xs4; Xs5; Xs6; Xs7; Xs8; Xs9; Xs10; Xs11; Xt3; Xt4; Xt5; Xt6].
Definition reg_of (n : Z) : reg := default Xzero (reg_names !! Z.to_nat n).
(** [n] bits of [w] from bit [lo] on. *)
Definition field (w lo n : Z) : Z := Z.shiftr w lo mod 2^n.

Definition decode (w : Z) : option uinstr :=
  let rd := reg_of (field w 7 5) in
  let op := field w 0 7 in
  if op =? 0x17 then Some (Uauipc rd (4096 * signed 20 (field w 12 20)))
  else if (op =? 0x13) && (field w 12 3 =? 0) then Some (Uaddi rd (reg_of (field w 15 5)) (signed 12 (field w 20 12)))
  else if op =? 0x6f then
    Some (Ujal rd (signed 21 (field w 31 1 * 2^20 + field w 12 8 * 2^12 + field w 20 1 * 2^11 + field w 21 10 * 2)))
  else if w =? 0x73 then Some Uecall
  else None.

(** What a hart in user mode does at its [pc]; [um] is the memory that the
    process can read.  [Called] is a trap for a system call. *)
Inductive uoutcome := Ran (h : hart) | Called (h : hart) | Faulted.

Definition fetch (um : Z -> option Z) (a : Z) : option Z :=
  b0 ← um a; b1 ← um (a + 1); b2 ← um (a + 2); b3 ← um (a + 3); Some (b0 + 2^8 * b1 + 2^16 * b2 + 2^24 * b3).
Definition exec_user (um : Z -> option Z) (h : hart) : uoutcome :=
  match fetch um (pc h) ≫= decode with
  | Some (Uauipc rd imm) => Ran (set_pc (wrap64 (pc h + 4)) (set_gpr rd (pc h + imm) h))
  | Some (Uaddi rd rs imm) => Ran (set_pc (wrap64 (pc h + 4)) (set_gpr rd (gpr h rs + imm) h))
  | Some (Ujal rd off) => Ran (set_pc (wrap64 (pc h + off)) (set_gpr rd (pc h + 4) h))
  | Some Uecall => Called h
  | None => Faulted
  end.
(** Up to the next system call. *)
Fixpoint to_ecall (fuel : nat) (um : Z -> option Z) (h : hart) : option hart :=
  match fuel with
  | O => None
  | S fuel' => match exec_user um h with Ran h' => to_ecall fuel' um h' | Called h' => Some h' | Faulted => None end
  end.
(** The return of a system call with the value [r]: see [usertrap]. *)
Definition sys_return (r : Z) (h : hart) : hart := set_pc (pc h + 4) (set_gpr Xa0 r h).

(** ** user/initcode.S *)

(** [la], [li] and [jal], at address [at_]. *)
Definition asm_la (at_ : Z) (rd : reg) (sym : Z) : list uinstr :=
  let lo := signed 12 (sym - at_) in [Uauipc rd (sym - at_ - lo); Uaddi rd rd lo].
Definition asm_li (rd : reg) (imm : Z) : list uinstr := [Uaddi rd Xzero imm].
Definition asm_jal (at_ sym : Z) : list uinstr := [Ujal Xra (sym - at_)].

(** The text, with the addresses of the labels [exit], [init] and [argv], and
    the strings and words that follow it. *)
Definition initcode_text (exit_ init argv : Z) : list uinstr :=
  asm_la 0 Xa0 init ++ asm_la 8 Xa1 argv ++ asm_li Xa7 7 ++ [Uecall] ++
  asm_li Xa7 2 ++ [Uecall] ++ asm_jal 32 exit_.
Definition long_bytes (x : Z) : list Z := (fun k => Z.shiftr x (8 * k) mod 256) <$> [0; 1; 2; 3].
Definition initcode_data (init : Z) : list Z := [47; 105; 110; 105; 116; 0; 0] ++ long_bytes init ++ long_bytes 0.

(** The words of a list of bytes. *)
Definition word_at (bs : list Z) (a : nat) : Z :=
  nth a bs 0 + 2^8 * nth (a + 1) bs 0 + 2^16 * nth (a + 2) bs 0 + 2^24 * nth (a + 3) bs 0.

(** The array in kernel/proc.c is the assembled file, with [argv] at 0x2b. *)
Lemma initcode_assembled :
  ((fun k => decode (word_at initcode (4 * k))) <$> seq 0 9) = Some <$> initcode_text 24 36 43 /\
  drop 36 initcode = initcode_data 36 ++ [0].
Proof. split; by vm_compute. Qed.

(** ** Running it *)

Section run.
Context (um : Z -> option Z) (Hum : forall j b, initcode !! j = Some b -> um (Z.of_nat j) = Some b).

(** The instruction at [4 * k]. *)
Lemma fetch_code k i : (k < 9)%nat -> decode (word_at initcode (4 * k)) = Some i -> fetch um (4 * Z.of_nat k) ≫= decode = Some i.
Proof using Hum.
  intros Hk Hi. assert (forall j, (j < 4)%nat -> um (4 * Z.of_nat k + Z.of_nat j) = Some (nth (4 * k + j) initcode 0)) as H.
  { intros j Hj. assert (4 * k + j < length initcode)%nat as Hl by (change (length initcode) with 52%nat; lia). replace (4 * Z.of_nat k + Z.of_nat j) with (Z.of_nat (4 * k + j)) by lia. apply Hum.
    destruct (lookup_lt_is_Some_2 _ _ Hl) as [b Hb]. rewrite Hb. f_equal. symmetry. by apply nth_lookup_Some. }
  pose proof (H 0%nat ltac:(lia)) as H0. rewrite Z.add_0_r, Nat.add_0_r in H0. unfold fetch. rewrite H0. cbn [mbind option_bind].
  rewrite (H 1%nat ltac:(lia) : um (_ + 1) = _), (H 2%nat ltac:(lia) : um (_ + 2) = _), (H 3%nat ltac:(lia) : um (_ + 3) = _). exact Hi.
Qed.

Lemma to_ecall_S n h i : fetch um (pc h) ≫= decode = Some i -> to_ecall (S n) um h =
  match i with
  | Uauipc rd imm => to_ecall n um (set_pc (wrap64 (pc h + 4)) (set_gpr rd (pc h + imm) h))
  | Uaddi rd rs imm => to_ecall n um (set_pc (wrap64 (pc h + 4)) (set_gpr rd (gpr h rs + imm) h))
  | Ujal rd off => to_ecall n um (set_pc (wrap64 (pc h + off)) (set_gpr rd (pc h + 4) h))
  | Uecall => Some h
  end.
Proof. intros E. cbn [to_ecall]. unfold exec_user. rewrite E. by destruct i. Qed.

(** The code at [k]-th instruction is [i]. *)
#[local] Tactic Notation "istep" constr(k) constr(i) :=
  rewrite (to_ecall_S _ _ i) by (apply (fetch_code k); [lia|by vm_compute]); cbn [pc set_pc set_gpr].

#[local] Ltac gprs := repeat (change (gpr (set_pc ?a ?h)) with (gpr h) || rewrite gpr_set_gpr); repeat (rewrite decide_True by done || rewrite decide_False by (by intros [? _])); cbn [gpr].

(** From [start] to the call of [exec]. *)
Lemma start_execs h : pc h = 0 -> gpr h Xzero = 0 -> exists h', to_ecall 6 um h = Some h' /\
  pc h' = 0x14 /\ gpr h' Xa7 = 7 /\ gpr h' Xa0 = 0x24 /\ gpr h' Xa1 = 0x2b /\ gpr h' Xzero = 0.
Proof using Hum.
  intros Hpc Hz. destruct h as [g c mo p]. cbn in Hpc, Hz. subst p.
  istep 0%nat (Uauipc Xa0 0). istep 1%nat (Uaddi Xa0 Xa0 36). istep 2%nat (Uauipc Xa1 0). istep 3%nat (Uaddi Xa1 Xa1 35). istep 4%nat (Uaddi Xa7 Xzero 7). istep 5%nat Uecall.
  eexists. split; [reflexivity|]. gprs. rewrite ?Hz. splits; done.
Qed.

(** From [exit] to the call of [exit], and back. *)
Lemma exit_calls n h : pc h = 0x18 -> gpr h Xzero = 0 -> exists h', to_ecall (2 + n) um h = Some h' /\ pc h' = 0x1c /\ gpr h' Xa7 = 2 /\ gpr h' Xzero = 0.
Proof using Hum.
  intros Hpc Hz. destruct h as [g c mo p]. cbn in Hpc, Hz. subst p. cbn [Nat.add]. istep 6%nat (Uaddi Xa7 Xzero 2). istep 7%nat Uecall.
  eexists. split; [reflexivity|]. gprs. rewrite ?Hz. splits; done.
Qed.
Lemma exit_again n h : pc h = 0x20 -> gpr h Xzero = 0 -> exists h', to_ecall (3 + n) um h = Some h' /\ pc h' = 0x1c /\ gpr h' Xa7 = 2 /\ gpr h' Xzero = 0.
Proof using Hum.
  intros Hpc Hz. destruct h as [g c mo p]. cbn in Hpc, Hz. subst p. cbn [Nat.add]. istep 8%nat (Ujal Xra (-8)). apply (exit_calls n); [done|]. by gprs.
Qed.

(** The system calls that are made when they return [rs]: [a7], [a0] and [a1]
    at each of them. *)
Fixpoint ucalls (rs : list Z) (h : hart) : option (list (Z * (Z * Z))) :=
  match rs with
  | [] => Some []
  | r :: rs' =>
      h' ← to_ecall 6 um h;
      l ← ucalls rs' (sys_return r h');
      Some ((gpr h' Xa7, (gpr h' Xa0, gpr h' Xa1)) :: l)
  end.

Lemma ucalls_exit rs : forall h, pc h = 0x18 \/ pc h = 0x20 -> gpr h Xzero = 0 -> exists l, ucalls rs h = Some l /\ length l = length rs /\ Forall (fun c => c.1 = 2) l.
Proof using Hum.
  induction rs as [|r rs IH]; intros h Hpc Hz; [by exists []|]. assert (exists h', to_ecall 6 um h = Some h' /\ pc h' = 0x1c /\ gpr h' Xa7 = 2 /\ gpr h' Xzero = 0) as (h' & E & Hp & H7 & H0).
  { destruct Hpc; [by apply (exit_calls 4)|by apply (exit_again 3)]. }
  destruct (IH (sys_return r h')) as (l & El & Hl & HF); [right; unfold sys_return; cbn; by rewrite Hp|unfold sys_return; by gprs|].
  exists ((2, (gpr h' Xa0, gpr h' Xa1)) :: l). cbn [ucalls]. rewrite E. cbn [mbind option_bind]. rewrite El, H7. cbn. split; [done|]. split; [by rewrite Hl|by constructor].
Qed.

Lemma ucalls_start r rs h : pc h = 0 -> gpr h Xzero = 0 -> exists l, ucalls (r :: rs) h = Some ((7, (0x24, 0x2b)) :: l) /\ length l = length rs /\ Forall (fun c => c.1 = 2) l.
Proof using Hum.
  intros Hpc Hz. destruct (start_execs h Hpc Hz) as (h' & E & Hp & H7 & H0 & H1 & Hz'). destruct (ucalls_exit rs (sys_return r h')) as (l & El & Hl & HF); [left; unfold sys_return; cbn; by rewrite Hp|unfold sys_return; by gprs|].
  exists l. cbn [ucalls]. rewrite E. cbn [mbind option_bind]. by rewrite El, H7, H0, H1.
Qed.
End run.

(** ** uvminit *)

Section uvminit.
Context (kend : Z) (Hend : 0 < kend).

Lemma wp_uvminit m l t src sz (Q : unit -> kst -> Prop) : uvinv kend m l t [] -> (4 <= length l)%nat -> 0 <= sz < PGSIZE ->
  (forall q b, q ∈ l -> src <= b < src + sz -> ~ in_page q b) -> (forall q b, q ∈ pt_pages t -> src <= b < src + sz -> ~ in_page q b) ->
  (forall m' l' t' p, uvinv kend m' l' t' [p] -> p :: pt_pages t' ++ l' ≡ₚ pt_pages t ++ l -> root t' = root t -> leaf (mem m') t' 0 = pte_entry p PTE_USER ->
     (forall va, PGSIZE <= va < MAXVA -> leaf (mem m') t' va = leaf (mem m) t va) ->
     (forall off, 0 <= off < PGSIZE -> load8 (mem m') (p + off) = if decide (off < sz) then load8 (mem m) (src + off) else 0) ->
     unchanged_outside (pt_pages t ++ l) (mem m) (mem m') -> Q tt m') ->
  wp (uvminit (root t) src sz) Q m.
Proof using Hend.
  intros HU Hlen Hsz Hsrc Hsrc2 HQ. unfold uvminit. replace (PGSIZE <=? sz) with false by lia. apply wp_bind, (wp_kalloc_user kend Hend m l t []); [done|intros ->; cbn in Hlen; lia|].
  intros p l1 m1 -> HU1 Hp Hpn Hl1 Hm1. cbn [length] in Hlen. apply wp_bind, wp_modify. set (m2 := set_mem _ m1). cbn [app] in Hpn. assert (mem_wf (mem m1)) as Hw1 by apply HU1.
  assert (forall a, load8 (mem m2) a = if decide (in_page p a) then 0 else load8 (mem m1) a) as Hm2 by (intros a; apply load8_memset).
  destruct (uvinv_write kend m1 m2 l1 t [] p HU1 Hp Hpn eq_refl) as [HU2 Hl2]; [by apply memset_wf|intros a Ha; rewrite Hm2; by rewrite decide_False|].
  destruct (valid_page_entry kend Hend p Hp) as [Hpa Hpr]. assert (0 <= p < 2^55) as Hpr' by (destruct Hp as [_ ?]; change PHYSTOP with 0x88000000 in *; lia).
  apply wp_bind, (wp_mappages_page kend Hend m2 l1 t 0 p); [apply HU2|done|lia|done|done|done|done| | |].
  { destruct HU2 as (_ & [_ Hno] & _). by apply Hno. }
  { intros m3 t3 _ _ Hn. lia. }
  intros m3 l3 t3 Hev Hl3 _. set (m4 := set_mem (memmove (mem m3) p src sz) m3). pose proof Hev as ((HK3 & _ & _ & Hv3) & Hr3 & HP3 & U3).
  assert (uvinv kend m3 l3 t3 [p]) as HU3 by (apply (uvinv_snoc kend Hend m2 l1 t m3 l3 t3 [] p PTE_USER); [done|done|done|done|done|done|done|exact Hl3]).
  assert (p ∉ pt_pages t3 ++ l3) as Hpn3 by (by rewrite HP3). assert (mem_wf (mem m3)) as Hw3 by apply HK3.
  assert (forall a, load8 (mem m4) a = if decide (p <= a < p + sz) then load8 (mem m3) (src + (a - p)) else load8 (mem m3) a) as Hm4 by (intros a; apply load8_memmove; (done || lia)).
  destruct (uvinv_write kend m3 m4 l3 t3 [p] p HU3 Hp Hpn3 eq_refl) as [HU4 Hl4]; [by apply memmove_wf; [|lia]|intros a Ha; rewrite Hm4; rewrite decide_False; [done|unfold in_page in Ha; lia]|].
  assert (forall a, ~ in_page p a -> (forall q, q ∈ pt_pages t ++ l1 -> ~ in_page q a) -> load8 (mem m3) a = load8 (mem m) a) as Hout by (intros a Ha Hq; rewrite U3 by done; rewrite Hm2, decide_False by done; by apply Hm1).
  assert (forall a, in_page p a -> load8 (mem m3) a = 0) as Hin.
  { intros a Ha. rewrite U3; [by rewrite Hm2, decide_True|]. intros q Hq Ha'. apply Hpn. replace p with q; [done|]. apply (in_page_disjoint q p a); [|done|done|done].
    apply elem_of_app in Hq as [Hq|Hq]; [by apply HU1|by apply (free_valid kend m1 l1); [apply HU1|]]. }
  apply wp_modify. fold m4. apply (HQ m4 l3 t3 p); [done| |done| | | |].
  - rewrite HP3. solve_Permutation.
  - rewrite Hl4, Hl3 by done. by rewrite decide_True.
  - intros va Hva. rewrite Hl4, Hl3 by (unfold PGSIZE in *; lia). rewrite decide_False by (unfold PGSIZE in *; dlia). by rewrite Hl2, Hl1.
  - intros off Hoff. rewrite Hm4. destruct (decide (off < sz)) as [Hlt|Hge].
    + rewrite decide_True by lia. replace (src + (p + off - p)) with (src + off) by lia. apply Hout; [apply Hsrc; [by left|lia]|]. intros q Hq. apply elem_of_app in Hq as [Hq|Hq]; [apply Hsrc2; [done|lia]|apply Hsrc; [by right|lia]].
    + rewrite decide_False by lia. apply Hin. unfold in_page. lia.
  - intros a Ha. assert (~ in_page p a) as Hna by (apply Ha, elem_of_app; right; by left). rewrite Hm4, decide_False by (unfold in_page, PGSIZE in *; lia). apply Hout; [done|].
    intros q Hq. apply Ha. rewrite elem_of_app in *. rewrite elem_of_cons. tauto.
Qed.
End uvminit.

(** ** userinit *)

Lemma iget_scan_idle l : forall i e d n, Forall (fun p => iref p = 0) l -> iget_scan l i (Some e) d n = inr (Some e).
Proof. induction l as [|p l IH]; intros i e d n Hl; [done|]. apply Forall_cons in Hl as [Hp Hl]. cbn [iget_scan]. rewrite Hp. by apply IH. Qed.

Section userinit.
Context {T : Type} `{!TxOps T}.
Context (kend trampoline forkret_addr kobj de_addr : Z) (Hend : 0 < kend) (Htr : page_aligned trampoline /\ 0 <= trampoline < 2^55).
Abbreviation kern := (kern T).

(** The kernel at the call of [userinit]: memory is free, no process exists, no
    inode is in use, and [initcode] is at [src]. *)
Record booted (k : kern) (l : list Z) (src : Z) : Prop := Booted {
  bt_cpu : cpu_ok (ps k);
  bt_unlocked : unlocked (ps k);
  bt_locks : pid_lock (ps k) = spin_free /\ ic_lock (kfs k) = spin_free;
  bt_free : kinv kend (km (ps k)) l /\ (10 <= length l)%nat;
  bt_entries : Forall (fun p => pstate p = UNUSED) (procs (ps k));
  bt_inodes : Forall (fun p => iref p = 0) (inodes (kfs k)) /\ (0 < length (inodes (kfs k)))%nat;
  bt_code : forall j b, initcode !! j = Some b -> load8 (mem (km (ps k))) (src + Z.of_nat j) = b;
  bt_src : forall q b, q ∈ l -> src <= b < src + Z.of_nat (length initcode) -> ~ in_page q b }.

(** "/" is the first inode of the table. *)
Lemma wp_namei_root (s : fs_t T pst) `{!CopyOps pst} me de (Q : option nat -> fs_t T pst -> Prop) : ic_lock s = spin_free -> Forall (fun p => iref p = 0) (inodes s) -> (0 < length (inodes s))%nat ->
  (forall d, idev d = ROOTDEV -> inum d = ROOTINO -> iref d = 1 -> Q (Some 0%nat) (set_inodes (<[0%nat := d]> (inodes s)) s)) -> wp (namei me de 0 [SLASH]) Q s.
Proof.
  intros Hl Hi Hn HQ. unfold namei, namex. apply wp_bind, wp_bind. change (hd0 [SLASH] =? SLASH) with true. cbv iota. unfold iget. apply wp_bind, wp_spin_acquire; [done|]. apply wp_bind, wp_gets. cbn [inodes set_ic_lock].
  destruct (inodes s) as [|p ps] eqn:Ei; [cbn in Hn; lia|]. apply Forall_cons in Hi as [Hp Hi]. cbn [iget_scan]. rewrite Hp. cbn [Z.ltb Z.eqb andb Z.compare]. rewrite iget_scan_idle by done.
  apply wp_bind, wp_modify, wp_bind, wp_spin_release; [done|]. apply wp_ret. cbn [namex_loop]. change (skipelem [SLASH] _) with (@None (list Z * list Z)). cbn match. apply wp_ret, wp_ret. cbn [fst].
  destruct s as [sb lk inos tx u]. cbn in *. subst. by apply HQ.
Qed.

Lemma ubyte_first m t pg va : leaf m t 0 = pte_entry pg PTE_USER -> valid_page kend pg -> 0 <= va < PGSIZE -> ubyte m t va = Some (load8 m (pg + va)).
Proof using Hend.
  intros Hl Hv Hva. destruct (valid_page_entry kend Hend pg Hv) as [Ha Hr]. destruct (pte_entry_facts pg PTE_USER) as (_ & E1 & E2 & E3); [done|done|done|]. unfold ubyte, upa, page_pa.
  rewrite decide_True by (change MAXVA with (2^38); unfold PGSIZE in *; lia). rewrite (leaf_page m t va 0), Hl, E3, E1 by (change MAXVA with (2^38); unfold PGSIZE in *; first [lia|dlia]).
  rewrite (pte_flag _ PTE_U), E2 by done. cbn. do 2 f_equal. rewrite Z.mod_small by done. done.
Qed.

(** The trapframe of the first process. *)
Definition init_frame (tf : Z) (m : kst) : kst := set_mem (store64 (store64 (mem m) (tf + TF_EPC) 0) (tf + TF_SP) PGSIZE) m.
Lemma init_frame_out tf m a : ~ in_page tf a -> load8 (mem (init_frame tf m)) a = load8 (mem m) a.
Proof. intros Ha. unfold in_page, PGSIZE in Ha. cbn [mem init_frame set_mem]. unfold TF_EPC, TF_SP. by rewrite !load8_store64_ne by lia. Qed.
Lemma init_frame_in tf m : load64 (mem (init_frame tf m)) (tf + TF_EPC) = 0 /\ load64 (mem (init_frame tf m)) (tf + TF_SP) = PGSIZE.
Proof. cbn [mem init_frame set_mem]. split; [rewrite load64_store64_ne by (unfold TF_EPC, TF_SP; lia)|]; by rewrite load64_store64_eq. Qed.

(** The memory of the first process: the page [pg] holds [initcode] and zeros. *)
Record firstspace (m : kst) (tf pg : Z) (t : ptree) (l : list Z) : Prop := FirstSpace {
  fs_user : uvinv kend m l t [pg];
  fs_page : leaf (mem m) t 0 = pte_entry pg PTE_USER /\ valid_page kend pg;
  fs_tops : leaf_maps (leaf (mem m) t TRAMPOLINE) trampoline /\ leaf_maps (leaf (mem m) t TRAPFRAME) tf;
  fs_tf : valid_page kend tf /\ tf ∉ [pg] ++ pt_pages t ++ l;
  fs_regs : load64 (mem m) (tf + TF_EPC) = 0 /\ load64 (mem m) (tf + TF_SP) = PGSIZE;
  fs_bytes : forall off, 0 <= off < PGSIZE -> load8 (mem m) (pg + off) = nth (Z.to_nat off) initcode 0 }.

Lemma first_space (k : kern) l src m1 l1 tn tf m2 l2 t pg : booted k l src -> uvinv kend m1 l1 tn [] -> tf :: pt_pages tn ++ l1 ≡ₚ l -> unchanged_outside l (mem (km (ps k))) (mem m1) ->
  leaf (mem m1) tn TRAMPOLINE = pte_entry trampoline (Z.lor PTE_R PTE_X) -> leaf (mem m1) tn TRAPFRAME = pte_entry tf (Z.lor PTE_R PTE_W) ->
  uvinv kend m2 l2 t [pg] -> pg :: pt_pages t ++ l2 ≡ₚ pt_pages tn ++ l1 -> leaf (mem m2) t 0 = pte_entry pg PTE_USER -> (forall va, PGSIZE <= va < MAXVA -> leaf (mem m2) t va = leaf (mem m1) tn va) ->
  (forall off, 0 <= off < PGSIZE -> load8 (mem m2) (pg + off) = if decide (off < Z.of_nat (length initcode)) then load8 (mem m1) (src + off) else 0) ->
  firstspace (init_frame tf m2) tf pg t l2.
Proof using Hend Htr.
  intros [_ _ _ [HK _] _ _ Hcode Hsrc] HU1 HP1 U1 Ltr Ltf HU2 HP2 L0 L2 Hb. assert (NoDup (tf :: pg :: pt_pages t ++ l2)) as [Hn _]%NoDup_cons. { rewrite HP2, HP1. apply HK. }
  assert (valid_page kend tf) as Hv by (apply (free_valid kend (km (ps k)) l); [done|rewrite <- HP1; by left]). assert (valid_page kend pg) as Hvp by (destruct HU2 as (_ & _ & _ & HF & _); by apply Forall_cons in HF as [? _]).
  assert (0 <= tf < 2^55) as Hr by (destruct Hv as [_ ?]; change PHYSTOP with 0x88000000 in *; lia).
  destruct (uvinv_write kend m2 (init_frame tf m2) l2 t [pg] tf HU2 Hv) as [HU3 Hl3]; [intros H; apply Hn; by right|done|apply store64_wf, store64_wf, HU2|intros a; apply init_frame_out|].
  split; [done|by rewrite Hl3| |by split|apply init_frame_in|].
  - rewrite !Hl3, !L2, Ltr, Ltf by done. destruct Htr. split; [apply (kernel_entry trampoline); [done|done|by left]|apply (kernel_entry tf); [apply Hv|done|by right]].
  - intros off Hoff. rewrite init_frame_out.
    + rewrite Hb by done. case_decide as Hd.
      * rewrite U1 by (intros q Hq; apply Hsrc; [done|lia]). assert (Z.to_nat off < length initcode)%nat as Hlt by lia. destruct (lookup_lt_is_Some_2 _ _ Hlt) as [b Eb].
        rewrite <- (Z2Nat.id off) at 1 by lia. rewrite (Hcode _ _ Eb). symmetry. by apply nth_lookup_Some.
      * symmetry. apply nth_overflow. lia.
    + intros Hin. apply Hn. rewrite (in_page_disjoint tf pg (pg + off)); [by left|apply Hv|apply Hvp|done|unfold in_page; lia].
Qed.

(** After [userinit]: entry [i], that was free, is the first process. *)
Record initted (k : kern) (i : nat) (q : proc) (tf pg : Z) (t : ptree) (l' : list Z) (k' : kern) : Prop := Initted {
  in_init : initproc (ps k') = Some i;
  in_procs : procs (ps k') = <[i := q]> (procs (ps k)) /\ unlocked (ps k');
  in_entry : pstate q = RUNNABLE /\ pid q = nextpid (ps k) /\ psz q = PGSIZE /\ trapframe q = tf /\ pagetable q = root t;
  in_start : context q = forkret_addr :: wrap64 (kstack q + PGSIZE) :: replicate 12 0;
  in_space : firstspace (km (ps k')) tf pg t l';
  in_cwd : cwd q = Some 0%nat /\ exists d, inodes (kfs k') = <[0%nat := d]> (inodes (kfs k)) /\ idev d = ROOTDEV /\ inum d = ROOTINO /\ iref d = 1;
  in_cpu : cpu_ok (ps k') /\ cnoff (ps k') = cnoff (ps k) }.

Lemma wp_userinit (k : kern) l src : booted k l src ->
  wp (userinit kend trampoline forkret_addr kobj de_addr src) (fun _ k' => exists i q tf pg t l', initted k i q tf pg t l' k') k.
Proof using Hend Htr.
  intros HB. pose proof HB as [Hc Hu [Hpl Hil] [HK Hlen] Hun [Hin Hin0] Hcode Hsrc]. assert (0 <= cnoff (ps k)) as Hn0 by apply Hc.
  unfold userinit. apply wp_bind, wp_on_p, (wp_allocproc kend Hend trampoline forkret_addr Htr (ps k) l); [done|done|done|done| |].
  { intros s' _ [Hno|?]; [|lia]. exfalso. destruct Hu as [HL _]. destruct (lookup_lt_is_Some_2 (procs (ps k)) 0) as [q Hq]; [rewrite HL; by apply Nat.ltb_lt|]. apply (Hno _ _ Hq). by apply (Forall_lookup_1 _ _ _ _ Hun Hq). }
  intros i q tf l1 tn s2 [[Hq Hqu] E2 HUn HP Ltr Ltf Hsame I2 Hroom (O2 & N2 & C2)]. pose proof (lookup_lt_Some _ _ _ Hq) as Li. set (q1 := fresh _ _ _ _ _) in E2.
  apply wp_bind, wp_in_ps, wp_ret. apply wp_bind, wp_in_ps, wp_modify. rewrite (set_procs_eta s2 _ E2). change (set_initproc ?a (set_procs ?L ?s)) with (set_procs L (set_initproc a s)).
  apply wp_bind, wp_in_ps, wp_gets. rewrite proc_at_in by done. change (pagetable q1) with (root tn). change (pid q1) with (nextpid (ps k)).
  apply wp_bind, wp_in_ps, wp_zoom, (wp_uvminit kend Hend (km s2) l1 tn src); [done|lia|done| | |].
  { intros p b Hp. apply Hsrc. rewrite <- HP. set_solver. }
  { intros p b Hp. apply Hsrc. rewrite <- HP. set_solver. }
  intros m2 l2 t pg HU2 HP2 Hr2 L0 L2 Hb _. pose proof (first_space k l src (km s2) l1 tn tf m2 l2 t pg HB HUn HP Hsame Ltr Ltf HU2 HP2 L0 L2 Hb) as HF.
  change (set_km ?x (set_procs ?y ?z)) with (set_procs y (set_km x z)). apply wp_bind, wp_in_ps, wp_upd_in; [done|].
  unfold tf_store. apply wp_bind, wp_in_ps, wp_zoom, wp_modify, wp_bind, wp_in_ps, wp_zoom, wp_modify. change (trapframe q1) with tf. set (m3 := set_mem (store64 _ _ _) _). change m3 with (init_frame tf m2). clear m3. set (q2 := set_psz PGSIZE q1).
  set (s3 := set_km (init_frame tf m2) _). assert (procs s3 = <[i := q2]> (procs (ps k)) /\ km s3 = init_frame tf m2 /\ initproc s3 = Some i /\ cnoff s3 = cnoff s2) as (E3 & K3 & P3 & N3) by done. assert (cpu_ok s3) as C3 by exact C2. clearbody s3.
  rewrite (set_procs_eta s3 _ E3). apply wp_bind, wp_in_ps, wp_upd_in; [done|]. apply wp_bind, wp_zoom, wp_namei_root; [done|done|done|]. intros d Hd1 Hd2 Hd3.
  set (inos := <[0%nat := d]> (inodes _)). set (k2 := set_kfs (set_inodes inos (kfs k)) k). set (L := <[i := _]> (procs (ps k))). change (set_kfs _ _) with (set_ps (set_procs L s3) k2). subst L.
  do 2 (apply wp_bind, wp_in_ps, wp_upd_in; [done|]). apply wp_in_ps, wp_prelease; [done|cbn; lia|by rewrite proc_at_in|]. rewrite proc_at_in by done. cbn [procs set_procs]. rewrite list_insert_insert_eq.
  intros s6 E6 R6 N6 C6 _ _. set (q6 := set_plock spin_free _) in E6. exists i, q6, tf, pg, t, l2. split; change (ps (set_ps s6 k2)) with s6.
  - by rewrite (sr_initproc _ _ R6).
  - split; [exact E6|]. destruct Hu as [HL HF']. split; [by rewrite E6, length_insert|]. rewrite E6. by apply Forall_insert.
  - splits; done.
  - done.
  - rewrite (sr_km _ _ R6). cbn [km set_procs]. by rewrite K3.
  - split; [done|]. by exists d.
  - split; [done|]. rewrite N6. cbn [cnoff set_procs]. lia.
Qed.

(** The bytes of the first process. *)
Lemma first_bytes m tf pg t l off bs : firstspace m tf pg t l -> 0 <= off -> off + Z.of_nat (length bs) <= PGSIZE ->
  (forall j, (j < length bs)%nat -> nth (Z.to_nat off + j) initcode 0 = nth j bs 0) -> user_bytes (mem m) t off bs.
Proof using Hend.
  intros [_ [H0 Hv] _ _ _ Hb] Ho Hlen He j b Hj. pose proof (lookup_lt_Some _ _ _ Hj) as Hlt. rewrite (ubyte_first _ _ pg) by (done || lia). rewrite Hb by lia.
  replace (Z.to_nat (off + Z.of_nat j)) with (Z.to_nat off + j)%nat by lia. rewrite He by done. f_equal. by apply nth_lookup_Some.
Qed.

(** C13. [userinit], at boot, makes the first process, and that process execs
    "/init".  It does not panic: there are pages enough for it.  The entry that
    [initproc] points to is runnable, with the directory "/", and will start
    at [forkret] on its kernel stack.  Its memory is one page, [initcode]
    and then zeros.  Executed by a hart from the saved [epc] on, whatever the
    other registers hold, the first system call that these instructions make is
    exec("/init", argv), with argv[0] the string and argv[1] null; if it returns,
    every later call is exit. *)
Theorem userinit_execs_init (k : kern) l src : booted k l src ->
  wp (userinit kend trampoline forkret_addr kobj de_addr src) (fun _ k' => exists i q tf pg t l', initted k i q tf pg t l' k' /\
    let m := mem (km (ps k')) in
    user_bytes m t 0x24 [47; 105; 110; 105; 116; 0] /\
    user_bytes m t 0x2b [0x24; 0; 0; 0; 0; 0; 0; 0] /\ user_bytes m t 0x33 (replicate 8 0) /\
    forall h r rs, pc h = load64 m (tf + TF_EPC) -> gpr h Xzero = 0 ->
      exists cs, ucalls (ubyte m t) (r :: rs) h = Some ((7, (0x24, 0x2b)) :: cs) /\ sysno_of 7 = Some SYS_exec /\
        length cs = length rs /\ Forall (fun c => sysno_of c.1 = Some SYS_exit) cs) k.
Proof using Hend Htr.
  intros HB. eapply wp_conseq; [by apply (wp_userinit k l src)|]. intros _ k' (i & q & tf & pg & t & l' & HI). exists i, q, tf, pg, t, l'. split; [done|]. pose proof (in_space _ _ _ _ _ _ _ _ HI) as HF. cbv zeta.
  split; [|split; [|split]]; [apply (first_bytes (km (ps k')) tf pg t l'); [done|done|done|intros j Hj; cbn in Hj; do 8 (destruct j as [|j]; [done || lia|]); lia]..|].
  intros h r rs Hpc Hz. rewrite (proj1 (fs_regs _ _ _ _ _ HF)) in Hpc. destruct (ucalls_start (ubyte (mem (km (ps k'))) t)) with (r := r) (rs := rs) (h := h) as (cs & Ec & Hcl & HFc); [|done|done|].
  - intros j b Hj. apply (first_bytes (km (ps k')) tf pg t l' 0 initcode HF); [done|done|done|done].
  - exists cs. splits; [done|done|done|]. eapply Forall_impl; [exact HFc|]. intros c ->. done.
Qed.
End userinit.

(** ** An example: a kernel with eleven free pages *)

Definition bo_words : list (Z * Z) :=
  imap (fun j w => (KERNBASE + 8 * Z.of_nat j, w)) ((fun j => word_at initcode (8 * j) + 2^32 * word_at initcode (8 * j + 4)) <$> seq 0 7) ++
  ((fun j => (lp j, lp (j + 1))) <$> seqZ 0 10) ++ [(lp 10, 0)].
Definition bo_free : list Z := lp <$> seqZ 0 11.
Definition bo_pst : pst :=
  PSt (replicate 64 proc0) 1 spin_free None 0 true None (Hart (fun _ => 0) (fun _ => 0) PrivS 0) (Kst (words bo_words) (Kmem spin_free (lp 0))).
Definition bo_kern : kern atx :=
  Kern (Fs (SuperBlock 0 0 0 0 0 0 0 0) spin_free (replicate 50 empty_inode) ex_atx bo_pst) spin_free (replicate 100 file0) ∅ 0 spin_free 1 con0 vdisk0.

Lemma bo_kinv : kinv (lp 0) (km bo_pst) bo_free.
Proof.
  split; [done|]. split; [apply words_wf|]. split; [apply (lf_nodup (seqZ 0 11)); apply (bool_decide_unpack _); by vm_compute|].
  assert (forall k h l, 0 <= k < 15 -> h = lp k -> freelist_rep (lp 0) (words bo_words) (load64 (words bo_words) (lp k)) l -> freelist_rep (lp 0) (words bo_words) h (lp k :: l)) as Hc by (intros k h l Hk -> H; split; [done|split; [apply lf_valid; lia|done]]).
  change bo_free with [lp 0; lp 1; lp 2; lp 3; lp 4; lp 5; lp 6; lp 7; lp 8; lp 9; lp 10]. repeat (apply Hc; [lia|by vm_compute|]). by vm_compute.
Qed.

Lemma bo_code j b : initcode !! j = Some b -> load8 (words bo_words) (KERNBASE + Z.of_nat j) = b.
Proof.
  intros Hj. assert (Forall (fun j => load8 (words bo_words) (KERNBASE + Z.of_nat j) = nth j initcode 0) (seq 0 52)) as HF by (apply (bool_decide_unpack _); by vm_compute).
  rewrite Forall_forall in HF. pose proof (lookup_lt_Some _ _ _ Hj) as Hl. change (length initcode) with 52%nat in Hl. rewrite HF by (apply elem_of_seq; lia). by apply nth_lookup_Some.
Qed.

Lemma bo_booted : booted (lp 0) bo_kern bo_free KERNBASE.
Proof.
  split; [split; [split; [done|split; [done|cbn; lia]]|done]|split; [done|by apply Forall_replicate]|done|split; [exact bo_kinv|by vm_compute; lia]|by apply Forall_replicate|split; [by apply Forall_replicate|cbn; lia]|exact bo_code|].
  intros q b Hq Hb. apply list_elem_of_fmap in Hq as (j & -> & Hj%elem_of_seqZ). unfold in_page, lp, KERNBASE in *. change (length initcode) with 52%nat in Hb. unfold PGSIZE. change PHYSTOP with 0x88000000. lia.
Qed.

Lemma userinit_execs_init_witness : wp (userinit (lp 0) KERNBASE 0x80001000 0 0 KERNBASE) (fun _ k' => exists i t, initproc (ps k') = Some i /\ user_bytes (mem (km (ps k'))) t 0x24 [47; 105; 110; 105; 116; 0]) bo_kern.
Proof.
  eapply wp_conseq; [apply (userinit_execs_init (lp 0) KERNBASE 0x80001000 0 0 ltac:(done) ltac:(done) bo_kern bo_free KERNBASE bo_booted)|].
  intros _ k' (i & q & tf & pg & t & l' & [Hi _ _ _ _ _ _] & Hb & _). by exists i, t.
Defined.
