(* ===== verification/Exec.v ===== *)
(** * exec (kernel/exec.c, kernel/elf.h)

    The headers are read into kernel objects at [elf_addr] and [ph_addr] and
    taken apart from the bytes there. *)

From S2P Require Import Prelude Riscv Memory Spinlock Sleeplock Kalloc Vm Block BlockCache Log Tx CopyIO Fs Hart Proc Console Virtio File Kernel Syscall.

Definition ELF_MAGIC : Z := 0x464C457F.
Definition ELF_PROG_LOAD : Z := 1.
Definition ELFHDR : Z := 64.
Definition PROGHDR : Z := 56.

Record elfhdr := ElfHdr { elf_magic : Z; elf_entry : Z; elf_phoff : Z; elf_phnum : Z }.
Definition load_elfhdr (m : gmap Z Z) (a : Z) : elfhdr :=
  ElfHdr (loadn 4 m a) (load64 m (a + 24)) (load64 m (a + 32)) (loadn 2 m (a + 56)).
Record proghdr := ProgHdr { ph_type : Z; ph_off : Z; ph_vaddr : Z; ph_filesz : Z; ph_memsz : Z }.
Definition load_proghdr (m : gmap Z Z) (a : Z) : proghdr :=
  ProgHdr (loadn 4 m a) (load64 m (a + 8)) (load64 m (a + 16)) (load64 m (a + 32)) (load64 m (a + 40)).

(** [uint64] values as bytes. *)
Definition words_bytes (l : list Z) : list Z := x ← l; (fun k => Z.shiftr x (8 * k) mod 256) <$> [0; 1; 2; 3; 4; 5; 6; 7].

(** The part of a path after its last slash. *)
Fixpoint last_elem (s last : list Z) : list Z :=
  match s with
  | [] => last
  | c :: s' => last_elem s' (if c =? SLASH then s' else last)
  end.

Section exec.
Context {T : Type} `{!TxOps T}.
Context (kend trampoline kobj de_addr elf_addr ph_addr : Z).
Abbreviation kern := (kern T).
#[local] Instance exec_copy_ops : CopyOps pst := kern_copy_ops kobj.

(** The loop of [loadseg] from [i] on. *)
Fixpoint loadseg_loop (fuel : nat) (pt va : Z) (ip : nat) (offset sz i : Z) : M kern Z :=
  if negb (i <? sz) then ret 0 else
  match fuel with
  | O => nofuel
  | S fuel' =>
      let! pa := on_p (on_km (walkaddr pt (wrap64 (va + i)))) in
      if pa =? 0 then panic "loadseg: address should exist" else
      let n := if sz - i <? PGSIZE then sz - i else PGSIZE in
      let! r := on_fs (readi ip 0 pa (wrap32 (offset + i)) n) in
      if negb (r =? n) then ret (-1) else
      loadseg_loop fuel' pt va ip offset sz (wrap32 (i + PGSIZE))
  end.
Definition loadseg (pt va : Z) (ip : nat) (offset sz : Z) : M kern Z :=
  if negb (va mod PGSIZE =? 0) then panic "loadseg: va must be page aligned" else
  loadseg_loop (Z.to_nat (sz / PGSIZE + 1)) pt va ip offset sz 0.

(** The loop over the program headers: the size of the image, [inl] when it
    goes to [bad]. *)
Fixpoint load_loop (phnum : nat) (pt : Z) (ip : nat) (off sz : Z) : M kern (Z + Z) :=
  match phnum with
  | O => ret (inr sz)
  | S phnum' =>
      let! r := on_fs (readi ip 0 ph_addr (wrap32 off) PROGHDR) in
      if negb (r =? PROGHDR) then ret (inl sz) else
      let! m := on_p (on_km (gets mem)) in
      let ph := load_proghdr m ph_addr in
      let next := s32 (off + PROGHDR) in
      if negb (ph_type ph =? ELF_PROG_LOAD) then load_loop phnum' pt ip next sz else
      if ph_memsz ph <? ph_filesz ph then ret (inl sz) else
      if wrap64 (ph_vaddr ph + ph_memsz ph) <? ph_vaddr ph then ret (inl sz) else
      let! sz1 := on_p (on_km (uvmalloc kend pt sz (wrap64 (ph_vaddr ph + ph_memsz ph)))) in
      if sz1 =? 0 then ret (inl sz) else
      if negb (ph_vaddr ph mod PGSIZE =? 0) then ret (inl sz1) else
      let! r := loadseg pt (ph_vaddr ph) ip (wrap32 (ph_off ph)) (wrap32 (ph_filesz ph)) in
      if r <? 0 then ret (inl sz1) else load_loop phnum' pt ip next sz1
  end.

(** The loop that pushes the argument strings: the stack pointer and the
    addresses pushed.  [argv] holds the pointers up to the null pointer. *)
Fixpoint push_args (argv : list Z) (pt sp stackbase argc : Z) (ustack : list Z) : M kern (option (Z * list Z)) :=
  match argv with
  | [] => ret (Some (sp, ustack))
  | s :: argv' =>
      if MAXARG <=? argc then ret None else
      let! m := on_p (on_km (gets mem)) in
      match strlen (Z.to_nat PGSIZE) m s with
      | None => nofuel
      | Some len =>
          let sp := wrap64 (sp - (len + 1)) in
          let sp := sp - sp mod 16 in
          if sp <? stackbase then ret None else
          let! r := on_p (on_km (copyout pt sp s (len + 1))) in
          if r <? 0 then ret None else push_args argv' pt sp stackbase (argc + 1) (ustack ++ [sp])
      end
  end.

(** [bad:], with the page table, its size and the inode if still held. *)
Definition exec_bad (pt sz : Z) (ip : option nat) : M kern Z :=
  (if truth pt then on_p (proc_freepagetable kend pt sz) else ret tt) ;;
  match ip with
  | Some ip => let! me := mypid in on_fs (iunlockput me ip) ;; end_op
  | None => ret tt
  end ;;
  ret (-1).

(** [exec] once the image is loaded: the stack, and the switch to the new image. *)
Definition exec_finish (elf : elfhdr) (pt sz : Z) (path : list Z) (argv : list Z) : M kern Z :=
  let! (i, p) := myproc_ in
  let oldsz := psz p in
  let sz := PGROUNDUP sz in
  let! sz1 := on_p (on_km (uvmalloc kend pt sz (wrap64 (sz + 2 * PGSIZE)))) in
  if sz1 =? 0 then exec_bad pt sz None else
  let sz := sz1 in
  on_p (on_km (uvmclear pt (wrap64 (sz - 2 * PGSIZE)))) ;;
  let stackbase := wrap64 (sz - PGSIZE) in
  let! r := push_args argv pt sz stackbase 0 [] in
  match r with
  | None => exec_bad pt sz None
  | Some (sp, ustack) =>
      let argc := Z.of_nat (length ustack) in
      let sp := wrap64 (sp - (argc + 1) * 8) in
      let sp := sp - sp mod 16 in
      if sp <? stackbase then exec_bad pt sz None else
      let! r := on_p (copyout_obj kobj pt sp (words_bytes (ustack ++ [0]))) in
      if r <? 0 then exec_bad pt sz None else
      tf_store p TF_A1 sp ;;
      on_p (upd_proc i (setname (last_elem path path))) ;;
      on_p (upd_proc i (set_pagetable pt)) ;;
      on_p (upd_proc i (set_psz sz)) ;;
      tf_store p TF_EPC (elf_entry elf) ;;
      tf_store p TF_SP sp ;;
      on_p (proc_freepagetable kend (pagetable p) oldsz) ;;
      ret argc
  end.

Definition exec (path : list Z) (argv : list Z) : M kern Z :=
  let! (i, p) := myproc_ in
  begin_op ;;
  let! r := on_fs (namei (pid p) de_addr (default O (cwd p)) path) in
  match r with
  | None => end_op ;; ret (-1)
  | Some ip =>
      on_fs (ilock (pid p) ip) ;;
      let! r := on_fs (readi ip 0 elf_addr 0 ELFHDR) in
      if negb (r =? ELFHDR) then exec_bad 0 0 (Some ip) else
      let! m := on_p (on_km (gets mem)) in
      let elf := load_elfhdr m elf_addr in
      if negb (elf_magic elf =? ELF_MAGIC) then exec_bad 0 0 (Some ip) else
      let! pt := on_p (proc_pagetable kend trampoline i) in
      if pt =? 0 then exec_bad 0 0 (Some ip) else
      let! r := load_loop (Z.to_nat (elf_phnum elf)) pt ip (s32 (elf_phoff elf)) 0 in
      match r with
      | inl sz => exec_bad pt sz (Some ip)
      | inr sz =>
          on_fs (iunlockput (pid p) ip) ;;
          end_op ;;
          exec_finish elf pt sz path argv
      end
  end.
End exec.
