(* ===== verification/Sysfile.v ===== *)
(** * File system calls (kernel/sysfile.c, kernel/fcntl.h)

    The buffers a call keeps on its stack are at fixed addresses: [path_addr],
    [new_addr], [old_addr] for paths and [de_addr] for a directory entry;
    [name0] is what an uninitialised [char name[DIRSIZ]] holds. *)

From S2P Require Import Prelude Fcntl Riscv Memory Spinlock Sleeplock Kalloc Vm Block BlockCache Log Tx CopyIO Fs Hart Proc Console Virtio File Kernel Syscall Exec.

Definition DOT : list Z := [46].
Definition DOTDOT : list Z := [46; 46].

Section sysfile.
Context {T : Type} `{!TxOps T}.
Context (kend trampoline forkret_addr kobj de_addr elf_addr ph_addr ticks_addr : Z).
Context (path_addr new_addr old_addr : Z) (name0 pad : list Z).
Context (devsw_read devsw_write : Z -> option (Z -> Z -> Z -> M (kern T) Z)).
Abbreviation kern := (kern T).
#[local] Instance sysfile_copy_ops : CopyOps pst := kern_copy_ops kobj.

(** The descriptor and the file; [None] for -1. *)
Definition argfd (n : Z) : M kern (option (Z * nat)) :=
  let! fd := argint n in
  let! (_, p) := myproc_ in
  if (fd <? 0) || (NOFILE <=? fd) then ret None else
  match mjoin (ofile p !! Z.to_nat fd) with
  | None => ret None
  | Some f => ret (Some (fd, f))
  end.

(** The first empty slot of an [ofile] array. *)
Fixpoint free_fd (l : list (option nat)) (fd : nat) : option nat :=
  match l with
  | [] => None
  | None :: _ => Some fd
  | Some _ :: l' => free_fd l' (S fd)
  end.
Definition fdalloc (f : nat) : M kern Z :=
  let! (i, p) := myproc_ in
  match free_fd (take (Z.to_nat NOFILE) (ofile p)) 0 with
  | Some fd =>
      on_p (upd_proc i (fun q => set_ofile (<[fd := Some f]> (ofile q)) q)) ;;
      ret (Z.of_nat fd)
  | None => ret (-1)
  end.
(** [myproc()->ofile[fd] = 0]. *)
Definition fdclear (fd : Z) : M kern unit :=
  let! (i, _) := myproc_ in
  on_p (upd_proc i (fun q => set_ofile (<[Z.to_nat fd := None]> (ofile q)) q)).

Definition sys_dup : M kern Z :=
  let! r := argfd 0 in
  match r with
  | None => ret (-1)
  | Some (_, f) =>
      let! fd := fdalloc f in
      if fd <? 0 then ret (-1) else
      filedup f ;;
      ret fd
  end.

Definition sys_read : M kern Z :=
  let! r := argfd 0 in
  match r with
  | None => ret (-1)
  | Some (_, f) =>
      let! n := argint 2 in
      let! p := argaddr 1 in
      fileread kobj devsw_read f p n
  end.

Definition sys_write : M kern Z :=
  let! r := argfd 0 in
  match r with
  | None => ret (-1)
  | Some (_, f) =>
      let! n := argint 2 in
      let! p := argaddr 1 in
      filewrite kobj devsw_write f p n
  end.

Definition sys_close : M kern Z :=
  let! r := argfd 0 in
  match r with
  | None => ret (-1)
  | Some (fd, f) =>
      fdclear fd ;;
      fileclose kend f ;;
      ret 0
  end.

Definition sys_fstat : M kern Z :=
  let! r := argfd 0 in
  match r with
  | None => ret (-1)
  | Some (_, f) =>
      let! st := argaddr 1 in
      filestat kobj pad f st
  end.

Definition cwd_ : M kern (Z * nat) :=
  let! (_, p) := myproc_ in
  let! c := fderef (cwd p) in
  ret (pid p, c).
Definition namei_ (path : list Z) : M kern (option nat) :=
  let! (me, c) := cwd_ in
  on_fs (namei me de_addr c path).
Definition nameiparent_ (path : list Z) : M kern (option nat * list Z) :=
  let! (me, c) := cwd_ in
  on_fs (nameiparent me de_addr c path name0).
Definition ilock_ (ip : nat) : M kern unit := let! me := mypid in on_fs (ilock me ip).
Definition iunlock_ (ip : nat) : M kern unit := let! me := mypid in on_fs (iunlock me ip).
Definition iput_ (ip : nat) : M kern unit := let! me := mypid in on_fs (iput me ip).
Definition iunlockput_ (ip : nat) : M kern unit := let! me := mypid in on_fs (iunlockput me ip).
Definition dirlink_ (dp : nat) (name : list Z) (n : Z) : M kern Z :=
  let! me := mypid in on_fs (dirlink me de_addr dp name n).
Definition nlink_add (ip : nat) (d : Z) : M kern unit :=
  on_fs (upd_inode ip (fun p => set_nlink (s16 (nlink p + d)) p)).

(** [bad:] of [sys_link]. *)
Definition link_bad (ip : nat) : M kern Z :=
  ilock_ ip ;;
  nlink_add ip (-1) ;;
  on_fs (iupdate ip) ;;
  iunlockput_ ip ;;
  end_op ;;
  ret (-1).

Definition sys_link : M kern Z :=
  let! old := argpath 0 old_addr MAXPATH in
  match old with None => ret (-1) | Some old =>
  let! new := argpath 1 new_addr MAXPATH in
  match new with None => ret (-1) | Some new =>
  begin_op ;;
  let! r := namei_ old in
  match r with None => end_op ;; ret (-1) | Some ip =>
  ilock_ ip ;;
  let! p := on_fs (get_inode ip) in
  if itype p =? T_DIR then iunlockput_ ip ;; end_op ;; ret (-1) else
  nlink_add ip 1 ;;
  on_fs (iupdate ip) ;;
  iunlock_ ip ;;
  let! (dp, name) := nameiparent_ new in
  match dp with None => link_bad ip | Some dp =>
  ilock_ dp ;;
  let! d := on_fs (get_inode dp) in
  let! p := on_fs (get_inode ip) in
  let! r := (if negb (idev d =? idev p) then ret (-1) else dirlink_ dp name (inum p)) in
  if r <? 0 then iunlockput_ dp ;; link_bad ip else
  iunlockput_ dp ;;
  iput_ ip ;;
  end_op ;;
  ret 0
  end end end end.

(** The loop of [isdirempty] from [off] on. *)
Fixpoint isdirempty_loop (fuel : nat) (dp : nat) (off : Z) : M kern bool :=
  let! p := on_fs (get_inode dp) in
  if negb (off <? isize p) then ret true else
  match fuel with
  | O => nofuel
  | S fuel' =>
      let! de := on_fs (read_de de_addr dp off "isdirempty: readi") in
      if negb (de_inum de =? 0) then ret false else isdirempty_loop fuel' dp (off + DIRENT)
  end.
Definition isdirempty (dp : nat) : M kern bool :=
  let! p := on_fs (get_inode dp) in
  isdirempty_loop (dir_fuel (isize p)) dp (2 * DIRENT).

(** [bad:] of [sys_unlink]. *)
Definition unlink_bad (dp : nat) : M kern Z := iunlockput_ dp ;; end_op ;; ret (-1).

(** [sys_unlink] once the entry of [ip] is found at [off] in [dp]. *)
Definition unlink_entry (dp ip : nat) (off : Z) : M kern Z :=
  ilock_ ip ;;
  let! p := on_fs (get_inode ip) in
  if nlink p <? 1 then panic "unlink: nlink < 1" else
  let! busy := (if itype p =? T_DIR then let! e := isdirempty ip in ret (negb e) else ret false) in
  if busy then iunlockput_ ip ;; unlink_bad dp else
  on_fs (on_um (kwrite de_addr (replicate (Z.to_nat DIRENT) 0))) ;;
  let! r := on_fs (writei dp 0 de_addr off DIRENT) in
  if negb (r =? DIRENT) then panic "unlink: writei" else
  (if itype p =? T_DIR then nlink_add dp (-1) ;; on_fs (iupdate dp) else ret tt) ;;
  iunlockput_ dp ;;
  nlink_add ip (-1) ;;
  on_fs (iupdate ip) ;;
  iunlockput_ ip ;;
  end_op ;;
  ret 0.

Definition sys_unlink : M kern Z :=
  let! path := argpath 0 path_addr MAXPATH in
  match path with None => ret (-1) | Some path =>
  begin_op ;;
  let! (dp, name) := nameiparent_ path in
  match dp with None => end_op ;; ret (-1) | Some dp =>
  ilock_ dp ;;
  if (namecmp name DOT =? 0) || (namecmp name DOTDOT =? 0) then unlink_bad dp else
  let! r := on_fs (dirlookup de_addr dp name) in
  match r with
  | None => unlink_bad dp
  | Some (ip, off) => unlink_entry dp ip off
  end end end.

(** The second half of [create]: a new inode, linked under [name] in [dp]. *)
Definition create_new (dp : nat) (name : list Z) (type major minor : Z) : M kern (option nat) :=
  let! d := on_fs (get_inode dp) in
  let! ip := on_fs (ialloc (idev d) type) in
  ilock_ ip ;;
  on_fs (upd_inode ip (set_majmin major minor)) ;;
  on_fs (upd_inode ip (set_nlink 1)) ;;
  on_fs (iupdate ip) ;;
  let! p := on_fs (get_inode ip) in
  (if type =? T_DIR then
     nlink_add dp 1 ;;
     on_fs (iupdate dp) ;;
     let! r := dirlink_ ip DOT (inum p) in
     let! r := (if r <? 0 then ret r else dirlink_ ip DOTDOT (inum d)) in
     if r <? 0 then panic "create dots" else ret tt
   else ret tt) ;;
  let! r := dirlink_ dp name (inum p) in
  if r <? 0 then panic "create: dirlink" else
  iunlockput_ dp ;;
  ret (Some ip).

Definition create (path : list Z) (type major minor : Z) : M kern (option nat) :=
  let! (dp, name) := nameiparent_ path in
  match dp with None => ret None | Some dp =>
  ilock_ dp ;;
  let! r := on_fs (dirlookup de_addr dp name) in
  match r with
  | Some (ip, _) =>
      iunlockput_ dp ;;
      ilock_ ip ;;
      let! p := on_fs (get_inode ip) in
      if (type =? T_FILE) && ((itype p =? T_FILE) || (itype p =? T_DEVICE)) then ret (Some ip) else
      iunlockput_ ip ;;
      ret None
  | None => create_new dp name type major minor
  end end.

Definition flag (omode f : Z) : bool := truth (Z.land omode f).

(** [sys_open] from the test on [ip->type] on. *)
Definition open_inode (omode : Z) (ip : nat) : M kern Z :=
  let! p := on_fs (get_inode ip) in
  if (itype p =? T_DEVICE) && ((imajor p <? 0) || (NDEV <=? imajor p)) then iunlockput_ ip ;; end_op ;; ret (-1) else
  let! f := filealloc in
  match f with None => iunlockput_ ip ;; end_op ;; ret (-1) | Some f =>
  let! fd := fdalloc f in
  if fd <? 0 then fileclose kend f ;; iunlockput_ ip ;; end_op ;; ret (-1) else
  (if itype p =? T_DEVICE then
     upd_file f (set_ftype FD_DEVICE) ;;
     upd_file f (set_fmajor (imajor p))
   else
     upd_file f (set_ftype FD_INODE) ;;
     upd_file f (set_foff 0)) ;;
  upd_file f (set_fip (Some ip)) ;;
  upd_file f (set_frw (Z.b2z (negb (flag omode O_WRONLY))) (Z.b2z (flag omode O_WRONLY || flag omode O_RDWR))) ;;
  (if flag omode O_TRUNC && (itype p =? T_FILE) then on_fs (itrunc ip) else ret tt) ;;
  iunlock_ ip ;;
  end_op ;;
  ret fd
  end.

Definition sys_open : M kern Z :=
  let! path := argpath 0 path_addr MAXPATH in
  match path with None => ret (-1) | Some path =>
  let! omode := argint 1 in
  begin_op ;;
  if flag omode O_CREATE then
    let! r := create path T_FILE 0 0 in
    match r with None => end_op ;; ret (-1) | Some ip => open_inode omode ip end
  else
    let! r := namei_ path in
    match r with None => end_op ;; ret (-1) | Some ip =>
    ilock_ ip ;;
    let! p := on_fs (get_inode ip) in
    if (itype p =? T_DIR) && negb (omode =? O_RDONLY) then iunlockput_ ip ;; end_op ;; ret (-1)
    else open_inode omode ip
    end
  end.

Definition sys_mkdir : M kern Z :=
  begin_op ;;
  let! path := argpath 0 path_addr MAXPATH in
  match path with None => end_op ;; ret (-1) | Some path =>
  let! r := create path T_DIR 0 0 in
  match r with None => end_op ;; ret (-1) | Some ip => iunlockput_ ip ;; end_op ;; ret 0 end
  end.

Definition sys_mknod : M kern Z :=
  begin_op ;;
  let! path := argpath 0 path_addr MAXPATH in
  match path with None => end_op ;; ret (-1) | Some path =>
  let! major := argint 1 in
  let! minor := argint 2 in
  let! r := create path T_DEVICE (s16 major) (s16 minor) in
  match r with None => end_op ;; ret (-1) | Some ip => iunlockput_ ip ;; end_op ;; ret 0 end
  end.

Definition sys_chdir : M kern Z :=
  let! (i, q) := myproc_ in
  begin_op ;;
  let! path := argpath 0 path_addr MAXPATH in
  match path with None => end_op ;; ret (-1) | Some path =>
  let! r := namei_ path in
  match r with None => end_op ;; ret (-1) | Some ip =>
  ilock_ ip ;;
  let! p := on_fs (get_inode ip) in
  if negb (itype p =? T_DIR) then iunlockput_ ip ;; end_op ;; ret (-1) else
  iunlock_ ip ;;
  let! c := fderef (cwd q) in
  iput_ c ;;
  end_op ;;
  on_p (upd_proc i (set_cwd (Some ip))) ;;
  ret 0
  end end.

(** The loop of [sys_exec] that copies the arguments, with [k] = [MAXARG] - [i]:
    the pointers stored in [argv], on the left when it goes to [bad]. *)
Fixpoint exec_args (k : nat) (uargv : Z) (argv : list Z) : M kern (list Z + list Z) :=
  match k with
  | O => ret (inl argv)
  | S k' =>
      let! uarg := fetchaddr kobj (wrap64 (uargv + 8 * Z.of_nat (length argv))) in
      match uarg with None => ret (inl argv) | Some uarg =>
      if uarg =? 0 then ret (inr argv) else
      let! pa := on_p (on_km kalloc) in
      if pa =? 0 then ret (inl argv) else
      let! r := fetchstr uarg pa PGSIZE in
      if r <? 0 then ret (inl (argv ++ [pa])) else exec_args k' uargv (argv ++ [pa])
      end
  end.

Definition free_args (argv : list Z) : M kern unit := for_each argv (fun pa => on_p (on_km (kfree kend pa))).

Definition sys_exec : M kern Z :=
  let! path := argpath 0 path_addr MAXPATH in
  match path with None => ret (-1) | Some path =>
  let! uargv := argaddr 1 in
  let! r := exec_args (Z.to_nat MAXARG) uargv [] in
  match r with
  | inl argv => free_args argv ;; ret (-1)
  | inr argv =>
      let! r := exec kend trampoline kobj de_addr elf_addr ph_addr path argv in
      free_args argv ;;
      ret r
  end end.

Definition sys_pipe : M kern Z :=
  let! (_, p) := myproc_ in
  let! fdarray := argaddr 0 in
  let! r := pipealloc kend in
  match r with None => ret (-1) | Some (rf, wf) =>
  let close_both := fileclose kend rf ;; fileclose kend wf ;; ret (-1) in
  let! fd0 := fdalloc rf in
  if fd0 <? 0 then close_both else
  let! fd1 := fdalloc wf in
  if fd1 <? 0 then fdclear fd0 ;; close_both else
  let! r := on_p (copyout_obj kobj (pagetable p) fdarray (int_bytes fd0)) in
  let! r := (if r <? 0 then ret r else on_p (copyout_obj kobj (pagetable p) (wrap64 (fdarray + 4)) (int_bytes fd1))) in
  if r <? 0 then fdclear fd0 ;; fdclear fd1 ;; close_both else ret 0
  end.

(** The table [syscalls] (kernel/syscall.c); a call that sleeps does not
    return in the view of its process. *)
Definition syscalls (n : sysno) : M kern Z :=
  match n with
  | SYS_fork => sys_fork kend trampoline forkret_addr
  | SYS_exit => sys_exit kend
  | SYS_wait => sys_wait kend kobj
  | SYS_pipe => sys_pipe
  | SYS_read => sys_read
  | SYS_kill => sys_kill
  | SYS_exec => sys_exec
  | SYS_fstat => sys_fstat
  | SYS_chdir => sys_chdir
  | SYS_dup => sys_dup
  | SYS_getpid => sys_getpid
  | SYS_sbrk => sys_sbrk kend
  | SYS_sleep => let! r := sys_sleep ticks_addr in wait_for r
  | SYS_uptime => sys_uptime
  | SYS_open => sys_open
  | SYS_write => sys_write
  | SYS_mknod => sys_mknod
  | SYS_unlink => sys_unlink
  | SYS_link => sys_link
  | SYS_mkdir => sys_mkdir
  | SYS_close => sys_close
  end.
End sysfile.
