(* ===== verification/Trap.v ===== *)
(** * Traps (kernel/trap.c, [forkret] of kernel/proc.c)

    [usertrap] and [forkret] end in a call of [userret] (kernel/trampoline.S),
    whose arguments are their value; [usertrap] and [kerneltrap] may give up
    the CPU first, and then return [Asleep]. *)

From S2P Require Import Prelude Riscv Memory Spinlock Sleeplock Kalloc Vm Block BlockCache Log Tx CopyIO Fs Hart Boot Proc Console Virtio File Kernel Syscall Exec Sysfile.

(** A hart with the memory, for kernel/plic.c. *)
Definition on_mach {A} (c : M mach A) : M pst A :=
  zoom (fun s => Mach (chart s) (mem (km s))) (fun m s => set_chart (hrt m) (set_km (set_mem (ram m) (km s)) s)) c.

(** Addresses of code: trampoline.S, kernelvec.S and [usertrap]. *)
Record code := Code { c_trampoline : Z; c_uservec : Z; c_userret : Z; c_kernelvec : Z; c_usertrap : Z }.

Section trap.
Context {T : Type} `{!TxOps T}.
Context (cd : code) (kend ticks_addr : Z).
Abbreviation kern := (kern T).
(** The table of system calls, [printf], and the two drivers' interrupt
    handlers, as [Sysfile], [Console] and [Virtio] define them. *)
Context (syscalls : sysno -> M kern Z) (printf : list Z -> list va -> M kern unit).
Context (uartintr virtio_disk_intr : M kern unit).

Definition on_h {A} (c : M hart A) : M kern A := on_p (on_chart c).

Definition trapinit : M kern unit := modify (set_tickslock spin_free).
Definition trapinithart : M kern unit := on_h (w_stvec (c_kernelvec cd)).

Definition clockintr : M kern unit :=
  tl_acquire ;;
  modify (fun k => set_ticks (wrap32 (ticks k + 1)) k) ;;
  on_p (wakeup (ChAddr ticks_addr)) ;;
  tl_release.

Definition devintr : M kern Z :=
  let! scause := on_h r_scause in
  if truth (Z.land scause 0x8000000000000000) && (Z.land scause 0xff =? 9) then
    let! irq := on_p (on_mach plic_claim) in
    (if irq =? UART0_IRQ then uartintr
     else if irq =? VIRTIO0_IRQ then virtio_disk_intr
     else if truth irq then printf (chars "unexpected interrupt irq=%d" ++ [10]) [VInt irq]
     else ret tt) ;;
    (if truth irq then on_p (on_mach (plic_complete irq)) else ret tt) ;;
    ret 1
  else if scause =? 0x8000000000000001 then
    let! id := on_p Proc.cpuid in
    (if id =? 0 then clockintr else ret tt) ;;
    let! sip := on_h r_sip in
    on_h (w_sip (Z.land sip (Z.lnot 2))) ;;
    ret 2
  else ret 0.

Definition usertrapret : M kern (Z * Z) :=
  let! (i, p) := myproc_ in
  on_p (on_ccpu intr_off) ;;
  on_h (w_stvec (TRAMPOLINE + (c_uservec cd - c_trampoline cd))) ;;
  let! satp := on_h r_satp in
  tf_store p TF_KERNEL_SATP satp ;;
  tf_store p TF_KERNEL_SP (kstack p + PGSIZE) ;;
  tf_store p TF_KERNEL_TRAP (c_usertrap cd) ;;
  let! tp := on_h r_tp in
  tf_store p TF_KERNEL_HARTID tp ;;
  let! x := on_h r_sstatus in
  let x := Z.land x (Z.lnot SSTATUS_SPP) in
  let x := Z.lor x SSTATUS_SPIE in
  on_h (w_sstatus x) ;;
  let! epc := tf_load p TF_EPC in
  on_h (w_sepc epc) ;;
  let satp := MAKE_SATP (pagetable p) in
  ret (TRAPFRAME, satp).

(** The end of [usertrap], after the trap has been handled. *)
Definition usertrap_end (which_dev : Z) : M kern (susp bool (Z * Z)) :=
  let! (_, p) := myproc_ in
  if truth (killed p) then exit kend (-1) ;; block else
  if which_dev =? 2 then let! ie := on_p yield in ret (Asleep ie) else
  let! r := usertrapret in
  ret (Done r).
Definition usertrap : M kern (susp bool (Z * Z)) :=
  let! x := on_h r_sstatus in
  if truth (Z.land x SSTATUS_SPP) then panic "usertrap: not from user mode" else
  on_h (w_stvec (c_kernelvec cd)) ;;
  let! (i, p) := myproc_ in
  let! sepc := on_h r_sepc in
  tf_store p TF_EPC sepc ;;
  let! scause := on_h r_scause in
  if scause =? 8 then
    if truth (killed p) then exit kend (-1) ;; block else
    let! epc := tf_load p TF_EPC in
    tf_store p TF_EPC (epc + 4) ;;
    on_p (on_ccpu intr_on) ;;
    syscall syscalls printf ;;
    usertrap_end 0
  else
    let! which_dev := devintr in
    if truth which_dev then usertrap_end which_dev else
    let! scause := on_h r_scause in
    printf (chars "usertrap(): unexpected scause %p pid=%d" ++ [10]) [VPtr scause; VInt (pid p)] ;;
    let! sepc := on_h r_sepc in
    let! stval := on_h r_stval in
    printf (chars "            sepc=%p stval=%p" ++ [10]) [VPtr sepc; VPtr stval] ;;
    on_p (upd_proc i (set_killed 1)) ;;
    usertrap_end 0.
Definition usertrap_again (me : nat) (intena : bool) : M kern (Z * Z) :=
  on_p (yield_return me intena) ;;
  usertrapret.

(** What [kerneltrap] keeps across [yield]. *)
Record ktrap := KTrap { kt_sepc : Z; kt_sstatus : Z }.
Definition kerneltrap_end (k : ktrap) : M kern unit :=
  on_h (w_sepc (kt_sepc k)) ;;
  on_h (w_sstatus (kt_sstatus k)).
Definition kerneltrap : M kern (susp (ktrap * bool) unit) :=
  let! sepc := on_h r_sepc in
  let! sstatus := on_h r_sstatus in
  let! scause := on_h r_scause in
  if Z.land sstatus SSTATUS_SPP =? 0 then panic "kerneltrap: not from supervisor mode" else
  let! on := on_p (on_ccpu intr_get) in
  if (on : bool) then panic "kerneltrap: interrupts enabled" else
  let! which_dev := devintr in
  if which_dev =? 0 then
    printf (chars "scause %p" ++ [10]) [VPtr scause] ;;
    let! sepc := on_h r_sepc in
    let! stval := on_h r_stval in
    printf (chars "sepc=%p stval=%p" ++ [10]) [VPtr sepc; VPtr stval] ;;
    panic "kerneltrap"
  else
  let! switch := (if which_dev =? 2 then
      let! me := on_p myproc in
      match me with
      | Some i => let! p := on_p (get_proc i) in ret (bool_decide (pstate p = RUNNING))
      | None => ret false
      end
    else ret false) in
  if (switch : bool) then
    let! ie := on_p yield in
    ret (Asleep (KTrap sepc sstatus, ie))
  else
    kerneltrap_end (KTrap sepc sstatus) ;;
    ret (Done tt).
Definition kerneltrap_again (me : nat) (k : ktrap) (intena : bool) : M kern unit :=
  on_p (yield_return me intena) ;;
  kerneltrap_end k.

(** A new process starts here, holding its lock. *)
Definition forkret : M kern (Z * Z) :=
  let! i := on_p cur in
  on_p (prelease i) ;;
  let! f := gets first in
  (if truth f then modify (set_first 0) ;; on_fs (fsinit ROOTDEV) else ret tt) ;;
  usertrapret.
End trap.
