(* ===== verification/Main.v ===== *)
(** * Starting the kernel (kernel/main.c; [kvminit] and [kvminithart] of kernel/vm.c)

    [main] up to its call of [scheduler], on the first hart and on the others. *)

From S2P Require Import Prelude Riscv Memory Spinlock Sleeplock Kalloc Vm Block BlockCache Log Tx CopyIO Fs Hart Boot Proc Console Virtio File Kernel Syscall Exec Sysfile Trap.

(** [kvminit]; the value is [kernel_pagetable].  [etext] and [trampoline] are
    linker symbols. *)
Definition kvminit (etext trampoline : Z) : M kst Z :=
  let! kpt := kalloc in
  kmemset kpt 0 PGSIZE ;;
  kvmmap kpt UART0 UART0 PGSIZE (Z.lor PTE_R PTE_W) ;;
  kvmmap kpt VIRTIO0 VIRTIO0 PGSIZE (Z.lor PTE_R PTE_W) ;;
  kvmmap kpt CLINT CLINT 0x10000 (Z.lor PTE_R PTE_W) ;;
  kvmmap kpt PLIC PLIC 0x400000 (Z.lor PTE_R PTE_W) ;;
  kvmmap kpt KERNBASE KERNBASE (etext - KERNBASE) (Z.lor PTE_R PTE_X) ;;
  kvmmap kpt etext etext (PHYSTOP - etext) (Z.lor PTE_R PTE_W) ;;
  kvmmap kpt TRAMPOLINE trampoline PGSIZE (Z.lor PTE_R PTE_X) ;;
  ret kpt.

Definition kvminithart (kpt : Z) : M hart unit :=
  w_satp (MAKE_SATP kpt) ;;
  sfence_vma.

Section main.
Context {T : Type} `{!TxOps T}.
Context (cd : code) (kend etext forkret_addr kobj de_addr initcode_addr pages_addr : Z).
Context (ReadReg : Z -> M kst Z) (WriteReg : Z -> Z -> M kst unit) (spins : nat).
Context (R_read : Z -> M kst Z) (R_write : Z -> Z -> M kst unit).
(** [binit] of the buffer cache below the file system. *)
Context (binit : M T unit).
Abbreviation kern := (kern T).
Abbreviation say s args := (on_con (printf ReadReg WriteReg spins s args)).

(** [main] on hart 0, up to [started = 1]. *)
Definition main_first : M kern unit :=
  on_con (consoleinit WriteReg) ;;
  on_con printfinit ;;
  say [10] [] ;;
  say (chars "xv6 kernel is booting" ++ [10]) [] ;;
  say [10] [] ;;
  on_p (on_km (kinit kend)) ;;
  let! kpt := on_p (on_km (kvminit etext (c_trampoline cd))) in
  on_h (kvminithart kpt) ;;
  on_p (procinit kpt) ;;
  trapinit ;;
  trapinithart cd ;;
  on_p (on_mach plicinit) ;;
  on_p (on_mach plicinithart) ;;
  on_fs (on_tx binit) ;;
  on_fs iinit ;;
  fileinit ;;
  on_disk (virtio_disk_init R_read R_write pages_addr) ;;
  userinit kend (c_trampoline cd) forkret_addr kobj de_addr initcode_addr.

(** [main] on another hart; it waits for [started]. *)
Definition main_other (started : Z) (kpt : Z) : M kern unit :=
  if started =? 0 then block else
  let! id := on_p Proc.cpuid in
  say (chars "hart %d starting" ++ [10]) [VInt id] ;;
  on_h (kvminithart kpt) ;;
  trapinithart cd ;;
  on_p (on_mach plicinithart).

Definition main (started kpt : Z) : M kern unit :=
  let! id := on_p Proc.cpuid in
  if id =? 0 then main_first else main_other started kpt.
End main.
