(* ===== verification/Grep.v ===== *)
(** * grep (user/grep.c)

    The regular-expression matcher, with what a pattern means, and the loop
    that filters the lines of a file.  Strings are lists of characters
    without their null character: [text + 1] is the tail of [text]. *)

From S2P Require Import Prelude.

(** ** match *)

Definition CARET : Z := 94.
Definition DOLLAR : Z := 36.
Definition STAR : Z := 42.
Definition ANY : Z := 46.
Definition NL : Z := 10.

(** [c] of a pattern against a character of the text. *)
Definition fits (c x : Z) : bool := (c =? ANY) || (c =? x).

(** [matchstar(c, re, text)] where [here] is [matchhere(re, _)]. *)
Fixpoint matchstar (c : Z) (here : list Z -> bool) (text : list Z) : bool :=
  here text || match text with
               | [] => false
               | x :: text' => if fits c x then matchstar c here text' else false
               end.

Fixpoint matchhere (re text : list Z) : bool :=
  match re with
  | [] => true
  | c :: re' =>
      let rest :=
        if (c =? DOLLAR) && match re' with [] => true | _ => false end then
          match text with [] => true | _ => false end
        else
          match text with
          | [] => false
          | x :: text' => if fits c x then matchhere re' text' else false
          end in
      match re' with
      | s :: re'' => if s =? STAR then matchstar c (matchhere re'') text else rest
      | [] => rest
      end
  end.

(** The [do] loop of [match]. *)
Fixpoint match_loop (re text : list Z) : bool :=
  matchhere re text || match text with [] => false | _ :: text' => match_loop re text' end.
Definition match_ (re text : list Z) : bool :=
  match re with
  | c :: re' => if c =? CARET then matchhere re' text else match_loop re text
  | [] => match_loop re text
  end.

(** ** What a pattern means *)

Inductive atom := One (c : Z) | Many (c : Z).

(** The atoms of a pattern after [^], and whether it ends in [$]. *)
Fixpoint atoms (re : list Z) : list atom * bool :=
  match re with
  | [] => ([], false)
  | c :: re' =>
      let rest :=
        if (c =? DOLLAR) && match re' with [] => true | _ => false end then ([], true)
        else let (l, e) := atoms re' in (One c :: l, e) in
      match re' with
      | s :: re'' => if s =? STAR then let (l, e) := atoms re'' in (Many c :: l, e) else rest
      | [] => rest
      end
  end.

(** The strings that a sequence of atoms matches. *)
Inductive lang : list atom -> list Z -> Prop :=
| lang_nil : lang [] []
| lang_one c x l w : fits c x = true -> lang l w -> lang (One c :: l) (x :: w)
| lang_many c v l w : Forall (fun x => fits c x = true) v -> lang l w -> lang (Many c :: l) (v ++ w).

(** A prefix of the text matches. *)
Definition starts (re text : list Z) : Prop :=
  exists v w, text = v ++ w /\ lang (fst (atoms re)) v /\ (snd (atoms re) = true -> w = []).

Lemma matchstar_spec c here text : matchstar c here text = true <->
  exists v w, text = v ++ w /\ Forall (fun x => fits c x = true) v /\ here w = true.
Proof.
  induction text as [|x text IH]; cbn [matchstar].
  - rewrite orb_false_r. split.
    + intros H. exists [], []. by repeat constructor.
    + intros (v & w & E & _ & H). symmetry in E. apply app_nil in E as [-> ->]. done.
  - rewrite orb_true_iff. split.
    + intros [H|H]; [by exists [], (x :: text); repeat constructor|]. destruct (fits c x) eqn:E; [|done].
      apply IH in H as (v & w & -> & Hv & Hw). exists (x :: v), w. split; [done|]. split; [by constructor|done].
    + intros (v & w & E & Hv & Hw). destruct v as [|y v]; [left; cbn in E; by rewrite E|]. injection E as <- ->.
      apply Forall_cons in Hv as [Hy Hv]. right. rewrite Hy. apply IH. by exists v, w.
Qed.

(** The two shapes of a pattern that is not empty. *)
Lemma pattern_cases (P : list Z -> Prop) :
  P [] -> (forall c re, P re -> P (c :: STAR :: re)) ->
  (forall c re, P re -> head re <> Some STAR -> P (c :: re)) -> forall re, P re.
Proof.
  intros H0 H1 H2 re. assert (P re /\ forall c, P (c :: re)) as [? _]; [|done]. induction re as [|c re [IH1 IH2]].
  - split; [done|]. intros c. by apply H2.
  - split; [apply IH2|]. intros d. destruct (decide (c = STAR)) as [->|Hc]; [by apply H1|]. apply H2; [apply IH2|]. cbn. congruence.
Qed.

Lemma no_star {A} (re : list Z) (a : Z -> list Z -> A) (b : A) : head re <> Some STAR ->
  match re with s :: re'' => if s =? STAR then a s re'' else b | [] => b end = b.
Proof. destruct re as [|s re]; [done|]. intros H. rewrite (proj2 (Z.eqb_neq s STAR)); [done|]. intros ->. done. Qed.

Lemma matchhere_spec re : forall text, matchhere re text = true <-> starts re text.
Proof.
  unfold starts. induction re as [|c re IH|c re IH Hns] using pattern_cases; intros text.
  - cbn. split; [|done]. intros _. exists [], text. split; [done|]. split; [constructor|done].
  - cbn [matchhere atoms]. rewrite Z.eqb_refl, matchstar_spec. destruct (atoms re) as [l e] eqn:Ea. cbn [fst snd] in *. split.
    + intros (v & w & -> & Hv & (v2 & w2 & -> & Hl & He)%IH). exists (v ++ v2), w2. split; [by rewrite app_assoc|]. split; [by constructor|done].
    + intros (v & w & -> & Hl & He). inversion Hl; subst. rewrite <- app_assoc. exists v0, (w0 ++ w). split; [done|]. split; [done|]. apply IH. by exists w0, w.
  - cbn [matchhere atoms]. rewrite !no_star by done. destruct (_ && _) eqn:Hd.
    { cbn [fst snd]. split.
      - destruct text; [|done]. intros _. exists [], []. split; [done|]. split; [constructor|done].
      - intros (v & w & -> & Hl & He). inversion Hl; subst. by rewrite He. }
    destruct (atoms re) as [l e] eqn:Ea. cbn [fst snd] in *. split.
    + destruct text as [|x text]; [done|]. destruct (fits c x) eqn:Ef; [|done]. intros (v & w & -> & Hl & He)%IH.
      exists (x :: v), w. split; [done|]. split; [by constructor|done].
    + intros (v & w & -> & Hl & He). inversion Hl; subst. cbn [app]. rewrite H1. apply IH. by exists w0, w.
Qed.

Lemma match_loop_spec re text : match_loop re text = true <-> exists u t, text = u ++ t /\ starts re t.
Proof.
  induction text as [|x text IH]; cbn [match_loop].
  - rewrite orb_false_r, matchhere_spec. split; [intros H; by exists [], []|]. intros (u & t & E & H). symmetry in E. by apply app_nil in E as [-> ->].
  - rewrite orb_true_iff, matchhere_spec, IH. split.
    + intros [H|(u & t & -> & H)]; [by exists [], (x :: text)|by exists (x :: u), t].
    + intros (u & t & E & H). destruct u as [|y u]; [left; cbn in E; by rewrite E|]. injection E as <- ->. right. by exists u, t.
Qed.

(** C34. [match(re, text)] decides the regular language that the pattern
    denotes: it returns 1 exactly when some part of the text is in the
    language of the pattern's atoms, that part being at the beginning of the
    text when the pattern starts with [^], and at its end when it ends
    with [$]. *)
Theorem match_correct re text :
  let anchored := match re with c :: _ => c =? CARET | [] => false end in
  let body := if anchored then tail re else re in
  match_ re text = true <->
  exists u v w, text = u ++ v ++ w /\ lang (fst (atoms body)) v /\ (anchored = true -> u = []) /\ (snd (atoms body) = true -> w = []).
Proof.
  cbn zeta. unfold match_. destruct re as [|c re]; [|destruct (c =? CARET)]; cbn [tail].
  - rewrite match_loop_spec. split.
    + intros (u & t & -> & v & w & -> & Hl & He). by exists u, v, w.
    + intros (u & v & w & -> & Hl & _ & He). exists u, (v ++ w). split; [done|]. by exists v, w.
  - rewrite matchhere_spec. split.
    + intros (v & w & -> & Hl & He). by exists [], v, w.
    + intros (u & v & w & -> & Hl & Hu & He). rewrite Hu by done. by exists v, w.
  - rewrite match_loop_spec. split.
    + intros (u & t & -> & v & w & -> & Hl & He). by exists u, v, w.
    + intros (u & v & w & -> & Hl & _ & He). exists u, (v ++ w). split; [done|]. by exists v, w.
Qed.

(** ** grep *)

Definition BUFSIZE : Z := 1024.

(** [strchr(p, '\n')]: the characters before the newline and after it. *)
Fixpoint cut_line (p : list Z) : option (list Z * list Z) :=
  match p with
  | [] => None
  | x :: p' =>
      if x =? 0 then None
      else if x =? NL then Some ([], p')
      else match cut_line p' with Some (line, rest) => Some (x :: line, rest) | None => None end
  end.

(** The inner loop over the complete lines in [buf]: what it writes, and the
    characters from [p] on that remain.  Each line has at least its newline. *)
Fixpoint grep_lines (fuel : nat) (pattern p : list Z) : list Z * list Z :=
  match fuel with
  | O => ([], p)
  | S fuel' =>
      match cut_line p with
      | None => ([], p)
      | Some (line, rest) =>
          let (out, p') := grep_lines fuel' pattern rest in
          ((if match_ pattern line then line ++ [NL] else []) ++ out, p')
      end
  end.

(** [grep(pattern, fd)]: the bytes written.  [file] is what is left of the
    file, [buf] the first [m] characters of the buffer; [count file n] is the
    value of [read(fd, _, n)], which delivers that many bytes.  Every round but
    the last consumes a byte. *)
Fixpoint grep (fuel : nat) (count : list Z -> Z -> Z) (pattern buf file : list Z) : option (list Z) :=
  let n := count file (BUFSIZE - Z.of_nat (length buf) - 1) in
  if n <=? 0 then Some [] else
  match fuel with
  | O => None
  | S fuel' =>
      let buf := buf ++ take (Z.to_nat n) file in
      let (out, rest) := grep_lines (length buf) pattern buf in
      match grep fuel' count pattern rest (drop (Z.to_nat n) file) with
      | Some out' => Some (out ++ out')
      | None => None
      end
  end.

(** What grep is meant to write: the lines that match, in order. *)
Fixpoint matching_lines (pattern line text : list Z) : list Z :=
  match text with
  | [] => []
  | x :: text' =>
      if x =? NL then (if match_ pattern line then line ++ [NL] else []) ++ matching_lines pattern [] text'
      else matching_lines pattern (line ++ [x]) text'
  end.
(** No line has more than 1022 characters besides its newline; [n] characters
    of the first one are gone. *)
Fixpoint short_lines (n : Z) (text : list Z) : Prop :=
  match text with
  | [] => n < BUFSIZE
  | x :: text' => if x =? NL then n < BUFSIZE - 1 /\ short_lines 0 text' else short_lines (n + 1) text'
  end.

Definition no_nul (l : list Z) : Prop := Forall (fun x => x <> 0) l.
Definition no_nl (l : list Z) : Prop := Forall (fun x => x <> NL) l.

Lemma cut_line_spec p : no_nul p ->
  match cut_line p with
  | Some (line, rest) => p = line ++ NL :: rest /\ no_nl line
  | None => no_nl p
  end.
Proof.
  induction 1 as [|x p Hx Hp IH]; [by constructor|]. cbn [cut_line]. rewrite (proj2 (Z.eqb_neq x 0) Hx).
  destruct (x =? NL) eqn:E; [apply Z.eqb_eq in E as ->; split; [done|constructor]|]. apply Z.eqb_neq in E.
  destruct (cut_line p) as [[line rest]|]; [destruct IH as [-> IH]; split; [done|]|]; by constructor.
Qed.

Lemma matching_lines_app pattern line l text : no_nl l -> matching_lines pattern line (l ++ text) = matching_lines pattern (line ++ l) text.
Proof.
  intros Hl. revert line. induction Hl as [|x l Hx Hl IH]; intros line; [by rewrite app_nil_r|]. cbn [matching_lines app].
  rewrite (proj2 (Z.eqb_neq x NL) Hx), IH. by rewrite <- app_assoc.
Qed.

Lemma short_lines_app n l text : no_nl l -> short_lines n (l ++ text) <-> short_lines (n + Z.of_nat (length l)) text.
Proof.
  intros Hl. revert n. induction Hl as [|x l Hx Hl IH]; intros n; [by rewrite Z.add_0_r|]. cbn [short_lines app length].
  rewrite (proj2 (Z.eqb_neq x NL) Hx), IH. by replace (n + 1 + Z.of_nat (length l)) with (n + Z.of_nat (S (length l))) by lia.
Qed.

Lemma nonul_text_app l k : no_nul (l ++ k) <-> no_nul l /\ no_nul k.
Proof. apply Forall_app. Qed.

Lemma grep_lines_spec pattern more : forall fuel p, (length p <= fuel)%nat -> no_nul p -> short_lines 0 (p ++ more) ->
  let (out, rest) := grep_lines fuel pattern p in
  matching_lines pattern [] (p ++ more) = out ++ matching_lines pattern [] (rest ++ more) /\ no_nl rest /\ no_nul rest /\ short_lines 0 (rest ++ more).
Proof.
  induction fuel as [|fuel IH]; intros p Hf Hn Hs; cbn [grep_lines].
  { destruct p; [|cbn in Hf; lia]. split; [done|]. split; [constructor|]. done. }
  pose proof (cut_line_spec p Hn) as Hc. destruct (cut_line p) as [[line rest]|]; [|done]. destruct Hc as [-> Hl].
  apply nonul_text_app in Hn as [_ Hn]. apply Forall_cons in Hn as [_ Hn]. rewrite <- app_assoc in Hs. apply short_lines_app in Hs; [|done]. destruct Hs as [_ Hs].
  specialize (IH rest). destruct (grep_lines fuel pattern rest) as [out p']. destruct IH as (IH1 & IH2 & IH3 & IH4); [rewrite length_app in Hf; cbn in Hf; lia|done|done|].
  split; [|done]. rewrite <- app_assoc, matching_lines_app by done. cbn [matching_lines app]. rewrite Z.eqb_refl, IH1. by rewrite app_assoc.
Qed.

(** A line that is not complete leaves room in the buffer. *)
Lemma short_lines_room buf file : no_nl buf -> short_lines 0 (buf ++ file) -> file <> [] -> 0 < BUFSIZE - Z.of_nat (length buf) - 1.
Proof.
  intros Hb Hs Hne. apply short_lines_app in Hs; [|done]. assert (forall n t, short_lines n t -> t <> [] -> n < BUFSIZE - 1) as H; [|specialize (H _ _ Hs Hne); lia].
  clear. intros n t. revert n. induction t as [|x t IH]; intros n H; [done|]. intros _. cbn in H. destruct (x =? NL); [apply H|].
  destruct t as [|y t]; [cbn in H; lia|]. specialize (IH (n + 1) H ltac:(done)). lia.
Qed.

Section grep.
(** [read] delivers at least one byte unless none is asked for or left, and
    never more than asked for or left. *)
Context (count : list Z -> Z -> Z).
Context (Hpos : forall f n, 0 < n -> f <> [] -> 0 < count f n <= n /\ count f n <= Z.of_nat (length f)).
Context (Hend : forall f n, n <= 0 \/ f = [] -> count f n = 0).

Lemma grep_from pattern : forall fuel buf file, (length file <= fuel)%nat -> no_nul file -> no_nl buf -> no_nul buf -> short_lines 0 (buf ++ file) ->
  grep fuel count pattern buf file = Some (matching_lines pattern [] (buf ++ file)).
Proof using Hpos Hend.
  induction fuel as [|fuel IH]; intros buf file Hf Hn Hb1 Hb2 Hs; cbn [grep].
  { destruct file; [|cbn in Hf; lia]. rewrite Hend by (by right). cbn. rewrite matching_lines_app by done. done. }
  destruct (decide (file = [])) as [->|Hne].
  { rewrite Hend by (by right). cbn. by rewrite matching_lines_app. }
  destruct (Hpos file _ (short_lines_room buf file Hb1 Hs Hne) Hne) as [[H1 H2] H3]. set (n := count file _) in *. rewrite (proj2 (Z.leb_gt n 0)) by lia.
  rewrite <- (take_drop (Z.to_nat n) file) in Hs, Hn. apply nonul_text_app in Hn as [Hn1 Hn2]. rewrite app_assoc in Hs.
  pose proof (grep_lines_spec pattern (drop (Z.to_nat n) file) (length (buf ++ take (Z.to_nat n) file)) (buf ++ take (Z.to_nat n) file) ltac:(lia)
    ltac:(apply nonul_text_app; done) Hs) as Hg.
  destruct (grep_lines _ _ _) as [out rest]. destruct Hg as (G1 & G2 & G3 & G4). rewrite IH; [|rewrite length_drop; lia|done|done|done|done].
  f_equal. rewrite <- G1, <- app_assoc. by rewrite take_drop.
Qed.

(** [grep] writes exactly the lines of the file that match, in order and
    with their newlines, however [read] cuts the file into pieces, and it
    terminates, for a text file whose lines, with their newlines, fit in the
    buffer. *)
Theorem grep_correct pattern file : no_nul file -> short_lines 0 file ->
  grep (length file) count pattern [] file = Some (matching_lines pattern [] file).
Proof using Hpos Hend. intros Hn Hs. apply (grep_from pattern (length file) []); [done|done|constructor|constructor|done]. Qed.
End grep.

(** A [read] that delivers at most three bytes. *)
Definition three (f : list Z) (n : Z) : Z := Z.max 0 (Z.min 3 (Z.min n (Z.of_nat (length f)))).

Lemma grep_correct_witness :
  grep 10 three [98; 42; 99] [] [97; 98; 98; 99; 10; 100; 100; 10; 99; 10] =
  Some (matching_lines [98; 42; 99] [] [97; 98; 98; 99; 10; 100; 100; 10; 99; 10]).
Proof.
  refine (grep_correct three _ _ [98; 42; 99] [97; 98; 98; 99; 10; 100; 100; 10; 99; 10] _ _).
  - intros f n Hn Hf. unfold three. destruct f; [done|]. cbn [length]. lia.
  - intros f n [Hn| ->]; unfold three; [|cbn [length]]; lia.
  - repeat constructor; discriminate.
  - repeat split; reflexivity.
Defined.

(** A line that does not fit in the buffer ends the search. *)
Definition long_line_file : list Z := replicate 1100 120 ++ [10; 97; 10].

(** After a line that fills the buffer [grep] stops, although the file goes
    on: [read] is called with room for no more bytes and returns 0.  The
    pattern [a] is not found in a file whose second line is [a], even when
    every [read] delivers all that it is asked for. *)
Theorem grep_stops_at_long_line :
  let whole f n := Z.max 0 (Z.min n (Z.of_nat (length f))) in
  grep (length long_line_file) whole [97] [] long_line_file = Some [] /\
  matching_lines [97] [] long_line_file = [97; 10].
Proof. split; by vm_compute. Qed.
