(* ===== verification/Uprogs.v ===== *)
(** * The small user programs (src/user)

    [main] of each program, from its arguments ([argv] with the name of the
    program first), as a tree of system calls. *)

From ITree Require Import ITree ITreeFacts Events.State Events.StateFacts.
From S2P Require Import Prelude Fcntl Memory Console Ulib Usys Uprintf Grep.
Local Open Scope uprog_scope.

(** [for(i = 1; i < argc; i++)]. *)
Fixpoint each (l : list (list Z)) (body : list Z -> uprog unit) : uprog unit :=
  match l with
  | [] => Ret tt
  | a :: l' => body a ,, each l' body
  end.

(** [atoi] of a string. *)
Fixpoint atoi_list (n : Z) (s : list Z) : Z :=
  match s with
  | c :: s' => if (48 <=? c) && (c <=? 57) then atoi_list (s32 (n * 10 + c - 48)) s' else n
  | [] => n
  end.

(** ** cat.c *)

Definition cat_body (fd : Z) (_ : unit) : uprog (unit + Z) :=
  do (n, buf) := read_ fd 512 in
  if 0 <? n then
    do w := write_ 1 (take (Z.to_nat n) buf) in
    if negb (w =? n) then fprintf 2 "cat: write error
" [] ,, exit_ 1
    else Ret (inl tt)
  else Ret (inr n).
Definition cat (fd : Z) : uprog unit :=
  do n := ITree.iter (cat_body fd) tt in
  if n <? 0 then fprintf 2 "cat: read error
" [] ,, exit_ 1
  else Ret tt.

Definition cat_main (argv : list (list Z)) : uprog unit :=
  if Z.of_nat (length argv) <=? 1 then cat 0 ,, exit_ 0 else
  each (tail argv) (fun a =>
    do fd := open_ a 0 in
    if fd <? 0 then fprintf 2 "cat: cannot open %s
" [UStr (Some a)] ,, exit_ 1
    else cat fd ,, close_ fd ,, Ret tt) ,,
  exit_ 0.

(** ** wc.c *)

(** [strchr(" \r\t\n\v", c)]. *)
Definition wc_space (c : Z) : bool := bool_decide (c ∈ [32; 13; 9; 10; 11]).

(** The variables [l], [w], [c] and [inword]. *)
Record counts := Counts { wl : Z; ww : Z; wch : Z; inword : bool }.
Definition wc_step (k : counts) (b : Z) : counts :=
  let c := s32 (wch k + 1) in
  let l := if b =? 10 then s32 (wl k + 1) else wl k in
  if wc_space b then Counts l (ww k) c false
  else if negb (inword k) then Counts l (s32 (ww k + 1)) c true
  else Counts l (ww k) c (inword k).

Definition wc_body (fd : Z) (k : counts) : uprog (counts + Z * counts) :=
  do (n, buf) := read_ fd 512 in
  if 0 <? n then Ret (inl (foldl wc_step k (take (Z.to_nat n) buf))) else Ret (inr (n, k)).
Definition wc (fd : Z) (name : list Z) : uprog unit :=
  do (n, k) := ITree.iter (wc_body fd) (Counts 0 0 0 false) in
  if n <? 0 then uprintf "wc: read error
" [] ,, exit_ 1
  else uprintf "%d %d %d %s
" [UInt (wl k); UInt (ww k); UInt (wch k); UStr (Some name)].

Definition wc_main (argv : list (list Z)) : uprog unit :=
  if Z.of_nat (length argv) <=? 1 then wc 0 [] ,, exit_ 0 else
  each (tail argv) (fun a =>
    do fd := open_ a 0 in
    if fd <? 0 then uprintf "wc: cannot open %s
" [UStr (Some a)] ,, exit_ 1
    else wc fd a ,, close_ fd ,, Ret tt) ,,
  exit_ 0.

(** ** echo.c *)

Fixpoint echo_args (l : list (list Z)) : uprog unit :=
  match l with
  | [] => Ret tt
  | a :: l' => write_ 1 a ,, write_ 1 (match l' with [] => [10] | _ => [32] end) ,, echo_args l'
  end.
Definition echo_main (argv : list (list Z)) : uprog unit := echo_args (tail argv) ,, exit_ 0.

(** ** ls.c *)

Definition DIRSIZ_ : nat := 14.
(** [for(p = path + strlen(path); p >= path && *p != '/'; p--)], then [p++]. *)
Fixpoint after_slash (path : list Z) : list Z :=
  match path with
  | [] => []
  | c :: path' => if bool_decide (47 ∈ path') then after_slash path' else if c =? 47 then path' else path
  end.
Definition fmtname (path : list Z) : list Z :=
  let p := after_slash path in
  if (DIRSIZ_ <=? length p)%nat then p else p ++ replicate (DIRSIZ_ - length p) 32.

(** [de.inum] and [de.name] of the sixteen bytes of a [struct dirent]. *)
Definition ls_inum (de : list Z) : Z := nth 0 de 0 + 256 * nth 1 de 0.
Definition ls_name (de : list Z) : list Z := upto_nul (take DIRSIZ_ (drop 2 de)).

(** The loop over the directory. *)
Definition ls_body (fd : Z) (path : list Z) (_ : unit) : uprog (unit + unit) :=
  do (n, de) := read_ fd 16 in
  if negb (n =? 16) then Ret (inr tt) else
  if ls_inum de =? 0 then Ret (inl tt) else
  let buf := path ++ [47] ++ ls_name de in
  do (r, st) := ustat_call buf in
  if r <? 0 then uprintf "ls: cannot stat %s
" [UStr (Some buf)] ,, Ret (inl tt)
  else uprintf "%s %d %d %d
" [UStr (Some (fmtname buf)); UInt (ust_type st); UInt (ust_ino st); UInt (ust_size st)] ,, Ret (inl tt).

Definition ls (path : list Z) : uprog unit :=
  do fd := open_ path 0 in
  if fd <? 0 then fprintf 2 "ls: cannot open %s
" [UStr (Some path)] else
  do (r, st) := ITree.trigger (Sfstat fd) in
  if r <? 0 then
    fprintf 2 "ls: cannot stat %s
" [UStr (Some path)] ,, close_ fd ,, Ret tt
  else
    (if ust_type st =? 2 then
       uprintf "%s %d %d %l
" [UStr (Some (fmtname path)); UInt (ust_type st); UInt (ust_ino st); UInt (ust_size st)]
     else if ust_type st =? 1 then
       if 512 <? Z.of_nat (length path) + 1 + Z.of_nat DIRSIZ_ + 1 then uprintf "ls: path too long
" []
       else ITree.iter (ls_body fd path) tt
     else Ret tt) ,,
    close_ fd ,, Ret tt.
Definition ls_main (argv : list (list Z)) : uprog unit :=
  (if Z.of_nat (length argv) <? 2 then ls [46] else each (tail argv) ls) ,, exit_ 0.

(** ** grep.c *)

(** The inner loop of [grep]; the value is what is left of [buf] from [p] on. *)
Fixpoint grep_scan (fuel : nat) (pattern p : list Z) : uprog (list Z) :=
  match fuel with
  | O => Ret p
  | S fuel' =>
      match cut_line p with
      | None => Ret p
      | Some (line, rest) =>
          (if match_ pattern line then write_ 1 (line ++ [NL]) ,, Ret tt else Ret tt) ,,
          grep_scan fuel' pattern rest
      end
  end.
Definition grep_body (pattern : list Z) (fd : Z) (buf : list Z) : uprog (list Z + unit) :=
  do (n, b) := read_ fd (BUFSIZE - Z.of_nat (length buf) - 1) in
  if 0 <? n then
    let buf := buf ++ take (Z.to_nat n) b in
    do rest := grep_scan (length buf) pattern buf in Ret (inl rest)
  else Ret (inr tt).
Definition grep_fd (pattern : list Z) (fd : Z) : uprog unit := ITree.iter (grep_body pattern fd) [].

Definition grep_main (argv : list (list Z)) : uprog unit :=
  match argv with
  | _ :: pattern :: args =>
      match args with
      | [] => grep_fd pattern 0 ,, exit_ 0
      | _ =>
          each args (fun a =>
            do fd := open_ a 0 in
            if fd <? 0 then uprintf "grep: cannot open %s
" [UStr (Some a)] ,, exit_ 1
            else grep_fd pattern fd ,, close_ fd ,, Ret tt) ,,
          exit_ 0
      end
  | _ => fprintf 2 "usage: grep pattern [file ...]
" [] ,, exit_ 1
  end.

(** ** kill.c, ln.c, mkdir.c, rm.c, sleep.c *)

Definition kill_main (argv : list (list Z)) : uprog unit :=
  if Z.of_nat (length argv) <? 2 then fprintf 2 "usage: kill pid...
" [] ,, exit_ 1 else
  each (tail argv) (fun a => ITree.trigger (Skill (atoi_list 0 a)) ,, Ret tt) ,, exit_ 0.

Definition ln_main (argv : list (list Z)) : uprog unit :=
  match argv with
  | [_; old; new] =>
      do r := ITree.trigger (Slink old new) in
      (if r <? 0 then fprintf 2 "link %s %s: failed
" [UStr (Some old); UStr (Some new)] else Ret tt) ,, exit_ 0
  | _ => fprintf 2 "Usage: ln old new
" [] ,, exit_ 1
  end.

(** The loop of [mkdir] and of [rm] stops at the first failure. *)
Fixpoint until_fail (call : list Z -> sysE Z) (msg : string) (l : list (list Z)) : uprog unit :=
  match l with
  | [] => Ret tt
  | a :: l' =>
      do r := ITree.trigger (call a) in
      if r <? 0 then fprintf 2 msg [UStr (Some a)] else until_fail call msg l'
  end.
Definition mkdir_main (argv : list (list Z)) : uprog unit :=
  if Z.of_nat (length argv) <? 2 then fprintf 2 "Usage: mkdir files...
" [] ,, exit_ 1 else
  until_fail Smkdir "mkdir: %s failed to create
" (tail argv) ,, exit_ 0.
Definition rm_main (argv : list (list Z)) : uprog unit :=
  if Z.of_nat (length argv) <? 2 then fprintf 2 "Usage: rm files...
" [] ,, exit_ 1 else
  until_fail Sunlink "rm: %s failed to delete
" (tail argv) ,, exit_ 0.

Definition sleep_main (argv : list (list Z)) : uprog unit :=
  match argv with
  | [_; a] => do r := ITree.trigger (Ssleep (atoi_list 0 a)) in exit_ r
  | _ => fprintf 2 "usage: sleep [ticks num]
" [] ,, exit_ 1
  end.

(** ** zombie.c *)

Definition zombie_main : uprog unit :=
  do pid := ITree.trigger Sfork in
  (if 0 <? pid then ITree.trigger (Ssleep 5) ,, Ret tt else Ret tt) ,, exit_ 0.

(** ** init.c *)

(** The inner loop: wait until the shell is the process that exited. *)
Definition init_wait (pid : Z) (_ : unit) : uprog (unit + unit) :=
  do wpid := ITree.trigger Swait in
  if wpid =? pid then Ret (inr tt)
  else if wpid <? 0 then uprintf "init: wait returned an error
" [] ,, exit_ 1
  else Ret (inl tt).
Definition init_body (_ : unit) : uprog (unit + unit) :=
  uprintf "init: starting sh
" [] ,,
  do pid := ITree.trigger Sfork in
  if pid <? 0 then uprintf "init: fork failed
" [] ,, exit_ 1 else
  if pid =? 0 then
    ITree.trigger (Sexec (chars "sh") [chars "sh"]) ,,
    uprintf "init: exec sh failed
" [] ,, exit_ 1
  else ITree.iter (init_wait pid) tt ,, Ret (inl tt).
Definition init_main : uprog unit :=
  do fd := open_ (chars "console") O_RDWR in
  (if fd <? 0 then
     ITree.trigger (Smknod (chars "console") 1 0) ,, open_ (chars "console") O_RDWR ,, Ret tt
   else Ret tt) ,,
  ITree.trigger (Sdup 0) ,,
  ITree.trigger (Sdup 0) ,,
  ITree.iter init_body tt.

(** ** forktest.c *)

Definition FORK_N : Z := 1000.
Definition print (s : string) : uprog unit := write_ 1 (chars s) ,, Ret tt.

(** The loop that forks: how many times it did; the child exits. *)
Definition fork_body (n : Z) : uprog (Z + Z) :=
  if n <? FORK_N then
    do pid := ITree.trigger Sfork in
    if pid <? 0 then Ret (inr n) else
    if pid =? 0 then exit_ 0 else Ret (inl (n + 1))
  else Ret (inr n).
Definition wait_body (n : Z) : uprog (Z + unit) :=
  if 0 <? n then
    do pid := ITree.trigger Swait in
    if pid <? 0 then print "wait stopped early
" ,, exit_ 1 else Ret (inl (n - 1))
  else Ret (inr tt).
Definition forktest : uprog unit :=
  print "fork test
" ,,
  do n := ITree.iter fork_body 0 in
  (if n =? FORK_N then print "fork claimed to work N times!
" ,, exit_ 1 else Ret tt) ,,
  ITree.iter wait_body n ,,
  do r := ITree.trigger Swait in
  (if negb (r =? -1) then print "wait got too many
" ,, exit_ 1 else Ret tt) ,,
  print "fork test OK
".
Definition forktest_main : uprog unit := forktest ,, exit_ 0.

(** ** stressfs.c *)

(** [for(i = 0; i < 4; i++) if(fork() > 0) break]. *)
Definition stress_fork (i : Z) : uprog (Z + Z) :=
  if i <? 4 then
    do pid := ITree.trigger Sfork in
    if 0 <? pid then Ret (inr i) else Ret (inl (i + 1))
  else Ret (inr i).
Fixpoint repeat_ (n : nat) (p : uprog unit) : uprog unit :=
  match n with O => Ret tt | S n' => p ,, repeat_ n' p end.
Definition stressfs_main : uprog unit :=
  uprintf "stressfs starting
" [] ,,
  do i := ITree.iter stress_fork 0 in
  uprintf "write %d
" [UInt i] ,,
  let path := chars "stressfs" ++ [wrap8 (48 + i)] in
  do fd := open_ path (Z.lor O_CREATE O_RDWR) in
  repeat_ 20 (write_ fd (replicate 512 97) ,, Ret tt) ,,
  close_ fd ,,
  uprintf "read
" [] ,,
  do fd := open_ path O_RDONLY in
  repeat_ 20 (read_ fd 512 ,, Ret tt) ,,
  close_ fd ,,
  ITree.trigger Swait ,,
  exit_ 0.
