(* ===== verification/UprogsProof.v ===== *)
(** * Theorems about the small user programs

    [cat], [wc] and [echo] in an environment of files, however little a call of
    [read] delivers; [init] starts the shell again and again. *)

From ITree Require Import ITree ITreeFacts Events.State Events.StateFacts.
From S2P Require Import Prelude Fcntl Memory Console Ulib Usys Uprintf Grep Uprogs.

(** ** Output *)

Lemma written_outs fd o s : written fd (set_outs (outs s ++ o) s) = written fd s ++ (filter (fun w => w.1 = fd) o ≫= snd).
Proof. unfold written. cbn. by rewrite filter_app, bind_app. Qed.

Lemma written_write fd fd' bs s : written fd (set_outs (outs s ++ [(fd', bs)]) s) = written fd s ++ (if decide (fd' = fd) then bs else []).
Proof.
  rewrite written_outs. f_equal. rewrite filter_cons, filter_nil. cbn. case_decide; cbn; [by rewrite app_nil_r|done].
Qed.

Lemma written_emit fd fd' l s : Forall (fun c => 0 <= c < 2^8) l -> written fd (emit fd' l s) = written fd s ++ (if decide (fd' = fd) then l else []).
Proof.
  intros Hl. unfold emit. rewrite written_outs. f_equal. induction Hl as [|c l Hc Hl IH]; [by case_decide|].
  rewrite fmap_cons, filter_cons. cbn. rewrite wrap8_small by done. case_decide; [|done]. cbn. by rewrite IH.
Qed.

(** From [s] to [s'] the descriptors become [f], and [o1] and [o2] are written
    to the descriptors 1 and 2. *)
Record did (s : env) (f : gmap Z (list Z)) (o1 o2 : list Z) (s' : env) : Prop := Did {
  d_files : files s' = files s;
  d_fds : fds s' = f;
  d_out : written 1 s' = written 1 s ++ o1;
  d_err : written 2 s' = written 2 s ++ o2 }.

Lemma did_trans s f o1 o2 s1 f' p1 p2 s2 : did s f o1 o2 s1 -> did s1 f' p1 p2 s2 -> did s f' (o1 ++ p1) (o2 ++ p2) s2.
Proof. intros [A1 A2 A3 A4] [B1 B2 B3 B4]. split; [congruence|done|by rewrite B3, A3, app_assoc|by rewrite B4, A4, app_assoc]. Qed.

Lemma did_refl s : did s (fds s) [] [] s.
Proof. split; by rewrite ?app_nil_r. Qed.

Lemma did_err s l : Forall (fun c => 0 <= c < 2^8) l -> did s (fds s) [] l (emit 2 l s).
Proof. intros Hl. split; [done|done|rewrite written_emit by done; by case_decide..]. Qed.
Lemma did_out s l : Forall (fun c => 0 <= c < 2^8) l -> did s (fds s) l [] (emit 1 l s).
Proof. intros Hl. split; [done|done|rewrite written_emit by done; by case_decide..]. Qed.

Lemma read_size_range s n l : 0 < n -> (read_size s n l <= length l)%nat /\ Z.of_nat (read_size s n l) <= n /\ (l <> [] -> (0 < read_size s n l)%nat).
Proof.
  intros Hn. unfold read_size. splits; [lia|lia|]. intros Hl. destruct l; [done|]. cbn [length]. destruct (sizes s); lia.
Qed.

(** ** What wc counts *)

(** The words of a text: separated by spaces, each with no space in it. *)
Inductive words_of : list Z -> list (list Z) -> Prop :=
| words_nil sp : Forall (fun c => wc_space c = true) sp -> words_of sp []
| words_cons sp w rest ws : Forall (fun c => wc_space c = true) sp -> w <> [] -> Forall (fun c => wc_space c = false) w ->
    (forall c, head rest = Some c -> wc_space c = true) -> words_of rest ws -> words_of (sp ++ w ++ rest) (w :: ws).

Definition newlines (l : list Z) : Z := Z.of_nat (length (filter (fun c => c = 10) l)).

Lemma wc_chars l : forall k, 0 <= wch k -> wch k + Z.of_nat (length l) < 2^31 -> wch (foldl wc_step k l) = wch k + Z.of_nat (length l).
Proof.
  induction l as [|b l IH]; intros k H0 H; cbn [foldl length] in *; [lia|].
  assert (wch (wc_step k b) = wch k + 1) as E.
  { unfold wc_step. repeat case_match; cbn [wch]; rewrite s32_small; lia. }
  rewrite IH; rewrite E; lia.
Qed.
Lemma wc_lines l : forall k, 0 <= wl k -> wl k + Z.of_nat (length l) < 2^31 -> wl (foldl wc_step k l) = wl k + newlines l.
Proof.
  unfold newlines. induction l as [|b l IH]; intros k H0 H; cbn [foldl length] in *; [cbn; lia|].
  assert (wl (wc_step k b) = wl k + (if b =? 10 then 1 else 0)) as E.
  { unfold wc_step. repeat case_match; cbn [wl]; rewrite ?s32_small; lia. }
  rewrite IH; rewrite E; [|destruct (b =? 10); lia..]. rewrite filter_cons.
  destruct (b =? 10) eqn:Hb; b2p; case_decide; try done; cbn [length]; lia.
Qed.

Lemma wc_over_spaces sp k : Forall (fun c => wc_space c = true) sp -> ww (foldl wc_step k sp) = ww k /\ (sp <> [] -> inword (foldl wc_step k sp) = false).
Proof.
  intros H. revert k. induction H as [|c sp Hc Hsp IH]; intros k; cbn [foldl]; [done|]. unfold wc_step at 2 4. rewrite Hc.
  destruct (IH (Counts (if c =? 10 then s32 (wl k + 1) else wl k) (ww k) (s32 (wch k + 1)) false)) as [IH1 IH2]. split; [exact IH1|].
  intros _. destruct sp; [done|]. by apply IH2.
Qed.
Lemma wc_in_word w k : Forall (fun c => wc_space c = false) w -> inword k = true -> ww (foldl wc_step k w) = ww k /\ inword (foldl wc_step k w) = true.
Proof.
  intros H. revert k. induction H as [|c w Hc Hw IH]; intros k Hk; cbn [foldl]; [done|]. unfold wc_step at 2 4. rewrite Hc, Hk. cbn [negb].
  exact (IH (Counts _ (ww k) _ true) eq_refl).
Qed.
Lemma wc_words l ws : words_of l ws -> forall k, 0 <= ww k -> ww k + Z.of_nat (length l) < 2^31 ->
  (inword k = true -> forall c, head l = Some c -> wc_space c = true) -> ww (foldl wc_step k l) = ww k + Z.of_nat (length ws).
Proof.
  induction 1 as [sp Hsp|sp w rest ws Hsp Hne Hw Hrest Hws IH]; intros k H0 H Hk.
  - rewrite (proj1 (wc_over_spaces sp k Hsp)). cbn. lia.
  - rewrite !foldl_app. destruct (wc_over_spaces sp k Hsp) as [E1 E2]. set (k1 := foldl wc_step k sp) in *.
    assert (inword k1 = false) as Hk1.
    { destruct sp as [|c sp]; [|by apply E2]. destruct w as [|c w]; [done|]. apply Forall_cons in Hw as [Hc _]. subst k1. cbn.
      destruct (inword k); [|done]. specialize (Hk eq_refl c eq_refl). congruence. }
    rewrite !length_app in H. destruct w as [|c w]; [done|]. apply Forall_cons in Hw as [Hc Hw]. cbn [foldl length] in *.
    destruct (wc_in_word w (wc_step k1 c) Hw) as [E3 E4]; [unfold wc_step; by rewrite Hc, Hk1|].
    assert (ww (wc_step k1 c) = ww k + 1) as E5 by (unfold wc_step; rewrite Hc, Hk1; cbn; rewrite E1, s32_small; lia).
    rewrite IH; rewrite ?E3, ?E5; [lia|lia|lia|]. intros _. exact Hrest.
Qed.

Section run.
Context (other : sysE ~> Monads.stateT env (itree stopE)).
#[local] Abbreviation run := (run other).

(** A call of [read] on a descriptor that has something to deliver. *)
Lemma run_read_some fd n l s : fds s !! fd = Some l -> 0 < n -> l <> [] -> exists c l' s', l = c ++ l' /\ c <> [] /\
  did s (<[fd := l']> (fds s)) [] [] s' /\ eutt eq (run (read_ fd n) s) (Ret (s', (Z.of_nat (length c), c))).
Proof.
  intros Hfd Hn Hl. destruct (read_size_range s n l Hn) as (H1 & H2 & H3). specialize (H3 Hl). set (k := read_size s n l) in *.
  exists (take k l), (drop k l), (Env (files s) (<[fd := drop k l]> (fds s)) (outs s) (tail (sizes s))). splits.
  - by rewrite take_drop.
  - intros E. apply (f_equal length) in E. rewrite length_take in E. cbn in E. lia.
  - split; [done|done|by rewrite app_nil_r..].
  - rewrite (run_read _ _ _ _ _ Hfd). fold k. rewrite length_take, Nat.min_l by lia. reflexivity.
Qed.
Lemma run_read_end fd n s : fds s !! fd = Some [] -> exists s',
  did s (fds s) [] [] s' /\ eutt eq (run (read_ fd n) s) (Ret (s', (0, []))).
Proof.
  intros Hfd. eexists. split; [|rewrite (run_read _ _ _ _ _ Hfd);
    replace (read_size s n []) with 0%nat by (unfold read_size; cbn [length]; lia); reflexivity].
  split; [done|cbn; by rewrite insert_id|by rewrite app_nil_r..].
Qed.

(** ** cat *)

Lemma run_cat_loop fd n : forall l s, (length l <= n)%nat -> fds s !! fd = Some l -> exists s',
  did s (<[fd := []]> (fds s)) l [] s' /\ eutt eq (run (ITree.iter (cat_body fd) tt) s) (Ret (s', 0)).
Proof.
  induction n as [|n IH]; intros l s Hlen Hfd.
  all: destruct l as [|b l]; cbn [length] in Hlen; try lia.
  1, 2: destruct (run_read_end fd 512 s Hfd) as (s' & Hd & Hr); exists s'; (split; [by rewrite insert_id|]);
    apply run_iter; unfold cat_body; rewrite bind_bind; (eapply run_seq; [exact Hr|]); (eapply run_seq; [apply run_ret|]); apply run_ret.
  destruct (run_read_some fd 512 (b :: l) s Hfd) as (c & l' & s1 & E & Hc & Hd1 & Hr); [lia|done|].
  set (s2 := set_outs (outs s1 ++ [(1, c)]) s1). assert (fds s2 = <[fd := l']> (fds s)) as Hf2 by (cbn; apply Hd1).
  destruct (IH l' s2) as (s' & Hd & Hloop).
  { apply (f_equal length) in E. rewrite length_app in E. cbn in E. destruct c; [done|]. cbn in E. lia. }
  { rewrite Hf2. apply lookup_insert_eq. }
  exists s'. split.
  - rewrite E. replace ([] : list Z) with ([] ++ [] : list Z) at 2 by done. change (c ++ l') with ([] ++ c ++ l').
    eapply did_trans; [exact Hd1|]. replace ([] : list Z) with ([] ++ [] : list Z) at 2 by done. eapply did_trans.
    2:{ rewrite Hf2, insert_insert_eq in Hd. exact Hd. }
    split; [done|exact Hf2|unfold s2; rewrite written_write; by case_decide..].
  - apply run_iter. unfold cat_body at 1. rewrite bind_bind. eapply run_seq; [exact Hr|]. cbn beta iota.
    rewrite (proj2 (Z.ltb_lt _ _)) by (destruct c; [done|cbn [length]; lia]). rewrite Nat2Z.id, firstn_all, bind_bind.
    eapply run_seq; [apply run_write|]. cbn beta. rewrite Z.eqb_refl. cbn [negb]. eapply run_seq; [apply run_ret|]. exact Hloop.
Qed.

Lemma run_cat fd l s : fds s !! fd = Some l -> exists s',
  did s (<[fd := []]> (fds s)) l [] s' /\ eutt eq (run (cat fd) s) (Ret (s', tt)).
Proof.
  intros Hfd. destruct (run_cat_loop fd (length l) l s) as (s' & Hd & Hr); [lia|done|]. exists s'. split; [done|].
  unfold cat. eapply run_seq; [exact Hr|]. apply run_ret.
Qed.

(** Opening, processing and closing a file. *)
Lemma lowest_free s : (exists i, 0 <= i < 16 /\ fds s !! i = None) -> 0 <= lowest s < 16 /\ fds s !! lowest s = None.
Proof.
  intros (i & Hi & Hfree). unfold lowest.
  assert (i ∈ filter (fun fd => bool_decide (fds s !! fd = None)) (seqZ 0 16)) as Hin.
  { apply list_elem_of_filter. split; [by apply bool_decide_pack|]. apply elem_of_seqZ. lia. }
  destruct (filter _ _) as [|j r] eqn:E; [by apply elem_of_nil in Hin|]. cbn.
  assert (j ∈ filter (fun fd => bool_decide (fds s !! fd = None)) (seqZ 0 16)) as Hj by (rewrite E; apply list_elem_of_here).
  apply list_elem_of_filter in Hj as [Hj1 Hj2%elem_of_seqZ]. apply bool_decide_unpack in Hj1. split; [lia|done].
Qed.

Lemma run_on_file path c s (p : Z -> uprog unit) (o : list Z) : files s !! path = Some c -> (exists i, 0 <= i < 16 /\ fds s !! i = None) ->
  (forall fd s1, fds s1 !! fd = Some c -> exists s2, did s1 (<[fd := []]> (fds s1)) o [] s2 /\ eutt eq (run (p fd) s1) (Ret (s2, tt))) ->
  exists s', did s (fds s) o [] s' /\ forall (e : uprog unit),
    eutt eq (run (ITree.bind (open_ path 0) (fun fd => if fd <? 0 then e else
      ITree.bind (p fd) (fun _ => ITree.bind (close_ fd) (fun _ => Ret tt)))) s) (Ret (s', tt)).
Proof.
  intros Hc Hfree Hp. destruct (lowest_free s Hfree) as [Hl1 Hl2]. set (fd := lowest s) in *.
  destruct (Hp fd (set_fds (<[fd := c]> (fds s)) s)) as (s2 & Hd & Hr); [apply lookup_insert_eq|].
  exists (set_fds (delete fd (fds s2)) s2). split.
  - destruct Hd as [D1 D2 D3 D4]. split; [done| |done..]. cbn. rewrite D2. cbn. rewrite insert_insert_eq, delete_insert_id; done.
  - intros e. eapply run_seq; [by apply run_open|]. fold fd. rewrite (proj2 (Z.ltb_ge _ _)) by lia. eapply run_seq; [exact Hr|].
    eapply run_seq; [|apply run_ret]. apply (run_close _ fd []). rewrite (d_fds _ _ _ _ _ Hd). apply lookup_insert_eq.
Qed.

(** What [cat] prints for its arguments: the files up to the first one that
    cannot be opened. *)
Fixpoint cat_spec (fs : gmap (list Z) (list Z)) (args : list (list Z)) : list Z * option (list Z) :=
  match args with
  | [] => ([], None)
  | a :: args' =>
      match fs !! a with
      | Some c => let (o, e) := cat_spec fs args' in (c ++ o, e)
      | None => ([], Some a)
      end
  end.
Definition cat_error (e : option (list Z)) : list Z :=
  match e with None => [] | Some a => chars "cat: cannot open " ++ a ++ [10] end.
Definition cat_status (e : option (list Z)) : Z := match e with None => 0 | Some _ => 1 end.

(** [cat] with arguments writes the contents of the files in order to its
    standard output and exits with status 0, however few bytes each call of
    [read] delivers; at the first file that cannot be opened it stops with
    status 1 and a message.  It leaves no descriptor open. *)
Theorem cat_correct name args s : (exists i, 0 <= i < 16 /\ fds s !! i = None) -> args <> [] ->
  Forall (Forall (fun c => 0 <= c < 2^8)) args -> exists s',
  did s (fds s) (fst (cat_spec (files s) args)) (cat_error (snd (cat_spec (files s) args))) s' /\
  eutt eq (run (cat_main (name :: args)) s) (stop (cat_status (snd (cat_spec (files s) args))) s').
Proof.
  intros Hfree Hne Hbytes. unfold cat_main. cbn [tail]. rewrite (proj2 (Z.leb_gt _ _)) by (destruct args; [done|cbn [length]; lia]). clear Hne.
  revert s Hfree. induction Hbytes as [|a args Ha Hargs IH]; intros s Hfree; cbn [each cat_spec].
  - exists s. split; [apply did_refl|]. eapply run_seq; [apply run_ret|]. apply run_exit.
  - destruct (files s !! a) as [c|] eqn:Hc.
    + destruct (run_on_file a c s cat c Hc Hfree) as (s1 & Hd1 & Hr1); [intros fd s1 H1; by apply run_cat|].
      destruct (IH s1) as (s' & Hd & Hr). { destruct Hfree as (i & Hi & Hn). exists i. by rewrite (d_fds _ _ _ _ _ Hd1). }
      rewrite (d_files _ _ _ _ _ Hd1) in Hd, Hr. destruct (cat_spec (files s) args) as [o e]. cbn [fst snd] in *. exists s'. split.
      * rewrite (d_fds _ _ _ _ _ Hd1) in Hd. exact (did_trans _ _ _ _ _ _ _ _ _ Hd1 Hd).
      * rewrite bind_bind. eapply run_seq; [apply Hr1|]. exact Hr.
    + cbn [fst snd cat_error cat_status]. set (msg := chars "cat: cannot open " ++ a ++ [10]). exists (emit 2 msg s). split.
      * apply did_err. unfold msg. apply Forall_app. split; [vm_compute; repeat constructor; done|]. apply Forall_app. split; [done|]. repeat constructor; lia.
      * rewrite bind_bind. apply run_stop. eapply run_seq; [by apply run_open_none|]. change (-1 <? 0) with true. cbn iota.
        eapply run_seq; [apply run_fprintf|]. apply run_exit.
Qed.

(** ** wc *)

Lemma run_wc_loop fd n : forall l k s, (length l <= n)%nat -> fds s !! fd = Some l -> exists s',
  did s (<[fd := []]> (fds s)) [] [] s' /\ eutt eq (run (ITree.iter (wc_body fd) k) s) (Ret (s', (0, foldl wc_step k l))).
Proof.
  induction n as [|n IH]; intros l k s Hlen Hfd.
  all: destruct l as [|b l]; cbn [length] in Hlen; try lia.
  1, 2: destruct (run_read_end fd 512 s Hfd) as (s' & Hd & Hr); exists s'; (split; [by rewrite insert_id|]);
    apply run_iter; unfold wc_body; rewrite bind_bind; (eapply run_seq; [exact Hr|]); (eapply run_seq; [apply run_ret|]); apply run_ret.
  destruct (run_read_some fd 512 (b :: l) s Hfd) as (c & l' & s1 & E & Hc & Hd1 & Hr); [lia|done|].
  destruct (IH l' (foldl wc_step k c) s1) as (s' & Hd & Hloop).
  { apply (f_equal length) in E. rewrite length_app in E. cbn in E. destruct c; [done|]. cbn in E. lia. }
  { rewrite (d_fds _ _ _ _ _ Hd1). apply lookup_insert_eq. }
  exists s'. split.
  - rewrite (d_fds _ _ _ _ _ Hd1), insert_insert_eq in Hd. exact (did_trans _ _ _ _ _ _ _ _ _ Hd1 Hd).
  - apply run_iter. unfold wc_body at 1. rewrite bind_bind. eapply run_seq; [exact Hr|]. cbn beta iota.
    rewrite (proj2 (Z.ltb_lt _ _)) by (destruct c; [done|cbn [length]; lia]). rewrite Nat2Z.id, firstn_all.
    eapply run_seq; [apply run_ret|]. rewrite E, foldl_app. exact Hloop.
Qed.

Definition dec (n : Z) : list Z := uprintint_chars n 10 true.
Definition wc_line (l : list Z) (ws : list (list Z)) (name : list Z) : list Z :=
  dec (newlines l) ++ [32] ++ dec (Z.of_nat (length ws)) ++ [32] ++ dec (Z.of_nat (length l)) ++ [32] ++ name ++ [10].

Lemma dec_bytes n : 0 <= n < 2^31 -> Forall (fun c => 0 <= c < 2^8) (dec n).
Proof.
  intros Hn. unfold dec, uprintint_chars, uprintint_buf. rewrite (proj2 (Z.ltb_ge n 0)) by lia. cbn [andb]. rewrite app_nil_r.
  apply Forall_reverse. eapply Forall_impl; [apply uprintint_digit; pose proof (wrap32_range n); lia|]. unfold is_digit. intros c. lia.
Qed.

Lemma words_bound l ws : words_of l ws -> (length ws <= length l)%nat.
Proof. induction 1 as [|sp w rest ws Hsp Hne Hw Hrest Hws IH]; cbn; [lia|]. rewrite !length_app. destruct w; [done|]. cbn. lia. Qed.

(** [wc] prints the numbers of newlines, of words and of bytes of what its
    descriptor delivers, whatever the chunks are in which [read] delivers it; in
    particular a word that is cut by the end of a buffer counts once. *)
Theorem wc_correct fd name l ws s : fds s !! fd = Some l -> Z.of_nat (length l) < 2^31 -> words_of l ws ->
  Forall (fun c => 0 <= c < 2^8) name -> exists s',
  did s (<[fd := []]> (fds s)) (wc_line l ws name) [] s' /\ eutt eq (run (wc fd name) s) (Ret (s', tt)).
Proof.
  intros Hfd Hlen Hws Hname. destruct (run_wc_loop fd (length l) l (Counts 0 0 0 false) s) as (s1 & Hd1 & Hr); [lia|done|].
  assert (newlines l <= Z.of_nat (length l)) as Hnl by (unfold newlines; apply inj_le, length_filter).
  pose proof (words_bound _ _ Hws) as Hwb. exists (emit 1 (wc_line l ws name) s1). split.
  - replace ([] : list Z) with ([] ++ [] : list Z) at 2 by done. change (wc_line l ws name) with ([] ++ wc_line l ws name).
    eapply did_trans; [exact Hd1|]. rewrite <- (d_fds _ _ _ _ _ Hd1). apply did_out. unfold wc_line.
    repeat (apply Forall_app; split); try apply dec_bytes; try done; try (repeat constructor; lia); unfold newlines in *; lia.
  - unfold wc. eapply run_seq; [exact Hr|]. cbn beta iota. change (0 <? 0) with false. cbn iota. rewrite run_uprintf.
    rewrite wc_chars, wc_lines, (wc_words l ws Hws) by (cbn; (lia || done)). cbn [wch wl ww Z.add].
    assert (forall a b c, 0 <= a < 2^31 -> 0 <= b < 2^31 -> 0 <= c < 2^31 ->
      format (chars "%d %d %d %s
") [UInt a; UInt b; UInt c; UStr (Some name)] = dec a ++ [32] ++ dec b ++ [32] ++ dec c ++ [32] ++ name ++ [10]) as ->; [|done|unfold newlines in *; lia..].
    intros a b c Ha Hb Hc. unfold dec. rewrite <- (s32_small a), <- (s32_small b), <- (s32_small c) at 2 by lia.
    set (f := chars _). vm_compute in f. subst f. reflexivity.
Qed.

(** ** echo *)

Fixpoint echo_text (args : list (list Z)) : list Z :=
  match args with
  | [] => []
  | [a] => a ++ [10]
  | a :: args' => a ++ [32] ++ echo_text args'
  end.

Lemma run_echo args : forall s, exists s', did s (fds s) (echo_text args) [] s' /\ eutt eq (run (echo_args args) s) (Ret (s', tt)).
Proof.
  assert (forall s a b, did s (fds s) (a ++ b) [] (set_outs (outs (set_outs (outs s ++ [(1, a)]) s) ++ [(1, b)]) (set_outs (outs s ++ [(1, a)]) s))) as Hw.
  { intros s a b. split; [done|done|rewrite !written_write; repeat case_decide; try done; by rewrite ?app_nil_r, <- ?app_assoc..]. }
  induction args as [|a args IH]; intros s; cbn [echo_args].
  - exists s. split; [apply did_refl|apply run_ret].
  - destruct args as [|b args].
    + eexists. split; [apply Hw|]. eapply run_seq; [apply run_write|]. eapply run_seq; [apply run_write|]. apply run_ret.
    + destruct (IH (set_outs (outs (set_outs (outs s ++ [(1, a)]) s) ++ [(1, [32])]) (set_outs (outs s ++ [(1, a)]) s))) as (s' & Hd & Hr).
      exists s'. split.
      * change (echo_text (a :: b :: args)) with (a ++ [32] ++ echo_text (b :: args)). rewrite app_assoc. exact (did_trans _ _ _ _ _ _ _ _ _ (Hw s a [32]) Hd).
      * eapply run_seq; [apply run_write|]. eapply run_seq; [apply run_write|]. exact Hr.
Qed.

(** ** grep *)

Lemma run_grep_scan pattern fuel : forall p s, exists s',
  did s (fds s) (fst (grep_lines fuel pattern p)) [] s' /\ eutt eq (run (grep_scan fuel pattern p) s) (Ret (s', snd (grep_lines fuel pattern p))).
Proof.
  induction fuel as [|fuel IH]; intros p s; cbn [grep_scan grep_lines]; [exists s; split; [apply did_refl|apply run_ret]|].
  destruct (cut_line p) as [[line rest]|]; [|exists s; split; [apply did_refl|apply run_ret]]. destruct (match_ pattern line).
  - set (s1 := set_outs (outs s ++ [(1, line ++ [NL])]) s). destruct (IH rest s1) as (s' & Hd & Hr).
    destruct (grep_lines fuel pattern rest) as [o p']. cbn [fst snd] in *. exists s'. split.
    + assert (did s (fds s) (line ++ [NL]) [] s1) as Hd1 by (split; [done|done|unfold s1; rewrite written_write; by case_decide..]).
      exact (did_trans _ _ _ _ _ _ _ _ _ Hd1 Hd).
    + eapply run_seq; [eapply run_seq; [apply run_write|apply run_ret]|]. exact Hr.
  - destruct (IH rest s) as (s' & Hd & Hr). destruct (grep_lines fuel pattern rest) as [o p']. cbn [fst snd] in *. exists s'. split; [done|].
    eapply run_seq; [apply run_ret|]. exact Hr.
Qed.

Lemma run_grep_loop pattern fd n : forall file buf s, (length file <= n)%nat -> fds s !! fd = Some file ->
  no_nul file -> no_nl buf -> no_nul buf -> short_lines 0 (buf ++ file) -> exists s',
  did s (<[fd := []]> (fds s)) (matching_lines pattern [] (buf ++ file)) [] s' /\
  eutt eq (run (ITree.iter (grep_body pattern fd) buf) s) (Ret (s', tt)).
Proof.
  induction n as [|n IH]; intros file buf s Hlen Hfd Hn Hb1 Hb2 Hs.
  all: destruct file as [|b file]; cbn [length] in Hlen; try lia.
  1, 2: destruct (run_read_end fd (BUFSIZE - Z.of_nat (length buf) - 1) s Hfd) as (s' & Hd & Hr); exists s';
    (split; [rewrite matching_lines_app by done; by rewrite insert_id|]);
    apply run_iter; unfold grep_body; rewrite bind_bind; (eapply run_seq; [exact Hr|]); (eapply run_seq; [apply run_ret|]); apply run_ret.
  destruct (run_read_some fd (BUFSIZE - Z.of_nat (length buf) - 1) (b :: file) s Hfd) as (c & file' & s1 & E & Hc & Hd1 & Hr);
    [by eapply short_lines_room|done|].
  rewrite E in Hs, Hn |- *. rewrite app_assoc in Hs |- *. apply nonul_text_app in Hn as [Hn1 Hn2].
  pose proof (grep_lines_spec pattern file' (length (buf ++ c)) (buf ++ c) ltac:(lia) ltac:(by apply nonul_text_app) Hs) as Hg.
  destruct (run_grep_scan pattern (length (buf ++ c)) (buf ++ c) s1) as (s2 & Hd2 & Hr2).
  destruct (grep_lines _ _ _) as [out rest]. destruct Hg as (G1 & G2 & G3 & G4). cbn [fst snd] in *.
  destruct (IH file' rest s2) as (s' & Hd & Hloop); [| |done..|].
  { apply (f_equal length) in E. rewrite length_app in E. cbn in E. destruct c; [done|]. cbn in E. lia. }
  { rewrite (d_fds _ _ _ _ _ Hd2), (d_fds _ _ _ _ _ Hd1). apply lookup_insert_eq. }
  exists s'. split.
  - rewrite G1. rewrite (d_fds _ _ _ _ _ Hd2), (d_fds _ _ _ _ _ Hd1), insert_insert_eq in Hd.
    exact (did_trans _ _ _ _ _ _ _ _ _ (did_trans _ _ _ _ _ _ _ _ _ Hd1 Hd2) Hd).
  - apply run_iter. unfold grep_body at 1. rewrite bind_bind. eapply run_seq; [exact Hr|]. cbn beta iota.
    rewrite (proj2 (Z.ltb_lt _ _)) by (destruct c; [done|cbn [length]; lia]). rewrite Nat2Z.id, firstn_all, bind_bind.
    eapply run_seq; [exact Hr2|]. eapply run_seq; [apply run_ret|]. exact Hloop.
Qed.

(** [grep pattern file] writes exactly the lines of the file that match, in
    order and with their newlines, however [read] cuts the file into pieces, and
    exits with status 0, for a text file whose lines, with their newlines, fit
    in the buffer. *)
Theorem grep_main_correct name pattern a file s : (exists i, 0 <= i < 16 /\ fds s !! i = None) -> files s !! a = Some file ->
  no_nul file -> short_lines 0 file -> exists s', did s (fds s) (matching_lines pattern [] file) [] s' /\
  eutt eq (run (grep_main [name; pattern; a]) s) (stop 0 s').
Proof.
  intros Hfree Hfile Hn Hs. destruct (run_on_file a file s (grep_fd pattern) (matching_lines pattern [] file) Hfile Hfree) as (s' & Hd & Hr).
  { intros fd s1 Hfd. apply (run_grep_loop pattern fd (length file) file [] s1); [done|done|done|constructor|constructor|done]. }
  exists s'. split; [done|]. unfold grep_main. cbn [each]. rewrite bind_bind. eapply run_seq; [apply Hr|]. eapply run_seq; [apply run_ret|]. apply run_exit.
Qed.

(** ** init *)

(** Calls of [wait] that return orphans, and then the process [p]. *)
Inductive reaps (p : Z) : env -> env -> Prop :=
| reap_shell s s' : eutt eq (other _ Swait s) (Ret (s', p)) -> reaps p s s'
| reap_orphan s s1 s' q : eutt eq (other _ Swait s) (Ret (s1, q)) -> 0 <= q -> q <> p -> reaps p s1 s' -> reaps p s s'.

(** Whatever orphans [init] reaps, when the shell exits [init] is where it
    started: it starts another shell.  [s1] is the state in which the shell runs
    and [s2] the state when it has exited. *)
Theorem init_restarts_sh s s1 s2 p : eutt eq (other _ Sfork (emit 1 (chars "init: starting sh
") s)) (Ret (s1, p)) -> 0 < p -> reaps p s1 s2 ->
  eutt eq (run (ITree.iter init_body tt) s) (run (ITree.iter init_body tt) s2).
Proof.
  intros Hfork Hp Hreap. apply run_iter. unfold init_body at 1. rewrite bind_bind. eapply run_seq; [apply run_uprintf|].
  rewrite bind_bind. eapply run_seq; [rewrite run_trigger; exact Hfork|]. rewrite (proj2 (Z.ltb_ge p 0)), (proj2 (Z.eqb_neq p 0)) by lia.
  rewrite bind_bind. eapply run_seq; [|eapply run_seq; [apply run_ret|reflexivity]].
  clear Hfork. induction Hreap as [s1 s2 Hw|s1 s1' s2 q Hw Hq Hne Hreap IH]; apply run_iter; unfold init_wait at 1; rewrite bind_bind;
    (eapply run_seq; [rewrite run_trigger; exact Hw|]).
  - rewrite Z.eqb_refl. eapply run_seq; apply run_ret.
  - rewrite (proj2 (Z.eqb_neq q p)), (proj2 (Z.ltb_ge q 0)) by lia. eapply run_seq; [apply run_ret|]. exact IH.
Qed.
End run.

(** ** Concrete environments *)

Definition ex_other : sysE ~> Monads.stateT env (itree stopE) := fun R e s =>
  match e in sysE R return itree stopE (env * R) with
  | Sfork => Ret (s, 7)
  | Swait => match sizes s with k :: ks => Ret (Env (files s) (fds s) (outs s) ks, Z.of_nat k) | [] => Ret (s, -1) end
  | _ => ITree.spin
  end.

Definition ex_env : env := Env {[ [97] := [104; 105; 32; 120; 10] ]} {[ 0 := [104; 105; 32; 120; 10] ]} [] [0%nat; 2%nat].

Lemma cat_correct_witness : exists s',
  did ex_env (fds ex_env) [104; 105; 32; 120; 10] (chars "cat: cannot open " ++ [98] ++ [10]) s' /\
  eutt eq (run ex_other (cat_main [[99]; [97]; [98]]) ex_env) (stop 1 s').
Proof.
  apply (cat_correct ex_other [99] [[97]; [98]] ex_env).
  - exists 3. split; [lia|done].
  - done.
  - repeat constructor; lia.
Defined.

Lemma ex_line_words : words_of [104; 105; 32; 120; 10] [[104; 105]; [120]].
Proof.
  apply (words_cons [] [104; 105] [32; 120; 10]); [constructor|done|repeat constructor|by intros c [= <-]|].
  apply (words_cons [32] [120] [10]); [repeat constructor|done|repeat constructor|by intros c [= <-]|]. constructor. repeat constructor.
Qed.
Lemma wc_correct_witness : exists s', did ex_env (<[0 := []]> (fds ex_env)) (wc_line [104; 105; 32; 120; 10] [[104; 105]; [120]] [97]) [] s' /\
  eutt eq (run ex_other (wc 0 [97]) ex_env) (Ret (s', tt)).
Proof.
  apply (wc_correct ex_other 0 [97] [104; 105; 32; 120; 10] [[104; 105]; [120]] ex_env).
  - done.
  - cbn. lia.
  - exact ex_line_words.
  - repeat constructor; lia.
Defined.

(** The calls of [wait] return 3, an orphan, and then 7, the shell. *)
Definition ex_start : env := Env ∅ ∅ [] [3%nat; 7%nat].
Definition ex_up : env := emit 1 (chars "init: starting sh
") ex_start.
Definition ex_down : env := Env ∅ ∅ (outs ex_up) [].
Lemma init_restarts_sh_witness : reaps ex_other 7 ex_up ex_down /\
  eutt eq (run ex_other (ITree.iter init_body tt) ex_start) (run ex_other (ITree.iter init_body tt) ex_down).
Proof.
  assert (reaps ex_other 7 ex_up ex_down) as H.
  { apply (reap_orphan _ _ _ (Env ∅ ∅ (outs ex_up) [7%nat]) _ 3); [cbn [ex_other sizes ex_up emit ex_start]; reflexivity|lia|lia|]. apply reap_shell. reflexivity. }
  split; [exact H|]. apply (init_restarts_sh ex_other ex_start ex_up ex_down 7); [reflexivity|lia|exact H].
Defined.

Lemma grep_main_correct_witness : exists s', did ex_env (fds ex_env) [104; 105; 32; 120; 10] [] s' /\
  eutt eq (run ex_other (grep_main [[103]; [105]; [97]]) ex_env) (stop 0 s').
Proof.
  apply (grep_main_correct ex_other [103] [105] [97] [104; 105; 32; 120; 10] ex_env).
  - exists 3. split; [lia|done].
  - done.
  - repeat constructor; discriminate.
  - repeat split; reflexivity.
Defined.
