(* ===== verification/Grind.v ===== *)
(** * grind: random system calls for ever (user/grind.c)

    The program as a tree of system calls, and its random numbers: [do_rand]
    multiplies by 7^5 modulo 2^31 - 1 without leaving 31 bits, and permutes its
    range, so that no seed makes it degenerate. *)

From ITree Require Import ITree ITreeFacts.
From S2P Require Import Prelude Fcntl Memory Console Ulib Usys Uprintf Uprogs.

(** ** Random numbers *)

(** [do_rand]: the new value of [*ctx], which is also the result. *)
Definition do_rand (ctx : Z) : Z :=
  let x := ctx mod 0x7ffffffe + 1 in
  let hi := x / 127773 in
  let lo := x mod 127773 in
  let x := 16807 * lo - 2836 * hi in
  let x := if x <? 0 then x + 0x7fffffff else x in
  x - 1.

Definition M31 : Z := 2^31 - 1.

(** The products stay within 31 bits and a sign. *)
Lemma rand_terms x : 1 <= x < M31 ->
  -2^31 < 16807 * (x mod 127773) - 2836 * (x / 127773) < 2^31 /\ 0 <= 16807 * (x mod 127773) < 2^31 /\ 0 <= 2836 * (x / 127773) < 2^31.
Proof. unfold M31. intros Hx. dlia. Qed.

(** Schrage's method. *)
Lemma schrage x : 1 <= x < M31 ->
  let y := 16807 * (x mod 127773) - 2836 * (x / 127773) in (if y <? 0 then y + M31 else y) = (16807 * x) mod M31.
Proof.
  intros Hx. cbv zeta. pose proof (rand_terms x Hx) as Ht. pose proof (Z.div_mod x 127773 ltac:(lia)) as Hd. set (h := x / 127773) in *. set (l := x mod 127773) in *. unfold M31 in *.
  assert (16807 * x = (16807 * l - 2836 * h) + h * (2^31 - 1)) as E by lia. rewrite E, Z_mod_plus_full.
  destruct (Z.ltb_spec (16807 * l - 2836 * h) 0) as [Hn|Hn].
  - rewrite <- (Z_mod_plus_full _ 1), Z.mod_small; lia.
  - rewrite Z.mod_small; lia.
Qed.

(** 16807 has an inverse modulo 2^31 - 1. *)
Lemma rand_inverse x : (1407677000 * (16807 * x)) mod M31 = x mod M31.
Proof. replace (1407677000 * (16807 * x)) with (x + (11017 * x) * M31) by (unfold M31; lia). apply Z_mod_plus_full. Qed.

Lemma rand_nonzero x : 1 <= x < M31 -> (16807 * x) mod M31 <> 0.
Proof.
  intros Hx E. pose proof (rand_inverse x) as H. rewrite Z.mul_mod, E in H by (unfold M31; lia). rewrite Z.mul_0_r, Z.mod_0_l in H by (unfold M31; lia). rewrite Z.mod_small in H by lia. lia.
Qed.

Lemma rand_seed c : 0 <= c -> 1 <= c mod 0x7ffffffe + 1 < M31.
Proof. intros Hc. unfold M31. pose proof (Z.mod_pos_bound c 0x7ffffffe ltac:(lia)). lia. Qed.

Lemma do_rand_mod c : 0 <= c -> do_rand c = (16807 * (c mod 0x7ffffffe + 1)) mod M31 - 1.
Proof. intros Hc. rewrite <- (schrage _ (rand_seed c Hc)). reflexivity. Qed.

Lemma do_rand_range c : 0 <= c -> 0 <= do_rand c < 0x7ffffffe.
Proof.
  intros Hc. rewrite do_rand_mod by done. pose proof (rand_nonzero _ (rand_seed c Hc)). pose proof (Z.mod_pos_bound (16807 * (c mod 0x7ffffffe + 1)) M31 ltac:(unfold M31; lia)). unfold M31 in *. lia.
Qed.

(** C35. The random numbers of grind.  From any state, [do_rand] computes
    (7^5 * x) mod (2^31 - 1), as its comment says, with every intermediate value
    within 31 bits and a sign; the result is in the range 0 to 0x7ffffffd; and on
    that range it is one-to-one, so that no two states fall together. *)
Theorem do_rand_correct c : 0 <= c < 2^64 ->
  let x := c mod 0x7ffffffe + 1 in
  do_rand c + 1 = (7^5 * x) mod (2^31 - 1) /\ 0 <= do_rand c <= 0x7ffffffd /\
  (-2^31 < 16807 * (x mod 127773) - 2836 * (x / 127773) < 2^31 /\ 16807 * (x mod 127773) < 2^31 /\ 2836 * (x / 127773) < 2^31) /\
  (forall c', 0 <= c' <= 0x7ffffffd -> 0 <= c <= 0x7ffffffd -> do_rand c = do_rand c' -> c = c').
Proof.
  intros Hc x. pose proof (rand_terms x (rand_seed c ltac:(lia))) as Ht. split; [|split; [|split]].
  - rewrite do_rand_mod by lia. unfold x, M31. change (7^5) with 16807. lia.
  - pose proof (do_rand_range c ltac:(lia)). lia.
  - lia.
  - intros c' Hc' Hc2 E. rewrite !do_rand_mod in E by lia. rewrite !(Z.mod_small _ 0x7ffffffe) in E by lia. pose proof (rand_inverse (c + 1)) as H1. pose proof (rand_inverse (c' + 1)) as H2.
    rewrite Z.mul_mod in H1, H2 by (unfold M31; lia). replace ((16807 * (c + 1)) mod M31) with ((16807 * (c' + 1)) mod M31) in H1 by lia. rewrite H2, !Z.mod_small in H1 by (unfold M31; lia). lia.
Qed.

Lemma do_rand_correct_witness : do_rand 1 + 1 = (7^5 * 2) mod (2^31 - 1) /\ do_rand 31 <> do_rand 7177.
Proof.
  split; [exact (proj1 (do_rand_correct 1 ltac:(lia)))|]. intros E.
  destruct (do_rand_correct 31 ltac:(lia)) as (_ & _ & _ & H). pose proof (H 7177 ltac:(lia) ltac:(lia) E) as H'. discriminate H'.
Defined.

(** ** The program *)

Local Open Scope uprog_scope.

Definition O_CRW : Z := Z.lor O_CREATE O_RDWR.
(** [printf(msg); exit(1)]. *)
Definition fails {A} (msg : string) : uprog A := uprintf msg [] ,, exit_ 1.
Definition efails {A} (msg : string) (status : Z) : uprog A := fprintf 2 msg [] ,, exit_ status.
(** [close(open(path, O_CREATE|O_RDWR))]. *)
Definition touch (path : string) : uprog unit := do fd := open_ (chars path) O_CRW in close_ fd ,, Ret tt.

(** The bytes of a buffer after [read] has put [bs] at its start. *)
Definition into (buf bs : list Z) : list Z := bs ++ drop (length bs) buf.

(** [what == 19]: a pipe between a child and its own children. *)
Definition go_pipe : uprog unit :=
  do (r, fds) := pipe_ in
  let '(fds0, fds1) := fds in
  if r <? 0 then fails "grind: pipe failed
" else
  do pid := fork_ in
  if pid =? 0 then
    fork_ ,,
    fork_ ,,
    do n := write_ fds1 (chars "x") in
    (if negb (n =? 1) then uprintf "grind: pipe write failed
" [] else Ret tt) ,,
    do (n, c) := read_ fds0 1 in
    (if negb (n =? 1) then uprintf "grind: pipe read failed
" [] else Ret tt) ,,
    exit_ 0
  else if pid <? 0 then fails "grind: fork failed
" else
  close_ fds0 ,,
  close_ fds1 ,,
  wait0_ ,, Ret tt.

(** [what == 20]: a directory that is removed while it is the working directory. *)
Definition go_rmdir : uprog unit :=
  do pid := fork_ in
  if pid =? 0 then
    unlink_ (chars "a") ,,
    mkdir_ (chars "a") ,,
    chdir_ (chars "a") ,,
    unlink_ (chars "../a") ,,
    open_ (chars "x") O_CRW ,,
    unlink_ (chars "x") ,,
    exit_ 0
  else if pid <? 0 then fails "fork failed
" else
  wait0_ ,, Ret tt.

(** [what == 21]: a file can be made. *)
Definition go_create : uprog unit :=
  unlink_ (chars "c") ,,
  do fd1 := open_ (chars "c") O_CRW in
  if fd1 <? 0 then fails "create c failed
" else
  do n := write_ fd1 (chars "x") in
  if negb (n =? 1) then fails "write c failed
" else
  do (r, st) := fstat_ fd1 in
  if negb (r =? 0) then fails "fstat failed
" else
  if negb (ust_size st =? 1) then uprintf "fstat reports wrong size %d
" [UInt (s32 (ust_size st))] ,, exit_ 1 else
  if 200 <? ust_ino st then uprintf "fstat reports crazy i-number %d
" [UInt (ust_ino st)] ,, exit_ 1 else
  close_ fd1 ,,
  unlink_ (chars "c") ,, Ret tt.

(** [what == 22]: echo hi | cat.  [st1] and [st2] are not initialised. *)
Definition go_echo (aa bb : Z * Z) : uprog unit :=
  close_ bb.1 ,,
  close_ bb.2 ,,
  close_ aa.1 ,,
  close_ 1 ,,
  do r := dup_ aa.2 in
  if negb (r =? 1) then efails "dup failed
" 1 else
  close_ aa.2 ,,
  exec_ (chars "grindir/../echo") [chars "echo"; chars "hi"] ,,
  efails "echo: not found
" 2.
Definition go_cat (aa bb : Z * Z) : uprog unit :=
  close_ aa.2 ,,
  close_ bb.1 ,,
  close_ 0 ,,
  do r := dup_ aa.1 in
  if negb (r =? 0) then efails "dup failed
" 4 else
  close_ aa.1 ,,
  close_ 1 ,,
  do r := dup_ bb.2 in
  if negb (r =? 1) then efails "dup failed
" 5 else
  close_ bb.2 ,,
  exec_ (chars "/cat") [chars "cat"] ,,
  efails "cat: not found
" 6.
Definition go_pipeline (undef : Z) : uprog unit :=
  do (r, aa) := pipe_ in
  if r <? 0 then efails "pipe failed
" 1 else
  do (r, bb) := pipe_ in
  if r <? 0 then efails "pipe failed
" 1 else
  do pid1 := fork_ in
  if pid1 =? 0 then go_echo aa bb
  else if pid1 <? 0 then efails "fork failed
" 3 else
  do pid2 := fork_ in
  if pid2 =? 0 then go_cat aa bb
  else if pid2 <? 0 then efails "fork failed
" 7 else
  close_ aa.1 ,,
  close_ aa.2 ,,
  close_ bb.2 ,,
  let buf := [0; 0; 0] in
  do (_, b0) := read_ bb.1 1 in
  let buf := into buf b0 in
  do (_, b1) := read_ bb.1 1 in
  let buf := take 1 buf ++ into (drop 1 buf) b1 in
  close_ bb.1 ,,
  do (_, st1) := wait_ undef in
  do (_, st2) := wait_ undef in
  if negb (st1 =? 0) || negb (st2 =? 0) || negb (bool_decide (upto_nul buf = chars "hi")) then
    vprintf 1 (chars "exec pipeline failed %d %d " ++ [34] ++ chars "%s" ++ [34; 10]) false [UInt st1; UInt st2; UStr (Some (upto_nul buf))] ,, exit_ 1
  else Ret tt.

(** The variables of [go]: [fd], [rand_next], [iters] and the static [buf]. *)
Record gst := GSt { gfd : Z; rand_next : Z; iters : Z; gbuf : list Z }.

(** A fork whose child runs [child] and exits. *)
Definition go_child (child : uprog unit) (parent : Z -> uprog unit) : uprog unit :=
  do pid := fork_ in
  if pid =? 0 then child ,, exit_ 0
  else if pid <? 0 then fails "grind: fork failed
" else parent pid.

(** One round, for the branch [what]: the new [fd] and [buf]. *)
Definition go_what (undef break0 what fd : Z) (buf : list Z) : uprog (Z * list Z) :=
  let same (p : uprog unit) := p ,, Ret (fd, buf) in
  if what =? 1 then same (touch "grindir/../a")
  else if what =? 2 then same (touch "grindir/../grindir/../b")
  else if what =? 3 then same (unlink_ (chars "grindir/../a") ,, Ret tt)
  else if what =? 4 then same (
    do r := chdir_ (chars "grindir") in
    if negb (r =? 0) then fails "chdir grindir failed
" else unlink_ (chars "../b") ,, chdir_ (chars "/") ,, Ret tt)
  else if what =? 5 then
    close_ fd ,, do fd := open_ (chars "/grindir/../a") O_CRW in Ret (fd, buf)
  else if what =? 6 then
    close_ fd ,, do fd := open_ (chars "/./grindir/./../b") O_CRW in Ret (fd, buf)
  else if what =? 7 then same (write_ fd buf ,, Ret tt)
  else if what =? 8 then
    do (_, bs) := read_ fd 999 in Ret (fd, into buf bs)
  else if what =? 9 then same (
    mkdir_ (chars "grindir/../a") ,, touch "a/../a/./a" ,, unlink_ (chars "a/a") ,, Ret tt)
  else if what =? 10 then same (
    mkdir_ (chars "/../b") ,, touch "grindir/../b/b" ,, unlink_ (chars "b/b") ,, Ret tt)
  else if what =? 11 then same (
    unlink_ (chars "b") ,, link_ (chars "../grindir/./../a") (chars "../b") ,, Ret tt)
  else if what =? 12 then same (
    unlink_ (chars "../grindir/../a") ,, link_ (chars ".././b") (chars "/grindir/../a") ,, Ret tt)
  else if what =? 13 then same (go_child (Ret tt) (fun _ => wait0_ ,, Ret tt))
  else if what =? 14 then same (go_child (fork_ ,, fork_ ,, Ret tt) (fun _ => wait0_ ,, Ret tt))
  else if what =? 15 then same (sbrk_ 6011 ,, Ret tt)
  else if what =? 16 then same (
    do top := sbrk_ 0 in
    if break0 <? top then do top := sbrk_ 0 in sbrk_ (s32 (- (top - break0))) ,, Ret tt else Ret tt)
  else if what =? 17 then same (go_child (touch "a") (fun pid =>
    do r := chdir_ (chars "../grindir/..") in
    if negb (r =? 0) then fails "chdir failed
" else kill_ pid ,, wait0_ ,, Ret tt))
  else if what =? 18 then same (go_child (do me := getpid_ in kill_ me ,, Ret tt) (fun _ => wait0_ ,, Ret tt))
  else if what =? 19 then same go_pipe
  else if what =? 20 then same go_rmdir
  else if what =? 21 then same go_create
  else if what =? 22 then same (go_pipeline undef)
  else Ret (fd, buf).

Definition go_body (undef break0 : Z) (which_child : bool) (g : gst) : uprog (gst + unit) :=
  let it := wrap64 (iters g + 1) in
  (if it mod 500 =? 0 then write_ 1 (chars (if which_child then "B" else "A")) ,, Ret tt else Ret tt) ,,
  let rn := do_rand (rand_next g) in
  do (fd, buf) := go_what undef break0 (rn mod 23) (gfd g) (gbuf g) in
  Ret (inl (GSt fd rn it buf)).
Definition go (undef : Z) (which_child : bool) (seed : Z) : uprog unit :=
  do break0 := sbrk_ 0 in
  mkdir_ (chars "grindir") ,,
  do r := chdir_ (chars "grindir") in
  if negb (r =? 0) then fails "chdir grindir failed
" else
  chdir_ (chars "/") ,,
  ITree.iter (go_body undef break0 which_child) (GSt (-1) seed 0 (replicate 999 0)).

Definition grind_iter (undef : Z) : uprog unit :=
  unlink_ (chars "a") ,,
  unlink_ (chars "b") ,,
  do pid1 := fork_ in
  if pid1 <? 0 then fails "grind: fork failed
" else
  if pid1 =? 0 then go undef false 31 ,, exit_ 0 else
  do pid2 := fork_ in
  if pid2 <? 0 then fails "grind: fork failed
" else
  if pid2 =? 0 then go undef true 7177 ,, exit_ 0 else
  do (_, st1) := wait_ (-1) in
  (if negb (st1 =? 0) then kill_ pid1 ,, kill_ pid2 ,, Ret tt else Ret tt) ,,
  wait_ (-1) ,,
  exit_ 0.

Definition grind_body (undef : Z) (_ : unit) : uprog (unit + unit) :=
  do pid := fork_ in
  if pid =? 0 then grind_iter undef ,, exit_ 0 else
  (if 0 <? pid then wait0_ ,, Ret tt else Ret tt) ,,
  sleep_ 20 ,, Ret (inl tt).
Definition grind_main (undef : Z) : uprog unit := ITree.iter (grind_body undef) tt.
