(* ===== verification/Usertests.v ===== *)
(** * The tests of the system calls (user/usertests.c)

    Every test is a program of system calls, like the programs of Uprogs.v; the
    runner forks a process for each test and reports from its exit status.
    [undef] is the value of a variable that is not initialised, [uninit_addr] the
    address of the array of [bsstest] and [sp] the stack pointer in [stacktest]. *)

From ITree Require Import ITree ITreeFacts Events.State Events.StateFacts.
From S2P Require Import Prelude Fcntl Riscv Memory Block Log Fs Syscall Console Ulib Usys Uprintf Uprogs Grind.
Local Open Scope uprog_scope.

(** ** Loops and messages *)

Fixpoint for_in {A} (l : list A) (body : A -> uprog unit) : uprog unit :=
  match l with
  | [] => Ret tt
  | a :: l' => body a ,, for_in l' body
  end.
(** [for(i = 0; i < n; i++)]. *)
Definition for_ (n : Z) (body : Z -> uprog unit) : uprog unit := for_in (seqZ 0 n) body.
(** [lo], [lo + st], ... below [hi]. *)
Definition steps (lo hi st : Z) : list Z := (fun k => lo + st * k) <$> seqZ 0 ((hi - lo + st - 1) / st).

(** [if(bad){ printf(msg "\n", s); exit(1); }], and without the newline. *)
Definition nl (m : string) : list Z := chars m ++ [10].
Definition say (m : string) (args : list uarg) : uprog unit := vprintf 1 (nl m) false args.
Definition need (bad : bool) (s : list Z) (m : string) : uprog unit := if bad then say m [UStr (Some s)] ,, exit_ 1 else Ret tt.
Definition need_ (bad : bool) (s : list Z) (m : string) : uprog unit := if bad then uprintf m [UStr (Some s)] ,, exit_ 1 else Ret tt.
(** The same with other arguments. *)
Definition needs (bad : bool) (m : string) (args : list uarg) : uprog unit := if bad then say m args ,, exit_ 1 else Ret tt.

Definition BUFSZ : Z := (MAXOPBLOCKS + 2) * BSIZE.
Definition MAX64 : Z := 2^64 - 1.
(** kernel/syscall.h. *)
Definition n_pipe : Z := 4.
Definition n_read : Z := 5.
Definition n_exec : Z := 7.
Definition n_open : Z := 15.
Definition n_write : Z := 16.
Definition n_unlink : Z := 18.
Definition n_link : Z := 19.

Definition touch_ (path : list Z) (mode : Z) : uprog unit := do fd := open_ path mode in close_ fd ,, Ret tt.
Definition O_CW : Z := Z.lor O_CREATE O_WRONLY.

Section tests.
Context (undef uninit_addr sp : Z).

(** ** Bad pointers *)

Definition bad_addrs : list Z := [0x80000000; MAX64].

Definition copyin_test (s : list Z) : uprog unit := for_in bad_addrs (fun addr =>
  do fd := open_ (chars "copyin1") O_CW in
  needs (fd <? 0) "open(copyin1) failed" [] ,,
  do n := raw_ n_write [Num fd; Num addr; Num 8192] in
  needs (0 <=? n) "write(fd, %p, 8192) returned %d, not -1" [UInt addr; UInt n] ,,
  close_ fd ,,
  unlink_ (chars "copyin1") ,,
  do n := raw_ n_write [Num 1; Num addr; Num 8192] in
  needs (0 <? n) "write(1, %p, 8192) returned %d, not -1 or 0" [UInt addr; UInt n] ,,
  do (r, fds) := pipe_ in
  needs (r <? 0) "pipe() failed" [] ,,
  do n := raw_ n_write [Num fds.2; Num addr; Num 8192] in
  needs (0 <? n) "write(pipe, %p, 8192) returned %d, not -1 or 0" [UInt addr; UInt n] ,,
  close_ fds.1 ,,
  close_ fds.2 ,, Ret tt).

Definition copyout_test (s : list Z) : uprog unit := for_in bad_addrs (fun addr =>
  do fd := open_ (chars "README") 0 in
  needs (fd <? 0) "open(README) failed" [] ,,
  do n := raw_ n_read [Num fd; Num addr; Num 8192] in
  needs (0 <? n) "read(fd, %p, 8192) returned %d, not -1 or 0" [UInt addr; UInt n] ,,
  close_ fd ,,
  do (r, fds) := pipe_ in
  needs (r <? 0) "pipe() failed" [] ,,
  do n := write_ fds.2 (chars "x") in
  needs (negb (n =? 1)) "pipe write failed" [] ,,
  do n := raw_ n_read [Num fds.1; Num addr; Num 8192] in
  needs (0 <? n) "read(pipe, %p, 8192) returned %d, not -1 or 0" [UInt addr; UInt n] ,,
  close_ fds.1 ,,
  close_ fds.2 ,, Ret tt).

Definition copyinstr1 (s : list Z) : uprog unit := for_in bad_addrs (fun addr =>
  do fd := raw_ n_open [Num addr; Num O_CW] in
  needs (0 <=? fd) "open(%p) returned %d, not -1" [UInt addr; UInt fd]).

Definition copyinstr2 (s : list Z) : uprog unit :=
  let b := replicate (Z.to_nat MAXPATH) 120 in
  do ret := unlink_ b in
  needs (negb (ret =? -1)) "unlink(%s) returned %d, not -1" [UStr (Some b); UInt ret] ,,
  do fd := open_ b O_CW in
  needs (negb (fd =? -1)) "open(%s) returned %d, not -1" [UStr (Some b); UInt fd] ,,
  do ret := link_ b b in
  needs (negb (ret =? -1)) "link(%s, %s) returned %d, not -1" [UStr (Some b); UStr (Some b); UInt ret] ,,
  do ret := exec_ b [chars "xx"] in
  needs (negb (ret =? -1)) "exec(%s) returned %d, not -1" [UStr (Some b); UInt fd] ,,
  do pid := fork_ in
  needs (pid <? 0) "fork failed" [] ,,
  (if pid =? 0 then
     let big := replicate (Z.to_nat PGSIZE) 120 in
     do ret := exec_ (chars "echo") [big; big; big] in
     needs (negb (ret =? -1)) "exec(echo, BIG) returned %d, not -1" [UInt fd] ,,
     exit_ 747
   else Ret tt) ,,
  do (_, st) := wait_ 0 in
  needs (negb (st =? 747)) "exec(echo, BIG) succeeded, should have failed" [].

(** [printf("%s", b)] of a string in memory. *)
Definition put_at (b : Z) : uprog unit := ITree.iter (fun a =>
  do c := load_ 1 a in
  if c =? 0 then Ret (inr tt) else putc 1 c ,, Ret (inl (a + 1))) b.

Definition copyinstr3 (s : list Z) : uprog unit :=
  sbrk_ 8192 ,,
  do top := sbrk_ 0 in
  (if negb (top mod PGSIZE =? 0) then sbrk_ (PGSIZE - top mod PGSIZE) ,, Ret tt else Ret tt) ,,
  do top := sbrk_ 0 in
  needs (negb (top mod PGSIZE =? 0)) "oops" [] ,,
  let b := wrap64 (top - 1) in
  store_ 1 b 120 ,,
  do ret := raw_ n_unlink [Num b] in
  (if negb (ret =? -1) then
     uprintf "unlink(" [] ,, put_at b ,, say ") returned %d, not -1" [UInt ret] ,, exit_ 1
   else Ret tt) ,,
  do fd := raw_ n_open [Num b; Num O_CW] in
  (if negb (fd =? -1) then
     uprintf "open(" [] ,, put_at b ,, say ") returned %d, not -1" [UInt fd] ,, exit_ 1
   else Ret tt) ,,
  do ret := raw_ n_link [Num b; Num b] in
  (if negb (ret =? -1) then
     uprintf "link(" [] ,, put_at b ,, uprintf ", " [] ,, put_at b ,, say ") returned %d, not -1" [UInt ret] ,, exit_ 1
   else Ret tt) ,,
  do ret := raw_ n_exec [Num b; Strs [chars "xx"]] in
  (if negb (ret =? -1) then
     uprintf "exec(" [] ,, put_at b ,, say ") returned %d, not -1" [UInt fd] ,, exit_ 1
   else Ret tt).

(** ** Truncation *)

Definition O_CWT : Z := Z.lor (Z.lor O_CREATE O_WRONLY) O_TRUNC.

Definition truncate1 (s : list Z) : uprog unit :=
  unlink_ (chars "truncfile") ,,
  do fd1 := open_ (chars "truncfile") O_CWT in
  write_ fd1 (chars "abcd") ,,
  close_ fd1 ,,
  do fd2 := open_ (chars "truncfile") O_RDONLY in
  do (n, _) := read_ fd2 32 in
  needs (negb (n =? 4)) "%s: read %d bytes, wanted 4" [UStr (Some s); UInt n] ,,
  do fd1 := open_ (chars "truncfile") (Z.lor O_WRONLY O_TRUNC) in
  do fd3 := open_ (chars "truncfile") O_RDONLY in
  do (n, _) := read_ fd3 32 in
  (if negb (n =? 0) then
     say "aaa fd3=%d" [UInt fd3] ,, say "%s: read %d bytes, wanted 0" [UStr (Some s); UInt n] ,, exit_ 1
   else Ret tt) ,,
  do (n, _) := read_ fd2 32 in
  (if negb (n =? 0) then
     say "bbb fd2=%d" [UInt fd2] ,, say "%s: read %d bytes, wanted 0" [UStr (Some s); UInt n] ,, exit_ 1
   else Ret tt) ,,
  write_ fd1 (chars "abcdef") ,,
  do (n, _) := read_ fd3 32 in
  needs (negb (n =? 6)) "%s: read %d bytes, wanted 6" [UStr (Some s); UInt n] ,,
  do (n, _) := read_ fd2 32 in
  needs (negb (n =? 2)) "%s: read %d bytes, wanted 2" [UStr (Some s); UInt n] ,,
  unlink_ (chars "truncfile") ,,
  close_ fd1 ,,
  close_ fd2 ,,
  close_ fd3 ,, Ret tt.

Definition truncate2 (s : list Z) : uprog unit :=
  unlink_ (chars "truncfile") ,,
  do fd1 := open_ (chars "truncfile") O_CWT in
  write_ fd1 (chars "abcd") ,,
  do fd2 := open_ (chars "truncfile") (Z.lor O_TRUNC O_WRONLY) in
  do n := write_ fd1 (chars "x") in
  needs (negb (n =? -1)) "%s: write returned %d, expected -1" [UStr (Some s); UInt n] ,,
  unlink_ (chars "truncfile") ,,
  close_ fd1 ,,
  close_ fd2 ,, Ret tt.

Definition truncate3 (s : list Z) : uprog unit :=
  touch_ (chars "truncfile") O_CWT ,,
  do pid := fork_ in
  need (pid <? 0) s "%s: fork failed" ,,
  (if pid =? 0 then
     for_ 100 (fun i =>
       do fd := open_ (chars "truncfile") O_WRONLY in
       need (fd <? 0) s "%s: open failed" ,,
       do n := write_ fd (chars "1234567890") in
       needs (negb (n =? 10)) "%s: write got %d, expected 10" [UStr (Some s); UInt n] ,,
       close_ fd ,,
       do fd := open_ (chars "truncfile") O_RDONLY in
       read_ fd 32 ,,
       close_ fd ,, Ret tt) ,,
     exit_ 0
   else Ret tt) ,,
  for_ 150 (fun i =>
    do fd := open_ (chars "truncfile") O_CWT in
    need (fd <? 0) s "%s: open failed" ,,
    do n := write_ fd (chars "xxx") in
    needs (negb (n =? 3)) "%s: write got %d, expected 3" [UStr (Some s); UInt n] ,,
    close_ fd ,, Ret tt) ,,
  do (_, xstatus) := wait_ undef in
  unlink_ (chars "truncfile") ,,
  exit_ xstatus.

(** ** References to inodes *)

Definition iputtest (s : list Z) : uprog unit :=
  do r := mkdir_ (chars "iputdir") in
  need (r <? 0) s "%s: mkdir failed" ,,
  do r := chdir_ (chars "iputdir") in
  need (r <? 0) s "%s: chdir iputdir failed" ,,
  do r := unlink_ (chars "../iputdir") in
  need (r <? 0) s "%s: unlink ../iputdir failed" ,,
  do r := chdir_ (chars "/") in
  need (r <? 0) s "%s: chdir / failed".

Definition exitiputtest (s : list Z) : uprog unit :=
  do pid := fork_ in
  need (pid <? 0) s "%s: fork failed" ,,
  (if pid =? 0 then
     do r := mkdir_ (chars "iputdir") in
     need (r <? 0) s "%s: mkdir failed" ,,
     do r := chdir_ (chars "iputdir") in
     need (r <? 0) s "%s: child chdir failed" ,,
     do r := unlink_ (chars "../iputdir") in
     need (r <? 0) s "%s: unlink ../iputdir failed" ,,
     exit_ 0
   else Ret tt) ,,
  do (_, xstatus) := wait_ undef in
  exit_ xstatus.

Definition openiputtest (s : list Z) : uprog unit :=
  do r := mkdir_ (chars "oidir") in
  need (r <? 0) s "%s: mkdir oidir failed" ,,
  do pid := fork_ in
  need (pid <? 0) s "%s: fork failed" ,,
  (if pid =? 0 then
     do fd := open_ (chars "oidir") O_RDWR in
     need (0 <=? fd) s "%s: open directory for write succeeded" ,,
     exit_ 0
   else Ret tt) ,,
  sleep_ 1 ,,
  do r := unlink_ (chars "oidir") in
  need (negb (r =? 0)) s "%s: unlink failed" ,,
  do (_, xstatus) := wait_ undef in
  exit_ xstatus.

(** ** Simple tests of files *)

Definition opentest (s : list Z) : uprog unit :=
  do fd := open_ (chars "echo") 0 in
  need (fd <? 0) s "%s: open echo failed!" ,,
  close_ fd ,,
  do fd := open_ (chars "doesnotexist") 0 in
  need (0 <=? fd) s "%s: open doesnotexist succeeded!".

(** Some messages lack the argument for their [%s]. *)
Definition writetest (s : list Z) : uprog unit :=
  do fd := open_ (chars "small") O_CRW in
  need (fd <? 0) s "%s: error: creat small failed!" ,,
  for_ 100 (fun i =>
    do n := write_ fd (chars "aaaaaaaaaa") in
    needs (negb (n =? 10)) "%s: error: write aa %d new file failed" [UInt i] ,,
    do n := write_ fd (chars "bbbbbbbbbb") in
    needs (negb (n =? 10)) "%s: error: write bb %d new file failed" [UInt i]) ,,
  close_ fd ,,
  do fd := open_ (chars "small") O_RDONLY in
  need (fd <? 0) s "%s: error: open small failed!" ,,
  do (i, _) := read_ fd (100 * 10 * 2) in
  need (negb (i =? 100 * 10 * 2)) s "%s: read failed" ,,
  close_ fd ,,
  do r := unlink_ (chars "small") in
  need (r <? 0) s "%s: unlink small failed".

(** An [int] in memory. *)
Definition int_bytes (x : Z) : list Z := (fun k => Z.shiftr x (8 * k) mod 256) <$> [0; 1; 2; 3].
Definition int_at (l : list Z) : Z := s32 (nth 0 l 0 + 2^8 * nth 1 l 0 + 2^16 * nth 2 l 0 + 2^24 * nth 3 l 0).

(** The loop that reads: [n] blocks have been read. *)
Definition writebig_read (fd : Z) (n : Z) : uprog (Z + unit) :=
  do (i, b) := read_ fd BSIZE in
  if i =? 0 then
    (if n =? MAXFILE - 1 then uprintf "%s: read only %d blocks from big" [UInt n] ,, exit_ 1 else Ret (inr tt))
  else
    needs (negb (i =? BSIZE)) "%s: read failed %d" [UInt i] ,,
    needs (negb (int_at b =? n)) "%s: read content of block %d is %d" [UInt n; UInt (int_at b)] ,,
    Ret (inl (n + 1)).
Definition writebig (s : list Z) : uprog unit :=
  do fd := open_ (chars "big") O_CRW in
  need (fd <? 0) s "%s: error: creat big failed!" ,,
  for_ MAXFILE (fun i =>
    do n := write_ fd (int_bytes i ++ replicate (Z.to_nat (BSIZE - 4)) 0) in
    needs (negb (n =? BSIZE)) "%s: error: write big file failed" [UInt i]) ,,
  close_ fd ,,
  do fd := open_ (chars "big") O_RDONLY in
  need (fd <? 0) s "%s: error: open big failed!" ,,
  ITree.iter (writebig_read fd) 0 ,,
  close_ fd ,,
  do r := unlink_ (chars "big") in
  need (r <? 0) s "%s: unlink big failed".

Definition createtest (s : list Z) : uprog unit :=
  for_ 52 (fun i => touch_ [97; wrap8 (48 + i)] O_CRW) ,,
  for_ 52 (fun i => unlink_ [97; wrap8 (48 + i)] ,, Ret tt).

Definition dirtest (s : list Z) : uprog unit :=
  say "mkdir test" [] ,,
  do r := mkdir_ (chars "dir0") in
  need (r <? 0) s "%s: mkdir failed" ,,
  do r := chdir_ (chars "dir0") in
  need (r <? 0) s "%s: chdir dir0 failed" ,,
  do r := chdir_ (chars "..") in
  need (r <? 0) s "%s: chdir .. failed" ,,
  do r := unlink_ (chars "dir0") in
  need (r <? 0) s "%s: unlink dir0 failed" ,,
  say "%s: mkdir test ok" [].

Definition exectest (s : list Z) : uprog unit :=
  unlink_ (chars "echo-ok") ,,
  do pid := fork_ in
  need (pid <? 0) s "%s: fork failed" ,,
  (if pid =? 0 then
     close_ 1 ,,
     do fd := open_ (chars "echo-ok") O_CW in
     need (fd <? 0) s "%s: create failed" ,,
     need (negb (fd =? 1)) s "%s: wrong fd" ,,
     do r := exec_ (chars "echo") [chars "echo"; chars "OK"] in
     need (r <? 0) s "%s: exec echo failed"
   else Ret tt) ,,
  do (w, xstatus) := wait_ undef in
  (if negb (w =? pid) then say "%s: wait failed!" [UStr (Some s)] else Ret tt) ,,
  (if negb (xstatus =? 0) then exit_ xstatus else Ret tt) ,,
  do fd := open_ (chars "echo-ok") O_RDONLY in
  need (fd <? 0) s "%s: open failed" ,,
  do (n, buf) := read_ fd 2 in
  need (negb (n =? 2)) s "%s: read failed" ,,
  unlink_ (chars "echo-ok") ,,
  if (nth 0 buf 0 =? 79) && (nth 1 buf 0 =? 75) then exit_ 0
  else say "%s: wrong output" [UStr (Some s)] ,, exit_ 1.

(** ** Pipes and processes *)

(** The bytes [seq], [seq + 1], ... of [pipe1]. *)
Definition seq_bytes (seq n : Z) : list Z := (fun i => wrap8 (seq + i)) <$> seqZ 0 n.

(** The loop that reads: [seq], [total] and [cc]; [None] where it returns. *)
Definition pipe1_read (s : list Z) (fd : Z) (v : Z * Z * Z) : uprog (Z * Z * Z + option Z) :=
  let '(seq, total, cc) := v in
  do (n, b) := read_ fd cc in
  if 0 <? n then
    if negb (bool_decide (take (Z.to_nat n) b = seq_bytes seq n)) then
      say "%s: pipe1 oops 2" [UStr (Some s)] ,, Ret (inr None)
    else
      let cc := cc * 2 in
      Ret (inl (seq + n, total + n, if BUFSZ <? cc then BUFSZ else cc))
  else Ret (inr (Some total)).
Definition pipe1 (s : list Z) : uprog unit :=
  do (r, fds) := pipe_ in
  need (negb (r =? 0)) s "%s: pipe() failed" ,,
  do pid := fork_ in
  if pid =? 0 then
    close_ fds.1 ,,
    for_ 5 (fun n =>
      do w := write_ fds.2 (seq_bytes (1033 * n) 1033) in
      need (negb (w =? 1033)) s "%s: pipe1 oops 1") ,,
    exit_ 0
  else if 0 <? pid then
    close_ fds.2 ,,
    do r := ITree.iter (pipe1_read s fds.1) (0, 0, 1) in
    match r with
    | None => Ret tt
    | Some total =>
        needs (negb (total =? 5 * 1033)) "%s: pipe1 oops 3 total %d" [UInt total] ,,
        close_ fds.1 ,,
        do (_, xstatus) := wait_ undef in
        exit_ xstatus
    end
  else say "%s: fork() failed" [UStr (Some s)] ,, exit_ 1.

Definition preempt (s : list Z) : uprog unit :=
  do pid1 := fork_ in
  (if pid1 <? 0 then uprintf "%s: fork failed" [] ,, exit_ 1 else Ret tt) ,,
  (if pid1 =? 0 then ITree.spin else Ret tt) ,,
  do pid2 := fork_ in
  need (pid2 <? 0) s "%s: fork failed" ,,
  (if pid2 =? 0 then ITree.spin else Ret tt) ,,
  do (_, pfds) := pipe_ in
  do pid3 := fork_ in
  need (pid3 <? 0) s "%s: fork failed" ,,
  (if pid3 =? 0 then
     close_ pfds.1 ,,
     do n := write_ pfds.2 (chars "x") in
     (if negb (n =? 1) then uprintf "%s: preempt write error" [] else Ret tt) ,,
     close_ pfds.2 ,,
     ITree.spin
   else Ret tt) ,,
  close_ pfds.2 ,,
  do (n, _) := read_ pfds.1 BUFSZ in
  if negb (n =? 1) then uprintf "%s: preempt read error" [] else
  close_ pfds.1 ,,
  uprintf "kill... " [] ,,
  kill_ pid1 ,,
  kill_ pid2 ,,
  kill_ pid3 ,,
  uprintf "wait... " [] ,,
  wait0_ ,,
  wait0_ ,,
  wait0_ ,, Ret tt.

Definition exitwait (s : list Z) : uprog unit := for_ 100 (fun i =>
  do pid := fork_ in
  need (pid <? 0) s "%s: fork failed" ,,
  if negb (pid =? 0) then
    do (w, xstate) := wait_ undef in
    need (negb (w =? pid)) s "%s: wait wrong pid" ,,
    need (negb (i =? xstate)) s "%s: wait wrong exit status"
  else exit_ i).

Definition reparent_test (s : list Z) : uprog unit :=
  do master_pid := getpid_ in
  for_ 200 (fun i =>
    do pid := fork_ in
    need (pid <? 0) s "%s: fork failed" ,,
    if negb (pid =? 0) then
      do w := wait0_ in
      need (negb (w =? pid)) s "%s: wait wrong pid"
    else
      do pid2 := fork_ in
      (if pid2 <? 0 then kill_ master_pid ,, exit_ 1 else Ret tt) ,,
      exit_ 0) ,,
  exit_ 0.

Definition twochildren (s : list Z) : uprog unit := for_ 1000 (fun i =>
  do pid1 := fork_ in
  need (pid1 <? 0) s "%s: fork failed" ,,
  if pid1 =? 0 then exit_ 0 else
  do pid2 := fork_ in
  need (pid2 <? 0) s "%s: fork failed" ,,
  if pid2 =? 0 then exit_ 0 else
  wait0_ ,,
  wait0_ ,, Ret tt).

(** [wait(&xstatus)] [n] times, with [then_] after each. *)
Fixpoint wait_all (n : nat) (xstatus : Z) (then_ : Z -> uprog unit) : uprog unit :=
  match n with
  | O => Ret tt
  | S n' => do (_, xstatus) := wait_ xstatus in then_ xstatus ,, wait_all n' xstatus then_
  end.

Definition forkfork (s : list Z) : uprog unit :=
  for_ 2 (fun i =>
    do pid := fork_ in
    need_ (pid <? 0) s "%s: fork failed" ,,
    if pid =? 0 then
      for_ 200 (fun j =>
        do pid1 := fork_ in
        (if pid1 <? 0 then exit_ 1 else Ret tt) ,,
        (if pid1 =? 0 then exit_ 0 else Ret tt) ,,
        wait0_ ,, Ret tt) ,,
      exit_ 0
    else Ret tt) ,,
  wait_all 2 undef (fun xstatus => need_ (negb (xstatus =? 0)) s "%s: fork in child failed").

Definition forking (_ : unit) : uprog (unit + unit) :=
  do fd := open_ (chars "stopforking") 0 in
  (if 0 <=? fd then exit_ 0 else Ret tt) ,,
  do p := fork_ in
  (if p <? 0 then touch_ (chars "stopforking") O_CRW else Ret tt) ,,
  Ret (inl tt).
Definition forkforkfork (s : list Z) : uprog unit :=
  unlink_ (chars "stopforking") ,,
  do pid := fork_ in
  need_ (pid <? 0) s "%s: fork failed" ,,
  (if pid =? 0 then
     ITree.iter forking tt ,,
     exit_ 0
   else Ret tt) ,,
  sleep_ 20 ,,
  touch_ (chars "stopforking") O_CRW ,,
  wait0_ ,,
  sleep_ 10 ,, Ret tt.

Definition reparent2 (s : list Z) : uprog unit :=
  for_ 800 (fun i =>
    do pid1 := fork_ in
    needs (pid1 <? 0) "fork failed" [] ,,
    (if pid1 =? 0 then fork_ ,, fork_ ,, exit_ 0 else Ret tt) ,,
    wait0_ ,, Ret tt) ,,
  exit_ 0.

(** Allocates all memory, linked through its first words, and frees it. *)
Definition mem_test (s : list Z) : uprog unit :=
  do pid := fork_ in
  if pid =? 0 then
    do m1 := ITree.iter (fun m1 =>
      do m2 := malloc_ 10001 in
      if negb (m2 =? 0) then store_ 8 m2 m1 ,, Ret (inl m2) else Ret (inr m1)) 0 in
    ITree.iter (fun m1 =>
      if negb (m1 =? 0) then do m2 := load_ 8 m1 in free_ m1 ,, Ret (inl m2) else Ret (inr tt)) m1 ,,
    do m1 := malloc_ (1024 * 20) in
    needs (m1 =? 0) "couldn't allocate mem?!!" [UStr (Some s)] ,,
    free_ m1 ,,
    exit_ 0
  else
    do (_, xstatus) := wait_ undef in
    if xstatus =? -1 then exit_ 0 else exit_ xstatus.

(** ** Several processes and the file system *)

(** The loop that counts; [buf] keeps its old bytes after a short read. *)
Definition sharedfd_read (fd : Z) (v : Z * Z * list Z) : uprog (Z * Z * list Z + Z * Z) :=
  let '(nc, np, buf) := v in
  do (n, b) := read_ fd 10 in
  if 0 <? n then
    let buf := into buf b in
    Ret (inl (nc + Z.of_nat (length (filter (fun c => c = 99) buf)), np + Z.of_nat (length (filter (fun c => c = 112) buf)), buf))
  else Ret (inr (nc, np)).
Definition sharedfd (s : list Z) : uprog unit :=
  unlink_ (chars "sharedfd") ,,
  do fd := open_ (chars "sharedfd") O_CRW in
  need_ (fd <? 0) s "%s: cannot open sharedfd for writing" ,,
  do pid := fork_ in
  let buf := replicate 10 (if pid =? 0 then 99 else 112) in
  for_ 1000 (fun i =>
    do n := write_ fd buf in
    need (negb (n =? 10)) s "%s: write sharedfd failed") ,,
  (if pid =? 0 then exit_ 0 else
   do (_, xstatus) := wait_ undef in
   if negb (xstatus =? 0) then exit_ xstatus else Ret tt) ,,
  close_ fd ,,
  do fd := open_ (chars "sharedfd") 0 in
  need (fd <? 0) s "%s: cannot open sharedfd for reading" ,,
  do (nc, np) := ITree.iter (sharedfd_read fd) (0, 0, buf) in
  close_ fd ,,
  unlink_ (chars "sharedfd") ,,
  if (nc =? 1000 * 10) && (np =? 1000 * 10) then exit_ 0
  else say "%s: nc/np test fails" [UStr (Some s)] ,, exit_ 1.

(** The loop that reads a file of [fourfiles] back. *)
Definition fourfiles_read (s : list Z) (fd i total : Z) : uprog (Z + Z) :=
  do (n, b) := read_ fd BUFSZ in
  if 0 <? n then
    (if bool_decide (Forall (fun c => c = 48 + i) (take (Z.to_nat n) b)) then Ret tt
     else say "wrong char" [UStr (Some s)] ,, exit_ 1) ,,
    Ret (inl (total + n))
  else Ret (inr total).
Definition fourfiles (s : list Z) : uprog unit :=
  let fname (i : Z) := [102; 48 + i] in
  for_ 4 (fun pi =>
    unlink_ (fname pi) ,,
    do pid := fork_ in
    needs (pid <? 0) "fork failed" [UStr (Some s)] ,,
    if pid =? 0 then
      do fd := open_ (fname pi) O_CRW in
      needs (fd <? 0) "create failed" [UStr (Some s)] ,,
      for_ 12 (fun i =>
        do n := write_ fd (replicate 500 (48 + pi)) in
        needs (negb (n =? 500)) "write failed %d" [UInt n]) ,,
      exit_ 0
    else Ret tt) ,,
  wait_all 4 undef (fun xstatus => if negb (xstatus =? 0) then exit_ xstatus else Ret tt) ,,
  for_ 4 (fun i =>
    do fd := open_ (fname i) 0 in
    do total := ITree.iter (fourfiles_read s fd i) 0 in
    close_ fd ,,
    needs (negb (total =? 12 * 500)) "wrong length %d" [UInt total] ,,
    unlink_ (fname i) ,, Ret tt).

Definition createdelete (s : list Z) : uprog unit :=
  let name (a i : Z) := [112 + a; 48 + i] in
  for_ 4 (fun pi =>
    do pid := fork_ in
    needs (pid <? 0) "fork failed" [UStr (Some s)] ,,
    if pid =? 0 then
      for_ 20 (fun i =>
        do fd := open_ (name pi i) O_CRW in
        need (fd <? 0) s "%s: create failed" ,,
        close_ fd ,,
        if (0 <? i) && (i mod 2 =? 0) then
          do r := unlink_ (name pi (i / 2)) in
          need (r <? 0) s "%s: unlink failed"
        else Ret tt) ,,
      exit_ 0
    else Ret tt) ,,
  wait_all 4 undef (fun xstatus => if negb (xstatus =? 0) then exit_ 1 else Ret tt) ,,
  for_ 20 (fun i => for_ 4 (fun pi =>
    do fd := open_ (name pi i) 0 in
    (if ((i =? 0) || (20 / 2 <=? i)) && (fd <? 0) then
       say "%s: oops createdelete %s didn't exist" [UStr (Some s); UStr (Some (name pi i))] ,, exit_ 1
     else if ((1 <=? i) && (i <? 20 / 2)) && (0 <=? fd) then
       say "%s: oops createdelete %s did exist" [UStr (Some s); UStr (Some (name pi i))] ,, exit_ 1
     else Ret tt) ,,
    if 0 <=? fd then close_ fd ,, Ret tt else Ret tt)) ,,
  (* the code has 'p' + i here, not 'p' + pi *)
  for_ 20 (fun i => for_ 4 (fun pi => unlink_ (name i i) ,, Ret tt)).

Definition unlinkread (s : list Z) : uprog unit :=
  do fd := open_ (chars "unlinkread") O_CRW in
  need (fd <? 0) s "%s: create unlinkread failed" ,,
  write_ fd (chars "hello") ,,
  close_ fd ,,
  do fd := open_ (chars "unlinkread") O_RDWR in
  need (fd <? 0) s "%s: open unlinkread failed" ,,
  do r := unlink_ (chars "unlinkread") in
  need (negb (r =? 0)) s "%s: unlink unlinkread failed" ,,
  do fd1 := open_ (chars "unlinkread") O_CRW in
  write_ fd1 (chars "yyy") ,,
  close_ fd1 ,,
  do (n, b) := read_ fd BUFSZ in
  need_ (negb (n =? 5)) s "%s: unlinkread read failed" ,,
  let buf := into (replicate (Z.to_nat BUFSZ) 0) b in
  need (negb (nth 0 buf 0 =? 104)) s "%s: unlinkread wrong data" ,,
  do n := write_ fd (take 10 buf) in
  need (negb (n =? 10)) s "%s: unlinkread write failed" ,,
  close_ fd ,,
  unlink_ (chars "unlinkread") ,, Ret tt.

Definition linktest (s : list Z) : uprog unit :=
  unlink_ (chars "lf1") ,,
  unlink_ (chars "lf2") ,,
  do fd := open_ (chars "lf1") O_CRW in
  need (fd <? 0) s "%s: create lf1 failed" ,,
  do n := write_ fd (chars "hello") in
  need (negb (n =? 5)) s "%s: write lf1 failed" ,,
  close_ fd ,,
  do r := link_ (chars "lf1") (chars "lf2") in
  need (r <? 0) s "%s: link lf1 lf2 failed" ,,
  unlink_ (chars "lf1") ,,
  do r := open_ (chars "lf1") 0 in
  need (0 <=? r) s "%s: unlinked lf1 but it is still there!" ,,
  do fd := open_ (chars "lf2") 0 in
  need (fd <? 0) s "%s: open lf2 failed" ,,
  do (n, _) := read_ fd BUFSZ in
  need (negb (n =? 5)) s "%s: read lf2 failed" ,,
  close_ fd ,,
  do r := link_ (chars "lf2") (chars "lf2") in
  need (0 <=? r) s "%s: link lf2 lf2 succeeded! oops" ,,
  unlink_ (chars "lf2") ,,
  do r := link_ (chars "lf2") (chars "lf1") in
  need (0 <=? r) s "%s: link non-existant succeeded! oops" ,,
  do r := link_ (chars ".") (chars "lf1") in
  need (0 <=? r) s "%s: link . lf1 succeeded! oops".

(** The loop over the directory: [de], [fa] and [n]. *)
Definition concreate_read (s : list Z) (fd : Z) (v : list Z * list Z * Z) : uprog (list Z * list Z * Z + Z) :=
  let '(de, fa, n) := v in
  do (r, b) := read_ fd 16 in
  let de := into de b in
  if 0 <? r then
    if ls_inum de =? 0 then Ret (inl (de, fa, n)) else
    if (nth 2 de 0 =? 67) && (nth 4 de 0 =? 0) then
      let i := nth 3 de 0 - 48 in
      needs ((i <? 0) || (40 <=? i)) "%s: concreate weird file %s" [UStr (Some s); UStr (Some (ls_name de))] ,,
      needs (negb (nth (Z.to_nat i) fa 0 =? 0)) "%s: concreate duplicate file %s" [UStr (Some s); UStr (Some (ls_name de))] ,,
      Ret (inl (de, <[Z.to_nat i := 1]> fa, n + 1))
    else Ret (inl (de, fa, n))
  else Ret (inr n).
Definition concreate (s : list Z) : uprog unit :=
  let file (i : Z) := [67; 48 + i] in
  for_ 40 (fun i =>
    unlink_ (file i) ,,
    do pid := fork_ in
    (if negb (pid =? 0) && (i mod 3 =? 1) then link_ (chars "C0") (file i) ,, Ret tt
     else if (pid =? 0) && (i mod 5 =? 1) then link_ (chars "C0") (file i) ,, Ret tt
     else
       do fd := open_ (file i) O_CRW in
       needs (fd <? 0) "concreate create %s failed" [UStr (Some (file i))] ,,
       close_ fd ,, Ret tt) ,,
    if pid =? 0 then exit_ 0 else
    do (_, xstatus) := wait_ undef in
    if negb (xstatus =? 0) then exit_ 1 else Ret tt) ,,
  do fd := open_ (chars ".") 0 in
  do n := ITree.iter (concreate_read s fd) (replicate 16 undef, replicate 40 0, 0) in
  close_ fd ,,
  need (negb (n =? 40)) s "%s: concreate not enough files in directory listing" ,,
  for_ 40 (fun i =>
    do pid := fork_ in
    need (pid <? 0) s "%s: fork failed" ,,
    (if ((i mod 3 =? 0) && (pid =? 0)) || ((i mod 3 =? 1) && negb (pid =? 0)) then for_ 6 (fun _ => touch_ (file i) 0)
     else for_ 6 (fun _ => unlink_ (file i) ,, Ret tt)) ,,
    if pid =? 0 then exit_ 0 else wait0_ ,, Ret tt).

(** [x = x * 1103515245 + 12345] in 32 bits, and what is done with it. *)
Fixpoint linkunlink_loop (n : nat) (x : Z) : uprog unit :=
  match n with
  | O => Ret tt
  | S n' =>
      let x := wrap32 (x * 1103515245 + 12345) in
      (if x mod 3 =? 0 then touch_ (chars "x") (Z.lor O_RDWR O_CREATE)
       else if x mod 3 =? 1 then link_ (chars "cat") (chars "x") ,, Ret tt
       else unlink_ (chars "x") ,, Ret tt) ,,
      linkunlink_loop n' x
  end.
Definition linkunlink (s : list Z) : uprog unit :=
  unlink_ (chars "x") ,,
  do pid := fork_ in
  need (pid <? 0) s "%s: fork failed" ,,
  linkunlink_loop 100 (if negb (pid =? 0) then 1 else 97) ,,
  if negb (pid =? 0) then wait0_ ,, Ret tt else exit_ 0.

Definition bigdir (s : list Z) : uprog unit :=
  let name (i : Z) := [120; 48 + i / 64; 48 + i mod 64] in
  unlink_ (chars "bd") ,,
  do fd := open_ (chars "bd") O_CREATE in
  need (fd <? 0) s "%s: bigdir create failed" ,,
  close_ fd ,,
  for_ 500 (fun i =>
    do r := link_ (chars "bd") (name i) in
    needs (negb (r =? 0)) "%s: bigdir link(bd, %s) failed" [UStr (Some s); UStr (Some (name i))]) ,,
  unlink_ (chars "bd") ,,
  for_ 500 (fun i =>
    do r := unlink_ (name i) in
    need_ (negb (r =? 0)) s "%s: bigdir unlink failed").

(** ** Directories *)

(** The first part of [subdir]: a file and a directory in a directory. *)
Definition subdir_make (s : list Z) : uprog unit :=
  unlink_ (chars "ff") ,,
  do r := mkdir_ (chars "dd") in
  need (negb (r =? 0)) s "%s: mkdir dd failed" ,,
  do fd := open_ (chars "dd/ff") O_CRW in
  need (fd <? 0) s "%s: create dd/ff failed" ,,
  write_ fd (chars "ff") ,,
  close_ fd ,,
  do r := unlink_ (chars "dd") in
  need (0 <=? r) s "%s: unlink dd (non-empty dir) succeeded!" ,,
  do r := mkdir_ (chars "/dd/dd") in
  needs (negb (r =? 0)) "subdir mkdir dd/dd failed" [UStr (Some s)] ,,
  do fd := open_ (chars "dd/dd/ff") O_CRW in
  need (fd <? 0) s "%s: create dd/dd/ff failed" ,,
  write_ fd (chars "FF") ,,
  close_ fd ,,
  do fd := open_ (chars "dd/dd/../ff") 0 in
  need (fd <? 0) s "%s: open dd/dd/../ff failed" ,,
  do (cc, buf) := read_ fd BUFSZ in
  need (negb (cc =? 2) || negb (nth 0 buf 0 =? 102)) s "%s: dd/dd/../ff wrong content" ,,
  close_ fd ,,
  do r := link_ (chars "dd/dd/ff") (chars "dd/dd/ffff") in
  needs (negb (r =? 0)) "link dd/dd/ff dd/dd/ffff failed" [UStr (Some s)] ,,
  do r := unlink_ (chars "dd/dd/ff") in
  need (negb (r =? 0)) s "%s: unlink dd/dd/ff failed" ,,
  do r := open_ (chars "dd/dd/ff") O_RDONLY in
  need (0 <=? r) s "%s: open (unlinked) dd/dd/ff succeeded" ,,
  do r := chdir_ (chars "dd") in
  need (negb (r =? 0)) s "%s: chdir dd failed" ,,
  do r := chdir_ (chars "dd/../../dd") in
  need (negb (r =? 0)) s "%s: chdir dd/../../dd failed" ,,
  do r := chdir_ (chars "dd/../../../dd") in
  needs (negb (r =? 0)) "chdir dd/../../dd failed" [UStr (Some s)] ,,
  do r := chdir_ (chars "./..") in
  need (negb (r =? 0)) s "%s: chdir ./.. failed" ,,
  do fd := open_ (chars "dd/dd/ffff") 0 in
  need (fd <? 0) s "%s: open dd/dd/ffff failed" ,,
  do (n, _) := read_ fd BUFSZ in
  need (negb (n =? 2)) s "%s: read dd/dd/ffff wrong len" ,,
  close_ fd ,, Ret tt.
(** The second part: what must fail, and the removal. *)
Definition subdir_refuse (s : list Z) : uprog unit :=
  do r := open_ (chars "dd/dd/ff") O_RDONLY in
  need (0 <=? r) s "%s: open (unlinked) dd/dd/ff succeeded!" ,,
  do r := open_ (chars "dd/ff/ff") O_CRW in
  need (0 <=? r) s "%s: create dd/ff/ff succeeded!" ,,
  do r := open_ (chars "dd/xx/ff") O_CRW in
  need (0 <=? r) s "%s: create dd/xx/ff succeeded!" ,,
  do r := open_ (chars "dd") O_CREATE in
  need (0 <=? r) s "%s: create dd succeeded!" ,,
  do r := open_ (chars "dd") O_RDWR in
  need (0 <=? r) s "%s: open dd rdwr succeeded!" ,,
  do r := open_ (chars "dd") O_WRONLY in
  need (0 <=? r) s "%s: open dd wronly succeeded!" ,,
  do r := link_ (chars "dd/ff/ff") (chars "dd/dd/xx") in
  need (r =? 0) s "%s: link dd/ff/ff dd/dd/xx succeeded!" ,,
  do r := link_ (chars "dd/xx/ff") (chars "dd/dd/xx") in
  need (r =? 0) s "%s: link dd/xx/ff dd/dd/xx succeeded!" ,,
  do r := link_ (chars "dd/ff") (chars "dd/dd/ffff") in
  need (r =? 0) s "%s: link dd/ff dd/dd/ffff succeeded!" ,,
  do r := mkdir_ (chars "dd/ff/ff") in
  need (r =? 0) s "%s: mkdir dd/ff/ff succeeded!" ,,
  do r := mkdir_ (chars "dd/xx/ff") in
  need (r =? 0) s "%s: mkdir dd/xx/ff succeeded!" ,,
  do r := mkdir_ (chars "dd/dd/ffff") in
  need (r =? 0) s "%s: mkdir dd/dd/ffff succeeded!" ,,
  do r := unlink_ (chars "dd/xx/ff") in
  need (r =? 0) s "%s: unlink dd/xx/ff succeeded!" ,,
  do r := unlink_ (chars "dd/ff/ff") in
  need (r =? 0) s "%s: unlink dd/ff/ff succeeded!" ,,
  do r := chdir_ (chars "dd/ff") in
  need (r =? 0) s "%s: chdir dd/ff succeeded!" ,,
  do r := chdir_ (chars "dd/xx") in
  need (r =? 0) s "%s: chdir dd/xx succeeded!" ,,
  do r := unlink_ (chars "dd/dd/ffff") in
  need (negb (r =? 0)) s "%s: unlink dd/dd/ff failed" ,,
  do r := unlink_ (chars "dd/ff") in
  need (negb (r =? 0)) s "%s: unlink dd/ff failed" ,,
  do r := unlink_ (chars "dd") in
  need (r =? 0) s "%s: unlink non-empty dd succeeded!" ,,
  do r := unlink_ (chars "dd/dd") in
  need (r <? 0) s "%s: unlink dd/dd failed" ,,
  do r := unlink_ (chars "dd") in
  need (r <? 0) s "%s: unlink dd failed".
Definition subdir (s : list Z) : uprog unit := subdir_make s ,, subdir_refuse s.

Definition bigwrite (s : list Z) : uprog unit :=
  unlink_ (chars "bigwrite") ,,
  for_in (steps 499 ((MAXOPBLOCKS + 2) * BSIZE) 471) (fun sz =>
    do fd := open_ (chars "bigwrite") O_CRW in
    need (fd <? 0) s "%s: cannot create bigwrite" ,,
    for_ 2 (fun i =>
      do cc := write_ fd (replicate (Z.to_nat sz) 0) in
      needs (negb (cc =? sz)) "%s: write(%d) ret %d" [UStr (Some s); UInt sz; UInt cc]) ,,
    close_ fd ,,
    unlink_ (chars "bigwrite") ,, Ret tt).

(** The loop that reads half a chunk: [i] and [total]. *)
Definition bigfile_read (s : list Z) (fd : Z) (v : Z * Z) : uprog (Z * Z + Z) :=
  let '(i, total) := v in
  do (cc, buf) := read_ fd 300 in
  need (cc <? 0) s "%s: read bigfile failed" ,,
  if cc =? 0 then Ret (inr total) else
  need (negb (cc =? 300)) s "%s: short read bigfile" ,,
  need (negb (nth 0 buf 0 =? i / 2) || negb (nth 299 buf 0 =? i / 2)) s "%s: read bigfile wrong data" ,,
  Ret (inl (i + 1, total + cc)).
Definition bigfile (s : list Z) : uprog unit :=
  unlink_ (chars "bigfile.dat") ,,
  do fd := open_ (chars "bigfile.dat") O_CRW in
  need_ (fd <? 0) s "%s: cannot create bigfile" ,,
  for_ 20 (fun i =>
    do n := write_ fd (replicate 600 i) in
    need (negb (n =? 600)) s "%s: write bigfile failed") ,,
  close_ fd ,,
  do fd := open_ (chars "bigfile.dat") 0 in
  need (fd <? 0) s "%s: cannot open bigfile" ,,
  do total := ITree.iter (bigfile_read s fd) (0, 0) in
  close_ fd ,,
  need (negb (total =? 20 * 600)) s "%s: read bigfile wrong total" ,,
  unlink_ (chars "bigfile.dat") ,, Ret tt.

Definition fourteen (s : list Z) : uprog unit :=
  do r := mkdir_ (chars "12345678901234") in
  need (negb (r =? 0)) s "%s: mkdir 12345678901234 failed" ,,
  do r := mkdir_ (chars "12345678901234/123456789012345") in
  need (negb (r =? 0)) s "%s: mkdir 12345678901234/123456789012345 failed" ,,
  do fd := open_ (chars "123456789012345/123456789012345/123456789012345") O_CREATE in
  need (fd <? 0) s "%s: create 123456789012345/123456789012345/123456789012345 failed" ,,
  close_ fd ,,
  do fd := open_ (chars "12345678901234/12345678901234/12345678901234") 0 in
  need (fd <? 0) s "%s: open 12345678901234/12345678901234/12345678901234 failed" ,,
  close_ fd ,,
  do r := mkdir_ (chars "12345678901234/12345678901234") in
  need (r =? 0) s "%s: mkdir 12345678901234/12345678901234 succeeded!" ,,
  do r := mkdir_ (chars "123456789012345/12345678901234") in
  need (r =? 0) s "%s: mkdir 12345678901234/123456789012345 succeeded!" ,,
  unlink_ (chars "123456789012345/12345678901234") ,,
  unlink_ (chars "12345678901234/12345678901234") ,,
  unlink_ (chars "12345678901234/12345678901234/12345678901234") ,,
  unlink_ (chars "123456789012345/123456789012345/123456789012345") ,,
  unlink_ (chars "12345678901234/123456789012345") ,,
  unlink_ (chars "12345678901234") ,, Ret tt.

Definition rmdot (s : list Z) : uprog unit :=
  do r := mkdir_ (chars "dots") in
  need (negb (r =? 0)) s "%s: mkdir dots failed" ,,
  do r := chdir_ (chars "dots") in
  need (negb (r =? 0)) s "%s: chdir dots failed" ,,
  do r := unlink_ (chars ".") in
  need (r =? 0) s "%s: rm . worked!" ,,
  do r := unlink_ (chars "..") in
  need (r =? 0) s "%s: rm .. worked!" ,,
  do r := chdir_ (chars "/") in
  need (negb (r =? 0)) s "%s: chdir / failed" ,,
  do r := unlink_ (chars "dots/.") in
  need (r =? 0) s "%s: unlink dots/. worked!" ,,
  do r := unlink_ (chars "dots/..") in
  need (r =? 0) s "%s: unlink dots/.. worked!" ,,
  do r := unlink_ (chars "dots") in
  need (negb (r =? 0)) s "%s: unlink dots failed!".

Definition dirfile (s : list Z) : uprog unit :=
  do fd := open_ (chars "dirfile") O_CREATE in
  need (fd <? 0) s "%s: create dirfile failed" ,,
  close_ fd ,,
  do r := chdir_ (chars "dirfile") in
  need (r =? 0) s "%s: chdir dirfile succeeded!" ,,
  do fd := open_ (chars "dirfile/xx") 0 in
  need (0 <=? fd) s "%s: create dirfile/xx succeeded!" ,,
  do fd := open_ (chars "dirfile/xx") O_CREATE in
  need (0 <=? fd) s "%s: create dirfile/xx succeeded!" ,,
  do r := mkdir_ (chars "dirfile/xx") in
  need (r =? 0) s "%s: mkdir dirfile/xx succeeded!" ,,
  do r := unlink_ (chars "dirfile/xx") in
  need (r =? 0) s "%s: unlink dirfile/xx succeeded!" ,,
  do r := link_ (chars "README") (chars "dirfile/xx") in
  need (r =? 0) s "%s: link to dirfile/xx succeeded!" ,,
  do r := unlink_ (chars "dirfile") in
  need (negb (r =? 0)) s "%s: unlink dirfile failed!" ,,
  do fd := open_ (chars ".") O_RDWR in
  need (0 <=? fd) s "%s: open . for writing succeeded!" ,,
  do fd := open_ (chars ".") 0 in
  do n := write_ fd (chars "x") in
  need (0 <? n) s "%s: write . succeeded!" ,,
  close_ fd ,, Ret tt.

Definition iref_test (s : list Z) : uprog unit :=
  for_ (NINODE + 1) (fun i =>
    do r := mkdir_ (chars "irefd") in
    need (negb (r =? 0)) s "%s: mkdir irefd failed" ,,
    do r := chdir_ (chars "irefd") in
    need (negb (r =? 0)) s "%s: chdir irefd failed" ,,
    mkdir_ [] ,,
    link_ (chars "README") [] ,,
    do fd := open_ [] O_CREATE in
    (if 0 <=? fd then close_ fd ,, Ret tt else Ret tt) ,,
    do fd := open_ (chars "xx") O_CREATE in
    (if 0 <=? fd then close_ fd ,, Ret tt else Ret tt) ,,
    unlink_ (chars "xx") ,, Ret tt) ,,
  for_ (NINODE + 1) (fun i =>
    chdir_ (chars "..") ,,
    unlink_ (chars "irefd") ,, Ret tt) ,,
  chdir_ (chars "/") ,, Ret tt.

(** [fork_body] of Uprogs.v is the first loop: both stop after 1000 forks. *)
Definition forktest_waits (s : list Z) (n : Z) : uprog (Z + unit) :=
  if 0 <? n then
    do r := wait0_ in
    need (r <? 0) s "%s: wait stopped early" ,,
    Ret (inl (n - 1))
  else Ret (inr tt).
Definition forktest_test (s : list Z) : uprog unit :=
  do n := ITree.iter fork_body 0 in
  need (n =? 0) s "%s: no fork at all!" ,,
  need (n =? 1000) s "%s: fork claimed to work 1000 times!" ,,
  ITree.iter (forktest_waits s) n ,,
  do r := wait0_ in
  need (negb (r =? -1)) s "%s: wait got too many".

(** ** Memory *)

(** [for(b = lo; b < hi; b += 4096) *b = x]. *)
Definition fill_pages (hi x b : Z) : uprog (Z + unit) :=
  if b <? hi then store_ 1 b x ,, Ret (inl (b + 4096)) else Ret (inr tt).

(** The loop of 5000 calls of sbrk(1): [i] and [a]. *)
Definition sbrk_bytes (v : Z * Z) : uprog (Z * Z + Z) :=
  let '(i, a) := v in
  if i <? 5000 then
    do b := sbrk_ 1 in
    needs (negb (b =? a)) "%s: sbrk test failed %d %x %x" [UInt i; UInt a; UInt b] ,,
    store_ 1 b 1 ,,
    Ret (inl (i + 1, b + 1))
  else Ret (inr a).
Definition sbrkbasic (s : list Z) : uprog unit :=
  let TOOMUCH := 1024 * 1024 * 1024 in
  do pid := fork_ in
  needs (pid <? 0) "fork failed in sbrkbasic" [] ,,
  (if pid =? 0 then
     do a := sbrk_ TOOMUCH in
     (if a =? MAX64 then exit_ 0 else Ret tt) ,,
     ITree.iter (fill_pages (a + TOOMUCH) 99) a ,,
     exit_ 1
   else Ret tt) ,,
  do (_, xstatus) := wait_ undef in
  need (xstatus =? 1) s "%s: too much memory allocated!" ,,
  do a := sbrk_ 0 in
  do a := ITree.iter sbrk_bytes (0, a) in
  do pid := fork_ in
  need (pid <? 0) s "%s: sbrk test fork failed" ,,
  sbrk_ 1 ,,
  do c := sbrk_ 1 in
  need (negb (c =? a + 1)) s "%s: sbrk test failed post-fork" ,,
  (if pid =? 0 then exit_ 0 else Ret tt) ,,
  do (_, xstatus) := wait_ xstatus in
  exit_ xstatus.

Definition sbrkmuch (s : list Z) : uprog unit :=
  let BIG := 100 * 1024 * 1024 in
  do oldbrk := sbrk_ 0 in
  do a := sbrk_ 0 in
  let amt := wrap64 (BIG - a) in
  do p := sbrk_ (s32 amt) in
  need (negb (p =? a)) s "%s: sbrk test failed to grow big address space; enough phys mem?" ,,
  do eee := sbrk_ 0 in
  ITree.iter (fill_pages eee 1) a ,,
  let lastaddr := BIG - 1 in
  store_ 1 lastaddr 99 ,,
  do a := sbrk_ 0 in
  do c := sbrk_ (- PGSIZE) in
  need (c =? MAX64) s "%s: sbrk could not deallocate" ,,
  do c := sbrk_ 0 in
  needs (negb (c =? wrap64 (a - PGSIZE))) "%s: sbrk deallocation produced wrong address, a %x c %x" [UInt a; UInt c] ,,
  do a := sbrk_ 0 in
  do c := sbrk_ PGSIZE in
  (if negb (c =? a) then say "%s: sbrk re-allocation failed, a %x c %x" [UInt a; UInt c] ,, exit_ 1 else
   do top := sbrk_ 0 in
   needs (negb (top =? wrap64 (a + PGSIZE))) "%s: sbrk re-allocation failed, a %x c %x" [UInt a; UInt c]) ,,
  do x := load_ 1 lastaddr in
  need (x =? 99) s "%s: sbrk de-allocation didn't really deallocate" ,,
  do a := sbrk_ 0 in
  do top := sbrk_ 0 in
  do c := sbrk_ (s32 (- (top - oldbrk))) in
  needs (negb (c =? a)) "%s: sbrk downsize failed, a %x c %x" [UInt a; UInt c].

Definition kernmem (s : list Z) : uprog unit := for_in (steps KERNBASE (KERNBASE + 2000000) 50000) (fun a =>
  do pid := fork_ in
  need (pid <? 0) s "%s: fork failed" ,,
  (if pid =? 0 then
     do x := load_ 1 a in
     say "%s: oops could read %x = %x" [UInt a; UInt x] ,, exit_ 1
   else Ret tt) ,,
  do (_, xstatus) := wait_ undef in
  if negb (xstatus =? -1) then exit_ 1 else Ret tt).

(** The children of [sbrkfail]: their pids. *)
Fixpoint sbrkfail_forks (n : nat) (fds : Z * Z) : uprog (list Z) :=
  match n with
  | O => Ret []
  | S n' =>
      do pid := fork_ in
      (if pid =? 0 then
         do top := sbrk_ 0 in
         sbrk_ (s32 (wrap64 (100 * 1024 * 1024 - top))) ,,
         write_ fds.2 (chars "x") ,,
         ITree.iter (fun _ : unit => sleep_ 1000 ,, Ret (inl tt)) tt
       else Ret tt) ,,
      (if negb (pid =? -1) then read_ fds.1 1 ,, Ret tt else Ret tt) ,,
      do pids := sbrkfail_forks n' fds in
      Ret (pid :: pids)
  end.
(** [for(i = 0; i < 10*BIG; i += PGSIZE) n += *(a+i)]: [i] and [n]. *)
Definition sum_pages (hi a : Z) (v : Z * Z) : uprog (Z * Z + Z) :=
  let '(i, n) := v in
  if i <? hi then do x := load_ 1 (a + i) in Ret (inl (i + PGSIZE, s32 (n + x))) else Ret (inr n).
Definition sbrkfail (s : list Z) : uprog unit :=
  let BIG := 100 * 1024 * 1024 in
  do (r, fds) := pipe_ in
  need (negb (r =? 0)) s "%s: pipe() failed" ,,
  do pids := sbrkfail_forks 10 fds in
  do c := sbrk_ PGSIZE in
  for_in pids (fun pid =>
    if pid =? -1 then Ret tt else
    kill_ pid ,,
    wait0_ ,, Ret tt) ,,
  need (c =? MAX64) s "%s: failed sbrk leaked memory" ,,
  do pid := fork_ in
  need (pid <? 0) s "%s: fork failed" ,,
  (if pid =? 0 then
     do a := sbrk_ 0 in
     sbrk_ (10 * BIG) ,,
     do n := ITree.iter (sum_pages (10 * BIG) a) (0, 0) in
     say "%s: allocate a lot of memory succeeded %d" [UInt n] ,, exit_ 1
   else Ret tt) ,,
  do (_, xstatus) := wait_ undef in
  if negb (xstatus =? -1) && negb (xstatus =? 2) then exit_ 1 else Ret tt.

Definition sbrkarg (s : list Z) : uprog unit :=
  do a := sbrk_ PGSIZE in
  do fd := open_ (chars "sbrk") O_CW in
  unlink_ (chars "sbrk") ,,
  need (fd <? 0) s "%s: open sbrk failed" ,,
  do n := raw_ n_write [Num fd; Num a; Num PGSIZE] in
  need (n <? 0) s "%s: write sbrk failed" ,,
  close_ fd ,,
  do a := sbrk_ PGSIZE in
  do r := raw_ n_pipe [Num a] in
  need (negb (r =? 0)) s "%s: pipe() failed".

Definition validatetest (s : list Z) : uprog unit :=
  let hi := 1100 * 1024 in
  for_in (steps 0 (hi + 1) PGSIZE) (fun p =>
    do r := raw_ n_link [Str (chars "nosuchfile"); Num p] in
    need (negb (r =? -1)) s "%s: link should not succeed").

Definition bsstest (s : list Z) : uprog unit := for_ 10000 (fun i =>
  do x := load_ 1 (uninit_addr + i) in
  need (negb (x =? 0)) s "%s: bss test failed").

(** ** More of exec, and the rest *)

Definition bigargtest (s : list Z) : uprog unit :=
  unlink_ (chars "bigarg-ok") ,,
  do pid := fork_ in
  if pid =? 0 then
    let arg := nl "bigargs test: failed" ++ replicate 199 32 in
    exec_ (chars "echo") (replicate (Z.to_nat (MAXARG - 1)) arg) ,,
    touch_ (chars "bigarg-ok") O_CREATE ,,
    exit_ 0
  else
  need (pid <? 0) s "%s: bigargtest: fork failed" ,,
  do (_, xstatus) := wait_ undef in
  (if negb (xstatus =? 0) then exit_ xstatus else Ret tt) ,,
  do fd := open_ (chars "bigarg-ok") 0 in
  need (fd <? 0) s "%s: bigarg test failed!" ,,
  close_ fd ,, Ret tt.

(** "f" and four digits. *)
Definition fsfull_name (n : Z) : list Z :=
  [102; wrap8 (48 + n / 1000); wrap8 (48 + (n mod 1000) / 100); wrap8 (48 + (n mod 100) / 10); wrap8 (48 + n mod 10)].
Definition fsfull_write (fd total : Z) : uprog (Z + Z) :=
  do cc := write_ fd (replicate (Z.to_nat BSIZE) 0) in
  if cc <? BSIZE then Ret (inr total) else Ret (inl (total + cc)).
Definition fsfull_make (nfiles : Z) : uprog (Z + Z) :=
  let name := fsfull_name nfiles in
  say "%s: writing %s" [UStr (Some name)] ,,
  do fd := open_ name O_CRW in
  if fd <? 0 then say "%s: open %s failed" [UStr (Some name)] ,, Ret (inr nfiles) else
  do total := ITree.iter (fsfull_write fd) 0 in
  say "%s: wrote %d bytes" [UInt total] ,,
  close_ fd ,,
  if total =? 0 then Ret (inr nfiles) else Ret (inl (nfiles + 1)).
Definition fsfull_unmake (nfiles : Z) : uprog (Z + unit) :=
  if 0 <=? nfiles then unlink_ (fsfull_name nfiles) ,, Ret (inl (nfiles - 1)) else Ret (inr tt).
Definition fsfull : uprog unit :=
  say "fsfull test" [] ,,
  do nfiles := ITree.iter fsfull_make 0 in
  ITree.iter fsfull_unmake nfiles ,,
  say "fsfull test finished" [].

Definition argptest (s : list Z) : uprog unit :=
  do fd := open_ (chars "init") O_RDONLY in
  need (fd <? 0) s "%s: open failed" ,,
  do top := sbrk_ 0 in
  raw_ n_read [Num fd; Num (wrap64 (top - 1)); Num (-1)] ,,
  close_ fd ,, Ret tt.

(** [rand]: the new [randstate] and the result. *)
Definition rand_test (randstate : Z) : Z * Z :=
  let r := wrap64 (randstate * 1664525 + 1013904223) in (r, wrap32 r).

Definition stacktest (s : list Z) : uprog unit :=
  do pid := fork_ in
  if pid =? 0 then
    do x := load_ 1 (wrap64 (sp - PGSIZE)) in
    say "%s: stacktest: read below stack %p" [UInt x] ,, exit_ 1
  else
  need (pid <? 0) s "%s: fork failed" ,,
  do (_, xstatus) := wait_ undef in
  if xstatus =? -1 then exit_ 0 else exit_ xstatus.

Definition pgbug (s : list Z) : uprog unit :=
  raw_ n_exec [Num 0xeaeb0b5b00002f5e; Ptrs []] ,,
  raw_ n_pipe [Num 0xeaeb0b5b00002f5e] ,,
  exit_ 0.

(** A child that changes its break by [n top] and exits. *)
Definition sbrkbugs_child (n : Z -> Z) (more : uprog unit) : uprog unit :=
  do pid := fork_ in
  needs (pid <? 0) "fork failed" [] ,,
  (if pid =? 0 then
     do top := sbrk_ 0 in
     sbrk_ (s32 (n top)) ,,
     more ,,
     exit_ 0
   else Ret tt) ,,
  wait0_ ,, Ret tt.
Definition sbrkbugs (s : list Z) : uprog unit :=
  sbrkbugs_child (fun top => - s32 top) (Ret tt) ,,
  sbrkbugs_child (fun top => - (s32 top - 3500)) (Ret tt) ,,
  sbrkbugs_child (fun top => wrap64 ((10 * 4096 + 2048) - top)) (sbrk_ (-10) ,, Ret tt) ,,
  exit_ 0.

Definition badwrite (s : list Z) : uprog unit :=
  unlink_ (chars "junk") ,,
  for_ 600 (fun i =>
    do fd := open_ (chars "junk") O_CW in
    needs (fd <? 0) "open junk failed" [] ,,
    raw_ n_write [Num fd; Num 0xffffffffff; Num 1] ,,
    close_ fd ,,
    unlink_ (chars "junk") ,, Ret tt) ,,
  do fd := open_ (chars "junk") O_CW in
  needs (fd <? 0) "open junk failed" [] ,,
  do n := write_ fd (chars "x") in
  needs (negb (n =? 1)) "write failed" [] ,,
  close_ fd ,,
  unlink_ (chars "junk") ,,
  exit_ 0.

Definition badarg (s : list Z) : uprog unit :=
  for_ 50000 (fun i => raw_ n_exec [Str (chars "echo"); Ptrs [0xffffffff]] ,, Ret tt) ,,
  exit_ 0.

(** [while(1)]: takes a page and touches its last byte. *)
Definition take_page (then_ : uprog unit) (_ : unit) : uprog (unit + unit) :=
  do a := sbrk_ 4096 in
  if a =? MAX64 then Ret (inr tt) else
  store_ 1 (wrap64 (a + 4096 - 1)) 1 ,,
  then_ ,,
  Ret (inl tt).
Definition execout (s : list Z) : uprog unit :=
  for_ 15 (fun avail =>
    do pid := fork_ in
    if pid <? 0 then say "fork failed" [] ,, exit_ 1
    else if pid =? 0 then
      ITree.iter (take_page (Ret tt)) tt ,,
      for_ avail (fun i => sbrk_ (-4096) ,, Ret tt) ,,
      close_ 1 ,,
      exec_ (chars "echo") [chars "echo"; chars "x"] ,,
      exit_ 0
    else wait0_ ,, Ret tt) ,,
  exit_ 0.

(** ** The runner *)

(** Counts what comes through the pipe. *)
Definition countfree_read (fd n : Z) : uprog (Z + Z) :=
  do (cc, _) := read_ fd 1 in
  needs (cc <? 0) "read() failed in countfree()" [] ,,
  if cc =? 0 then Ret (inr n) else Ret (inl (n + 1)).
Definition countfree : uprog Z :=
  do (r, fds) := pipe_ in
  needs (r <? 0) "pipe() failed in countfree()" [] ,,
  do pid := fork_ in
  needs (pid <? 0) "fork failed in countfree()" [] ,,
  (if pid =? 0 then
     close_ fds.1 ,,
     ITree.iter (take_page (
       do n := write_ fds.2 (chars "x") in
       needs (negb (n =? 1)) "write() failed in countfree()" [])) tt ,,
     exit_ 0
   else Ret tt) ,,
  close_ fds.2 ,,
  do n := ITree.iter (countfree_read fds.1) 0 in
  close_ fds.1 ,,
  wait0_ ,,
  Ret n.

Definition run_test (f : list Z -> uprog unit) (s : list Z) : uprog bool :=
  uprintf "test %s: " [UStr (Some s)] ,,
  do pid := fork_ in
  needs (pid <? 0) "runtest: fork error" [] ,,
  if pid =? 0 then f s ,, exit_ 0 else
  do (_, xstatus) := wait_ undef in
  (if negb (xstatus =? 0) then say "FAILED" [] else say "OK" []) ,,
  Ret (xstatus =? 0).

Definition tests : list ((list Z -> uprog unit) * string) := [
  (execout, "execout"); (copyin_test, "copyin"); (copyout_test, "copyout"); (copyinstr1, "copyinstr1");
  (copyinstr2, "copyinstr2"); (copyinstr3, "copyinstr3"); (truncate1, "truncate1"); (truncate2, "truncate2");
  (truncate3, "truncate3"); (reparent2, "reparent2"); (pgbug, "pgbug"); (sbrkbugs, "sbrkbugs");
  (badarg, "badarg"); (reparent_test, "reparent"); (twochildren, "twochildren"); (forkfork, "forkfork");
  (forkforkfork, "forkforkfork"); (argptest, "argptest"); (createdelete, "createdelete"); (linkunlink, "linkunlink");
  (linktest, "linktest"); (unlinkread, "unlinkread"); (concreate, "concreate"); (subdir, "subdir");
  (fourfiles, "fourfiles"); (sharedfd, "sharedfd"); (exectest, "exectest"); (bigargtest, "bigargtest");
  (bigwrite, "bigwrite"); (bsstest, "bsstest"); (sbrkbasic, "sbrkbasic"); (sbrkmuch, "sbrkmuch");
  (kernmem, "kernmem"); (sbrkfail, "sbrkfail"); (sbrkarg, "sbrkarg"); (validatetest, "validatetest");
  (stacktest, "stacktest"); (opentest, "opentest"); (writetest, "writetest"); (writebig, "writebig");
  (createtest, "createtest"); (openiputtest, "openiput"); (exitiputtest, "exitiput"); (iputtest, "iput");
  (mem_test, "mem"); (pipe1, "pipe1"); (preempt, "preempt"); (exitwait, "exitwait"); (rmdot, "rmdot");
  (fourteen, "fourteen"); (bigfile, "bigfile"); (dirfile, "dirfile"); (iref_test, "iref"); (forktest_test, "forktest");
  (bigdir, "bigdir")].

(** The loop of the continuous mode stops at the first failure. *)
Fixpoint run_until_fail (ts : list ((list Z -> uprog unit) * string)) : uprog bool :=
  match ts with
  | [] => Ret false
  | (f, s) :: ts' => do ok := run_test f (chars s) in if ok : bool then run_until_fail ts' else Ret true
  end.
Definition continuous_body (continuous : Z) (_ : unit) : uprog (unit + unit) :=
  do free0 := countfree in
  do fail := run_until_fail tests in
  (if fail : bool then
     say "SOME TESTS FAILED" [] ,,
     if negb (continuous =? 2) then exit_ 1 else Ret tt
   else Ret tt) ,,
  do free1 := countfree in
  (if free1 <? free0 then
     say "FAILED -- lost %d free pages" [UInt (free0 - free1)] ,,
     if negb (continuous =? 2) then exit_ 1 else Ret tt
   else Ret tt) ,,
  Ret (inl tt).

(** The loop that runs all tests, or the one that is named [justone]. *)
Fixpoint run_tests (justone : option (list Z)) (ts : list ((list Z -> uprog unit) * string)) (fail : bool) : uprog bool :=
  match ts with
  | [] => Ret fail
  | (f, s) :: ts' =>
      if match justone with None => true | Some n => bool_decide (chars s = n) end then
        do ok := run_test f (chars s) in run_tests justone ts' (if ok : bool then fail else true)
      else run_tests justone ts' fail
  end.
Definition run_all (justone : option (list Z)) (ts : list ((list Z -> uprog unit) * string)) : uprog unit :=
  say "usertests starting" [] ,,
  do free0 := countfree in
  do fail := run_tests justone ts false in
  if fail : bool then say "SOME TESTS FAILED" [] ,, exit_ 1 else
  do free1 := countfree in
  if free1 <? free0 then say "FAILED -- lost some free pages %d (out of %d)" [UInt free1; UInt free0] ,, exit_ 1
  else say "ALL TESTS PASSED" [] ,, exit_ 0.

Definition usertests_main (argv : list (list Z)) : uprog unit :=
  match argv with
  | [_; a] =>
      if bool_decide (a = chars "-c") then say "continuous usertests starting" [] ,, ITree.iter (continuous_body 1) tt
      else if bool_decide (a = chars "-C") then say "continuous usertests starting" [] ,, ITree.iter (continuous_body 2) tt
      else if negb (hd 0 a =? 45) then run_all (Some a) tests
      else say "Usage: usertests [-c] [testname]" [] ,, exit_ 1
  | _ =>
      if 1 <? Z.of_nat (length argv) then say "Usage: usertests [-c] [testname]" [] ,, exit_ 1
      else run_all None tests
  end.
End tests.

(** ** What the runner reports

    The kernel and the children are the handler [other]: the hypotheses say what
    its calls answer. *)

Section run.
Context (undef uninit_addr sp : Z).
Context (other : sysE ~> Monads.stateT env (itree stopE)).
#[local] Abbreviation run := (run other).
#[local] Abbreviation test := ((list Z -> uprog unit) * string)%type.

(** ** The calls *)

(** The counting process reports [n] pages: a pipe is made, the child writes [n]
    bytes to it, exits, and is waited for. *)
Definition counted (s : env) (n : nat) (s' : env) : Prop :=
  exists s1 r w s2 p q, r <> w /\ 0 < p /\
    eutt eq (other _ Spipe s) (Ret (s1, (0, (r, w)))) /\
    eutt eq (other _ Sfork s1) (Ret (s2, p)) /\
    fds s2 !! r = Some (replicate n 120) /\
    eutt eq (other _ Swait (Env (files s2) (delete r (delete w (fds s2))) (outs s2) (drop (S n) (sizes s2)))) (Ret (s', q)).

(** A process is forked for a test and exits with the status [st]. *)
Definition exited (s : env) (st : Z) (s' : env) : Prop :=
  exists s1 p q, 0 < p /\ eutt eq (other _ Sfork s) (Ret (s1, p)) /\ eutt eq (other _ Swaitst s1) (Ret (s', (q, Some st))).

Definition selected (justone : option (list Z)) (t : test) : bool :=
  match justone with None => true | Some n => bool_decide (chars t.2 = n) end.
Definition verdict (st : Z) : list Z := if st =? 0 then nl "OK" else nl "FAILED".

(** The tests that are selected exit with the statuses [sts], in order; the name
    of each test is printed before it runs and its verdict after. *)
Inductive results (justone : option (list Z)) : list test -> list Z -> env -> env -> Prop :=
| results_nil s : results justone [] [] s s
| results_skip t ts sts s s' : selected justone t = false -> results justone ts sts s s' -> results justone (t :: ts) sts s s'
| results_run t ts st sts s s1 s' : selected justone t = true ->
    exited (emit 1 (chars "test " ++ chars t.2 ++ chars ": ") s) st s1 ->
    results justone ts sts (emit 1 (verdict st) s1) s' -> results justone (t :: ts) (st :: sts) s s'.

(** ** The steps of the runner *)

Lemma run_say m args s : eutt eq (run (say m args) s) (Ret (emit 1 (format (nl m) args) s, tt)).
Proof. unfold say. rewrite <- run_putcs. apply run_proper. apply (proj1 (vprintf_text 1 (nl m) args)). Qed.

Lemma run_countfree_read r n : forall s k, fds s !! r = Some (replicate n 120) ->
  eutt eq (run (ITree.iter (countfree_read r) k) s)
    (Ret (Env (files s) (<[r := []]> (fds s)) (outs s) (drop (S n) (sizes s)), k + Z.of_nat n)).
Proof.
  induction n as [|n IH]; intros s k H; apply run_iter; unfold countfree_read at 1; rewrite bind_bind;
    (eapply run_seq; [apply (run_read _ _ _ _ _ H)|]); cbn [replicate].
  - assert (read_size s 1 [] = 0%nat) as -> by (unfold read_size; cbn; lia). cbn.
    rewrite bind_bind. eapply run_seq; [apply run_ret|]. eapply run_seq; [apply run_ret|]. rewrite run_ret.
    replace (k + Z.of_nat 0) with k by lia. destruct (sizes s); reflexivity.
  - rewrite read_one. cbn. rewrite bind_bind. eapply run_seq; [apply run_ret|]. eapply run_seq; [apply run_ret|].
    rewrite IH by (cbn; by rewrite lookup_insert_eq). cbn. rewrite insert_insert_eq.
    replace (k + 1 + Z.of_nat n) with (k + Z.of_nat (S n)) by lia. destruct (sizes s); reflexivity.
Qed.

Lemma run_close_any fd s : exists r, eutt eq (run (close_ fd) s) (Ret (set_fds (delete fd (fds s)) s, r)).
Proof. exists (match fds s !! fd with Some _ => 0 | None => -1 end). unfold close_. by rewrite run_trigger. Qed.

Lemma run_countfree s n s' : counted s n s' -> eutt eq (run countfree s) (Ret (s', Z.of_nat n)).
Proof.
  intros (s1 & r & w & s2 & p & q & Hne & Hp & Hpipe & Hfork & Hr & Hwait). unfold countfree.
  eapply run_seq; [unfold pipe_; rewrite run_trigger; exact Hpipe|]. cbn -[ITree.iter].
  eapply run_seq; [apply run_ret|]. eapply run_seq; [unfold fork_; rewrite run_trigger; exact Hfork|].
  rewrite (proj2 (Z.ltb_ge p 0)), (proj2 (Z.eqb_neq p 0)) by lia. cbn [needs].
  eapply run_seq; [apply run_ret|]. eapply run_seq; [apply run_ret|].
  destruct (run_close_any w s2) as [x Hx]. eapply run_seq; [exact Hx|].
  eapply run_seq; [apply (run_countfree_read r n); cbn; by rewrite lookup_delete_ne|].
  edestruct (run_close_any r) as [y Hy]. eapply run_seq; [exact Hy|].
  eapply run_seq; [unfold wait0_; rewrite run_trigger; cbn [handle]|apply run_ret].
  cbn. rewrite delete_insert_eq. exact Hwait.
Qed.

Lemma run_run_test f m s st s' : exited (emit 1 (chars "test " ++ m ++ chars ": ") s) st s' ->
  eutt eq (run (run_test undef f m) s) (Ret (emit 1 (verdict st) s', st =? 0)).
Proof.
  intros (s1 & p & q & Hp & Hfork & Hwait). unfold run_test. eapply run_seq; [apply run_uprintf|].
  eapply run_seq; [unfold fork_; rewrite run_trigger; exact Hfork|].
  rewrite (proj2 (Z.ltb_ge p 0)), (proj2 (Z.eqb_neq p 0)) by lia. cbn [needs]. eapply run_seq; [apply run_ret|].
  eapply run_seq; [unfold wait_; eapply run_seq; [rewrite run_trigger; exact Hwait|apply run_ret]|]. change (default undef (Some st)) with st.
  unfold verdict. destruct (st =? 0); cbn [negb]; (eapply run_seq; [apply run_say|apply run_ret]).
Qed.

Lemma run_run_tests j ts sts s s' : results j ts sts s s' -> forall fail,
  eutt eq (run (run_tests undef j ts fail) s) (Ret (s', fail || existsb (fun st => negb (st =? 0)) sts)).
Proof.
  induction 1 as [s|[f m] ts sts s s' Hsel _ IH|[f m] ts st sts s s1 s' Hsel Hex _ IH]; intros fail; cbn [run_tests existsb].
  - rewrite orb_false_r. apply run_ret.
  - unfold selected in Hsel. cbn [snd] in Hsel. rewrite Hsel. apply IH.
  - unfold selected in Hsel. cbn [snd] in Hsel. rewrite Hsel. eapply run_seq; [apply run_run_test, Hex|]. rewrite IH.
    destruct (st =? 0), fail; reflexivity.
Qed.

Lemma results_count j ts sts s s' : results j ts sts s s' -> length sts = length (filter (selected j) ts).
Proof.
  induction 1 as [|t ts sts s s' Hsel _ IH|t ts st sts s s1 s' Hsel _ _ IH]; [done| |].
  - by rewrite filter_cons_False by (rewrite Hsel; tauto).
  - rewrite filter_cons_True by (by rewrite Hsel). cbn. by f_equal.
Qed.

(** What [main] takes from its arguments: all tests, or the one that is named. *)
Definition chooses (argv : list (list Z)) (j : option (list Z)) : Prop :=
  match j with
  | None => length argv = 1%nat
  | Some a => exists prog, argv = [prog; a] /\ head a <> Some 45
  end.

Lemma main_chooses argv j : chooses argv j -> usertests_main undef uninit_addr sp argv = run_all undef j (tests undef uninit_addr sp).
Proof.
  destruct j as [a|]; cbn [chooses].
  - intros (prog & -> & Ha). unfold usertests_main.
    rewrite !bool_decide_eq_false_2 by (intros ->; exact (Ha eq_refl)).
    assert (hd 0 a =? 45 = false) as -> by (destruct a; cbn in *; [done|]; apply Z.eqb_neq; congruence). reflexivity.
  - intros H. destruct argv as [|x [|y l]]; [discriminate H|reflexivity|discriminate H].
Qed.

Lemma some_failed sts : existsb (fun st => negb (st =? 0)) sts = negb (bool_decide (Forall (eq 0) sts)).
Proof.
  induction sts as [|st sts IH]; cbn; [done|]. rewrite IH. destruct (Z.eqb_spec st 0) as [->|Hne]; cbn.
  - f_equal. apply bool_decide_ext. rewrite Forall_cons. naive_solver.
  - rewrite bool_decide_eq_false_2; [done|]. rewrite Forall_cons. intros [<- _]. done.
Qed.

Definition lost (n1 n0 : nat) : list Z :=
  format (nl "FAILED -- lost some free pages %d (out of %d)") [UInt (Z.of_nat n1); UInt (Z.of_nat n0)].

End run.

(** A kernel in which every child exits with 0 and two pages are free. *)
Definition ex_kernel : sysE ~> Monads.stateT env (itree stopE) := fun R e s =>
  match e in sysE R return itree stopE (env * R) with
  | Sfork => Ret (s, 5)
  | Swait => Ret (s, 5)
  | Swaitst => Ret (s, (5, Some 0))
  | Spipe => Ret (set_fds (<[3 := replicate 2 120]> (<[4 := []]> (fds s))) s, (0, (3, 4)))
  | _ => ITree.spin
  end.

Lemma ex_counted s : exists s', counted ex_kernel s 2 s'.
Proof.
  eexists. exists (set_fds (<[3 := replicate 2 120]> (<[4 := []]> (fds s))) s), 3, 4. eexists. exists 5, 5.
  split; [discriminate|]. split; [lia|]. split; [reflexivity|]. cbn [ex_kernel]. split; [reflexivity|]. split; [|reflexivity].
  cbn [set_fds fds]. by rewrite lookup_insert_eq.
Qed.
Lemma ex_results ts : forall s, exists s', results ex_kernel None ts (replicate (length ts) 0) s s'.
Proof.
  induction ts as [|t ts IH]; intros s; [exists s; constructor|].
  destruct (IH (emit 1 (verdict 0) (emit 1 (chars "test " ++ chars t.2 ++ chars ": ") s))) as [s' Hs'].
  exists s'. cbn [length replicate]. eapply results_run; [reflexivity| |exact Hs'].
  eexists. exists 5, 5. split; [lia|]. cbn [ex_kernel]. split; reflexivity.
Qed.

