(* ===== verification/Sh.v ===== *)
(** * The shell (user/sh.c)

    The parser of the shell; [ShRun] has what [runcmd] does with a command.  The line
    being parsed lies between its start and [es]; a pointer [s] into it is the
    list of the characters from [s] up to [es], and is recorded in a command as
    its distance from [es], the length of that list.  A call of [panic] is a
    result, with what has been printed. *)

From S2P Require Import Prelude Fcntl Console.

Definition MAXARGS : Z := 10.

(** ** struct cmd

    A pair of pointers is the start and the end of a word, as in [argv[i]] and
    [eargv[i]] or [file] and [efile].  The null command is not produced. *)

Definition ptrs : Type := nat * nat.
Inductive cmd :=
| EXEC (argv : list ptrs)
| REDIR (c : cmd) (file : ptrs) (mode fd : Z)
| PIPE (left right : cmd)
| LIST (left right : cmd)
| BACK (c : cmd).

Inductive presult (A : Type) := POk (a : A) (s : list Z) | PPanic (out : list Z) | PFuel.
Arguments POk {A} a s.
Arguments PPanic {A} out.
Arguments PFuel {A}.

Definition pbind {A B} (r : presult A) (k : A -> list Z -> presult B) : presult B :=
  match r with POk a s => k a s | PPanic m => PPanic m | PFuel => PFuel end.
Definition panic_ {A} (msg : string) : presult A := PPanic (chars msg ++ [10]).
Notation "'let?' ( x , s ) := r 'in' k" := (pbind r (fun x s => k)) (at level 10, x name, s name, r at level 100, k at level 200).

(** ** Tokens *)

Definition whitespace : list Z := [32; 9; 13; 10; 11].
Definition symbols : list Z := [60; 124; 62; 38; 59; 40; 41].
Definition is_space (c : Z) : bool := bool_decide (c ∈ whitespace).
Definition is_symbol (c : Z) : bool := bool_decide (c ∈ symbols).
Definition is_word (c : Z) : bool := negb (is_space c) && negb (is_symbol c).

Fixpoint skip_space (s : list Z) : list Z :=
  match s with
  | c :: s' => if is_space c then skip_space s' else s
  | [] => []
  end.
Fixpoint skip_word (s : list Z) : list Z :=
  match s with
  | c :: s' => if is_word c then skip_word s' else s
  | [] => []
  end.

(** A token; a word with its pointers. *)
Inductive token := TEnd | TSym (c : Z) | TAppend | TWord (w : ptrs).

Definition gettoken (s : list Z) : token * list Z :=
  let s := skip_space s in
  match s with
  | [] => (TEnd, [])
  | c :: s' =>
      if is_symbol c then
        if c =? 62 then
          match s' with
          | d :: s'' => if d =? 62 then (TAppend, skip_space s'') else (TSym c, skip_space s')
          | [] => (TSym c, [])
          end
        else (TSym c, skip_space s')
      else
        let e := skip_word s in
        (TWord (length s, length e), skip_space e)
  end.

Definition peek (s : list Z) (toks : list Z) : bool * list Z :=
  let s := skip_space s in
  (match s with c :: _ => bool_decide (c ∈ toks) | [] => false end, s).

(** ** The parser *)

(** [parseredirs]: the redirections in the order they are wrapped around the
    command. *)
Definition redir : Type := ptrs * Z * Z.
Fixpoint parseredirs (fuel : nat) (rs : list redir) (s : list Z) : presult (list redir) :=
  let (yes, s) := peek s [60; 62] in
  if yes then
    match fuel with
    | O => PFuel
    | S fuel' =>
        let (tok, s) := gettoken s in
        let (file, s) := gettoken s in
        match file with
        | TWord w =>
            parseredirs fuel' (rs ++ match tok with
                                     | TAppend => [(w, Z.lor O_WRONLY O_CREATE, 1)]
                                     | TSym c =>
                                         if c =? 60 then [(w, O_RDONLY, 0)]
                                         else if c =? 62 then [(w, Z.lor (Z.lor O_WRONLY O_CREATE) O_TRUNC, 1)] else []
                                     | _ => []
                                     end) s
        | _ => panic_ "missing file for redirection"
        end
    end
  else POk rs s.
Definition redircmd (c : cmd) (r : redir) : cmd := REDIR c (r.1.1) (r.1.2) (r.2).
Definition redircmds (c : cmd) (rs : list redir) : cmd := foldl redircmd c rs.

(** The loop of [parseexec].  The [execcmd] is filled in while redirections are
    wrapped around it: it is built last, inside all of them. *)
Fixpoint parseargs (fuel : nat) (args : list ptrs) (rs : list redir) (s : list Z) : presult cmd :=
  let (stop, s) := peek s [124; 41; 38; 59] in
  if stop then POk (redircmds (EXEC args) rs) s else
  match fuel with
  | O => PFuel
  | S fuel' =>
      let (tok, s) := gettoken s in
      match tok with
      | TEnd => POk (redircmds (EXEC args) rs) s
      | TWord w =>
          let args := args ++ [w] in
          if MAXARGS <=? Z.of_nat (length args) then panic_ "too many args" else
          let? (rs, s) := parseredirs fuel' rs s in
          parseargs fuel' args rs s
      | _ => panic_ "syntax"
      end
  end.

(** The [&]s of [parseline]. *)
Fixpoint parseback (fuel : nat) (c : cmd) (s : list Z) : presult cmd :=
  let (yes, s) := peek s [38] in
  if yes then
    match fuel with
    | O => PFuel
    | S fuel' => let (_, s) := gettoken s in parseback fuel' (BACK c) s
    end
  else POk c s.

(** The recursive routines; each call has one unit of fuel less. *)
Fixpoint parseline (fuel : nat) (s : list Z) : presult cmd :=
  match fuel with
  | O => PFuel
  | S fuel' =>
      let? (c, s) := parsepipe fuel' s in
      let? (c, s) := parseback fuel' c s in
      let (yes, s) := peek s [59] in
      if yes then
        let (_, s) := gettoken s in
        let? (d, s) := parseline fuel' s in
        POk (LIST c d) s
      else POk c s
  end
with parsepipe (fuel : nat) (s : list Z) : presult cmd :=
  match fuel with
  | O => PFuel
  | S fuel' =>
      let? (c, s) := parseexec fuel' s in
      let (yes, s) := peek s [124] in
      if yes then
        let (_, s) := gettoken s in
        let? (d, s) := parsepipe fuel' s in
        POk (PIPE c d) s
      else POk c s
  end
with parseexec (fuel : nat) (s : list Z) : presult cmd :=
  match fuel with
  | O => PFuel
  | S fuel' =>
      let (yes, s) := peek s [40] in
      if yes then parseblock fuel' s else
      let? (rs, s) := parseredirs fuel' [] s in
      parseargs fuel' [] rs s
  end
with parseblock (fuel : nat) (s : list Z) : presult cmd :=
  match fuel with
  | O => PFuel
  | S fuel' =>
      let (yes, s) := peek s [40] in
      if negb yes then panic_ "parseblock" else
      let (_, s) := gettoken s in
      let? (c, s) := parseline fuel' s in
      let (yes, s) := peek s [41] in
      if negb yes then panic_ "syntax - missing )" else
      let (_, s) := gettoken s in
      let? (rs, s) := parseredirs fuel' [] s in
      POk (redircmds c rs) s
  end.

(** Four calls are nested for each opening parenthesis. *)
Definition parse_fuel (s : list Z) : nat := 4 * length s + 4.

(** [nulterminate] writes a null character at the end of every word; the
    buffer holds the line and its null character. *)
Definition put_nul (w : ptrs) (buf : list Z) : list Z := <[(length buf - 1 - snd w)%nat := 0]> buf.
Fixpoint nulterminate (c : cmd) (buf : list Z) : list Z :=
  match c with
  | EXEC argv => foldl (fun b w => put_nul w b) buf argv
  | REDIR c file _ _ => put_nul file (nulterminate c buf)
  | PIPE l r | LIST l r => nulterminate r (nulterminate l buf)
  | BACK c => nulterminate c buf
  end.

(** [parsecmd]: the command and the buffer as it leaves it. *)
Definition parsecmd (line : list Z) : presult (cmd * list Z) :=
  let? (c, s) := parseline (parse_fuel line) line in
  let (_, s) := peek s [] in
  match s with
  | [] => POk (c, nulterminate c (line ++ [0])) []
  | _ :: _ => PPanic (chars "leftovers: " ++ s ++ [10] ++ chars "syntax" ++ [10])
  end.

(** ** The command with its strings *)

Inductive scmd :=
| SExec (argv : list (list Z))
| SRedir (c : scmd) (file : list Z) (mode fd : Z)
| SPipe (left right : scmd)
| SList (left right : scmd)
| SBack (c : scmd).

(** The C string that a pointer of the buffer points to. *)
Definition string_at (buf : list Z) (p : nat) : list Z := upto_nul (drop (length buf - 1 - p) buf).
Fixpoint strings (buf : list Z) (c : cmd) : scmd :=
  match c with
  | EXEC argv => SExec ((fun w => string_at buf (fst w)) <$> argv)
  | REDIR c file mode fd => SRedir (strings buf c) (string_at buf (fst file)) mode fd
  | PIPE l r => SPipe (strings buf l) (strings buf r)
  | LIST l r => SList (strings buf l) (strings buf r)
  | BACK c => SBack (strings buf c)
  end.
