(* ===== verification/ShProof.v ===== *)
(** * The parser of the shell

    The parser terminates on every line, and a command written as a line is
    parsed back. *)

From S2P Require Import Prelude Fcntl Console Sh.

(** ** Tokens *)

Lemma length_skip_space s : (length (skip_space s) <= length s)%nat.
Proof. induction s as [|c s IH]; cbn; [done|]. case_match; cbn; lia. Qed.
Lemma length_skip_word s : (length (skip_word s) <= length s)%nat.
Proof. induction s as [|c s IH]; cbn; [done|]. case_match; cbn; lia. Qed.

Lemma skip_space_head s c t : skip_space s = c :: t -> is_space c = false.
Proof. induction s as [|d s IH]; cbn; [done|]. destruct (is_space d) eqn:E; [done|]. intros [= <- <-]. done. Qed.

Lemma skip_space_idem s : skip_space (skip_space s) = skip_space s.
Proof. induction s as [|c s IH]; cbn; [done|]. destruct (is_space c) eqn:E; [done|]. cbn. by rewrite E. Qed.

(** A token that is not the end takes at least one character. *)
Lemma gettoken_length s : let (tok, s') := gettoken s in (length s' <= length s)%nat /\ (tok <> TEnd -> (length s' < length s)%nat).
Proof.
  unfold gettoken. pose proof (length_skip_space s) as Hs. destruct (skip_space s) as [|c t] eqn:E; [split; [cbn; lia|done]|]. cbn [length] in Hs.
  pose proof (length_skip_space t) as Ht. destruct (is_symbol c) eqn:Hsym.
  - destruct (c =? 62); [|split; [lia|intros _; lia]]. destruct t as [|d t']; [split; [cbn; lia|cbn; lia]|]. cbn [length] in *.
    pose proof (length_skip_space t'). destruct (d =? 62); (split; [lia|intros _; lia]).
  - assert (is_word c = true) as Hw. { unfold is_word. by rewrite (skip_space_head _ _ _ E), Hsym. }
    cbn [skip_word]. rewrite Hw. pose proof (length_skip_word t). pose proof (length_skip_space (skip_word t)). split; [lia|intros _; lia].
Qed.

Lemma peek_length s toks : (length (snd (peek s toks)) <= length s)%nat.
Proof. apply length_skip_space. Qed.
Lemma peek_nonempty s toks t : peek s toks = (true, t) -> (0 < length t)%nat.
Proof. unfold peek. destruct (skip_space s); [done|]. intros [= E <-]. cbn. lia. Qed.
Lemma peek_end s toks : fst (peek s toks) = true -> fst (gettoken (snd (peek s toks))) <> TEnd.
Proof.
  unfold peek, gettoken. cbn [fst snd]. rewrite skip_space_idem. destruct (skip_space s) as [|c u]; [done|]. intros _.
  repeat case_match; done.
Qed.

(** ** Termination *)

(** A call with fuel [fuel] on [s] returns, with no more than [s] left. *)
Definition returns {A} (s : list Z) (r : presult A) : Prop :=
  match r with POk _ t => (length t <= length s)%nat | PPanic _ => True | PFuel => False end.

Lemma returns_bind {A B} s (r : presult A) (k : A -> list Z -> presult B) :
  returns s r -> (forall a t, (length t <= length s)%nat -> returns s (k a t)) -> returns s (pbind r k).
Proof. destruct r as [a t| |]; cbn; [|done|done]. intros H1 H2. by apply H2. Qed.

Lemma returns_le {A} s t (r : presult A) : (length t <= length s)%nat -> returns t r -> returns s r.
Proof. destruct r; cbn; [lia|done|done]. Qed.

Lemma parseredirs_returns : forall fuel rs s, (length s <= fuel)%nat -> returns s (parseredirs fuel rs s).
Proof.
  induction fuel as [|fuel IH]; intros rs s Hf; cbn [parseredirs]; destruct (peek s [60; 62]) as [yes t] eqn:E;
    pose proof (peek_length s [60; 62]) as Hl; rewrite E in Hl; cbn [snd] in Hl; (destruct yes; [apply peek_nonempty in E; try lia|done]).
  pose proof (gettoken_length t) as Ht. destruct (gettoken t) as [tok t1]. pose proof (gettoken_length t1) as Ht1. destruct (gettoken t1) as [file t2].
  destruct file; try done. eapply returns_le; [|apply IH]; [lia|]. destruct Ht1 as [_ Ht1]. specialize (Ht1 ltac:(done)). lia.
Qed.

Lemma parseargs_returns : forall fuel args rs s, (length s < fuel)%nat -> returns s (parseargs fuel args rs s).
Proof.
  induction fuel as [|fuel IH]; intros args rs s Hf; [lia|]. cbn [parseargs]. destruct (peek s _) as [stop t] eqn:E.
  pose proof (peek_length s [124; 41; 38; 59]) as Hl. rewrite E in Hl. cbn [snd] in Hl. destruct stop; [done|].
  pose proof (gettoken_length t) as Ht. destruct (gettoken t) as [tok t1]. destruct tok as [| | |w]; try done; [cbn; lia|].
  destruct Ht as [_ Ht]. specialize (Ht ltac:(done)). destruct (_ <=? _); [done|]. apply (returns_le s t1); [lia|]. apply returns_bind.
  - apply parseredirs_returns. lia.
  - intros rs' t2 H2. eapply returns_le; [done|]. apply IH. lia.
Qed.

Lemma parseback_returns : forall fuel c s, (length s <= fuel)%nat -> returns s (parseback fuel c s).
Proof.
  induction fuel as [|fuel IH]; intros c s Hf; cbn [parseback]; destruct (peek s [38]) as [yes t] eqn:E;
    pose proof (peek_length s [38]) as Hl; rewrite E in Hl; cbn [snd] in Hl; (destruct yes; [|done]).
  - apply peek_nonempty in E. lia.
  - pose proof (gettoken_length t) as Ht. pose proof (peek_end s [38]) as Hp. rewrite E in Hp. cbn [fst snd] in Hp. specialize (Hp eq_refl).
    destruct (gettoken t) as [tok t1]. destruct Ht as [_ Ht]. specialize (Ht Hp). eapply returns_le; [|apply IH]; lia.
Qed.

(** A token that [peek] has seen is taken. *)
Lemma peek_take s toks t : peek s toks = (true, t) -> (length (snd (gettoken t)) < length s)%nat.
Proof.
  intros E. pose proof (peek_length s toks) as Hl. pose proof (peek_end s toks) as Hp. rewrite E in Hl, Hp. cbn [fst snd] in *. specialize (Hp eq_refl).
  pose proof (gettoken_length t) as Ht. destruct (gettoken t) as [tok u]. cbn [fst snd] in *. destruct Ht as [_ Ht]. specialize (Ht Hp). lia.
Qed.

Lemma parse_returns : forall fuel s,
  ((4 * length s + 4 <= fuel)%nat -> returns s (parseline fuel s)) /\
  ((4 * length s + 3 <= fuel)%nat -> returns s (parsepipe fuel s)) /\
  ((4 * length s + 2 <= fuel)%nat -> returns s (parseexec fuel s)) /\
  ((4 * length s + 1 <= fuel)%nat -> returns s (parseblock fuel s)).
Proof.
  induction fuel as [|fuel IH]; intros s; [split; [lia|split; [lia|split; lia]]|].
  assert (forall {B} toks (k1 k2 : list Z -> presult B) u, (length u <= length s)%nat ->
    (forall t, (length t < length u)%nat -> returns s (k1 t)) -> (forall t, (length t <= length u)%nat -> returns s (k2 t)) ->
    returns s (let (yes, t) := peek u toks in if yes then let (_, v) := gettoken t in k1 v else k2 t)) as Hpeek.
  { intros B toks k1 k2 u Hu H1 H2. pose proof (peek_length u toks) as Hl. pose proof (peek_take u toks) as Ht. destruct (peek u toks) as [[] t].
    - specialize (Ht t eq_refl). destruct (gettoken t) as [tok v]. by apply H1.
    - by apply H2. }
  split; [|split; [|split]]; intros Hf; cbn [parseline parsepipe parseexec parseblock].
  - apply returns_bind; [by apply (IH s); lia|]. intros c t Ht. apply returns_bind; [apply (returns_le _ t); [done|apply parseback_returns; lia]|].
    intros c' t' Ht'. apply (Hpeek cmd [59] (fun v => let? (d, s) := parseline fuel v in POk (LIST c' d) s) (fun t => POk c' t)); [done| |intros; cbn; lia].
    intros v Hv. apply (returns_le _ v); [lia|]. apply returns_bind; [apply IH; lia|]. intros d w Hw. done.
  - apply returns_bind; [by apply (IH s); lia|]. intros c t Ht.
    apply (Hpeek cmd [124] (fun v => let? (d, s) := parsepipe fuel v in POk (PIPE c d) s) (fun t => POk c t)); [done| |intros; cbn; lia].
    intros v Hv. apply (returns_le _ v); [lia|]. apply returns_bind; [apply IH; lia|]. intros d w Hw. done.
  - pose proof (peek_length s [40]) as Hl. destruct (peek s [40]) as [[] t]; cbn [snd] in Hl.
    + apply (returns_le _ t); [done|]. apply IH. lia.
    + apply (returns_le _ t); [done|]. apply returns_bind; [apply parseredirs_returns; lia|]. intros rs u Hu. apply (returns_le _ u); [done|]. apply parseargs_returns. lia.
  - pose proof (peek_take s [40]) as Ht. destruct (peek s [40]) as [[] t]; [|done]. cbn [negb]. specialize (Ht t eq_refl).
    destruct (gettoken t) as [tok u]. cbn [snd] in Ht. apply (returns_le _ u); [lia|]. apply returns_bind; [apply IH; lia|]. intros c v Hv.
    pose proof (peek_take v [41]) as Hp. destruct (peek v [41]) as [[] w]; [|done]. cbn [negb]. specialize (Hp w eq_refl). destruct (gettoken w) as [tok' x]. cbn [snd] in Hp.
    apply (returns_le _ x); [lia|]. apply returns_bind; [apply parseredirs_returns; lia|]. intros rs y Hy. done.
Qed.

Lemma parsecmd_total line : parsecmd line <> PFuel.
Proof.
  unfold parsecmd. destruct (parse_returns (parse_fuel line) line) as [H _]. specialize (H ltac:(unfold parse_fuel; lia)).
  destruct (parseline (parse_fuel line) line) as [c s| |]; cbn in *; [|done|done]. by destruct (skip_space s).
Qed.

(** C33. The parser of the shell terminates on every line, without running out
    of the recursion depth it is given: [parsecmd] returns a command or calls
    [panic], whatever was typed. *)
Theorem parsecmd_terminates line : parsecmd line <> PFuel.
Proof. apply parsecmd_total. Qed.

(** ** Commands as lines *)

(** Characters other than spaces, symbols and the null character. *)
Definition word (w : list Z) : Prop := w <> [] /\ Forall (fun c => is_word c = true /\ c <> 0) w.

Definition MODE_OUT : Z := Z.lor (Z.lor O_WRONLY O_CREATE) O_TRUNC.
Definition MODE_APPEND : Z := Z.lor O_WRONLY O_CREATE.
Definition redir_ok (r : list Z * Z * Z) : Prop :=
  word (r.1.1) /\ ((r.1.2, r.2) = (O_RDONLY, 0) \/ (r.1.2, r.2) = (MODE_OUT, 1) \/ (r.1.2, r.2) = (MODE_APPEND, 1)).

(** The commands that can be written: words are words, a command has fewer
    than [MAXARGS] arguments, and a redirection is one of [<], [>], [>>]. *)
Fixpoint writable (c : scmd) : Prop :=
  match c with
  | SExec argv => Forall word argv /\ Z.of_nat (length argv) < MAXARGS
  | SRedir c f m fd => writable c /\ redir_ok (f, m, fd)
  | SPipe l r | SList l r => writable l /\ writable r
  | SBack c => writable c
  end.

Definition show_redir (r : list Z * Z * Z) : list Z :=
  (if r.1.2 =? O_RDONLY then [60] else if r.1.2 =? MODE_OUT then [62] else [62; 62]) ++ r.1.1.
Definition show_redirs (rs : list (list Z * Z * Z)) : list Z := mjoin (show_redir <$> rs).
Fixpoint show_args (l : list (list Z)) : list Z :=
  match l with
  | [] => []
  | w :: l' => match l' with [] => w | _ :: _ => w ++ 32 :: show_args l' end
  end.
Definition paren (b : bool) (t : list Z) : list Z := if b then [40] ++ t ++ [41] else t.

(** A command as a line (level 0), as the left part of one (1), as a pipeline
    (2) and as a simple command (3), with parentheses where they are needed. *)
Fixpoint show (lvl : nat) (c : scmd) : list Z :=
  match c with
  | SExec argv => show_args argv
  | SRedir c f m fd => show 3 c ++ show_redir (f, m, fd)
  | SPipe l r => paren (2 <? lvl)%nat (show 3 l ++ [124] ++ show 2 r)
  | SBack c => paren (1 <? lvl)%nat (show 1 c ++ [38])
  | SList l r => paren (0 <? lvl)%nat (show 1 l ++ [59] ++ show 0 r)
  end.

(** *** Reading tokens back *)

Definition follow (toks s : list Z) : Prop := s = [] \/ exists d t, s = d :: t /\ d ∈ toks.
Definition delim (s : list Z) : Prop := s = [] \/ exists d t, s = d :: t /\ is_symbol d = true.

Lemma follow_delim toks s : follow toks s -> Forall (fun c => is_symbol c = true) toks -> delim s.
Proof. intros [->|(d & t & -> & Hd)] HF; [by left|right]. exists d, t. split; [done|]. by eapply Forall_forall in HF. Qed.

Lemma symbol_space c : is_symbol c = true -> is_space c = false.
Proof.
  unfold is_symbol, is_space. intros H%bool_decide_eq_true. apply bool_decide_eq_false. intros Hw.
  unfold symbols, whitespace in *. repeat (apply elem_of_cons in H as [->|H]; [set_solver|]). by apply not_elem_of_nil in H.
Qed.
Lemma symbol_word c : is_symbol c = true -> is_word c = false.
Proof. unfold is_word. intros ->. by rewrite andb_false_r. Qed.
Lemma word_space c : is_word c = true -> is_space c = false.
Proof. unfold is_word. by destruct (is_space c). Qed.
Lemma word_symbol c : is_word c = true -> is_symbol c = false.
Proof. unfold is_word. destruct (is_symbol c); [|done]. by rewrite andb_false_r. Qed.

Lemma skip_delim s : delim s -> skip_space s = s.
Proof. intros [->|(d & t & -> & Hd)]; [done|]. cbn. by rewrite (symbol_space d Hd). Qed.
Lemma skip_word_app w s : Forall (fun c => is_word c = true /\ c <> 0) w -> match s with [] => True | d :: _ => is_word d = false end -> skip_word (w ++ s) = s.
Proof.
  intros Hw Hs. induction Hw as [|c w [Hc _] Hw IH]; cbn; [|by rewrite Hc]. destruct s as [|d s]; [done|]. cbn. by rewrite Hs.
Qed.

Lemma skip_space_word w s : word w -> skip_space (w ++ s) = w ++ s.
Proof. intros [Hne Hw]. destruct w as [|c w]; [done|]. apply Forall_cons in Hw as [[Hc _] _]. cbn. by rewrite (word_space c Hc). Qed.

Lemma gettoken_word w s : word w -> match s with [] => True | d :: _ => is_word d = false end ->
  gettoken (w ++ s) = (TWord (length (w ++ s), length s), skip_space s).
Proof.
  intros Hw Hs. unfold gettoken. rewrite skip_space_word by done. destruct Hw as [Hne Hw]. destruct w as [|c w]; [done|].
  pose proof Hw as Hw'. apply Forall_cons in Hw' as [[Hc _] _]. cbn [app]. rewrite (word_symbol c Hc). change (c :: w ++ s) with ((c :: w) ++ s). by rewrite (skip_word_app (c :: w) s Hw Hs).
Qed.

Lemma gettoken_symbol c s : is_symbol c = true -> c <> 62 -> gettoken (c :: s) = (TSym c, skip_space s).
Proof. intros Hc Hne. unfold gettoken. cbn [skip_space]. rewrite (symbol_space c Hc), Hc. by rewrite (proj2 (Z.eqb_neq c 62) Hne). Qed.
Lemma gettoken_out w s : word w -> gettoken (62 :: w ++ s) = (TSym 62, w ++ s).
Proof.
  intros Hw. unfold gettoken. cbn [skip_space]. change (is_space 62) with false. change (is_symbol 62) with true. cbn [Z.eqb Pos.eqb].
  pose proof (skip_space_word w s Hw) as E. destruct Hw as [Hne Hw]. destruct w as [|c w]; [done|]. apply Forall_cons in Hw as [[Hc _] _]. cbn [app] in *.
  assert (c =? 62 = false) as ->. { apply Z.eqb_neq. intros ->. done. } by rewrite E.
Qed.
Lemma gettoken_append w s : word w -> gettoken (62 :: 62 :: w ++ s) = (TAppend, w ++ s).
Proof.
  intros Hw. unfold gettoken. cbn [skip_space]. change (is_space 62) with false. change (is_symbol 62) with true. cbn [Z.eqb Pos.eqb].
  by rewrite skip_space_word.
Qed.

Lemma peek_symbol c s toks : is_symbol c = true -> peek (c :: s) toks = (bool_decide (c ∈ toks), c :: s).
Proof. intros Hc. unfold peek. cbn. by rewrite (symbol_space c Hc). Qed.
Lemma peek_word w s toks : word w -> Forall (fun c => is_symbol c = true) toks -> peek (w ++ s) toks = (false, w ++ s).
Proof.
  intros Hw HF. unfold peek. rewrite skip_space_word by done. destruct Hw as [Hne Hw]. destruct w as [|c w]; [done|]. cbn [app]. f_equal.
  apply Forall_cons in Hw as [[Hc _] _]. apply bool_decide_eq_false. intros Hin. eapply Forall_forall in HF; [|done]. cbn in HF. rewrite (word_symbol c Hc) in HF. done.
Qed.
Lemma peek_follow s toks toks' : follow toks s -> Forall (fun c => is_symbol c = true) toks -> Forall (fun c => c ∉ toks') toks -> peek s toks' = (false, s).
Proof.
  intros [->|(d & t & -> & Hd)] H1 H2; [done|]. rewrite peek_symbol by (by eapply Forall_forall in H1). f_equal. apply bool_decide_eq_false. by eapply Forall_forall in H2.
Qed.

(** *** Reading commands back *)

Section parse.
(** The line that is parsed. *)
Context (line : list Z).

Definition within (s : list Z) : Prop := exists pre, line = pre ++ s.
Lemma within_app a s : within (a ++ s) -> within s.
Proof. intros [pre E]. exists (pre ++ a). by rewrite <- app_assoc. Qed.
Lemma within_cons a s : within (a :: s) -> within s.
Proof. apply (within_app [a]). Qed.

(** The pointers [p] delimit the word [w] of the line. *)
Definition word_at (p : ptrs) (w : list Z) : Prop :=
  word w /\ exists post, within (w ++ post) /\ p = (length (w ++ post), length post) /\ match post with [] => True | d :: _ => is_word d = false end.
Definition redir_at (r : redir) (x : list Z * Z * Z) : Prop := word_at (r.1.1) (x.1.1) /\ r.1.2 = x.1.2 /\ r.2 = x.2.
Inductive cmd_at : cmd -> scmd -> Prop :=
| at_exec argv ws : Forall2 word_at argv ws -> cmd_at (EXEC argv) (SExec ws)
| at_redir c sc p f m fd : cmd_at c sc -> word_at p f -> cmd_at (REDIR c p m fd) (SRedir sc f m fd)
| at_pipe l r sl sr : cmd_at l sl -> cmd_at r sr -> cmd_at (PIPE l r) (SPipe sl sr)
| at_list l r sl sr : cmd_at l sl -> cmd_at r sr -> cmd_at (LIST l r) (SList sl sr)
| at_back c sc : cmd_at c sc -> cmd_at (BACK c) (SBack sc).

Definition STOPS : list Z := [124; 41; 38; 59].

Lemma delim_redirs rs s : delim s -> delim (show_redirs rs ++ s).
Proof.
  intros Hs. destruct rs as [|r rs]; [done|]. right. unfold show_redirs, show_redir. cbn [fmap list_fmap mjoin list_join].
  destruct (r.1.2 =? O_RDONLY), (r.1.2 =? MODE_OUT); by do 2 eexists.
Qed.
Lemma delim_word s : delim s -> match s with [] => True | d :: _ => is_word d = false end.
Proof. intros [->|(d & t & -> & Hd)]; [done|]. by apply symbol_word. Qed.

Lemma word_at_here w s : word w -> within (w ++ s) -> delim s -> word_at (length (w ++ s), length s) w.
Proof. intros Hw Hi Hd. split; [done|]. exists s. split; [done|]. split; [done|by apply delim_word]. Qed.

(** One redirection. *)
Lemma parseredirs_one fuel rs0 r s : redir_ok r -> within (show_redir r ++ s) -> delim s ->
  exists r', parseredirs (S fuel) rs0 (show_redir r ++ s) = parseredirs fuel (rs0 ++ [r']) s /\ redir_at r' r.
Proof.
  destruct r as [[f m] fd]. intros [Hw Hk] Hi Hd. cbn [fst snd] in *. unfold show_redir in *. cbn [fst snd] in *.
  exists ((length (f ++ s), length s), m, fd).
  assert (word_at (length (f ++ s), length s) f) as Hat. { apply word_at_here; [done| |done]. rewrite <- app_assoc in Hi. by eapply within_app. }
  split; [|by split]. rewrite <- app_assoc.
  assert (forall c t, c = 60 \/ c = 62 -> peek (c :: t) [60; 62] = (true, c :: t)) as Hp.
  { intros c t [-> | ->]; by rewrite peek_symbol. }
  destruct Hk as [[= -> ->]|[[= -> ->]|[= -> ->]]]; cbn [parseredirs].
  - change (_ ++ f ++ s) with (60 :: f ++ s). rewrite Hp by (by left). cbv iota. rewrite gettoken_symbol by done.
    rewrite skip_space_word by done. rewrite gettoken_word by (done || by apply delim_word). by rewrite skip_delim.
  - change (_ ++ f ++ s) with (62 :: f ++ s). rewrite Hp by (by right). cbv iota. rewrite gettoken_out by done.
    rewrite gettoken_word by (done || by apply delim_word). by rewrite skip_delim.
  - change (_ ++ f ++ s) with (62 :: 62 :: f ++ s). rewrite Hp by (by right). cbv iota. rewrite gettoken_append by done.
    rewrite gettoken_word by (done || by apply delim_word). by rewrite skip_delim.
Qed.

Lemma parseredirs_show rs : forall fuel rs0 s, Forall redir_ok rs -> within (show_redirs rs ++ s) -> follow STOPS s -> (length (show_redirs rs ++ s) <= fuel)%nat ->
  exists rs', parseredirs fuel rs0 (show_redirs rs ++ s) = POk (rs0 ++ rs') s /\ Forall2 redir_at rs' rs.
Proof.
  assert (Forall (fun c => is_symbol c = true) STOPS) as Hsym by (by repeat constructor).
  induction rs as [|r rs IH]; intros fuel rs0 s Hok Hi Hs Hf.
  - exists []. rewrite app_nil_r. split; [|done]. change (show_redirs [] ++ s) with s in *.
    destruct fuel; cbn [parseredirs]; rewrite (peek_follow s STOPS) by (done || (repeat constructor; set_solver)); done.
  - apply Forall_cons in Hok as [Hr Hok]. change (show_redirs (r :: rs)) with (show_redir r ++ show_redirs rs) in *. rewrite <- app_assoc in *.
    assert (0 < length (show_redir r))%nat as Hlen. { unfold show_redir. rewrite length_app. destruct (r.1.2 =? O_RDONLY), (r.1.2 =? MODE_OUT); cbn; lia. }
    destruct fuel as [|fuel]; [rewrite length_app in Hf; lia|].
    destruct (parseredirs_one fuel rs0 r (show_redirs rs ++ s) Hr Hi (delim_redirs rs s (follow_delim _ _ Hs Hsym))) as (r' & E & Hat).
    destruct (IH fuel (rs0 ++ [r']) s Hok (within_app _ _ Hi) Hs) as (rs' & E' & Hat'); [rewrite length_app in Hf; lia|].
    exists (r' :: rs'). rewrite E, E', <- app_assoc. split; [done|by constructor].
Qed.

(** The arguments of a simple command, and the redirections after them. *)
Lemma parseargs_show ws : forall fuel args rs0 rs s, Forall word ws -> Z.of_nat (length args + length ws) < MAXARGS -> Forall redir_ok rs -> ws <> [] \/ rs = [] ->
  within (show_args ws ++ show_redirs rs ++ s) -> follow STOPS s -> (length (show_args ws ++ show_redirs rs ++ s) < fuel)%nat ->
  exists args' rs', parseargs fuel args rs0 (show_args ws ++ show_redirs rs ++ s) = POk (redircmds (EXEC (args ++ args')) (rs0 ++ rs')) s /\
    Forall2 word_at args' ws /\ Forall2 redir_at rs' rs.
Proof.
  assert (Forall (fun c => is_symbol c = true) STOPS) as Hsym by (by repeat constructor).
  induction ws as [|w ws IH]; intros fuel args rs0 rs s Hws Hn Hok Hc Hi Hs Hf; (destruct fuel as [|fuel]; [lia|]); cbn [parseargs].
  { destruct Hc as [?| ->]; [done|]. exists [], []. rewrite !app_nil_r. split; [|done]. cbn [show_args show_redirs fmap list_fmap mjoin list_join app].
    destruct Hs as [->|(d & t & -> & Hd)]; [done|]. fold STOPS. rewrite peek_symbol by (by eapply Forall_forall in Hsym). by rewrite bool_decide_true. }
  apply Forall_cons in Hws as [Hw Hws]. assert (Forall (fun c => is_symbol c = true) [124; 41; 38; 59]) as Hst by done.
  set (more := (match ws with [] => [] | _ :: _ => 32 :: show_args ws end) ++ show_redirs rs ++ s).
  assert (show_args (w :: ws) ++ show_redirs rs ++ s = w ++ more) as E. { unfold more. cbn [show_args]. destruct ws; [done|]. by rewrite <- app_assoc. }
  rewrite E in *. rewrite peek_word by done. assert (match more with [] => True | d :: _ => is_word d = false end) as Hmore.
  { unfold more. destruct ws; [|done]. apply delim_word, delim_redirs, (follow_delim STOPS); done. }
  rewrite gettoken_word by done. rewrite (length_app args). cbn [length] in *. rewrite (proj2 (Z.leb_gt MAXARGS _)) by lia.
  assert (word_at (length (w ++ more), length more) w) as Hat by (split; [done|]; by exists more).
  assert (length (w ++ more) = (length w + length more)%nat) as El by apply length_app. assert (0 < length w)%nat by (destruct Hw as [Hw _]; destruct w; [done|cbn; lia]).
  destruct ws as [|w2 ws].
  - change more with (show_redirs rs ++ s) in *. rewrite skip_delim by (apply delim_redirs, (follow_delim STOPS); done).
    destruct (parseredirs_show rs fuel rs0 s Hok (within_app _ _ Hi) Hs) as (rs' & E2 & Hrs); [lia|]. rewrite E2. cbn [pbind].
    destruct (IH fuel (args ++ [(length (w ++ show_redirs rs ++ s), length (show_redirs rs ++ s))]) (rs0 ++ rs') [] s) as (a' & r' & E3 & Ha & Hr'); try done.
    + rewrite length_app. cbn [length]. lia.
    + by right.
    + do 2 apply within_app in Hi. done.
    + cbn [show_args show_redirs fmap list_fmap mjoin list_join app]. rewrite !length_app in Hf. lia.
    + apply Forall2_nil_inv_r in Ha as ->. apply Forall2_nil_inv_r in Hr' as ->. cbn [show_args show_redirs fmap list_fmap mjoin list_join app] in E3.
      exists [(length (w ++ show_redirs rs ++ s), length (show_redirs rs ++ s))], rs'. split; [|split; [by constructor|done]].
      etrans; [exact E3|]. by rewrite !app_nil_r.
  - set (t := show_args (w2 :: ws) ++ show_redirs rs ++ s) in *. assert (more = 32 :: t) as Em by done.
    assert (skip_space more = t /\ peek t [60; 62] = (false, t)) as [Ek Ep].
    { apply Forall_cons in Hws as [Hw2 _]. assert (exists u, t = w2 ++ u) as [u ->]. { unfold t. cbn [show_args]. destruct ws; [by eexists|]. rewrite <- app_assoc. by eexists. }
      rewrite Em. cbn [skip_space]. change (is_space 32) with true. split; [by apply skip_space_word|]. apply peek_word; [done|by repeat constructor]. }
    rewrite Ek. assert (parseredirs fuel rs0 t = POk rs0 t) as -> by (destruct fuel; cbn [parseredirs]; by rewrite Ep). cbn [pbind].
    destruct (IH fuel (args ++ [(length (w ++ more), length more)]) rs0 rs s) as (a' & r' & E3 & Ha & Hr'); try done.
    + rewrite length_app. cbn [length] in *. lia.
    + by left.
    + apply within_app in Hi. rewrite Em in Hi. by apply within_cons in Hi.
    + fold t. rewrite length_app, Em in Hf. cbn [length] in Hf. lia.
    + fold t in E3. exists ((length (w ++ more), length more) :: a'), r'. split; [|split; [by constructor|done]].
      etrans; [exact E3|]. by rewrite <- app_assoc.
Qed.

(** A command that has been shown at each level is read back. *)
Definition line_back (c : scmd) : Prop := forall fuel s, within (show 0 c ++ s) -> follow [41] s -> (4 * length (show 0 c ++ s) + 4 <= fuel)%nat ->
  exists c', parseline fuel (show 0 c ++ s) = POk c' s /\ cmd_at c' c.
Definition amp_back (c : scmd) : Prop := forall fuel s, within (show 1 c ++ s) -> follow [41; 38; 59] s -> (4 * length (show 1 c ++ s) + 3 <= fuel)%nat ->
  exists c0 s0 k c', parsepipe fuel (show 1 c ++ s) = POk c0 s0 /\ (k + length s <= length (show 1 c ++ s))%nat /\
    (forall f, parseback (k + f) c0 s0 = parseback f c' s) /\ cmd_at c' c.
Definition pipe_back (c : scmd) : Prop := forall fuel s, within (show 2 c ++ s) -> follow [41; 38; 59] s -> (4 * length (show 2 c ++ s) + 3 <= fuel)%nat ->
  exists c', parsepipe fuel (show 2 c ++ s) = POk c' s /\ cmd_at c' c.
Definition exec_back (c : scmd) : Prop := forall fuel rs s, within (show 3 c ++ show_redirs rs ++ s) -> Forall redir_ok rs -> follow STOPS s ->
  (4 * length (show 3 c ++ show_redirs rs ++ s) + 2 <= fuel)%nat ->
  exists c' rs', parseexec fuel (show 3 c ++ show_redirs rs ++ s) = POk (redircmds c' rs') s /\ cmd_at c' c /\ Forall2 redir_at rs' rs.

Lemma follow_le toks toks' s : follow toks s -> toks ⊆ toks' -> follow toks' s.
Proof. intros [->|(d & t & -> & Hd)] H; [by left|right]. exists d, t. split; [done|]. by apply H. Qed.

Lemma exec_pipe c : show 2 c = show 3 c -> exec_back c -> pipe_back c.
Proof.
  intros E H fuel s Hi Hs Hf. rewrite E in *. destruct fuel as [|fuel]; [lia|]. cbn [parsepipe].
  destruct (H fuel [] s) as (c' & rs' & Ep & Hc & ->%Forall2_nil_inv_r); [done|constructor|eapply follow_le; [done|set_solver]|cbn in *; lia|].
  cbn [show_redirs fmap list_fmap mjoin list_join app] in Ep. rewrite Ep. cbn [pbind]. rewrite (peek_follow s [41; 38; 59]) by (done || (repeat constructor; set_solver)). by exists c'.
Qed.

Lemma pipe_amp c : show 1 c = show 2 c -> pipe_back c -> amp_back c.
Proof.
  intros E H fuel s Hi Hs Hf. rewrite E in *. destruct (H fuel s Hi Hs Hf) as (c' & Ep & Hc). exists c', s, O, c'. split; [done|].
  split; [rewrite length_app; lia|]. split; [done|done].
Qed.

(** [parseline] on a command shown at level 1. *)
Lemma amp_line c : amp_back c -> forall fuel s, within (show 1 c ++ s) -> follow [41; 59] s -> (4 * length (show 1 c ++ s) + 4 <= S fuel)%nat ->
  exists c', parseline (S fuel) (show 1 c ++ s) = (let (yes, t) := peek s [59] in
    if yes then let (_, t) := gettoken t in let? (d, t) := parseline fuel t in POk (LIST c' d) t else POk c' t) /\ cmd_at c' c.
Proof.
  intros H fuel s Hi Hs Hf. destruct (H fuel s) as (c0 & s0 & k & c' & Ep & Hk & Hb & Hc); [done|eapply follow_le; [done|set_solver]|lia|].
  exists c'. split; [|done]. cbn [parseline]. rewrite Ep. cbn [pbind]. replace fuel with (k + (fuel - k))%nat at 1 by lia. rewrite Hb.
  assert (peek s [38] = (false, s)) as Epk by (apply (peek_follow s [41; 59]); [done|by repeat constructor|repeat constructor; set_solver]).
  assert (forall f, parseback f c' s = POk c' s) as -> by (intros [|f]; cbn [parseback]; by rewrite Epk). done.
Qed.

Lemma amp_line_end c : show 0 c = show 1 c -> amp_back c -> line_back c.
Proof.
  intros E H fuel s Hi Hs Hf. rewrite E in *. destruct fuel as [|fuel]; [lia|].
  destruct (amp_line c H fuel s) as (c' & -> & Hc); [done|eapply follow_le; [done|set_solver]|lia|]. exists c'. split; [|done].
  by rewrite (peek_follow s [41]) by (done || (repeat constructor; set_solver)).
Qed.

(** A command that is shown starts with no space. *)
Lemma show_skip c : writable c -> forall lvl s, delim s -> skip_space (show lvl c ++ s) = show lvl c ++ s.
Proof.
  assert (forall d t, is_symbol d = true -> delim (d :: t)) as Hd by (intros d t H; right; by exists d, t).
  induction c as [ws|c IH f m fd|l IHl r IHr|l IHl r IHr|c IH]; cbn [writable show]; intros Hw lvl s Hs.
  - destruct ws as [|w ws]; [by apply skip_delim|]. destruct Hw as [Hw _]. apply Forall_cons in Hw as [Hw _]. cbn [show_args]. destruct ws; [by apply skip_space_word|].
    rewrite <- app_assoc. by apply skip_space_word.
  - rewrite <- app_assoc. apply IH; [apply Hw|]. apply (delim_redirs [(f, m, fd)]) in Hs. cbn in Hs. by rewrite app_nil_r in Hs.
  - unfold paren. destruct (2 <? lvl)%nat; [apply skip_delim; by apply (Hd 40)|]. rewrite <- app_assoc. apply IHl; [apply Hw|]. by apply (Hd 124).
  - unfold paren. destruct (0 <? lvl)%nat; [apply skip_delim; by apply (Hd 40)|]. rewrite <- app_assoc. apply IHl; [apply Hw|]. by apply (Hd 59).
  - unfold paren. destruct (1 <? lvl)%nat; [apply skip_delim; by apply (Hd 40)|]. rewrite <- app_assoc. apply IH; [done|]. by apply (Hd 38).
Qed.

(** A command in parentheses. *)
Lemma paren_exec c : writable c -> show 3 c = [40] ++ show 0 c ++ [41] -> line_back c -> exec_back c.
Proof.
  intros Hw E H fuel rs s Hi Hok Hs Hf. rewrite E in *. replace (([40] ++ show 0 c ++ [41]) ++ show_redirs rs ++ s) with (40 :: show 0 c ++ 41 :: show_redirs rs ++ s) in *
    by (cbn; by rewrite <- app_assoc).
  cbn [length] in Hf. destruct fuel as [|[|fuel]]; [lia|lia|]. cbn [parseexec]. rewrite peek_symbol, bool_decide_true by (done || set_solver).
  cbn [parseblock]. rewrite peek_symbol, bool_decide_true by (done || set_solver). cbn [negb]. rewrite gettoken_symbol by done.
  assert (delim (41 :: show_redirs rs ++ s)) as Hd by (right; by do 2 eexists). rewrite show_skip by done. apply within_cons in Hi.
  destruct (H fuel (41 :: show_redirs rs ++ s)) as (c' & Ep & Hc); [done|right; do 2 eexists; split; [done|set_solver]|lia|].
  rewrite Ep. cbn [pbind]. rewrite peek_symbol, bool_decide_true by (done || set_solver). cbn [negb]. rewrite gettoken_symbol by done.
  rewrite skip_delim by (apply delim_redirs, (follow_delim STOPS); [done|by repeat constructor]). apply within_app, within_cons in Hi.
  destruct (parseredirs_show rs fuel [] s Hok Hi Hs) as (rs' & Er & Hrs). { rewrite length_app in Hf. cbn [length] in Hf. lia. }
  rewrite Er. cbn [pbind app]. by exists c', rs'.
Qed.

Lemma simple_exec ws : writable (SExec ws) -> exec_back (SExec ws).
Proof.
  intros [Hws Hn] fuel rs s Hi Hok Hs Hf. cbn [show] in *. destruct fuel as [|fuel]; [lia|]. cbn [parseexec].
  assert (delim (show_redirs rs ++ s)) as Hd by (apply delim_redirs, (follow_delim STOPS); [done|by repeat constructor]).
  destruct ws as [|w ws].
  - cbn [show_args app] in *. assert (peek (show_redirs rs ++ s) [40] = (false, show_redirs rs ++ s)) as ->.
    { destruct rs as [|r rs]; [apply (peek_follow s STOPS); [done|by repeat constructor|repeat constructor; set_solver]|].
      change (show_redirs (r :: rs)) with (show_redir r ++ show_redirs rs). unfold show_redir.
      destruct (r.1.2 =? O_RDONLY), (r.1.2 =? MODE_OUT); cbn [app]; (rewrite peek_symbol by done); by rewrite bool_decide_false by set_solver. }
    destruct (parseredirs_show rs fuel [] s Hok Hi Hs) as (rs' & Er & Hrs); [lia|]. rewrite Er. cbn [pbind app]. apply within_app in Hi.
    destruct (parseargs_show [] fuel [] rs' [] s) as (a' & r' & Ea & Ha & Hr'); try done; [by right|cbn; rewrite length_app in Hf; lia|].
    apply Forall2_nil_inv_r in Ha as ->. apply Forall2_nil_inv_r in Hr' as ->. cbn [show_args show_redirs fmap list_fmap mjoin list_join app] in Ea.
    exists (EXEC []), rs'. split; [etrans; [exact Ea|]; by rewrite app_nil_r|]. split; [by constructor|done].
  - assert (forall toks, Forall (fun c => is_symbol c = true) toks -> peek (show_args (w :: ws) ++ show_redirs rs ++ s) toks = (false, show_args (w :: ws) ++ show_redirs rs ++ s)) as Hp.
    { intros toks Ht. apply Forall_cons in Hws as [Hw _]. assert (exists u, show_args (w :: ws) ++ show_redirs rs ++ s = w ++ u) as [u ->]; [|by apply peek_word].
      cbn [show_args]. destruct ws; [by eexists|]. rewrite <- app_assoc. by eexists. }
    rewrite Hp by (by repeat constructor). assert (parseredirs fuel [] (show_args (w :: ws) ++ show_redirs rs ++ s) = POk [] (show_args (w :: ws) ++ show_redirs rs ++ s)) as ->.
    { destruct fuel; cbn [parseredirs]; by rewrite Hp by (by repeat constructor). }
    cbn [pbind]. destruct (parseargs_show (w :: ws) fuel [] [] rs s) as (a' & r' & Ea & Ha & Hr'); try done; [by left|lia|].
    exists (EXEC a'), r'. split; [exact Ea|]. split; [by constructor|done].
Qed.

Definition back (c : scmd) : Prop := line_back c /\ amp_back c /\ pipe_back c /\ exec_back c.

Lemma exec_all c : show 2 c = show 3 c -> show 1 c = show 2 c -> show 0 c = show 1 c -> exec_back c -> back c.
Proof.
  intros E2 E1 E0 Hx. pose proof (exec_pipe c E2 Hx) as Hp. pose proof (pipe_amp c E1 Hp) as Ha. split; [by apply amp_line_end|]. by split.
Qed.

Lemma redir_exec c f m fd : redir_ok (f, m, fd) -> exec_back c -> exec_back (SRedir c f m fd).
Proof.
  intros Hr H fuel rs s Hi Hok Hs Hf. cbn [show] in *.
  replace ((show 3 c ++ show_redir (f, m, fd)) ++ show_redirs rs ++ s) with (show 3 c ++ show_redirs ((f, m, fd) :: rs) ++ s) in *
    by (change (show_redirs (?r :: rs)) with (show_redir r ++ show_redirs rs); by rewrite <- !app_assoc).
  destruct (H fuel ((f, m, fd) :: rs) s) as (c' & rs' & Ep & Hc & Hrs); [done|by constructor|done|done|].
  apply Forall2_cons_inv_r in Hrs as ([[p m'] fd'] & rs2 & (Hp & Em & Ef) & Hrs & ->). cbn [fst snd] in *. subst m' fd'.
  exists (REDIR c' p m fd), rs2. split; [done|]. split; [by constructor|done].
Qed.

Lemma pipe_step l r : exec_back l -> writable r -> pipe_back r -> pipe_back (SPipe l r).
Proof.
  intros Hl Hw Hr fuel s Hi Hs Hf. cbn [show paren Nat.ltb Nat.leb] in *. rewrite <- !app_assoc in *. destruct fuel as [|fuel]; [lia|]. cbn [parsepipe].
  destruct (Hl fuel [] ([124] ++ show 2 r ++ s)) as (l' & rs' & Ep & Hcl & ->%Forall2_nil_inv_r); [done|constructor|right; do 2 eexists; split; [done|set_solver]|cbn in *; lia|].
  cbn [show_redirs fmap list_fmap mjoin list_join app] in Ep. cbn [app] in Hi |- *. rewrite Ep. cbn [pbind]. apply within_app, within_cons in Hi.
  rewrite peek_symbol, bool_decide_true by (done || set_solver). rewrite gettoken_symbol by done.
  rewrite show_skip by (done || (eapply follow_delim; [done|by repeat constructor])).
  destruct (Hr fuel s) as (r' & Er & Hcr); [done|done|rewrite !length_app in *; cbn [length] in Hf; lia|]. rewrite Er. cbn [pbind redircmds foldl].
  exists (PIPE l' r'). split; [done|by constructor].
Qed.

Lemma list_step l r : amp_back l -> writable r -> line_back r -> line_back (SList l r).
Proof.
  intros Hl Hw Hr fuel s Hi Hs Hf. cbn [show paren Nat.ltb Nat.leb] in *. rewrite <- !app_assoc in *. destruct fuel as [|fuel]; [lia|].
  destruct (amp_line l Hl fuel ([59] ++ show 0 r ++ s)) as (l' & -> & Hcl); [done|right; do 2 eexists; split; [done|set_solver]|done|]. apply within_app in Hi.
  cbn [app]. rewrite peek_symbol, bool_decide_true by (done || set_solver). rewrite gettoken_symbol by done.
  rewrite show_skip by (done || (eapply follow_delim; [done|by repeat constructor])). apply within_cons in Hi.
  destruct (Hr fuel s) as (r' & Er & Hcr); [done|done|rewrite !length_app in *; cbn [length] in Hf; lia|]. rewrite Er. cbn [pbind].
  exists (LIST l' r'). split; [done|by constructor].
Qed.

Lemma back_step c : amp_back c -> amp_back (SBack c).
Proof.
  intros H fuel s Hi Hs Hf. cbn [show paren Nat.ltb Nat.leb] in *. rewrite <- app_assoc in *.
  destruct (H fuel ([38] ++ s)) as (c0 & s0 & k & c' & Ep & Hk & Hb & Hc); [done|right; do 2 eexists; split; [done|set_solver]|done|].
  exists c0, s0, (S k), (BACK c'). split; [done|]. split; [cbn [app length] in Hk |- *; lia|]. split; [|by constructor].
  intros f. replace (S k + f)%nat with (k + S f)%nat by lia. rewrite Hb. cbn [parseback app].
  rewrite peek_symbol, bool_decide_true by (done || set_solver). rewrite gettoken_symbol by done.
  by rewrite skip_delim by (eapply follow_delim; [done|by repeat constructor]).
Qed.

Lemma show_back c : writable c -> back c.
Proof.
  induction c as [ws|c IH f m fd|l IHl r IHr|l IHl r IHr|c IH]; intros Hw.
  - apply exec_all; [done|done|done|by apply simple_exec].
  - destruct Hw as [Hw Hr]. apply exec_all; [done|done|done|]. apply redir_exec; [done|by apply IH].
  - pose proof Hw as [Hwl Hwr]. destruct (IHl Hwl) as (_ & _ & _ & Hl). destruct (IHr Hwr) as (_ & _ & Hr & _).
    pose proof (pipe_step l r Hl Hwr Hr) as Hp. pose proof (pipe_amp (SPipe l r) eq_refl Hp) as Ha. pose proof (amp_line_end (SPipe l r) eq_refl Ha) as HL.
    split; [done|]. split; [done|]. split; [done|]. by apply paren_exec.
  - pose proof Hw as [Hwl Hwr]. destruct (IHl Hwl) as (_ & Hl & _). destruct (IHr Hwr) as (Hr & _).
    pose proof (list_step l r Hl Hwr Hr) as HL. pose proof (paren_exec (SList l r) Hw eq_refl HL) as Hx.
    split; [done|]. pose proof (exec_pipe (SList l r) eq_refl Hx) as Hp. split; [by apply pipe_amp|by split].
  - destruct (IH Hw) as (_ & Ha & _). pose proof (back_step c Ha) as HA. pose proof (amp_line_end (SBack c) eq_refl HA) as HL.
    pose proof (paren_exec (SBack c) Hw eq_refl HL) as Hx. split; [done|]. split; [done|]. split; [by apply exec_pipe|done].
Qed.

(** *** nulterminate *)

(** The buffer [f] still has the words of the line. *)
Definition words_kept (f : list Z) : Prop :=
  length f = S (length line) /\ forall i x, line !! i = Some x -> is_word x = true -> f !! i = Some x.
Definition ended (f : list Z) (p : ptrs) : Prop := f !! (length line - snd p)%nat = Some 0.
Fixpoint all_ended (f : list Z) (c : cmd) : Prop :=
  match c with
  | EXEC argv => Forall (ended f) argv
  | REDIR c p _ _ => all_ended f c /\ ended f p
  | PIPE l r | LIST l r => all_ended f l /\ all_ended f r
  | BACK c => all_ended f c
  end.

Lemma put_nul_kept f p w : words_kept f -> word_at p w -> words_kept (put_nul p f) /\ ended (put_nul p f) p /\ forall q, ended f q -> ended (put_nul p f) q.
Proof.
  intros [Hl Hk] (Hw & post & [pre E] & -> & Hpost). unfold put_nul, ended. cbn [snd]. rewrite Hl. replace (S (length line) - 1 - length post)%nat with (length line - length post)%nat by lia.
  assert (length line = length pre + (length w + length post))%nat as El by (rewrite E, !length_app; done).
  split; [|split].
  - split; [by rewrite length_insert|]. intros i x Hi Hx. destruct (decide (i = (length line - length post)%nat)) as [->|Hne].
    + exfalso. replace (length line - length post)%nat with (length (pre ++ w)) in Hi by (rewrite length_app; lia).
      rewrite E, app_assoc, lookup_app_r, Nat.sub_diag in Hi by lia. destruct post as [|d post]; [done|]. injection Hi as ->. congruence.
    + rewrite list_lookup_insert_ne by done. by apply Hk.
  - apply list_lookup_insert_eq. lia.
  - intros q Hq. destruct (decide (length line - length post = length line - snd q)%nat) as [->|Hne]; [apply list_lookup_insert_eq; by eapply lookup_lt_Some|].
    by rewrite list_lookup_insert_ne.
Qed.

Lemma put_nuls_kept argv : forall ws f, Forall2 word_at argv ws -> words_kept f ->
  let f' := foldl (fun b w => put_nul w b) f argv in words_kept f' /\ Forall (ended f') argv /\ forall q, ended f q -> ended f' q.
Proof.
  induction argv as [|p argv IH]; intros ws f Hat Hk; cbn [foldl]; [split; [done|]; split; [constructor|done]|]. apply Forall2_cons_inv_l in Hat as (w & ws' & Hp & Hat & ->).
  destruct (put_nul_kept f p w Hk Hp) as (Hk1 & He1 & Hm1). destruct (IH ws' (put_nul p f) Hat Hk1) as (Hk2 & He2 & Hm2).
  split; [done|]. split; [constructor; [by apply Hm2|done]|]. intros q Hq. by apply Hm2, Hm1.
Qed.

Lemma all_ended_mono f f' c : (forall q, ended f q -> ended f' q) -> all_ended f c -> all_ended f' c.
Proof. intros H. induction c; cbn [all_ended]; [intros HF; by eapply Forall_impl|naive_solver..]. Qed.

Lemma nulterminate_kept c sc : cmd_at c sc -> forall f, words_kept f ->
  words_kept (nulterminate c f) /\ all_ended (nulterminate c f) c /\ forall q, ended f q -> ended (nulterminate c f) q.
Proof.
  induction 1 as [argv ws Hat|c sc p w m fd Hc IH Hp|l r sl sr Hl IHl Hr IHr|l r sl sr Hl IHl Hr IHr|c sc Hc IH]; intros f Hk; cbn [nulterminate all_ended].
  - by eapply put_nuls_kept.
  - destruct (IH f Hk) as (K1 & E1 & M1). destruct (put_nul_kept _ p w K1 Hp) as (K2 & E2 & M2). split; [done|]. split; [split; [by eapply all_ended_mono|done]|]. auto.
  - destruct (IHl f Hk) as (K1 & E1 & M1). destruct (IHr _ K1) as (K2 & E2 & M2). split; [done|]. split; [split; [by eapply all_ended_mono|done]|]. auto.
  - destruct (IHl f Hk) as (K1 & E1 & M1). destruct (IHr _ K1) as (K2 & E2 & M2). split; [done|]. split; [split; [by eapply all_ended_mono|done]|]. auto.
  - by apply IH.
Qed.

Lemma upto_nul_word w : forall l, Forall (fun c => is_word c = true /\ c <> 0) w -> (forall i x, w !! i = Some x -> l !! i = Some x) -> l !! length w = Some 0 -> upto_nul l = w.
Proof.
  induction w as [|c w IH]; intros l Hw Hl Hz.
  - destruct l as [|x l]; [done|]. injection Hz as ->. done.
  - apply Forall_cons in Hw as [[_ Hc] Hw]. destruct l as [|x l]; [done|]. pose proof (Hl O c eq_refl) as [= ->]. cbn [upto_nul].
    rewrite (proj2 (Z.eqb_neq c 0) Hc). f_equal. apply IH; [done| |done]. intros i y Hi. by apply (Hl (S i)).
Qed.

Lemma string_at_word f p w : words_kept f -> word_at p w -> ended f p -> string_at f (fst p) = w.
Proof.
  intros [Hl Hk] ([_ Hw] & post & [pre E] & -> & _) Hz. unfold string_at, ended in *. cbn [fst snd] in *.
  assert (length line = length pre + (length w + length post))%nat as El by (rewrite E, !length_app; done). rewrite Hl, length_app.
  replace (S (length line) - 1 - (length w + length post))%nat with (length pre) by lia. apply upto_nul_word; [done| |].
  - intros i x Hi. rewrite lookup_drop. apply Hk.
    + rewrite E, lookup_app_r by lia. replace (length pre + i - length pre)%nat with i by lia. by apply lookup_app_l_Some.
    + eapply Forall_lookup_1 in Hw; [|done]. apply Hw.
  - rewrite lookup_drop. by replace (length pre + length w)%nat with (length line - length post)%nat by lia.
Qed.

Lemma strings_at c sc f : cmd_at c sc -> words_kept f -> all_ended f c -> strings f c = sc.
Proof.
  intros H Hk. induction H as [argv ws Hat|c sc p w m fd Hc IH Hp|l r sl sr Hl IHl Hr IHr|l r sl sr Hl IHl Hr IHr|c sc Hc IH]; cbn [all_ended strings]; intros He.
  - f_equal. induction Hat as [|p w argv ws Hp Hat IH]; [done|]. apply Forall_cons in He as [He1 He2]. cbn. f_equal; [by apply string_at_word|by apply IH].
  - destruct He as [He1 He2]. rewrite IH by done. by rewrite (string_at_word f p w).
  - destruct He as [He1 He2]. by rewrite IHl, IHr.
  - destruct He as [He1 He2]. by rewrite IHl, IHr.
  - by rewrite IH.
Qed.

(** *** What the parser produces *)

Section typed.
Hypothesis Hplain : Forall (fun c => c <> 0) line.

Definition yields {A} (P : A -> Prop) (r : presult A) : Prop := match r with POk a s => P a /\ within s | _ => True end.
Lemma yields_bind {A B} (P : A -> Prop) (Q : B -> Prop) (r : presult A) k :
  yields P r -> (forall a s, P a -> within s -> yields Q (k a s)) -> yields Q (pbind r k).
Proof. destruct r as [a s| |]; cbn; [|done|done]. intros [Ha Hs] H. by apply H. Qed.

Lemma skip_space_within s : within s -> within (skip_space s).
Proof. induction s as [|c s IH]; intros H; [done|]. cbn [skip_space]. destruct (is_space c); [|done]. by eapply IH, within_cons. Qed.
Lemma peek_within s toks : within s -> within (snd (peek s toks)).
Proof. apply skip_space_within. Qed.
Lemma skip_word_split s : exists w, s = w ++ skip_word s /\ Forall (fun c => is_word c = true) w /\ match skip_word s with [] => True | d :: _ => is_word d = false end.
Proof.
  induction s as [|c s (w & E & Hw & Hd)]; [by exists []|]. cbn [skip_word]. destruct (is_word c) eqn:Ec.
  - exists (c :: w). split; [by rewrite E at 1|]. split; [by constructor|done].
  - exists []. done.
Qed.

(** A token that is a word points at it. *)
Lemma gettoken_at s : within s -> within (snd (gettoken s)) /\ forall p, fst (gettoken s) = TWord p -> exists w, word_at p w.
Proof using Hplain.
  intros Hs%skip_space_within. unfold gettoken. destruct (skip_space s) as [|c s1] eqn:E; [done|]. pose proof (within_cons _ _ Hs) as H1.
  pose proof (skip_space_within _ H1) as H1'. destruct (is_symbol c) eqn:Ec.
  { destruct (c =? 62); [|done]. destruct s1 as [|d s2]; [done|]. destruct (d =? 62); [|done]. split; [|done]. by eapply skip_space_within, within_cons. }
  pose proof (skip_space_head _ _ _ E) as Es. assert (is_word c = true) as Hc by (unfold is_word; by rewrite Es, Ec).
  destruct (skip_word_split (c :: s1)) as (w & Ew & Hw & Hd). set (e := skip_word (c :: s1)) in *. rewrite Ew in Hs.
  split; [by apply skip_space_within, (within_app w)|]. intros p [= <-]. exists w. split; [split|].
  - intros ->. cbn [app] in Ew. rewrite <- Ew in Hd. congruence.
  - destruct Hs as [pre El]. rewrite El in Hplain. apply Forall_app in Hplain as [_ Hp]. apply Forall_app in Hp as [Hp _].
    by apply Forall_and.
  - exists e. split; [done|]. by rewrite <- Ew.
Qed.

Definition typed (c : cmd) : Prop := exists sc, cmd_at c sc /\ writable sc.
Definition typed_redir (r : redir) : Prop := exists x, redir_at r x /\ redir_ok x.

Lemma typed_redircmds rs : forall c, typed c -> Forall typed_redir rs -> typed (redircmds c rs).
Proof.
  induction rs as [|[[p m] fd] rs IH]; intros c (sc & Hc & Hw) Hrs; [by exists sc|]. apply Forall_cons in Hrs as [([[f m'] fd'] & (Hr & Em & Ef) & Hok) Hrs].
  cbn in Hr, Em, Ef. subst m' fd'. apply (IH (REDIR c p m fd)); [|done]. exists (SRedir sc f m fd). split; [by constructor|done].
Qed.
Lemma typed_exec args : Forall (fun p => exists w, word_at p w) args -> Z.of_nat (length args) < MAXARGS -> typed (EXEC args).
Proof.
  intros Ha Hn. assert (exists ws, Forall2 word_at args ws) as [ws Hws].
  { clear Hn. induction Ha as [|p args [w Hp] Ha [ws IH]]; [by exists []|]. exists (w :: ws). by constructor. }
  exists (SExec ws). split; [by constructor|]. cbn [writable]. rewrite <- (Forall2_length _ _ _ Hws). split; [|done].
  clear - Hws. induction Hws as [|p w args ws [Hw _] _ IH]; by constructor.
Qed.

Lemma parseredirs_typed fuel : forall rs s, within s -> Forall typed_redir rs -> yields (Forall typed_redir) (parseredirs fuel rs s).
Proof using Hplain.
  induction fuel as [|fuel IH]; intros rs s Hs Hrs; cbn [parseredirs]; pose proof (peek_within s [60; 62] Hs) as H1; destruct (peek s _) as [[] s1]; try done.
  destruct (gettoken_at s1 H1) as [H2 _]. destruct (gettoken s1) as [tok s2]. destruct (gettoken_at s2 H2) as [H3 Hw]. destruct (gettoken s2) as [file s3].
  destruct file as [| | |p]; try done. destruct (Hw p eq_refl) as [w Hp]. apply IH; [done|]. apply Forall_app. split; [done|].
  assert (forall m fd, redir_ok (w, m, fd) -> Forall typed_redir [(p, m, fd)]) as H1r by (intros m fd Hok; repeat constructor; by exists (w, m, fd)).
  destruct tok as [|c| |w']; repeat case_match; try (by apply Forall_nil); apply H1r; (split; [apply Hp|]); auto.
Qed.
Lemma parseargs_typed fuel : forall args rs s, within s -> Forall (fun p => exists w, word_at p w) args -> Z.of_nat (length args) < MAXARGS -> Forall typed_redir rs ->
  yields typed (parseargs fuel args rs s).
Proof using Hplain.
  induction fuel as [|fuel IH]; intros args rs s Hs Ha Hn Hrs; cbn [parseargs]; pose proof (peek_within s [124; 41; 38; 59] Hs) as H1; destruct (peek s _) as [[] s1]; try done;
    try (split; [by apply typed_redircmds; [apply typed_exec|]|done]).
  destruct (gettoken_at s1 H1) as [H2 Hw]. destruct (gettoken s1) as [tok s2]. destruct tok as [| | |p]; try done; [split; [by apply typed_redircmds; [apply typed_exec|]|done]|].
  destruct (Z.leb_spec MAXARGS (Z.of_nat (length (args ++ [p])))) as [|Hlt]; [done|]. eapply yields_bind; [by apply parseredirs_typed|]. intros rs' s3 Hrs' H3.
  apply IH; [done| |done|done]. apply Forall_app. split; [done|]. constructor; [by apply Hw|done].
Qed.
Lemma parseback_typed fuel : forall c s, within s -> typed c -> yields typed (parseback fuel c s).
Proof using Hplain.
  induction fuel as [|fuel IH]; intros c s Hs Hc; cbn [parseback]; pose proof (peek_within s [38] Hs) as H1; destruct (peek s _) as [[] s1]; try done.
  destruct (gettoken_at s1 H1) as [H2 _]. destruct (gettoken s1) as [tok s2]. apply IH; [done|]. destruct Hc as (sc & Hc & Hw). exists (SBack sc). split; [by constructor|done].
Qed.
Lemma typed_list l r : typed l -> typed r -> typed (LIST l r).
Proof. intros (sl & Hl & Wl) (sr & Hr & Wr). exists (SList sl sr). split; [by constructor|done]. Qed.
Lemma typed_pipe l r : typed l -> typed r -> typed (PIPE l r).
Proof. intros (sl & Hl & Wl) (sr & Hr & Wr). exists (SPipe sl sr). split; [by constructor|done]. Qed.

(** A token taken after [peek]. *)
Lemma yields_token {B} s toks (Q : B -> Prop) (k1 k2 : list Z -> presult B) : within s -> (forall t, within t -> yields Q (k1 t)) -> (forall t, within t -> yields Q (k2 t)) ->
  yields Q (let (yes, t) := peek s toks in if yes then let (_, v) := gettoken t in k1 v else k2 t).
Proof using Hplain.
  intros Hs H1 H2. pose proof (peek_within s toks Hs) as Ht. destruct (peek s toks) as [[] t]; [|by apply H2].
  destruct (gettoken_at t Ht) as [Hv _]. destruct (gettoken t) as [tok v]. by apply H1.
Qed.
Lemma parse_typed fuel : forall s, within s ->
  yields typed (parseline fuel s) /\ yields typed (parsepipe fuel s) /\ yields typed (parseexec fuel s) /\ yields typed (parseblock fuel s).
Proof using Hplain.
  induction fuel as [|fuel IH]; intros s Hs; [done|]. splits; cbn [parseline parsepipe parseexec parseblock].
  - eapply yields_bind; [by apply IH|]. intros c s1 Hc H1. eapply yields_bind; [by apply parseback_typed|]. intros c' s2 Hc' H2.
    apply (yields_token s2 [59] typed (fun v => let? (d, s) := parseline fuel v in POk (LIST c' d) s) (fun t => POk c' t)); [done| |done].
    intros t Ht. eapply yields_bind; [by apply IH|]. intros d s3 Hd H3. split; [by apply typed_list|done].
  - eapply yields_bind; [by apply IH|]. intros c s1 Hc H1.
    apply (yields_token s1 [124] typed (fun v => let? (d, s) := parsepipe fuel v in POk (PIPE c d) s) (fun t => POk c t)); [done| |done].
    intros t Ht. eapply yields_bind; [by apply IH|]. intros d s3 Hd H3. split; [by apply typed_pipe|done].
  - pose proof (peek_within s [40] Hs) as H1. destruct (peek s _) as [[] s1]; [by apply IH|]. eapply yields_bind; [by apply parseredirs_typed|]. intros. by apply parseargs_typed.
  - pose proof (peek_within s [40] Hs) as H1. destruct (peek s _) as [[] s1]; [|done]. cbn [negb]. destruct (gettoken_at s1 H1) as [H2 _]. destruct (gettoken s1) as [? s2].
    eapply yields_bind; [by apply IH|]. intros c s3 Hc H3. pose proof (peek_within s3 [41] H3) as H4. destruct (peek s3 _) as [[] s4]; [|done]. cbn [negb].
    destruct (gettoken_at s4 H4) as [H5 _]. destruct (gettoken s4) as [? s5]. eapply yields_bind; [by apply parseredirs_typed|]. intros rs s6 Hrs H6. split; [by apply typed_redircmds|done].
Qed.
End typed.
End parse.

Lemma line_kept line : words_kept line (line ++ [0]).
Proof. split; [rewrite length_app; cbn; lia|]. intros i x Hi _. by apply lookup_app_l_Some. Qed.

(** The command that [parsecmd] returns, with its strings. *)
Lemma parsecmd_writable line c buf s : Forall (fun x => x <> 0) line -> parsecmd line = POk (c, buf) s -> writable (strings buf c) /\ s = [] /\ length buf = S (length line).
Proof.
  intros Hp. unfold parsecmd. destruct (parse_typed line Hp (parse_fuel line) line ltac:(by exists [])) as [H _].
  destruct (parseline (parse_fuel line) line) as [c1 s1| |]; [|done|done]. cbn [yields pbind] in *. destruct H as [(sc & Hc & Hw) _].
  destruct (peek s1 []) as [? [|x s2]]; [|done]. intros [= <- <- <-]. destruct (nulterminate_kept line c1 sc Hc _ (line_kept line)) as (K & E & _).
  rewrite (strings_at line c1 sc) by done. split; [done|]. split; [done|]. apply K.
Qed.



(** C31. Every command the shell can represent is parsed back from its text:
    for a command [c] whose words are words and whose redirections are [<],
    [>] or [>>], written with the precedence of [;], [&], [|] and redirections
    and with parentheses where needed, [parsecmd] returns a command whose
    strings, in the buffer that [nulterminate] leaves behind, are those
    of [c]. *)
Theorem parse_show c : writable c ->
  exists c' buf, parsecmd (show 0 c) = POk (c', buf) [] /\ strings buf c' = c.
Proof.
  intros Hw. destruct (show_back (show 0 c) c Hw) as (HL & _).
  destruct (HL (parse_fuel (show 0 c)) []) as (c' & Ep & Hc); rewrite ?app_nil_r in *; [by exists []|by left|done|].
  exists c', (nulterminate c' (show 0 c ++ [0])). unfold parsecmd. rewrite Ep. split; [done|].
  destruct (nulterminate_kept (show 0 c) c' c Hc _ (line_kept (show 0 c))) as (K & E & _). by apply (strings_at (show 0 c)).
Qed.

(** [(ls | grep a > f; rm b) & ] and its text. *)
Definition ex_cmd : scmd :=
  SBack (SList (SPipe (SExec [chars "ls"]) (SRedir (SExec [chars "grep"; chars "a"]) (chars "f") MODE_OUT 1)) (SExec [chars "rm"; chars "b"])).
Lemma word_check w : negb (bool_decide (w = [])) && forallb (fun c => is_word c && negb (c =? 0)) w = true -> word w.
Proof.
  intros [Hn%negb_true_iff%bool_decide_eq_false Hw]%andb_true_iff. split; [done|]. apply Forall_forall. intros c Hc.
  rewrite forallb_forall in Hw. apply list_elem_of_In in Hc. apply Hw in Hc. apply andb_true_iff in Hc as [? Hz%negb_true_iff%Z.eqb_neq]. done.
Qed.
Lemma ex_cmd_writable : writable ex_cmd.
Proof.
  repeat match goal with
         | |- _ /\ _ => split
         | |- Forall _ _ => constructor
         | |- word _ => by apply word_check
         | |- redir_ok _ => split
         | |- _ < _ => done
         | |- _ \/ _ => by right; left
         | |- _ => progress cbn [ex_cmd writable fst snd]
         end.
Qed.

Lemma parse_show_witness :
  show 0 ex_cmd = chars "(ls|grep a>f;rm b)&" /\ exists c' buf, parsecmd (show 0 ex_cmd) = POk (c', buf) [] /\ strings buf c' = ex_cmd.
Proof. split; [reflexivity|]. exact (parse_show ex_cmd ex_cmd_writable). Defined.
