(* ===== verification/ShRun.v ===== *)
(** * Running commands (user/sh.c: runcmd, getcmd, main)

    The shell as an interaction tree of system calls, and what it amounts to:
    [on_fds] keeps the descriptor table of a process, [plan] says which programs
    a command starts and with which open files. *)

From ITree Require Import ITree ITreeFacts Events.State Events.StateFacts.
From S2P Require Import Prelude Fcntl Console Usys Uprintf Sh ShProof.
Local Open Scope uprog_scope.

(** ** sh.c *)

Definition shpanic {A} (msg : list Z) : uprog A :=
  fprintf 2 "%s
" [UStr (Some msg)] ,, exit_ 1.

Definition fork1 : uprog Z :=
  do pid := ITree.trigger Sfork in
  if pid =? -1 then shpanic (chars "fork") else Ret pid.

(** [runcmd] does not return. *)
Fixpoint runcmd (c : scmd) : uprog void :=
  match c with
  | SExec [] => exit_ 1
  | SExec (a :: argv) =>
      ITree.trigger (Sexec a (a :: argv)) ,,
      fprintf 2 "exec %s failed
" [UStr (Some a)] ,,
      exit_ 0
  | SRedir c file mode fd =>
      close_ fd ,,
      do r := open_ file mode in
      if r <? 0 then
        fprintf 2 "open %s failed
" [UStr (Some file)] ,,
        exit_ 1
      else runcmd c
  | SList l r =>
      do pid := fork1 in
      if pid =? 0 then runcmd l else
      ITree.trigger Swait ,,
      runcmd r
  | SPipe l r =>
      do (r0, (p0, p1)) := ITree.trigger Spipe in
      if r0 <? 0 then shpanic (chars "pipe") else
      do pid := fork1 in
      if pid =? 0 then
        close_ 1 ,, ITree.trigger (Sdup p1) ,, close_ p0 ,, close_ p1 ,, runcmd l
      else
      do pid := fork1 in
      if pid =? 0 then
        close_ 0 ,, ITree.trigger (Sdup p0) ,, close_ p0 ,, close_ p1 ,, runcmd r
      else
      close_ p0 ,, close_ p1 ,, ITree.trigger Swait ,, ITree.trigger Swait ,, exit_ 0
  | SBack c =>
      do pid := fork1 in
      if pid =? 0 then runcmd c else exit_ 0
  end.

(** The string that [getcmd] leaves in the buffer; [None] at the end of file. *)
Definition getcmd (nbuf : Z) : uprog (option (list Z)) :=
  fprintf 2 "$ " [] ,,
  do buf := ugets nbuf in
  let line := upto_nul buf in
  Ret (match line with [] => None | _ => Some line end).

(** The first loop of [main]: three descriptors are open. *)
Definition console_body (u : unit) : uprog (unit + unit) :=
  do fd := open_ (chars "console") O_RDWR in
  if fd <? 0 then Ret (inr tt) else
  if 3 <=? fd then close_ fd ,, Ret (inr tt) else Ret (inl tt).

(** The child runs what it parses; the messages of the parser go to the
    standard error. *)
Definition run_line (line : list Z) : uprog void :=
  match parsecmd line with
  | POk (c, buf) _ => runcmd (strings buf c)
  | PPanic out => putcs 2 out ,, exit_ 1
  | PFuel => ITree.spin
  end.

(** The argument of a [cd] command; the line ends in a newline that is
    chopped. *)
Definition cd_dir (line : list Z) : option (list Z) :=
  if bool_decide (take 3 line = [99; 100; 32]) then Some (take (length line - 4) (drop 3 line)) else None.

Definition main_body (u : unit) : uprog (unit + unit) :=
  do cmd := getcmd 100 in
  match cmd with
  | None => Ret (inr tt)
  | Some line =>
      match cd_dir line with
      | Some dir =>
          do r := ITree.trigger (Schdir dir) in
          if r <? 0 then
            fprintf 2 "cannot cd %s
" [UStr (Some dir)] ,,
            Ret (inl tt)
          else Ret (inl tt)
      | None =>
          do pid := fork1 in
          if pid =? 0 then do x := run_line line in match x : void with end else
          ITree.trigger Swait ,, Ret (inl tt)
      end
  end.

Definition sh_main : uprog void :=
  ITree.iter console_body tt ,,
  ITree.iter main_body tt ,,
  exit_ 0.

(** ** Descriptor tables

    What a descriptor refers to: something that the process was given, a file
    it opened, an end of a pipe. *)

Inductive fobj := Given (n : nat) | FileOf (path : list Z) (mode : Z) | PipeR (p : nat) | PipeW (p : nat).
Abbreviation fdt := (gmap Z fobj).

(** What is left for the rest of the system to decide: whether a file can be
    opened, the bytes that are read, whether there is memory for a pipe, which
    is then numbered, the process identifiers.  A program is started with the
    descriptor table that it gets. *)
Variant procE : Type -> Type :=
| Popen (path : list Z) (mode : Z) : procE bool
| Pread (f : fobj) (n : Z) : procE (Z * list Z)
| Pwrite (f : fobj) (bs : list Z) : procE Z
| Ppipe : procE (option nat)
| Pexec (path : list Z) (argv : list (list Z)) (t : fdt) : procE Z
| Pexit (status : Z) : procE void
| Pother {A} (e : sysE A) : procE A.

(** The lowest free descriptor. *)
Fixpoint free_from (k : nat) (fd : Z) (t : fdt) : option Z :=
  match k with
  | O => None
  | S k' => match t !! fd with None => Some fd | Some _ => free_from k' (fd + 1) t end
  end.
Definition lowest_fd (t : fdt) : option Z := free_from 16 0 t.

Definition on_fds : sysE ~> Monads.stateT fdt (itree procE) := fun R e t =>
  match e in sysE R return itree procE (fdt * R) with
  | Sopen path mode =>
      do ok := ITree.trigger (Popen path mode) in
      match ok, lowest_fd t with
      | true, Some fd => Ret (<[fd := FileOf path mode]> t, fd)
      | _, _ => Ret (t, -1)
      end
  | Sread fd n =>
      match t !! fd with
      | Some f => do r := ITree.trigger (Pread f n) in Ret (t, r)
      | None => Ret (t, (-1, []))
      end
  | Swrite fd bs =>
      match t !! fd with
      | Some f => do r := ITree.trigger (Pwrite f bs) in Ret (t, r)
      | None => Ret (t, -1)
      end
  | Sclose fd => Ret (delete fd t, match t !! fd with Some _ => 0 | None => -1 end)
  | Sdup fd =>
      match t !! fd, lowest_fd t with
      | Some f, Some fd' => Ret (<[fd' := f]> t, fd')
      | _, _ => Ret (t, -1)
      end
  | Spipe =>
      do p := ITree.trigger Ppipe in
      match p, lowest_fd t with
      | Some p, Some fd0 =>
          match lowest_fd (<[fd0 := PipeR p]> t) with
          | Some fd1 => Ret (<[fd1 := PipeW p]> (<[fd0 := PipeR p]> t), (0, (fd0, fd1)))
          | None => Ret (t, (-1, (0, 0)))
          end
      | _, _ => Ret (t, (-1, (0, 0)))
      end
  | Sexec path argv => do r := ITree.trigger (Pexec path argv t) in Ret (t, r)
  | Sexit status => do x := ITree.trigger (Pexit status) in match x : void with end
  | e => do r := ITree.trigger (Pother e) in Ret (t, r)
  end.

Definition exec_fds {A} (p : uprog A) (t : fdt) : itree procE (fdt * A) := interp_state on_fds p t.

(** ** What a command means

    A process prints on [err] and ends with a status; [spawn] is [fork]: the
    tree goes on with the child for the answer 0. *)

Fixpoint say (err : fobj) (l : list Z) : itree procE unit :=
  match l with
  | [] => Ret tt
  | c :: l' => ITree.trigger (Pwrite err [wrap8 c]) ,, say err l'
  end.
Definition quit {A} (status : Z) : itree procE A :=
  do x := ITree.trigger (Pexit status) in match x : void with end.
Definition spawn {A} (err : fobj) (child parent : itree procE A) : itree procE A :=
  do pid := ITree.trigger (Pother Sfork) in
  if pid =? -1 then say err (chars "fork" ++ [10]) ,, quit 1 else
  if pid =? 0 then child else parent.
Definition await : itree procE Z := ITree.trigger (Pother Swait).

(** The programs of a command and their open files: a redirection replaces
    descriptor [fd]; a pipe connects descriptor 1 of the left side with
    descriptor 0 of the right one, and neither side, nor the shell, has another
    descriptor for it. *)
Fixpoint plan {A} (err : fobj) (c : scmd) (t : fdt) : itree procE A :=
  match c with
  | SExec [] => quit 1
  | SExec (a :: argv) =>
      ITree.trigger (Pexec a (a :: argv) t) ,,
      say err (chars "exec " ++ a ++ chars " failed" ++ [10]) ,, quit 0
  | SRedir c file mode fd =>
      do ok := ITree.trigger (Popen file mode) in
      if ok : bool then plan err c (<[fd := FileOf file mode]> t)
      else say err (chars "open " ++ file ++ chars " failed" ++ [10]) ,, quit 1
  | SPipe l r =>
      do p := ITree.trigger Ppipe in
      match p with
      | None => say err (chars "pipe" ++ [10]) ,, quit 1
      | Some p =>
          spawn err (plan err l (<[1 := PipeW p]> t))
            (spawn err (plan err r (<[0 := PipeR p]> t))
              (await ,, await ,, quit 0))
      end
  | SList l r => spawn err (plan err l t) (await ,, plan err r t)
  | SBack c => spawn err (plan err c t) (quit 0)
  end.

(** The shell itself: it prompts, reads a line of less than 100 characters,
    changes its directory or has a child run the line, and waits for it. *)
Definition read_line (inp : fobj) : itree procE (list Z) :=
  ITree.iter (fun buf : list Z =>
    if Z.of_nat (length buf) + 1 <? 100 then
      do (cc, b) := ITree.trigger (Pread inp 1) in
      if cc <? 1 then Ret (inr buf) else
      let c := default 0 (head b) in
      if (c =? 10) || (c =? 13) then Ret (inr (buf ++ [c])) else Ret (inl (buf ++ [c]))
    else Ret (inr buf)) [].

Definition plan_line {A} (err : fobj) (line : list Z) (t : fdt) : itree procE A :=
  match parsecmd line with
  | POk (c, buf) _ => plan err (strings buf c) t
  | PPanic out => say err out ,, quit 1
  | PFuel => ITree.spin
  end.

Definition command (inp err : fobj) (t : fdt) : itree procE (unit + unit) :=
  say err (chars "$ ") ,,
  do buf := read_line inp in
  let line := upto_nul buf in
  if decide (line = []) then Ret (inr tt) else
  match cd_dir line with
  | Some dir =>
      do r := ITree.trigger (Pother (Schdir dir)) in
      if r <? 0 then say err (chars "cannot cd " ++ dir ++ [10]) ,, Ret (inl tt) else Ret (inl tt)
  | None => spawn err (plan_line err line t) (await ,, Ret (inl tt))
  end.
Definition session {A} (inp err : fobj) (t : fdt) : itree procE A :=
  ITree.trigger (Popen (chars "console") O_RDWR) ,,
  ITree.iter (fun _ => command inp err t) tt ,,
  quit 0.

(** ** Running the shell *)

(** The three standard descriptors are open, and no others. *)
Record std (err : fobj) (t : fdt) : Prop := Std {
  std_low : t !! 0 <> None /\ t !! 1 <> None;
  std_err : t !! 2 = Some err;
  std_none : forall fd, 3 <= fd < 16 -> t !! fd = None }.

Lemma lowest_fd_eq t fd : 0 <= fd < 16 -> t !! fd = None -> (forall i, 0 <= i < fd -> t !! i <> None) -> lowest_fd t = Some fd.
Proof.
  intros Hfd Hn Hlow. unfold lowest_fd. assert (forall k i, 0 <= i <= fd -> fd < i + Z.of_nat k -> free_from k i t = Some fd) as H; [|apply H; lia].
  induction k as [|k IH]; intros i Hi Hk; [lia|]. cbn [free_from]. destruct (decide (i = fd)) as [->|Hne]; [by rewrite Hn|].
  destruct (t !! i) eqn:E; [apply IH; lia|]. by destruct (Hlow i ltac:(lia)).
Qed.

(** Steps of [exec_fds]. *)
Lemma exec_ret {A} (a : A) t : eutt eq (exec_fds (Ret a) t) (Ret (t, a)).
Proof. unfold exec_fds. rewrite interp_state_ret. reflexivity. Qed.
Lemma exec_bind {A B} (p : uprog A) (k : A -> uprog B) t :
  eutt eq (exec_fds (ITree.bind p k) t) (do (t', a) := exec_fds p t in exec_fds (k a) t').
Proof. unfold exec_fds. rewrite interp_state_bind. apply eutt_eq_bind. intros [t' a]. reflexivity. Qed.
Lemma exec_call {A} (e : sysE A) t : eutt eq (exec_fds (ITree.trigger e) t) (on_fds A e t).
Proof. unfold exec_fds. rewrite interp_state_trigger. reflexivity. Qed.
Lemma exec_proper {A} (p q : uprog A) t : eutt eq p q -> eutt eq (exec_fds p t) (exec_fds q t).
Proof. intros H. unfold exec_fds. rewrite H. reflexivity. Qed.

(** A call, then the rest. *)
Lemma exec_step {A B} (e : sysE A) (k : A -> uprog B) t :
  eutt eq (exec_fds (ITree.bind (ITree.trigger e) k) t) (do (t', a) := on_fds A e t in exec_fds (k a) t').
Proof. rewrite exec_bind, exec_call. reflexivity. Qed.

Lemma exec_exit {A} st t : eutt eq (exec_fds (A := A) (exit_ st) t) (quit (A := fdt * A) st).
Proof. unfold exit_. rewrite exec_step. cbn [on_fds]. rewrite bind_bind. apply eutt_eq_bind. intros []. Qed.

Lemma exec_putcs err l t : t !! 2 = Some err -> eutt eq (exec_fds (putcs 2 l) t) (say err l ,, Ret (t, tt)).
Proof.
  intros He. induction l as [|c l IH]; cbn [putcs say]; [by rewrite exec_ret, bind_ret_l|].
  unfold putc. rewrite bind_bind. unfold write_. rewrite exec_step. cbn [on_fds]. rewrite He, !bind_bind. apply eutt_eq_bind. intros r.
  rewrite bind_ret_l, exec_bind, exec_ret, bind_ret_l. exact IH.
Qed.
Lemma exec_fprintf {B} err fmt ap (k : uprog B) t l : t !! 2 = Some err -> format (chars fmt) ap = l ->
  eutt eq (exec_fds (fprintf 2 fmt ap ,, k) t) (say err l ,, exec_fds k t).
Proof.
  intros He <-. rewrite exec_bind, (exec_proper _ _ _ (fprintf_text _ _ _)), (exec_putcs err) by done. rewrite bind_bind. apply eutt_eq_bind. intros [].
  by rewrite bind_ret_l.
Qed.

Lemma format_str msg rest ap : format (37 :: 115 :: rest) (UStr (Some msg) :: ap) = msg ++ format rest ap.
Proof. reflexivity. Qed.

Lemma exec_shpanic {A} err msg t : t !! 2 = Some err -> eutt eq (exec_fds (A := A) (shpanic msg) t) (say err (msg ++ [10]) ,, quit 1).
Proof. intros He. unfold shpanic. rewrite (exec_fprintf err) by (reflexivity || done). apply eutt_eq_bind. intros _. apply exec_exit. Qed.

Lemma exec_spawn {A} err (a b : uprog A) t : t !! 2 = Some err ->
  eutt eq (exec_fds (do pid := fork1 in if pid =? 0 then a else b) t) (spawn err (exec_fds a t) (exec_fds b t)).
Proof.
  intros He. unfold fork1, spawn. rewrite bind_bind, exec_step. cbn [on_fds]. rewrite bind_bind. apply eutt_eq_bind. intros pid. rewrite bind_ret_l.
  destruct (pid =? -1).
  - rewrite exec_bind, (exec_shpanic err) by done. rewrite bind_bind. apply eutt_eq_bind. intros _. unfold quit. rewrite bind_bind. apply eutt_eq_bind. intros [].
  - rewrite bind_ret_l. destruct (pid =? 0); reflexivity.
Qed.
Lemma spawn_cong {A} err (a a' b b' : itree procE A) : eutt eq a a' -> eutt eq b b' -> eutt eq (spawn err a b) (spawn err a' b').
Proof.
  intros Ha Hb. unfold spawn. apply eutt_eq_bind. intros pid. destruct (pid =? -1); [reflexivity|]. by destruct (pid =? 0).
Qed.

Lemma exec_close {B} fd (k : uprog B) t : eutt eq (exec_fds (close_ fd ,, k) t) (exec_fds k (delete fd t)).
Proof. unfold close_. rewrite exec_step. cbn [on_fds]. by rewrite bind_ret_l. Qed.
Lemma exec_dup {B} fd f fd' (k : uprog B) t : t !! fd = Some f -> lowest_fd t = Some fd' ->
  eutt eq (exec_fds (ITree.trigger (Sdup fd) ,, k) t) (exec_fds k (<[fd' := f]> t)).
Proof. intros Hf Hfree. rewrite exec_step. cbn [on_fds]. by rewrite Hf, Hfree, bind_ret_l. Qed.
Lemma exec_wait {B} (k : uprog B) t : eutt eq (exec_fds (ITree.trigger Swait ,, k) t) (await ,, exec_fds k t).
Proof. rewrite exec_step. cbn [on_fds]. rewrite bind_bind. apply eutt_eq_bind. intros r. by rewrite bind_ret_l. Qed.

(** ** Descriptors of a pipeline *)

#[local] Ltac lookups := repeat first [rewrite lookup_insert_eq | rewrite lookup_insert_ne by lia | rewrite lookup_delete_eq | rewrite lookup_delete_ne by lia].

Lemma std_insert err t fd f : std err t -> fd = 0 \/ fd = 1 -> std err (<[fd := f]> t).
Proof.
  intros [[A B] C D] Hfd. split.
  - destruct Hfd as [-> | ->]; split; by lookups.
  - by rewrite lookup_insert_ne by lia.
  - intros x Hx. rewrite lookup_insert_ne by lia. by apply D.
Qed.

Lemma std_free err t : std err t -> lowest_fd t = Some 3.
Proof.
  intros [[A B] C D]. apply lowest_fd_eq; [lia|by apply D|]. intros i Hi. assert (i = 0 \/ i = 1 \/ i = 2) as [-> |[-> | ->]] by lia; congruence.
Qed.

(** The table of the child that has end [fd] of the pipe in descriptors 3 and 4:
    after [close], [dup] and two more [close] it has descriptor [fd] instead. *)
Lemma pipe_child {B} err t fd p x f (k : uprog B) : std err t -> fd = 0 \/ fd = 1 -> x = 3 /\ f = PipeR p \/ x = 4 /\ f = PipeW p ->
  eutt eq (exec_fds (close_ fd ,, ITree.trigger (Sdup x) ,, close_ 3 ,, close_ 4 ,, k) (<[4 := PipeW p]> (<[3 := PipeR p]> t)))
    (exec_fds k (<[fd := f]> t)).
Proof.
  intros [[A0 A1] C D] Hfd Hx. rewrite exec_close. rewrite (exec_dup _ f fd).
  - rewrite !exec_close. replace (delete 4 _) with (<[fd := f]> t); [reflexivity|]. apply map_eq. intros i.
    destruct (decide (i = fd)) as [->|]; [destruct Hfd as [-> | ->]; by lookups|].
    destruct (decide (i = 3)) as [->|]; [lookups; by rewrite D|]. destruct (decide (i = 4)) as [->|]; [lookups; by rewrite D|]. by lookups.
  - destruct Hx as [[-> ->]|[-> ->]]; by lookups.
  - apply lowest_fd_eq; [lia|by lookups|]. intros i Hi. assert (i = 0) as -> by lia. assert (fd = 1) as -> by lia. by lookups.
Qed.

(** ** Commands *)

Lemma exec_runcmd err c : forall t, std err t -> writable c -> eutt eq (exec_fds (runcmd c) t) (plan err c t).
Proof.
  induction c as [argv|c IH file mode fd|l IHl r IHr|l IHl r IHr|c IH]; intros t Ht Hc; pose proof (std_err _ _ Ht) as He; cbn [runcmd plan].
  - destruct argv as [|a argv]; [apply exec_exit|]. rewrite exec_step. cbn [on_fds]. rewrite bind_bind. apply eutt_eq_bind. intros x. rewrite bind_ret_l.
    rewrite (exec_fprintf err _ _ _ _ (chars "exec " ++ a ++ chars " failed" ++ [10])) by done. apply eutt_eq_bind. intros _. apply exec_exit.
  - destruct Hc as [Hc [_ Hr]]. assert (fd = 0 \/ fd = 1) as Hfd by (cbn in Hr; destruct Hr as [[= _ ->]|[[= _ ->]|[= _ ->]]]; auto).
    rewrite exec_close. unfold open_. rewrite exec_step. cbn [on_fds]. rewrite bind_bind. apply eutt_eq_bind. intros [|].
    + rewrite (lowest_fd_eq _ fd), bind_ret_l. 
      * rewrite (proj2 (Z.ltb_ge _ _)) by lia. rewrite insert_delete_eq. apply IH; [by apply std_insert|done].
      * lia.
      * by lookups.
      * intros i Hi. assert (i = 0) as -> by lia. assert (fd = 1) as -> by lia. lookups. apply Ht.
    + rewrite bind_ret_l. change (-1 <? 0) with true. cbn match.
      rewrite (exec_fprintf err _ _ _ _ (chars "open " ++ file ++ chars " failed" ++ [10])); [|by lookups|done]. apply eutt_eq_bind. intros _. apply exec_exit.
  - destruct Hc as [Hl Hr]. rewrite exec_step. cbn [on_fds]. rewrite bind_bind. apply eutt_eq_bind. intros [p|].
    2:{ rewrite bind_ret_l. change (-1 <? 0) with true. cbn match. by apply exec_shpanic. }
    pose proof (std_free _ _ Ht) as F3.
    assert (lowest_fd (<[3 := PipeR p]> t) = Some 4) as F4.
    { apply lowest_fd_eq; [lia|lookups; by apply Ht|]. intros i Hi. destruct Ht as [[? ?] ? ?]. assert (i = 0 \/ i = 1 \/ i = 2 \/ i = 3) as [-> |[-> |[-> | ->]]] by lia; lookups; congruence. }
    rewrite F3, F4, bind_ret_l. change (0 <? 0) with false. cbn match. set (t' := <[4 := PipeW p]> (<[3 := PipeR p]> t)). assert (t' !! 2 = Some err) as He' by (unfold t'; by lookups).
    rewrite (exec_spawn err) by done. apply spawn_cong.
    + unfold t'. rewrite (pipe_child err t 1 p 4 (PipeW p)) by auto. apply IHl; [apply std_insert; auto|done].
    + rewrite (exec_spawn err) by done. apply spawn_cong.
      * unfold t'. rewrite (pipe_child err t 0 p 3 (PipeR p)) by auto. apply IHr; [apply std_insert; auto|done].
      * rewrite !exec_close, !exec_wait. apply eutt_eq_bind. intros _. rewrite exec_wait. apply eutt_eq_bind. intros _. apply exec_exit.
  - destruct Hc as [Hl Hr]. rewrite (exec_spawn err) by done. apply spawn_cong; [by apply IHl|]. rewrite exec_wait. apply eutt_eq_bind. intros _. by apply IHr.
  - rewrite (exec_spawn err) by done. apply spawn_cong; [by apply IH|apply exec_exit].
Qed.

Lemma upto_nul_plain l : Forall (fun x => x <> 0) (upto_nul l).
Proof. induction l as [|c l IH]; [constructor|]. cbn [upto_nul]. destruct (Z.eqb_spec c 0); by constructor. Qed.

Lemma exec_run_line err line t : Forall (fun x => x <> 0) line -> std err t -> eutt eq (exec_fds (run_line line) t) (plan_line err line t).
Proof.
  intros Hl Ht. unfold run_line, plan_line. destruct (parsecmd line) as [[c buf] s|out|] eqn:Ep.
  - apply exec_runcmd; [done|]. by apply (parsecmd_writable line c buf s).
  - rewrite exec_bind, (exec_putcs err) by apply Ht. rewrite bind_bind. apply eutt_eq_bind. intros []. rewrite bind_ret_l. apply exec_exit.
  - by destruct (parsecmd_total line).
Qed.

(** ** main *)

(** A loop that leaves the table as it is. *)
Lemma exec_iter {I A} (body : I -> uprog (I + A)) (sbody : I -> itree procE (I + A)) t :
  (forall i, eutt eq (exec_fds (body i) t) (do r := sbody i in Ret (t, r))) ->
  forall i, eutt eq (exec_fds (ITree.iter body i) t) (do a := ITree.iter sbody i in Ret (t, a)).
Proof.
  intros Hb i. unfold exec_fds. rewrite eutt_eq_interp_state_iter.
  match goal with |- eutt _ ?x _ => rewrite <- (bind_ret_r x) end. apply eutt_clo_bind with (UU := fun (x : fdt * A) (a : A) => x = (t, a)); [|by intros ? a ->; reflexivity].
  unfold Basics.iter, MonadIter_stateT0, Basics.iter, MonadIter_itree. apply (eutt_iter' (fun (x : fdt * I) (j : I) => x = (t, j))); [|done].
  intros x j ->. cbn [fst snd]. unfold exec_fds in Hb. cbn. rewrite Hb, bind_bind. rewrite <- (bind_ret_r (sbody j)) at 2.
  apply eutt_clo_bind with (UU := eq); [reflexivity|]. intros u1 u2 <-. rewrite bind_ret_l. cbn [fst snd].
  destruct u1 as [k|a]; apply eqit_Ret; by constructor.
Qed.

(** Trees that do not return. *)
Lemma quit_bind {A B} st (k : A -> itree procE B) : eutt eq (ITree.bind (quit st) k) (quit st).
Proof. unfold quit. rewrite bind_bind. apply eutt_eq_bind. intros []. Qed.
Lemma say_quit_bind {A B} err l st (k : A -> itree procE B) : eutt eq (ITree.bind (say err l ,, quit st) k) (say err l ,, quit st).
Proof. rewrite bind_bind. apply eutt_eq_bind. intros _. apply quit_bind. Qed.
Lemma spawn_bind {A B} err a b (k : A -> itree procE B) : eutt eq (ITree.bind (spawn err a b) k) (spawn err (ITree.bind a k) (ITree.bind b k)).
Proof.
  unfold spawn. rewrite bind_bind. apply eutt_eq_bind. intros pid. destruct (pid =? -1); [apply say_quit_bind|]. destruct (pid =? 0); reflexivity.
Qed.
Lemma plan_bind {A B} err c (k : A -> itree procE B) : forall t, eutt eq (ITree.bind (plan err c t) k) (plan err c t).
Proof.
  induction c as [argv|c IH file mode fd|l IHl r IHr|l IHl r IHr|c IH]; intros t; cbn [plan].
  - destruct argv; [apply quit_bind|]. rewrite bind_bind. apply eutt_eq_bind. intros _. apply say_quit_bind.
  - rewrite bind_bind. apply eutt_eq_bind. intros [|]; [apply IH|apply say_quit_bind].
  - rewrite bind_bind. apply eutt_eq_bind. intros [p|]; [|apply say_quit_bind]. rewrite !spawn_bind. apply spawn_cong; [apply IHl|]. 
    rewrite spawn_bind. apply spawn_cong; [apply IHr|]. rewrite !bind_bind. apply eutt_eq_bind. intros _. rewrite bind_bind. apply eutt_eq_bind. intros _. apply quit_bind.
  - rewrite spawn_bind. apply spawn_cong; [apply IHl|]. rewrite bind_bind. apply eutt_eq_bind. intros _. apply IHr.
  - rewrite spawn_bind. apply spawn_cong; [apply IH|apply quit_bind].
Qed.
Lemma plan_line_bind {A B} err line t (k : A -> itree procE B) : eutt eq (ITree.bind (plan_line err line t) k) (plan_line err line t).
Proof.
  unfold plan_line. destruct (parsecmd line) as [[c buf] s|out|] eqn:Ep; [apply plan_bind|apply say_quit_bind|]. by destruct (parsecmd_total line).
Qed.

Lemma exec_gets inp t : t !! 0 = Some inp -> eutt eq (exec_fds (ugets 100) t) (do l := read_line inp in Ret (t, l)).
Proof.
  intros H0. apply exec_iter. intros buf. unfold gets_body. destruct (_ <? 100); [|by rewrite exec_ret, bind_ret_l].
  unfold read_. rewrite exec_step. cbn [on_fds]. rewrite H0, !bind_bind. apply eutt_eq_bind. intros [cc b]. rewrite bind_ret_l.
  destruct (cc <? 1); [by rewrite exec_ret, bind_ret_l|]. destruct (_ || _); by rewrite exec_ret, bind_ret_l.
Qed.

Lemma exec_command inp err t u : std err t -> t !! 0 = Some inp -> eutt eq (exec_fds (main_body u) t) (do r := command inp err t in Ret (t, r)).
Proof.
  intros Ht H0. pose proof (std_err _ _ Ht) as He. unfold main_body, command, getcmd. rewrite !bind_bind.
  rewrite (exec_fprintf err _ _ _ _ (chars "$ ")) by done. rewrite (bind_bind (say _ _)). apply eutt_eq_bind. intros _. rewrite bind_bind, exec_bind, (exec_gets inp) by done.
  rewrite !bind_bind. apply eutt_eq_bind. intros buf. rewrite bind_ret_l, bind_ret_l. destruct (upto_nul buf) as [|c line'] eqn:El.
  { rewrite decide_True by done. by rewrite exec_ret, bind_ret_l. }
  rewrite decide_False by done. set (line := c :: line'). destruct (cd_dir line) as [dir|].
  - rewrite exec_step. cbn [on_fds]. rewrite !bind_bind. apply eutt_eq_bind. intros r. rewrite bind_ret_l. destruct (r <? 0); [|by rewrite exec_ret, bind_ret_l].
    rewrite (exec_fprintf err _ _ _ _ (chars "cannot cd " ++ dir ++ [10])) by done. rewrite bind_bind. apply eutt_eq_bind. intros _. by rewrite exec_ret, bind_ret_l.
  - rewrite (exec_spawn err), spawn_bind by done. apply spawn_cong.
    + rewrite exec_bind, (exec_run_line err), !plan_line_bind by (done || by unfold line; rewrite <- El; apply upto_nul_plain). reflexivity.
    + rewrite exec_wait, bind_bind. apply eutt_eq_bind. intros _. by rewrite exec_ret, bind_ret_l.
Qed.

(** The first loop finds the descriptors open: it tries once. *)
Lemma exec_console {A} err t (k : uprog A) : std err t ->
  eutt eq (exec_fds (ITree.iter console_body tt ,, k) t) (ITree.trigger (Popen (chars "console") O_RDWR) ,, exec_fds k t).
Proof.
  intros Ht. pose proof (std_free _ _ Ht) as F3.
  rewrite exec_bind. unfold exec_fds at 1. rewrite unfold_iter. unfold console_body at 1. rewrite bind_bind.
  match goal with |- eutt _ (ITree.bind (interp_state on_fds ?p t) _) _ => change (interp_state on_fds p t) with (exec_fds p t) end.
  unfold open_. rewrite exec_step. cbn [on_fds]. rewrite !bind_bind. apply eutt_eq_bind. intros ok. rewrite F3.
  destruct ok; rewrite !bind_ret_l.
  - change (3 <? 0) with false. change (3 <=? 3) with true. cbn match. rewrite bind_bind, exec_close. rewrite delete_insert_id by (by apply Ht).
    rewrite exec_bind, exec_ret, bind_ret_l, exec_ret, bind_ret_l. reflexivity.
  - change (-1 <? 0) with true. cbn match. rewrite bind_ret_l, exec_ret, bind_ret_l. reflexivity.
Qed.

(** C19.  The shell runs what is typed: started with its three standard
    descriptors, it prompts, reads lines and has each of them carried out as
    [plan] says.  In particular every program of a pipeline is started with its
    redirections applied and with exactly the two ends of the pipe that belong to
    it, no process keeps another descriptor of a pipe, and every call that can
    fail ends in its message and exit status. *)
Theorem sh_correct inp err t : std err t -> t !! 0 = Some inp -> eutt eq (exec_fds sh_main t) (session inp err t).
Proof.
  intros Ht H0. unfold sh_main, session. rewrite (exec_console err) by done. apply eutt_eq_bind. intros _.
  rewrite exec_bind, (exec_iter _ (fun _ => command inp err t)) by (intros u; by apply exec_command). rewrite bind_bind. apply eutt_eq_bind. intros [].
  rewrite bind_ret_l. apply exec_exit.
Qed.

Definition ex_table : fdt := {[ 0 := Given 0; 1 := Given 0; 2 := Given 0 ]}.

Lemma sh_correct_witness : eutt eq (exec_fds sh_main ex_table) (session (Given 0) (Given 0) ex_table).
Proof.
  apply sh_correct; [|done]. split; [done|done|]. intros fd Hfd. unfold ex_table. rewrite !lookup_insert_ne by lia. apply lookup_singleton_ne. lia.
Defined.
